(* ===== verification/_CoqProject ===== *)
-Q . S2P
Prelude.v
Store.v
Database.v
JsString.v
JsonText.v
Base64.v
Pagination.v
Platform.v
Request.v
TenantScope.v
AuditTrail.v
Tenancy.v
Sessions.v
SessionsSpec.v
Outbox.v
Otp.v
OtpSpec.v
Passwords.v
Account.v
AccountSpec.v
PasswordsSpec.v
Organizations.v
OrganizationsSpec.v
Roles.v
AccessControl.v
PermissionsSpec.v
Worker.v
OutboxLifecycle.v
WorkerSpec.v
Idempotency.v
IdempotencySpec.v
Stripe.v
StripeCharges.v
StripeRefunds.v
StripeMethods.v
StripeWebhooks.v
StripeSpec.v
EnvConfig.v
UploadStorage.v
Uploads.v
UploadsSpec.v
Erasure.v
Chat.v
ChatSpec.v
ClientIp.v
ClientIpSpec.v
RateLimit.v
RateLimitSpec.v
Users.v
Guards.v
Notifications.v
Templates.v
Senders.v
Calendar.v
Maintenance.v
MaintenanceSpec.v
AuditJobs.v
TenancyBackfill.v
Scheduler.v
SchedulerSpec.v
ChatHandshake.v
ChatGateway.v
ChatGatewaySpec.v
Http.v
HttpSpec.v
AuthApi.v
AuthApiSpec.v
AdminApi.v
AdminApiSpec.v
BillingApi.v
ChargesSpec.v
WebhooksSpec.v
BillingApiSpec.v
ContentApi.v
OperationsApi.v
Docs.v
App.v
AppSpec.v
DocsSpec.v
Seed.v
