(* ===== verification/Prelude.v ===== *)
(** * production-backend-foundation: a verification development

    The repository is the backend of a multi-tenant service in TypeScript: an Express API and a socket.io gateway over
    PostgreSQL (Prisma) and Redis, a worker process behind BullMQ, and a few maintenance jobs. This library models its
    own logic, file by file, as executable definitions, and proves what makes each part correct. Paths below are under
    src/src/ unless they start with scripts/ or prisma/.

    ** How the program is modelled

    - State. [Database.World] holds one list of rows per Prisma model of prisma/schema.prisma with the columns the code
      reads or writes, the notices published on the revocation channel, and the number of identifiers drawn so far.
      [Store.Model] says of a table which columns are unique and whether the soft-delete extension of lib/prisma.ts
      hides its deleted rows. Redis, the stores of objects, and what a socket.io node keeps are states of their own.
    - Effects. [Prelude.Tx] is the body of a database transaction: a throw leaves nothing of it. [Prelude.Proc] is a
      handler: a throw keeps what was committed before. Errors are values ([Prelude.Error]: lib/errors.ts, Prisma's known
      errors, plain errors). Transactions are atomic steps, as the isolation level, the advisory locks and the row locks
      of the code make them; where the code relies on less, interleavings are step relations.
    - Ambient values. [Request.Ambient] carries the clock and the asynchronous request context (lib/request-context.ts).
      What a handler draws at random is an argument.
    - What is outside the source is a parameter: [Platform.Platform] (node:crypto, bcrypt, jose, libphonenumber, the
      validated environment), [RateLimit.Redis], [Stripe.StripeClient], [UploadStorage.S3Client] and [fetch], the senders'
      SDK clients, zod's formats, [Scheduler.JobSchedulers]. Laws that a theorem needs are named hypotheses or classes of
      laws, and a concrete instance (for instance [Platform.demoPlatform], [RateLimitSpec.memoryRedis]) shows they hold
      together.
    - Text is a list of 8-bit characters, JavaScript's numbers are integers ([Z]) where the code uses them as such, with
      the bounds the code or PostgreSQL checks (safe integers, 64-bit columns) written out.
    - Loops over pages or batches take fuel; the theorems about them say how much is enough (never more than the number
      of rows plus one), and give the result, not only its correctness.

    ** The files

    Foundations. Prelude: notation ([===], [???], record update [r <| f := v |>]), JSON, errors, the two monads, the
    tactics [pres], [tx_inv], [proc_inv], [bools]. Store: tables and the Prisma calls, with the lemmas and the hint
    database [pres] that carry invariants through handlers. Database: rows. JsString, JsonText, Base64, Calendar: strings,
    dates, JSON.parse and JSON.stringify with their round trip, base64url, months. Platform, Request: above.
    TenantScope: lib/tenant-scope.ts on the argument objects it rewrites, then the scoped statements [sc_findFirst] etc.
    the services use. AuditTrail: modules/audit/audit.integrity.ts and the transactional write.

    Identity. Tenancy, Sessions, Otp, Passwords, Account: modules/auth/*.service.ts, lib/jwt.ts and
    modules/organizations/organizations.tenancy.ts. Organizations, Roles, Users: the services of those modules.
    AccessControl: middleware/access-control.ts. Guards: lib/auth-transport.ts, lib/cookies.ts, middleware/csrf.ts,
    middleware/error-handler.ts. ClientIp, RateLimit: lib/client-ip.ts, lib/rate-limit.ts, middleware/rate-limit.ts,
    modules/auth/auth.abuse.ts. Pagination, Idempotency: lib/cursor-pagination.ts, lib/offset-pagination.ts,
    lib/idempotency.ts, middleware/idempotency.ts. EnvConfig: config/env.ts.

    Delivery. Outbox: modules/outbox. Worker: queues/notification.worker.ts. Notifications, Templates, Senders:
    modules/notifications. A service writes an outbox row in its own transaction ([Outbox.addOutboxEvent]); the relay
    claims and enqueues it; the worker processes the job and calls a sender.

    Billing and content. Stripe, StripeCharges, StripeRefunds, StripeMethods, StripeWebhooks: modules/stripe. UploadStorage,
    Uploads, Erasure: modules/uploads and modules/auth/account-erasure.service.ts. Chat, ChatHandshake, ChatGateway:
    modules/chat; the gateway authenticates with Sessions and AccessControl, limits with RateLimit, and serves with Chat.

    The API. Http: app.ts from the request context on, middleware/request-validation.ts, the guards of a router and
    lib/api-response.ts; a request runs on an [Http.Exchange], the database with the counters and the permission cache of
    Redis and the response's cookies and headers, from [Http.serveRequest] to a [Http.Reply]. AuthApi, AdminApi, BillingApi:
    schemas, controllers and routers of modules/auth, of modules/users, roles and organizations, and of modules/stripe,
    over the services above. ContentApi: those of modules/uploads and modules/chat. OperationsApi: those of modules/outbox,
    audit, scheduler and notifications (with the previews of e-mails outside production). App: buildApp's list
    of routers in its order and the system routes. Docs: modules/docs/docs.document.ts, the document built as JSON exactly
    as the code builds it, and the routes that serve it.

    Jobs. Maintenance, AuditJobs: maintenance/. Scheduler: scheduler/. TenancyBackfill: scripts/tenancy-backfill.ts.
    Seed: prisma/seed.ts, the permissions and system roles that the routes ask for, and the first administrator.

    A file [XSpec] holds the properties of X where X does not hold them itself (WorkerSpec and OutboxLifecycle those of the
    outbox and the worker, ChargesSpec and WebhooksSpec those of billing, Maintenance those of the upload sweep).

    ** What the theorems show

    - Access. At most one refresh token of a session is usable and a replay ends the session (SessionsSpec); a request is
      authenticated only by a live session of an active user in an active membership, and a cached permission is the
      database's decision (PermissionsSpec); a suspended user is out at once (Users); codes lock out (OtpSpec); a
      reset ends every session (PasswordsSpec); a deleted account leaves nothing personal (AccountSpec), and its objects
      are erased from the storage (Erasure); an organization keeps an owner (OrganizationsSpec).
    - Isolation. A scoped query reaches one organization's rows or throws (TenantScope); a chat room reaches only
      participants in its organization, whatever the interleaving, the sweep of open sockets keeps exactly those a
      handshake would accept again, and a handshake accepts exactly the tokens a request would (ChatGatewaySpec).
    - Exactly once. Every statement of the relay and the worker moves an event along its state machine in any interleaving
      (OutboxLifecycle), a recorded delivery is not sent again (WorkerSpec), an idempotent operation runs once and is
      replayed exactly (IdempotencySpec), a message is stored once and numbered without a gap (ChatSpec), a payment is
      final and webhook events may come in any order (StripeSpec, ChargesSpec, WebhooksSpec), two scheduled runs of a job
      never overlap within their lease (SchedulerSpec).
    - The surface. Every route of the application asks for exactly the credential, tenant and permission its class in
      the access matrix says, and a request by a safe method writes nothing (AppSpec); the published OpenAPI document lists
      the routes the application serves (but those of the groups [DocsSpec.undocumented]), each with the credentials it asks
      for, and all its references resolve (DocsSpec); after seeding, an owner holds every permission a route asks inside an
      organization and the administrator every one asked on the platform (Seed). What is refused leaves the database as it was, whatever the request (HttpSpec); an organization is
      managed only from within and the platform only by a platform role (AdminApiSpec), billing by whom the deployment
      bills, and its retries run nothing (BillingApiSpec); a session's tokens leave by one channel, and the routes that
      cost money or try a secret fail closed without their counters (AuthApiSpec).
    - Bounds. Storage and bandwidth quotas hold (UploadsSpec), a window admits its limit (RateLimitSpec), addresses fall
      into the right bucket (ClientIpSpec), an accepted environment is well formed (EnvConfig).
    - Data. Cursors visit every row once (Pagination); retention deletes what is due, all of it and nothing in use
      (MaintenanceSpec); the audit verification counts every row (AuditJobs); the tenancy backfill leaves nothing
      behind (TenancyBackfill); a rendered e-mail has its template's markup only (Templates); an unsubscribe
      link works for what it was made for (Notifications).
    - Some theorems exhibit a behaviour that is not what the code says of itself; the manifest lists them as findings.

    ** Not modelled

    Express's matching of other spellings of a path, CORS, helmet and body parsing, the files of swagger-ui, zod's JSON
    schemas of its own schemas (a parameter of Docs) and its coercion of the scalar settings (a parameter of EnvConfig),
    logging, metrics, tracing and Sentry (no effect on the state), connection management and process life cycle
    (lib/redis.ts, queues/notification.queue.ts, runtime/, server.ts, worker.ts), BullMQ's and socket.io's engines, the
    reading of template files, and the scripts that generate load or the skeleton of a module. *)

From Stdlib Require Import ZArith Lia Bool Permutation.
From Stdlib Require Export String Ascii.
From stdpp Require Export base tactics option list strings numbers.

#[export] Set Warnings "-notation-overridden".

(** ** JavaScript-flavoured notation *)

Declare Scope js_scope.
Delimit Scope js_scope with js.

(** [a === b] is the source's strict equality on scalars, a boolean. *)
Notation "x === y" := (bool_decide (x = y)) (at level 70, no associativity) : js_scope.
Notation "x !== y" := (negb (bool_decide (x = y))) (at level 70, no associativity) : js_scope.
(** [o ??? d] is the source's [o ?? d] on an optional value. *)
Notation "o ??? d" := (default d o) (at level 60, right associativity) : js_scope.
Open Scope js_scope.

(** Truthiness of an optional string ([if (value)]): present and not empty. *)
Definition truthy (o : option string) : bool :=
  match o with Some s => negb (bool_decide (s = EmptyString)) | None => false end.

(** [a?.k] chains: [is_set] is [value !== null], [is_null] is [value === null]. *)
Definition is_set {A} (o : option A) : bool := match o with Some _ => true | None => false end.
Definition is_null {A} (o : option A) : bool := negb (is_set o).

(** Comparison of an optional date with an instant, SQL style: NULL compares to nothing. *)
Definition opt_lt (o : option Z) (t : Z) : bool := match o with Some x => (x <? t)%Z | None => false end.
Definition opt_le (o : option Z) (t : Z) : bool := match o with Some x => (x <=? t)%Z | None => false end.

(** ** Functional record update

    [r <| f := v |>] and [r <| f ::= g |>]. A record type gives one [Eta] instance (its
    constructor applied to all its projections); the setter of a field is found by abstracting
    the projection out of it. *)

Class Eta (R : Type) := eta : R -> R.
Class FieldSet {R T : Type} (proj : R -> T) := field_set : (T -> T) -> R -> R.

Ltac find_field_set :=
  match goal with
  | |- @FieldSet ?R ?T ?proj =>
      let i := constr:(_ : Eta R) in
      let e := eval unfold eta in (@eta R i) in
      let e := eval hnf in e in
      lazymatch e with context [proj] => idtac end;
      match eval pattern proj in e with
      | ?h _ => exact (fun (g : T -> T) => h (fun r => g (proj r)))
      end
  end.
#[export] Hint Extern 1 (FieldSet _) => find_field_set : typeclass_instances.

Notation "r <| f ::= g |>" := (field_set (proj := f) g r)
  (at level 1, f at next level, left associativity) : js_scope.
Notation "r <| f := v |>" := (field_set (proj := f) (fun _ => v) r)
  (at level 1, f at next level, left associativity) : js_scope.

(** ** JSON values: request bodies, outbox payloads, audit metadata, provider objects *)

Inductive Json :=
  | JNull
  | JBool (b : bool)
  | JNum (n : Z)
  | JStr (s : string)
  | JArr (l : list Json)
  | JObj (fields : list (string * Json)).

(** Property read of a value: [undefined] is [None]. *)
Fixpoint assoc {A} (k : string) (l : list (string * A)) : option A :=
  match l with
  | [] => None
  | (k', v) :: l' => if k === k' then Some v else assoc k l'
  end.

Definition jget (k : string) (j : Json) : option Json :=
  match j with JObj fields => assoc k fields | _ => None end.

(** ** Errors

    [AppError] is lib/errors.ts; [Known] is Prisma's known request error with its code; [Failure]
    is a plain [Error] with its message. *)

Inductive ErrorCode :=
  | BAD_REQUEST | UNAUTHENTICATED | FORBIDDEN | NOT_FOUND | CONFLICT | RATE_LIMITED
  | SERVICE_UNAVAILABLE | INVALID_CSRF_TOKEN | INTERNAL_ERROR.

#[export] Instance ErrorCode_eq_dec : EqDecision ErrorCode.
Proof. solve_decision. Defined.

Inductive Error :=
  | AppError (statusCode : Z) (code : ErrorCode) (message : string) (retryAfterSeconds : option Z)
  | Known (code : string)
  | Failure (message : string)
  | TypeError (message : string).

#[export] Instance Error_eq_dec : EqDecision Error.
Proof. solve_decision. Defined.

Module errors.

Definition badRequest (m : string) : Error := AppError 400 BAD_REQUEST m None.
Definition unauthenticated (m : string) : Error := AppError 401 UNAUTHENTICATED m None.
Definition forbidden (m : string) : Error := AppError 403 FORBIDDEN m None.
Definition notFound (m : string) : Error := AppError 404 NOT_FOUND m None.
Definition conflict (m : string) : Error := AppError 409 CONFLICT m None.
Definition rateLimited (m : string) (retryAfterSeconds : Z) : Error :=
  AppError 429 RATE_LIMITED m (Some (Z.max 1 retryAfterSeconds)).
Definition serviceUnavailable (m : string) : Error := AppError 503 SERVICE_UNAVAILABLE m None.
Definition invalidCsrf : Error := AppError 403 INVALID_CSRF_TOKEN "Invalid CSRF token" None.

End errors.

(** [error.message]; a known database error stands by its code. *)
Definition errorMessage (e : Error) : string :=
  match e with
  | AppError _ _ m _ => m
  | Known code => code
  | Failure m => m
  | TypeError m => m
  end.

(** ** Results, transactions and procedures

    A [Tx] is the body of an interactive database transaction: it either commits, giving the new
    state, or throws, in which case nothing of it is kept. A [Proc] is a handler: it may throw
    after some of its transactions committed, so the state is returned in both cases. *)

Inductive res (A : Type) :=
  | Ok (a : A)
  | Err (e : Error).
Arguments Ok {A} a.
Arguments Err {A} e.

Section Monads.
Context {S : Type}.

Definition Tx (A : Type) : Type := S -> res (A * S).
Definition Proc (A : Type) : Type := S -> res A * S.

#[export] Instance tx_ret : MRet Tx := fun A a s => Ok (a, s).
#[export] Instance tx_bind : MBind Tx := fun A B k m s =>
  match m s with Ok (a, s') => k a s' | Err e => Err e end.
Definition tx_throw {A} (e : Error) : Tx A := fun _ => Err e.

#[export] Instance proc_ret : MRet Proc := fun A a s => (Ok a, s).
#[export] Instance proc_bind : MBind Proc := fun A B k m s =>
  match m s with (Ok a, s') => k a s' | (Err e, s') => (Err e, s') end.
Definition throw {A} (e : Error) : Proc A := fun s => (Err e, s).

(** [prisma.$transaction]: rollback on throw. A single statement outside an interactive
    transaction is its own transaction. *)
Definition transact {A} (m : Tx A) : Proc A := fun s =>
  match m s with Ok (a, s') => (Ok a, s') | Err e => (Err e, s) end.

Definition try_catch {A} (m : Proc A) (h : Error -> Proc A) : Proc A := fun s =>
  match m s with (Ok a, s') => (Ok a, s') | (Err e, s') => h e s' end.
End Monads.
Arguments Tx S A : clear implicits.
Arguments Proc S A : clear implicits.

(** [for (const x of xs) body] in a transaction and in a handler. *)
Fixpoint tx_for {S X} (xs : list X) (body : X -> Tx S unit) : Tx S unit :=
  match xs with
  | [] => mret ()
  | x :: xs' => body x ;; tx_for xs' body
  end.

(** [await] of something computed outside the store that may throw. *)
Definition tx_lift {S A} (r : res A) : Tx S A := fun s =>
  match r with Ok a => Ok (a, s) | Err e => Err e end.

(** [if (!condition) throw error]. *)
Definition tx_guard {S} (b : bool) (e : Error) : Tx S unit := if b then mret () else tx_throw e.

(** [if (value === null) throw error], continuing with the value. *)
Definition tx_require {S A} (o : option A) (e : Error) : Tx S A :=
  match o with Some a => mret a | None => tx_throw e end.

(** ** Reasoning about transactions and procedures *)

Section Laws.
Context {S : Type}.
Implicit Types (I : S -> Prop).

Lemma bind_ok {A B} (m : Tx S A) (k : A -> Tx S B) s b s' :
  (m ≫= k) s = Ok (b, s') <-> exists a s1, m s = Ok (a, s1) /\ k a s1 = Ok (b, s').
Proof.
  unfold mbind, tx_bind. split.
  - destruct (m s) as [[a s1]|]; [eauto|done].
  - intros (a & s1 & -> & ?). done.
Qed.

Lemma ret_ok {A} (a b : A) (s s' : S) : (mret a : Tx S A) s = Ok (b, s') <-> a = b /\ s = s'.
Proof. unfold mret, tx_ret. split; [intros; by simplify_eq|by intros [-> ->]]. Qed.

Lemma guard_ok c e (s : S) u s' : tx_guard c e s = Ok (u, s') <-> c = true /\ s = s'.
Proof. unfold tx_guard, mret, tx_ret, tx_throw. destruct u, c; naive_solver. Qed.

Lemma require_ok {A} (o : option A) e (s : S) a s' :
  tx_require o e s = Ok (a, s') <-> o = Some a /\ s = s'.
Proof. unfold tx_require, mret, tx_ret, tx_throw. destruct o; naive_solver. Qed.

Lemma lift_ok {A} (r : res A) (s : S) a s' : tx_lift r s = Ok (a, s') <-> r = Ok a /\ s = s'.
Proof. unfold tx_lift. destruct r; naive_solver. Qed.

(** [m] keeps [I] whenever it commits; a rolled back transaction keeps everything. *)
Definition tx_pres {A} I (m : Tx S A) : Prop := forall s a s', I s -> m s = Ok (a, s') -> I s'.
(** A handler keeps [I] whether it returns or throws. *)
Definition proc_pres {A} I (p : Proc S A) : Prop := forall s, I s -> I (snd (p s)).

Lemma pres_ret {A} I (a : A) : tx_pres I (mret a).
Proof. intros s b s' Hs [_ ->]%ret_ok. done. Qed.
Lemma pres_throw {A} I e : tx_pres (A := A) I (tx_throw e).
Proof. by intros s a s'. Qed.
Lemma pres_bind {A B} I (m : Tx S A) (k : A -> Tx S B) :
  tx_pres I m -> (forall a, tx_pres I (k a)) -> tx_pres I (m ≫= k).
Proof. intros Hm Hk s b s' Hs (a & s1 & H1 & H2)%bind_ok. exact (Hk _ _ _ _ (Hm _ _ _ Hs H1) H2). Qed.
Lemma pres_lift {A} I (r : res A) : tx_pres I (tx_lift r).
Proof. intros s a s' Hs [_ ->]%lift_ok. done. Qed.
Lemma pres_guard I c e : tx_pres I (tx_guard c e).
Proof. intros s a s' Hs [_ ->]%guard_ok. done. Qed.
Lemma pres_require {A} I (o : option A) e : tx_pres I (tx_require o e).
Proof. intros s a s' Hs [_ ->]%require_ok. done. Qed.
Lemma pres_for {X} I (xs : list X) body :
  (forall x, tx_pres I (body x)) -> tx_pres I (tx_for xs body).
Proof. intros Hb. induction xs; cbn; [apply pres_ret|]. apply pres_bind; auto. Qed.

Lemma pres_transact {A} I (m : Tx S A) : tx_pres I m -> proc_pres I (transact m).
Proof. intros Hm s Hs. unfold transact. destruct (m s) as [[a s']|e] eqn:E; cbn; eauto. Qed.
Lemma pres_proc_ret {A} I (a : A) : proc_pres I (mret a).
Proof. by intros s. Qed.
Lemma pres_proc_throw {A} I e : proc_pres (A := A) I (throw e).
Proof. by intros s. Qed.
Lemma pres_proc_bind {A B} I (m : Proc S A) (k : A -> Proc S B) :
  proc_pres I m -> (forall a, proc_pres I (k a)) -> proc_pres I (m ≫= k).
Proof.
  intros Hm Hk s Hs. specialize (Hm s Hs). unfold mbind, proc_bind.
  destruct (m s) as [[a|e] s']; [by apply Hk|done].
Qed.
Lemma pres_try_catch {A} I (m : Proc S A) h :
  proc_pres I m -> (forall e, proc_pres I (h e)) -> proc_pres I (try_catch m h).
Proof.
  intros Hm Hh s Hs. specialize (Hm s Hs). unfold try_catch.
  destruct (m s) as [[a|e] s']; [done|by apply Hh].
Qed.

Lemma transact_ok {A} (m : Tx S A) s a s' : transact m s = (Ok a, s') <-> m s = Ok (a, s').
Proof. unfold transact. destruct (m s) as [[b s1]|e]; split; intros; by simplify_eq. Qed.

Lemma proc_bind_ok {A B} (m : Proc S A) (k : A -> Proc S B) s b s' :
  (m ≫= k) s = (Ok b, s') <-> exists a s1, m s = (Ok a, s1) /\ k a s1 = (Ok b, s').
Proof.
  unfold mbind, proc_bind. split.
  - destruct (m s) as [[a|e] s1]; [eauto|done].
  - by intros (a & s1 & -> & ?).
Qed.

Lemma proc_ret_ok {A} (a b : A) (s s' : S) : (mret a : Proc S A) s = (Ok b, s') <-> a = b /\ s = s'.
Proof. unfold mret, proc_ret. split; [intros; by simplify_eq|by intros [-> ->]]. Qed.

Lemma try_catch_ok {A} (m : Proc S A) h s b s' : try_catch m h s = (Ok b, s') ->
  m s = (Ok b, s') \/ exists e s1, m s = (Err e, s1) /\ h e s1 = (Ok b, s').
Proof. unfold try_catch. destruct (m s) as [[a|e] s1]; [by left|]. intros Hh. right. eauto. Qed.

Lemma try_catch_run {A} (m : Proc S A) h s r s' : try_catch m h s = (r, s') ->
  (exists a, m s = (Ok a, s') /\ r = Ok a) \/ (exists e s1, m s = (Err e, s1) /\ h e s1 = (r, s')).
Proof. unfold try_catch. destruct (m s) as [[a|e] s1]; intros Hr; [left|right; eauto]. injection Hr as <- <-. eauto. Qed.

Lemma transact_run {A} (m : Tx S A) s r s' : transact m s = (r, s') ->
  (exists a, m s = Ok (a, s') /\ r = Ok a) \/ (exists e, m s = Err e /\ r = Err e /\ s' = s).
Proof. unfold transact. destruct (m s) as [[a s1]|e]; intros [= <- <-]; eauto. Qed.

(** A run of a sequence either stopped in its first part or went on from where that part returned. *)
Lemma proc_bind_run {A B} (m : Proc S A) (k : A -> Proc S B) s r s' : (m ≫= k) s = (r, s') ->
  (exists e, m s = (Err e, s') /\ r = Err e) \/ (exists a s1, m s = (Ok a, s1) /\ k a s1 = (r, s')).
Proof.
  unfold mbind, proc_bind. destruct (m s) as [[a|e] s1]; intros Hr; [right; eauto|left].
  injection Hr as <- <-. eauto.
Qed.
Lemma proc_pres_run {A} I (p : Proc S A) s r s' : proc_pres I p -> I s -> p s = (r, s') -> I s'.
Proof. intros Hp Hs Hr. specialize (Hp s Hs). by rewrite Hr in Hp. Qed.

Lemma proc_bind_pres {A B} I (m : Proc S A) (k : A -> Proc S B) s r s' : proc_pres I m -> I s ->
  (m ≫= k) s = (r, s') ->
  (exists e, r = Err e /\ I s') \/ (exists a s1, m s = (Ok a, s1) /\ I s1 /\ k a s1 = (r, s')).
Proof.
  intros Hm Hs [(e & H1 & ->)|(a & s1 & H1 & H2)]%proc_bind_run; pose proof (proc_pres_run _ _ _ _ _ Hm Hs H1); eauto 6.
Qed.

(** Running a handler one committed statement at a time. *)
Lemma proc_step {A B} (m : Tx S A) (k : A -> Proc S B) s a s' :
  m s = Ok (a, s') -> (transact m ≫= k) s = k a s'.
Proof. intros Hm. unfold mbind, proc_bind, transact. by rewrite Hm. Qed.
Lemma proc_step_err {A B} (m : Tx S A) (k : A -> Proc S B) s e :
  m s = Err e -> (transact m ≫= k) s = (Err e, s).
Proof. intros Hm. unfold mbind, proc_bind, transact. by rewrite Hm. Qed.
Lemma proc_call {A B} (m : Proc S A) (k : A -> Proc S B) s a s' :
  m s = (Ok a, s') -> (m ≫= k) s = k a s'.
Proof. intros Hm. unfold mbind, proc_bind. by rewrite Hm. Qed.
Lemma proc_call_err {A B} (m : Proc S A) (k : A -> Proc S B) s e s' :
  m s = (Err e, s') -> (m ≫= k) s = (Err e, s').
Proof. intros Hm. unfold mbind, proc_bind. by rewrite Hm. Qed.
Lemma try_call {A} (m : Proc S A) h s a s' : m s = (Ok a, s') -> try_catch m h s = (Ok a, s').
Proof. intros Hm. unfold try_catch. by rewrite Hm. Qed.
Lemma try_call_err {A} (m : Proc S A) h s e s' : m s = (Err e, s') -> try_catch m h s = h e s'.
Proof. intros Hm. unfold try_catch. by rewrite Hm. Qed.
Lemma tx_step {A B} (m : Tx S A) (k : A -> Tx S B) s a s' :
  m s = Ok (a, s') -> (m ≫= k) s = k a s'.
Proof. intros Hm. unfold mbind, tx_bind. by rewrite Hm. Qed.
Lemma tx_step_err {A B} (m : Tx S A) (k : A -> Tx S B) s e :
  m s = Err e -> (m ≫= k) s = Err e.
Proof. intros Hm. unfold mbind, tx_bind. by rewrite Hm. Qed.
End Laws.

(** What holds after a transaction commits: established by one of its statements, kept by the rest. *)
Section Post.
Context {S : Type}.

Definition tx_post {A} (Q : S -> Prop) (m : Tx S A) : Prop := forall s a s', m s = Ok (a, s') -> Q s'.

Lemma post_skip {A B} Q (m : Tx S A) (k : A -> Tx S B) : (forall a, tx_post Q (k a)) -> tx_post Q (m ≫= k).
Proof. intros Hk s b s' (a & s1 & _ & H)%bind_ok. by eapply Hk. Qed.
Lemma post_here {A B} Q (m : Tx S A) (k : A -> Tx S B) :
  tx_post Q m -> (forall a, tx_pres Q (k a)) -> tx_post Q (m ≫= k).
Proof. intros Hm Hk s b s' (a & s1 & H1 & H)%bind_ok. eapply Hk; [|done]. by eapply Hm. Qed.
Lemma kept_by {A} Q (m : Tx S A) s a s' : tx_pres Q m -> Q s -> m s = Ok (a, s') -> Q s'.
Proof. intros Hm Hs Hrun. by eapply Hm. Qed.
Lemma post_and {A} (Q1 Q2 : S -> Prop) (m : Tx S A) :
  tx_post Q1 m -> tx_post Q2 m -> tx_post (fun s => Q1 s /\ Q2 s) m.
Proof. intros H1 H2 s a s' H. split; [by eapply H1|by eapply H2]. Qed.
End Post.

Create HintDb pres.
#[export] Hint Resolve pres_ret pres_throw pres_lift pres_guard pres_require pres_transact
  pres_proc_ret pres_proc_throw : pres.

(** [pres] walks a handler: binds, loops, branches and the statements of the store. What remains
    are the statements on the tables the invariant speaks about. *)
Ltac pres_step :=
  lazymatch goal with
  | |- tx_pres _ (mbind _ _) => apply pres_bind; [|intros ?]
  | |- proc_pres _ (mbind _ _) => apply pres_proc_bind; [|intros ?]
  | |- proc_pres _ (try_catch _ _) => apply pres_try_catch; [|intros ?]
  | |- tx_pres _ (tx_for _ _) => apply pres_for; intros ?
  | |- tx_pres _ (match ?x with _ => _ end) => destruct x eqn:?
  | |- proc_pres _ (match ?x with _ => _ end) => destruct x eqn:?
  | |- tx_pres _ _ => solve [eauto 3 with pres nocore]
  | |- proc_pres _ _ => solve [eauto 3 with pres nocore] || apply pres_transact
  end.
Ltac pres := repeat (progress (cbn beta iota zeta) || pres_step).

(** Inversion of a successful run. *)
Ltac tx_inv H :=
  lazymatch type of H with
  | (_ ≫= _) _ = Ok _ =>
      let a := fresh "a" in let s := fresh "s" in let H1 := fresh H in
      apply bind_ok in H as (a & s & H1 & H); tx_inv H1; tx_inv H
  | mret _ _ = Ok _ => apply ret_ok in H as [? ?]; simplify_eq
  | tx_guard _ _ _ = Ok _ => apply guard_ok in H as [? ?]; simplify_eq
  | tx_require _ _ _ = Ok _ => apply require_ok in H as [? ?]; simplify_eq
  | tx_lift _ _ = Ok _ => apply lift_ok in H as [? ?]; simplify_eq
  | tx_throw _ _ = Ok _ => discriminate H
  | _ => idtac
  end.

Ltac proc_inv H :=
  lazymatch type of H with
  | (_ ≫= _) _ = (Ok _, _) =>
      let a := fresh "a" in let s := fresh "s" in let H1 := fresh H in
      apply proc_bind_ok in H as (a & s & H1 & H); proc_inv H1; proc_inv H
  | transact _ _ = (Ok _, _) => apply transact_ok in H; tx_inv H
  | mret _ _ = (Ok _, _) => apply proc_ret_ok in H as [? ?]; simplify_eq
  | throw _ _ = (Ok _, _) => discriminate H
  | _ => idtac
  end.

(** ** Boolean conditions of the source as propositions *)
Ltac bools :=
  repeat match goal with
  | H : _ && _ = true |- _ => apply andb_true_iff in H as [? ?]
  | H : _ || _ = false |- _ => apply orb_false_iff in H as [? ?]
  | H : negb _ = true |- _ => apply negb_true_iff in H
  | H : negb _ = false |- _ => apply negb_false_iff in H
  | H : bool_decide _ = true |- _ => apply bool_decide_eq_true in H
  | H : bool_decide _ = false |- _ => apply bool_decide_eq_false in H
  | H : (_ <=? _)%Z = true |- _ => apply Z.leb_le in H
  | H : (_ <=? _)%Z = false |- _ => apply Z.leb_gt in H
  | H : (_ <? _)%Z = true |- _ => apply Z.ltb_lt in H
  | H : (_ <? _)%Z = false |- _ => apply Z.ltb_ge in H
  | H : (_ <=? _)%nat = true |- _ => apply Nat.leb_le in H
  | H : (_ <=? _)%nat = false |- _ => apply Nat.leb_gt in H
  | H : (_ =? _)%nat = true |- _ => apply Nat.eqb_eq in H
  | H : (_ =? _)%nat = false |- _ => apply Nat.eqb_neq in H
  end.

Lemma bd_refl {A} (x : A) `{Decision (x = x)} : bool_decide (x = x) = true.
Proof. by apply bool_decide_true. Qed.

Lemma bd_ne {A} (x y : A) `{Decision (x = y)} : x <> y -> bool_decide (x = y) = false.
Proof. apply bool_decide_false. Qed.

Ltac destruct_units := repeat match goal with u : unit |- _ => destruct u end.
