(* ===== verification/Store.v ===== *)
(** * Tables and the Prisma client

    A table is the list of its rows in insertion order. The pure operations ([findFirst],
    [findMany], [countWhere], [updateWhere], [deleteWhere]) are the SQL statements the Prisma calls
    issue; a [Model] says where a row type lives in the state, which unique constraints it has and
    whether the mandatory soft-delete filter of lib/prisma.ts applies to it. *)

From Stdlib Require Import ZArith Lia Bool Permutation.
From stdpp Require Import sorting.
From S2P Require Import Prelude.

Section Table.
Context {R : Type}.
Implicit Types (P : R -> bool) (f : R -> R) (t : list R).

Definition findFirst P t : option R := List.find P t.
Definition findMany P t : list R := List.filter P t.
Definition countWhere P t : nat := List.length (List.filter P t).
Definition updateWhere P f t : list R := List.map (fun r => if P r then f r else r) t.
Definition deleteWhere P t : list R := List.filter (fun r => negb (P r)) t.

Lemma findFirst_Some P t r : findFirst P t = Some r -> In r t /\ P r = true.
Proof. apply List.find_some. Qed.

Lemma findFirst_None P t r : findFirst P t = None -> In r t -> P r = false.
Proof. intros H Hin. exact (List.find_none P t H r Hin). Qed.

Lemma findFirst_None_iff P t : findFirst P t = None <-> forall r, In r t -> P r = false.
Proof.
  split; [intros H r Hr; by eapply List.find_none|]. unfold findFirst.
  induction t as [|x t IH]; intros H; cbn; [done|]. rewrite (H x) by (by left). apply IH.
  intros r Hr. apply H. by right.
Qed.

Lemma findFirst_is_Some P t r : In r t -> P r = true -> exists r', findFirst P t = Some r'.
Proof.
  intros Hin HP. destruct (findFirst P t) as [r'|] eqn:E; [eauto|].
  rewrite (findFirst_None _ _ _ E Hin) in HP. discriminate.
Qed.

Lemma findFirst_ext P Q t : (forall r, In r t -> P r = Q r) -> findFirst P t = findFirst Q t.
Proof.
  unfold findFirst. induction t as [|r t IH]; intros H; [done|]. cbn.
  rewrite (H r) by (by left). destruct (Q r); [done|]. apply IH. intros; apply H. by right.
Qed.

Lemma In_findMany P t r : In r (findMany P t) <-> In r t /\ P r = true.
Proof. apply List.filter_In. Qed.

Lemma In_updateWhere P f t r :
  In r (updateWhere P f t) <-> exists r0, In r0 t /\ r = (if P r0 then f r0 else r0).
Proof.
  unfold updateWhere. rewrite List.in_map_iff.
  split; intros (r0 & H1 & H2); exists r0; by subst.
Qed.

Lemma In_deleteWhere P t r : In r (deleteWhere P t) <-> In r t /\ P r = false.
Proof. unfold deleteWhere. rewrite List.filter_In, negb_true_iff. done. Qed.

Lemma updateWhere_none P f t : (forall r, In r t -> P r = false) -> updateWhere P f t = t.
Proof.
  unfold updateWhere. induction t as [|r t IH]; intros H; cbn; [done|].
  rewrite (H r) by (by left). f_equal. apply IH. intros; apply H; by right.
Qed.

Lemma countWhere_0 P t : countWhere P t = 0 <-> forall r, In r t -> P r = false.
Proof.
  unfold countWhere. induction t as [|r t IH]; cbn; [by split|].
  destruct (P r) eqn:E; cbn.
  - split; [done|]. intros H. specialize (H r). rewrite H in E; [done|by left].
  - rewrite IH. split; intros H r' Hr'; [destruct Hr' as [<-|Hr']; auto|apply H; by right].
Qed.

Lemma countWhere_pos P t : 0 < countWhere P t <-> exists r, In r t /\ P r = true.
Proof.
  split.
  - intros H. destruct (List.existsb P t) eqn:E.
    + by apply List.existsb_exists in E.
    + assert (countWhere P t = 0); [|lia]. apply countWhere_0. intros r Hr.
      destruct (P r) eqn:E'; [|done]. rewrite <- E. symmetry. apply List.existsb_exists. eauto.
  - intros (r & Hr & HP). destruct (countWhere P t) eqn:E; [|lia].
    rewrite countWhere_0 in E. by rewrite E in HP.
Qed.

Lemma countWhere_le1_eq P t x y : countWhere P t <= 1 ->
  In x t -> P x = true -> In y t -> P y = true -> x = y.
Proof.
  intros Hc Hx HPx Hy HPy. assert (Hfx : In x (List.filter P t)) by (by apply List.filter_In).
  assert (Hfy : In y (List.filter P t)) by (by apply List.filter_In). unfold countWhere in Hc.
  destruct (List.filter P t) as [|a [|b l]]; cbn in *; [done| |lia].
  destruct Hfx as [->|[]], Hfy as [->|[]]. done.
Qed.

Lemma countWhere_ext P Q t : (forall r, In r t -> P r = Q r) -> countWhere P t = countWhere Q t.
Proof.
  unfold countWhere. induction t as [|r t IH]; intros H; cbn; [done|].
  rewrite (H r) by (by left). specialize (IH (fun r' Hr => H r' (or_intror Hr))).
  destruct (Q r); cbn; lia.
Qed.

Lemma countWhere_app P t1 t2 : countWhere P (t1 ++ t2) = countWhere P t1 + countWhere P t2.
Proof. unfold countWhere. by rewrite List.filter_app, length_app. Qed.

Lemma countWhere_le P t : countWhere P t <= length t.
Proof. unfold countWhere. induction t as [|r t IH]; cbn; [lia|]. destruct (P r); cbn; lia. Qed.

(** Counting [Q] after an update that leaves [Q] alone on the rows it touches. *)
Lemma countWhere_update_same P Q f t :
  (forall r, In r t -> P r = true -> Q (f r) = Q r) ->
  countWhere Q (updateWhere P f t) = countWhere Q t.
Proof.
  unfold countWhere, updateWhere. induction t as [|r t IH]; intros H; cbn; [done|].
  specialize (IH (fun r' Hr => H r' (or_intror Hr))).
  specialize (H r (or_introl eq_refl)). destruct (P r).
  - rewrite H by done. destruct (Q r); cbn; lia.
  - destruct (Q r); cbn; lia.
Qed.

(** An update that can only remove rows from [Q], and touches at most one of them. *)
Lemma countWhere_update_ge P Q f t :
  countWhere Q t <= countWhere Q (updateWhere P f t) + countWhere (fun r => P r && Q r) t.
Proof.
  unfold countWhere, updateWhere. induction t as [|r t IH]; cbn; [lia|].
  destruct (P r), (Q r), (Q (f r)); cbn in *; lia.
Qed.

Lemma countWhere_mono P Q t :
  (forall r, In r t -> P r = true -> Q r = true) -> countWhere P t <= countWhere Q t.
Proof.
  unfold countWhere. induction t as [|r t IH]; intros H; cbn; [lia|].
  specialize (IH (fun r' Hr => H r' (or_intror Hr))).
  specialize (H r (or_introl eq_refl)). destruct (P r).
  - rewrite H by done. cbn; lia.
  - destruct (Q r); cbn; lia.
Qed.

Lemma Forall_updateWhere (I : R -> Prop) P f t :
  (forall r, I r -> P r = true -> I (f r)) -> List.Forall I t -> List.Forall I (updateWhere P f t).
Proof.
  intros Hf. unfold updateWhere. induction 1 as [|r t Hr Ht IH]; cbn; constructor; [|done].
  destruct (P r) eqn:E; auto.
Qed.

Lemma Forall_deleteWhere (I : R -> Prop) P t : List.Forall I t -> List.Forall I (deleteWhere P t).
Proof.
  rewrite !List.Forall_forall. intros H r Hr. apply H. by apply In_deleteWhere in Hr as [? _].
Qed.

Lemma map_updateWhere {K} (key : R -> K) P f t :
  (forall r, P r = true -> key (f r) = key r) ->
  List.map key (updateWhere P f t) = List.map key t.
Proof.
  intros H. unfold updateWhere. rewrite List.map_map. apply List.map_ext. intros r.
  destruct (P r) eqn:E; auto.
Qed.

Lemma length_deleteWhere P t : length (deleteWhere P t) + countWhere P t = length t.
Proof.
  unfold deleteWhere, countWhere. induction t as [|r t IH]; cbn; [done|].
  destruct (P r); cbn; lia.
Qed.

(** Rows with distinct keys: a test that pins the key matches at most once. *)
Lemma countWhere_key_le1 {K} (key : R -> K) P t k :
  List.NoDup (List.map key t) -> (forall r, P r = true -> key r = k) -> countWhere P t <= 1.
Proof.
  unfold countWhere. intros Hnd HP. induction t as [|r t IH]; cbn in *; [lia|].
  apply List.NoDup_cons_iff in Hnd as [Hr Hnd]. specialize (IH Hnd).
  destruct (P r) eqn:E; cbn; [|lia].
  assert (Hz : List.length (List.filter P t) = 0); [|lia].
  apply countWhere_0. intros r' Hr'. destruct (P r') eqn:E'; [|done].
  contradict Hr. apply List.in_map_iff. exists r'. split; [|done].
  rewrite (HP _ E), (HP _ E'). done.
Qed.

Lemma NoDup_key_inj {K} (key : R -> K) t r r' :
  List.NoDup (List.map key t) -> In r t -> In r' t -> key r = key r' -> r = r'.
Proof.
  induction t as [|x t IH]; cbn; [done|]. intros Hnd Hr Hr' He.
  apply List.NoDup_cons_iff in Hnd as [Hx Hnd].
  destruct Hr as [->|Hr], Hr' as [->|Hr']; auto.
  - contradict Hx. rewrite He. by apply List.in_map.
  - contradict Hx. rewrite <- He. by apply List.in_map.
Qed.

Lemma NoDup_map_findMany {K} (key : R -> K) P t :
  List.NoDup (List.map key t) -> List.NoDup (List.map key (findMany P t)).
Proof.
  unfold findMany. induction t as [|x t IH]; cbn; [done|]. intros Hnd.
  apply List.NoDup_cons_iff in Hnd as [Hx Hnd]. specialize (IH Hnd).
  destruct (P x); cbn; [|done]. constructor; [|done]. contradict Hx.
  apply List.in_map_iff in Hx as (y & Hy & Hin). apply List.filter_In in Hin as [Hin _].
  apply List.in_map_iff. eauto.
Qed.

(** Two updates of disjointly selected rows commute, and identical ones collapse. *)
Lemma updateWhere_updateWhere P Q f g t :
  updateWhere Q g (updateWhere P f t) =
  List.map (fun r => let r' := if P r then f r else r in if Q r' then g r' else r') t.
Proof. unfold updateWhere. by rewrite List.map_map. Qed.
End Table.

(** ** Ordering and limits: [orderBy] on one column, [take] *)

Section Order.
Context {R : Type} (key : R -> Z).

Definition key_asc (a b : R) : Prop := (key a <= key b)%Z.
Definition key_desc (a b : R) : Prop := (key b <= key a)%Z.
#[export] Instance key_asc_dec : RelDecision key_asc.
Proof. intros a b. unfold key_asc. exact _. Defined.
#[export] Instance key_desc_dec : RelDecision key_desc.
Proof. intros a b. unfold key_desc. exact _. Defined.

Definition orderByAsc (t : list R) : list R := merge_sort key_asc t.
Definition orderByDesc (t : list R) : list R := merge_sort key_desc t.

Lemma In_orderByAsc t r : In r (orderByAsc t) <-> In r t.
Proof. unfold orderByAsc. by rewrite <- !list_elem_of_In, merge_sort_Permutation. Qed.
Lemma In_orderByDesc t r : In r (orderByDesc t) <-> In r t.
Proof. unfold orderByDesc. by rewrite <- !list_elem_of_In, merge_sort_Permutation. Qed.
Lemma orderByAsc_Permutation t : Permutation (orderByAsc t) t.
Proof. apply merge_sort_Permutation. Qed.
Lemma orderByDesc_Permutation t : Permutation (orderByDesc t) t.
Proof. apply merge_sort_Permutation. Qed.
Lemma orderByAsc_sorted t : StronglySorted key_asc (orderByAsc t).
Proof.
  apply StronglySorted_merge_sort; unfold key_asc; intros ?; intros; lia.
Qed.
Lemma orderByDesc_sorted t : StronglySorted key_desc (orderByDesc t).
Proof.
  apply StronglySorted_merge_sort; unfold key_desc; intros ?; intros; lia.
Qed.
End Order.

Lemma In_firstn {A} n (l : list A) x : In x (firstn n l) -> In x l.
Proof. revert l. induction n as [|n IH]; intros [|y l]; cbn; try done. intros [->|]; auto. Qed.

(** In a sorted list, what is taken comes before what is left. *)
Lemma sorted_take_le {A} (le : A -> A -> Prop) n (l : list A) x y :
  StronglySorted le l -> In x (firstn n l) -> In y (skipn n l) -> le x y.
Proof.
  revert l. induction n as [|n IH]; intros [|z l]; cbn; try done.
  intros Hs Hx Hy. apply StronglySorted_inv in Hs as [Hs Hz]. destruct Hx as [->|Hx]; [|eauto].
  rewrite List.Forall_forall in Hz. apply Hz. rewrite <- (firstn_skipn n l). apply in_or_app; by right.
Qed.

(** ** Models *)

Class Model (S R : Type) := {
  table : S -> list R;
  put : (list R -> list R) -> S -> S;
  (** two rows violate a unique constraint of the model *)
  clash : R -> R -> bool;
  (** the [deletedAt] column, for the models of [softDeleteModels] *)
  softDeletedAt : R -> option Z;
}.

(** What a store promises about a model: reading back what was put, and nothing else of it moved. *)
Class ModelLaws (S R : Type) `{Model S R} := {
  table_put : forall f s, table (put f s) = f (table s);
}.

Section Ops.
Context {S R : Type} `{M : Model S R}.
Implicit Types (P : R -> bool) (f : R -> R) (r : R) (s : S).

(** lib/prisma.ts, [activeWhere]: a where without a [deletedAt] key gets [deletedAt: null]. *)
Definition activeWhere P : R -> bool := fun r => is_null (softDeletedAt r) && P r.

Definition tx_findFirst P : Tx S (option R) := fun s => Ok (findFirst (activeWhere P) (table s), s).
Definition tx_findMany P : Tx S (list R) := fun s => Ok (findMany (activeWhere P) (table s), s).
Definition tx_count P : Tx S nat := fun s => Ok (countWhere (activeWhere P) (table s), s).
Definition tx_updateMany P f : Tx S nat := fun s =>
  Ok (countWhere (activeWhere P) (table s), put (updateWhere (activeWhere P) f) s).
Definition tx_deleteMany P : Tx S nat := fun s =>
  Ok (countWhere (activeWhere P) (table s), put (deleteWhere (activeWhere P)) s).

(** [delete] with a unique where: a missing row is P2025. *)
Definition tx_delete P : Tx S R := fun s =>
  match findFirst (activeWhere P) (table s) with
  | Some r => Ok (r, put (deleteWhere (activeWhere P)) s)
  | None => Err (Known "P2025")
  end.

(** The same statements where the source writes its own [deletedAt] condition, or reaches the
    table by raw SQL: no filter is added. *)
Definition tx_findFirst_raw P : Tx S (option R) := fun s => Ok (findFirst P (table s), s).
Definition tx_findMany_raw P : Tx S (list R) := fun s => Ok (findMany P (table s), s).
Definition tx_updateMany_raw P f : Tx S nat := fun s =>
  Ok (countWhere P (table s), put (updateWhere P f) s).

(** [update] with a unique where: a missing row is P2025. *)
Definition tx_update P f : Tx S R := fun s =>
  match findFirst (activeWhere P) (table s) with
  | Some r => Ok (f r, put (updateWhere (activeWhere P) f) s)
  | None => Err (Known "P2025")
  end.
Definition tx_update_raw P f : Tx S R := fun s =>
  match findFirst P (table s) with
  | Some r => Ok (f r, put (updateWhere P f) s)
  | None => Err (Known "P2025")
  end.

(** Rows the update changes may not clash with the rows it leaves alone. *)
Definition clashes P f (t : list R) : bool :=
  existsb (fun r => P r && existsb (fun r' => negb (P r') && clash (f r) r') t) t.

(** [update] and [updateMany] whose data sets a unique column. *)
Definition tx_update_unique P f : Tx S R := fun s =>
  match findFirst (activeWhere P) (table s) with
  | Some r =>
      if clashes (activeWhere P) f (table s) then Err (Known "P2002")
      else Ok (f r, put (updateWhere (activeWhere P) f) s)
  | None => Err (Known "P2025")
  end.
Definition tx_update_unique_raw P f : Tx S R := fun s =>
  match findFirst P (table s) with
  | Some r => if clashes P f (table s) then Err (Known "P2002") else Ok (f r, put (updateWhere P f) s)
  | None => Err (Known "P2025")
  end.
Definition tx_updateMany_unique P f : Tx S nat := fun s =>
  if clashes (activeWhere P) f (table s) then Err (Known "P2002")
  else Ok (countWhere (activeWhere P) (table s), put (updateWhere (activeWhere P) f) s).

Definition tx_create r : Tx S R := fun s =>
  if existsb (clash r) (table s) then Err (Known "P2002") else Ok (r, put (fun t => t ++ [r]) s).

(** [upsert] is not in the soft-delete list: it sees deleted rows too. *)
Definition tx_upsert P r f : Tx S R := fun s =>
  match findFirst P (table s) with
  | Some r0 => Ok (f r0, put (updateWhere P f) s)
  | None => tx_create r s
  end.
(** An [upsert] whose update data sets a unique column. *)
Definition tx_upsert_unique P r f : Tx S R := fun s =>
  match findFirst P (table s) with
  | Some r0 => if clashes P f (table s) then Err (Known "P2002") else Ok (f r0, put (updateWhere P f) s)
  | None => tx_create r s
  end.
End Ops.

#[global] Arguments activeWhere {_ _ _} _ _ /.

(** ** What the statements keep *)

Section OpsLaws.
Context {S R : Type} `{M : Model S R}.
Implicit Types (P : R -> bool) (f : R -> R) (r : R) (s : S) (I : S -> Prop).

Lemma pres_findFirst I P : tx_pres I (tx_findFirst P).
Proof. intros s a s' ? [=]. by subst. Qed.
Lemma pres_findMany I P : tx_pres I (tx_findMany P).
Proof. intros s a s' ? [=]. by subst. Qed.
Lemma pres_count I P : tx_pres I (tx_count P).
Proof. intros s a s' ? [=]. by subst. Qed.
Lemma pres_findFirst_raw I P : tx_pres I (tx_findFirst_raw P).
Proof. intros s a s' ? [=]. by subst. Qed.
Lemma pres_findMany_raw I P : tx_pres I (tx_findMany_raw P).
Proof. intros s a s' ? [=]. by subst. Qed.

(** A write keeps [I] when its effect on the table does. *)
Lemma pres_updateMany_raw I P f :
  (forall s, I s -> I (put (updateWhere P f) s)) -> tx_pres I (tx_updateMany_raw P f).
Proof. intros H s a s' ? [=]. subst. auto. Qed.
Lemma pres_updateMany I P f :
  (forall s, I s -> I (put (updateWhere (activeWhere P) f) s)) -> tx_pres I (tx_updateMany P f).
Proof. intros H s a s' ? [=]. subst. auto. Qed.
Lemma pres_deleteMany I P :
  (forall s, I s -> I (put (deleteWhere (activeWhere P)) s)) -> tx_pres I (tx_deleteMany P).
Proof. intros H s a s' ? [=]. subst. auto. Qed.
Lemma pres_delete I P :
  (forall s, I s -> I (put (deleteWhere (activeWhere P)) s)) -> tx_pres I (tx_delete P).
Proof. intros H s a s' ?. unfold tx_delete. case_match; intros; simplify_eq. auto. Qed.
Lemma pres_update I P f :
  (forall s, I s -> I (put (updateWhere (activeWhere P) f) s)) -> tx_pres I (tx_update P f).
Proof. intros H s a s' ?. unfold tx_update. case_match; intros; simplify_eq. auto. Qed.
Lemma pres_update_raw I P f :
  (forall s, I s -> I (put (updateWhere P f) s)) -> tx_pres I (tx_update_raw P f).
Proof. intros H s a s' ?. unfold tx_update_raw. case_match; intros; simplify_eq. auto. Qed.
Lemma pres_update_unique I P f :
  (forall s, I s -> clashes (activeWhere P) f (table s) = false ->
     I (put (updateWhere (activeWhere P) f) s)) -> tx_pres I (tx_update_unique P f).
Proof. intros H s a s' ?. unfold tx_update_unique. repeat case_match; intros; simplify_eq. auto. Qed.
Lemma pres_updateMany_unique I P f :
  (forall s, I s -> clashes (activeWhere P) f (table s) = false ->
     I (put (updateWhere (activeWhere P) f) s)) -> tx_pres I (tx_updateMany_unique P f).
Proof. intros H s a s' ?. unfold tx_updateMany_unique. repeat case_match; intros; simplify_eq. auto. Qed.
Lemma pres_create I r :
  (forall s, I s -> existsb (clash r) (table s) = false -> I (put (fun t => t ++ [r]) s)) ->
  tx_pres I (tx_create r).
Proof. intros H s a s' ?. unfold tx_create. case_match; intros; simplify_eq. auto. Qed.
Lemma pres_upsert I P r f :
  (forall s, I s -> I (put (updateWhere P f) s)) ->
  (forall s, I s -> existsb (clash r) (table s) = false -> I (put (fun t => t ++ [r]) s)) ->
  tx_pres I (tx_upsert P r f).
Proof.
  intros H1 H2 s a s' ?. unfold tx_upsert, tx_create. repeat case_match; intros; simplify_eq; auto.
Qed.
Lemma pres_upsert_unique I P r f :
  (forall s, I s -> clashes P f (table s) = false -> I (put (updateWhere P f) s)) ->
  (forall s, I s -> existsb (clash r) (table s) = false -> I (put (fun t => t ++ [r]) s)) ->
  tx_pres I (tx_upsert_unique P r f).
Proof.
  intros H1 H2 s a s' ?. unfold tx_upsert_unique, tx_create. repeat case_match; intros; simplify_eq; auto.
Qed.
End OpsLaws.

(** What a statement on a whole table establishes. *)
Definition everyRow {S R} `{Model S R} (Q : R -> Prop) (s : S) : Prop := forall r, In r (table s) -> Q r.

Section OpsPost.
Context {S R : Type} `{L : ModelLaws S R}.

Lemma post_updateMany (Q : R -> Prop) P f :
  (forall r, activeWhere P r = true -> Q (f r)) -> (forall r, activeWhere P r = false -> Q r) ->
  tx_post (everyRow (S := S) Q) (tx_updateMany P f).
Proof.
  intros H1 H2 s n s' [= _ <-] r. unfold everyRow. rewrite table_put. intros (r0 & _ & ->)%In_updateWhere.
  destruct (activeWhere P r0) eqn:E; auto.
Qed.
Lemma post_deleteMany (Q : R -> Prop) P :
  (forall r, activeWhere P r = false -> Q r) ->
  tx_post (everyRow (S := S) Q) (tx_deleteMany P).
Proof.
  intros H2 s n s' [= _ <-] r. unfold everyRow. rewrite table_put. intros (_ & Hr)%In_deleteWhere. auto.
Qed.
Lemma post_update (Q : R -> Prop) P f :
  (forall r, activeWhere P r = true -> Q (f r)) -> (forall r, activeWhere P r = false -> Q r) ->
  tx_post (everyRow (S := S) Q) (tx_update P f).
Proof.
  intros H1 H2 s n s'. unfold tx_update. destruct (findFirst _ _); [|done]. intros [= _ <-].
  eapply post_updateMany; [done|done|reflexivity].
Qed.
End OpsPost.

#[export] Hint Resolve pres_findFirst pres_findMany pres_count pres_findFirst_raw
  pres_findMany_raw : pres.
(** Writes to a table the invariant does not mention: the invariant of the new state is, by
    computation, the invariant of the old one. *)
Ltac frame_done := intros; assumption.
#[export] Hint Extern 4 (tx_pres _ (tx_updateMany_raw _ _)) => apply pres_updateMany_raw; frame_done : pres.
#[export] Hint Extern 4 (tx_pres _ (tx_updateMany _ _)) => apply pres_updateMany; frame_done : pres.
#[export] Hint Extern 4 (tx_pres _ (tx_deleteMany _)) => apply pres_deleteMany; frame_done : pres.
#[export] Hint Extern 4 (tx_pres _ (tx_delete _)) => apply pres_delete; frame_done : pres.
#[export] Hint Extern 4 (tx_pres _ (tx_update _ _)) => apply pres_update; frame_done : pres.
#[export] Hint Extern 4 (tx_pres _ (tx_update_raw _ _)) => apply pres_update_raw; frame_done : pres.
#[export] Hint Extern 4 (tx_pres _ (tx_update_unique _ _)) => apply pres_update_unique; frame_done : pres.
#[export] Hint Extern 4 (tx_pres _ (tx_updateMany_unique _ _)) => apply pres_updateMany_unique; frame_done : pres.
#[export] Hint Extern 4 (tx_pres _ (tx_create _)) => apply pres_create; frame_done : pres.
#[export] Hint Extern 4 (tx_pres _ (tx_upsert _ _ _)) => apply pres_upsert; frame_done : pres.
#[export] Hint Extern 4 (tx_pres _ (tx_upsert_unique _ _ _)) => apply pres_upsert_unique; frame_done : pres.

(** ** Evolution of a table

    [evolves Rel t t']: every row of [t] is still in [t'], at its place, as a row [Rel] relates it
    to; rows may have been appended. *)

Section Evolution.
Context {R : Type} (Rel : R -> R -> Prop).

Definition evolves (t t' : list R) : Prop :=
  exists t1 t2, t' = (t1 ++ t2)%list /\ List.Forall2 Rel t t1.

Lemma evolves_refl `{!Reflexive Rel} t : evolves t t.
Proof.
  exists t, []. split; [by rewrite app_nil_r|]. induction t; constructor; auto.
Qed.

Lemma evolves_app t t' t2 : evolves t t' -> evolves t (t' ++ t2).
Proof. intros (a & b & -> & H). exists a, (b ++ t2)%list. by rewrite app_assoc. Qed.

Lemma evolves_updateWhere `{!Transitive Rel, !Reflexive Rel} P f t t' :
  (forall r, P r = true -> Rel r (f r)) -> evolves t t' -> evolves t (updateWhere P f t').
Proof.
  intros Hf (a & b & -> & H). exists (updateWhere P f a), (updateWhere P f b).
  split; [unfold updateWhere; by rewrite List.map_app|]. unfold updateWhere.
  induction H as [|x y l k Hxy Hlk IH]; cbn; constructor; [|done].
  destruct (P y) eqn:E; [etrans; eauto|done].
Qed.

Lemma evolves_In t t' r : evolves t t' -> In r t -> exists r', In r' t' /\ Rel r r'.
Proof.
  intros (a & b & -> & H). induction H as [|x y l k Hxy Hlk IH]; [done|].
  intros [->|Hin]; [exists y; cbn; auto|].
  destruct (IH Hin) as (r' & Hr' & HR). exists r'. split; [by right|done].
Qed.
End Evolution.

Section EvolutionPres.
Context {S R : Type} `{L : ModelLaws S R} (Rel : R -> R -> Prop).
Context `{!Reflexive Rel, !Transitive Rel}.

(** The statements of a table, seen as an evolution of it. *)
Definition evolved (t0 : list R) : S -> Prop := fun s => evolves Rel t0 (table s).

Lemma evolved_updateMany t0 P f : (forall r, activeWhere P r = true -> Rel r (f r)) ->
  tx_pres (evolved t0) (tx_updateMany P f).
Proof.
  intros Hf. apply pres_updateMany. intros s Hs. unfold evolved. rewrite table_put.
  by apply evolves_updateWhere.
Qed.
Lemma evolved_updateMany_raw t0 P f : (forall r, P r = true -> Rel r (f r)) ->
  tx_pres (evolved t0) (tx_updateMany_raw P f).
Proof.
  intros Hf. apply pres_updateMany_raw. intros s Hs. unfold evolved. rewrite table_put.
  by apply evolves_updateWhere.
Qed.
Lemma evolved_update t0 P f : (forall r, activeWhere P r = true -> Rel r (f r)) ->
  tx_pres (evolved t0) (tx_update P f).
Proof.
  intros Hf. apply pres_update. intros s Hs. unfold evolved. rewrite table_put.
  by apply evolves_updateWhere.
Qed.
Lemma evolved_create t0 r : tx_pres (evolved t0) (tx_create r).
Proof.
  apply pres_create. intros s Hs _. unfold evolved. rewrite table_put. by apply evolves_app.
Qed.
End EvolutionPres.

(** ** One row of a table with distinct keys

    [Row key r t]: the keys of [t] are distinct and [r] is the row with its key. Statements whose
    condition pins that key find, count and update exactly this row. *)

Section Rows.
Context {R K : Type} (key : R -> K).
Implicit Types (P : R -> bool) (f : R -> R) (r : R) (t : list R).

Definition Row r t : Prop := List.NoDup (List.map key t) /\ In r t.
Definition pins P r : Prop := forall x, P x = true -> key x = key r.

Lemma Row_unique r x t : Row r t -> In x t -> key x = key r -> x = r.
Proof. intros [Hnd Hr] Hx He. by eapply NoDup_key_inj. Qed.

Lemma Row_find r t P : Row r t -> pins P r -> P r = true -> findFirst P t = Some r.
Proof.
  intros Hr Hp HP. destruct (findFirst_is_Some P t r) as [x Hx]; [apply Hr|done|].
  rewrite Hx. apply findFirst_Some in Hx as [Hx HPx]. f_equal. eapply Row_unique; eauto.
Qed.

Lemma Row_find_none r t P : Row r t -> pins P r -> P r = false -> findFirst P t = None.
Proof.
  intros Hr Hp HP. destruct (findFirst P t) as [x|] eqn:Hx; [|done].
  apply findFirst_Some in Hx as [Hx HPx]. rewrite (Row_unique r x t Hr Hx (Hp _ HPx)) in HPx. congruence.
Qed.

Lemma Row_count1 r t P : Row r t -> pins P r -> P r = true -> countWhere P t = 1.
Proof.
  intros [Hnd Hr] Hp HP.
  assert (countWhere P t <= 1) by (eapply countWhere_key_le1; eauto).
  assert (0 < countWhere P t) by (apply countWhere_pos; eauto). lia.
Qed.

Lemma Row_count0 r t P : Row r t -> pins P r -> P r = false -> countWhere P t = 0.
Proof.
  intros Hr Hp HP. apply countWhere_0. intros x Hx. destruct (P x) eqn:E; [|done].
  rewrite (Row_unique r x t Hr Hx (Hp _ E)) in E. congruence.
Qed.

Lemma Row_update r t P f : (forall x, key (f x) = key x) -> Row r t ->
  Row (if P r then f r else r) (updateWhere P f t).
Proof.
  intros Hk [Hnd Hr]. split; [rewrite map_updateWhere; auto|].
  apply In_updateWhere. eauto.
Qed.

Lemma Row_update_pos r t P f : (forall x, key (f x) = key x) -> Row r t -> P r = true ->
  Row (f r) (updateWhere P f t).
Proof. intros Hk Hr HP. pose proof (Row_update r t P f Hk Hr) as H. by rewrite HP in H. Qed.

Lemma Row_update_to r r' t P f : (forall x, key (f x) = key x) -> Row r t -> P r = true ->
  f r = r' -> Row r' (updateWhere P f t).
Proof. intros Hk Hr HP <-. by apply Row_update_pos. Qed.

Lemma Row_update_neg r t P f : (forall x, key (f x) = key x) -> Row r t -> P r = false ->
  Row r (updateWhere P f t).
Proof. intros Hk Hr HP. pose proof (Row_update r t P f Hk Hr) as H. by rewrite HP in H. Qed.

Lemma Row_snoc r r' t : Row r t -> ~ In (key r') (List.map key t) -> Row r (t ++ [r']).
Proof.
  intros [Hnd Hr] Hn. split; [|apply in_or_app; by left].
  rewrite List.map_app. apply List.NoDup_app; [done|repeat constructor; auto|].
  intros k Hk [<-|[]]. done.
Qed.
End Rows.

(** ** A table seen around one of its rows *)

Section Around.
Context {R : Type}.
Implicit Types (P : R -> bool) (f : R -> R) (r : R) (pre post : list R).

Lemma updateWhere_app P f t1 t2 : updateWhere P f (t1 ++ t2) = updateWhere P f t1 ++ updateWhere P f t2.
Proof. apply List.map_app. Qed.

Lemma updateWhere_at pre r post P f : (forall x, In x (pre ++ post) -> P x = false) ->
  updateWhere P f (pre ++ r :: post) = pre ++ (if P r then f r else r) :: post.
Proof.
  intros HP. rewrite updateWhere_app, (updateWhere_none P f pre) by (intros; apply HP, in_or_app; by left).
  cbn. f_equal. f_equal. apply (updateWhere_none P f post). intros; apply HP, in_or_app; by right.
Qed.

Lemma findFirst_at pre r post P : (forall x, In x (pre ++ post) -> P x = false) -> P r = true ->
  findFirst P (pre ++ r :: post) = Some r.
Proof.
  unfold findFirst. induction pre as [|x pre IH]; intros HP Hr; cbn; [by rewrite Hr|].
  rewrite (HP x) by (by left). apply IH; [|done]. intros y Hy. apply HP. by right.
Qed.
End Around.

Lemma clashes_at {S R} `{M : Model S R} pre (r : R) post P f :
  (forall x, In x (pre ++ post) -> P x = false) -> (forall x, In x (pre ++ post) -> clash (f r) x = false) ->
  clashes P f (pre ++ r :: post) = false.
Proof.
  intros HP Hc. unfold clashes. destruct (existsb _ _) eqn:E; [|done].
  apply existsb_exists in E as (x & Hx & [HPx E]%andb_true_iff).
  apply existsb_exists in E as (y & Hy & [HPy E]%andb_true_iff). apply negb_true_iff in HPy.
  assert (Hin : forall z, In z (pre ++ r :: post) -> z = r \/ In z (pre ++ post)).
  { intros z [Hz|[->|Hz]]%in_app_or; auto using in_or_app. }
  destruct (Hin x Hx) as [->|Hx']; [|by rewrite HP in HPx].
  destruct (Hin y Hy) as [->|Hy']; [congruence|]. by rewrite Hc in E.
Qed.

(** ** Running the statements *)

Section Run.
Context {S R : Type} `{M : Model S R} {K : Type} (key : R -> K).
Implicit Types (P : R -> bool) (f : R -> R) (r : R) (s : S).

Lemma pins_active P r : pins key P r -> pins key (activeWhere P) r.
Proof. intros Hp x Hx. apply andb_true_iff in Hx as [_ Hx]. auto. Qed.

Lemma active_true P r : softDeletedAt r = None -> P r = true -> activeWhere P r = true.
Proof. intros Hd HP. cbn. by rewrite Hd, HP. Qed.

Lemma run_findFirst P r s : Row key r (table s) -> pins key P r -> softDeletedAt r = None ->
  P r = true -> tx_findFirst P s = Ok (Some r, s).
Proof.
  intros Hr Hp Hd HP. unfold tx_findFirst.
  by rewrite (Row_find key r) by auto using pins_active, active_true.
Qed.

Lemma run_findFirst_none P r s : Row key r (table s) -> pins key P r -> P r = false ->
  tx_findFirst P s = Ok (None, s).
Proof.
  intros Hr Hp HP. unfold tx_findFirst. rewrite (Row_find_none key r); auto using pins_active.
  cbn. by rewrite HP, andb_false_r.
Qed.

Lemma run_updateMany P f r s : Row key r (table s) -> pins key P r -> softDeletedAt r = None ->
  P r = true -> tx_updateMany P f s = Ok (1, put (updateWhere (activeWhere P) f) s).
Proof.
  intros Hr Hp Hd HP. unfold tx_updateMany.
  by rewrite (Row_count1 key r) by auto using pins_active, active_true.
Qed.

Lemma run_updateMany_none P f r s : Row key r (table s) -> pins key P r -> P r = false ->
  tx_updateMany P f s = Ok (0, put (updateWhere (activeWhere P) f) s)
  /\ updateWhere (activeWhere P) f (table s) = table s.
Proof.
  intros Hr Hp HP. assert (activeWhere P r = false) by (cbn; by rewrite HP, andb_false_r).
  assert (countWhere (activeWhere P) (table s) = 0) as Hc
    by (eapply (Row_count0 key r); eauto using pins_active).
  unfold tx_updateMany. rewrite Hc. split; [done|]. apply updateWhere_none. by apply countWhere_0.
Qed.
End Run.

Section RunUpsert.
Context {S R : Type} `{L : ModelLaws S R} {K : Type} (key : R -> K).
Implicit Types (P : R -> bool) (f : R -> R) (r : R) (s : S).

Lemma run_create r s : existsb (clash r) (table s) = false ->
  tx_create r s = Ok (r, put (fun t => t ++ [r]) s).
Proof. intros Hc. unfold tx_create. by rewrite Hc. Qed.

Lemma run_upsert_some P r f r0 s : Row key r0 (table s) -> pins key P r0 -> P r0 = true ->
  tx_upsert P r f s = Ok (f r0, put (updateWhere P f) s).
Proof. intros Hr Hp HP. unfold tx_upsert. by rewrite (Row_find key r0). Qed.

Lemma run_upsert_none P r f s : (forall x, In x (table s) -> P x = false) ->
  tx_upsert P r f s = tx_create r s.
Proof.
  intros HP. unfold tx_upsert. destruct (findFirst P (table s)) as [x|] eqn:E; [|done].
  apply findFirst_Some in E as [Hx HPx]. by rewrite HP in HPx.
Qed.

(** A statement that misses the row it pins changes nothing. *)
Lemma run_updateMany_zero P f r s : Row key r (table s) -> pins key P r -> P r = false ->
  exists s', tx_updateMany P f s = Ok (0, s') /\ table s' = table s.
Proof.
  intros Hr Hp HP. destruct (run_updateMany_none key P f r s Hr Hp HP) as [-> Ht].
  eexists. split; [done|]. by rewrite table_put.
Qed.

Lemma run_update P f r s : Row key r (table s) -> pins key P r -> softDeletedAt r = None ->
  P r = true -> tx_update P f s = Ok (f r, put (updateWhere (activeWhere P) f) s).
Proof.
  intros Hr Hp Hd HP. unfold tx_update. by rewrite (Row_find key r) by auto using pins_active, active_true.
Qed.

Lemma run_update_unique P f r s : Row key r (table s) -> pins key P r -> softDeletedAt r = None ->
  P r = true -> (forall x, In x (table s) -> key x <> key r -> clash (f r) x = false) ->
  tx_update_unique P f s = Ok (f r, put (updateWhere (activeWhere P) f) s).
Proof.
  intros Hr Hp Hd HP Hc. unfold tx_update_unique. rewrite (Row_find key r) by auto using pins_active, active_true.
  destruct (clashes _ _ _) eqn:E; [|done]. unfold clashes in E.
  apply existsb_exists in E as (x & Hx & [HPx E]%andb_true_iff).
  apply existsb_exists in E as (y & Hy & [HPy Hcl]%andb_true_iff).
  assert (x = r) as ->. { eapply Row_unique; eauto. by apply (pins_active key P r). }
  rewrite Hc in Hcl; [done|done|]. intros He. rewrite (Row_unique key r y _ Hr Hy He) in HPy.
  rewrite (active_true P r Hd HP) in HPy. done.
Qed.
End RunUpsert.

(** ** Inverting the statements *)

Section Invert.
Context {S R : Type} `{M : Model S R}.
Implicit Types (P : R -> bool) (f : R -> R) (r : R) (s : S).

Lemma findFirst_ok P s r s' : tx_findFirst P s = Ok (Some r, s') ->
  s' = s /\ In r (table s) /\ softDeletedAt r = None /\ P r = true.
Proof.
  unfold tx_findFirst. intros [= Hf <-]. apply findFirst_Some in Hf as [Hr HP].
  apply andb_true_iff in HP as [Hd HP]. repeat split; auto. by destruct (softDeletedAt r).
Qed.
Lemma findFirst_none_ok P s s' : tx_findFirst P s = Ok (None, s') ->
  s' = s /\ forall r, In r (table s) -> softDeletedAt r = None -> P r = false.
Proof.
  unfold tx_findFirst. intros [= Hf <-]. split; [done|]. intros r Hr Hd.
  apply (findFirst_None _ _ r) in Hf; [|done]. cbn in Hf. by rewrite Hd in Hf.
Qed.
Lemma findMany_ok P s l s' : tx_findMany P s = Ok (l, s') ->
  s' = s /\ l = findMany (activeWhere P) (table s).
Proof. by intros [= <- <-]. Qed.
Lemma updateMany_ok P f s n s' : tx_updateMany P f s = Ok (n, s') ->
  n = countWhere (activeWhere P) (table s) /\ s' = put (updateWhere (activeWhere P) f) s.
Proof. by intros [= <- <-]. Qed.
Lemma updateMany_raw_ok P f s n s' : tx_updateMany_raw P f s = Ok (n, s') ->
  n = countWhere P (table s) /\ s' = put (updateWhere P f) s.
Proof. by intros [= <- <-]. Qed.
Lemma deleteMany_ok P s n s' : tx_deleteMany P s = Ok (n, s') ->
  n = countWhere (activeWhere P) (table s) /\ s' = put (deleteWhere (activeWhere P)) s.
Proof. by intros [= <- <-]. Qed.
Lemma count_ok P s n s' : tx_count P s = Ok (n, s') ->
  s' = s /\ n = countWhere (activeWhere P) (table s).
Proof. by intros [= <- <-]. Qed.
Lemma create_ok r s r' s' : tx_create r s = Ok (r', s') ->
  r' = r /\ s' = put (fun t => t ++ [r]) s /\ forall x, In x (table s) -> clash r x = false.
Proof.
  unfold tx_create. destruct (existsb _ _) eqn:E; [done|]. intros [= <- <-].
  repeat split. intros x Hx. destruct (clash r x) eqn:Ec; [|done].
  rewrite <- E. symmetry. apply existsb_exists. eauto.
Qed.
Lemma update_ok P f s r s' : tx_update P f s = Ok (r, s') ->
  s' = put (updateWhere (activeWhere P) f) s /\
  exists r0, In r0 (table s) /\ softDeletedAt r0 = None /\ P r0 = true /\ r = f r0.
Proof.
  unfold tx_update. destruct (findFirst _ _) as [r0|] eqn:E; [|done]. intros [= <- <-].
  apply findFirst_Some in E as [Hr HP]. apply andb_true_iff in HP as [Hd HP].
  split; [done|]. exists r0. repeat split; auto. by destruct (softDeletedAt r0).
Qed.
Lemma update_unique_ok P f s r s' : tx_update_unique P f s = Ok (r, s') ->
  s' = put (updateWhere (activeWhere P) f) s /\ clashes (activeWhere P) f (table s) = false /\
  exists r0, In r0 (table s) /\ softDeletedAt r0 = None /\ P r0 = true /\ r = f r0.
Proof.
  unfold tx_update_unique. destruct (findFirst _ _) as [r0|] eqn:E; [|done].
  destruct (clashes _ _ _) eqn:Ec; [done|]. intros [= <- <-].
  apply findFirst_Some in E as [Hr HP]. apply andb_true_iff in HP as [Hd HP].
  split; [done|]. split; [done|]. exists r0. repeat split; auto. by destruct (softDeletedAt r0).
Qed.
End Invert.

(** Turn every executed statement of the context into its effect. *)
Ltac tx_store :=
  repeat match goal with
  | H : tx_findFirst _ _ = Ok (Some _, _) |- _ => apply findFirst_ok in H as (? & ? & ? & ?); subst
  | H : tx_findFirst _ _ = Ok (None, _) |- _ => apply findFirst_none_ok in H as (? & ?); subst
  | H : tx_findFirst _ _ = Ok (?o, _) |- _ => is_var o; destruct o
  | H : tx_findMany _ _ = Ok _ |- _ => apply findMany_ok in H as (? & ?); subst
  | H : tx_count _ _ = Ok _ |- _ => apply count_ok in H as (? & ?); subst
  | H : tx_updateMany _ _ _ = Ok _ |- _ => apply updateMany_ok in H as (? & ?); subst
  | H : tx_updateMany_raw _ _ _ = Ok _ |- _ => apply updateMany_raw_ok in H as (? & ?); subst
  | H : tx_deleteMany _ _ = Ok _ |- _ => apply deleteMany_ok in H as (? & ?); subst
  | H : tx_create _ _ = Ok _ |- _ => apply create_ok in H as (? & ? & ?); subst
  | H : tx_update_unique _ _ _ = Ok _ |- _ => apply update_unique_ok in H as (? & ? & ? & ? & ? & ? & ?); subst
  | H : tx_update _ _ _ = Ok _ |- _ => apply update_ok in H as (? & ? & ? & ? & ? & ?); subst
  end.

(** ** Counting through updates and lookups *)

Section CountUpdate.
Context {R : Type}.
Implicit Types (P Q : R -> bool) (f : R -> R) (t : list R).

Lemma countWhere_split P Q t :
  countWhere Q t = countWhere (fun r => Q r && P r) t + countWhere (fun r => Q r && negb (P r)) t.
Proof.
  unfold countWhere. induction t as [|r t IH]; cbn; [done|].
  destruct (Q r), (P r); cbn; lia.
Qed.

(** An update that takes the rows it touches out of [Q]. *)
Lemma countWhere_update_out P Q f t : (forall r, P r = true -> Q (f r) = false) ->
  countWhere Q (updateWhere P f t) = countWhere (fun r => Q r && negb (P r)) t.
Proof.
  intros Hf. unfold countWhere, updateWhere. induction t as [|r t IH]; cbn; [done|].
  destruct (P r) eqn:E; cbn.
  - rewrite (Hf _ E), andb_false_r. done.
  - rewrite andb_true_r. destruct (Q r); cbn; by rewrite IH.
Qed.

(** An update that never puts a row into [Q]. *)
Lemma countWhere_update_le P Q f t :
  (forall r, P r = true -> Q (f r) = true -> Q r = true) ->
  countWhere Q (updateWhere P f t) <= countWhere Q t.
Proof.
  intros Hf. unfold countWhere, updateWhere. induction t as [|r t IH]; cbn; [lia|].
  specialize (Hf r). destruct (P r); cbn.
  - destruct (Q (f r)) eqn:E; cbn; [rewrite Hf by done; cbn; lia|destruct (Q r); cbn; lia].
  - destruct (Q r); cbn; lia.
Qed.

Lemma countWhere_snoc P t r : countWhere P (t ++ [r]) = countWhere P t + (if P r then 1 else 0).
Proof. rewrite countWhere_app. unfold countWhere at 2. cbn. by destruct (P r). Qed.

(** An update that neither touches nor creates rows of [Q] leaves them as they were. *)
Lemma filter_updateWhere_same P Q f t : (forall r, P r = true -> Q r = false /\ Q (f r) = false) ->
  List.filter Q (updateWhere P f t) = List.filter Q t.
Proof.
  intros H. unfold updateWhere. induction t as [|r t IH]; cbn; [done|].
  destruct (P r) eqn:E.
  - destruct (H _ E) as [-> ->]. done.
  - destruct (Q r); by rewrite IH.
Qed.

Lemma findFirst_updateWhere P Q f t : (forall r, Q r = true -> P (f r) = P r) ->
  findFirst P (updateWhere Q f t) = (fun r => if Q r then f r else r) <$> findFirst P t.
Proof.
  intros Hf. unfold findFirst, updateWhere. induction t as [|r t IH]; cbn; [done|].
  destruct (Q r) eqn:E; [rewrite Hf by done|]; destruct (P r); cbn; rewrite ?E; done.
Qed.

Lemma findFirst_app_some P t t2 r : findFirst P t = Some r -> findFirst P (t ++ t2) = Some r.
Proof.
  unfold findFirst. induction t as [|x t IH]; cbn; [done|]. destruct (P x); [done|auto].
Qed.

Lemma findFirst_app_none P t t2 : findFirst P t = None -> findFirst P (t ++ t2) = findFirst P t2.
Proof.
  unfold findFirst. induction t as [|x t IH]; cbn; [done|]. destruct (P x); [done|auto].
Qed.
End CountUpdate.

(** ** Rows of other owners

    [sameBut owner x t0 t]: as far as conditions that exclude the owner [x] can tell, [t] is [t0]. *)

Section SameBut.
Context {R K : Type} (owner : R -> K) (x : K).
Implicit Types (P : R -> bool) (t : list R).

Definition sameBut t0 t : Prop :=
  forall P, (forall r, P r = true -> owner r <> x) -> existsb P t = existsb P t0.

Lemma sameBut_refl t : sameBut t t.
Proof. done. Qed.

Lemma sameBut_update t0 t P f : (forall r, In r t -> P r = true -> owner r = x) ->
  (forall r, owner (f r) = owner r) -> sameBut t0 t -> sameBut t0 (updateWhere P f t).
Proof.
  intros HP Hf Hs Q HQ. rewrite <- (Hs Q HQ). clear Hs. unfold updateWhere.
  induction t as [|r t IH]; cbn; [done|]. rewrite IH by (intros; apply HP; [by right|done]). f_equal.
  destruct (P r) eqn:E; [|done]. specialize (HP r (or_introl eq_refl) E).
  destruct (Q r) eqn:E1; [by apply HQ in E1|]. destruct (Q (f r)) eqn:E2; [|done].
  apply HQ in E2. by rewrite Hf in E2.
Qed.

Lemma sameBut_snoc t0 t r : owner r = x -> sameBut t0 t -> sameBut t0 (t ++ [r]).
Proof.
  intros Hr Hs Q HQ. rewrite existsb_app, (Hs Q HQ). cbn.
  destruct (Q r) eqn:E; [by apply HQ in E|]. by rewrite !orb_false_r.
Qed.

Lemma sameBut_delete t0 t P : (forall r, P r = true -> owner r = x) ->
  sameBut t0 t -> sameBut t0 (deleteWhere P t).
Proof.
  intros HP Hs Q HQ. rewrite <- (Hs Q HQ). clear Hs. unfold deleteWhere.
  induction t as [|r t IH]; cbn; [done|]. destruct (P r) eqn:E; cbn; rewrite IH; [|done].
  destruct (Q r) eqn:EQ; [|done]. apply HQ in EQ. by apply HP in E.
Qed.
End SameBut.

Lemma is_set_findFirst {R} P (t : list R) : is_set (findFirst P t) = existsb P t.
Proof. unfold findFirst. induction t as [|r t IH]; cbn; [done|]. by destruct (P r). Qed.

Lemma existsb_ext_In {R} P Q (t : list R) : (forall r, In r t -> P r = Q r) -> existsb P t = existsb Q t.
Proof.
  induction t as [|r t IH]; intros Hq; cbn; [done|]. rewrite (Hq r) by (by left).
  f_equal. apply IH. intros; apply Hq. by right.
Qed.
