(* ===== verification/Database.v ===== *)
(** * The database: enumerations, row types and the state of the program

    One record per Prisma model of prisma/schema.prisma with the columns the services read or
    write, one [Model] instance per table (its unique constraints and whether the soft-delete
    filter of lib/prisma.ts covers it), and [World], the state every handler runs on. *)

From Stdlib Require Import ZArith Bool.
From S2P Require Import Prelude Store.

(** ** Enumerations *)

Inductive UserStatus := User_PENDING | User_ACTIVE | User_SUSPENDED | User_DISABLED.
#[export] Instance UserStatus_eq_dec : EqDecision UserStatus.
Proof. solve_decision. Defined.

Inductive OrganizationStatus := Org_ACTIVE | Org_SUSPENDED.
#[export] Instance OrganizationStatus_eq_dec : EqDecision OrganizationStatus.
Proof. solve_decision. Defined.

Inductive MembershipStatus := Mem_INVITED | Mem_ACTIVE | Mem_SUSPENDED.
#[export] Instance MembershipStatus_eq_dec : EqDecision MembershipStatus.
Proof. solve_decision. Defined.

Inductive OtpChannel := OtpC_EMAIL | OtpC_SMS.
#[export] Instance OtpChannel_eq_dec : EqDecision OtpChannel.
Proof. solve_decision. Defined.

Inductive OtpPurpose := Otp_SIGNUP | Otp_LOGIN | Otp_VERIFY_EMAIL | Otp_VERIFY_PHONE | Otp_PASSWORD_RESET | Otp_EMAIL_CHANGE.
#[export] Instance OtpPurpose_eq_dec : EqDecision OtpPurpose.
Proof. solve_decision. Defined.

Inductive NotificationChannel := Ch_EMAIL | Ch_SMS | Ch_PUSH | Ch_INTERNAL.
#[export] Instance NotificationChannel_eq_dec : EqDecision NotificationChannel.
Proof. solve_decision. Defined.

Inductive NotificationDeliveryStatus := Del_PROCESSING | Del_SENT | Del_DELIVERED | Del_SUPPRESSED | Del_BOUNCED | Del_COMPLAINED | Del_FAILED.
#[export] Instance NotificationDeliveryStatus_eq_dec : EqDecision NotificationDeliveryStatus.
Proof. solve_decision. Defined.

Inductive EmailSuppressionReason := Sup_BOUNCE | Sup_COMPLAINT | Sup_MANUAL.
#[export] Instance EmailSuppressionReason_eq_dec : EqDecision EmailSuppressionReason.
Proof. solve_decision. Defined.

Inductive OutboxStatus := Ob_PENDING | Ob_CLAIMED | Ob_ENQUEUED | Ob_PROCESSING | Ob_DELIVERED | Ob_FAILED | Ob_DEAD_LETTER.
#[export] Instance OutboxStatus_eq_dec : EqDecision OutboxStatus.
Proof. solve_decision. Defined.

Inductive StripeEventStatus := Swe_RECEIVED | Swe_PROCESSING | Swe_PROCESSED | Swe_FAILED.
#[export] Instance StripeEventStatus_eq_dec : EqDecision StripeEventStatus.
Proof. solve_decision. Defined.

Inductive SocialProvider := Soc_GOOGLE | Soc_APPLE.
#[export] Instance SocialProvider_eq_dec : EqDecision SocialProvider.
Proof. solve_decision. Defined.

Inductive UploadProvider := UpP_S3 | UpP_CLOUDINARY.
#[export] Instance UploadProvider_eq_dec : EqDecision UploadProvider.
Proof. solve_decision. Defined.

Inductive UploadStatus := Up_PENDING | Up_QUARANTINED | Up_SCANNING | Up_READY | Up_REJECTED | Up_FAILED | Up_DELETED.
#[export] Instance UploadStatus_eq_dec : EqDecision UploadStatus.
Proof. solve_decision. Defined.

Inductive UploadVisibility := UpV_PRIVATE | UpV_PUBLIC.
#[export] Instance UploadVisibility_eq_dec : EqDecision UploadVisibility.
Proof. solve_decision. Defined.

Inductive ConversationType := Conv_DIRECT | Conv_GROUP | Conv_SUPPORT.
#[export] Instance ConversationType_eq_dec : EqDecision ConversationType.
Proof. solve_decision. Defined.

Inductive ParticipantRole := Part_OWNER | Part_MEMBER.
#[export] Instance ParticipantRole_eq_dec : EqDecision ParticipantRole.
Proof. solve_decision. Defined.

Inductive MessageType := Msg_TEXT | Msg_SYSTEM | Msg_ATTACHMENT.
#[export] Instance MessageType_eq_dec : EqDecision MessageType.
Proof. solve_decision. Defined.

Inductive ChargeableStatus := Item_OPEN | Item_RESERVED | Item_CONSUMED | Item_EXPIRED | Item_CANCELED.
#[export] Instance ChargeableStatus_eq_dec : EqDecision ChargeableStatus.
Proof. solve_decision. Defined.

(** A nullable unique column: NULLs are distinct from one another. *)
Definition same_some {A} `{EqDecision A} (a b : option A) : bool :=
  match a, b with Some x, Some y => x === y | _, _ => false end.

(** ** Rows *)

Record User := mkUser {
  user_id : string; user_email : option string; user_phone : option string;
  user_passwordHash : option string; user_displayName : option string; user_locale : string;
  user_pendingEmail : option string; user_stripeCustomerId : option string;
  user_permissionEpoch : Z; user_status : UserStatus; user_emailVerifiedAt : option Z;
  user_phoneVerifiedAt : option Z; user_lastLoginAt : option Z; user_createdAt : Z;
  user_deletedAt : option Z
}.
#[export] Instance User_eta : Eta User := fun r => mkUser (user_id r) (user_email r)
    (user_phone r) (user_passwordHash r) (user_displayName r) (user_locale r)
    (user_pendingEmail r) (user_stripeCustomerId r) (user_permissionEpoch r) (user_status r)
    (user_emailVerifiedAt r) (user_phoneVerifiedAt r) (user_lastLoginAt r) (user_createdAt r)
    (user_deletedAt r).

Record Organization := mkOrganization {
  org_id : string; org_slug : string; org_name : string; org_status : OrganizationStatus;
  org_permissionEpoch : Z; org_settings : option Json; org_stripeCustomerId : option string;
  org_createdAt : Z; org_deletedAt : option Z
}.
#[export] Instance Organization_eta : Eta Organization := fun r => mkOrganization (org_id r)
    (org_slug r) (org_name r) (org_status r) (org_permissionEpoch r) (org_settings r)
    (org_stripeCustomerId r) (org_createdAt r) (org_deletedAt r).

Record Membership := mkMembership {
  mem_id : string; mem_organizationId : string; mem_userId : string; mem_roleId : string;
  mem_status : MembershipStatus; mem_joinedAt : option Z; mem_createdAt : Z;
  mem_deletedAt : option Z
}.
#[export] Instance Membership_eta : Eta Membership := fun r => mkMembership (mem_id r)
    (mem_organizationId r) (mem_userId r) (mem_roleId r) (mem_status r) (mem_joinedAt r)
    (mem_createdAt r) (mem_deletedAt r).

Record Invitation := mkInvitation {
  inv_id : string; inv_organizationId : string; inv_email : string; inv_roleId : string;
  inv_tokenHash : string; inv_expiresAt : Z; inv_acceptedAt : option Z; inv_revokedAt : option Z;
  inv_invitedByUserId : option string; inv_createdAt : Z; inv_deletedAt : option Z
}.
#[export] Instance Invitation_eta : Eta Invitation := fun r => mkInvitation (inv_id r)
    (inv_organizationId r) (inv_email r) (inv_roleId r) (inv_tokenHash r) (inv_expiresAt r)
    (inv_acceptedAt r) (inv_revokedAt r) (inv_invitedByUserId r) (inv_createdAt r)
    (inv_deletedAt r).

Record Role := mkRole {
  role_id : string; role_organizationId : option string; role_name : string;
  role_description : option string; role_createdAt : Z; role_deletedAt : option Z
}.
#[export] Instance Role_eta : Eta Role := fun r => mkRole (role_id r) (role_organizationId r)
    (role_name r) (role_description r) (role_createdAt r) (role_deletedAt r).

Record Permission := mkPermission {
  perm_id : string; perm_code : string; perm_description : option string;
  perm_deletedAt : option Z
}.
#[export] Instance Permission_eta : Eta Permission := fun r => mkPermission (perm_id r)
    (perm_code r) (perm_description r) (perm_deletedAt r).

Record UserRole := mkUserRole {
  ur_id : string; ur_userId : string; ur_roleId : string; ur_deletedAt : option Z
}.
#[export] Instance UserRole_eta : Eta UserRole := fun r => mkUserRole (ur_id r) (ur_userId r)
    (ur_roleId r) (ur_deletedAt r).

Record RolePermission := mkRolePermission {
  rp_id : string; rp_roleId : string; rp_permissionId : string; rp_deletedAt : option Z
}.
#[export] Instance RolePermission_eta : Eta RolePermission := fun r => mkRolePermission (rp_id r)
    (rp_roleId r) (rp_permissionId r) (rp_deletedAt r).

Record Session := mkSession {
  sess_id : string; sess_userId : string; sess_activeOrganizationId : option string;
  sess_ipHash : option string; sess_userAgent : option string; sess_expiresAt : Z;
  sess_revokedAt : option Z; sess_revokeReason : option string; sess_lastSeenAt : Z;
  sess_createdAt : Z; sess_deletedAt : option Z
}.
#[export] Instance Session_eta : Eta Session := fun r => mkSession (sess_id r) (sess_userId r)
    (sess_activeOrganizationId r) (sess_ipHash r) (sess_userAgent r) (sess_expiresAt r)
    (sess_revokedAt r) (sess_revokeReason r) (sess_lastSeenAt r) (sess_createdAt r)
    (sess_deletedAt r).

Record RefreshToken := mkRefreshToken {
  rt_id : string; rt_userId : string; rt_sessionId : string; rt_tokenHash : string;
  rt_replacedByTokenId : option string; rt_expiresAt : Z; rt_consumedAt : option Z;
  rt_revokedAt : option Z; rt_deletedAt : option Z
}.
#[export] Instance RefreshToken_eta : Eta RefreshToken := fun r => mkRefreshToken (rt_id r)
    (rt_userId r) (rt_sessionId r) (rt_tokenHash r) (rt_replacedByTokenId r) (rt_expiresAt r)
    (rt_consumedAt r) (rt_revokedAt r) (rt_deletedAt r).

Record OtpChallenge := mkOtpChallenge {
  otp_id : string; otp_userId : option string; otp_normalizedDestination : string;
  otp_channel : OtpChannel; otp_purpose : OtpPurpose; otp_codeHash : string; otp_attempts : Z;
  otp_maxAttempts : Z; otp_sentAt : Z; otp_expiresAt : Z; otp_verifiedAt : option Z;
  otp_consumedAt : option Z; otp_lockedAt : option Z; otp_createdAt : Z; otp_deletedAt : option Z
}.
#[export] Instance OtpChallenge_eta : Eta OtpChallenge := fun r => mkOtpChallenge (otp_id r)
    (otp_userId r) (otp_normalizedDestination r) (otp_channel r) (otp_purpose r) (otp_codeHash r)
    (otp_attempts r) (otp_maxAttempts r) (otp_sentAt r) (otp_expiresAt r) (otp_verifiedAt r)
    (otp_consumedAt r) (otp_lockedAt r) (otp_createdAt r) (otp_deletedAt r).

Record PasswordResetToken := mkPasswordResetToken {
  prt_id : string; prt_userId : string; prt_otpChallengeId : string; prt_tokenHash : string;
  prt_expiresAt : Z; prt_usedAt : option Z; prt_deletedAt : option Z
}.
#[export] Instance PasswordResetToken_eta : Eta PasswordResetToken := fun r => mkPasswordResetToken
    (prt_id r) (prt_userId r) (prt_otpChallengeId r) (prt_tokenHash r) (prt_expiresAt r)
    (prt_usedAt r) (prt_deletedAt r).

Record Device := mkDevice {
  dev_id : string; dev_userId : string; dev_fcmToken : string; dev_platform : option string;
  dev_lastSeenAt : Z; dev_createdAt : Z; dev_deletedAt : option Z
}.
#[export] Instance Device_eta : Eta Device := fun r => mkDevice (dev_id r) (dev_userId r)
    (dev_fcmToken r) (dev_platform r) (dev_lastSeenAt r) (dev_createdAt r) (dev_deletedAt r).

Record SocialAccount := mkSocialAccount {
  soc_id : string; soc_userId : string; soc_provider : SocialProvider;
  soc_providerAccountId : string; soc_email : option string; soc_deletedAt : option Z
}.
#[export] Instance SocialAccount_eta : Eta SocialAccount := fun r => mkSocialAccount (soc_id r)
    (soc_userId r) (soc_provider r) (soc_providerAccountId r) (soc_email r) (soc_deletedAt r).

Record OutboxEvent := mkOutboxEvent {
  ob_id : string; ob_aggregateType : string; ob_aggregateId : string; ob_eventType : string;
  ob_channel : NotificationChannel; ob_payload : Json; ob_dedupeKey : string;
  ob_status : OutboxStatus; ob_attempts : Z; ob_deliveryGeneration : Z; ob_availableAt : Z;
  ob_expiresAt : option Z; ob_claimedAt : option Z; ob_claimExpiresAt : option Z;
  ob_claimToken : option string; ob_enqueuedAt : option Z; ob_deliveredAt : option Z;
  ob_failedAt : option Z; ob_deadLetteredAt : option Z; ob_lastError : option string;
  ob_createdAt : Z; ob_updatedAt : Z; ob_deletedAt : option Z
}.
#[export] Instance OutboxEvent_eta : Eta OutboxEvent := fun r => mkOutboxEvent (ob_id r)
    (ob_aggregateType r) (ob_aggregateId r) (ob_eventType r) (ob_channel r) (ob_payload r)
    (ob_dedupeKey r) (ob_status r) (ob_attempts r) (ob_deliveryGeneration r) (ob_availableAt r)
    (ob_expiresAt r) (ob_claimedAt r) (ob_claimExpiresAt r) (ob_claimToken r) (ob_enqueuedAt r)
    (ob_deliveredAt r) (ob_failedAt r) (ob_deadLetteredAt r) (ob_lastError r) (ob_createdAt r)
    (ob_updatedAt r) (ob_deletedAt r).

Record NotificationPreference := mkNotificationPreference {
  pref_id : string; pref_organizationId : option string; pref_userId : string;
  pref_scopeKey : string; pref_channel : NotificationChannel; pref_topic : string;
  pref_enabled : bool; pref_deletedAt : option Z
}.
#[export] Instance NotificationPreference_eta : Eta NotificationPreference := fun r => mkNotificationPreference
    (pref_id r) (pref_organizationId r) (pref_userId r) (pref_scopeKey r) (pref_channel r)
    (pref_topic r) (pref_enabled r) (pref_deletedAt r).

Record EmailSuppression := mkEmailSuppression {
  sup_id : string; sup_destinationHash : string; sup_reason : EmailSuppressionReason;
  sup_provider : option string; sup_providerEventId : option string; sup_deletedAt : option Z
}.
#[export] Instance EmailSuppression_eta : Eta EmailSuppression := fun r => mkEmailSuppression
    (sup_id r) (sup_destinationHash r) (sup_reason r) (sup_provider r) (sup_providerEventId r)
    (sup_deletedAt r).

Record NotificationDelivery := mkNotificationDelivery {
  del_id : string; del_organizationId : option string; del_userId : option string;
  del_outboxEventId : string; del_channel : NotificationChannel;
  del_destinationHash : option string; del_templateKey : option string;
  del_provider : option string; del_providerMessageId : option string;
  del_status : NotificationDeliveryStatus; del_attempts : Z; del_lastError : option string;
  del_sentAt : option Z; del_deliveredAt : option Z; del_deletedAt : option Z
}.
#[export] Instance NotificationDelivery_eta : Eta NotificationDelivery := fun r => mkNotificationDelivery
    (del_id r) (del_organizationId r) (del_userId r) (del_outboxEventId r) (del_channel r)
    (del_destinationHash r) (del_templateKey r) (del_provider r) (del_providerMessageId r)
    (del_status r) (del_attempts r) (del_lastError r) (del_sentAt r) (del_deliveredAt r)
    (del_deletedAt r).

Record AuditEvent := mkAuditEvent {
  aud_id : string; aud_organizationId : option string; aud_actorUserId : option string;
  aud_action : string; aud_entityType : string; aud_entityId : option string;
  aud_requestId : option string; aud_ipHash : option string; aud_userAgent : option string;
  aud_metadata : option Json; aud_integrityHash : string; aud_integrityVersion : Z;
  aud_createdAt : Z; aud_updatedAt : Z; aud_deletedAt : option Z
}.
#[export] Instance AuditEvent_eta : Eta AuditEvent := fun r => mkAuditEvent (aud_id r)
    (aud_organizationId r) (aud_actorUserId r) (aud_action r) (aud_entityType r) (aud_entityId r)
    (aud_requestId r) (aud_ipHash r) (aud_userAgent r) (aud_metadata r) (aud_integrityHash r)
    (aud_integrityVersion r) (aud_createdAt r) (aud_updatedAt r) (aud_deletedAt r).

Record StripeWebhookEvent := mkStripeWebhookEvent {
  swe_id : string; swe_stripeEventId : string; swe_stripeCreatedAt : Z; swe_type : string;
  swe_payload : Json; swe_status : StripeEventStatus; swe_processedAt : option Z;
  swe_lastError : option string; swe_createdAt : Z; swe_deletedAt : option Z
}.
#[export] Instance StripeWebhookEvent_eta : Eta StripeWebhookEvent := fun r => mkStripeWebhookEvent
    (swe_id r) (swe_stripeEventId r) (swe_stripeCreatedAt r) (swe_type r) (swe_payload r)
    (swe_status r) (swe_processedAt r) (swe_lastError r) (swe_createdAt r) (swe_deletedAt r).

Record StripeSubscription := mkStripeSubscription {
  sub_id : string; sub_organizationId : option string; sub_userId : string;
  sub_stripeSubscriptionId : string; sub_status : string; sub_priceId : option string;
  sub_currency : option string; sub_currentPeriodStart : option Z; sub_currentPeriodEnd : option Z;
  sub_cancelAtPeriodEnd : bool; sub_canceledAt : option Z; sub_lastStripeEventId : option string;
  sub_lastStripeEventCreatedAt : option Z; sub_deletedAt : option Z
}.
#[export] Instance StripeSubscription_eta : Eta StripeSubscription := fun r => mkStripeSubscription
    (sub_id r) (sub_organizationId r) (sub_userId r) (sub_stripeSubscriptionId r) (sub_status r)
    (sub_priceId r) (sub_currency r) (sub_currentPeriodStart r) (sub_currentPeriodEnd r)
    (sub_cancelAtPeriodEnd r) (sub_canceledAt r) (sub_lastStripeEventId r)
    (sub_lastStripeEventCreatedAt r) (sub_deletedAt r).

Record StripePayment := mkStripePayment {
  pay_id : string; pay_organizationId : option string; pay_userId : string;
  pay_stripePaymentIntentId : option string; pay_checkoutSessionId : option string;
  pay_chargeId : option string; pay_status : string; pay_amount : option Z; pay_amountRefunded : Z;
  pay_currency : option string; pay_lastStripeEventId : option string;
  pay_lastStripeEventCreatedAt : option Z; pay_createdAt : Z; pay_deletedAt : option Z
}.
#[export] Instance StripePayment_eta : Eta StripePayment := fun r => mkStripePayment (pay_id r)
    (pay_organizationId r) (pay_userId r) (pay_stripePaymentIntentId r) (pay_checkoutSessionId r)
    (pay_chargeId r) (pay_status r) (pay_amount r) (pay_amountRefunded r) (pay_currency r)
    (pay_lastStripeEventId r) (pay_lastStripeEventCreatedAt r) (pay_createdAt r) (pay_deletedAt r).

Record PaymentMethod := mkPaymentMethod {
  pm_id : string; pm_organizationId : option string; pm_userId : string;
  pm_stripePaymentMethodId : string; pm_type : string; pm_brand : option string;
  pm_last4 : option string; pm_expMonth : option Z; pm_expYear : option Z;
  pm_fingerprint : option string; pm_isDefault : bool; pm_detachedAt : option Z; pm_createdAt : Z;
  pm_deletedAt : option Z
}.
#[export] Instance PaymentMethod_eta : Eta PaymentMethod := fun r => mkPaymentMethod (pm_id r)
    (pm_organizationId r) (pm_userId r) (pm_stripePaymentMethodId r) (pm_type r) (pm_brand r)
    (pm_last4 r) (pm_expMonth r) (pm_expYear r) (pm_fingerprint r) (pm_isDefault r)
    (pm_detachedAt r) (pm_createdAt r) (pm_deletedAt r).

Record ChargeableItem := mkChargeableItem {
  item_id : string; item_organizationId : option string; item_userId : option string;
  item_reference : string; item_amount : Z; item_currency : string; item_description : string;
  item_status : ChargeableStatus; item_reservationKeyHash : option string;
  item_reservedAt : option Z; item_expiresAt : option Z; item_consumedAt : option Z;
  item_paymentIntentId : option string; item_deletedAt : option Z
}.
#[export] Instance ChargeableItem_eta : Eta ChargeableItem := fun r => mkChargeableItem
    (item_id r) (item_organizationId r) (item_userId r) (item_reference r) (item_amount r)
    (item_currency r) (item_description r) (item_status r) (item_reservationKeyHash r)
    (item_reservedAt r) (item_expiresAt r) (item_consumedAt r) (item_paymentIntentId r)
    (item_deletedAt r).

Record StripeRefundOperation := mkStripeRefundOperation {
  rop_id : string; rop_organizationId : option string; rop_userId : string; rop_ownerKey : string;
  rop_idempotencyKeyHash : string; rop_requestHash : string; rop_paymentIntentId : option string;
  rop_chargeId : option string; rop_requestedAmount : option Z; rop_stripeRefundId : option string;
  rop_status : string; rop_amount : option Z; rop_currency : option string;
  rop_lastError : option string; rop_completedAt : option Z
}.
#[export] Instance StripeRefundOperation_eta : Eta StripeRefundOperation := fun r => mkStripeRefundOperation
    (rop_id r) (rop_organizationId r) (rop_userId r) (rop_ownerKey r) (rop_idempotencyKeyHash r)
    (rop_requestHash r) (rop_paymentIntentId r) (rop_chargeId r) (rop_requestedAmount r)
    (rop_stripeRefundId r) (rop_status r) (rop_amount r) (rop_currency r) (rop_lastError r)
    (rop_completedAt r).

Record Conversation := mkConversation {
  conv_id : string; conv_organizationId : option string; conv_type : ConversationType;
  conv_title : option string; conv_createdByUserId : option string; conv_lastSeq : Z;
  conv_lastMessageAt : option Z; conv_directKey : option string; conv_createdAt : Z;
  conv_deletedAt : option Z
}.
#[export] Instance Conversation_eta : Eta Conversation := fun r => mkConversation (conv_id r)
    (conv_organizationId r) (conv_type r) (conv_title r) (conv_createdByUserId r) (conv_lastSeq r)
    (conv_lastMessageAt r) (conv_directKey r) (conv_createdAt r) (conv_deletedAt r).

Record ConversationParticipant := mkConversationParticipant {
  part_id : string; part_organizationId : option string; part_conversationId : string;
  part_userId : string; part_role : ParticipantRole; part_lastReadSeq : Z;
  part_mutedUntil : option Z; part_leftAt : option Z; part_deletedAt : option Z
}.
#[export] Instance ConversationParticipant_eta : Eta ConversationParticipant := fun r => mkConversationParticipant
    (part_id r) (part_organizationId r) (part_conversationId r) (part_userId r) (part_role r)
    (part_lastReadSeq r) (part_mutedUntil r) (part_leftAt r) (part_deletedAt r).

Record Message := mkMessage {
  msg_id : string; msg_organizationId : option string; msg_conversationId : string;
  msg_senderUserId : option string; msg_seq : Z; msg_clientMessageId : string;
  msg_type : MessageType; msg_body : option string; msg_uploadId : option string;
  msg_editedAt : option Z; msg_createdAt : Z; msg_deletedAt : option Z
}.
#[export] Instance Message_eta : Eta Message := fun r => mkMessage (msg_id r)
    (msg_organizationId r) (msg_conversationId r) (msg_senderUserId r) (msg_seq r)
    (msg_clientMessageId r) (msg_type r) (msg_body r) (msg_uploadId r) (msg_editedAt r)
    (msg_createdAt r) (msg_deletedAt r).

Record Upload := mkUpload {
  up_id : string; up_organizationId : option string; up_userId : string;
  up_provider : UploadProvider; up_status : UploadStatus; up_visibility : UploadVisibility;
  up_objectKey : string; up_originalName : string; up_contentType : string; up_expectedSize : Z;
  up_actualSize : option Z; up_checksum : option string; up_detectedContentType : option string;
  up_scanProvider : option string; up_scanReference : option string;
  up_scanVerdict : option string; up_scannedAt : option Z; up_url : option string;
  up_uploadExpiresAt : Z; up_readyAt : option Z; up_storageDeletedAt : option Z; up_createdAt : Z;
  up_updatedAt : Z; up_deletedAt : option Z
}.
#[export] Instance Upload_eta : Eta Upload := fun r => mkUpload (up_id r) (up_organizationId r)
    (up_userId r) (up_provider r) (up_status r) (up_visibility r) (up_objectKey r)
    (up_originalName r) (up_contentType r) (up_expectedSize r) (up_actualSize r) (up_checksum r)
    (up_detectedContentType r) (up_scanProvider r) (up_scanReference r) (up_scanVerdict r)
    (up_scannedAt r) (up_url r) (up_uploadExpiresAt r) (up_readyAt r) (up_storageDeletedAt r)
    (up_createdAt r) (up_updatedAt r) (up_deletedAt r).

Record UploadBandwidthUsage := mkUploadBandwidthUsage {
  bw_id : string; bw_organizationId : option string; bw_userId : string; bw_scopeKey : string;
  bw_periodStart : Z; bw_bytes : Z
}.
#[export] Instance UploadBandwidthUsage_eta : Eta UploadBandwidthUsage := fun r => mkUploadBandwidthUsage
    (bw_id r) (bw_organizationId r) (bw_userId r) (bw_scopeKey r) (bw_periodStart r) (bw_bytes r).

Record IdempotencyRecord := mkIdempotencyRecord {
  idem_id : string; idem_actorKey : string; idem_scope : string; idem_keyHash : string;
  idem_requestHash : string; idem_statusCode : option Z; idem_response : option Json;
  idem_lockToken : option string; idem_lockedUntil : option Z; idem_attempts : Z;
  idem_expiresAt : Z; idem_deletedAt : option Z
}.
#[export] Instance IdempotencyRecord_eta : Eta IdempotencyRecord := fun r => mkIdempotencyRecord
    (idem_id r) (idem_actorKey r) (idem_scope r) (idem_keyHash r) (idem_requestHash r)
    (idem_statusCode r) (idem_response r) (idem_lockToken r) (idem_lockedUntil r)
    (idem_attempts r) (idem_expiresAt r) (idem_deletedAt r).

(** ** The state *)

(** A request sent to a provider outside the program (Stripe, object storage): which operation, the
    idempotency key it carried and its parameters. *)
Record Call := mkCall {
  call_api : string; call_idempotencyKey : option string; call_params : Json
}.

(** The tables, the number of identifiers drawn so far, the user ids published on the chat
    revocation channel (modules/chat/chat.revocations.ts), and the requests sent to providers. *)
Record World := mkWorld {
  users : list User;
  organizations : list Organization;
  memberships : list Membership;
  invitations : list Invitation;
  roles : list Role;
  permissions : list Permission;
  userRoles : list UserRole;
  rolePermissions : list RolePermission;
  sessions : list Session;
  refreshTokens : list RefreshToken;
  otpChallenges : list OtpChallenge;
  passwordResetTokens : list PasswordResetToken;
  devices : list Device;
  socialAccounts : list SocialAccount;
  outboxEvents : list OutboxEvent;
  notificationPreferences : list NotificationPreference;
  emailSuppressions : list EmailSuppression;
  notificationDeliveries : list NotificationDelivery;
  auditEvents : list AuditEvent;
  stripeWebhookEvents : list StripeWebhookEvent;
  stripeSubscriptions : list StripeSubscription;
  stripePayments : list StripePayment;
  paymentMethods : list PaymentMethod;
  chargeableItems : list ChargeableItem;
  stripeRefundOperations : list StripeRefundOperation;
  conversations : list Conversation;
  conversationParticipants : list ConversationParticipant;
  messages : list Message;
  uploads : list Upload;
  uploadBandwidthUsages : list UploadBandwidthUsage;
  idempotencyRecords : list IdempotencyRecord;
  drawn : nat;
  revocations : list string;
  calls : list Call
}.
#[export] Instance World_eta : Eta World := fun w => mkWorld
    (users w) (organizations w) (memberships w) (invitations w) (roles w) (permissions w)
    (userRoles w) (rolePermissions w) (sessions w) (refreshTokens w) (otpChallenges w)
    (passwordResetTokens w) (devices w) (socialAccounts w) (outboxEvents w)
    (notificationPreferences w) (emailSuppressions w) (notificationDeliveries w) (auditEvents w)
    (stripeWebhookEvents w) (stripeSubscriptions w) (stripePayments w) (paymentMethods w)
    (chargeableItems w) (stripeRefundOperations w) (conversations w) (conversationParticipants w)
    (messages w) (uploads w) (uploadBandwidthUsages w) (idempotencyRecords w) (drawn w)
    (revocations w) (calls w).

Definition emptyWorld : World :=
  mkWorld [] [] [] [] [] [] [] [] [] [] [] [] [] [] [] [] [] [] [] [] [] [] [] [] [] [] [] [] [] [] [] 0 [] [].

(** ** Models: where each table lives and what must be unique in it *)

#[export] Instance User_model : Model World User := {
  table := users;
  put f w := w <| users ::= f |>;
  clash r r' := (user_id r === user_id r')
    || same_some (user_email r) (user_email r')
    || same_some (user_phone r) (user_phone r')
    || same_some (user_pendingEmail r) (user_pendingEmail r')
    || same_some (user_stripeCustomerId r) (user_stripeCustomerId r');
  softDeletedAt r := user_deletedAt r
}.
#[export] Instance User_laws : ModelLaws World User.
Proof. done. Qed.

#[export] Instance Organization_model : Model World Organization := {
  table := organizations;
  put f w := w <| organizations ::= f |>;
  clash r r' := (org_id r === org_id r')
    || (org_slug r === org_slug r')
    || same_some (org_stripeCustomerId r) (org_stripeCustomerId r');
  softDeletedAt r := org_deletedAt r
}.
#[export] Instance Organization_laws : ModelLaws World Organization.
Proof. done. Qed.

#[export] Instance Membership_model : Model World Membership := {
  table := memberships;
  put f w := w <| memberships ::= f |>;
  clash r r' := (mem_id r === mem_id r')
    || ((mem_organizationId r === mem_organizationId r') && (mem_userId r === mem_userId r'));
  softDeletedAt r := mem_deletedAt r
}.
#[export] Instance Membership_laws : ModelLaws World Membership.
Proof. done. Qed.

#[export] Instance Invitation_model : Model World Invitation := {
  table := invitations;
  put f w := w <| invitations ::= f |>;
  clash r r' := (inv_id r === inv_id r')
    || (inv_tokenHash r === inv_tokenHash r');
  softDeletedAt r := inv_deletedAt r
}.
#[export] Instance Invitation_laws : ModelLaws World Invitation.
Proof. done. Qed.

#[export] Instance Role_model : Model World Role := {
  table := roles;
  put f w := w <| roles ::= f |>;
  clash r r' := (role_id r === role_id r')
    || ((role_organizationId r === role_organizationId r') && (role_name r === role_name r'));
  softDeletedAt r := role_deletedAt r
}.
#[export] Instance Role_laws : ModelLaws World Role.
Proof. done. Qed.

#[export] Instance Permission_model : Model World Permission := {
  table := permissions;
  put f w := w <| permissions ::= f |>;
  clash r r' := (perm_id r === perm_id r')
    || (perm_code r === perm_code r');
  softDeletedAt r := perm_deletedAt r
}.
#[export] Instance Permission_laws : ModelLaws World Permission.
Proof. done. Qed.

#[export] Instance UserRole_model : Model World UserRole := {
  table := userRoles;
  put f w := w <| userRoles ::= f |>;
  clash r r' := (ur_id r === ur_id r')
    || ((ur_userId r === ur_userId r') && (ur_roleId r === ur_roleId r'));
  softDeletedAt r := ur_deletedAt r
}.
#[export] Instance UserRole_laws : ModelLaws World UserRole.
Proof. done. Qed.

#[export] Instance RolePermission_model : Model World RolePermission := {
  table := rolePermissions;
  put f w := w <| rolePermissions ::= f |>;
  clash r r' := (rp_id r === rp_id r')
    || ((rp_roleId r === rp_roleId r') && (rp_permissionId r === rp_permissionId r'));
  softDeletedAt r := rp_deletedAt r
}.
#[export] Instance RolePermission_laws : ModelLaws World RolePermission.
Proof. done. Qed.

#[export] Instance Session_model : Model World Session := {
  table := sessions;
  put f w := w <| sessions ::= f |>;
  clash r r' := (sess_id r === sess_id r');
  softDeletedAt r := sess_deletedAt r
}.
#[export] Instance Session_laws : ModelLaws World Session.
Proof. done. Qed.

#[export] Instance RefreshToken_model : Model World RefreshToken := {
  table := refreshTokens;
  put f w := w <| refreshTokens ::= f |>;
  clash r r' := (rt_id r === rt_id r')
    || (rt_tokenHash r === rt_tokenHash r')
    || same_some (rt_replacedByTokenId r) (rt_replacedByTokenId r');
  softDeletedAt r := rt_deletedAt r
}.
#[export] Instance RefreshToken_laws : ModelLaws World RefreshToken.
Proof. done. Qed.

#[export] Instance OtpChallenge_model : Model World OtpChallenge := {
  table := otpChallenges;
  put f w := w <| otpChallenges ::= f |>;
  clash r r' := (otp_id r === otp_id r');
  softDeletedAt r := otp_deletedAt r
}.
#[export] Instance OtpChallenge_laws : ModelLaws World OtpChallenge.
Proof. done. Qed.

#[export] Instance PasswordResetToken_model : Model World PasswordResetToken := {
  table := passwordResetTokens;
  put f w := w <| passwordResetTokens ::= f |>;
  clash r r' := (prt_id r === prt_id r')
    || (prt_otpChallengeId r === prt_otpChallengeId r')
    || (prt_tokenHash r === prt_tokenHash r');
  softDeletedAt r := prt_deletedAt r
}.
#[export] Instance PasswordResetToken_laws : ModelLaws World PasswordResetToken.
Proof. done. Qed.

#[export] Instance Device_model : Model World Device := {
  table := devices;
  put f w := w <| devices ::= f |>;
  clash r r' := (dev_id r === dev_id r')
    || (dev_fcmToken r === dev_fcmToken r');
  softDeletedAt r := dev_deletedAt r
}.
#[export] Instance Device_laws : ModelLaws World Device.
Proof. done. Qed.

#[export] Instance SocialAccount_model : Model World SocialAccount := {
  table := socialAccounts;
  put f w := w <| socialAccounts ::= f |>;
  clash r r' := (soc_id r === soc_id r')
    || ((soc_provider r === soc_provider r') && (soc_providerAccountId r === soc_providerAccountId r'));
  softDeletedAt r := soc_deletedAt r
}.
#[export] Instance SocialAccount_laws : ModelLaws World SocialAccount.
Proof. done. Qed.

#[export] Instance OutboxEvent_model : Model World OutboxEvent := {
  table := outboxEvents;
  put f w := w <| outboxEvents ::= f |>;
  clash r r' := (ob_id r === ob_id r')
    || (ob_dedupeKey r === ob_dedupeKey r');
  softDeletedAt r := ob_deletedAt r
}.
#[export] Instance OutboxEvent_laws : ModelLaws World OutboxEvent.
Proof. done. Qed.

#[export] Instance NotificationPreference_model : Model World NotificationPreference := {
  table := notificationPreferences;
  put f w := w <| notificationPreferences ::= f |>;
  clash r r' := (pref_id r === pref_id r')
    || ((pref_userId r === pref_userId r') && (pref_scopeKey r === pref_scopeKey r') && (pref_channel r === pref_channel r') && (pref_topic r === pref_topic r'));
  softDeletedAt r := pref_deletedAt r
}.
#[export] Instance NotificationPreference_laws : ModelLaws World NotificationPreference.
Proof. done. Qed.

#[export] Instance EmailSuppression_model : Model World EmailSuppression := {
  table := emailSuppressions;
  put f w := w <| emailSuppressions ::= f |>;
  clash r r' := (sup_id r === sup_id r')
    || (sup_destinationHash r === sup_destinationHash r');
  softDeletedAt r := sup_deletedAt r
}.
#[export] Instance EmailSuppression_laws : ModelLaws World EmailSuppression.
Proof. done. Qed.

#[export] Instance NotificationDelivery_model : Model World NotificationDelivery := {
  table := notificationDeliveries;
  put f w := w <| notificationDeliveries ::= f |>;
  clash r r' := (del_id r === del_id r')
    || (del_outboxEventId r === del_outboxEventId r')
    || same_some (del_providerMessageId r) (del_providerMessageId r');
  softDeletedAt r := del_deletedAt r
}.
#[export] Instance NotificationDelivery_laws : ModelLaws World NotificationDelivery.
Proof. done. Qed.

#[export] Instance AuditEvent_model : Model World AuditEvent := {
  table := auditEvents;
  put f w := w <| auditEvents ::= f |>;
  clash r r' := (aud_id r === aud_id r');
  softDeletedAt r := aud_deletedAt r
}.
#[export] Instance AuditEvent_laws : ModelLaws World AuditEvent.
Proof. done. Qed.

#[export] Instance StripeWebhookEvent_model : Model World StripeWebhookEvent := {
  table := stripeWebhookEvents;
  put f w := w <| stripeWebhookEvents ::= f |>;
  clash r r' := (swe_id r === swe_id r')
    || (swe_stripeEventId r === swe_stripeEventId r');
  softDeletedAt r := swe_deletedAt r
}.
#[export] Instance StripeWebhookEvent_laws : ModelLaws World StripeWebhookEvent.
Proof. done. Qed.

#[export] Instance StripeSubscription_model : Model World StripeSubscription := {
  table := stripeSubscriptions;
  put f w := w <| stripeSubscriptions ::= f |>;
  clash r r' := (sub_id r === sub_id r')
    || (sub_stripeSubscriptionId r === sub_stripeSubscriptionId r');
  softDeletedAt r := sub_deletedAt r
}.
#[export] Instance StripeSubscription_laws : ModelLaws World StripeSubscription.
Proof. done. Qed.

#[export] Instance StripePayment_model : Model World StripePayment := {
  table := stripePayments;
  put f w := w <| stripePayments ::= f |>;
  clash r r' := (pay_id r === pay_id r')
    || same_some (pay_stripePaymentIntentId r) (pay_stripePaymentIntentId r')
    || same_some (pay_checkoutSessionId r) (pay_checkoutSessionId r')
    || same_some (pay_chargeId r) (pay_chargeId r');
  softDeletedAt r := pay_deletedAt r
}.
#[export] Instance StripePayment_laws : ModelLaws World StripePayment.
Proof. done. Qed.

#[export] Instance PaymentMethod_model : Model World PaymentMethod := {
  table := paymentMethods;
  put f w := w <| paymentMethods ::= f |>;
  clash r r' := (pm_id r === pm_id r')
    || (pm_stripePaymentMethodId r === pm_stripePaymentMethodId r');
  softDeletedAt r := pm_deletedAt r
}.
#[export] Instance PaymentMethod_laws : ModelLaws World PaymentMethod.
Proof. done. Qed.

#[export] Instance ChargeableItem_model : Model World ChargeableItem := {
  table := chargeableItems;
  put f w := w <| chargeableItems ::= f |>;
  clash r r' := (item_id r === item_id r')
    || ((item_organizationId r === item_organizationId r') && (item_reference r === item_reference r'))
    || same_some (item_paymentIntentId r) (item_paymentIntentId r');
  softDeletedAt r := item_deletedAt r
}.
#[export] Instance ChargeableItem_laws : ModelLaws World ChargeableItem.
Proof. done. Qed.

#[export] Instance StripeRefundOperation_model : Model World StripeRefundOperation := {
  table := stripeRefundOperations;
  put f w := w <| stripeRefundOperations ::= f |>;
  clash r r' := (rop_id r === rop_id r')
    || same_some (rop_stripeRefundId r) (rop_stripeRefundId r')
    || ((rop_ownerKey r === rop_ownerKey r') && (rop_idempotencyKeyHash r === rop_idempotencyKeyHash r'));
  softDeletedAt r := None
}.
#[export] Instance StripeRefundOperation_laws : ModelLaws World StripeRefundOperation.
Proof. done. Qed.

#[export] Instance Conversation_model : Model World Conversation := {
  table := conversations;
  put f w := w <| conversations ::= f |>;
  clash r r' := (conv_id r === conv_id r')
    || same_some (conv_directKey r) (conv_directKey r');
  softDeletedAt r := conv_deletedAt r
}.
#[export] Instance Conversation_laws : ModelLaws World Conversation.
Proof. done. Qed.

#[export] Instance ConversationParticipant_model : Model World ConversationParticipant := {
  table := conversationParticipants;
  put f w := w <| conversationParticipants ::= f |>;
  clash r r' := (part_id r === part_id r')
    || ((part_conversationId r === part_conversationId r') && (part_userId r === part_userId r'));
  softDeletedAt r := part_deletedAt r
}.
#[export] Instance ConversationParticipant_laws : ModelLaws World ConversationParticipant.
Proof. done. Qed.

#[export] Instance Message_model : Model World Message := {
  table := messages;
  put f w := w <| messages ::= f |>;
  clash r r' := (msg_id r === msg_id r')
    || ((msg_conversationId r === msg_conversationId r') && (msg_seq r === msg_seq r'))
    || ((msg_conversationId r === msg_conversationId r') && (msg_clientMessageId r === msg_clientMessageId r'));
  softDeletedAt r := None
}.
#[export] Instance Message_laws : ModelLaws World Message.
Proof. done. Qed.

#[export] Instance Upload_model : Model World Upload := {
  table := uploads;
  put f w := w <| uploads ::= f |>;
  clash r r' := (up_id r === up_id r')
    || ((up_provider r === up_provider r') && (up_objectKey r === up_objectKey r'));
  softDeletedAt r := up_deletedAt r
}.
#[export] Instance Upload_laws : ModelLaws World Upload.
Proof. done. Qed.

#[export] Instance UploadBandwidthUsage_model : Model World UploadBandwidthUsage := {
  table := uploadBandwidthUsages;
  put f w := w <| uploadBandwidthUsages ::= f |>;
  clash r r' := (bw_id r === bw_id r')
    || ((bw_scopeKey r === bw_scopeKey r') && (bw_periodStart r === bw_periodStart r'));
  softDeletedAt r := None
}.
#[export] Instance UploadBandwidthUsage_laws : ModelLaws World UploadBandwidthUsage.
Proof. done. Qed.

#[export] Instance IdempotencyRecord_model : Model World IdempotencyRecord := {
  table := idempotencyRecords;
  put f w := w <| idempotencyRecords ::= f |>;
  clash r r' := (idem_id r === idem_id r')
    || ((idem_actorKey r === idem_actorKey r') && (idem_scope r === idem_scope r') && (idem_keyHash r === idem_keyHash r'));
  softDeletedAt r := idem_deletedAt r
}.
#[export] Instance IdempotencyRecord_laws : ModelLaws World IdempotencyRecord.
Proof. done. Qed.

