(* ===== verification/JsString.v ===== *)
(** * Strings, dates and canonical JSON

    The string functions of the language the services use, on strings as sequences of 8-bit
    characters: [trim], [toLowerCase], [split], [join], [slice], [padStart], [startsWith],
    decimal printing, [Date.prototype.toISOString] and the quoting of [JSON.stringify]. The case
    and white-space functions are the ASCII part of the language's. [canonicalJson] is
    modules/audit/audit.integrity.ts. *)

From Stdlib Require Import ZArith Lia Bool Permutation.
From stdpp Require Import pretty sorting.
From S2P Require Import Prelude.

Open Scope string_scope.

(** ** Characters *)

Definition code_of (c : ascii) : nat := Ascii.nat_of_ascii c.
Definition chr (n : nat) : ascii := Ascii.ascii_of_nat n.
Definition str1 (n : nat) : string := String (chr n) EmptyString.

Definition isDigit (c : ascii) : bool := (48 <=? code_of c)%nat && (code_of c <=? 57)%nat.
Definition isUpper (c : ascii) : bool := (65 <=? code_of c)%nat && (code_of c <=? 90)%nat.
Definition isSpace (c : ascii) : bool :=
  (code_of c =? 32)%nat || ((9 <=? code_of c)%nat && (code_of c <=? 13)%nat).

(** ** Strings *)

Fixpoint str_map (f : ascii -> ascii) (s : string) : string :=
  match s with EmptyString => EmptyString | String c s' => String (f c) (str_map f s') end.

Fixpoint str_filter (P : ascii -> bool) (s : string) : string :=
  match s with
  | EmptyString => EmptyString
  | String c s' => if P c then String c (str_filter P s') else str_filter P s'
  end.

Fixpoint str_forallb (P : ascii -> bool) (s : string) : bool :=
  match s with EmptyString => true | String c s' => P c && str_forallb P s' end.

Fixpoint str_rev_onto (s acc : string) : string :=
  match s with EmptyString => acc | String c s' => str_rev_onto s' (String c acc) end.
Definition str_reverse (s : string) : string := str_rev_onto s EmptyString.

Definition toLowerCase (s : string) : string :=
  str_map (fun c => if isUpper c then chr (code_of c + 32) else c) s.

Lemma toLowerCase_idem s : toLowerCase (toLowerCase s) = toLowerCase s.
Proof.
  induction s as [|c s IH]; [done|]. unfold toLowerCase in *. cbn [str_map]. rewrite IH. f_equal.
  by destruct c as [[] [] [] [] [] [] [] []].
Qed.

Fixpoint trimStart (s : string) : string :=
  match s with
  | String c s' => if isSpace c then trimStart s' else s
  | EmptyString => EmptyString
  end.
Definition trimEnd (s : string) : string := str_reverse (trimStart (str_reverse s)).
Definition trim (s : string) : string := trimEnd (trimStart s).

Fixpoint join (sep : string) (l : list string) : string :=
  match l with
  | [] => EmptyString
  | [s] => s
  | s :: l' => s ++ sep ++ join sep l'
  end.

(** [s.split(c)] for a one-character separator. *)
Fixpoint split (sep : ascii) (s : string) : list string :=
  match s with
  | EmptyString => [EmptyString]
  | String c s' =>
      if c === sep then EmptyString :: split sep s'
      else match split sep s' with
           | h :: t => String c h :: t
           | [] => [String c EmptyString]
           end
  end.

(** [s.slice(0, n)], [s.slice(n)]. *)
Fixpoint take_str (n : nat) (s : string) : string :=
  match n, s with
  | S n', String c s' => String c (take_str n' s')
  | _, _ => EmptyString
  end.
Fixpoint drop_str (n : nat) (s : string) : string :=
  match n, s with
  | 0, _ => s
  | S n', String _ s' => drop_str n' s'
  | S _, EmptyString => EmptyString
  end.

Definition startsWith (s pre : string) : bool := String.prefix pre s.

Fixpoint replicate_str (n : nat) (c : ascii) : string :=
  match n with 0 => EmptyString | S n' => String c (replicate_str n' c) end.
Definition padStart (n : nat) (c : ascii) (s : string) : string :=
  replicate_str (n - String.length s) c ++ s.

(** Decimal printing of a safe integer. *)
Definition show (n : Z) : string := pretty n.

(** Decimal reading: an optional sign is not accepted, the empty string is not a number. *)
Fixpoint digits_onto (acc : Z) (s : string) : option Z :=
  match s with
  | EmptyString => Some acc
  | String c s' =>
      if isDigit c then digits_onto (acc * 10 + (Z.of_nat (code_of c) - 48))%Z s' else None
  end.
Definition parseDigits (s : string) : option Z :=
  match s with EmptyString => None | _ => digits_onto 0 s end.

(** ** Dates: milliseconds since the epoch, proleptic Gregorian calendar *)

Definition DAY : Z := 86400000.
Definition SECOND : Z := 1000.
Definition MINUTE : Z := 60000.
Definition HOUR : Z := 3600000.

(** Year, month (1-12) and day of month of a day number counted from 1970-01-01. *)
Definition civil (days : Z) : Z * Z * Z :=
  (let z := days + 719468 in
   let era := z / 146097 in
   let doe := z mod 146097 in
   let yoe := (doe - doe / 1460 + doe / 36524 - doe / 146096) / 365 in
   let doy := doe - (365 * yoe + yoe / 4 - yoe / 100) in
   let mp := (5 * doy + 2) / 153 in
   let d := doy - (153 * mp + 2) / 5 + 1 in
   let m := if mp <? 10 then mp + 3 else mp - 9 in
   let y := yoe + era * 400 + (if m <=? 2 then 1 else 0) in
   (y, m, d))%Z.

(** Day number of a date given by year, month (1-12) and day. *)
Definition daysFromCivil (y m d : Z) : Z :=
  (let y' := if m <=? 2 then y - 1 else y in
   let era := y' / 400 in
   let yoe := y' mod 400 in
   let doy := (153 * (if 2 <? m then m - 3 else m + 9) + 2) / 5 + d - 1 in
   let doe := yoe * 365 + yoe / 4 - yoe / 100 + doy in
   era * 146097 + doe - 719468)%Z.

Definition pad2 (n : Z) : string := padStart 2 "0" (show n).

(** [toISOString] for years 0 to 9999. *)
Definition toISOString (t : Z) : string :=
  let '(y, m, d) := civil (t / DAY)%Z in
  let ms := (t mod DAY)%Z in
  padStart 4 "0" (show y) ++ "-" ++ pad2 m ++ "-" ++ pad2 d ++ "T"
  ++ pad2 (ms / HOUR)%Z ++ ":" ++ pad2 (ms / MINUTE mod 60)%Z ++ ":"
  ++ pad2 (ms / SECOND mod 60)%Z ++ "." ++ padStart 3 "0" (show (ms mod SECOND)%Z) ++ "Z".

(** ** JSON text *)

Definition quote : string := str1 34.

Definition hexDigit (n : nat) : string :=
  str1 (if (n <? 10)%nat then 48 + n else 87 + n)%nat.

Definition escapeChar (c : ascii) : string :=
  match code_of c with
  | 34 => str1 92 ++ quote
  | 92 => str1 92 ++ str1 92
  | 8 => str1 92 ++ "b"
  | 9 => str1 92 ++ "t"
  | 10 => str1 92 ++ "n"
  | 12 => str1 92 ++ "f"
  | 13 => str1 92 ++ "r"
  | n => if (n <? 32)%nat then str1 92 ++ "u00" ++ hexDigit (n / 16) ++ hexDigit (n mod 16)
         else String c EmptyString
  end.

Fixpoint escapeString (s : string) : string :=
  match s with EmptyString => EmptyString | String c s' => escapeChar c ++ escapeString s' end.

(** [JSON.stringify] of a string. *)
Definition jsonString (s : string) : string := quote ++ escapeString s ++ quote.

(** [Object.keys(o).sort()]: entries by key, in code-unit order. *)
Definition key_le {A} (x y : string * A) : Prop := String.leb (fst x) (fst y) = true.
#[export] Instance key_le_dec {A} : RelDecision (@key_le A).
Proof. intros x y. unfold key_le. exact _. Defined.

Definition sortEntries {A} (l : list (string * A)) : list (string * A) := merge_sort key_le l.

(** [canonicalJson] (modules/audit/audit.integrity.ts): keys sorted at every level. *)
Fixpoint canonicalJson (value : Json) : string :=
  match value with
  | JNull => "null"
  | JBool true => "true"
  | JBool false => "false"
  | JNum n => show n
  | JStr s => jsonString s
  | JArr l => "[" ++ join "," (List.map canonicalJson l) ++ "]"
  | JObj fields =>
      "{" ++ join ","
        (List.map (fun kv => jsonString (fst kv) ++ ":" ++ snd kv)
           (sortEntries (List.map (fun kv => (fst kv, canonicalJson (snd kv))) fields))) ++ "}"
  end.

(** [JSON.stringify] of a value: keys in the object's own order. *)
Fixpoint jsonStringify (value : Json) : string :=
  match value with
  | JNull => "null"
  | JBool true => "true"
  | JBool false => "false"
  | JNum n => show n
  | JStr s => jsonString s
  | JArr l => "[" ++ join "," (List.map jsonStringify l) ++ "]"
  | JObj fields =>
      "{" ++ join "," (List.map (fun kv => jsonString (fst kv) ++ ":" ++ jsonStringify (snd kv)) fields)
          ++ "}"
  end.

(** ** Facts *)

Lemma key_le_total {A} (x y : string * A) : key_le x y \/ key_le y x.
Proof.
  unfold key_le. destruct (String.leb_total (fst x) (fst y)); [by left|by right].
Qed.
#[export] Instance key_le_Total {A} : Total (@key_le A).
Proof. exact key_le_total. Qed.

Lemma ascii_compare_trans (a b c : ascii) :
  Ascii.compare a b <> Gt -> Ascii.compare b c <> Gt -> Ascii.compare a c <> Gt.
Proof.
  unfold Ascii.compare. rewrite !N.compare_le_iff. lia.
Qed.

Lemma string_leb_iff a b : String.leb a b = true <-> String.compare a b <> Gt.
Proof. unfold String.leb. destruct (String.compare a b); split; congruence. Qed.

Lemma string_compare_trans (a b c : string) :
  String.compare a b <> Gt -> String.compare b c <> Gt -> String.compare a c <> Gt.
Proof.
  revert b c. induction a as [|x a IH]; intros [|y b] [|z c]; cbn; try congruence.
  specialize (IH b c).
  destruct (Ascii.compare x y) eqn:E1, (Ascii.compare y z) eqn:E2; try congruence;
    unfold Ascii.compare in *; rewrite ?N.compare_eq_iff, ?N.compare_lt_iff in E1;
    rewrite ?N.compare_eq_iff, ?N.compare_lt_iff in E2.
  - rewrite E1, E2, N.compare_refl. exact IH.
  - rewrite E1, (proj2 (N.compare_lt_iff _ _) E2). congruence.
  - rewrite <- E2, (proj2 (N.compare_lt_iff _ _) E1). congruence.
  - rewrite (proj2 (N.compare_lt_iff _ _) (N.lt_trans _ _ _ E1 E2)). congruence.
Qed.

#[export] Instance key_le_trans {A} : Transitive (@key_le A).
Proof.
  intros x y z. unfold key_le. rewrite !string_leb_iff. apply string_compare_trans.
Qed.

(** [<] on strings is a strict total order. *)
Lemma string_ltb_iff a b : String.ltb a b = true <-> String.compare a b = Lt.
Proof. unfold String.ltb. destruct (String.compare a b); split; congruence. Qed.
Lemma string_ltb_irrefl a : String.ltb a a = false.
Proof. unfold String.ltb. pose proof (String.compare_antisym a a) as Ha. by destruct (String.compare a a). Qed.
Lemma string_ltb_total a b : a <> b -> String.ltb a b = false -> String.ltb b a = true.
Proof.
  intros Hne. unfold String.ltb. rewrite (String.compare_antisym b a).
  destruct (String.compare a b) eqn:E; [by apply String.compare_eq_iff in E|done|done].
Qed.
Lemma string_ltb_trans a b c : String.ltb a b = true -> String.ltb b c = true -> String.ltb a c = true.
Proof.
  rewrite !string_ltb_iff. intros H1 H2.
  pose proof (string_compare_trans a b c ltac:(congruence) ltac:(congruence)) as H3.
  destruct (String.compare a c) eqn:E; [|done|done]. apply String.compare_eq_iff in E as ->.
  rewrite String.compare_antisym, H1 in H2. done.
Qed.

Lemma key_le_antisym {A} (x y : string * A) : key_le x y -> key_le y x -> fst x = fst y.
Proof.
  unfold key_le. intros H1 H2. by apply String.leb_antisym.
Qed.

Lemma sortEntries_Permutation {A} (l : list (string * A)) : Permutation (sortEntries l) l.
Proof. apply merge_sort_Permutation. Qed.

Lemma NoDup_fst_eq {A} (l : list (string * A)) x y :
  List.NoDup (List.map fst l) -> In x l -> In y l -> fst x = fst y -> x = y.
Proof.
  induction l as [|h t IH]; cbn; [done|].
  intros Hnd. apply List.NoDup_cons_iff in Hnd as [Hh Hnd]. intros [->|Hx] [->|Hy] He; auto.
  - contradict Hh. rewrite He. by apply List.in_map.
  - contradict Hh. rewrite <- He. by apply List.in_map.
Qed.

(** Sorting the entries of an object forgets their order: keys of an object are distinct. *)
Lemma sortEntries_perm {A} (l1 l2 : list (string * A)) :
  List.NoDup (List.map fst l1) -> Permutation l1 l2 -> sortEntries l1 = sortEntries l2.
Proof.
  intros Hnd Hp. unfold sortEntries.
  apply (StronglySorted_unique_strong key_le).
  - intros x y Hx Hy H1 H2. rewrite merge_sort_Permutation in Hx.
    rewrite merge_sort_Permutation, <- Hp in Hy.
    apply list_elem_of_In in Hx, Hy. eapply NoDup_fst_eq; eauto using key_le_antisym.
  - apply StronglySorted_merge_sort; apply _.
  - apply StronglySorted_merge_sort; apply _.
  - by rewrite !merge_sort_Permutation.
Qed.

Example toISOString_epoch : toISOString 0 = "1970-01-01T00:00:00.000Z".
Proof. reflexivity. Qed.
Example toISOString_ex : toISOString 1709210096789 = "2024-02-29T12:34:56.789Z".
Proof. reflexivity. Qed.
Example trim_ex : trim "  a b " = "a b".
Proof. reflexivity. Qed.

(** ** [includes] and [Set] *)

Definition mem (s : string) (l : list string) : bool := existsb (fun x => x === s) l.

(** [[...new Set(values)]] *)
Fixpoint uniqueOnto (seen values : list string) : list string :=
  match values with
  | [] => []
  | v :: rest => if mem v seen then uniqueOnto seen rest else v :: uniqueOnto (v :: seen) rest
  end.
Definition unique (values : list string) : list string := uniqueOnto [] values.

(** ** Sorting: [Array.sort] on strings, and [orderBy] on a column with the identifier as tie-breaker *)

Definition str_le (a b : string) : Prop := String.leb a b = true.
#[export] Instance str_le_dec : RelDecision str_le.
Proof. intros a b. unfold str_le. exact _. Defined.
Definition sortStrings (l : list string) : list string := merge_sort str_le l.

Definition order_le {R} (key : R -> Z) (idOf : R -> string) (a b : R) : Prop :=
  (key a < key b)%Z \/ key a = key b /\ str_le (idOf a) (idOf b).
#[export] Instance order_le_dec {R} (key : R -> Z) (idOf : R -> string) : RelDecision (order_le key idOf).
Proof. intros a b. unfold order_le, str_le. exact _. Defined.

Definition orderAscId {R} (key : R -> Z) (idOf : R -> string) (l : list R) : list R :=
  merge_sort (order_le key idOf) l.
Definition orderDescId {R} (key : R -> Z) (idOf : R -> string) (l : list R) : list R :=
  merge_sort (fun a b => order_le key idOf b a) l.

Lemma In_orderAscId {R} key (idOf : R -> string) l r : In r (orderAscId key idOf l) <-> In r l.
Proof. unfold orderAscId. by rewrite <- !list_elem_of_In, merge_sort_Permutation. Qed.
Lemma In_orderDescId {R} key (idOf : R -> string) l r : In r (orderDescId key idOf l) <-> In r l.
Proof. unfold orderDescId. by rewrite <- !list_elem_of_In, merge_sort_Permutation. Qed.

(** ** Joining with a separator that does not occur in the parts *)

Definition noChar (c : ascii) (s : string) : bool := str_forallb (fun d => negb (d === c)) s.

Lemma append_sep_inj c a b x y : noChar c a = true -> noChar c b = true ->
  a ++ String c x = b ++ String c y -> a = b /\ x = y.
Proof.
  unfold noChar. revert b. induction a as [|d a IH]; intros [|e b] Ha Hb Heq; cbn in *.
  - by simplify_eq.
  - simplify_eq. bools. done.
  - simplify_eq. bools. done.
  - bools. injection Heq as -> Heq. by destruct (IH b) as [-> ->].
Qed.

Lemma show_no_colon n : noChar ":" (show n) = true.
Proof.
  assert (Hgo : forall x s, noChar ":" s = true -> noChar ":" (pretty_N_go x s) = true).
  { intros x. induction (N.lt_wf_0 x) as [x _ IH]; intros s Hs.
    assert (x = 0 \/ 0 < x)%N as [->|Hx] by lia; [by rewrite pretty_N_go_0|].
    rewrite pretty_N_go_step by done. apply IH; [by apply N.div_lt|].
    unfold noChar in *. cbn. rewrite Hs, andb_true_r. unfold pretty_N_char. by repeat case_match. }
  assert (Hpos : forall p, noChar ":" (pretty (Npos p)) = true).
  { intros p. unfold pretty, pretty_N. case_decide; [done|]. by apply Hgo. }
  unfold show. destruct n as [|p|p]; [done|apply Hpos|]. apply (Hpos p).
Qed.

Lemma show_inj a b : show a = show b -> a = b.
Proof. apply (inj (pretty (A := Z))). Qed.
