(* ===== verification/JsonText.v ===== *)
(** * JSON text: [JSON.parse]

    [jsonParse] reads the text of a value: white space, literals, strings with their escapes,
    integers, arrays and objects (a repeated key keeps its first position and its last value). Text
    whose value the model cannot hold (a fraction, an exponent, an escaped code point above 255) is
    refused like text that is no JSON. What [JSON.stringify] wrote is read back as it was. *)

From Stdlib Require Import ZArith Lia Bool.
From stdpp Require Import pretty.
From S2P Require Import Prelude JsString.

Open Scope string_scope.

(** The quotation mark, as a pattern. *)
Notation dquote := (Ascii false true false false false true false false).

Fixpoint skipSpace (s : string) : string :=
  match s with
  | String c s' =>
      if (code_of c =? 32)%nat || (code_of c =? 9)%nat || (code_of c =? 10)%nat || (code_of c =? 13)%nat
      then skipSpace s' else s
  | EmptyString => EmptyString
  end.

Fixpoint stripPrefix (pre s : string) : option string :=
  match pre, s with
  | EmptyString, _ => Some s
  | String a pre', String b s' => if a === b then stripPrefix pre' s' else None
  | String _ _, EmptyString => None
  end.

Definition hexValue (c : ascii) : option nat :=
  let n := code_of c in
  if isDigit c then Some (n - 48)%nat
  else if (97 <=? n)%nat && (n <=? 102)%nat then Some (n - 87)%nat
  else if (65 <=? n)%nat && (n <=? 70)%nat then Some (n - 55)%nat
  else None.

Definition unescape (c : ascii) : option ascii :=
  match code_of c with
  | 34 => Some c | 92 => Some c | 47 => Some c
  | 98 => Some (chr 8) | 116 => Some (chr 9) | 110 => Some (chr 10)
  | 102 => Some (chr 12) | 114 => Some (chr 13)
  | _ => None
  end.

(** The characters of a string up to its closing quote, and what follows it. *)
Fixpoint parseChars (s : string) : option (string * string) :=
  match s with
  | EmptyString => None
  | String c s' =>
      match code_of c, s' with
      | 34, _ => Some (EmptyString, s')
      | 92, String e s2 =>
          if code_of e === 117%nat then
            match s2 with
            | String a (String b (String x (String y s3))) =>
                match hexValue a, hexValue b, hexValue x, hexValue y with
                | Some 0, Some 0, Some h, Some l =>
                    match parseChars s3 with
                    | Some (t, rest) => Some (String (chr (16 * h + l)) t, rest)
                    | None => None
                    end
                | _, _, _, _ => None
                end
            | _ => None
            end
          else
            match unescape e, parseChars s2 with
            | Some d, Some (t, rest) => Some (String d t, rest)
            | _, _ => None
            end
      | 92, EmptyString => None
      | n, _ =>
          if (n <? 32)%nat then None
          else match parseChars s' with
               | Some (t, rest) => Some (String c t, rest)
               | None => None
               end
      end
  end.

Fixpoint spanDigits (s : string) : string * string :=
  match s with
  | String c s' => if isDigit c then (String c (fst (spanDigits s')), snd (spanDigits s')) else (EmptyString, s)
  | EmptyString => (EmptyString, EmptyString)
  end.

(** After an integer: a fraction or an exponent is not an integer. *)
Definition endsNumber (s : string) : bool :=
  match s with
  | String c _ => negb (isDigit c) && negb (c === "."%char) && negb (c === "e"%char) && negb (c === "E"%char)
  | EmptyString => true
  end.

Definition leadingZero (digits : string) : bool :=
  match digits with String "0" (String _ _) => true | _ => false end.

Definition parseNat (s : string) : option (Z * string) :=
  let digits := fst (spanDigits s) in let rest := snd (spanDigits s) in
  if leadingZero digits || negb (endsNumber rest) then None
  else match parseDigits digits with Some n => Some (n, rest) | None => None end.

Definition parseNumber (s : string) : option (Json * string) :=
  match s with
  | String "-" s' => match parseNat s' with Some (n, rest) => Some (JNum (- n), rest) | None => None end
  | _ => match parseNat s with Some (n, rest) => Some (JNum n, rest) | None => None end
  end.

Fixpoint setKey {A} (k : string) (v : A) (l : list (string * A)) : list (string * A) :=
  match l with
  | [] => [(k, v)]
  | (k', v') :: l' => if k === k' then (k, v) :: l' else (k', v') :: setKey k v l'
  end.

(** [{ ...base, ...more }] *)
Definition spread {A} (base more : list (string * A)) : list (string * A) :=
  fold_left (fun acc kv => setKey (fst kv) (snd kv) acc) more base.

Fixpoint parseValue (fuel : nat) (s : string) {struct fuel} : option (Json * string) :=
  match fuel with
  | 0 => None
  | S f =>
      match skipSpace s with
      | String "[" s' =>
          match skipSpace s' with
          | String "]" rest => Some (JArr [], rest)
          | s2 => parseElements f [] s2
          end
      | String "{" s' =>
          match skipSpace s' with
          | String "}" rest => Some (JObj [], rest)
          | s2 => parseMembers f [] s2
          end
      | String dquote s' =>
          match parseChars s' with Some (t, rest) => Some (JStr t, rest) | None => None end
      | s' =>
          match stripPrefix "null" s', stripPrefix "true" s', stripPrefix "false" s' with
          | Some rest, _, _ => Some (JNull, rest)
          | _, Some rest, _ => Some (JBool true, rest)
          | _, _, Some rest => Some (JBool false, rest)
          | _, _, _ => parseNumber s'
          end
      end
  end
with parseElements (fuel : nat) (acc : list Json) (s : string) {struct fuel} : option (Json * string) :=
  match fuel with
  | 0 => None
  | S f =>
      match parseValue f s with
      | Some (v, s1) =>
          match skipSpace s1 with
          | String "," s2 => parseElements f (acc ++ [v])%list s2
          | String "]" rest => Some (JArr (acc ++ [v])%list, rest)
          | _ => None
          end
      | None => None
      end
  end
with parseMembers (fuel : nat) (acc : list (string * Json)) (s : string) {struct fuel} : option (Json * string) :=
  match fuel with
  | 0 => None
  | S f =>
      match skipSpace s with
      | String dquote s0 =>
          match parseChars s0 with
          | Some (k, s1) =>
              match skipSpace s1 with
              | String ":" s2 =>
                  match parseValue f s2 with
                  | Some (v, s3) =>
                      match skipSpace s3 with
                      | String "," s4 => parseMembers f (setKey k v acc) s4
                      | String "}" rest => Some (JObj (setKey k v acc), rest)
                      | _ => None
                      end
                  | None => None
                  end
              | _ => None
              end
          | None => None
          end
      | _ => None
      end
  end.

(** [JSON.parse(text)]; [None] is a [SyntaxError]. *)
Definition jsonParse (s : string) : option Json :=
  match parseValue (2 * String.length s + 1) s with
  | Some (v, rest) => if skipSpace rest === EmptyString then Some v else None
  | None => None
  end.

Example jsonParse_ex : jsonParse " [1, -20 ,{}, [ null,true ]] "
  = Some (JArr [JNum 1; JNum (-20); JObj []; JArr [JNull; JBool true]]).
Proof. reflexivity. Qed.
Example jsonParse_fraction : jsonParse "1.5" = None.
Proof. reflexivity. Qed.

(** ** Reading back what was written *)

Section JsonInduction.
Variable P : Json -> Prop.
Hypothesis Hnull : P JNull.
Hypothesis Hbool : forall b, P (JBool b).
Hypothesis Hnum : forall n, P (JNum n).
Hypothesis Hstr : forall s, P (JStr s).
Hypothesis Harr : forall l, List.Forall P l -> P (JArr l).
Hypothesis Hobj : forall fields, List.Forall (fun kv => P (snd kv)) fields -> P (JObj fields).

Fixpoint Json_nested_ind (j : Json) : P j.
Proof.
  destruct j as [|b|n|s|l|fields]; [exact Hnull|exact (Hbool b)|exact (Hnum n)|exact (Hstr s)|..].
  - apply Harr. induction l as [|x l IH]; constructor; [exact (Json_nested_ind x)|exact IH].
  - apply Hobj. induction fields as [|x l IH]; constructor; [exact (Json_nested_ind (snd x))|exact IH].
Defined.
End JsonInduction.

(** The keys of every object are distinct, as those of a JavaScript object are. *)
Fixpoint jsonOk (j : Json) : Prop :=
  match j with
  | JArr l => fold_right (fun x p => jsonOk x /\ p) True l
  | JObj fields => List.NoDup (List.map fst fields) /\ fold_right (fun kv p => jsonOk (snd kv) /\ p) True fields
  | _ => True
  end.

Lemma append_assoc (a b c : string) : (a ++ b) ++ c = a ++ (b ++ c).
Proof. induction a as [|x a IH]; [done|]. exact (f_equal (String x) IH). Qed.

Lemma append_nil_r (a : string) : a ++ "" = a.
Proof. induction a as [|x a IH]; [done|]. exact (f_equal (String x) IH). Qed.

Lemma length_append (a b : string) : String.length (a ++ b) = String.length a + String.length b.
Proof. induction a as [|x a IH]; [done|]. exact (f_equal S IH). Qed.

Lemma append_cons c (s t : string) : String c s ++ t = String c (s ++ t).
Proof. done. Qed.

Lemma noChar_app c (a b : string) : noChar c (a ++ b) = noChar c a && noChar c b.
Proof. unfold noChar. induction a as [|d a IH]; cbn; [done|]. by rewrite <- andb_assoc, <- IH. Qed.

Lemma append_inj_l (a b c : string) : a ++ b = a ++ c -> b = c.
Proof. induction a as [|x a IH]; [done|]. intros Hq. injection Hq as Hq. by apply IH. Qed.
Lemma append_inj_r (a b c : string) : a ++ c = b ++ c -> a = b.
Proof.
  revert b. induction a as [|x a IH]; intros [|y b] Hq; [done| | |].
  - apply (f_equal String.length) in Hq. rewrite !length_append in Hq. cbn in Hq. lia.
  - apply (f_equal String.length) in Hq. rewrite !length_append in Hq. cbn in Hq. lia.
  - injection Hq as -> Hq. f_equal. by apply IH.
Qed.

Lemma parseChars_char c s t rest : parseChars s = Some (t, rest) ->
  parseChars (escapeChar c ++ s) = Some (String c t, rest).
Proof.
  intros H. pose (k := fun c o => match o with
    | Some (t, rest) => Some (String c t, rest) | None => @None (string * string) end).
  destruct c as [[] [] [] [] [] [] [] []];
    lazymatch goal with |- _ = Some (String ?c _, _) => exact (f_equal (k c) H) end.
Qed.

Lemma parseChars_escape s rest : parseChars (escapeString s ++ String dquote rest) = Some (s, rest).
Proof.
  induction s as [|c s IH]; [done|]. cbn [escapeString]. rewrite append_assoc. by apply parseChars_char.
Qed.

Lemma endsNumber_digit c r : endsNumber (String c r) = true -> isDigit c = false.
Proof. unfold endsNumber. by destruct (isDigit c). Qed.

Lemma spanDigits_app d rest : str_forallb isDigit d = true -> endsNumber rest = true ->
  spanDigits (d ++ rest) = (d, rest).
Proof.
  intros Hd Hr. induction d as [|c d IH]; cbn in *.
  - destruct rest as [|c r]; [done|]. apply endsNumber_digit in Hr.
    change (spanDigits (String c r) = (EmptyString, String c r)). cbn [spanDigits]. by rewrite Hr.
  - apply andb_true_iff in Hd as [Hc Hd]. 
    change (spanDigits (String c (d ++ rest)) = (String c d, rest)). cbn [spanDigits]. by rewrite Hc, IH.
Qed.

Lemma digits_go x s acc : acc = Z.of_N x ->
  digits_onto 0 (pretty_N_go x s) = digits_onto acc s.
Proof.
  revert s acc. induction (N.lt_wf_0 x) as [x _ IH]; intros s acc ->.
  assert (x = 0 \/ 0 < x)%N as [->|Hx] by lia; [by rewrite pretty_N_go_0|].
  rewrite pretty_N_go_step by done. erewrite IH; [|by apply N.div_lt|reflexivity]. cbn.
  assert (Hc : isDigit (pretty_N_char (x mod 10)) = true
               /\ Z.of_nat (code_of (pretty_N_char (x mod 10))) = (48 + Z.of_N (x mod 10))%Z).
  { assert (Hm : (x mod 10 < 10)%N) by (by apply N.mod_lt).
    set (m := (x mod 10)%N) in *. clearbody m.
    assert (Hc : (m = 0 \/ m = 1 \/ m = 2 \/ m = 3 \/ m = 4 \/ m = 5 \/ m = 6 \/ m = 7 \/ m = 8 \/ m = 9)%N) by lia.
    by repeat destruct Hc as [->|Hc]; [..|rewrite Hc]. }
  destruct Hc as [-> ->]. f_equal.
  rewrite N2Z.inj_div, N2Z.inj_mod. pose proof (Z.div_mod (Z.of_N x) 10). lia.
Qed.

Lemma digit_char m : (m < 10)%N -> isDigit (pretty_N_char m) = true /\ (pretty_N_char m = "0"%char -> m = 0%N).
Proof.
  intros Hm. assert (Hc : (m = 0 \/ m = 1 \/ m = 2 \/ m = 3 \/ m = 4 \/ m = 5 \/ m = 6 \/ m = 7 \/ m = 8 \/ m = 9)%N) by lia.
  by repeat destruct Hc as [->|Hc]; [..|rewrite Hc].
Qed.

Lemma allDigits_go x s : str_forallb isDigit s = true -> str_forallb isDigit (pretty_N_go x s) = true.
Proof.
  revert s. induction (N.lt_wf_0 x) as [x _ IH]; intros s Hs.
  assert (x = 0 \/ 0 < x)%N as [->|Hx] by lia; [by rewrite pretty_N_go_0|].
  rewrite pretty_N_go_step by done. apply IH; [by apply N.div_lt|]. cbn. rewrite Hs.
  rewrite (proj1 (digit_char _ (N.mod_lt x 10 ltac:(done)))). done.
Qed.

Lemma leading_go x s : (0 < x)%N ->
  exists c t, pretty_N_go x s = String c t /\ c <> "0"%char /\ isDigit c = true.
Proof.
  revert s. induction (N.lt_wf_0 x) as [x _ IH]; intros s Hx.
  rewrite pretty_N_go_step by done.
  destruct (N.eq_0_gt_0_cases (x / 10)) as [Hz|Hp]; [|by apply IH; [apply N.div_lt|]].
  rewrite Hz, pretty_N_go_0. eexists _, _. split; [reflexivity|].
  pose proof (N.mod_lt x 10 ltac:(done)) as Hm. destruct (digit_char _ Hm) as [Hd Hc].
  split; [|done]. intros He%Hc. pose proof (N.div_mod' x 10). lia.
Qed.

Lemma pretty_pos p : pretty (N.pos p) = pretty_N_go (N.pos p) "".
Proof. unfold pretty, pretty_N. by case_decide. Qed.

Lemma parseNat_pretty x rest : endsNumber rest = true ->
  parseNat (pretty x ++ rest) = Some (Z.of_N x, rest).
Proof.
  intros Hr. destruct x as [|p].
  - change (pretty 0%N) with "0". unfold parseNat. rewrite spanDigits_app by done. cbn [fst snd].
    by rewrite Hr.
  - rewrite pretty_pos. unfold parseNat.
    rewrite spanDigits_app by (done || by apply allDigits_go). cbn [fst snd]. rewrite Hr.
    destruct (leading_go (N.pos p) "" ltac:(done)) as (c & t & He & Hc & _).
    assert (Hz : leadingZero (pretty_N_go (N.pos p) "") = false).
    { rewrite He. by destruct c as [[] [] [] [] [] [] [] []]. }
    rewrite Hz. cbn [orb negb]. unfold parseDigits. rewrite He, <- He.
    by rewrite (digits_go _ _ _ eq_refl).
Qed.

Lemma parseNumber_show n rest : endsNumber rest = true ->
  parseNumber (show n ++ rest) = Some (JNum n, rest).
Proof.
  intros Hr. unfold show. destruct n as [|p|p].
  - exact (f_equal (fun o => match o with Some (n, rest) => Some (JNum n, rest) | None => None end)
             (parseNat_pretty 0 rest Hr)).
  - change (pretty (Z.pos p)) with (pretty (N.pos p)).
    pose proof (parseNat_pretty (N.pos p) rest Hr) as Hp.
    destruct (leading_go (N.pos p) "" ltac:(done)) as (c & t & He & _ & Hd).
    rewrite pretty_pos, He in *. unfold parseNumber. cbn [append] in *.
    destruct c as [[] [] [] [] [] [] [] []]; try discriminate Hd; by rewrite Hp.
  - exact (f_equal (fun o => match o with Some (n, rest) => Some (JNum (- n), rest) | None => None end)
             (parseNat_pretty (N.pos p) rest Hr)).
Qed.

(** A value's text starts with a character that is neither white space nor a closing bracket. *)
Definition startsValue (s : string) : Prop :=
  exists c t, s = String c t
    /\ (isDigit c || existsb (fun d => d === c) ["-"; "n"; "t"; "f"; "["; "{"; dquote]%char) = true.

Lemma jsonStringify_starts j : startsValue (jsonStringify j).
Proof.
  destruct j as [|[]|n|s|l|fields]; try (by eexists _, _).
  cbn. unfold show. destruct n as [|p|p]; [by eexists _, _| |by eexists _, _].
  change (pretty (Z.pos p)) with (pretty (N.pos p)). rewrite pretty_pos.
  destruct (leading_go (N.pos p) "" ltac:(done)) as (c & t & -> & _ & Hd).
  exists c, t. by rewrite Hd.
Qed.

Lemma skipSpace_starts s rest : startsValue s -> skipSpace (s ++ rest) = s ++ rest.
Proof. intros (c & t & -> & Hc). by destruct c as [[] [] [] [] [] [] [] []]. Qed.

(** What the parser must do on the text of [j], wherever it stands. *)
Definition reads (j : Json) : Prop := forall fuel rest,
  endsNumber rest = true -> 2 * String.length (jsonStringify j) + 1 <= fuel ->
  parseValue fuel (jsonStringify j ++ rest) = Some (j, rest).

Lemma join_cons sep s l : join sep (s :: l) = match l with [] => s | _ => s ++ sep ++ join sep l end.
Proof. by destruct l. Qed.

Lemma parse_elements l : List.Forall reads l -> l <> [] -> forall fuel acc rest,
  2 * String.length (join "," (List.map jsonStringify l)) + 2 <= fuel ->
  parseElements fuel acc (join "," (List.map jsonStringify l) ++ String "]" rest)
  = Some (JArr (acc ++ l)%list, rest).
Proof.
  induction 1 as [|j l Hj Hl IH]; [done|]. intros _ fuel acc rest.
  cbn [List.map]. rewrite join_cons. destruct l as [|j2 l].
  - cbn [List.map]. intros Hf. destruct fuel as [|f]; [lia|]. cbn [parseElements].
    by rewrite Hj by (done || lia).
  - set (text := join "," (List.map jsonStringify (j2 :: l))) in *. cbn [List.map]. 
    rewrite !length_append. cbn [String.length]. intros Hf. destruct fuel as [|f]; [lia|].
    rewrite !append_assoc. cbn [parseElements]. rewrite Hj by (done || lia).
    change (parseElements f (acc ++ [j])%list (text ++ String "]" rest) = Some (JArr (acc ++ j :: j2 :: l)%list, rest)).
    rewrite IH by (done || lia). by rewrite <- app_assoc.
Qed.

Lemma setKey_new {A} k (v : A) l : ~ In k (List.map fst l) -> setKey k v l = (l ++ [(k, v)])%list.
Proof.
  induction l as [|[k' v'] l IH]; cbn; [done|]. intros Hn.
  rewrite bool_decide_false by (intros ->; apply Hn; by left). rewrite IH; [done|].
  intros Hin. apply Hn. by right.
Qed.

Definition memberText (kv : string * Json) : string := jsonString (fst kv) ++ ":" ++ jsonStringify (snd kv).

(** One member read off the front of the text. *)
Lemma parse_member kv f acc tail : reads (snd kv) -> ~ In (fst kv) (List.map fst acc) ->
  2 * String.length (memberText kv) + 1 <= f -> endsNumber tail = true ->
  parseMembers (S f) acc (memberText kv ++ tail)
  = match skipSpace tail with
    | String "," s4 => parseMembers f (acc ++ [kv])%list s4
    | String "}" rest => Some (JObj (acc ++ [kv])%list, rest)
    | _ => None
    end.
Proof.
  destruct kv as [k v]. unfold memberText, jsonString. cbn [fst snd]. intros Hv Hk Hf Ht.
  rewrite !length_append in Hf. rewrite !append_assoc.
  assert (Hq : forall x, quote ++ x = String dquote x) by done.
  assert (Hsq : forall x, skipSpace (String dquote x) = String dquote x) by done.
  assert (Hsc : forall x, ":" ++ x = String ":" x /\ skipSpace (String ":" x) = String ":" x) by done.
  rewrite !Hq, (proj1 (Hsc _)). cbn [parseMembers].
  rewrite Hsq, parseChars_escape, (proj2 (Hsc _)), Hv by (done || lia).
  by rewrite setKey_new.
Qed.

Lemma parse_members fields : List.Forall (fun kv => reads (snd kv)) fields -> fields <> [] ->
  forall fuel acc rest, List.NoDup (List.map fst (acc ++ fields)%list) ->
  2 * String.length (join "," (List.map memberText fields)) + 2 <= fuel ->
  parseMembers fuel acc (join "," (List.map memberText fields) ++ String "}" rest)
  = Some (JObj (acc ++ fields)%list, rest).
Proof.
  induction 1 as [|kv l Hj Hl IH]; [done|]. intros _ fuel acc rest Hnd.
  assert (Hk : ~ In (fst kv) (List.map fst acc)).
  { rewrite List.map_app in Hnd. apply List.NoDup_remove_2 in Hnd. intros Hin. apply Hnd, in_or_app. by left. }
  cbn [List.map]. rewrite join_cons. destruct l as [|kv2 l].
  - cbn [List.map]. intros Hf. destruct fuel as [|f]; [lia|]. by rewrite parse_member by (done || lia).
  - set (text := join "," (List.map memberText (kv2 :: l))) in *. cbn [List.map].
    rewrite !length_append. cbn [String.length]. intros Hf. destruct fuel as [|f]; [lia|].
    rewrite !append_assoc. rewrite parse_member by (done || lia).
    change (parseMembers f (acc ++ [kv])%list (text ++ String "}" rest) = Some (JObj (acc ++ kv :: kv2 :: l)%list, rest)).
    rewrite IH; [by rewrite <- app_assoc|done|by rewrite <- app_assoc|lia].
Qed.

Lemma memberText_starts kv : startsValue (memberText kv).
Proof. destruct kv as [k v]. by eexists _, _. Qed.

Lemma join_starts {A} (text : A -> string) l : (forall x, startsValue (text x)) -> l <> [] ->
  startsValue (join "," (List.map text l)).
Proof.
  intros Ht Hne. destruct l as [|x l]; [done|]. cbn [List.map]. rewrite join_cons.
  destruct (Ht x) as (c & t & -> & Hc). destruct (List.map text l); [by exists c, t|by eexists c, _].
Qed.

(** An opening bracket followed by something other than its closing one. *)
Lemma parse_array_open f s : startsValue s -> parseValue (S f) (String "[" s) = parseElements f [] s.
Proof. intros (c & t & -> & Hc). by destruct c as [[] [] [] [] [] [] [] []]. Qed.
Lemma parse_object_open f s : startsValue s -> parseValue (S f) (String "{" s) = parseMembers f [] s.
Proof. intros (c & t & -> & Hc). by destruct c as [[] [] [] [] [] [] [] []]. Qed.

Lemma starts_app s rest : startsValue s -> startsValue (s ++ rest).
Proof. intros (c & t & -> & Hc). by eexists c, _. Qed.

Lemma parse_number_value f n rest : endsNumber rest = true ->
  parseValue (S f) (show n ++ rest) = Some (JNum n, rest).
Proof.
  intros Hr. rewrite <- (parseNumber_show n rest Hr).
  assert (Hc : exists c t, show n = String c t /\ (isDigit c || (c === "-"%char)) = true).
  { unfold show. destruct n as [|p|p]; [by eexists _, _| |by eexists _, _].
    change (pretty (Z.pos p)) with (pretty (N.pos p)). rewrite pretty_pos.
    destruct (leading_go (N.pos p) "" ltac:(done)) as (c & t & -> & _ & Hd).
    exists c, t. by rewrite Hd. }
  destruct Hc as (c & t & -> & Hc). by destruct c as [[] [] [] [] [] [] [] []].
Qed.

Lemma fold_and_Forall {A} (Q : A -> Prop) l : fold_right (fun x p => Q x /\ p) True l <-> List.Forall Q l.
Proof.
  induction l as [|x l IH]; cbn; [done|]. rewrite IH. split; [intros []; by constructor|].
  intros H. by inversion H.
Qed.

Lemma parse_stringify j : jsonOk j -> reads j.
Proof.
  induction j as [|[]|n|s|l IH|fields IH] using Json_nested_ind; intros Hok fuel rest Hr Hf;
    (destruct fuel as [|f]; [lia|]); [done|done|done|by apply parse_number_value|..].
  - unfold jsonStringify, jsonString. rewrite !append_assoc.
    change (match parseChars (escapeString s ++ String dquote rest) with
            | Some (t, rest) => Some (JStr t, rest) | None => None end = Some (JStr s, rest)).
    by rewrite parseChars_escape.
  - apply fold_and_Forall in Hok. destruct l as [|x l]; [done|].
    set (text := join "," (List.map jsonStringify (x :: l))).
    change (2 * S (String.length (text ++ "]")) + 1 <= S f) in Hf. rewrite length_append in Hf.
    change (parseValue (S f) (String "[" ((text ++ "]") ++ rest)) = Some (JArr (x :: l), rest)).
    rewrite append_assoc.
    rewrite parse_array_open by (apply starts_app, join_starts; [apply jsonStringify_starts|done]).
    apply parse_elements; [|done|subst text; cbn [String.length] in *; lia].
    rewrite List.Forall_forall in IH, Hok |- *. intros y Hy. exact (IH y Hy (Hok y Hy)).
  - destruct Hok as [Hnd Hok]. apply fold_and_Forall in Hok. destruct fields as [|x l]; [done|].
    set (text := join "," (List.map memberText (x :: l))).
    change (2 * S (String.length (text ++ "}")) + 1 <= S f) in Hf. rewrite length_append in Hf.
    change (parseValue (S f) (String "{" ((text ++ "}") ++ rest)) = Some (JObj (x :: l), rest)).
    rewrite append_assoc.
    rewrite parse_object_open by (apply starts_app, join_starts; [apply memberText_starts|done]).
    apply parse_members; [|done|done|subst text; cbn [String.length] in *; lia].
    rewrite List.Forall_forall in IH, Hok |- *. intros y Hy. exact (IH y Hy (Hok y Hy)).
Qed.

(** [JSON.parse(JSON.stringify(value))] is the value. *)
Lemma jsonParse_stringify j : jsonOk j -> jsonParse (jsonStringify j) = Some j.
Proof.
  intros Hok. unfold jsonParse. rewrite <- (append_nil_r (jsonStringify j)) at 2.
  by rewrite (parse_stringify j Hok) by (done || lia).
Qed.
