(* ===== verification/Base64.v ===== *)
(** * Base64url

    [Buffer.from(bytes).toString('base64url')] and [Buffer.from(text, 'base64url')] of node:buffer, on strings of
    8-bit characters: encoding without padding; a decoder that takes both alphabets, passes over other characters
    and stops at the padding. *)

From Stdlib Require Import ZArith Lia Bool.
From S2P Require Import Prelude JsString.

Open Scope string_scope.

Definition byteOf (c : ascii) : Z := Z.of_nat (code_of c).
Definition charOf (b : Z) : ascii := chr (Z.to_nat b).

(** The character of six bits. *)
Definition sextetChar (v : Z) : ascii :=
  if (v <? 26)%Z then charOf (65 + v)
  else if (v <? 52)%Z then charOf (71 + v)
  else if (v <? 62)%Z then charOf (v - 4)
  else if (v =? 62)%Z then "-"%char else "_"%char.

Definition sextet (c : ascii) : option Z :=
  let n := byteOf c in
  if (65 <=? n)%Z && (n <=? 90)%Z then Some (n - 65)%Z
  else if (97 <=? n)%Z && (n <=? 122)%Z then Some (n - 71)%Z
  else if (48 <=? n)%Z && (n <=? 57)%Z then Some (n + 4)%Z
  else if (c === "-"%char) || (c === "+"%char) then Some 62%Z
  else if (c === "_"%char) || (c === "/"%char) then Some 63%Z
  else None.

(** The six-bit groups of bytes, three by three. *)
Fixpoint sextetsOf (s : string) : list Z :=
  match s with
  | String a (String b (String c rest)) =>
      let a := byteOf a in let b := byteOf b in let c := byteOf c in
      [a / 4; a mod 4 * 16 + b / 16; b mod 16 * 4 + c / 64; c mod 64]%Z ++ sextetsOf rest
  | String a (String b EmptyString) =>
      let a := byteOf a in let b := byteOf b in
      [a / 4; a mod 4 * 16 + b / 16; b mod 16 * 4]%Z
  | String a EmptyString => let a := byteOf a in [a / 4; a mod 4 * 16]%Z
  | EmptyString => []
  end%list.

Fixpoint bytesOf (l : list Z) : string :=
  match l with
  | a :: b :: c :: d :: rest =>
      String (charOf (a * 4 + b / 16)) (String (charOf (b mod 16 * 16 + c / 4)) (String (charOf (c mod 4 * 64 + d)) (bytesOf rest)))
  | [a; b; c] => String (charOf (a * 4 + b / 16)) (String (charOf (b mod 16 * 16 + c / 4)) EmptyString)
  | [a; b] => String (charOf (a * 4 + b / 16)) EmptyString
  | _ => EmptyString
  end%Z.

Fixpoint str_of_chars (l : list ascii) : string := match l with [] => EmptyString | c :: rest => String c (str_of_chars rest) end.

(** The characters that count, up to the padding. *)
Fixpoint sextetsIn (s : string) : list Z :=
  match s with
  | EmptyString => []
  | String c rest =>
      if c === "="%char then []
      else match sextet c with Some v => v :: sextetsIn rest | None => sextetsIn rest end
  end.

Definition base64urlEncode (s : string) : string := str_of_chars (List.map sextetChar (sextetsOf s)).
Definition base64urlDecode (s : string) : string := bytesOf (sextetsIn s).

Example encode_ex : base64urlEncode "Hello?>" = "SGVsbG8_Pg".
Proof. reflexivity. Qed.
Example decode_ex : base64urlDecode "SGVs bG8_Pg==ignored" = "Hello?>".
Proof. reflexivity. Qed.

(** ** Decoding what was encoded *)

Lemma sextet_char v : (0 <= v < 64)%Z ->
  sextet (sextetChar v) = Some v /\ sextetChar v === "="%char = false /\ sextetChar v === "."%char = false.
Proof.
  intros Hv. assert (Hall : forallb (fun n => let v := Z.of_nat n in
    (sextet (sextetChar v) === Some v) && negb (sextetChar v === "="%char) && negb (sextetChar v === "."%char)) (seq 0 64) = true)
    by reflexivity.
  rewrite forallb_forall in Hall. specialize (Hall (Z.to_nat v) ltac:(apply in_seq; lia)). cbn zeta in Hall.
  rewrite Z2Nat.id in Hall by lia. bools. rewrite !bd_ne by done. done.
Qed.

Lemma sextetsIn_chars l : List.Forall (fun v => (0 <= v < 64)%Z) l ->
  sextetsIn (str_of_chars (List.map sextetChar l)) = l /\ noChar "." (str_of_chars (List.map sextetChar l)) = true.
Proof.
  induction 1 as [|v l Hv _ [IH1 IH2]]; [done|]. apply sextet_char in Hv as (Hs & He & Hd).
  cbn [List.map str_of_chars sextetsIn]. rewrite He, Hs, IH1. split; [done|]. unfold noChar in *. cbn [str_forallb]. by rewrite Hd.
Qed.

Lemma byteOf_range c : (0 <= byteOf c < 256)%Z.
Proof. unfold byteOf, code_of. pose proof (Ascii.nat_ascii_bounded c). lia. Qed.

Lemma charOf_byteOf c : charOf (byteOf c) = c.
Proof. unfold charOf, byteOf, chr, code_of. rewrite Nat2Z.id. apply Ascii.ascii_nat_embedding. Qed.

(** Strings three characters at a time. *)
Lemma string_ind3 (P : string -> Prop) : P "" -> (forall a, P (String a "")) -> (forall a b, P (String a (String b ""))) ->
  (forall a b c s, P s -> P (String a (String b (String c s)))) -> forall s, P s.
Proof.
  intros H0 H1 H2 H3. enough (Hall : forall s, P s /\ (forall a, P (String a s)) /\ (forall a b, P (String a (String b s)))) by apply Hall.
  induction s as [|c s (IH1 & IH2 & IH3)]; [done|]. repeat split; auto.
Qed.

(** Splitting and joining the bits. *)
Lemma group_range a b c : (0 <= a < 256)%Z -> (0 <= b < 256)%Z -> (0 <= c < 256)%Z ->
  (0 <= a / 4 < 64 /\ 0 <= a mod 4 * 16 < 64 /\ 0 <= a mod 4 * 16 + b / 16 < 64
   /\ 0 <= b mod 16 * 4 < 64 /\ 0 <= b mod 16 * 4 + c / 64 < 64 /\ 0 <= c mod 64 < 64)%Z.
Proof. intros. Z.div_mod_to_equations. lia. Qed.

Lemma first_byte a b : (0 <= a < 256)%Z -> (0 <= b < 256)%Z -> (a / 4 * 4 + (a mod 4 * 16 + b / 16) / 16 = a)%Z.
Proof.
  intros. rewrite (Z.add_comm (a mod 4 * 16)), Z.div_add by done.
  rewrite (Z.div_small (b / 16)) by (Z.div_mod_to_equations; lia). Z.div_mod_to_equations. lia.
Qed.
Lemma second_byte a b c : (0 <= b < 256)%Z -> (0 <= c < 256)%Z ->
  ((a mod 4 * 16 + b / 16) mod 16 * 16 + (b mod 16 * 4 + c / 64) / 4 = b)%Z.
Proof.
  intros. rewrite (Z.add_comm (a mod 4 * 16)), Z.mod_add, (Z.mod_small (b / 16)) by (done || (Z.div_mod_to_equations; lia)).
  rewrite (Z.add_comm (b mod 16 * 4)), Z.div_add by done.
  rewrite (Z.div_small (c / 64)) by (Z.div_mod_to_equations; lia). Z.div_mod_to_equations. lia.
Qed.
Lemma third_byte b c : (0 <= c < 256)%Z -> ((b mod 16 * 4 + c / 64) mod 4 * 64 + c mod 64 = c)%Z.
Proof.
  intros. rewrite (Z.add_comm (b mod 16 * 4)), Z.mod_add, (Z.mod_small (c / 64)) by (done || (Z.div_mod_to_equations; lia)).
  Z.div_mod_to_equations. lia.
Qed.

Lemma sextets_range s : List.Forall (fun v => (0 <= v < 64)%Z) (sextetsOf s).
Proof.
  induction s as [|a|a b|a b c s IH] using string_ind3; cbn [sextetsOf app]; [done|..].
  - destruct (group_range (byteOf a) 0 0) as (? & ? & _); try done; [apply byteOf_range|]. by repeat apply List.Forall_cons.
  - destruct (group_range (byteOf a) (byteOf b) 0) as (? & _ & ? & ? & _); try done; [apply byteOf_range..|].
    by repeat apply List.Forall_cons.
  - destruct (group_range (byteOf a) (byteOf b) (byteOf c)) as (? & _ & ? & _ & ? & ?); try done; [apply byteOf_range..|].
    by repeat apply List.Forall_cons.
Qed.

Lemma bytes_of_sextets s : bytesOf (sextetsOf s) = s.
Proof.
  induction s as [|a|a b|a b c s IH] using string_ind3; cbn [sextetsOf app bytesOf]; [done|..].
  - pose proof (first_byte (byteOf a) 0 (byteOf_range a) ltac:(done)) as H1. cbn in H1. rewrite Z.add_0_r in H1.
    by rewrite H1, charOf_byteOf.
  - pose proof (second_byte (byteOf a) (byteOf b) 0 (byteOf_range b) ltac:(done)) as H2. cbn in H2. rewrite Z.add_0_r in H2.
    rewrite first_byte by apply byteOf_range. by rewrite H2, !charOf_byteOf.
  - rewrite first_byte, second_byte, third_byte by apply byteOf_range. by rewrite !charOf_byteOf, IH.
Qed.

(** What was encoded is read back, and holds no dot. *)
Lemma base64url_roundtrip s : base64urlDecode (base64urlEncode s) = s /\ noChar "." (base64urlEncode s) = true.
Proof.
  unfold base64urlDecode, base64urlEncode. destruct (sextetsIn_chars (sextetsOf s) (sextets_range s)) as [-> Hd].
  split; [apply bytes_of_sextets|done].
Qed.
