(* ===== verification/Pagination.v ===== *)
(** * Pagination

    lib/cursor-pagination.ts and lib/offset-pagination.ts. The database's side of a page ([take],
    [cursor], [skip] on an ordered result) is [fetchRows]. *)

From Stdlib Require Import ZArith Lia Bool.
From S2P Require Import Prelude JsString.

Open Scope string_scope.

(** ** cursor-pagination.ts *)

Record CursorPaginationInput := mkCursorInput { cpi_cursor : option string; cpi_limit : nat }.
Record CursorPaginationQuery := mkCursorQuery {
  cpq_take : nat; cpq_cursor : option string; cpq_skip : option nat
}.
Record CursorPage (T : Type) := mkCursorPage { page_items : list T; page_nextCursor : option string }.
Arguments mkCursorPage {T} _ _.
Arguments page_items {T} _.
Arguments page_nextCursor {T} _.

(** [items.at(-1)] *)
Definition at_last {T} (items : list T) : option T := List.nth_error items (List.length items - 1).

Section Cursor.
Context {T : Type} (idOf : T -> string).

Definition cursorQuery (input : CursorPaginationInput) : CursorPaginationQuery :=
  if truthy (cpi_cursor input) then mkCursorQuery (cpi_limit input + 1) (cpi_cursor input) (Some 1)
  else mkCursorQuery (cpi_limit input + 1) None None.

Definition cursorPage (limit : nat) (items : list T) : CursorPage T :=
  let hasMore := (limit <? List.length items)%nat in
  let pageItems := if hasMore then firstn limit items else items in
  mkCursorPage pageItems (if hasMore then idOf <$> at_last pageItems else None).

Definition paginateCursor {S} (input : CursorPaginationInput)
    (fetchPage : CursorPaginationQuery -> Proc S (list T)) : Proc S (CursorPage T) :=
  items ← fetchPage (cursorQuery input);
  mret (cursorPage (cpi_limit input) items).

(** A query on an ordered result: from the cursor's row on (nothing if there is none), skip, take. *)
Fixpoint fromCursor (cursor : string) (rows : list T) : list T :=
  match rows with
  | [] => []
  | r :: rs => if idOf r === cursor then r :: rs else fromCursor cursor rs
  end.

Definition fetchRows (rows : list T) (q : CursorPaginationQuery) : list T :=
  let start := match cpq_cursor q with Some c => fromCursor c rows | None => rows end in
  firstn (cpq_take q) (skipn (cpq_skip q ??? 0) start).

(** What a client does: follow [nextCursor] until there is none. *)
Fixpoint walkPages (fuel : nat) (limit : nat) (cursor : option string) (rows : list T) : option (list (list T)) :=
  match fuel with
  | O => None
  | S fuel =>
      let page := cursorPage limit (fetchRows rows (cursorQuery (mkCursorInput cursor limit))) in
      match page_nextCursor page with
      | None => Some [page_items page]
      | Some next => cons (page_items page) <$> walkPages fuel limit (Some next) rows
      end
  end.

Lemma fromCursor_app pre r rest : ~ In (idOf r) (List.map idOf pre) ->
  fromCursor (idOf r) (pre ++ r :: rest)%list = r :: rest.
Proof.
  induction pre as [|x pre IH]; cbn; [by rewrite bd_refl|]. intros Hn.
  rewrite bd_ne; [apply IH|]; intros ?; apply Hn; auto.
Qed.

Lemma at_last_snoc (l : list T) x : at_last (l ++ [x])%list = Some x.
Proof.
  unfold at_last. rewrite length_app. cbn. replace (List.length l + 1 - 1) with (List.length l) by lia.
  rewrite List.nth_error_app2 by lia. by rewrite Nat.sub_diag.
Qed.

(** The page after a visited prefix. *)
Lemma walk_from limit rows : 0 < limit -> List.NoDup (List.map idOf rows) ->
  ~ In EmptyString (List.map idOf rows) ->
  forall rest pre cursor fuel, rows = (pre ++ rest)%list ->
  match cursor with
  | None => pre = []
  | Some c => exists pre' x, pre = (pre' ++ [x])%list /\ idOf x = c
  end -> List.length rest < fuel ->
  exists pages, walkPages fuel limit cursor rows = Some pages /\ List.concat pages = rest
    /\ List.Forall (fun p => List.length p <= limit) pages.
Proof.
  intros Hl Hnd He rest. remember (List.length rest) as n eqn:En. revert rest En.
  induction n as [n IH] using (well_founded_induction lt_wf). intros rest -> pre cursor fuel Hrows Hc Hf.
  destruct fuel as [|fuel]; [lia|]. cbn [walkPages].
  assert (Hfetch : fetchRows rows (cursorQuery (mkCursorInput cursor limit)) = firstn (limit + 1) rest).
  { unfold cursorQuery. cbn [cpi_cursor cpi_limit]. destruct cursor as [c|]; cbn.
    - destruct Hc as (pre' & x & -> & <-). rewrite bd_ne; cbn.
      + rewrite <- app_assoc in Hrows. cbn in Hrows. unfold fetchRows. cbn. rewrite Hrows, fromCursor_app; [done|].
        rewrite Hrows, List.map_app in Hnd. cbn in Hnd. apply List.NoDup_remove_2 in Hnd.
        intros Hin. apply Hnd, in_or_app. by left.
      + intros Hx. apply He. rewrite Hrows, List.map_app. apply in_or_app. left.
        rewrite List.map_app. apply in_or_app. right. cbn. by left.
    - by subst. }
  rewrite Hfetch. unfold cursorPage. rewrite List.length_firstn.
  destruct (_ <? _)%nat eqn:Em; cbn [page_items page_nextCursor].
  - apply Nat.ltb_lt in Em. rewrite firstn_firstn, Nat.min_l by lia.
    destruct (List.exists_last (l := firstn limit rest)) as (pre' & x & Hx).
    { intros E. apply (f_equal (@List.length T)) in E. rewrite List.length_firstn in E. cbn in E. lia. }
    rewrite Hx, at_last_snoc. cbn [fmap option_fmap option_map].
    destruct (IH (List.length (skipn limit rest))) with (rest := skipn limit rest) (pre := (pre ++ firstn limit rest)%list)
      (cursor := Some (idOf x)) (fuel := fuel) as (pages & Hw & Hcat & Hall).
    + rewrite List.length_skipn. lia.
    + done.
    + by rewrite <- app_assoc, firstn_skipn.
    + exists (pre ++ pre')%list, x. by rewrite Hx, app_assoc.
    + rewrite List.length_skipn. lia.
    + exists ((pre' ++ [x])%list :: pages). rewrite Hw. split; [done|]. cbn. rewrite Hcat, <- Hx. split.
      * apply firstn_skipn.
      * constructor; [|done]. rewrite List.length_firstn. lia.
  - apply Nat.ltb_ge in Em. exists [firstn (limit + 1) rest]. split; [done|]. cbn. rewrite app_nil_r.
    rewrite List.firstn_all2 by lia. split; [done|]. constructor; [lia|constructor].
Qed.

(** C32: following cursors visits every row once, in order. With distinct identifiers and a positive
    limit, fetching page after page from the start ends after finitely many requests; the pages are no
    longer than the limit and put together they are the whole result. *)
Theorem cursor_pages_cover limit rows :
  0 < limit -> List.NoDup (List.map idOf rows) -> ~ In EmptyString (List.map idOf rows) ->
  exists pages, walkPages (S (List.length rows)) limit None rows = Some pages
    /\ List.concat pages = rows /\ List.Forall (fun p => List.length p <= limit) pages.
Proof. intros Hl Hnd He. apply (walk_from limit rows Hl Hnd He rows []); [done|done|lia]. Qed.
End Cursor.

Lemma cursor_pages_cover_witness :
  exists pages, walkPages (fun s : string => s) 6 2 None ["a"; "b"; "c"; "d"; "e"] = Some pages
    /\ List.concat pages = ["a"; "b"; "c"; "d"; "e"].
Proof.
  destruct (cursor_pages_cover (fun s : string => s) 2 ["a"; "b"; "c"; "d"; "e"]) as (pages & Hw & Hc & _).
  - lia.
  - repeat constructor; cbn; intuition discriminate.
  - cbn. intuition discriminate.
  - exists pages. split; [exact Hw|exact Hc].
Defined.

(** ** offset-pagination.ts *)

Record OffsetPaginationInput := mkOffsetInput { opi_page : Z; opi_pageSize : Z }.
Record OffsetPagination := mkOffsetPagination {
  op_page : Z; op_pageSize : Z; op_totalItems : Z; op_totalPages : Z; op_hasNext : bool;
  op_hasPrevious : bool
}.

Definition MAX_OFFSET_ROWS : Z := 50000.

(** The numbers are integers here; [Number.isInteger] is the type's. *)
Definition assertValidInput (input : OffsetPaginationInput) : res unit :=
  if (opi_page input <? 1)%Z then Err (TypeError "page must be a positive integer")
  else if (opi_pageSize input <? 1)%Z then Err (TypeError "pageSize must be a positive integer")
  else Ok tt.

(** [Math.ceil(a / b)] for a positive [b]. *)
Definition ceilDiv (a b : Z) : Z := (- ((- a) / b))%Z.

Definition buildOffsetPagination (input : OffsetPaginationInput) (totalItems : Z) : res OffsetPagination :=
  match assertValidInput input with
  | Err e => Err e
  | Ok _ =>
      let totalPages := if (totalItems =? 0)%Z then 0%Z else ceilDiv totalItems (opi_pageSize input) in
      Ok (mkOffsetPagination (opi_page input) (opi_pageSize input) totalItems totalPages
            (opi_page input <? totalPages)%Z ((1 <? opi_page input) && (0 <? totalItems))%Z)
  end.

Definition paginateOffset {S T} (input : OffsetPaginationInput) (fetchPage : Z -> Z -> Proc S (list T))
    (countTotal : Proc S Z) : Proc S (list T * OffsetPagination) :=
  match assertValidInput input with
  | Err e => throw e
  | Ok _ =>
      let skip := ((opi_page input - 1) * opi_pageSize input)%Z in
      if (MAX_OFFSET_ROWS <? skip)%Z then
        throw (errors.badRequest ("Page " ++ show (opi_page input)
          ++ " is beyond the maximum offset depth; use cursor pagination for deeper results"))
      else
        items ← fetchPage skip (opi_pageSize input);
        totalItems ← countTotal;
        match buildOffsetPagination input totalItems with
        | Err e => throw e
        | Ok pagination => mret (items, pagination)
        end
  end.

(** The offset page's flags tell the truth. [hasNext] holds exactly when some row lies past this
    page, every row lies on a page numbered at most [totalPages], and an invalid page or size is a
    [TypeError]. *)
Theorem offset_flags_exact page pageSize total :
  (0 <= total)%Z ->
  match buildOffsetPagination (mkOffsetInput page pageSize) total with
  | Ok p => (1 <= page)%Z /\ (1 <= pageSize)%Z
      /\ (op_hasNext p = true <-> page * pageSize < total)%Z
      /\ (op_hasPrevious p = true <-> 1 < page /\ 0 < total)%Z
      /\ (forall row, 0 <= row < total -> row / pageSize + 1 <= op_totalPages p)%Z
      /\ ((op_totalPages p - 1) * pageSize < total \/ total = 0)%Z
  | Err e => (page < 1 \/ pageSize < 1)%Z /\ exists m, e = TypeError m
  end.
Proof.
  intros Ht. unfold buildOffsetPagination, assertValidInput. cbn.
  destruct (page <? 1)%Z eqn:E1; [bools; eauto|]. destruct (pageSize <? 1)%Z eqn:E2; [bools; eauto|].
  bools. cbn. split; [done|]. split; [done|].
  assert (Hceil : forall k, (k < ceilDiv total pageSize <-> k * pageSize < total)%Z).
  { intros k. unfold ceilDiv. pose proof (Z.div_mod (- total) pageSize ltac:(lia)).
    pose proof (Z.mod_pos_bound (- total) pageSize ltac:(lia)). split; intros; nia. }
  destruct (total =? 0)%Z eqn:E0.
  - apply Z.eqb_eq in E0. subst. split; [rewrite Z.ltb_lt; split; intros; nia|].
    split; [rewrite andb_true_iff, !Z.ltb_lt; done|]. split; [intros; lia|by right].
  - apply Z.eqb_neq in E0. split; [rewrite Z.ltb_lt; apply Hceil|].
    split; [rewrite andb_true_iff, !Z.ltb_lt; done|]. split.
    + intros row Hrow. assert (row / pageSize < ceilDiv total pageSize)%Z; [|lia].
      apply Hceil. pose proof (Z.mul_div_le row pageSize ltac:(lia)). lia.
    + left. assert (ceilDiv total pageSize - 1 < ceilDiv total pageSize)%Z as H%Hceil by lia. done.
Qed.

Lemma offset_flags_exact_witness :
  exists p, buildOffsetPagination (mkOffsetInput 2 10) 21 = Ok p /\ op_hasNext p = true /\ op_totalPages p = 3%Z.
Proof.
  pose proof (offset_flags_exact 2 10 21 ltac:(lia)) as Hok. cbv beta iota delta [buildOffsetPagination
    assertValidInput opi_page opi_pageSize] in Hok. exists (mkOffsetPagination 2 10 21 3 true true).
  split; [reflexivity|]. split; [|reflexivity]. destruct Hok as (_ & _ & [_ Hn] & _). apply Hn. reflexivity.
Defined.
