(* ===== verification/Platform.v ===== *)
(** * The platform: configuration, cryptographic primitives, identifiers

    [Config] is the part of config/env.ts the services read. [Platform] names what the program
    takes from outside its own source: HMAC-SHA-256, HKDF, SHA-256, argon2, AES-256-GCM, the
    identifiers the database and [uuidV7] draw, and the deployed configuration. The definitions
    below it are lib/crypto.ts over those primitives. *)

From Stdlib Require Import ZArith Lia Bool.
From S2P Require Import Prelude Store Database JsString JsonText.

Open Scope string_scope.

Inductive TenancyMode := Tenancy_disabled | Tenancy_single | Tenancy_multi.
#[export] Instance TenancyMode_eq_dec : EqDecision TenancyMode.
Proof. solve_decision. Defined.

Inductive BillingOwnerSetting := Billing_user | Billing_organization.
#[export] Instance BillingOwnerSetting_eq_dec : EqDecision BillingOwnerSetting.
Proof. solve_decision. Defined.

Inductive UploadProviderSetting := UploadSetting_disabled | UploadSetting_s3 | UploadSetting_cloudinary.
#[export] Instance UploadProviderSetting_eq_dec : EqDecision UploadProviderSetting.
Proof. solve_decision. Defined.

Record Config := mkConfig {
  APP_ORIGIN : string;
  TENANCY_MODE : TenancyMode;
  BILLING_OWNER : BillingOwnerSetting;
  TOKEN_HASH_SECRET : string;
  COOKIE_SECRET : string;
  AUDIT_INTEGRITY_SECRET : string;
  CRYPTO_ACTIVE_KEY_ID : string;
  CRYPTO_KEYRING : list (string * string);
  JWT_ACCESS_SECRET : string;
  ACCESS_TOKEN_TTL_MINUTES : Z;
  REFRESH_TOKEN_TTL_DAYS : Z;
  PASSWORD_RESET_TOKEN_TTL_MINUTES : Z;
  CHAT_ENABLED : bool;
  CHAT_MAX_ROOMS : Z;
  EMAIL_FROM : string;
  EMAIL_UNSUBSCRIBE_URL : string;
  BILLING_ENABLED : bool;
  STRIPE_WEBHOOK_SECRET : string;
  STRIPE_PRICE_CATALOG : list (string * string);
  STRIPE_DEFAULT_PRICE_KEY : string;
  DYNAMIC_PRICING_ENABLED : bool;
  CHARGE_MIN_AMOUNT_BY_CURRENCY : list (string * Z);
  CHARGE_MAX_AMOUNT_BY_CURRENCY : list (string * Z);
  CHARGE_ALLOWED_CURRENCIES : list string;
  REFUND_SELF_SERVICE_ENABLED : bool;
  REFUND_WINDOW_DAYS : Z;
  REFUND_MAX_AMOUNT_BY_CURRENCY : list (string * Z);
  RATE_LIMIT_FALLBACK_MAX_KEYS : Z;
  DATA_RETENTION_DAYS : Z;
  AUDIT_RETENTION_DAYS : Z;
  RETENTION_BATCH_SIZE : Z;
  UPLOAD_PROVIDER : UploadProviderSetting;
  UPLOAD_MAX_BYTES : Z;
  UPLOAD_ALLOWED_MIME_TYPES : list string;
  UPLOAD_URL_TTL_SECONDS : Z;
  UPLOAD_USER_STORAGE_QUOTA_BYTES : Z;
  UPLOAD_USER_MONTHLY_BANDWIDTH_QUOTA_BYTES : Z;
  UPLOAD_SCAN_MODE_webhook : bool;
  UPLOAD_DOWNLOAD_MODE_redirect : bool;
  UPLOAD_DOWNLOAD_URL_TTL_SECONDS : Z;
  CLOUDINARY_CLOUD_NAME : string;
  CLOUDINARY_API_KEY : string;
  CLOUDINARY_API_SECRET : string;
  COOKIE_SECURE : bool;
  COOKIE_SAME_SITE : string;
  TRUST_PROXY_HOPS : nat;
  TRUST_PROXY_CIDRS : list string;
  RATE_LIMIT_IP_PER_MINUTE : Z;
  RATE_LIMIT_ALLOWLIST_CIDRS : list string;
  EMAIL_EVENT_WEBHOOK_SECRET : string;
  SCHEDULER_STALE_AFTER_HOURS : Z;
  GOOGLE_CLIENT_ID : option string;
  APPLE_CLIENT_ID : option string
}.
#[export] Instance Config_eta : Eta Config := fun r => mkConfig
    (APP_ORIGIN r) (TENANCY_MODE r) (BILLING_OWNER r) (TOKEN_HASH_SECRET r) (COOKIE_SECRET r)
    (AUDIT_INTEGRITY_SECRET r) (CRYPTO_ACTIVE_KEY_ID r) (CRYPTO_KEYRING r) (JWT_ACCESS_SECRET r)
    (ACCESS_TOKEN_TTL_MINUTES r) (REFRESH_TOKEN_TTL_DAYS r) (PASSWORD_RESET_TOKEN_TTL_MINUTES r)
    (CHAT_ENABLED r) (CHAT_MAX_ROOMS r) (EMAIL_FROM r) (EMAIL_UNSUBSCRIBE_URL r) (BILLING_ENABLED r)
    (STRIPE_WEBHOOK_SECRET r) (STRIPE_PRICE_CATALOG r) (STRIPE_DEFAULT_PRICE_KEY r)
    (DYNAMIC_PRICING_ENABLED r) (CHARGE_MIN_AMOUNT_BY_CURRENCY r) (CHARGE_MAX_AMOUNT_BY_CURRENCY r)
    (CHARGE_ALLOWED_CURRENCIES r) (REFUND_SELF_SERVICE_ENABLED r) (REFUND_WINDOW_DAYS r)
    (REFUND_MAX_AMOUNT_BY_CURRENCY r) (RATE_LIMIT_FALLBACK_MAX_KEYS r) (DATA_RETENTION_DAYS r)
    (AUDIT_RETENTION_DAYS r) (RETENTION_BATCH_SIZE r) (UPLOAD_PROVIDER r) (UPLOAD_MAX_BYTES r)
    (UPLOAD_ALLOWED_MIME_TYPES r) (UPLOAD_URL_TTL_SECONDS r) (UPLOAD_USER_STORAGE_QUOTA_BYTES r)
    (UPLOAD_USER_MONTHLY_BANDWIDTH_QUOTA_BYTES r) (UPLOAD_SCAN_MODE_webhook r)
    (UPLOAD_DOWNLOAD_MODE_redirect r) (UPLOAD_DOWNLOAD_URL_TTL_SECONDS r) (CLOUDINARY_CLOUD_NAME r)
    (CLOUDINARY_API_KEY r) (CLOUDINARY_API_SECRET r) (COOKIE_SECURE r) (COOKIE_SAME_SITE r)
    (TRUST_PROXY_HOPS r) (TRUST_PROXY_CIDRS r) (RATE_LIMIT_IP_PER_MINUTE r)
    (RATE_LIMIT_ALLOWLIST_CIDRS r) (EMAIL_EVENT_WEBHOOK_SECRET r) (SCHEDULER_STALE_AFTER_HOURS r)
    (GOOGLE_CLIENT_ID r) (APPLE_CLIENT_ID r).


(** What the program reads off a parsed URL; [url_rest] is its query and fragment. *)
Record Url := mkUrl { url_origin : string; url_href : string; url_pathname : string; url_rest : string }.

Class Platform := {
  (** [createHmac('sha256', key).update(data).digest('base64url')] *)
  hmacSha256 : string -> string -> string;
  (** [hkdfSync('sha256', master, salt, info, 32)] with the fixed salt of lib/crypto.ts *)
  hkdfSha256 : string -> string -> string -> string;
  (** [createHash('sha256').update(data)] in the digest encoding the caller asks for *)
  sha256 : string -> string;
  (** [createHash('sha1').update(data).digest(encoding)], for hexadecimal and base64url *)
  sha1Hex : string -> string;
  sha1Base64url : string -> string;
  (** [argon2.hash] and [argon2.verify]; the second argument of the hash is its random salt *)
  argon2_hash : string -> string -> string;
  argon2_verify : string -> string -> bool;
  (** AES-256-GCM: sealing with an initialisation vector gives a tag and a ciphertext *)
  aes256gcm_seal : string -> string -> string -> string * string;
  aes256gcm_open : string -> string -> string -> string -> option string;
  (** [SignJWT(..).sign(secret)] on a claims object, and [jwtVerify] at an instant (ms) *)
  jwtSign : string -> Json -> string;
  jwtVerify : string -> Z -> string -> option Json;
  (** [jwtVerify] of an identity token against the issuer's published keys, for the accepted
      issuers and the audience, at an instant (ms) *)
  jwtVerifyRemote : list string -> string -> Z -> string -> option Json;
  (** [new URL(text)] and [new URL(path, base)]; [None] is a [TypeError] *)
  parseUrl : string -> option Url;
  resolveUrl : string -> string -> option Url;
  (** identifiers drawn so far are counted by [drawn] *)
  uuid : nat -> string;
  env : Config
}.

Section Crypto.
Context `{Platform}.

(** A fresh identifier. *)
Definition newId : Tx World string := fun w => Ok (uuid (drawn w), w <| drawn ::= S |>).

(** A read whose filter follows relations to other tables. *)
Definition tx_world : Tx World World := fun w => Ok (w, w).

Lemma pres_tx_world (I : World -> Prop) : tx_pres I tx_world.
Proof. by intros w a w' Hw [= _ <-]. Qed.

(** A request to a provider: recorded, whatever the answer. The provider answers what it likes, and
    may answer the same request differently the next time. *)
Definition provider {A} (call : Call) (answer : nat -> res A) : Proc World A := fun w =>
  (answer (length (calls w)), w <| calls ::= fun l => (l ++ [call])%list |>).

Lemma pres_provider {A} (I : World -> Prop) call (answer : nat -> res A) :
  (forall w, I w -> I (w <| calls ::= fun l => (l ++ [call])%list |>)) -> proc_pres I (provider call answer).
Proof. intros Hc w Hw. exact (Hc w Hw). Qed.

(** ** lib/crypto.ts *)

Definition cryptoKeyring : list (string * string) :=
  match CRYPTO_KEYRING env with
  | [] => [(CRYPTO_ACTIVE_KEY_ID env, TOKEN_HASH_SECRET env)]
  | ring => ring
  end.

Definition activeKeyId : string := CRYPTO_ACTIVE_KEY_ID env.
Definition keyDerivationSalt : string := "backend-foundation:crypto:v1".

Definition derivedKey (keyId purpose : string) : res string :=
  match assoc keyId cryptoKeyring with
  | Some master =>
      if master === EmptyString then Err (Failure ("Unknown cryptographic key id: " ++ keyId))
      else Ok (hkdfSha256 master keyDerivationSalt purpose)
  | None => Err (Failure ("Unknown cryptographic key id: " ++ keyId))
  end.

Definition versionedHmac (keyId purpose value : string) : res string :=
  match derivedKey keyId purpose with
  | Ok key => Ok ("v1." ++ keyId ++ "." ++ hmacSha256 key value)
  | Err e => Err e
  end.

Definition hashOpaqueToken (token : string) : res string :=
  versionedHmac activeKeyId "opaque-token" token.

(** [keys.map(hash)]: an exception of one hash is the exception of the map. *)
Fixpoint mapHashes (f : string -> res string) (keys : list string) : res (list string) :=
  match keys with
  | [] => Ok []
  | k :: ks =>
      match f k with
      | Err e => Err e
      | Ok h => match mapHashes f ks with Ok hs => Ok (h :: hs) | Err e => Err e end
      end
  end.

Definition candidateOpaqueTokenHashes (token : string) : res (list string) :=
  match mapHashes (fun keyId => versionedHmac keyId "opaque-token" token) (List.map fst cryptoKeyring) with
  | Ok hs => Ok (hs ++ [hmacSha256 (TOKEN_HASH_SECRET env) token])%list
  | Err e => Err e
  end.

Definition hashMetadata (value : string) : res string := versionedHmac activeKeyId "metadata" value.

Definition candidateMetadataHashes (value : string) : res (list string) :=
  match mapHashes (fun keyId => versionedHmac keyId "metadata" value) (List.map fst cryptoKeyring) with
  | Ok hs => Ok (hs ++ [hmacSha256 (TOKEN_HASH_SECRET env) value])%list
  | Err e => Err e
  end.

(** The initialisation vector is random: an argument here. *)
Definition encryptSecret (iv value : string) : res string :=
  match derivedKey activeKeyId "encryption" with
  | Err e => Err e
  | Ok key =>
      let '(tag, ciphertext) := aes256gcm_seal key iv value in
      Ok (join "." ["v1"; activeKeyId; iv; tag; ciphertext])
  end.

Definition decryptSecret (value : string) : res string :=
  let opened key iv tag ciphertext :=
    match aes256gcm_open key iv tag ciphertext with
    | Some plain => Ok plain
    | None => Err (Failure "Unsupported state or unable to authenticate data")
    end in
  match split "." value with
  | [v; keyId; iv; tag; ciphertext] =>
      if v === "v1" then
        match derivedKey keyId "encryption" with
        | Ok key => opened key iv tag ciphertext
        | Err e => Err e
        end
      else Err (Failure "Invalid encrypted payload")
  | [iv; tag; ciphertext] => opened (sha256 (TOKEN_HASH_SECRET env)) iv tag ciphertext
  | _ => Err (Failure "Invalid encrypted payload")
  end.

Definition hashSecret (salt value : string) : string := argon2_hash value salt.
Definition verifySecret (hash candidate : string) : bool := argon2_verify hash candidate.

(** The random 32-bit word of [randomOtp] is its argument. *)
Definition randomOtp (word : Z) : string := padStart 6 "0" (show (word mod 1000000)%Z).

Definition constantTimeEqual (left right : string) : bool :=
  if (String.length left =? String.length right)%nat then left === right else false.

Definition normalizeEmail (email : string) : string := toLowerCase (trim email).

Definition normalizePhone (phone : string) : string :=
  str_filter (fun c => negb (isSpace c || (c === "("%char) || (c === ")"%char) || (c === "-"%char))) phone.

(** ** What env.ts guarantees of the keyring, and what follows *)

(** env.ts: secrets have at least 32 characters, and a non-empty keyring holds the active key. *)
Definition keyringValid : Prop :=
  (CRYPTO_KEYRING env = [] /\ TOKEN_HASH_SECRET env <> EmptyString) \/
  (Forall (fun kv => snd kv <> EmptyString) (CRYPTO_KEYRING env) /\
   is_Some (assoc (CRYPTO_ACTIVE_KEY_ID env) (CRYPTO_KEYRING env))).

Lemma assoc_In {A} k (l : list (string * A)) v : assoc k l = Some v -> In (k, v) l.
Proof.
  induction l as [|[k' v'] l IH]; cbn; [done|]. case_bool_decide; intros; simplify_eq; auto.
Qed.

Lemma assoc_is_Some {A} k (l : list (string * A)) : In k (List.map fst l) -> is_Some (assoc k l).
Proof.
  induction l as [|[k' v'] l IH]; cbn; [done|]. case_bool_decide; [eauto|].
  intros [->|Hin]; [done|auto].
Qed.

Lemma keyring_secret keyId : keyringValid -> In keyId (List.map fst cryptoKeyring) ->
  exists master, assoc keyId cryptoKeyring = Some master /\ master <> EmptyString.
Proof.
  intros Hv Hin. destruct (assoc_is_Some _ _ Hin) as [m Hm]. exists m. split; [done|].
  apply assoc_In in Hm. unfold cryptoKeyring in Hm, Hin. destruct Hv as [[He Hne]|[Hall Hact]].
  - rewrite He in Hm. destruct Hm as [Hm|[]]. by simplify_eq.
  - destruct (CRYPTO_KEYRING env) as [|e ring] eqn:E; [by destruct Hact|].
    rewrite List.Forall_forall in Hall. exact (Hall _ Hm).
Qed.

Lemma activeKey_In : keyringValid -> In activeKeyId (List.map fst cryptoKeyring).
Proof.
  unfold activeKeyId, cryptoKeyring. intros [[-> _]|[_ [m Hm]]]; [by left|].
  apply assoc_In in Hm. destruct (CRYPTO_KEYRING env); [done|]. apply List.in_map_iff. by exists (CRYPTO_ACTIVE_KEY_ID env, m).
Qed.

Lemma versionedHmac_total keyId p v : keyringValid -> In keyId (List.map fst cryptoKeyring) ->
  exists h, versionedHmac keyId p v = Ok h.
Proof.
  intros Hv Hin. destruct (keyring_secret _ Hv Hin) as (m & Hm & Hne).
  unfold versionedHmac, derivedKey. rewrite Hm, bool_decide_false by done. eauto.
Qed.

Lemma mapHashes_In f keys hs : mapHashes f keys = Ok hs ->
  forall k, In k keys -> exists h, f k = Ok h /\ In h hs.
Proof.
  revert hs. induction keys as [|k keys IH]; cbn; intros hs Hm k0 Hin; [done|].
  destruct (f k) as [h|] eqn:Ef; [|done]. destruct (mapHashes f keys) as [hs'|]; [|done].
  simplify_eq. destruct Hin as [<-|Hin]; [exists h; split; [done|by left]|].
  destruct (IH _ eq_refl _ Hin) as (h' & ? & ?). exists h'. split; [done|by right].
Qed.

Lemma mapHashes_total f keys : (forall k, In k keys -> exists h, f k = Ok h) ->
  exists hs, mapHashes f keys = Ok hs.
Proof.
  induction keys as [|k keys IH]; intros Hk; cbn; [eauto|].
  destruct (Hk k) as [h ->]; [by left|]. destruct IH as [hs ->]; [|eauto].
  intros; apply Hk; by right.
Qed.

Lemma hashOpaqueToken_total token : keyringValid -> exists h, hashOpaqueToken token = Ok h.
Proof. intros Hv. apply versionedHmac_total; [done|by apply activeKey_In]. Qed.

Lemma hashMetadata_total v : keyringValid -> exists h, hashMetadata v = Ok h.
Proof. intros Hv. apply versionedHmac_total; [done|by apply activeKey_In]. Qed.

Lemma candidateOpaqueTokenHashes_total token : keyringValid ->
  exists hs, candidateOpaqueTokenHashes token = Ok hs.
Proof.
  intros Hv. unfold candidateOpaqueTokenHashes.
  destruct (mapHashes_total (fun k => versionedHmac k "opaque-token" token) (List.map fst cryptoKeyring))
    as [hs ->]; [|eauto]. intros k Hk. by apply versionedHmac_total.
Qed.
Lemma candidateMetadataHashes_total token : keyringValid ->
  exists hs, candidateMetadataHashes token = Ok hs.
Proof.
  intros Hv. unfold candidateMetadataHashes.
  destruct (mapHashes_total (fun k => versionedHmac k "metadata" token) (List.map fst cryptoKeyring))
    as [hs ->]; [|eauto]. intros k Hk. by apply versionedHmac_total.
Qed.

(** AES-256-GCM opens what it sealed, and its parts are encoded in base64url, which has no dot. *)
Record aeadLaws : Prop := {
  open_seal : forall key iv plain, let sealed := aes256gcm_seal key iv plain in
    aes256gcm_open key iv (fst sealed) (snd sealed) = Some plain;
  sealed_text : forall key iv plain, let sealed := aes256gcm_seal key iv plain in
    noChar "." (fst sealed) = true /\ noChar "." (snd sealed) = true
}.

Lemma split_sep c a s : noChar c a = true -> split c (a ++ String c s) = a :: split c s.
Proof.
  unfold noChar. induction a as [|d a IH]; intros Ha.
  - change (split c (String c s) = EmptyString :: split c s). cbn [split]. by rewrite bd_refl.
  - apply andb_true_iff in Ha as [Hd Ha]. apply negb_true_iff in Hd.
    change (split c (String d (a ++ String c s)) = String d a :: split c s). cbn [split].
    by rewrite Hd, IH.
Qed.
Lemma split_last c a : noChar c a = true -> split c a = [a].
Proof.
  unfold noChar. induction a as [|d a IH]; intros Ha; [done|].
  apply andb_true_iff in Ha as [Hd Ha]. apply negb_true_iff in Hd.
  cbn [split]. by rewrite Hd, IH.
Qed.

(** What was encrypted under the active key is decrypted, whichever initialisation vector was drawn. *)
Lemma decrypt_encrypt iv plain : aeadLaws -> keyringValid ->
  noChar "." activeKeyId = true -> noChar "." iv = true ->
  exists text, encryptSecret iv plain = Ok text /\ decryptSecret text = Ok plain.
Proof.
  intros Hl Hv Hid Hiv. destruct (keyring_secret activeKeyId Hv (activeKey_In Hv)) as (m & Hm & Hne).
  assert (Hk : derivedKey activeKeyId "encryption" = Ok (hkdfSha256 m keyDerivationSalt "encryption")).
  { unfold derivedKey. by rewrite Hm, bool_decide_false by done. }
  set (key := hkdfSha256 m keyDerivationSalt "encryption") in *.
  pose proof (open_seal Hl key iv plain) as Hopen. pose proof (sealed_text Hl key iv plain) as [Ht Hc].
  unfold encryptSecret, decryptSecret. rewrite Hk.
  destruct (aes256gcm_seal key iv plain) as [tag ciphertext]. cbn [fst snd] in *.
  eexists. split; [reflexivity|]. cbn [join].
  assert (Hdot : forall x, "." ++ x = String "." x) by done. rewrite !Hdot.
  rewrite !split_sep by done. rewrite split_last by done. rewrite bd_refl, Hk. by rewrite Hopen.
Qed.
End Crypto.

#[export] Hint Resolve pres_tx_world : pres.

(** ** A concrete platform, on which the witnesses run *)

Definition demoConfig : Config := {|
  APP_ORIGIN := "http://localhost:3000"; TENANCY_MODE := Tenancy_multi;
  BILLING_OWNER := Billing_user; TOKEN_HASH_SECRET := "token-secret";
  COOKIE_SECRET := "cookie-secret"; AUDIT_INTEGRITY_SECRET := "";
  CRYPTO_ACTIVE_KEY_ID := "k2"; CRYPTO_KEYRING := [("k1", "old-master"); ("k2", "new-master")];
  JWT_ACCESS_SECRET := "jwt-secret"; ACCESS_TOKEN_TTL_MINUTES := 15;
  REFRESH_TOKEN_TTL_DAYS := 30; PASSWORD_RESET_TOKEN_TTL_MINUTES := 10; CHAT_ENABLED := true;
  CHAT_MAX_ROOMS := 100; EMAIL_FROM := "no-reply@example.com"; EMAIL_UNSUBSCRIBE_URL := "";
  BILLING_ENABLED := true; STRIPE_WEBHOOK_SECRET := "whsec"; STRIPE_PRICE_CATALOG := [("pro", "price_1")];
  STRIPE_DEFAULT_PRICE_KEY := "pro"; DYNAMIC_PRICING_ENABLED := true;
  CHARGE_MIN_AMOUNT_BY_CURRENCY := [("usd", 50%Z)];
  CHARGE_MAX_AMOUNT_BY_CURRENCY := [("usd", 100000%Z)]; CHARGE_ALLOWED_CURRENCIES := ["usd"];
  REFUND_SELF_SERVICE_ENABLED := true; REFUND_WINDOW_DAYS := 30;
  REFUND_MAX_AMOUNT_BY_CURRENCY := [("usd", 5000%Z)]; RATE_LIMIT_FALLBACK_MAX_KEYS := 3;
  DATA_RETENTION_DAYS := 30; AUDIT_RETENTION_DAYS := 365; RETENTION_BATCH_SIZE := 2;
  UPLOAD_PROVIDER := UploadSetting_s3; UPLOAD_MAX_BYTES := 10485760;
  UPLOAD_ALLOWED_MIME_TYPES := ["image/jpeg"; "image/png"; "image/webp"; "application/pdf"];
  UPLOAD_URL_TTL_SECONDS := 600; UPLOAD_USER_STORAGE_QUOTA_BYTES := 1073741824;
  UPLOAD_USER_MONTHLY_BANDWIDTH_QUOTA_BYTES := 5368709120; UPLOAD_SCAN_MODE_webhook := true;
  UPLOAD_DOWNLOAD_MODE_redirect := false; UPLOAD_DOWNLOAD_URL_TTL_SECONDS := 60;
  CLOUDINARY_CLOUD_NAME := ""; CLOUDINARY_API_KEY := ""; CLOUDINARY_API_SECRET := "";
  COOKIE_SECURE := false; COOKIE_SAME_SITE := "lax"; TRUST_PROXY_HOPS := 0; TRUST_PROXY_CIDRS := [];
  RATE_LIMIT_IP_PER_MINUTE := 600; RATE_LIMIT_ALLOWLIST_CIDRS := ["10.0.0.0/8"];
  EMAIL_EVENT_WEBHOOK_SECRET := "email-secret"; SCHEDULER_STALE_AFTER_HOURS := 36; GOOGLE_CLIENT_ID := Some "google-client";
  APPLE_CLIENT_ID := None
|}.

Fixpoint hexEncode (s : string) : string :=
  match s with
  | EmptyString => EmptyString
  | String c s' => hexDigit (code_of c / 16) ++ hexDigit (code_of c mod 16) ++ hexEncode s'
  end.
Fixpoint hexDecode (s : string) : option string :=
  match s with
  | String a (String b s') =>
      match hexValue a, hexValue b, hexDecode s' with
      | Some h, Some l, Some t => Some (String (chr (16 * h + l)) t)
      | _, _, _ => None
      end
  | String _ EmptyString => None
  | EmptyString => Some EmptyString
  end.

Definition demoPlatform : Platform := {|
  hmacSha256 key data := key ++ "#" ++ data;
  hkdfSha256 master salt info := master ++ "/" ++ info;
  sha256 data := "sha:" ++ data;
  sha1Hex data := "sha1:" ++ data;
  sha1Base64url data := "sha1:" ++ data;
  argon2_hash value salt := "argon:" ++ value;
  argon2_verify hash candidate := hash === ("argon:" ++ candidate);
  aes256gcm_seal key iv plain := ("tag", hexEncode plain);
  aes256gcm_open key iv tag ciphertext := if tag === "tag" then hexDecode ciphertext else None;
  jwtSign key claims := key ++ "|" ++ jsonStringify claims;
  jwtVerify key t token :=
    if String.prefix (key ++ "|") token
    then Some (JObj [("sub", JStr "u1"); ("sid", JStr "s1")]) else None;
  jwtVerifyRemote issuers audience t token :=
    if token === "id-token" then
      Some (JObj [("sub", JStr "g1"); ("email", JStr "A@example.com"); ("email_verified", JBool true)])
    else None;
  parseUrl text := match split "/" text with
                   | scheme :: EmptyString :: host :: _ => Some (mkUrl (join "/" [scheme; EmptyString; host]) text "/" "")
                   | _ => None
                   end;
  resolveUrl path base := Some (mkUrl base (base ++ path) path "");
  uuid n := "id-" ++ show (Z.of_nat n);
  env := demoConfig
|}.

Lemma demo_keyringValid : @keyringValid demoPlatform.
Proof. right. split; [repeat constructor; discriminate|by eexists]. Qed.

Lemma hexDecode_encode s : hexDecode (hexEncode s) = Some s.
Proof.
  induction s as [|c s IH]; [done|]. pose (k := fun o => match o with
    | Some t => Some (String c t) | None => @None string end).
  transitivity (k (hexDecode (hexEncode s))); [|by rewrite IH]. unfold k.
  by destruct c as [[] [] [] [] [] [] [] []].
Qed.

Lemma hexEncode_no_dot s : noChar "." (hexEncode s) = true.
Proof.
  induction s as [|c s IH]; [done|]. transitivity (noChar "." (hexEncode s)); [|done].
  by destruct c as [[] [] [] [] [] [] [] []].
Qed.

Lemma demo_aeadLaws : @aeadLaws demoPlatform.
Proof.
  split; intros key iv plain; cbn; [apply hexDecode_encode|]. split; [done|apply hexEncode_no_dot].
Qed.
