(* ===== verification/Request.v ===== *)
(** * The request: ambient context and metadata

    lib/request-context.ts and lib/request-metadata.ts. The context lives in async storage in the
    program; here it is part of the [Ambient] value every handler receives, together with the
    instant [Date.now()] and [new Date()] return during the handler. *)

From Stdlib Require Import ZArith Bool.
From S2P Require Import Prelude JsString.

Open Scope string_scope.

Inductive RequestContext :=
  | Request (requestId : string) (userId organizationId : option string)
  | Unscoped (reason : string).

(** [reqContext] is [getRequestContext()], [nowMs] is [Date.now()]. *)
Record Ambient := mkAmbient { nowMs : Z; reqContext : option RequestContext }.
#[export] Instance Ambient_eta : Eta Ambient := fun r => mkAmbient (nowMs r) (reqContext r).

(** [runWithRequestContext] *)
Definition runWithRequestContext {A} (c : RequestContext) (callback : Ambient -> A) (amb : Ambient) : A :=
  callback (amb <| reqContext := Some c |>).

Definition withoutTenantScope {A} (reason : string) (callback : Ambient -> A) (amb : Ambient) : A :=
  runWithRequestContext (Unscoped reason) callback amb.

(** [setRequestIdentity]: [None] is an argument left out. *)
Definition setRequestIdentity (userId organizationId : option string) (amb : Ambient) : Ambient :=
  match reqContext amb with
  | Some (Request rid u o) =>
      amb <| reqContext := Some (Request rid
               (match userId with Some _ => userId | None => u end)
               (match organizationId with Some _ => organizationId | None => o end)) |>
  | _ => amb
  end.

(** [resolveRequestId] on [request.id]. *)
Definition resolveRequestId (value : option Json) : string :=
  match value with
  | Some (JStr s) => s
  | Some (JNum n) => show n
  | _ => "unknown"
  end.

(** The [requestContext] middleware. *)
Definition requestContext {A} (request_id : option Json) (next : Ambient -> A) (amb : Ambient) : A :=
  runWithRequestContext (Request (resolveRequestId request_id) None None) next amb.

(** ** lib/request-metadata.ts *)

Record RequestMetadata := mkMetadata {
  meta_ip : string; meta_userAgent : option string; meta_requestId : string
}.

Record HttpRequest := mkHttpRequest {
  http_id : option Json; http_ip : option string; http_remoteAddress : option string;
  http_userAgent : option string
}.

Definition requestMetadata (request : HttpRequest) : RequestMetadata := {|
  meta_ip := match http_ip request with
        | Some a => a
        | None => http_remoteAddress request ??? "unknown"
        end;
  meta_userAgent := http_userAgent request;
  meta_requestId := resolveRequestId (http_id request)
|}.

(** The organization a row written now is attributed to, whatever the scope of the query. *)
Definition ambientOrganization (amb : Ambient) : option string :=
  match reqContext amb with Some (Request _ _ o) => o | _ => None end.
