(* ===== verification/TenantScope.v ===== *)
(** * Tenant scoping

    lib/tenant-scope.ts: the Prisma extension that narrows every query on a tenant-owned model to
    the organization of the request, on the arguments objects the extension rewrites; then the
    statements of the store under that extension, for the services that use tenant-owned models. *)

From Stdlib Require Import ZArith Lia Bool.
From S2P Require Import Prelude Store Database JsString JsonText Platform Request.

Open Scope string_scope.


Definition tenantScopeExemptModels : list string := ["Membership"; "Invitation"; "Role"].

Definition nullableGlobalOwnerModels : list string :=
  ["NotificationPreference"; "PaymentMethod"; "StripePayment"; "StripeRefundOperation";
   "StripeSubscription"].

(** The models of prisma/schema.prisma with an [organizationId] column. *)
Definition modelsWithOrganizationId : list string :=
  ["Membership"; "Invitation"; "Role"; "NotificationPreference"; "NotificationDelivery";
   "AuditEvent"; "StripeSubscription"; "StripePayment"; "Conversation";
   "ConversationParticipant"; "Message"; "PaymentMethod"; "ChargeableItem";
   "StripeRefundOperation"; "Upload"; "UploadBandwidthUsage"].

Definition tenantScopedModels : list string :=
  List.filter (fun m => negb (mem m tenantScopeExemptModels)) modelsWithOrganizationId.

Definition filterOperations : list string :=
  ["findUnique"; "findUniqueOrThrow"; "findFirst"; "findFirstOrThrow"; "findMany"; "count";
   "aggregate"; "groupBy"; "update"; "updateMany"; "delete"; "deleteMany"].

Definition createOperations : list string := ["create"; "createMany"; "createManyAndReturn"].

Definition TenantScopeError {A} (message : string) : res A := Err (Failure message).

(** An object: not an array, not null. *)
Definition asRecord (value : option Json) : option (list (string * Json)) :=
  match value with Some (JObj fields) => Some fields | _ => None end.

Definition assertAgrees (existing : option Json) (organizationId location : string) : res unit :=
  match existing with
  | None | Some JNull => Ok tt
  | Some (JStr o) =>
      if o === organizationId then Ok tt
      else TenantScopeError (location ++ " targets organization " ++ o
                             ++ " while the request resolved " ++ organizationId)
  | Some _ =>
      TenantScopeError (location ++ " sets organizationId to a non-literal filter, which cannot be proven single-tenant")
  end.

Definition isNull (v : option Json) : bool := match v with Some JNull => true | _ => false end.

Definition scopeWhere (model : string) (args : list (string * Json)) (organizationId location : string)
    : res (list (string * Json)) :=
  let where_ := asRecord (assoc "where" args) ??? [] in
  if isNull (assoc "organizationId" where_) && mem model nullableGlobalOwnerModels then
    Ok (setKey "where" (JObj where_) args)
  else
    match assertAgrees (assoc "organizationId" where_) organizationId location with
    | Err e => Err e
    | Ok _ => Ok (setKey "where" (JObj (setKey "organizationId" (JStr organizationId) where_)) args)
    end.

(** One row of [data]: the row as the loop leaves it. *)
Definition scopeRow (model organizationId location : string) (row : Json) : res Json :=
  match asRecord (Some row) with
  | None => Ok row
  | Some record =>
      if is_set (assoc "organization" record) then
        TenantScopeError (location ++ " connects the organization relation; set the scalar organizationId instead")
      else if isNull (assoc "organizationId" record) && mem model nullableGlobalOwnerModels then Ok row
      else
        match assertAgrees (assoc "organizationId" record) organizationId location with
        | Err e => Err e
        | Ok _ => Ok (JObj (setKey "organizationId" (JStr organizationId) record))
        end
  end.

Fixpoint scopeRows (model organizationId location : string) (rows : list Json) : res (list Json) :=
  match rows with
  | [] => Ok []
  | row :: rest =>
      match scopeRow model organizationId location row with
      | Err e => Err e
      | Ok row' =>
          match scopeRows model organizationId location rest with
          | Err e => Err e
          | Ok rest' => Ok (row' :: rest')
          end
      end
  end.

(** [data] as the mutation leaves it; a missing [data] stays missing. *)
Definition scopeCreateData (model : string) (data : option Json) (organizationId location : string)
    : res (option Json) :=
  match data with
  | None => Ok None
  | Some (JArr rows) =>
      match scopeRows model organizationId location rows with
      | Ok rows' => Ok (Some (JArr rows'))
      | Err e => Err e
      end
  | Some row =>
      match scopeRow model organizationId location row with
      | Ok row' => Ok (Some row')
      | Err e => Err e
      end
  end.

Definition setOptKey (k : string) (v : option Json) (fields : list (string * Json)) : list (string * Json) :=
  match v with Some v => setKey k v fields | None => fields end.

Definition applyTenantScope (model operation : string) (args : option Json) (organizationId : string)
    : res Json :=
  let location := model ++ "." ++ operation in
  let record := asRecord args ??? [] in
  if operation === "upsert" then
    match scopeWhere model record organizationId location with
    | Err e => Err e
    | Ok record1 =>
        match scopeCreateData model (assoc "create" record1) organizationId location with
        | Err e => Err e
        | Ok create => Ok (JObj (setOptKey "create" create record1))
        end
    end
  else if mem operation filterOperations then
    match scopeWhere model record organizationId location with
    | Err e => Err e
    | Ok record1 => Ok (JObj record1)
    end
  else if mem operation createOperations then
    match scopeCreateData model (assoc "data" record) organizationId location with
    | Err e => Err e
    | Ok data => Ok (JObj (setOptKey "data" data record))
    end
  else
    TenantScopeError (location ++ " is not a tenant-scopable operation; wrap it in withoutTenantScope() if it is trusted").

Definition globalRow (row : option Json) : bool :=
  isNull (assoc "organizationId" (asRecord row ??? [])).

(** The query names the explicit user-global owner, [organizationId: null]. *)
Definition explicitlyGlobal (model operation : string) (args : option Json) : bool :=
  let record := asRecord args ??? [] in
  mem model nullableGlobalOwnerModels &&
  ((mem operation filterOperations && globalRow (assoc "where" record))
   || (mem operation createOperations &&
       match assoc "data" record with
       | Some (JArr rows) => forallb (fun row => globalRow (Some row)) rows
       | data => globalRow data
       end)
   || ((operation === "upsert") && globalRow (assoc "where" record) && globalRow (assoc "create" record))).

Definition resolveScopeOrganization (ctx : option RequestContext) (model operation : string)
    (args : option Json) : res (option string) :=
  if negb (mem model tenantScopedModels) then Ok None
  else
    match ctx with
    | Some (Unscoped _) => Ok None
    | None =>
        TenantScopeError (model ++ "." ++ operation
          ++ " ran outside a request context; wrap trusted background work in withoutTenantScope()")
    | Some (Request _ _ organizationId) =>
        if truthy organizationId then Ok organizationId
        else if explicitlyGlobal model operation args then Ok None
        else
          TenantScopeError (model ++ "." ++ operation
            ++ " ran before an organization was resolved for the request")
    end.

(** [tenantScopeExtension]: the arguments the database receives. *)
Definition tenantScopeExtension (ctx : option RequestContext) (model operation : string)
    (args : option Json) : res (option Json) :=
  match resolveScopeOrganization ctx model operation args with
  | Err e => Err e
  | Ok None => Ok args
  | Ok (Some organizationId) =>
      match applyTenantScope model operation args organizationId with
      | Ok args' => Ok (Some args')
      | Err e => Err e
      end
  end.

(** ** The store under the extension

    A tenant-owned model: the name the extension knows it by, its [organizationId] column, and the
    column being written. *)
Class TenantModel (R : Type) := {
  modelName : string;
  organizationIdOf : R -> option string;
  stampOrganization : option string -> R -> R;
}.

#[export] Instance NotificationPreference_tenant : TenantModel NotificationPreference :=
  {| modelName := "NotificationPreference"; organizationIdOf := pref_organizationId;
     stampOrganization o r := r <| pref_organizationId := o |> |}.
#[export] Instance NotificationDelivery_tenant : TenantModel NotificationDelivery :=
  {| modelName := "NotificationDelivery"; organizationIdOf := del_organizationId;
     stampOrganization o r := r <| del_organizationId := o |> |}.
#[export] Instance AuditEvent_tenant : TenantModel AuditEvent :=
  {| modelName := "AuditEvent"; organizationIdOf := aud_organizationId;
     stampOrganization o r := r <| aud_organizationId := o |> |}.
#[export] Instance StripeSubscription_tenant : TenantModel StripeSubscription :=
  {| modelName := "StripeSubscription"; organizationIdOf := sub_organizationId;
     stampOrganization o r := r <| sub_organizationId := o |> |}.
#[export] Instance StripePayment_tenant : TenantModel StripePayment :=
  {| modelName := "StripePayment"; organizationIdOf := pay_organizationId;
     stampOrganization o r := r <| pay_organizationId := o |> |}.
#[export] Instance PaymentMethod_tenant : TenantModel PaymentMethod :=
  {| modelName := "PaymentMethod"; organizationIdOf := pm_organizationId;
     stampOrganization o r := r <| pm_organizationId := o |> |}.
#[export] Instance ChargeableItem_tenant : TenantModel ChargeableItem :=
  {| modelName := "ChargeableItem"; organizationIdOf := item_organizationId;
     stampOrganization o r := r <| item_organizationId := o |> |}.
#[export] Instance StripeRefundOperation_tenant : TenantModel StripeRefundOperation :=
  {| modelName := "StripeRefundOperation"; organizationIdOf := rop_organizationId;
     stampOrganization o r := r <| rop_organizationId := o |> |}.
#[export] Instance Conversation_tenant : TenantModel Conversation :=
  {| modelName := "Conversation"; organizationIdOf := conv_organizationId;
     stampOrganization o r := r <| conv_organizationId := o |> |}.
#[export] Instance ConversationParticipant_tenant : TenantModel ConversationParticipant :=
  {| modelName := "ConversationParticipant"; organizationIdOf := part_organizationId;
     stampOrganization o r := r <| part_organizationId := o |> |}.
#[export] Instance Message_tenant : TenantModel Message :=
  {| modelName := "Message"; organizationIdOf := msg_organizationId;
     stampOrganization o r := r <| msg_organizationId := o |> |}.
#[export] Instance Upload_tenant : TenantModel Upload :=
  {| modelName := "Upload"; organizationIdOf := up_organizationId;
     stampOrganization o r := r <| up_organizationId := o |> |}.
#[export] Instance UploadBandwidthUsage_tenant : TenantModel UploadBandwidthUsage :=
  {| modelName := "UploadBandwidthUsage"; organizationIdOf := bw_organizationId;
     stampOrganization o r := r <| bw_organizationId := o |> |}.

(** The [organizationId] entry a query or a row is written with: left out, null or a string. *)
Definition Owner := option (option string).
Definition ownerEntry (o : Owner) : list (string * Json) :=
  match o with
  | None => []
  | Some None => [("organizationId", JNull)]
  | Some (Some s) => [("organizationId", JStr s)]
  end.

(** The literal equality filter [organizationId: v]. *)
Definition ownerMatches (v : option Json) (row : option string) : bool :=
  match v with
  | None => true
  | Some JNull => row === None
  | Some (JStr s) => row === Some s
  | Some _ => false
  end.

(** The value [organizationId: v] stores. *)
Definition ownerValue (v : option Json) : option string :=
  match v with Some (JStr s) => Some s | _ => None end.

Section Scoped.
Context `{Platform}.
Context {R : Type} `{M : Model World R} `{T : TenantModel R}.
Implicit Types (P : R -> bool) (f : R -> R) (amb : Ambient).

(** lib/prisma.ts, [createPrismaClient]: the extension is installed unless tenancy is off. *)
Definition extended (amb : Ambient) (operation : string) (args : Json) : res (option Json) :=
  if TENANCY_MODE env === Tenancy_disabled then Ok (Some args)
  else tenantScopeExtension (reqContext amb) modelName operation (Some args).

(** The rows a filter operation reaches. *)
Definition scopeFilter amb (operation : string) (o : Owner) : res (R -> bool) :=
  match extended amb operation (JObj [("where", JObj (ownerEntry o))]) with
  | Err e => Err e
  | Ok args =>
      let v := assoc "organizationId" (asRecord (assoc "where" (asRecord args ??? [])) ??? []) in
      Ok (fun r => ownerMatches v (organizationIdOf r))
  end.

(** The owner a created row is stored with. *)
Definition scopeCreate amb (operation : string) (o : Owner) : res (option string) :=
  match extended amb operation (JObj [("data", JObj (ownerEntry o))]) with
  | Err e => Err e
  | Ok args =>
      Ok (ownerValue (assoc "organizationId" (asRecord (assoc "data" (asRecord args ??? [])) ??? [])))
  end.

Definition sc_findFirst amb o P : Tx World (option R) :=
  inScope ← tx_lift (scopeFilter amb "findFirst" o);
  tx_findFirst (fun r => inScope r && P r).
Definition sc_findMany amb o P : Tx World (list R) :=
  inScope ← tx_lift (scopeFilter amb "findMany" o);
  tx_findMany (fun r => inScope r && P r).
Definition sc_count amb o P : Tx World nat :=
  inScope ← tx_lift (scopeFilter amb "count" o);
  tx_count (fun r => inScope r && P r).
Definition sc_updateMany amb o P f : Tx World nat :=
  inScope ← tx_lift (scopeFilter amb "updateMany" o);
  tx_updateMany (fun r => inScope r && P r) f.
Definition sc_update amb o P f : Tx World R :=
  inScope ← tx_lift (scopeFilter amb "update" o);
  tx_update (fun r => inScope r && P r) f.
Definition sc_update_unique amb o P f : Tx World R :=
  inScope ← tx_lift (scopeFilter amb "update" o);
  tx_update_unique (fun r => inScope r && P r) f.
Definition sc_updateMany_unique amb o P f : Tx World nat :=
  inScope ← tx_lift (scopeFilter amb "updateMany" o);
  tx_updateMany_unique (fun r => inScope r && P r) f.
Definition sc_create amb o r : Tx World R :=
  owner ← tx_lift (scopeCreate amb "create" o);
  tx_create (stampOrganization owner r).

(** [upsert]: the where and the create data are both narrowed. *)
Definition scopeUpsert amb (o : Owner) (oc : Owner) : res ((R -> bool) * option string) :=
  match extended amb "upsert" (JObj [("where", JObj (ownerEntry o)); ("create", JObj (ownerEntry oc))]) with
  | Err e => Err e
  | Ok args =>
      let rec := asRecord args ??? [] in
      let v := assoc "organizationId" (asRecord (assoc "where" rec) ??? []) in
      let c := assoc "organizationId" (asRecord (assoc "create" rec) ??? []) in
      Ok (fun r => ownerMatches v (organizationIdOf r), ownerValue c)
  end.
Definition sc_upsert amb o oc P r f : Tx World R :=
  sc ← tx_lift (scopeUpsert amb o oc);
  tx_upsert (fun x => fst sc x && P x) (stampOrganization (snd sc) r) f.
Definition sc_upsert_unique amb o oc P r f : Tx World R :=
  sc ← tx_lift (scopeUpsert amb o oc);
  tx_upsert_unique (fun x => fst sc x && P x) (stampOrganization (snd sc) r) f.
End Scoped.

(** ** Facts about the rewriting *)

Lemma assoc_setKey_eq k (v : Json) fields : assoc k (setKey k v fields) = Some v.
Proof.
  induction fields as [|[k' v'] rest IH]; cbn; [by rewrite bool_decide_true|].
  destruct (bool_decide_reflect (k = k')); cbn.
  - by rewrite bool_decide_true.
  - by rewrite bool_decide_false.
Qed.

Lemma assoc_setKey_ne k k' (v : Json) fields : k' <> k -> assoc k' (setKey k v fields) = assoc k' fields.
Proof.
  intros Hne. induction fields as [|[k0 v0] rest IH]; cbn; [by rewrite bool_decide_false|].
  destruct (bool_decide_reflect (k = k0)) as [->|]; cbn.
  - by rewrite !bool_decide_false.
  - by rewrite IH.
Qed.

Lemma mem_In s l : mem s l = true <-> In s l.
Proof.
  unfold mem. rewrite existsb_exists. split.
  - intros (x & Hx & ->%bool_decide_eq_true). done.
  - intros Hs. exists s. by rewrite bool_decide_eq_true.
Qed.

(** The where of the rewritten query: pinned to the organization, or the explicit global owner of
    an audited model; every other condition is the caller's. *)
Definition whereScoped (model organizationId : string) (args : list (string * Json)) (args' : list (string * Json)) : Prop :=
  let where_ := asRecord (assoc "where" args) ??? [] in
  exists where', assoc "where" args' = Some (JObj where')
    /\ (assoc "organizationId" where' = Some (JStr organizationId)
        \/ (assoc "organizationId" where' = Some JNull
            /\ assoc "organizationId" where_ = Some JNull /\ In model nullableGlobalOwnerModels))
    /\ (forall k, k <> "organizationId" -> assoc k where' = assoc k where_)
    /\ (forall k, k <> "where" -> assoc k args' = assoc k args).

Lemma isNull_true v : isNull v = true <-> v = Some JNull.
Proof. split; [|by intros ->]. by destruct v as [[]|]. Qed.

Lemma scopeWhere_ok model args org loc args' :
  scopeWhere model args org loc = Ok args' -> whereScoped model org args args'.
Proof.
  unfold scopeWhere, whereScoped. set (w := asRecord (assoc "where" args) ??? []).
  destruct (isNull _ && _) eqn:E.
  - apply andb_true_iff in E as [E1%isNull_true E2%mem_In]. intros [= <-].
    exists w. rewrite assoc_setKey_eq. repeat split; [by right|].
    intros. by apply assoc_setKey_ne.
  - destruct (assertAgrees _ _ _); [|done]. intros [= <-].
    eexists. rewrite assoc_setKey_eq. split; [done|]. rewrite assoc_setKey_eq.
    repeat split; [by left|..]; intros; by apply assoc_setKey_ne.
Qed.

(** A row as it is stored: stamped with the organization, or the explicit global owner. *)
Definition rowScoped (model organizationId : string) (row : Json) : Prop :=
  forall fields, row = JObj fields ->
    assoc "organizationId" fields = Some (JStr organizationId)
    \/ (assoc "organizationId" fields = Some JNull /\ In model nullableGlobalOwnerModels).

Lemma scopeRow_ok model org loc row row' :
  scopeRow model org loc row = Ok row' -> rowScoped model org row'.
Proof.
  unfold scopeRow, rowScoped. destruct (asRecord (Some row)) as [record|] eqn:Er.
  2: { intros [= <-] fields ->. done. }
  destruct (is_set _); [done|]. destruct (isNull _ && _) eqn:E.
  - apply andb_true_iff in E as [E1%isNull_true E2%mem_In]. intros [= <-] fields ->.
    injection Er as <-. by right.
  - destruct (assertAgrees _ _ _); [|done]. intros [= <-] fields [= <-].
    left. apply assoc_setKey_eq.
Qed.

Lemma scopeRows_ok model org loc rows rows' :
  scopeRows model org loc rows = Ok rows' -> Forall (rowScoped model org) rows'.
Proof.
  revert rows'. induction rows as [|row rest IH]; cbn; intros rows'; [intros [= <-]; constructor|].
  destruct (scopeRow _ _ _ row) eqn:E1; [|done]. destruct (scopeRows _ _ _ rest); [|done].
  intros [= <-]. constructor; [eapply scopeRow_ok; eauto|auto].
Qed.

Definition dataScoped (model organizationId : string) (data : option Json) : Prop :=
  match data with
  | None => True
  | Some (JArr rows) => Forall (rowScoped model organizationId) rows
  | Some row => rowScoped model organizationId row
  end.

Lemma scopeCreateData_ok model data org loc data' :
  scopeCreateData model data org loc = Ok data' -> dataScoped model org data'.
Proof.
  unfold scopeCreateData. destruct data as [[]|]; try (intros [= <-]; cbn; done).
  - destruct (scopeRows _ _ _ _) eqn:E; [|done]. intros [= <-]. eapply scopeRows_ok; eauto.
  - destruct (scopeRow _ _ _ _) as [r|] eqn:E; [|done]. intros [= <-].
    pose proof (scopeRow_ok _ _ _ _ _ E) as Hr. destruct r; cbn; try done.
    unfold scopeRow in E. cbn in E. repeat case_match; simplify_eq.
Qed.

Lemma assertAgrees_ok existing org loc :
  assertAgrees existing org loc = Ok tt ->
  existing = None \/ existing = Some JNull \/ existing = Some (JStr org).
Proof.
  destruct existing as [[]|]; cbn; auto; try done.
  destruct (bool_decide_reflect (s = org)); [subst; auto|done].
Qed.

(** ** Isolation *)

(** C7: in a request of organization [org], whatever arguments a service passes, a query on a
    tenant-owned model that the extension lets through is narrowed to [org]: a filter operation
    gets [where.organizationId = org] with every other condition and argument untouched, a create
    operation stores only rows stamped with [org], an upsert does both. The only exception is an
    explicit [organizationId: null] on a model of the audited user-global set. *)
Theorem tenantScope_isolates rid uid org model operation args args' :
  In model tenantScopedModels -> org <> EmptyString ->
  tenantScopeExtension (Some (Request rid uid (Some org))) model operation args = Ok args' ->
  exists fields', args' = Some (JObj fields') /\
    ((In operation filterOperations /\ whereScoped model org (asRecord args ??? []) fields')
     \/ (In operation createOperations /\ dataScoped model org (assoc "data" fields'))
     \/ (operation = "upsert" /\ dataScoped model org (assoc "create" fields')
         /\ exists mid, whereScoped model org (asRecord args ??? []) mid
                        /\ assoc "where" fields' = assoc "where" mid)).
Proof.
  intros Hm%mem_In Horg. unfold tenantScopeExtension, resolveScopeOrganization. rewrite Hm. cbn [negb truthy].
  rewrite bool_decide_false by done. cbn [negb]. unfold applyTenantScope.
  destruct (bool_decide_reflect (operation = "upsert")) as [->|Hop].
  - destruct (scopeWhere _ _ _ _) as [mid|] eqn:E1; [|done].
    destruct (scopeCreateData _ _ _ _) as [create|] eqn:E2; [|done].
    intros [= <-]. eexists. split; [done|]. right; right. split; [done|].
    pose proof (scopeCreateData_ok _ _ _ _ _ E2) as Hc. split.
    + destruct create; cbn; [by rewrite assoc_setKey_eq|].
      destruct (assoc "create" mid) as [[]|]; cbn in E2; repeat case_match; done.
    + exists mid. split; [eapply scopeWhere_ok; eauto|].
      destruct create; cbn; [by rewrite assoc_setKey_ne|done].
  - destruct (mem operation filterOperations) eqn:Ef.
    + destruct (scopeWhere _ _ _ _) as [mid|] eqn:E1; [|done]. intros [= <-].
      eexists. split; [done|]. left. split; [by apply mem_In|]. eapply scopeWhere_ok; eauto.
    + destruct (mem operation createOperations) eqn:Ec; [|done].
      destruct (scopeCreateData _ _ _ _) as [data|] eqn:E2; [|done]. intros [= <-].
      eexists. split; [done|]. right; left. split; [by apply mem_In|].
      pose proof (scopeCreateData_ok _ _ _ _ _ E2) as Hc.
      destruct data; cbn; [by rewrite assoc_setKey_eq|].
      destruct (assoc "data" _) as [[]|]; cbn in E2; repeat case_match; done.
Qed.

Lemma tenantScope_isolates_witness :
  exists args', tenantScopeExtension (Some (Request "r1" None (Some "org-a"))) "Message" "findMany"
    (Some (JObj [("where", JObj [("seq", JNum 3)]); ("take", JNum 5)])) = Ok args' /\
  exists fields', args' = Some (JObj fields') /\
    ((In "findMany" filterOperations
      /\ whereScoped "Message" "org-a" [("where", JObj [("seq", JNum 3)]); ("take", JNum 5)] fields')
     \/ (In "findMany" createOperations /\ dataScoped "Message" "org-a" (assoc "data" fields'))
     \/ ("findMany" = "upsert" /\ dataScoped "Message" "org-a" (assoc "create" fields')
         /\ exists mid, whereScoped "Message" "org-a" [("where", JObj [("seq", JNum 3)]); ("take", JNum 5)] mid
                        /\ assoc "where" fields' = assoc "where" mid)).
Proof.
  eexists. split; [reflexivity|].
  apply (tenantScope_isolates "r1" None "org-a" "Message" "findMany"
           (Some (JObj [("where", JObj [("seq", JNum 3)]); ("take", JNum 5)]))).
  - apply mem_In. reflexivity.
  - discriminate.
  - reflexivity.
Defined.

(** The scope of a query is never absent by accident. *)
Lemma resolveScope_none ctx model operation args :
  In model tenantScopedModels -> resolveScopeOrganization ctx model operation args = Ok None ->
  (exists reason, ctx = Some (Unscoped reason)) \/ explicitlyGlobal model operation args = true.
Proof.
  intros Hm%mem_In. unfold resolveScopeOrganization. rewrite Hm. cbn.
  destruct ctx as [[rid u o|reason]|]; [|eauto|done].
  destruct (truthy o) eqn:Et; [by intros [= ->]|].
  destruct (explicitlyGlobal _ _ _); [auto|done].
Qed.

(** Tenant scoping fails closed. A query on a tenant-owned model is refused when there is no
    request context, when the request has no organization and the query does not name the
    user-global owner, when the operation is not a scopable one, and when its filter names another
    organization or is not a literal; only an explicit unscoped section reaches every tenant. *)
Theorem tenantScope_fails_closed ctx model operation args args' :
  In model tenantScopedModels ->
  tenantScopeExtension ctx model operation args = Ok args' ->
  (exists reason, ctx = Some (Unscoped reason) /\ args' = args)
  \/ (explicitlyGlobal model operation args = true /\ In model nullableGlobalOwnerModels)
  \/ (exists rid uid org, ctx = Some (Request rid uid (Some org)) /\ org <> EmptyString
      /\ (operation = "upsert" \/ In operation filterOperations \/ In operation createOperations)
      /\ (operation = "upsert" \/ In operation filterOperations ->
          let named := assoc "organizationId" (asRecord (assoc "where" (asRecord args ??? [])) ??? []) in
          named = None \/ named = Some JNull \/ named = Some (JStr org))).
Proof.
  intros Hm. unfold tenantScopeExtension.
  destruct (resolveScopeOrganization ctx model operation args) as [[org|]|] eqn:Er; [..|done].
  2: { intros [= <-]. destruct (resolveScope_none _ _ _ _ Hm Er) as [[reason ->]|Hg]; [eauto|].
       right; left. split; [done|]. unfold explicitlyGlobal in Hg.
       apply andb_true_iff in Hg as [Hg _]. by apply mem_In. }
  intros Ha. right; right. apply mem_In in Hm.
  unfold resolveScopeOrganization in Er. rewrite Hm in Er. cbn in Er.
  destruct ctx as [[rid u o|reason]|]; [|done..]. destruct (truthy o) eqn:Et.
  2: { by destruct (explicitlyGlobal _ _ _). }
  injection Er as ->. exists rid, u, org. split; [done|]. split.
  { cbn in Et. intros ->. by rewrite bool_decide_true in Et. }
  assert (Hw : forall loc w, scopeWhere model (asRecord args ??? []) org loc = Ok w ->
    let named := assoc "organizationId" (asRecord (assoc "where" (asRecord args ??? [])) ??? []) in
    named = None \/ named = Some JNull \/ named = Some (JStr org)).
  { intros loc w. unfold scopeWhere. destruct (isNull _ && _) eqn:E.
    - apply andb_true_iff in E as [E1%isNull_true _]. rewrite E1. auto.
    - destruct (assertAgrees _ _ _) as [[]|] eqn:E2; [|done]. intros _. by apply assertAgrees_ok in E2. }
  unfold applyTenantScope in Ha. destruct (bool_decide_reflect (operation = "upsert")) as [->|Hop].
  - split; [auto|]. intros _. destruct (scopeWhere _ _ _ _) eqn:E; [|done]. eapply Hw; eauto.
  - destruct (mem operation filterOperations) eqn:Ef.
    + split; [right; left; by apply mem_In|]. intros _. destruct (scopeWhere _ _ _ _) eqn:E; [|done]. eapply Hw; eauto.
    + destruct (mem operation createOperations) eqn:Ec; [|done]. split; [right; right; by apply mem_In|].
      intros [?|Hf]; [done|]. apply mem_In in Hf. congruence.
Qed.

Lemma tenantScope_fails_closed_witness :
  In "Message" tenantScopedModels /\
  tenantScopeExtension None "Message" "count" None
    = Err (Failure "Message.count ran outside a request context; wrap trusted background work in withoutTenantScope()") /\
  ((exists reason, Some (Request "r1" None (Some "org-a")) = Some (Unscoped reason)
      /\ Some (JObj [("where", JObj [("organizationId", JStr "org-a")])]) = None)
   \/ (explicitlyGlobal "Message" "count" None = true /\ In "Message" nullableGlobalOwnerModels)
   \/ (exists rid uid org, Some (Request "r1" None (Some "org-a")) = Some (Request rid uid (Some org))
      /\ org <> EmptyString
      /\ ("count" = "upsert" \/ In "count" filterOperations \/ In "count" createOperations)
      /\ ("count" = "upsert" \/ In "count" filterOperations ->
          let named := assoc "organizationId" (asRecord (assoc "where" (asRecord None ??? [])) ??? []) in
          named = None \/ named = Some JNull \/ named = Some (JStr org)))).
Proof.
  assert (Hm : In "Message" tenantScopedModels) by (apply mem_In; reflexivity).
  split; [exact Hm|]. split; [reflexivity|].
  exact (tenantScope_fails_closed (Some (Request "r1" None (Some "org-a"))) "Message" "count" None _ Hm eq_refl).
Defined.

(** The data of an update is not among what the extension narrows: a row can be written to another
    organization by setting its [organizationId]. *)
Lemma tenantScope_update_data_unchecked :
  tenantScopeExtension (Some (Request "r1" None (Some "org-a"))) "Message" "update"
    (Some (JObj [("where", JObj [("id", JStr "m1")]);
                 ("data", JObj [("organizationId", JStr "org-b")])]))
  = Ok (Some (JObj [("where", JObj [("id", JStr "m1"); ("organizationId", JStr "org-a")]);
                    ("data", JObj [("organizationId", JStr "org-b")])])).
Proof. reflexivity. Qed.

Section ScopedLaws.
Context `{Platform}.
Context {R : Type} `{T : TenantModel R}.

(** The rows a statement of a request reaches belong to its organization, or are user-global
    rows asked for as such. *)
Lemma scopeFilter_isolates amb operation o P rid uid org r :
  TENANCY_MODE env <> Tenancy_disabled -> In modelName tenantScopedModels ->
  reqContext amb = Some (Request rid uid (Some org)) -> org <> EmptyString ->
  In operation filterOperations ->
  scopeFilter amb operation o = Ok P -> P r = true ->
  organizationIdOf r = Some org
  \/ (organizationIdOf r = None /\ o = Some None /\ In modelName nullableGlobalOwnerModels).
Proof.
  intros Ht Hm Hc Horg Hop Hf HP. unfold scopeFilter, extended in Hf.
  rewrite bool_decide_false in Hf by done. rewrite Hc in Hf.
  destruct (tenantScopeExtension _ _ _ _) as [args'|] eqn:E; [|done]. injection Hf as <-.
  apply tenantScope_isolates in E as (f' & -> & Hs); [|done..]. cbn in HP.
  assert (Hw : exists mid, whereScoped modelName org [("where", JObj (ownerEntry o))] mid
                           /\ assoc "where" f' = assoc "where" mid).
  { destruct Hs as [[_ Hs]|[[Hs _]|(_ & _ & Hs)]]; [eauto| |eauto].
    apply mem_In in Hop, Hs. cbn in Hop, Hs.
    repeat (apply orb_prop in Hs as [Hs|Hs]; [apply bool_decide_eq_true in Hs; subst; done|]). done. }
  destruct Hw as (mid & (w & Hw & Ho & _) & Heq). rewrite Heq, Hw in HP. cbn in HP.
  destruct Ho as [Ho|(Ho & Hn & Hin)]; rewrite Ho in HP; cbn in HP; apply bool_decide_eq_true in HP.
  - by left.
  - right. cbn in Hn. split; [done|]. split; [|done]. by destruct o as [[]|].
Qed.

(** A query that names the request's own organization is found to agree. *)
Ltac own_owner org :=
  cbn; change ("where" === "where") with true; change ("data" === "data") with true; cbn;
  change ("organizationId" === "organizationId") with true; cbn; unfold assertAgrees; rewrite (bd_refl org); cbn; done.

(** In a request of an organization a statement that names no owner, or that organization, reaches that
    organization's rows, and a created row is stored with it. *)
Lemma scope_request amb rid uid org operation o :
  TENANCY_MODE env <> Tenancy_disabled -> mem modelName tenantScopedModels = true ->
  reqContext amb = Some (Request rid uid (Some org)) -> truthy (Some org) = true -> o = None \/ o = Some (Some org) ->
  (mem operation filterOperations = true -> operation <> "upsert" ->
     scopeFilter amb operation o = Ok (fun r => organizationIdOf r === Some org))
  /\ scopeCreate (R := R) amb "create" o = Ok (Some org).
Proof.
  intros Ht Hm Hc Horg Ho. unfold scopeFilter, scopeCreate, extended. rewrite bool_decide_false by done.
  unfold tenantScopeExtension, resolveScopeOrganization. rewrite Hm, Hc, Horg. cbn [negb].
  unfold applyTenantScope. split.
  - intros Hop Hu. rewrite Hop, bool_decide_false by done. destruct Ho as [-> | ->]; [done|]. cbn. unfold scopeWhere. own_owner org.
  - change (mem "create" filterOperations) with false. change (mem "create" createOperations) with true.
    destruct Ho as [-> | ->]; [done|]. cbn. unfold scopeRow. own_owner org.
Qed.

(** Trusted background work sees the statements as written. *)
Lemma extended_unscoped amb reason operation args :
  reqContext amb = Some (Unscoped reason) -> extended (R := R) amb operation args = Ok (Some args).
Proof.
  intros Hc. unfold extended. rewrite Hc. destruct (_ === _); [done|].
  unfold tenantScopeExtension, resolveScopeOrganization. by destruct (mem _ _).
Qed.

Lemma scopeFilter_unscoped amb reason operation :
  reqContext amb = Some (Unscoped reason) ->
  scopeFilter (R := R) amb operation None = Ok (fun _ => true).
Proof. intros Hc. unfold scopeFilter. by rewrite (extended_unscoped _ _ _ _ Hc). Qed.

Lemma scopeCreate_unscoped amb reason operation o :
  reqContext amb = Some (Unscoped reason) ->
  scopeCreate (R := R) amb operation o = Ok (default None o).
Proof.
  intros Hc. unfold scopeCreate. rewrite (extended_unscoped _ _ _ _ Hc). by destruct o as [[]|].
Qed.

(** So what a request stores is among what it sees. *)
Lemma scope_agrees amb operation P o : mem modelName tenantScopedModels = true ->
  mem operation filterOperations = true -> operation <> "upsert" ->
  scopeFilter (R := R) amb operation None = Ok P -> scopeCreate (R := R) amb "create" None = Ok o ->
  forall r, organizationIdOf r = o -> P r = true.
Proof.
  intros Hm Hop Hu HP Ho r Hr.
  destruct (decide (TENANCY_MODE env = Tenancy_disabled)) as [Hd|Hd].
  { unfold scopeFilter, extended in HP. rewrite bool_decide_true in HP by done. by injection HP as <-. }
  destruct (reqContext amb) as [[rid uid org|reason]|] eqn:Ec.
  - destruct (truthy org) eqn:Et.
    + destruct org as [org|]; [|done]. destruct (scope_request amb rid uid org operation None Hd Hm Ec Et (or_introl eq_refl)) as [Hf Hs].
      rewrite Hf in HP by done. rewrite Hs in Ho. injection HP as <-. injection Ho as <-. rewrite Hr. apply bd_refl.
    + unfold scopeCreate, extended in Ho. rewrite bool_decide_false in Ho by done.
      unfold tenantScopeExtension, resolveScopeOrganization in Ho. rewrite Hm, Ec, Et in Ho. cbn [negb] in Ho.
      unfold explicitlyGlobal in Ho. cbn in Ho. by rewrite !andb_false_r in Ho.
  - rewrite (scopeFilter_unscoped _ reason) in HP by done. by injection HP as <-.
  - unfold scopeCreate, extended in Ho. rewrite bool_decide_false in Ho by done.
    unfold tenantScopeExtension, resolveScopeOrganization in Ho. by rewrite Hm, Ec in Ho.
Qed.

(** Outside a request of an organization, with tenancy on, a statement of a model without global rows fails. *)
Lemma scope_unresolved amb rid uid organizationId operation o :
  TENANCY_MODE env <> Tenancy_disabled -> mem modelName tenantScopedModels = true ->
  mem modelName nullableGlobalOwnerModels = false -> truthy organizationId = false ->
  reqContext amb = Some (Request rid uid organizationId) \/ reqContext amb = None ->
  (exists e, scopeFilter (R := R) amb operation o = Err e) /\ (exists e, scopeCreate (R := R) amb operation o = Err e).
Proof.
  intros Ht Hm Hn Horg Hc. unfold scopeFilter, scopeCreate, extended. rewrite bool_decide_false by done.
  unfold tenantScopeExtension, resolveScopeOrganization. rewrite Hm. cbn [negb].
  destruct Hc as [-> | ->]; [|unfold TenantScopeError; eauto]. rewrite Horg. unfold explicitlyGlobal. rewrite Hn. cbn [andb].
  unfold TenantScopeError. eauto.
Qed.

Lemma scopeUpsert_unscoped amb reason oc :
  reqContext amb = Some (Unscoped reason) ->
  scopeUpsert (R := R) amb None oc = Ok (fun _ => true, default None oc).
Proof.
  intros Hc. unfold scopeUpsert. rewrite (extended_unscoped _ _ _ _ Hc). by destruct oc as [[]|].
Qed.

Lemma scopeUpsert_global amb reason :
  reqContext amb = Some (Unscoped reason) ->
  scopeUpsert (R := R) amb (Some None) (Some None) = Ok (fun r => organizationIdOf r === None, None).
Proof. intros Hc. unfold scopeUpsert. by rewrite (extended_unscoped _ _ _ _ Hc). Qed.
End ScopedLaws.

(** ** What the scoped statements keep *)

Section ScopedPres.
Context `{Platform}.
Context {R : Type} `{M : Model World R} `{T : TenantModel R}.
Implicit Types (I : World -> Prop) (amb : Ambient).

Lemma pres_sc_findFirst I amb o P : tx_pres I (sc_findFirst amb o P).
Proof. apply pres_bind; auto with pres. Qed.
Lemma pres_sc_findMany I amb o P : tx_pres I (sc_findMany amb o P).
Proof. apply pres_bind; auto with pres. Qed.
Lemma pres_sc_count I amb o P : tx_pres I (sc_count amb o P).
Proof. apply pres_bind; auto with pres. Qed.
Lemma pres_sc_updateMany I amb o P f :
  (forall Q, tx_pres I (tx_updateMany (fun r => Q r && P r) f)) -> tx_pres I (sc_updateMany amb o P f).
Proof. intros HQ. apply pres_bind; auto with pres. Qed.
Lemma pres_sc_update I amb o P f :
  (forall Q, tx_pres I (tx_update (fun r => Q r && P r) f)) -> tx_pres I (sc_update amb o P f).
Proof. intros HQ. apply pres_bind; auto with pres. Qed.
Lemma pres_sc_update_unique I amb o P f :
  (forall Q, tx_pres I (tx_update_unique (fun r => Q r && P r) f)) -> tx_pres I (sc_update_unique amb o P f).
Proof. intros HQ. apply pres_bind; auto with pres. Qed.
Lemma pres_sc_updateMany_unique I amb o P f :
  (forall Q, tx_pres I (tx_updateMany_unique (fun r => Q r && P r) f)) ->
  tx_pres I (sc_updateMany_unique amb o P f).
Proof. intros HQ. apply pres_bind; auto with pres. Qed.
Lemma pres_sc_create I amb o r :
  (forall owner, tx_pres I (tx_create (stampOrganization owner r))) -> tx_pres I (sc_create amb o r).
Proof. intros HQ. apply pres_bind; auto with pres. Qed.
Lemma pres_sc_upsert I amb o oc P r f :
  (forall Q owner, tx_pres I (tx_upsert (fun x => Q x && P x) (stampOrganization owner r) f)) ->
  tx_pres I (sc_upsert amb o oc P r f).
Proof. intros HQ. apply pres_bind; auto with pres. Qed.
Lemma pres_sc_upsert_unique I amb o oc P r f :
  (forall Q owner, tx_pres I (tx_upsert_unique (fun x => Q x && P x) (stampOrganization owner r) f)) ->
  tx_pres I (sc_upsert_unique amb o oc P r f).
Proof. intros HQ. apply pres_bind; auto with pres. Qed.
End ScopedPres.

#[export] Hint Resolve pres_sc_findFirst pres_sc_findMany pres_sc_count : pres.
#[export] Hint Extern 4 (tx_pres _ (sc_updateMany _ _ _ _)) =>
  apply pres_sc_updateMany; intros; apply pres_updateMany; frame_done : pres.
#[export] Hint Extern 4 (tx_pres _ (sc_update _ _ _ _)) =>
  apply pres_sc_update; intros; apply pres_update; frame_done : pres.
#[export] Hint Extern 4 (tx_pres _ (sc_create _ _ _)) =>
  apply pres_sc_create; intros; apply pres_create; frame_done : pres.
#[export] Hint Extern 4 (tx_pres _ (sc_upsert _ _ _ _ _ _)) =>
  apply pres_sc_upsert; intros; apply pres_upsert; frame_done : pres.
#[export] Hint Extern 4 (tx_pres _ (sc_update_unique _ _ _ _)) =>
  apply pres_sc_update_unique; intros; apply pres_update_unique; frame_done : pres.
#[export] Hint Extern 4 (tx_pres _ (sc_updateMany_unique _ _ _ _)) =>
  apply pres_sc_updateMany_unique; intros; apply pres_updateMany_unique; frame_done : pres.
#[export] Hint Extern 4 (tx_pres _ (sc_upsert_unique _ _ _ _ _ _)) =>
  apply pres_sc_upsert_unique; intros; apply pres_upsert_unique; frame_done : pres.
