(* ===== verification/AuditTrail.v ===== *)
(** * The audit trail

    modules/audit/audit.integrity.ts, the writing half of modules/audit/audit.service.ts and
    lib/audited-transaction.ts. An audited transaction is a [Tx]: the mutation and the audit rows
    commit or roll back together. *)

From Stdlib Require Import ZArith Lia Bool.
From S2P Require Import Prelude Store Database JsString Platform Request.

Open Scope string_scope.

Definition AUDIT_INTEGRITY_VERSION : Z := 2.

Definition nullable (o : option string) : Json := match o with Some s => JStr s | None => JNull end.

(** [AuditInput]: an argument left out is [None]. *)
Record AuditInput := mkAuditInput {
  ai_actorUserId : option string; ai_action : string; ai_entityType : string;
  ai_entityId : option string; ai_requestId : option string; ai_ip : option string;
  ai_userAgent : option string; ai_metadata : option Json
}.

(** The object whose canonical text is signed. *)
Definition auditPayload (record : AuditEvent) : Json :=
  JObj ([("version", JNum (aud_integrityVersion record))]
    ++ (if (2 <=? aud_integrityVersion record)%Z
        then [("organizationId", nullable (aud_organizationId record))] else [])
    ++ [("id", JStr (aud_id record));
        ("actorUserId", nullable (aud_actorUserId record));
        ("action", JStr (aud_action record));
        ("entityType", JStr (aud_entityType record));
        ("entityId", nullable (aud_entityId record));
        ("requestId", nullable (aud_requestId record));
        ("ipHash", nullable (aud_ipHash record));
        ("userAgent", nullable (aud_userAgent record));
        ("metadata", aud_metadata record ??? JNull);
        ("createdAt", JStr (toISOString (aud_createdAt record)));
        ("updatedAt", JStr (toISOString (aud_updatedAt record)));
        ("deletedAt", match aud_deletedAt record with
                      | Some t => JStr (toISOString t) | None => JNull end)])%list.

Section Audit.
Context `{Platform}.

(** [secret || env.COOKIE_SECRET] *)
Definition signingSecret (secret : string) : string :=
  if secret === EmptyString then COOKIE_SECRET env else secret.

Definition signAuditEvent (record : AuditEvent) (secret : string) : string :=
  hmacSha256 (signingSecret secret) (canonicalJson (auditPayload record)).

Definition verifyAuditEvent (record : AuditEvent) (secret : string) : bool :=
  let signing := signingSecret secret in
  if (aud_integrityHash record === EmptyString) || (signing === EmptyString) then false
  else
    let expected := signAuditEvent record signing in
    (String.length (aud_integrityHash record) =? String.length expected)%nat
    && constantTimeEqual (aud_integrityHash record) expected.

Definition writeAuditEvent (amb : Ambient) (input : AuditInput) : Tx World unit :=
  id ← newId;
  ipHash ← match ai_ip input with
           | Some ip => if ip === EmptyString then mret None
                        else h ← tx_lift (hashMetadata ip); mret (Some h)
           | None => mret None
           end;
  let row := mkAuditEvent id (ambientOrganization amb) (ai_actorUserId input) (ai_action input)
    (ai_entityType input) (ai_entityId input) (ai_requestId input) ipHash
    (take_str 500 <$> ai_userAgent input) (ai_metadata input) "" AUDIT_INTEGRITY_VERSION
    (nowMs amb) (nowMs amb) None in
  _ ← tx_create (row <| aud_integrityHash := signAuditEvent row (AUDIT_INTEGRITY_SECRET env) |>);
  mret tt.

Lemma pres_newId (I : World -> Prop) :
  (forall n w, I w -> I (w <| drawn := n |>)) -> tx_pres I newId.
Proof. intros HI w a w' Hw [= <- <-]. by apply (HI (S (drawn w))). Qed.

Lemma pres_writeAuditEvent (I : World -> Prop) amb input :
  (forall n w, I w -> I (w <| drawn := n |>)) ->
  (forall g w, I w -> I (put (R := AuditEvent) g w)) ->
  tx_pres I (writeAuditEvent amb input).
Proof.
  intros H1 H2. unfold writeAuditEvent. apply pres_bind; [by apply pres_newId|intros id].
  apply pres_bind.
  { destruct (ai_ip input); [|apply pres_ret]. destruct (_ === _); [apply pres_ret|].
    apply pres_bind; [apply pres_lift|intros; apply pres_ret]. }
  intros ipHash. apply pres_bind; [|intros; apply pres_ret].
  apply pres_create. intros; by apply H2.
Qed.

(** The signature does not look at the stored hash. *)
Lemma auditPayload_hash record h : auditPayload (record <| aud_integrityHash := h |>) = auditPayload record.
Proof. done. Qed.

Lemma signingSecret_idem s : signingSecret (signingSecret s) = signingSecret s.
Proof. unfold signingSecret. repeat case_bool_decide; congruence. Qed.

(** A row carrying its own signature verifies. *)
Lemma verify_signed row secret :
  (forall k d, hmacSha256 k d <> EmptyString) -> signingSecret secret <> EmptyString ->
  verifyAuditEvent (row <| aud_integrityHash := signAuditEvent row secret |>) secret = true.
Proof.
  intros Hh Hs. unfold verifyAuditEvent, signAuditEvent.
  rewrite signingSecret_idem, auditPayload_hash. cbn [aud_integrityHash field_set].
  rewrite !bool_decide_false by auto. cbn [orb].
  unfold constantTimeEqual. by rewrite !Nat.eqb_refl, bool_decide_true.
Qed.

(** An audit write appends exactly one row, attributed to the organization of the request and
    to the actor and action given, and that row passes the integrity check the verification job
    applies; nothing already recorded is altered. *)
Theorem writeAuditEvent_signed amb input w w' :
  (forall k d, hmacSha256 k d <> EmptyString) ->
  signingSecret (AUDIT_INTEGRITY_SECRET env) <> EmptyString ->
  writeAuditEvent amb input w = Ok (tt, w') ->
  exists row, auditEvents w' = (auditEvents w ++ [row])%list
    /\ verifyAuditEvent row (AUDIT_INTEGRITY_SECRET env) = true
    /\ aud_id row = uuid (drawn w)
    /\ aud_organizationId row = ambientOrganization amb
    /\ aud_actorUserId row = ai_actorUserId input /\ aud_action row = ai_action input
    /\ aud_entityType row = ai_entityType input /\ aud_entityId row = ai_entityId input
    /\ aud_metadata row = ai_metadata input /\ aud_createdAt row = nowMs amb.
Proof.
  intros Hh Hs Hw. unfold writeAuditEvent in Hw. tx_inv Hw.
  injection Hw0 as <- <-.
  assert (s0 = w <| drawn ::= S |>) as ->.
  { destruct (ai_ip input); [destruct (_ === _)|]; tx_inv Hw1; done. }
  unfold tx_create in Hw2. destruct (existsb _ _); [done|]. injection Hw2 as <- <-.
  eexists. split; [reflexivity|]. split; [by apply verify_signed|done].
Qed.
End Audit.

#[export] Hint Extern 4 (tx_pres _ newId) => apply pres_newId; intros; assumption : pres.
#[export] Hint Extern 4 (tx_pres _ (writeAuditEvent _ _)) =>
  apply pres_writeAuditEvent; intros; assumption : pres.

Lemma demo_hmac_nonempty : forall k d, @hmacSha256 demoPlatform k d <> EmptyString.
Proof. intros k d. cbn. by destruct k. Qed.

Lemma writeAuditEvent_signed_witness :
  let amb := mkAmbient 1000 (Some (Request "req" (Some "u1") (Some "org-a"))) in
  let input := mkAuditInput (Some "u1") "role.created" "role" (Some "r1") (Some "req") (Some "10.0.0.1")
                 None (Some (JObj [("name", JStr "ops")])) in
  exists w' row, @writeAuditEvent demoPlatform amb input emptyWorld = Ok (tt, w')
    /\ auditEvents w' = [row] /\ @verifyAuditEvent demoPlatform row "" = true
    /\ aud_organizationId row = Some "org-a".
Proof.
  intros amb input.
  destruct (@writeAuditEvent demoPlatform amb input emptyWorld) as [[[] w']|] eqn:E;
    [|vm_compute in E; discriminate E].
  destruct (@writeAuditEvent_signed demoPlatform amb input emptyWorld w' demo_hmac_nonempty
              ltac:(discriminate) E) as (row & Hrows & Hv & _ & Horg & _).
  exists w', row. split; [reflexivity|]. split; [exact Hrows|]. split; [exact Hv|exact Horg].
Defined.

Section AuditRuns.
Context `{Platform}.

(** The next identifier is not that of a recorded audit event. *)
Definition auditFresh (w : World) : Prop := forall e, In e (auditEvents w) -> aud_id e <> uuid (drawn w).

(** An audit write always succeeds and only appends. *)
Lemma writeAuditEvent_runs amb input w : keyringValid -> auditFresh w ->
  exists row : AuditEvent, writeAuditEvent amb input w = Ok (tt, put (fun t => t ++ [row])%list (w <| drawn ::= S |>)).
Proof.
  intros Hk Hf. unfold writeAuditEvent. rewrite (tx_step _ _ _ _ _ eq_refl).
  assert (Hip : exists h, (match ai_ip input with
             | Some ip => if ip === EmptyString then mret None
                          else h ← tx_lift (hashMetadata ip); mret (Some h)
             | None => mret None
             end : Tx World (option string)) (w <| drawn ::= S |>) = Ok (h, w <| drawn ::= S |>)).
  { destruct (ai_ip input) as [ip|]; [|eauto]. destruct (ip === EmptyString); [eauto|].
    destruct (hashMetadata_total ip Hk) as [h Hh]. exists (Some h). by rewrite Hh. }
  destruct Hip as [h Hip]. rewrite (tx_step _ _ _ _ _ Hip).
  eexists. erewrite tx_step; [reflexivity|]. apply run_create.
  destruct (existsb _ _) eqn:E; [|done]. apply existsb_exists in E as (x & Hx & Hc).
  cbn in Hc. bools. by destruct (Hf x Hx).
Qed.

(** Freshness, decided. *)
Definition auditFreshb (w : World) : bool :=
  forallb (fun e => negb (String.eqb (aud_id e) (uuid (drawn w)))) (auditEvents w).

Lemma auditFreshb_ok w : auditFreshb w = true -> auditFresh w.
Proof.
  unfold auditFreshb. rewrite forallb_forall. intros Hf e He Heq. specialize (Hf e He).
  apply negb_true_iff, String.eqb_neq in Hf. done.
Qed.
End AuditRuns.
