(* ===== verification/Tenancy.v ===== *)
(** * Which organization a session starts in

    modules/organizations/organizations.tenancy.ts. *)

From Stdlib Require Import ZArith Lia Bool.
From S2P Require Import Prelude Store Database JsString Platform Request.

Open Scope string_scope.

Definition DEFAULT_ORGANIZATION_SLUG : string := "default".
Definition DEFAULT_ORGANIZATION_NAME : string := "Default".

Section Tenancy.
Context `{Platform}.

(** System roles are global definitions: [organizationId] is null. *)
Definition findGlobalRoleId (name : string) : Tx World string :=
  role ← tx_findFirst (fun r => (role_name r === name) && is_null (role_organizationId r)
                                && is_null (role_deletedAt r));
  role ← tx_require role
    (Failure ("System role " ++ quote ++ name ++ quote
              ++ " is missing. Run `npm run db:seed` before enabling TENANCY_MODE."));
  mret (role_id role).

Definition resolveInitialOrganizationId (amb : Ambient) (userId : string) : Tx World (option string) :=
  match TENANCY_MODE env with
  | Tenancy_disabled => mret None
  | Tenancy_single =>
      newOrgId ← newId;
      organization ← tx_upsert (fun o => org_slug o === DEFAULT_ORGANIZATION_SLUG)
        (mkOrganization newOrgId DEFAULT_ORGANIZATION_SLUG DEFAULT_ORGANIZATION_NAME Org_ACTIVE 0 None
           None (nowMs amb) None)
        (fun o => o);
      roleId ← findGlobalRoleId "member";
      newMemId ← newId;
      _ ← tx_upsert
        (fun m => (mem_organizationId m === org_id organization) && (mem_userId m === userId))
        (mkMembership newMemId (org_id organization) userId roleId Mem_ACTIVE (Some (nowMs amb))
           (nowMs amb) None)
        (fun m => m <| mem_status := Mem_ACTIVE |> <| mem_deletedAt := None |>);
      mret (Some (org_id organization))
  | Tenancy_multi =>
      active ← tx_findMany (fun m => (mem_userId m === userId) && (mem_status m === Mem_ACTIVE)
                                     && is_null (mem_deletedAt m));
      mret (mem_organizationId <$> head (orderByAsc mem_createdAt active))
  end.

Lemma pres_resolveInitialOrganizationId (I : World -> Prop) amb userId :
  (forall n w, I w -> I (w <| drawn := n |>)) ->
  (forall g w, I w -> I (put (R := Organization) g w)) ->
  (forall g w, I w -> I (put (R := Membership) g w)) ->
  tx_pres I (resolveInitialOrganizationId amb userId).
Proof.
  intros H1 H2 H3. unfold resolveInitialOrganizationId, findGlobalRoleId.
  assert (Hid : tx_pres I newId) by (intros w a w' Hw [= <- <-]; by apply (H1 (S (drawn w)))).
  destruct (TENANCY_MODE env).
  - apply pres_ret.
  - apply pres_bind; [done|intros o]. apply pres_bind; [apply pres_upsert; auto|intros org].
    apply pres_bind; [pres|intros rid]. apply pres_bind; [done|intros m].
    apply pres_bind; [apply pres_upsert; auto|intros; apply pres_ret].
  - pres.
Qed.
End Tenancy.

#[export] Hint Extern 4 (tx_pres _ (resolveInitialOrganizationId _ _)) =>
  apply pres_resolveInitialOrganizationId; intros; assumption : pres.
