(* ===== verification/Sessions.v ===== *)
(** * Sessions and refresh tokens

    modules/auth/auth.shared.ts, auth.sessions.service.ts, lib/jwt.ts and
    modules/chat/chat.revocations.ts. The raw token a handler would draw is its argument. *)

From Stdlib Require Import ZArith Lia Bool.
From S2P Require Import Prelude Store Database JsString Platform Request AuditTrail Tenancy.

Open Scope string_scope.

Record TokenPair := mkTokenPair { accessToken : string; refreshToken : string }.

Definition expiresIn (amb : Ambient) (amount unitMilliseconds : Z) : Z :=
  (nowMs amb + amount * unitMilliseconds)%Z.

(** An audit input with the request's metadata spread into it. *)
Definition auditMetadata (metadata : RequestMetadata) (actor : option string) (action entityType : string)
    (entityId : option string) (extra : option Json) : AuditInput :=
  mkAuditInput actor action entityType entityId (Some (meta_requestId metadata))
    (Some (meta_ip metadata)) (meta_userAgent metadata) extra.

Section Sessions.
Context `{Platform}.

(** ** lib/jwt.ts *)

Record AccessClaims := mkClaims { claim_userId : string; claim_sessionId : string }.

Definition issuer : string := "backend-foundation".
Definition audience : string := "backend-foundation-api".

Definition signAccessToken (amb : Ambient) (claims : AccessClaims) : string :=
  let iat := (nowMs amb / 1000)%Z in
  jwtSign (JWT_ACCESS_SECRET env)
    (JObj [("sid", JStr (claim_sessionId claims)); ("sub", JStr (claim_userId claims));
           ("iss", JStr issuer); ("aud", JStr audience); ("iat", JNum iat);
           ("exp", JNum (iat + ACCESS_TOKEN_TTL_MINUTES env * 60)%Z)]).

(** The signature, algorithm, issuer, audience and expiry checks are [jwtVerify]'s. *)
Definition verifyAccessToken (amb : Ambient) (token : string) : res AccessClaims :=
  match jwtVerify (JWT_ACCESS_SECRET env) (nowMs amb) token with
  | None => Err (Failure "JWTInvalid")
  | Some payload =>
      match jget "sub" payload, jget "sid" payload with
      | Some (JStr sub), Some (JStr sid) =>
          if sub === EmptyString then Err (Failure "Access token is missing required claims")
          else Ok (mkClaims sub sid)
      | _, _ => Err (Failure "Access token is missing required claims")
      end
  end.

(** ** modules/chat/chat.revocations.ts *)

(** The publication that reached Redis; an outage drops it silently. *)
Definition publishChatRevocation (userId : string) : Proc World unit := fun w =>
  if CHAT_ENABLED env then (Ok tt, w <| revocations ::= fun l => (l ++ [userId])%list |>)
  else (Ok tt, w).

(** ** auth.sessions.service.ts *)

Definition createSession (amb : Ambient) (newRefreshToken userId : string) (metadata : RequestMetadata)
    : Proc World TokenPair :=
  let expiresAt := expiresIn amb (REFRESH_TOKEN_TTL_DAYS env) (24 * 60 * 60 * 1000) in
  session ← transact (
    activeOrganizationId ← resolveInitialOrganizationId amb userId;
    ipHash ← tx_lift (hashMetadata (meta_ip metadata));
    sessionId ← newId;
    created ← tx_create (mkSession sessionId userId activeOrganizationId (Some ipHash)
      (take_str 500 <$> meta_userAgent metadata) expiresAt None None (nowMs amb) (nowMs amb) None);
    tokenHash ← tx_lift (hashOpaqueToken newRefreshToken);
    tokenId ← newId;
    _ ← tx_create (mkRefreshToken tokenId userId (sess_id created) tokenHash None expiresAt None None None);
    _ ← tx_update (fun u => user_id u === userId) (fun u => u <| user_lastLoginAt := Some (nowMs amb) |>);
    writeAuditEvent amb (auditMetadata metadata (Some userId) "auth.session.created" "session"
      (Some (sess_id created)) None);;
    mret created);
  mret (mkTokenPair (signAccessToken amb (mkClaims userId (sess_id session))) newRefreshToken).

Inductive RotateResult :=
  | INVALID
  | REUSE (userId : string)
  | ROTATED (userId sessionId : string).

(** The conditions under which a known refresh token may not be exchanged. *)
Definition unusable (t : Z) (current : RefreshToken) (session : Session) (user : User) : bool :=
  is_set (rt_consumedAt current) || truthy (rt_replacedByTokenId current)
  || is_set (rt_revokedAt current) || (rt_expiresAt current <=? t)%Z
  || is_set (sess_revokedAt session) || (sess_expiresAt session <=? t)%Z
  || (user_status user !== User_ACTIVE) || is_set (user_deletedAt user).

(** Revocation of a session's unrevoked refresh tokens. *)
Definition revokeTokens (t : Z) (sessionId : string) : Tx World nat :=
  tx_updateMany (fun r => (rt_sessionId r === sessionId) && is_null (rt_revokedAt r))
    (fun r => r <| rt_revokedAt := Some t |>).

(** An unusable token was presented: the whole session ends. *)
Definition reuseDetected (amb : Ambient) (metadata : RequestMetadata) (current : RefreshToken)
    : Tx World RotateResult :=
  _ ← tx_updateMany
    (fun s => (sess_id s === rt_sessionId current) && is_null (sess_revokedAt s))
    (fun s => s <| sess_revokedAt := Some (nowMs amb) |>
                <| sess_revokeReason := Some "refresh_token_reuse" |>);
  _ ← revokeTokens (nowMs amb) (rt_sessionId current);
  writeAuditEvent amb (auditMetadata metadata (Some (rt_userId current))
    "auth.refresh.reuse_detected" "session" (Some (rt_sessionId current)) None);;
  mret (REUSE (rt_userId current)).

(** The exchange of a usable token for its successor. *)
Definition exchangeToken (amb : Ambient) (nextHash : string) (current : RefreshToken) (session : Session)
    : Tx World RotateResult :=
  nextId ← newId;
  next ← tx_create (mkRefreshToken nextId (rt_userId current) (rt_sessionId current) nextHash
    None (sess_expiresAt session) None None None);
  consumed ← tx_updateMany_unique
    (fun r => (rt_id r === rt_id current) && is_null (rt_consumedAt r)
              && is_null (rt_revokedAt r) && is_null (rt_replacedByTokenId r))
    (fun r => r <| rt_consumedAt := Some (nowMs amb) |> <| rt_replacedByTokenId := Some (rt_id next) |>);
  if negb (consumed =? 1)%nat then
    _ ← tx_update (fun s => sess_id s === rt_sessionId current)
      (fun s => s <| sess_revokedAt := Some (nowMs amb) |>
                  <| sess_revokeReason := Some "refresh_token_race" |>);
    _ ← revokeTokens (nowMs amb) (rt_sessionId current);
    mret (REUSE (rt_userId current))
  else
    _ ← tx_update (fun s => sess_id s === rt_sessionId current)
      (fun s => s <| sess_lastSeenAt := nowMs amb |>);
    mret (ROTATED (rt_userId current) (rt_sessionId current)).

Definition rotateTransaction (amb : Ambient) (tokenHashes : list string) (nextHash : string)
    (metadata : RequestMetadata) : Tx World RotateResult :=
  found ← tx_findFirst (fun r => existsb (String.eqb (rt_tokenHash r)) tokenHashes);
  match found with
  | None => mret INVALID
  | Some current =>
      if negb (existsb (constantTimeEqual (rt_tokenHash current)) tokenHashes) then mret INVALID
      else
        (* include: { session, user }: the relations are required *)
        session ← tx_findFirst_raw (fun s => sess_id s === rt_sessionId current);
        session ← tx_require session (Failure "Inconsistent query result");
        user ← tx_findFirst_raw (fun u => user_id u === rt_userId current);
        user ← tx_require user (Failure "Inconsistent query result");
        if unusable (nowMs amb) current session user then reuseDetected amb metadata current
        else exchangeToken amb nextHash current session
  end.

Definition rotateRefreshToken (amb : Ambient) (nextRawToken rawToken : string) (metadata : RequestMetadata)
    : Proc World (option TokenPair) :=
  tokenHashes ← transact (tx_lift (candidateOpaqueTokenHashes rawToken));
  nextHash ← transact (tx_lift (hashOpaqueToken nextRawToken));
  result ← transact (rotateTransaction amb tokenHashes nextHash metadata);
  match result with
  | ROTATED userId sessionId =>
      mret (Some (mkTokenPair (signAccessToken amb (mkClaims userId sessionId)) nextRawToken))
  | REUSE userId => publishChatRevocation userId;; mret None
  | INVALID => mret None
  end.

Definition revokeSession (amb : Ambient) (sessionId userId : string) (metadata : RequestMetadata)
    : Proc World unit :=
  transact (
    _ ← tx_updateMany
      (fun s => (sess_id s === sessionId) && (sess_userId s === userId) && is_null (sess_revokedAt s))
      (fun s => s <| sess_revokedAt := Some (nowMs amb) |> <| sess_revokeReason := Some "user_logout" |>);
    _ ← tx_updateMany
      (fun r => (rt_sessionId r === sessionId) && (rt_userId r === userId) && is_null (rt_revokedAt r))
      (fun r => r <| rt_revokedAt := Some (nowMs amb) |>);
    writeAuditEvent amb (auditMetadata metadata (Some userId) "auth.session.revoked" "session"
      (Some sessionId) None));;
  publishChatRevocation userId.

(** [tx.session.updateMany] and [tx.refreshToken.updateMany] over a user, possibly sparing one
    session: the statements several services end sessions with. *)
Definition endSessions (t : Z) (userId reason : string) (spare : option string) : Tx World unit :=
  _ ← tx_updateMany
    (fun s => (sess_userId s === userId) && is_null (sess_revokedAt s)
              && match spare with Some k => sess_id s !== k | None => true end)
    (fun s => s <| sess_revokedAt := Some t |> <| sess_revokeReason := Some reason |>);
  _ ← tx_updateMany
    (fun r => (rt_userId r === userId) && is_null (rt_revokedAt r)
              && match spare with Some k => rt_sessionId r !== k | None => true end)
    (fun r => r <| rt_revokedAt := Some t |>);
  mret tt.

Definition revokeAllSessions (amb : Ambient) (userId : string) (metadata : RequestMetadata)
    : Proc World unit :=
  transact (
    endSessions (nowMs amb) userId "user_logout_all" None;;
    writeAuditEvent amb (auditMetadata metadata (Some userId) "auth.sessions.revoked_all" "user"
      (Some userId) None));;
  publishChatRevocation userId.
End Sessions.
