(* ===== verification/SessionsSpec.v ===== *)
(** * What sessions guarantee

    At most one refresh token of a session is usable, whatever the sequence of logins, rotations
    and revocations; presenting a token twice ends the session. *)

From Stdlib Require Import ZArith Lia Bool.
From stdpp Require Import relations.
From S2P Require Import Prelude Store Database JsString Platform Request AuditTrail Tenancy Sessions.

Open Scope string_scope.

(** A token that a rotation of its session could accept. *)
Definition usable (sid : string) (r : RefreshToken) : bool :=
  (rt_sessionId r === sid) && is_null (rt_consumedAt r) && is_null (rt_revokedAt r)
  && is_null (rt_replacedByTokenId r) && is_null (rt_deletedAt r).

Record tokensOk (ss : list Session) (ts : list RefreshToken) : Prop := {
  ti_nodup : List.NoDup (List.map rt_id ts);
  ti_session : forall r, In r ts -> In (rt_sessionId r) (List.map sess_id ss);
  ti_one : forall sid, countWhere (usable sid) ts <= 1;
  ti_replaced : forall r, In r ts -> is_set (rt_replacedByTokenId r) = true -> is_set (rt_consumedAt r) = true
}.
Definition token_inv (w : World) : Prop := tokensOk (sessions w) (refreshTokens w).

(** ** The statements *)

Lemma token_inv_tokens w P f :
  (forall r, rt_id (f r) = rt_id r) -> (forall r, rt_sessionId (f r) = rt_sessionId r) ->
  (forall sid r, P r = true -> usable sid (f r) = true -> usable sid r = true) ->
  (forall r, rt_replacedByTokenId (f r) = rt_replacedByTokenId r) ->
  (forall r, rt_consumedAt (f r) = rt_consumedAt r) ->
  token_inv w -> token_inv (put (updateWhere P f) w).
Proof.
  intros Hid Hs Hu Hrep Hcon [Hnd Hse Hone Hre]. constructor; cbn.
  - rewrite map_updateWhere; auto.
  - intros r Hr. apply In_updateWhere in Hr as (r0 & Hr0 & ->). destruct (P r0); [rewrite Hs|]; auto.
  - intros sid. etrans; [apply countWhere_update_le, Hu|apply Hone].
  - intros r Hr. apply In_updateWhere in Hr as (r0 & Hr0 & ->).
    destruct (P r0); [rewrite Hrep, Hcon|]; auto.
Qed.

Lemma token_inv_sessions w P f : (forall s, sess_id (f s) = sess_id s) ->
  token_inv w -> token_inv (put (updateWhere (R := Session) P f) w).
Proof.
  intros Hid [Hnd Hse Hone Hre]. constructor; cbn; [done| |done|done].
  intros r Hr. rewrite map_updateWhere by auto. auto.
Qed.

Lemma pres_tokens P f :
  (forall r, rt_id (f r) = rt_id r) -> (forall r, rt_sessionId (f r) = rt_sessionId r) ->
  (forall sid r, usable sid (f r) = true -> usable sid r = true) ->
  (forall r, rt_replacedByTokenId (f r) = rt_replacedByTokenId r) ->
  (forall r, rt_consumedAt (f r) = rt_consumedAt r) ->
  tx_pres token_inv (tx_updateMany P f).
Proof. intros. apply pres_updateMany. intros. apply token_inv_tokens; auto. Qed.

Lemma pres_sessions P f : (forall s, sess_id (f s) = sess_id s) ->
  tx_pres token_inv (tx_updateMany (R := Session) P f).
Proof. intros. apply pres_updateMany. intros. by apply token_inv_sessions. Qed.

Lemma usable_revoke t sid r : usable sid (r <| rt_revokedAt := Some t |>) = false.
Proof. unfold usable. cbn. by rewrite !andb_false_r. Qed.

Section Invariant.
Context `{Platform}.

Lemma pres_audit amb input : tx_pres token_inv (writeAuditEvent amb input).
Proof. auto with pres. Qed.

(** A new session has no tokens yet. *)
Lemma token_inv_newSession w (s : Session) : token_inv w ->
  existsb (clash s) (sessions w) = false ->
  token_inv (put (fun t => t ++ [s])%list w)
  /\ forall r, In r (refreshTokens w) -> rt_sessionId r <> sess_id s.
Proof.
  intros [Hnd Hse Hone Hre] Hc. split.
  - constructor; cbn; [done| |done|done]. intros r Hr. rewrite List.map_app. apply in_or_app. auto.
  - intros r Hr He. specialize (Hse r Hr). apply List.in_map_iff in Hse as (x & Hx & Hin).
    assert (existsb (clash s) (sessions w) = true); [|congruence].
    apply existsb_exists. exists x. split; [done|]. cbn. by rewrite bool_decide_true by congruence.
Qed.

(** A token whose session has no usable one. *)
Lemma token_inv_newToken w (r : RefreshToken) : token_inv w ->
  existsb (clash r) (refreshTokens w) = false -> In (rt_sessionId r) (List.map sess_id (sessions w)) ->
  countWhere (usable (rt_sessionId r)) (refreshTokens w) = 0 -> rt_replacedByTokenId r = None ->
  token_inv (put (fun t => t ++ [r])%list w).
Proof.
  intros [Hnd Hse Hone Hre] Hc Hs Hz Hn. constructor.
  - change (List.NoDup (List.map rt_id (refreshTokens w ++ [r])%list)). rewrite List.map_app.
    apply List.NoDup_app; [done|repeat constructor; auto|]. intros k Hk [<-|[]].
    apply List.in_map_iff in Hk as (x & Hx & Hin).
    assert (existsb (clash r) (refreshTokens w) = true); [|congruence].
    apply existsb_exists. exists x. split; [done|]. cbn. by rewrite bool_decide_true by congruence.
  - intros x Hx. apply in_app_or in Hx as [Hx|[<-|[]]]; auto.
  - intros sid. change (countWhere (usable sid) (refreshTokens w ++ [r])%list <= 1).
    rewrite countWhere_snoc. destruct (usable sid r) eqn:E; [|specialize (Hone sid); lia].
    unfold usable in E. bools. subst sid. lia.
  - intros x Hx. apply in_app_or in Hx as [Hx|[<-|[]]]; [auto|]. by rewrite Hn.
Qed.

Lemma no_tokens sid ts : (forall r, In r ts -> rt_sessionId r <> sid) -> countWhere (usable sid) ts = 0.
Proof.
  intros Hn. apply countWhere_0. intros r Hr. unfold usable. by rewrite (bd_ne _ _ (Hn r Hr)).
Qed.

Lemma createSession_inv amb raw userId meta : proc_pres token_inv (createSession amb raw userId meta).
Proof.
  unfold createSession. apply pres_proc_bind; [|intros; apply pres_proc_ret]. apply pres_transact.
  intros w created w' Hw Hrun. tx_inv Hrun.
  assert (Hs0 : token_inv s0) by (eapply (pres_resolveInitialOrganizationId token_inv); [..|exact Hrun0]; done).
  injection Hrun1 as <- <-. injection Hrun3 as <- <-.
  unfold tx_create in Hrun2. destruct (existsb _ _) eqn:Ec in Hrun2; [done|]. injection Hrun2 as <- <-.
  destruct (token_inv_newSession _ _ Hs0 Ec) as [Hs2 Hfresh].
  unfold tx_create in Hrun4. destruct (existsb _ _) eqn:Ec2 in Hrun4; [done|]. injection Hrun4 as <- <-.
  eapply (pres_audit amb); [|exact Hrun6]. revert Hrun5. unfold tx_update. case_match; [|done].
  intros [= <- <-]. eapply (token_inv_newToken _ _ Hs2 Ec2).
  - cbn. rewrite List.map_app. apply in_or_app. right. by left.
  - apply no_tokens. exact Hfresh.
  - done.
Qed.

Lemma revokeTokens_inv t sid : tx_pres token_inv (revokeTokens t sid).
Proof. apply pres_tokens; auto. intros sid' r. by rewrite usable_revoke. Qed.

Lemma endSessions_inv t userId reason spare : tx_pres token_inv (endSessions t userId reason spare).
Proof.
  apply pres_bind; [by apply pres_sessions|intros _]. apply pres_bind; [|intros; apply pres_ret].
  apply pres_tokens; auto. intros sid r. by rewrite usable_revoke.
Qed.

Lemma revokeSession_inv amb sid userId meta : proc_pres token_inv (revokeSession amb sid userId meta).
Proof.
  apply pres_proc_bind.
  - apply pres_transact. apply pres_bind; [by apply pres_sessions|intros _].
    apply pres_bind; [|intros _; apply pres_audit].
    apply pres_tokens; auto. intros sid' r. by rewrite usable_revoke.
  - intros _ w Hw. unfold publishChatRevocation. by destruct (CHAT_ENABLED env).
Qed.

Lemma revokeAllSessions_inv amb userId meta : proc_pres token_inv (revokeAllSessions amb userId meta).
Proof.
  apply pres_proc_bind.
  - apply pres_transact. apply pres_bind; [apply endSessions_inv|intros _; apply pres_audit].
  - intros _ w Hw. unfold publishChatRevocation. by destruct (CHAT_ENABLED env).
Qed.

(** ** Rotation *)

(** After its unrevoked tokens are revoked, a session has no usable token. *)
Lemma usable_after_revoke t sid (w : World) :
  countWhere (usable sid)
    (updateWhere (activeWhere (fun r => (rt_sessionId r === sid) && is_null (rt_revokedAt r)))
       (fun r => r <| rt_revokedAt := Some t |>) (refreshTokens w)) = 0.
Proof.
  rewrite countWhere_update_out by (intros; apply usable_revoke).
  apply countWhere_0. intros r _. unfold usable. cbn.
  destruct (rt_sessionId r === sid), (is_null (rt_revokedAt r)), (is_null (rt_deletedAt r)); cbn;
    by rewrite ?andb_false_r.
Qed.

(** Consuming the current token after its successor was added. *)
Lemma rotate_counts sid (current next : RefreshToken) ts t :
  In current ts -> usable (rt_sessionId current) current = true ->
  rt_sessionId next = rt_sessionId current ->
  (forall s, countWhere (usable s) ts <= 1) ->
  let hit r := activeWhere (fun r => (rt_id r === rt_id current) && is_null (rt_consumedAt r)
                      && is_null (rt_revokedAt r) && is_null (rt_replacedByTokenId r)) r in
  countWhere (usable sid)
    (updateWhere hit (fun r => r <| rt_consumedAt := Some t |> <| rt_replacedByTokenId := Some (rt_id next) |>)
       (ts ++ [next])%list) <= 1.
Proof.
  intros Hin Hu Hn Hone hit.
  rewrite countWhere_update_out by (intros r _; unfold usable; cbn; by rewrite !andb_false_r).
  rewrite countWhere_snoc. pose proof (Hone sid) as H1.
  rewrite (countWhere_split hit (usable sid) ts) in H1.
  destruct (usable sid next && negb (hit next)) eqn:En; [|lia].
  apply andb_true_iff in En as [En _]. unfold usable in En. bools.
  assert (0 < countWhere (fun r => usable sid r && hit r) ts); [|lia].
  apply countWhere_pos. exists current. split; [done|].
  assert (sid = rt_sessionId current) as -> by congruence. rewrite Hu.
  unfold usable in Hu. unfold hit. cbn. rewrite bd_refl.
  destruct (is_null (rt_deletedAt current)), (is_null (rt_consumedAt current)),
    (is_null (rt_revokedAt current)), (is_null (rt_replacedByTokenId current));
    rewrite ?andb_false_r in Hu; done.
Qed.

Lemma reuseDetected_inv amb meta current : tx_pres token_inv (reuseDetected amb meta current).
Proof.
  apply pres_bind; [by apply pres_sessions|intros _]. apply pres_bind; [apply revokeTokens_inv|intros _].
  apply pres_bind; [apply pres_audit|intros; apply pres_ret].
Qed.

(** What an exchange that commits did. *)
Lemma exchangeToken_ok amb nextHash current session w result w' :
  token_inv w -> In current (refreshTokens w) -> usable (rt_sessionId current) current = true ->
  exchangeToken amb nextHash current session w = Ok (result, w') ->
  exists next, rt_sessionId next = rt_sessionId current /\ rt_tokenHash next = nextHash
    /\ rt_replacedByTokenId next = None
    /\ result = ROTATED (rt_userId current) (rt_sessionId current)
    /\ existsb (clash next) (refreshTokens w) = false
    /\ refreshTokens w' = updateWhere
         (activeWhere (fun r => (rt_id r === rt_id current) && is_null (rt_consumedAt r)
              && is_null (rt_revokedAt r) && is_null (rt_replacedByTokenId r)))
         (fun r => r <| rt_consumedAt := Some (nowMs amb) |> <| rt_replacedByTokenId := Some (rt_id next) |>)
         (refreshTokens w ++ [next])%list
    /\ List.map sess_id (sessions w') = List.map sess_id (sessions w)
    /\ users w' = users w /\ auditEvents w' = auditEvents w.
Proof.
  intros Hw Hin Hu Hrun. unfold exchangeToken in Hrun. tx_inv Hrun.
  injection Hrun0 as <- <-.
  unfold tx_create in Hrun1. destruct (existsb _ _) eqn:Ec in Hrun1; [done|]. injection Hrun1 as <- <-.
  unfold tx_updateMany_unique in Hrun2. destruct (clashes _ _ _); [done|]. injection Hrun2 as Hn <-.
  match type of Hn with countWhere _ (_ ++ [?n])%list = _ => set (next := n) in * end.
  change (existsb (clash next) (refreshTokens w) = false) in Ec.
  assert (Hrow : Row rt_id current (refreshTokens w ++ [next])%list).
  { apply Row_snoc; [split; [apply Hw|done]|]. intros Hk.
    apply List.in_map_iff in Hk as (x & Hx & Hxin).
    assert (existsb (clash next) (refreshTokens w) = true); [|congruence].
    apply existsb_exists. exists x. split; [done|]. cbn. by rewrite bool_decide_true by done. }
  assert (a1 = 1) as ->.
  { rewrite <- Hn. eapply (Row_count1 rt_id); [exact Hrow|by intros x Hx; cbn in Hx; bools|].
    unfold usable in Hu. cbn. bools. rewrite bd_refl.
    repeat match goal with H : is_null _ = true |- _ => rewrite H end. done. }
  cbn [Nat.eqb negb] in Hrun. tx_inv Hrun. apply update_ok in Hrun0 as (-> & _).
  exists next. repeat (split; [done|]). split; [|done]. by apply (map_updateWhere sess_id).
Qed.

Lemma unusable_false w t current session user : token_inv w -> In current (refreshTokens w) ->
  rt_deletedAt current = None ->
  unusable t current session user = false -> usable (rt_sessionId current) current = true.
Proof.
  unfold unusable, usable. intros Hw Hin Hd Hu. rewrite bd_refl, Hd.
  pose proof (ti_replaced _ _ Hw current Hin) as Hr.
  destruct (rt_consumedAt current), (rt_revokedAt current), (rt_replacedByTokenId current); try done.
  - cbn in Hu. by rewrite orb_true_r in Hu.
  - by specialize (Hr eq_refl).
Qed.

Lemma exchangeToken_inv amb nextHash current session w result w' :
  token_inv w -> In current (refreshTokens w) -> usable (rt_sessionId current) current = true ->
  exchangeToken amb nextHash current session w = Ok (result, w') -> token_inv w'.
Proof.
  intros Hw Hin Hu Hrun.
  destruct (exchangeToken_ok _ _ _ _ _ _ _ Hw Hin Hu Hrun)
    as (next & Hns & _ & Hnr & _ & Hc & Ht & Hs & _ & _).
  unfold token_inv. rewrite Ht. destruct Hw as [Hnd Hse Hone Hre]. constructor.
  - rewrite map_updateWhere by done. rewrite List.map_app.
    apply List.NoDup_app; [done|repeat constructor; auto|]. intros k Hk [<-|[]].
    apply List.in_map_iff in Hk as (x & Hx & Hxin).
    assert (existsb (clash next) (refreshTokens w) = true); [|congruence].
    apply existsb_exists. exists x. split; [done|]. cbn. by rewrite bool_decide_true by congruence.
  - intros r Hr. rewrite Hs. apply In_updateWhere in Hr as (r0 & Hr0 & ->).
    assert (Hsame : forall b : bool, rt_sessionId (if b then r0 <| rt_consumedAt := Some (nowMs amb) |>
       <| rt_replacedByTokenId := Some (rt_id next) |> else r0) = rt_sessionId r0) by (by intros []).
    rewrite Hsame. apply in_app_or in Hr0 as [Hr0|[<-|[]]]; [auto|]. rewrite Hns. auto.
  - intros sid. by apply rotate_counts.
  - intros r Hr. apply In_updateWhere in Hr as (r0 & Hr0 & ->).
    destruct (activeWhere _ r0); [done|]. apply in_app_or in Hr0 as [Hr0|[<-|[]]]; [auto|]. by rewrite Hnr.
Qed.

Lemma rotateTransaction_inv amb hashes nextHash meta :
  tx_pres token_inv (rotateTransaction amb hashes nextHash meta).
Proof.
  intros w result w' Hw Hrun. unfold rotateTransaction in Hrun. tx_inv Hrun. tx_store.
  2: { by injection Hrun as _ <-. }
  destruct (negb _); [by injection Hrun as _ <-|]. tx_inv Hrun.
  injection Hrun0 as _ <-. injection Hrun1 as _ <-.
  destruct (unusable _ _ _ _) eqn:Eu; [by eapply reuseDetected_inv|].
  eapply exchangeToken_inv; [..|exact Hrun]; [done|done|]. by eapply unusable_false.
Qed.

Lemma rotateRefreshToken_inv amb next raw meta :
  proc_pres token_inv (rotateRefreshToken amb next raw meta).
Proof.
  unfold rotateRefreshToken. pres.
  - apply rotateTransaction_inv.
  - intros w Hw. unfold publishChatRevocation. by destruct (CHAT_ENABLED env).
Qed.

(** ** The claims *)

(** One operation on sessions, with any arguments and at any time, or anything that leaves
    sessions and refresh tokens alone. *)
Inductive session_step : World -> World -> Prop :=
  | ss_create amb raw userId meta w : session_step w (snd (createSession amb raw userId meta w))
  | ss_rotate amb next raw meta w : session_step w (snd (rotateRefreshToken amb next raw meta w))
  | ss_revoke amb sid userId meta w : session_step w (snd (revokeSession amb sid userId meta w))
  | ss_revokeAll amb userId meta w : session_step w (snd (revokeAllSessions amb userId meta w))
  | ss_end t userId reason spare w w' :
      endSessions t userId reason spare w = Ok (tt, w') -> session_step w w'
  | ss_other w w' : sessions w' = sessions w -> refreshTokens w' = refreshTokens w -> session_step w w'.

(** C5: at most one usable refresh token per session. From a database where it holds (an empty one
    for instance), after any sequence of logins, rotations (successful, replayed, failing),
    logouts and bulk revocations, no session has two refresh tokens that are unconsumed,
    unrevoked and unreplaced. *)
Theorem one_usable_token_per_session w w' sid :
  token_inv w -> rtc session_step w w' -> countWhere (usable sid) (refreshTokens w') <= 1.
Proof.
  intros Hw Hsteps. assert (Hw' : token_inv w'); [|apply Hw'].
  induction Hsteps as [|w w1 w' Hstep Hsteps IH]; [done|]. apply IH. destruct Hstep.
  - by apply createSession_inv.
  - by apply rotateRefreshToken_inv.
  - by apply revokeSession_inv.
  - by apply revokeAllSessions_inv.
  - by eapply endSessions_inv.
  - match goal with H1 : sessions _ = _, H2 : refreshTokens _ = _ |- _ =>
      unfold token_inv; rewrite H1, H2; exact Hw end.
Qed.

(** The session ended: no usable token and no unrevoked row. *)
Definition sessionEnded (sid : string) (w : World) : Prop :=
  countWhere (usable sid) (refreshTokens w) = 0
  /\ forall s, In s (sessions w) -> sess_id s = sid -> sess_deletedAt s = None -> is_set (sess_revokedAt s) = true.

(** The lookup a rotation starts with. *)
Definition findToken (hashes : list string) (w : World) : option RefreshToken :=
  findFirst (activeWhere (fun r => existsb (String.eqb (rt_tokenHash r)) hashes)) (refreshTokens w).

Lemma findToken_matches hashes w r : findToken hashes w = Some r ->
  In r (refreshTokens w) /\ rt_deletedAt r = None /\ existsb (constantTimeEqual (rt_tokenHash r)) hashes = true.
Proof.
  intros Hf. apply findFirst_Some in Hf as [Hin Hp]. apply andb_true_iff in Hp as [Hd Hp].
  split; [done|]. split; [by destruct (rt_deletedAt r) eqn:E; cbn in Hd; rewrite ?E in Hd|].
  apply existsb_exists in Hp as (h & Hh & He). apply existsb_exists. exists h. split; [done|].
  apply String.eqb_eq in He. subst. unfold constantTimeEqual. rewrite Nat.eqb_refl. apply bd_refl.
Qed.

Lemma reuse_runs amb meta current w : keyringValid -> auditFresh w ->
  exists w', reuseDetected amb meta current w = Ok (REUSE (rt_userId current), w')
    /\ sessionEnded (rt_sessionId current) w'.
Proof.
  intros Hk Hf. unfold reuseDetected. rewrite (tx_step _ _ _ _ _ eq_refl).
  rewrite (tx_step _ _ _ _ _ eq_refl).
  match goal with |- context [(writeAuditEvent _ ?i ≫= _) ?s] =>
    destruct (writeAuditEvent_runs amb i s Hk Hf) as [row Hrow] end.
  rewrite (tx_step _ _ _ _ _ Hrow). eexists. split; [reflexivity|]. split; [apply usable_after_revoke|].
  intros s Hs Hid Hd. apply In_updateWhere in Hs as (s0 & Hs0 & ->).
  destruct (activeWhere _ s0) eqn:E; [done|]. cbn in E. rewrite Hid, Hd, bd_refl in E.
  by destruct (sess_revokedAt s0).
Qed.

(** A known token that may not be exchanged ends its session. *)
Lemma rotate_unusable amb next raw meta w hashes current session user :
  keyringValid -> auditFresh w ->
  candidateOpaqueTokenHashes raw = Ok hashes -> findToken hashes w = Some current ->
  findFirst (fun s => sess_id s === rt_sessionId current) (sessions w) = Some session ->
  findFirst (fun u => user_id u === rt_userId current) (users w) = Some user ->
  unusable (nowMs amb) current session user = true ->
  exists w', rotateRefreshToken amb next raw meta w = (Ok None, w')
    /\ sessionEnded (rt_sessionId current) w'.
Proof.
  intros Hk Hf Hh Hfind Hs Hu Hun.
  destruct (findToken_matches _ _ _ Hfind) as (Hin & Hd & Hct).
  destruct (hashOpaqueToken_total next Hk) as [nh Hnh].
  destruct (reuse_runs amb meta current w Hk Hf) as (w' & Hrun & Hend).
  unfold rotateRefreshToken.
  rewrite (proc_step _ _ _ hashes w) by (unfold tx_lift; by rewrite Hh).
  rewrite (proc_step _ _ _ nh w) by (unfold tx_lift; by rewrite Hnh).
  rewrite (proc_step _ _ _ (REUSE (rt_userId current)) w').
  - unfold publishChatRevocation, mbind, proc_bind. destruct (CHAT_ENABLED env); by eexists.
  - unfold rotateTransaction. rewrite (tx_step _ _ _ (Some current) w) by (unfold tx_findFirst; by f_equal; f_equal).
    rewrite Hct. cbn [negb].
    rewrite (tx_step _ _ _ (Some session) w) by (unfold tx_findFirst_raw; by f_equal; f_equal).
    rewrite (tx_step _ _ _ session w) by done.
    rewrite (tx_step _ _ _ (Some user) w) by (unfold tx_findFirst_raw; by f_equal; f_equal).
    rewrite (tx_step _ _ _ user w) by done. by rewrite Hun.
Qed.

Lemma rotate_ok_inv amb next raw meta w pair w1 :
  rotateRefreshToken amb next raw meta w = (Ok (Some pair), w1) ->
  exists hashes current session user nextHash,
    candidateOpaqueTokenHashes raw = Ok hashes /\ findToken hashes w = Some current
    /\ findFirst (fun s => sess_id s === rt_sessionId current) (sessions w) = Some session
    /\ findFirst (fun u => user_id u === rt_userId current) (users w) = Some user
    /\ unusable (nowMs amb) current session user = false
    /\ exists userId sid, exchangeToken amb nextHash current session w = Ok (ROTATED userId sid, w1).
Proof.
  intros Hrun. unfold rotateRefreshToken in Hrun.
  apply proc_bind_ok in Hrun as (hashes & w2 & H1 & Hrun). apply transact_ok, lift_ok in H1 as [H1 ->].
  apply proc_bind_ok in Hrun as (nextHash & w3 & H2 & Hrun). apply transact_ok, lift_ok in H2 as [H2 ->].
  apply proc_bind_ok in Hrun as (result & w4 & H3 & Hrun). apply transact_ok in H3.
  destruct result as [|userId|userId sid].
  - by injection Hrun.
  - apply proc_bind_ok in Hrun as (? & ? & _ & Hrun). by injection Hrun.
  - injection Hrun as _ <-. rename H3 into Hrot. unfold rotateTransaction in Hrot. tx_inv Hrot.
    injection Hrot0 as Hf <-. destruct a as [current|]; [|by injection Hrot].
    destruct (negb _); [by injection Hrot|]. tx_inv Hrot.
    injection Hrot0 as Hs <-. injection Hrot1 as Hu <-.
    destruct (unusable _ _ _ _) eqn:Eun.
    { unfold reuseDetected in Hrot. tx_inv Hrot. }
    eexists hashes, current, _, _, nextHash. split; [done|]. split; [exact Hf|]. split; [exact Hs|]. split; [exact Hu|]. eauto.
Qed.

(** C6: replay detection. Once a refresh token has been exchanged, presenting the same token again
    (a thief's copy, or the victim's after the thief used it) yields no tokens and ends the whole
    session: its row is revoked and none of its refresh tokens, the one just issued included, is
    usable any more. *)
Theorem refresh_replay_ends_session amb amb2 next next2 raw meta meta2 w w1 pair :
  keyringValid -> token_inv w -> auditFresh w1 ->
  rotateRefreshToken amb next raw meta w = (Ok (Some pair), w1) ->
  exists current w2,
    In current (refreshTokens w) /\ usable (rt_sessionId current) current = true
    /\ rotateRefreshToken amb2 next2 raw meta2 w1 = (Ok None, w2)
    /\ sessionEnded (rt_sessionId current) w2.
Proof.
  intros Hk Hw Hf Hrun.
  apply rotate_ok_inv in Hrun as (hashes & current & session & user & nh & Hh & Hfind & Hs & Hu & Hun & uid & sid & Hex).
  destruct (findToken_matches _ _ _ Hfind) as (Hin & Hd & _).
  pose proof (unusable_false _ _ _ _ _ Hw Hin Hd Hun) as Hus.
  destruct (exchangeToken_ok _ _ _ _ _ _ _ Hw Hin Hus Hex)
    as (nx & Hns & _ & _ & _ & _ & Ht & Hsm & Hum & _).
  set (current' := current <| rt_consumedAt := Some (nowMs amb) |> <| rt_replacedByTokenId := Some (rt_id nx) |>).
  assert (Hfind1 : findToken hashes w1 = Some current').
  { unfold findToken. rewrite Ht, findFirst_updateWhere by done.
    rewrite (findFirst_app_some _ _ _ _ Hfind). cbn [fmap option_fmap option_map].
    replace (activeWhere _ current) with true; [done|]. symmetry.
    unfold usable in Hus. cbn. rewrite bd_refl. bools.
    repeat match goal with H : is_null _ = true |- _ => rewrite H end. done. }
  assert (Hsess : exists session1, findFirst (fun s => sess_id s === rt_sessionId current') (sessions w1) = Some session1).
  { apply findFirst_Some in Hs as [Hsin Hsid]. bools.
    assert (Hm : In (rt_sessionId current) (List.map sess_id (sessions w1))).
    { rewrite Hsm, <- Hsid. by apply List.in_map. }
    apply List.in_map_iff in Hm as (x & Hx & Hxin).
    apply (findFirst_is_Some _ _ x); [done|]. apply bool_decide_true. done. }
  destruct Hsess as [session1 Hs1].
  destruct (rotate_unusable amb2 next2 raw meta2 w1 hashes current' session1 user Hk Hf Hh Hfind1 Hs1)
    as (w2 & Hr2 & Hend); [by rewrite Hum|done|].
  exists current, w2. done.
Qed.

(** an unusable token is never exchanged. A refresh token that is known but expired, consumed,
    replaced or revoked, whose session is revoked or expired, or whose user is not active, yields
    no tokens, and the session it belongs to is ended. *)
Theorem unusable_token_ends_session amb next raw meta w hashes current session user :
  keyringValid -> auditFresh w ->
  candidateOpaqueTokenHashes raw = Ok hashes -> findToken hashes w = Some current ->
  findFirst (fun s => sess_id s === rt_sessionId current) (sessions w) = Some session ->
  findFirst (fun u => user_id u === rt_userId current) (users w) = Some user ->
  rt_consumedAt current <> None \/ rt_revokedAt current <> None \/ (rt_expiresAt current <= nowMs amb)%Z
  \/ sess_revokedAt session <> None \/ (sess_expiresAt session <= nowMs amb)%Z
  \/ user_status user <> User_ACTIVE \/ user_deletedAt user <> None ->
  exists w', rotateRefreshToken amb next raw meta w = (Ok None, w')
    /\ sessionEnded (rt_sessionId current) w'.
Proof.
  intros Hk Hf Hh Hfind Hs Hu Hwhy. eapply rotate_unusable; eauto. unfold unusable.
  repeat destruct Hwhy as [Hwhy|Hwhy].
  - destruct (rt_consumedAt current); done.
  - destruct (rt_revokedAt current); [|done]. cbn. by rewrite !orb_true_r.
  - apply Z.leb_le in Hwhy. rewrite Hwhy. by rewrite !orb_true_r.
  - destruct (sess_revokedAt session); [|done]. cbn. by rewrite !orb_true_r.
  - apply Z.leb_le in Hwhy. rewrite Hwhy. by rewrite !orb_true_r.
  - rewrite (bd_ne _ _ Hwhy). cbn. by rewrite !orb_true_r.
  - destruct (user_deletedAt user); [|done]. cbn. by rewrite !orb_true_r.
Qed.

(** ending a user's sessions. The statements behind logout-everywhere, password reset, password
    change and account deletion leave the user no live session and no usable refresh token, except
    in the spared session, whose rows are untouched. *)
Theorem endSessions_ends t userId reason spare w w' :
  endSessions t userId reason spare w = Ok (tt, w') ->
  (forall s, In s (sessions w') -> sess_userId s = userId -> sess_deletedAt s = None ->
     spare <> Some (sess_id s) -> is_set (sess_revokedAt s) = true)
  /\ (forall r, In r (refreshTokens w') -> rt_userId r = userId -> spare <> Some (rt_sessionId r) ->
       usable (rt_sessionId r) r = false)
  /\ (forall k, spare = Some k ->
       List.filter (fun s => sess_id s === k) (sessions w') = List.filter (fun s => sess_id s === k) (sessions w)
       /\ List.filter (fun r => rt_sessionId r === k) (refreshTokens w')
          = List.filter (fun r => rt_sessionId r === k) (refreshTokens w)).
Proof.
  intros Hrun. unfold endSessions in Hrun. tx_inv Hrun. tx_store. split; [|split].
  - intros s Hs Hu Hd Hne. apply In_updateWhere in Hs as (s0 & Hs0 & ->).
    destruct (activeWhere _ s0) eqn:E; [done|]. cbn in E. rewrite Hu, Hd, bd_refl in E.
    destruct (sess_revokedAt s0); [done|]. destruct spare as [k|]; [|done].
    cbn in E. rewrite bd_ne in E; [done|congruence].
  - intros r Hr Hu Hne. apply In_updateWhere in Hr as (r0 & Hr0 & ->).
    destruct (activeWhere _ r0) eqn:E; [apply usable_revoke|]. unfold usable. cbn in E.
    rewrite Hu, bd_refl in E. destruct (rt_deletedAt r0), (rt_revokedAt r0); rewrite ?andb_false_r; try done.
    destruct spare as [k|]; [|done]. cbn in E. rewrite bd_ne in E; [done|congruence].
  - intros k ->. split; apply filter_updateWhere_same; intros x Hx; cbn in Hx; bools; split;
      cbn; by rewrite bd_ne.
Qed.
End Invariant.

(** ** Witnesses *)

Definition demoUser : User :=
  mkUser "u1" (Some "a@example.com") None (Some "argon:Passw0rd!") None "en" None None 0 User_ACTIVE
    (Some 1%Z) None None 0 None.
Definition demoMetadata : RequestMetadata := mkMetadata "10.0.0.1" (Some "curl") "req".
Definition demoNow : Ambient := mkAmbient 5000 (Some (Request "req" None None)).
Definition userWorld : World := emptyWorld <| users := [demoUser] |>.
(** A login, then the exchange of its token. *)
Definition loggedIn : World := snd (@createSession demoPlatform demoNow "tok-0" "u1" demoMetadata userWorld).
Definition rotated : World := snd (@rotateRefreshToken demoPlatform demoNow "tok-1" "tok-0" demoMetadata loggedIn).

Lemma token_inv_users : token_inv userWorld.
Proof. constructor; cbn; [constructor|intros ? []|intros; cbv; lia|intros ? []]. Qed.

Lemma token_inv_loggedIn : token_inv loggedIn.
Proof. apply (@createSession_inv demoPlatform), token_inv_users. Qed.

Lemma one_usable_token_per_session_witness :
  token_inv userWorld /\ rtc (@session_step demoPlatform) userWorld rotated
  /\ countWhere (usable "id-0") (refreshTokens rotated) <= 1
  /\ countWhere (usable "id-0") (refreshTokens rotated) = 1.
Proof.
  assert (Hsteps : rtc (@session_step demoPlatform) userWorld rotated).
  { apply (rtc_l _ userWorld loggedIn rotated).
    - exact (ss_create demoNow "tok-0" "u1" demoMetadata userWorld).
    - apply rtc_once. exact (ss_rotate demoNow "tok-1" "tok-0" demoMetadata loggedIn). }
  split; [exact token_inv_users|]. split; [exact Hsteps|]. split; [|vm_compute; reflexivity].
  exact (@one_usable_token_per_session demoPlatform userWorld rotated "id-0" token_inv_users Hsteps).
Defined.

Lemma refresh_replay_ends_session_witness :
  exists current w2, In current (refreshTokens loggedIn) /\ rt_sessionId current = "id-0"
    /\ @rotateRefreshToken demoPlatform demoNow "tok-2" "tok-0" demoMetadata rotated = (Ok None, w2)
    /\ sessionEnded "id-0" w2.
Proof.
  assert (Hrun : exists pair, @rotateRefreshToken demoPlatform demoNow "tok-1" "tok-0" demoMetadata loggedIn
                              = (Ok (Some pair), rotated))
    by (eexists; vm_compute; reflexivity).
  destruct Hrun as [pair Hrun].
  assert (Hfresh : @auditFresh demoPlatform rotated).
  { apply auditFreshb_ok. vm_compute. reflexivity. }
  destruct (@refresh_replay_ends_session demoPlatform demoNow demoNow "tok-1" "tok-2" "tok-0" demoMetadata
              demoMetadata loggedIn rotated pair demo_keyringValid token_inv_loggedIn Hfresh Hrun)
    as (current & w2 & Hin & _ & Hrun2 & Hend).
  assert (Hsid : rt_sessionId current = "id-0").
  { assert (Hall : forallb (fun r => String.eqb (rt_sessionId r) "id-0") (refreshTokens loggedIn) = true)
      by (vm_compute; reflexivity).
    rewrite forallb_forall in Hall. apply String.eqb_eq. exact (Hall current Hin). }
  exists current, w2. rewrite <- Hsid. auto.
Defined.

Lemma unusable_token_ends_session_witness :
  exists w', @rotateRefreshToken demoPlatform (demoNow <| nowMs := 9000000000000%Z |>) "tok-1" "tok-0"
               demoMetadata loggedIn = (Ok None, w')
    /\ sessionEnded "id-0" w'.
Proof.
  assert (Hf : exists hashes current session, @candidateOpaqueTokenHashes demoPlatform "tok-0" = Ok hashes
     /\ findToken hashes loggedIn = Some current /\ rt_sessionId current = "id-0"
     /\ (rt_expiresAt current <= 9000000000000)%Z
     /\ findFirst (fun s => sess_id s === rt_sessionId current) (sessions loggedIn) = Some session
     /\ exists user, findFirst (fun u => user_id u === rt_userId current) (users loggedIn) = Some user).
  { eexists _, _, _. split; [vm_compute; reflexivity|]. split; [vm_compute; reflexivity|].
    split; [reflexivity|]. split; [vm_compute; discriminate|].
    split; [vm_compute; reflexivity|]. eexists. vm_compute. reflexivity. }
  destruct Hf as (hashes & current & session & Hh & Hfind & Hsid & Hexp & Hs & user & Hu).
  rewrite <- Hsid.
  apply (@unusable_token_ends_session demoPlatform (demoNow <| nowMs := 9000000000000%Z |>) "tok-1" "tok-0"
           demoMetadata loggedIn hashes current session user); auto.
  - exact demo_keyringValid.
  - apply auditFreshb_ok. vm_compute. reflexivity.
Defined.

Lemma endSessions_ends_witness :
  exists w', endSessions 6000 "u1" "password_reset" None loggedIn = Ok (tt, w')
    /\ forall s, In s (sessions w') -> sess_userId s = "u1" -> sess_deletedAt s = None ->
         is_set (sess_revokedAt s) = true.
Proof.
  destruct (endSessions 6000 "u1" "password_reset" None loggedIn) as [[[] w']|] eqn:E; [|discriminate E].
  exists w'. split; [reflexivity|]. intros s Hs Hu Hd.
  apply (endSessions_ends 6000 "u1" "password_reset" None loggedIn w' E); auto.
Defined.
