(* ===== verification/Outbox.v ===== *)
(** * The transactional outbox

    modules/outbox/outbox.policy.ts, outbox.service.ts (writing and redriving events) and
    outbox.relay.ts (claiming, enqueueing). The delivery side, queues/notification.worker.ts, is in
    Worker.v. *)

From Stdlib Require Import ZArith Lia Bool Permutation.
From S2P Require Import Prelude Store Database JsString Platform Request TenantScope AuditTrail Pagination.

Open Scope string_scope.

(** ** outbox.policy.ts *)

Definition OUTBOX_MAX_DELIVERY_ATTEMPTS : Z := 5.

Inductive DeliveryFailureDisposition := RETRY | DEAD_LETTER.
#[export] Instance DeliveryFailureDisposition_eq_dec : EqDecision DeliveryFailureDisposition.
Proof. solve_decision. Defined.

Definition deliveryFailureDisposition (attemptsMadeBeforeCurrentAttempt : Z)
    (configuredAttempts : option Z) : DeliveryFailureDisposition :=
  (let maximumAttempts := Z.max 1 (configuredAttempts ??? 1) in
   if maximumAttempts <=? attemptsMadeBeforeCurrentAttempt + 1 then DEAD_LETTER else RETRY)%Z.

Definition outboxJobId (outboxId : string) (deliveryGeneration : Z) : string :=
  "outbox-" ++ outboxId ++ "-" ++ show deliveryGeneration.

(** ** outbox.service.ts *)

Record OutboxInput := mkOutboxInput {
  oi_aggregateType : string; oi_aggregateId : string; oi_eventType : string;
  oi_channel : NotificationChannel; oi_payload : Json; oi_dedupeKey : string;
  oi_availableAt : option Z; oi_expiresAt : option Z
}.

Section Outbox.
Context `{Platform}.

(** The relay nudge that follows is a hint over Redis; the poll is what delivers. *)
Definition addOutboxEvent (amb : Ambient) (input : OutboxInput) : Tx World unit :=
  id ← newId;
  _ ← tx_create (mkOutboxEvent id (oi_aggregateType input) (oi_aggregateId input)
        (oi_eventType input) (oi_channel input) (oi_payload input) (oi_dedupeKey input)
        Ob_PENDING 0 0 (oi_availableAt input ??? nowMs amb) (oi_expiresAt input)
        None None None None None None None None (nowMs amb) (nowMs amb) None);
  mret tt.

Definition redriveDeadLetterEvent (amb : Ambient) (id actorUserId : string)
    (metadata : RequestMetadata) : Tx World OutboxEvent :=
  existing ← tx_findFirst (fun e => (ob_id e === id) && is_null (ob_deletedAt e));
  existing ← tx_require existing (errors.notFound "Outbox event not found");
  tx_guard (ob_status existing === Ob_DEAD_LETTER)
    (errors.conflict "Only dead-lettered outbox events can be redriven");;
  tx_guard (negb (opt_le (ob_expiresAt existing) (nowMs amb)))
    (errors.conflict "Expired outbox events cannot be redriven");;
  reset ← tx_updateMany
    (fun e => (ob_id e === id) && (ob_status e === Ob_DEAD_LETTER)
              && (ob_deliveryGeneration e === ob_deliveryGeneration existing))
    (fun e => e <| ob_status := Ob_PENDING |> <| ob_attempts := 0%Z |>
                <| ob_deliveryGeneration ::= Z.add 1 |> <| ob_availableAt := nowMs amb |>
                <| ob_claimedAt := None |> <| ob_claimExpiresAt := None |>
                <| ob_claimToken := None |> <| ob_enqueuedAt := None |>
                <| ob_deliveredAt := None |> <| ob_failedAt := None |>
                <| ob_deadLetteredAt := None |> <| ob_lastError := None |>
                <| ob_updatedAt := nowMs amb |>);
  tx_guard (reset =? 1)%nat (errors.conflict "Outbox event state changed; retry the request");;
  writeAuditEvent amb (mkAuditInput (Some actorUserId) "outbox.dead_letter.redriven"
    "outbox_event" (Some id) (Some (meta_requestId metadata)) (Some (meta_ip metadata))
    (meta_userAgent metadata)
    (Some (JObj [("previousGeneration", JNum (ob_deliveryGeneration existing))])));;
  event ← tx_findFirst (fun e => ob_id e === id);
  tx_require event (Known "P2025").

(** [orderBy: [{ deadLetteredAt: 'desc' }, { id: 'desc' }]]: PostgreSQL puts NULL first. *)
Definition deadLetterOrder (events : list OutboxEvent) : list OutboxEvent :=
  (orderDescId (fun _ => 0%Z) ob_id (List.filter (fun e => is_null (ob_deadLetteredAt e)) events)
   ++ orderDescId (fun e => ob_deadLetteredAt e ??? 0%Z) ob_id (List.filter (fun e => is_set (ob_deadLetteredAt e)) events))%list.
Definition listDeadLetterEvents (input : CursorPaginationInput) : Proc World (CursorPage OutboxEvent) :=
  paginateCursor ob_id input (fun pagination => transact (
    rows ← tx_findMany (fun e => (ob_status e === Ob_DEAD_LETTER) && is_null (ob_deletedAt e));
    mret (fetchRows ob_id (deadLetterOrder rows) pagination))).

(** ** outbox.relay.ts *)

Definition OUTBOX_BATCH_SIZE : nat := 100.
Definition OUTBOX_CLAIM_LEASE_MS : Z := 30000.
Definition OUTBOX_MAX_BATCHES_PER_TICK : nat := 10.
Definition OUTBOX_ENQUEUE_RETRY_DELAY_MS : Z := 5000.

(** The candidates' condition of the claim query. *)
Definition claimable (t : Z) (e : OutboxEvent) : bool :=
  is_null (ob_deletedAt e) && (ob_availableAt e <=? t)%Z
  && (is_null (ob_expiresAt e) || negb (opt_le (ob_expiresAt e) t))
  && ((ob_status e === Ob_PENDING)
      || ((ob_status e === Ob_CLAIMED) && opt_le (ob_claimExpiresAt e) t)).

Definition claimed (t : Z) (token : string) (e : OutboxEvent) : OutboxEvent :=
  e <| ob_status := Ob_CLAIMED |> <| ob_claimedAt := Some t |>
    <| ob_claimExpiresAt := Some (t + OUTBOX_CLAIM_LEASE_MS)%Z |>
    <| ob_claimToken := Some token |> <| ob_updatedAt := t |>.

(** [ORDER BY "createdAt" LIMIT batchSize]: the identifiers the update joins with. *)
Definition candidateIds (batchSize : nat) (t : Z) (events : list OutboxEvent) : list string :=
  List.map ob_id (firstn batchSize (orderByAsc ob_createdAt (findMany (claimable t) events))).

(** The claim statement: update the candidates, return the updated rows. *)
Definition claimStatement (t : Z) (batchSize : nat) (claimToken : string) : Tx World (list OutboxEvent) :=
  fun w =>
    let ids := candidateIds batchSize t (outboxEvents w) in
    let hit e := mem (ob_id e) ids in
    Ok (List.map (claimed t claimToken) (findMany hit (outboxEvents w)),
        put (updateWhere hit (claimed t claimToken)) w).

Definition claimOutboxBatch (amb : Ambient) (batchSize : nat) : Tx World (list OutboxEvent) :=
  claimToken ← newId;
  claimStatement (nowMs amb) batchSize claimToken.

Definition releaseClaimAfterEnqueueFailure (amb : Ambient) (event : OutboxEvent) (error : Error)
    : Tx World unit :=
  _ ← tx_updateMany
    (fun e => (ob_id e === ob_id event) && (ob_status e === Ob_CLAIMED)
              && (ob_claimToken e === ob_claimToken event))
    (fun e => e <| ob_status := Ob_PENDING |>
                <| ob_availableAt := (nowMs amb + OUTBOX_ENQUEUE_RETRY_DELAY_MS)%Z |>
                <| ob_claimedAt := None |> <| ob_claimExpiresAt := None |>
                <| ob_claimToken := None |>
                <| ob_lastError := Some (take_str 2000 (errorMessage error)) |>
                <| ob_updatedAt := nowMs amb |>);
  mret tt.

Definition markEnqueued (amb : Ambient) (event : OutboxEvent) : Tx World unit :=
  _ ← tx_updateMany
    (fun e => (ob_id e === ob_id event) && (ob_status e === Ob_CLAIMED)
              && (ob_claimToken e === ob_claimToken event))
    (fun e => e <| ob_status := Ob_ENQUEUED |> <| ob_enqueuedAt := Some (nowMs amb) |>
                <| ob_claimedAt := None |> <| ob_claimExpiresAt := None |>
                <| ob_claimToken := None |> <| ob_lastError := None |>
                <| ob_updatedAt := nowMs amb |>);
  mret tt.
End Outbox.

(** A job of a notification queue (queues/notification.queue.ts): [attempts] is the option the
    queue stamps on it, [attemptsMade] what BullMQ counts. *)
Record Job := mkJob {
  job_id : string; job_queue : NotificationChannel; job_outboxId : string; job_generation : Z;
  job_attempts : option Z; job_attemptsMade : Z
}.
#[export] Instance Job_eta : Eta Job := fun r =>
  mkJob (job_id r) (job_queue r) (job_outboxId r) (job_generation r) (job_attempts r) (job_attemptsMade r).

(** The relay works on the database and the queues. *)
Record System := mkSystem { db : World; queues : list Job }.
#[export] Instance System_eta : Eta System := fun r => mkSystem (db r) (queues r).

(** A database transaction of the system. *)
Definition sys {A} (m : Tx World A) : Proc System A := fun s =>
  match m (db s) with Ok (a, w) => (Ok a, s <| db := w |>) | Err e => (Err e, s) end.

Section Relay.
Context `{Platform}.

(** BullMQ's [Queue.add]: may fail, in which case nothing was added. *)
Variable add : Job -> list Job -> res (list Job).

Definition queueAdd (event : OutboxEvent) : Proc System unit := fun s =>
  match add (mkJob (outboxJobId (ob_id event) (ob_deliveryGeneration event)) (ob_channel event)
               (ob_id event) (ob_deliveryGeneration event) (Some OUTBOX_MAX_DELIVERY_ATTEMPTS) 0)
            (queues s) with
  | Ok q => (Ok tt, s <| queues := q |>)
  | Err e => (Err e, s)
  end.

Definition enqueueClaimedEvent (amb : Ambient) (event : OutboxEvent) : Proc System unit :=
  if negb (truthy (ob_claimToken event)) then
    throw (Failure ("Outbox event " ++ ob_id event ++ " is missing its claim token"))
  else
    try_catch
      (queueAdd event;; sys (markEnqueued amb event))
      (fun error => sys (releaseClaimAfterEnqueueFailure amb event error);; throw error).

(** [Promise.allSettled]: a failure of one event is logged, the others go on. *)
Fixpoint enqueueAll (amb : Ambient) (events : list OutboxEvent) : Proc System unit :=
  match events with
  | [] => mret tt
  | event :: rest => try_catch (enqueueClaimedEvent amb event) (fun _ => mret tt);; enqueueAll amb rest
  end.

Definition relayOutboxBatch (amb : Ambient) (batchSize : nat) : Proc System nat :=
  events ← sys (claimOutboxBatch amb batchSize);
  enqueueAll amb events;;
  mret (length events).

(** The batch loop of [relayAvailableOutbox]; [relaying] is the module's re-entrancy flag. *)
Fixpoint relayBatches (amb : Ambient) (batches : nat) : Proc System nat :=
  match batches with
  | 0 => mret 0
  | S batches' =>
      count ← relayOutboxBatch amb OUTBOX_BATCH_SIZE;
      if (count <? OUTBOX_BATCH_SIZE)%nat then mret count
      else total ← relayBatches amb batches'; mret (count + total)
  end.

Definition relayAvailableOutbox (relaying : bool) (amb : Ambient) : Proc System nat :=
  if relaying then mret 0
  else withoutTenantScope "outbox-relay"
         (fun amb => relayBatches amb OUTBOX_MAX_BATCHES_PER_TICK) amb.
End Relay.
