(* ===== verification/Otp.v ===== *)
(** * One-time passwords

    modules/auth/auth.policy.ts and auth.otp.service.ts. The random code, the argon2 salt and the
    encryption vector a handler draws are its arguments. *)

From Stdlib Require Import ZArith Lia Bool.
From S2P Require Import Prelude Store Database JsString Platform Request AuditTrail Tenancy Sessions Outbox.

Open Scope string_scope.

(** ** auth.policy.ts *)

Inductive VerificationTransition := ACTIVATE | VERIFY_ONLY | BLOCKED.
#[export] Instance VerificationTransition_eq_dec : EqDecision VerificationTransition.
Proof. solve_decision. Defined.

Definition requiredOtpUserStatus (purpose : OtpPurpose) : UserStatus :=
  if (purpose === Otp_LOGIN) || (purpose === Otp_PASSWORD_RESET) then User_ACTIVE else User_PENDING.

Definition verificationTransition (status : UserStatus) : VerificationTransition :=
  if status === User_PENDING then ACTIVATE
  else if status === User_ACTIVE then VERIFY_ONLY
  else BLOCKED.

(** ** Names as the payloads and audit metadata spell them *)

Definition purposeName (p : OtpPurpose) : string :=
  match p with
  | Otp_SIGNUP => "SIGNUP" | Otp_LOGIN => "LOGIN" | Otp_VERIFY_EMAIL => "VERIFY_EMAIL"
  | Otp_VERIFY_PHONE => "VERIFY_PHONE" | Otp_PASSWORD_RESET => "PASSWORD_RESET"
  | Otp_EMAIL_CHANGE => "EMAIL_CHANGE"
  end.
Definition channelName (c : OtpChannel) : string :=
  match c with OtpC_EMAIL => "EMAIL" | OtpC_SMS => "SMS" end.
Definition statusName (s : UserStatus) : string :=
  match s with
  | User_PENDING => "PENDING" | User_ACTIVE => "ACTIVE"
  | User_SUSPENDED => "SUSPENDED" | User_DISABLED => "DISABLED"
  end.
Definition notificationChannel (c : OtpChannel) : NotificationChannel :=
  match c with OtpC_EMAIL => Ch_EMAIL | OtpC_SMS => Ch_SMS end.

(** What a handler draws to issue a code: the random word, the salt and the vector. *)
Record OtpDraw := mkOtpDraw { draw_word : Z; draw_salt : string; draw_iv : string }.

Section Otp.
Context `{Platform}.

Definition OTP_MAX_ATTEMPTS : Z := 5.
Definition OTP_TTL : Z := 5 * 60000.

(** A challenge, its outbox event: the block [sendOtp], [sendPhoneVerification], registration,
    password reset and email change share. *)
Definition createChallenge (amb : Ambient) (draw : OtpDraw) (userId : string) (destination : string)
    (channel : OtpChannel) (purpose : OtpPurpose) (dedupeSuffix : string) : Tx World OtpChallenge :=
  let code := randomOtp (draw_word draw) in
  id ← newId;
  challenge ← tx_create (mkOtpChallenge id (Some userId) destination channel purpose
    (hashSecret (draw_salt draw) code) 0 OTP_MAX_ATTEMPTS (nowMs amb) (nowMs amb + OTP_TTL)%Z
    None None None (nowMs amb) None);
  encryptedCode ← tx_lift (encryptSecret (draw_iv draw) code);
  addOutboxEvent amb (mkOutboxInput "otp_challenge" (otp_id challenge) "auth.otp"
    (notificationChannel channel)
    (JObj [("challengeId", JStr (otp_id challenge)); ("destination", JStr destination);
           ("encryptedCode", JStr encryptedCode); ("purpose", JStr (purposeName purpose))])
    ("otp:" ++ otp_id challenge ++ ":" ++ dedupeSuffix) None
    (Some (otp_expiresAt challenge)));;
  mret challenge.

(** Raw SQL: no soft-delete filter is added, the statement has its own. *)
Definition recordInvalidOtpAttempt (amb : Ambient) (challengeId : string) : Tx World unit :=
  _ ← tx_updateMany_raw
    (fun c => (otp_id c === challengeId) && (otp_attempts c <? otp_maxAttempts c)%Z
              && is_null (otp_consumedAt c) && is_null (otp_verifiedAt c) && is_null (otp_lockedAt c)
              && is_null (otp_deletedAt c) && (nowMs amb <? otp_expiresAt c)%Z)
    (fun c => c <| otp_attempts ::= Z.add 1 |>
                <| otp_lockedAt := if (otp_maxAttempts c <=? otp_attempts c + 1)%Z
                                   then Some (nowMs amb) else otp_lockedAt c |>);
  mret tt.

Record OtpInput := mkOtpInput {
  oin_destination : string; oin_channel : OtpChannel; oin_purpose : OtpPurpose
}.

Definition otpDestination (input : OtpInput) : string :=
  if oin_channel input === OtpC_EMAIL then normalizeEmail (oin_destination input)
  else oin_destination input.

Definition sendOtp (amb : Ambient) (draw : OtpDraw) (input : OtpInput) (metadata : RequestMetadata)
    : Proc World unit :=
  let destination := otpDestination input in
  user ← transact (tx_findFirst (fun u =>
    (if oin_channel input === OtpC_EMAIL then user_email u === Some destination
     else user_phone u === Some destination)
    && (user_status u === requiredOtpUserStatus (oin_purpose input)) && is_null (user_deletedAt u)));
  match user with
  | None => mret tt
  | Some user =>
      recentlySent ← transact (tx_findFirst (fun c =>
        (otp_normalizedDestination c === destination) && (otp_purpose c === oin_purpose input)
        && (otp_channel c === oin_channel input) && (nowMs amb - 60000 <=? otp_sentAt c)%Z
        && is_null (otp_consumedAt c) && is_null (otp_lockedAt c)));
      match recentlySent with
      | Some _ => mret tt
      | None =>
          transact (
            challenge ← createChallenge amb draw (user_id user) destination (oin_channel input)
              (oin_purpose input) (toLowerCase (channelName (oin_channel input)));
            writeAuditEvent amb (auditMetadata metadata (Some (user_id user)) "auth.otp.sent"
              "otp_challenge" (Some (otp_id challenge))
              (Some (JObj [("channel", JStr (channelName (oin_channel input)));
                           ("purpose", JStr (purposeName (oin_purpose input)))]))))
      end
  end.

Definition sendPhoneVerification (amb : Ambient) (draw : OtpDraw) (userId destination : string)
    (metadata : RequestMetadata) : Proc World unit :=
  eligible ← transact (tx_findFirst (fun u =>
    (user_id u === userId) && (user_status u === User_ACTIVE) && is_null (user_deletedAt u)));
  match eligible with
  | None => mret tt
  | Some _ =>
      recent ← transact (tx_findFirst (fun c =>
        (otp_userId c === Some userId) && (otp_normalizedDestination c === destination)
        && (otp_channel c === OtpC_SMS) && (otp_purpose c === Otp_VERIFY_PHONE)
        && (nowMs amb - 60000 <=? otp_sentAt c)%Z
        && is_null (otp_consumedAt c) && is_null (otp_lockedAt c)));
      match recent with
      | Some _ => mret tt
      | None =>
          transact (
            _ ← createChallenge amb draw userId destination OtpC_SMS Otp_VERIFY_PHONE "sms";
            writeAuditEvent amb (auditMetadata metadata (Some userId) "auth.phone_verification.sent"
              "user" (Some userId) None))
      end
  end.

Inductive VerifyResult := VERIFIED | LOGGED_IN (tokens : TokenPair).

(** The challenges [verifyOtp] may look at. *)
Definition liveChallenge (input : OtpInput) (c : OtpChallenge) : bool :=
  (otp_normalizedDestination c === otpDestination input) && (otp_channel c === oin_channel input)
  && (otp_purpose c === oin_purpose input) && is_null (otp_consumedAt c) && is_null (otp_lockedAt c)
  && is_null (otp_deletedAt c).

(** [findFirst] with [orderBy: createdAt desc] and its [user]. *)
Definition latestChallenge (input : OtpInput) : Tx World (option (OtpChallenge * option User)) :=
  live ← tx_findMany (liveChallenge input);
  match head (orderByDesc otp_createdAt live) with
  | None => mret None
  | Some c =>
      user ← tx_findFirst_raw (fun u => Some (user_id u) === otp_userId c);
      mret (Some (c, user))
  end.

(** The update of the verified user. *)
Definition applyVerification (amb : Ambient) (purpose : OtpPurpose) (challenge : OtpChallenge)
    (userId : string) (currentUser : User) (transition : VerificationTransition) : Tx World nat :=
  let P u := (user_id u === userId) && (user_status u === user_status currentUser)
             && is_null (user_deletedAt u) in
  let activate (u : User) := if transition === ACTIVATE then u <| user_status := User_ACTIVE |> else u in
  if purpose === Otp_VERIFY_EMAIL then
    tx_updateMany P (fun u => activate (u <| user_emailVerifiedAt := Some (nowMs amb) |>))
  else
    tx_updateMany_unique P
      (fun u => activate (u <| user_phone := Some (otp_normalizedDestination challenge) |>
                            <| user_phoneVerifiedAt := Some (nowMs amb) |>)).

(** What the consumed challenge entitles to, and the status found. *)
Definition verificationOutcome (amb : Ambient) (purpose : OtpPurpose) (challenge : OtpChallenge)
    (userId : string) : Tx World (bool * option UserStatus) :=
  if purpose === Otp_LOGIN then
    user ← tx_findFirst (fun u => (user_id u === userId) && (user_status u === User_ACTIVE)
                                  && is_null (user_deletedAt u));
    mret (is_set user, None)
  else
    currentUser ← tx_findFirst (fun u => (user_id u === userId) && is_null (user_deletedAt u));
    match currentUser with
    | None => mret (false, None)
    | Some currentUser =>
        let transition := verificationTransition (user_status currentUser) in
        if transition === BLOCKED then mret (false, Some (user_status currentUser))
        else
          updated ← applyVerification amb purpose challenge userId currentUser transition;
          mret ((updated =? 1)%nat, Some (user_status currentUser))
    end.

(** The transaction of [verifyOtp]: consume the challenge, then act on the user. *)
Definition consumeChallenge (amb : Ambient) (purpose : OtpPurpose) (challenge : OtpChallenge)
    (userId : string) (metadata : RequestMetadata) : Tx World bool :=
  consumed ← tx_updateMany
    (fun c => (otp_id c === otp_id challenge) && is_null (otp_consumedAt c) && is_null (otp_lockedAt c))
    (fun c => c <| otp_consumedAt := Some (nowMs amb) |>);
  tx_guard (consumed =? 1)%nat (Failure "OTP was already consumed");;
  outcome ← verificationOutcome amb purpose challenge userId;
  writeAuditEvent amb (auditMetadata metadata (Some userId)
    (if fst outcome : bool then "auth.otp.verified" else "auth.otp.verification_blocked")
    "otp_challenge" (Some (otp_id challenge))
    (Some (JObj (("purpose", JStr (purposeName purpose))
                 :: match snd outcome with
                    | Some s => [("priorStatus", JStr (statusName s))] | None => [] end))));;
  mret (fst outcome).

Definition verifyOtp (amb : Ambient) (newRefreshToken : string) (input : OtpInput) (code : string)
    (metadata : RequestMetadata) : Proc World (option VerifyResult) :=
  found ← transact (latestChallenge input);
  match found with
  | Some (challenge, Some user) =>
      if (otp_expiresAt challenge <=? nowMs amb)%Z then mret None
      else if negb (verifySecret (otp_codeHash challenge) code) then
        transact (recordInvalidOtpAttempt amb (otp_id challenge));;
        mret None
      else
        verified ← transact (consumeChallenge amb (oin_purpose input) challenge (user_id user) metadata);
        if negb verified then mret None
        else if oin_purpose input === Otp_LOGIN then
          tokens ← createSession amb newRefreshToken (user_id user) metadata;
          mret (Some (LOGGED_IN tokens))
        else mret (Some VERIFIED)
  | _ => mret None
  end.
End Otp.
