(* ===== verification/OtpSpec.v ===== *)
(** * What one-time passwords guarantee

    Verification never touches a suspended, disabled or deleted account; a challenge locks after
    its attempts are used up, for the right code too; a code works once. *)

From Stdlib Require Import ZArith Lia Bool.
From S2P Require Import Prelude Store Database JsString Platform Request AuditTrail Tenancy Sessions SessionsSpec Outbox Otp.

Open Scope string_scope.

(** ** What verification may do to a user row *)

(** An account verification may not alter. *)
Definition blocked (u : User) : bool :=
  (user_status u === User_SUSPENDED) || (user_status u === User_DISABLED) || is_set (user_deletedAt u).

Record verification_rel (u u' : User) : Prop := {
  vr_id : user_id u' = user_id u;
  vr_email : user_email u' = user_email u;
  vr_password : user_passwordHash u' = user_passwordHash u;
  vr_status : user_status u' = user_status u
              \/ user_status u = User_PENDING /\ user_status u' = User_ACTIVE;
  vr_blocked : blocked u = true -> u' = u <| user_lastLoginAt := user_lastLoginAt u' |>
}.

#[export] Instance verification_rel_refl : Reflexive verification_rel.
Proof. intros u. constructor; auto. intros _. by destruct u. Qed.

#[export] Instance verification_rel_trans : Transitive verification_rel.
Proof.
  intros u v x [? ? ? Hs1 Hb1] [? ? ? Hs2 Hb2]. constructor; try congruence.
  - intuition congruence.
  - intros Hb. specialize (Hb1 Hb). rewrite Hb2; [|by rewrite Hb1]. by rewrite Hb1 at 1.
Qed.

Section OtpSpec.
Context `{Platform}.

Definition usersEvolve (t0 : list User) (w : World) : Prop := evolves verification_rel t0 (users w).

Lemma usersEvolve_put t0 P f w : (forall u, P u = true -> verification_rel u (f u)) ->
  usersEvolve t0 w -> usersEvolve t0 (put (updateWhere P f) w).
Proof. intros Hf Hw. exact (evolves_updateWhere verification_rel P f t0 (users w) Hf Hw). Qed.

Lemma createSession_users t0 amb tok userId meta :
  proc_pres (usersEvolve t0) (createSession amb tok userId meta).
Proof.
  unfold createSession. pres. apply pres_update. intros w. apply usersEvolve_put.
  intros u _. by constructor; auto.
Qed.

(** Changing a user whose status verification may change. *)
Lemma verified_rel u u' : verificationTransition (user_status u) <> BLOCKED -> user_deletedAt u = None ->
  user_id u' = user_id u -> user_email u' = user_email u -> user_passwordHash u' = user_passwordHash u ->
  user_status u' = user_status u
    \/ verificationTransition (user_status u) = ACTIVATE /\ user_status u' = User_ACTIVE ->
  verification_rel u u'.
Proof.
  unfold verificationTransition. intros Hb Hd ? ? ? Hs. constructor; auto.
  - destruct Hs as [Hs|[Hs ?]]; [by left|right]. split; [|done]. by destruct (user_status u).
  - unfold blocked. rewrite Hd. by destruct (user_status u).
Qed.

(** The update of the verified user reaches only rows in the status the transition allows. *)
Lemma applyVerification_users t0 amb purpose challenge userId currentUser :
  verificationTransition (user_status currentUser) <> BLOCKED ->
  tx_pres (usersEvolve t0) (applyVerification amb purpose challenge userId currentUser
    (verificationTransition (user_status currentUser))).
Proof.
  intros Hb. unfold applyVerification.
  destruct (purpose === Otp_VERIFY_EMAIL); [apply pres_updateMany|apply pres_updateMany_unique];
    intros w Hw; [|intros _]; revert Hw; apply usersEvolve_put; intros u Hu; cbn in Hu; bools;
    match goal with E : user_status u = _ |- _ => rewrite <- E in * end;
    (apply verified_rel; [done|by destruct (user_deletedAt u)|..]);
    case_bool_decide; auto.
Qed.

(** Verification never alters a blocked account. Whatever code, purpose and channel are
    submitted, and whether the call returns or throws, every user keeps their id, email and
    password; a status changes only from PENDING to ACTIVE; and a suspended, disabled or deleted
    user's row is left as it was (but for the login timestamp). *)
Theorem verification_never_alters_blocked amb tok input code meta w :
  evolves verification_rel (users w) (users (snd (verifyOtp amb tok input code meta w))).
Proof.
  assert (Hp : proc_pres (usersEvolve (users w)) (verifyOtp amb tok input code meta)).
  2: { apply Hp. apply evolves_refl. exact _. }
  unfold verifyOtp, latestChallenge, recordInvalidOtpAttempt, consumeChallenge, verificationOutcome.
  pres; try apply createSession_users.
  apply applyVerification_users. by bools.
Qed.

(** ** The challenge that answers *)

(** [c] is the one live challenge for [input], identifiers being distinct. *)
Record onlyLive (input : OtpInput) (c : OtpChallenge) (t : list OtpChallenge) : Prop := {
  ol_row : Row otp_id c t;
  ol_live : activeWhere (liveChallenge input) c = true;
  ol_only : forall x, In x t -> activeWhere (liveChallenge input) x = true -> otp_id x = otp_id c
}.
Definition noneLive (input : OtpInput) (t : list OtpChallenge) : Prop :=
  forall x, In x t -> activeWhere (liveChallenge input) x = false.

Lemma head_all {A} (c : A) l x : In x l -> (forall y, In y l -> y = c) -> head l = Some c.
Proof. destruct l as [|y l]; [done|]. intros _ Hall. cbn. by rewrite (Hall y) by (by left). Qed.

Lemma latest_only input c w : onlyLive input c (otpChallenges w) ->
  latestChallenge input w
  = Ok (Some (c, findFirst (fun u => Some (user_id u) === otp_userId c) (users w)), w).
Proof.
  intros [Hrow Hl Ho]. unfold latestChallenge. rewrite (tx_step _ _ _ _ _ eq_refl).
  rewrite (head_all c _ c); [done| |].
  - apply In_orderByDesc, In_findMany. split; [apply Hrow|done].
  - intros y [Hy HPy]%In_orderByDesc%In_findMany. eapply Row_unique; eauto.
Qed.

Lemma latest_none input w : noneLive input (otpChallenges w) -> latestChallenge input w = Ok (None, w).
Proof.
  intros Hn. unfold latestChallenge. rewrite (tx_step _ _ _ _ _ eq_refl).
  match goal with |- context [head ?l] => destruct l as [|y rest] eqn:E end; [done|].
  assert (In y (y :: rest)) as Hy by (by left). rewrite <- E in Hy.
  apply In_orderByDesc, In_findMany in Hy as [Hy HPy]. by rewrite Hn in HPy.
Qed.

(** Nothing live: whatever is submitted is refused and changes nothing. *)
Lemma verifyOtp_refused amb tok input code meta w : noneLive input (otpChallenges w) ->
  verifyOtp amb tok input code meta w = (Ok None, w).
Proof. intros Hn. unfold verifyOtp. by rewrite (proc_step _ _ _ None w) by (by apply latest_none). Qed.

(** ** Wrong guesses *)

Record Guess := mkGuess {
  g_amb : Ambient; g_token : string; g_code : string; g_metadata : RequestMetadata
}.

Fixpoint submitAll (input : OtpInput) (guesses : list Guess) : Proc World (list (option VerifyResult)) :=
  match guesses with
  | [] => mret []
  | g :: gs =>
      r ← verifyOtp (g_amb g) (g_token g) input (g_code g) (g_metadata g);
      rs ← submitAll input gs;
      mret (r :: rs)
  end.

(** A guess that is wrong for [c], while [c] has not expired. *)
Definition wrongGuess (c : OtpChallenge) (g : Guess) : Prop :=
  verifySecret (otp_codeHash c) (g_code g) = false /\ (nowMs (g_amb g) < otp_expiresAt c)%Z.

(** The row after one more wrong attempt. *)
Definition attempted (t : Z) (c : OtpChallenge) : OtpChallenge :=
  c <| otp_attempts ::= Z.add 1 |>
    <| otp_lockedAt := if (otp_maxAttempts c <=? otp_attempts c + 1)%Z then Some t else otp_lockedAt c |>.

Lemma wrong_guess_counts input c w g user :
  onlyLive input c (otpChallenges w) -> (otp_attempts c < otp_maxAttempts c)%Z -> otp_verifiedAt c = None ->
  findFirst (fun u => Some (user_id u) === otp_userId c) (users w) = Some user -> wrongGuess c g ->
  exists w', verifyOtp (g_amb g) (g_token g) input (g_code g) (g_metadata g) w = (Ok None, w')
    /\ users w' = users w
    /\ Row otp_id (attempted (nowMs (g_amb g)) c) (otpChallenges w')
    /\ forall x, In x (otpChallenges w') -> activeWhere (liveChallenge input) x = true -> otp_id x = otp_id c.
Proof.
  intros Hol Ha Hv Hu [Hg Ht]. unfold verifyOtp. rewrite (proc_step _ _ _ _ _ (latest_only _ _ _ Hol)).
  rewrite Hu. destruct (_ <=? _)%Z eqn:E; bools; [lia|]. rewrite Hg. cbn [negb].
  unfold recordInvalidOtpAttempt. erewrite proc_step by reflexivity. eexists. split; [done|].
  split; [done|]. destruct Hol as [Hrow Hl Ho]. split.
  - eapply Row_update_to; [|exact Hrow| |reflexivity]; [done|].
    unfold liveChallenge in Hl. cbn in Hl. bools. rewrite bd_refl, Hv.
    repeat match goal with H : is_null _ = true |- _ => rewrite H end.
    rewrite (proj2 (Z.ltb_lt _ _) Ha), (proj2 (Z.ltb_lt _ _) Ht). done.
  - intros x Hx Hlx. apply In_updateWhere in Hx as (x0 & Hx0 & ->).
    match type of Hlx with context [if ?b then _ else _] => destruct b eqn:EP end; [|by apply Ho].
    cbn. by bools.
Qed.

Lemma live_attempted input t c : activeWhere (liveChallenge input) c = true ->
  activeWhere (liveChallenge input) (attempted t c) = (otp_attempts c + 1 <? otp_maxAttempts c)%Z.
Proof.
  unfold activeWhere, liveChallenge. cbn. intros Hl. bools.
  destruct (otp_lockedAt c); [done|]. destruct (otp_deletedAt c); [done|].
  repeat match goal with E : _ = _ |- _ => rewrite E end. rewrite !bd_refl.
  destruct (_ <=? _)%Z eqn:E; cbn; symmetry; [apply Z.ltb_ge|apply Z.ltb_lt]; bools; lia.
Qed.

Lemma lockout_run input c user guesses : forall w,
  Row otp_id c (otpChallenges w) ->
  (forall x, In x (otpChallenges w) -> activeWhere (liveChallenge input) x = true -> otp_id x = otp_id c) ->
  activeWhere (liveChallenge input) c = (otp_attempts c <? otp_maxAttempts c)%Z ->
  otp_verifiedAt c = None -> (otp_attempts c <= otp_maxAttempts c)%Z ->
  findFirst (fun u => Some (user_id u) === otp_userId c) (users w) = Some user ->
  List.Forall (wrongGuess c) guesses ->
  length guesses = Z.to_nat (otp_maxAttempts c - otp_attempts c) ->
  exists w', submitAll input guesses w = (Ok (List.map (fun _ => None) guesses), w')
    /\ noneLive input (otpChallenges w').
Proof.
  revert c. induction guesses as [|g gs IH]; intros c w Hrow Ho Hl Hv Ha Hu Hgs Hlen.
  - exists w. split; [done|]. intros x Hx. destruct (activeWhere _ x) eqn:E; [|done].
    rewrite (Row_unique otp_id c x _ Hrow Hx (Ho _ Hx E)), Hl in E. cbn in Hlen. bools. lia.
  - cbn in Hlen. apply List.Forall_cons_iff in Hgs as [Hg Hgs].
    destruct (wrong_guess_counts input c w g user) as (w1 & Hrun & Hus & Hrow1 & Ho1); auto.
    { split; [done| |done]. rewrite Hl. apply Z.ltb_lt. lia. }
    { lia. }
    cbn [submitAll]. rewrite (proc_call _ _ _ _ _ Hrun).
    destruct (IH (attempted (nowMs (g_amb g)) c) w1) as (w2 & Hrun2 & Hn); auto.
    + rewrite live_attempted by (rewrite Hl; apply Z.ltb_lt; lia). cbn. f_equal. lia.
    + cbn. lia.
    + by rewrite Hus.
    + cbn. lia.
    + exists w2. split; [|done]. by rewrite (proc_call _ _ _ _ _ Hrun2).
Qed.


(** ** A code works once *)

Definition sameChallenges (t : list OtpChallenge) (w : World) : Prop := otpChallenges w = t.

Lemma createSession_challenges t amb tok userId meta :
  proc_pres (sameChallenges t) (createSession amb tok userId meta).
Proof. unfold createSession. pres. Qed.

Lemma consumeChallenge_none_live amb purpose input c userId meta w ok w' :
  onlyLive input c (otpChallenges w) ->
  consumeChallenge amb purpose c userId meta w = Ok (ok, w') -> noneLive input (otpChallenges w').
Proof.
  intros [Hrow Hl Ho] Hrun. unfold consumeChallenge in Hrun. apply bind_ok in Hrun as (n & w1 & H1 & Hrun).
  assert (Hn : noneLive input (otpChallenges w1)).
  { tx_store. intros x Hx. apply In_updateWhere in Hx as (x0 & Hx0 & ->).
    destruct (activeWhere (fun c0 => _) x0) eqn:EP; [unfold liveChallenge; cbn; by rewrite !andb_false_r|].
    destruct (activeWhere (liveChallenge input) x0) eqn:E; [|done].
    rewrite (Row_unique otp_id c x0 _ Hrow Hx0 (Ho _ Hx0 E)) in *. revert EP.
    unfold liveChallenge in Hl. cbn in Hl |- *. bools. rewrite bd_refl.
    by repeat match goal with E : is_null _ = true |- _ => rewrite E end. }
  assert (Hp : tx_pres (sameChallenges (otpChallenges w1))
    (tx_guard (n =? 1)%nat (Failure "OTP was already consumed");;
     outcome ← verificationOutcome amb purpose c userId;
     writeAuditEvent amb (auditMetadata meta (Some userId)
       (if fst outcome : bool then "auth.otp.verified" else "auth.otp.verification_blocked")
       "otp_challenge" (Some (otp_id c))
       (Some (JObj (("purpose", JStr (purposeName purpose))
                    :: match snd outcome with
                       | Some s => [("priorStatus", JStr (statusName s))] | None => [] end))));;
     mret (fst outcome))).
  { unfold verificationOutcome, applyVerification. pres. }
  by rewrite (Hp w1 ok w' eq_refl Hrun).
Qed.

(** A code works once. After a submission that was accepted for the only live challenge, the same
    code, or any other, is refused by every later submission. *)
Theorem otp_single_use amb tok input c code meta w r w' :
  onlyLive input c (otpChallenges w) ->
  verifyOtp amb tok input code meta w = (Ok (Some r), w') ->
  forall amb2 tok2 code2 meta2, verifyOtp amb2 tok2 input code2 meta2 w' = (Ok None, w').
Proof.
  intros Hol Hrun amb2 tok2 code2 meta2. apply verifyOtp_refused. unfold verifyOtp in Hrun.
  rewrite (proc_step _ _ _ _ _ (latest_only _ _ _ Hol)) in Hrun.
  destruct (findFirst _ _) as [user|]; [|by injection Hrun].
  destruct (_ <=? _)%Z; [by injection Hrun|].
  destruct (negb _); [proc_inv Hrun|].
  apply proc_bind_ok in Hrun as (ok & w1 & H1 & Hrun). apply transact_ok in H1.
  apply (consumeChallenge_none_live _ _ input) in H1; [|done].
  destruct (negb ok); [proc_inv Hrun|]. destruct (_ === _); [|by injection Hrun as _ <-].
  apply proc_bind_ok in Hrun as (pair & w2 & H2 & Hrun). injection Hrun as _ <-.
  pose proof (createSession_challenges (otpChallenges w1) amb tok (user_id user) meta w1 eq_refl) as Hs.
  rewrite H2 in Hs. cbn in Hs. by rewrite Hs.
Qed.
End OtpSpec.

(** ** Witnesses *)

Definition pendingUser : User := demoUser <| user_status := User_PENDING |>.
Definition demoChallenge : OtpChallenge :=
  mkOtpChallenge "c1" (Some "u1") "a@example.com" OtpC_EMAIL Otp_VERIFY_EMAIL "argon:123456" 3 5 0 300000
    None None None 0 None.
Definition demoOtpInput : OtpInput := mkOtpInput " A@example.com" OtpC_EMAIL Otp_VERIFY_EMAIL.
Definition otpWorld : World :=
  emptyWorld <| users := [pendingUser] |> <| otpChallenges := [demoChallenge] |>.
Definition wrongCode (code : string) : Guess := mkGuess demoNow "t" code demoMetadata.

Lemma demo_onlyLive : onlyLive demoOtpInput demoChallenge (otpChallenges otpWorld).
Proof.
  split; [split|reflexivity|].
  - cbn. repeat constructor. intros [].
  - by left.
  - intros x [<-|[]]. done.
Qed.


Lemma otp_single_use_witness :
  exists w', @verifyOtp demoPlatform demoNow "t" demoOtpInput "123456" demoMetadata otpWorld
             = (Ok (Some VERIFIED), w')
    /\ List.map user_status (users w') = [User_ACTIVE]
    /\ @verifyOtp demoPlatform demoNow "t" demoOtpInput "123456" demoMetadata w' = (Ok None, w').
Proof.
  assert (Hrun : exists w', @verifyOtp demoPlatform demoNow "t" demoOtpInput "123456" demoMetadata otpWorld
                            = (Ok (Some VERIFIED), w') /\ List.map user_status (users w') = [User_ACTIVE])
    by (eexists; split; vm_compute; reflexivity).
  destruct Hrun as (w' & Hrun & Hst). exists w'. split; [exact Hrun|]. split; [exact Hst|].
  exact (@otp_single_use demoPlatform demoNow "t" demoOtpInput demoChallenge "123456" demoMetadata otpWorld
           VERIFIED w' demo_onlyLive Hrun demoNow "t" "123456" demoMetadata).
Defined.
