(* ===== verification/Passwords.v ===== *)
(** * Passwords: signup, login, change and reset

    modules/auth/auth.passwords.service.ts and auth.password-reset.service.ts. What a handler draws
    (code, salt, token) is an argument; [dummyPasswordHash] is the module's hash of a random token. *)

From Stdlib Require Import ZArith Lia Bool.
From S2P Require Import Prelude Store Database JsString Platform Request AuditTrail Tenancy Sessions Outbox Otp.

Open Scope string_scope.

Section Passwords.
Context `{Platform}.

Definition signupWithPassword (amb : Ambient) (draw : OtpDraw) (salt : string)
    (emailInput password : string) (displayName : option string) (metadata : RequestMetadata)
    : Proc World unit :=
  let email := normalizeEmail emailInput in
  let passwordHash := hashSecret salt password in
  existing ← transact (tx_findFirst (fun u => user_email u === Some email));
  match existing with
  | Some existing =>
      transact (
        addOutboxEvent amb (mkOutboxInput "user" (user_id existing) "auth.signup_existing" Ch_EMAIL
          (JObj [("destination", JStr email)])
          ("signup-existing:" ++ user_id existing ++ ":" ++ show (nowMs amb / 3600000)%Z) None None);;
        writeAuditEvent amb (auditMetadata metadata None "auth.signup.existing_requested" "user"
          (Some (user_id existing)) None))
  | None =>
      transact (
        id ← newId;
        user ← tx_create (mkUser id (Some email) None (Some passwordHash) displayName "en" None None 0
                 User_PENDING None None None (nowMs amb) None);
        _ ← createChallenge amb draw (user_id user) email OtpC_EMAIL Otp_VERIFY_EMAIL "email";
        writeAuditEvent amb (auditMetadata metadata (Some (user_id user)) "auth.signup.created" "user"
          (Some (user_id user)) None))
  end.

Definition loginWithPassword (amb : Ambient) (newRefreshToken dummyPasswordHash : string)
    (emailInput password : string) (metadata : RequestMetadata) : Proc World (option TokenPair) :=
  let email := normalizeEmail emailInput in
  user ← transact (tx_findFirst (fun u => user_email u === Some email));
  let passwordHash := (u ← user; user_passwordHash u) ??? dummyPasswordHash in
  let valid := verifySecret passwordHash password in
  match user with
  | Some u =>
      if negb valid || (user_status u !== User_ACTIVE) || is_set (user_deletedAt u) then
        transact (writeAuditEvent amb (auditMetadata metadata None "auth.login.failed" "user"
          (Some (user_id u)) None));;
        mret None
      else
        tokens ← createSession amb newRefreshToken (user_id u) metadata;
        mret (Some tokens)
  | None =>
      transact (writeAuditEvent amb (auditMetadata metadata None "auth.login.failed" "user" None None));;
      mret None
  end.

Definition changePassword (amb : Ambient) (salt dummyPasswordHash userId sessionId : string)
    (currentPassword newPassword : string) (metadata : RequestMetadata) : Proc World bool :=
  user ← transact (tx_findFirst (fun u =>
    (user_id u === userId) && (user_status u === User_ACTIVE) && is_null (user_deletedAt u)));
  let passwordHash := (u ← user; user_passwordHash u) ??? dummyPasswordHash in
  let valid := verifySecret passwordHash currentPassword in
  if negb valid || negb (truthy (u ← user; user_passwordHash u)) then mret false
  else
    let nextPasswordHash := hashSecret salt newPassword in
    transact (
      _ ← tx_update (fun u => user_id u === userId)
        (fun u => u <| user_passwordHash := Some nextPasswordHash |>);
      endSessions (nowMs amb) userId "password_changed" (Some sessionId);;
      writeAuditEvent amb (auditMetadata metadata (Some userId) "auth.password.changed" "user"
        (Some userId) None));;
    publishChatRevocation userId;;
    mret true.

(** ** Reset *)

Definition requestPasswordReset (amb : Ambient) (draw : OtpDraw) (emailInput : string)
    (metadata : RequestMetadata) : Proc World unit :=
  let email := normalizeEmail emailInput in
  user ← transact (tx_findFirst (fun u =>
    (user_email u === Some email) && (user_status u === User_ACTIVE) && is_null (user_deletedAt u)));
  match user with
  | None => mret tt
  | Some user =>
      recentlySent ← transact (tx_findFirst (fun c =>
        (otp_userId c === Some (user_id user)) && (otp_normalizedDestination c === email)
        && (otp_channel c === OtpC_EMAIL) && (otp_purpose c === Otp_PASSWORD_RESET)
        && (nowMs amb - 60000 <=? otp_sentAt c)%Z && is_null (otp_consumedAt c)
        && is_null (otp_verifiedAt c) && is_null (otp_lockedAt c)));
      match recentlySent with
      | Some _ => mret tt
      | None =>
          transact (
            challenge ← createChallenge amb draw (user_id user) email OtpC_EMAIL Otp_PASSWORD_RESET
              "password-reset";
            writeAuditEvent amb (auditMetadata metadata (Some (user_id user))
              "auth.password_reset.requested" "otp_challenge" (Some (otp_id challenge)) None))
      end
  end.

(** The latest reset challenge of an address, with its user. *)
Definition resetChallenge (email : string) : Tx World (option (OtpChallenge * option User)) :=
  live ← tx_findMany (fun c =>
    (otp_normalizedDestination c === email) && (otp_channel c === OtpC_EMAIL)
    && (otp_purpose c === Otp_PASSWORD_RESET) && is_null (otp_consumedAt c)
    && is_null (otp_verifiedAt c) && is_null (otp_lockedAt c) && is_null (otp_deletedAt c));
  match head (orderByDesc otp_createdAt live) with
  | None => mret None
  | Some c =>
      user ← tx_findFirst_raw (fun u => Some (user_id u) === otp_userId c);
      mret (Some (c, user))
  end.

Definition issueResetToken (amb : Ambient) (challenge : OtpChallenge) (userId tokenHash : string)
    (expiresAt : Z) (metadata : RequestMetadata) : Tx World bool :=
  verified ← tx_updateMany
    (fun c => (otp_id c === otp_id challenge) && is_null (otp_consumedAt c) && is_null (otp_verifiedAt c)
              && is_null (otp_lockedAt c) && (nowMs amb <? otp_expiresAt c)%Z)
    (fun c => c <| otp_verifiedAt := Some (nowMs amb) |>);
  if negb (verified =? 1)%nat then mret false
  else
    _ ← tx_updateMany
      (fun p => (prt_userId p === userId) && is_null (prt_usedAt p) && is_null (prt_deletedAt p))
      (fun p => p <| prt_deletedAt := Some (nowMs amb) |>);
    id ← newId;
    _ ← tx_create (mkPasswordResetToken id userId (otp_id challenge) tokenHash expiresAt None None);
    writeAuditEvent amb (auditMetadata metadata (Some userId) "auth.password_reset.otp_verified"
      "otp_challenge" (Some (otp_id challenge)) None);;
    mret true.

Definition verifyPasswordResetOtp (amb : Ambient) (resetToken emailInput otp : string)
    (metadata : RequestMetadata) : Proc World (option (string * Z)) :=
  let email := normalizeEmail emailInput in
  found ← transact (resetChallenge email);
  match found with
  | Some (challenge, Some user) =>
      if (otp_expiresAt challenge <=? nowMs amb)%Z || (user_status user !== User_ACTIVE)
         || is_set (user_deletedAt user) then mret None
      else if negb (verifySecret (otp_codeHash challenge) otp) then
        transact (recordInvalidOtpAttempt amb (otp_id challenge));;
        mret None
      else
        tokenHash ← transact (tx_lift (hashOpaqueToken resetToken));
        let expiresAt := expiresIn amb (PASSWORD_RESET_TOKEN_TTL_MINUTES env) 60000 in
        issued ← transact (issueResetToken amb challenge (user_id user) tokenHash expiresAt metadata);
        mret (if issued : bool then Some (resetToken, expiresAt) else None)
  | _ => mret None
  end.

(** The transaction of [confirmPasswordReset]. *)
Definition applyReset (amb : Ambient) (reset : PasswordResetToken) (passwordHash : string)
    (metadata : RequestMetadata) : Tx World bool :=
  let usedAt := nowMs amb in
  used ← tx_updateMany
    (fun p => (prt_id p === prt_id reset) && (prt_tokenHash p === prt_tokenHash reset)
              && is_null (prt_usedAt p) && is_null (prt_deletedAt p) && (usedAt <? prt_expiresAt p)%Z)
    (fun p => p <| prt_usedAt := Some usedAt |>);
  if negb (used =? 1)%nat then mret false
  else
    consumed ← tx_updateMany
      (fun c => (otp_id c === prt_otpChallengeId reset) && is_null (otp_consumedAt c)
                && is_null (otp_lockedAt c) && is_null (otp_deletedAt c))
      (fun c => c <| otp_consumedAt := Some usedAt |>);
    tx_guard (consumed =? 1)%nat (Failure "Password reset OTP was already consumed");;
    updated ← tx_updateMany
      (fun u => (user_id u === prt_userId reset) && (user_status u === User_ACTIVE) && is_null (user_deletedAt u))
      (fun u => u <| user_passwordHash := Some passwordHash |>);
    tx_guard (updated =? 1)%nat (Failure "Password reset user is no longer eligible");;
    endSessions usedAt (prt_userId reset) "password_reset" None;;
    _ ← tx_updateMany
      (fun p => (prt_userId p === prt_userId reset) && (prt_id p !== prt_id reset)
                && is_null (prt_usedAt p) && is_null (prt_deletedAt p))
      (fun p => p <| prt_deletedAt := Some usedAt |>);
    writeAuditEvent amb (auditMetadata metadata (Some (prt_userId reset))
      "auth.password_reset.completed" "user" (Some (prt_userId reset)) None);;
    mret true.

Definition confirmPasswordReset (amb : Ambient) (salt resetToken newPassword : string)
    (metadata : RequestMetadata) : Proc World bool :=
  tokenHashes ← transact (tx_lift (candidateOpaqueTokenHashes resetToken));
  reset ← transact (tx_findFirst (fun p =>
    existsb (String.eqb (prt_tokenHash p)) tokenHashes && is_null (prt_usedAt p)
    && is_null (prt_deletedAt p) && (nowMs amb <? prt_expiresAt p)%Z));
  match reset with
  | None => mret false
  | Some reset =>
      user ← transact (tx_findFirst_raw (fun u => user_id u === prt_userId reset));
      match user with
      | Some u =>
          if (user_status u !== User_ACTIVE) || is_set (user_deletedAt u) then mret false
          else
            changed ← transact (applyReset amb reset (hashSecret salt newPassword) metadata);
            (if changed : bool then publishChatRevocation (prt_userId reset) else mret tt);;
            mret changed
      | None => mret false
      end
  end.
End Passwords.
