(* ===== verification/Account.v ===== *)
(** * Accounts: social identities, deletion, email change, erasure

    modules/auth/social.service.ts, auth.social-login.service.ts, auth.account.service.ts and
    account-erasure.service.ts. *)

From Stdlib Require Import ZArith Lia Bool.
From stdpp Require Import sorting.
From S2P Require Import Prelude Store Database JsString Platform Request AuditTrail Tenancy Sessions Outbox Otp.

Open Scope string_scope.

Record SocialIdentity := mkSocialIdentity {
  si_provider : SocialProvider; si_providerAccountId : string; si_email : option string;
  si_emailVerified : bool; si_displayName : option string
}.

(** What a user confirms an operation with. *)
Record Confirmation := mkConfirmation {
  cf_password : option string; cf_socialReauth : option (SocialProvider * string)
}.

Definition providerName (p : SocialProvider) : string :=
  match p with Soc_GOOGLE => "GOOGLE" | Soc_APPLE => "APPLE" end.

Section Account.
Context `{Platform}.

(** ** social.service.ts *)

Definition claimString (payload : Json) (key : string) : option string :=
  match jget key payload with
  | Some (JStr s) => if (0 <? String.length s)%nat then Some s else None
  | _ => None
  end.

Definition verifiedEmail (payload : Json) : bool :=
  match jget "email_verified" payload with
  | Some (JBool b) => b
  | Some (JStr s) => s === "true"
  | _ => false
  end.

Definition verifySocialIdentity (amb : Ambient) (provider : SocialProvider) (idToken : string)
    : res SocialIdentity :=
  let audience := if provider === Soc_GOOGLE then GOOGLE_CLIENT_ID env else APPLE_CLIENT_ID env in
  let issuers := if provider === Soc_GOOGLE then ["https://accounts.google.com"; "accounts.google.com"]
                 else ["https://appleid.apple.com"] in
  if negb (truthy audience) then
    Err (Failure (providerName provider ++ " social login is not configured"))
  else
    match jwtVerifyRemote issuers (audience ??? "") (nowMs amb) idToken with
    | None => Err (errors.unauthenticated "Invalid social identity token")
    | Some payload =>
        match claimString payload "sub" with
        | None => Err (errors.unauthenticated "Invalid social identity token")
        | Some providerAccountId =>
            let email := (fun e => toLowerCase (trim e)) <$> claimString payload "email" in
            let emailIsVerified := verifiedEmail payload in
            if truthy email && negb emailIsVerified then
              Err (errors.unauthenticated "Social email is not verified")
            else Ok (mkSocialIdentity provider providerAccountId
                       (if truthy email then email else None) emailIsVerified
                       (claimString payload "name"))
        end
    end.

(** ** auth.social-login.service.ts *)

Definition linkSocialAccount (amb : Ambient) (identity : SocialIdentity) (userIdForAccount : string)
    (metadata : RequestMetadata) : Tx World (option string) :=
  id ← newId;
  _ ← tx_create (mkSocialAccount id userIdForAccount (si_provider identity)
        (si_providerAccountId identity) (si_email identity) None);
  writeAuditEvent amb (auditMetadata metadata (Some userIdForAccount) "auth.social_account.linked"
    "social_account" None (Some (JObj [("provider", JStr (providerName (si_provider identity)))])));;
  mret (Some userIdForAccount).

Definition socialUserId (amb : Ambient) (identity : SocialIdentity) (displayName : option string)
    (metadata : RequestMetadata) : Tx World (option string) :=
  linked ← tx_findFirst (fun s => (soc_provider s === si_provider identity)
    && (soc_providerAccountId s === si_providerAccountId identity) && is_null (soc_deletedAt s));
  match linked with
  | Some linked =>
      user ← tx_findFirst_raw (fun u => user_id u === soc_userId linked);
      user ← tx_require user (Failure "Inconsistent query result");
      if is_set (user_deletedAt user) || (user_status user !== User_ACTIVE) then mret None
      else
        _ ← tx_updateMany (fun s => (soc_userId s === soc_userId linked)
              && (soc_provider s === si_provider identity) && is_null (soc_deletedAt s))
              (fun s => match si_email identity with
                        | Some e => s <| soc_email := Some e |> | None => s end);
        mret (Some (soc_userId linked))
  | None =>
      existing ← (if truthy (si_email identity)
                  then tx_findFirst (fun u => user_email u === si_email identity)
                  else mret None);
      match existing with
      | Some existing =>
          if is_set (user_deletedAt existing) || (user_status existing === User_SUSPENDED)
             || (user_status existing === User_DISABLED) then mret None
          else
            activated ← tx_update (fun u => user_id u === user_id existing)
              (fun u =>
                 let u := u <| user_status := User_ACTIVE |> in
                 let u := if si_emailVerified identity
                          then u <| user_emailVerifiedAt := Some (nowMs amb) |> else u in
                 if truthy displayName || truthy (si_displayName identity)
                 then u <| user_displayName := match displayName with
                                               | Some _ => displayName
                                               | None => si_displayName identity end |>
                 else u);
            linkSocialAccount amb identity (user_id activated) metadata
      | None =>
          id ← newId;
          created ← tx_create (mkUser id (si_email identity) None None
            (match displayName with Some _ => displayName | None => si_displayName identity end)
            "en" None None 0 User_ACTIVE
            (if si_emailVerified identity then Some (nowMs amb) else None) None None (nowMs amb) None);
          linkSocialAccount amb identity (user_id created) metadata
      end
  end.

Definition loginWithSocial (amb : Ambient) (newRefreshToken : string) (provider : SocialProvider)
    (idToken : string) (displayName : option string) (metadata : RequestMetadata)
    : Proc World (option TokenPair) :=
  identity ← transact (tx_lift (verifySocialIdentity amb provider idToken));
  userId ← transact (socialUserId amb identity displayName metadata);
  match userId with
  | Some userId =>
      if userId === EmptyString then mret None
      else tokens ← createSession amb newRefreshToken userId metadata; mret (Some tokens)
  | None => mret None
  end.

(** ** auth.account.service.ts *)

(** The social half of a confirmation: the identity is one of the user's accounts. *)
Definition confirmSocial (amb : Ambient) (userId : string) (reauth : SocialProvider * string)
    : Proc World bool :=
  identity ← transact (tx_lift (verifySocialIdentity amb (fst reauth) (snd reauth)));
  linked ← transact (tx_findFirst (fun s => (soc_userId s === userId)
    && (soc_provider s === si_provider identity)
    && (soc_providerAccountId s === si_providerAccountId identity) && is_null (soc_deletedAt s)));
  mret (is_set linked).

(** What both [deleteAccountUnscoped] and [confirmRecentCredential] ask of an active user. *)
Definition confirmCredential (amb : Ambient) (userId : string) (passwordHash : option string)
    (confirmation : Confirmation) : Proc World bool :=
  match passwordHash with
  | Some hash =>
      if hash === EmptyString then
        match cf_socialReauth confirmation with
        | None => mret false
        | Some reauth => confirmSocial amb userId reauth
        end
      else mret (if truthy (cf_password confirmation)
                 then verifySecret hash (cf_password confirmation ??? "") else false)
  | None =>
      match cf_socialReauth confirmation with
      | None => mret false
      | Some reauth => confirmSocial amb userId reauth
      end
  end.

(** [role: { name: 'owner', deletedAt: null }] of a membership. *)
Definition ownerRole (r : Role) : bool := (role_name r === "owner") && is_null (role_deletedAt r).
Definition hasRole (rs : list Role) (m : Membership) : bool :=
  existsb (fun r => role_id r === mem_roleId m) rs.
Definition activeOwner (rs : list Role) (organizationId : string) (m : Membership) : bool :=
  (mem_organizationId m === organizationId) && (mem_status m === Mem_ACTIVE)
  && is_null (mem_deletedAt m) && hasRole (findMany ownerRole rs) m.

(** [countActiveOwners] of organizations.service.ts, and the same count here. *)
Definition countActiveOwners (organizationId : string) : Tx World nat :=
  rs ← tx_findMany_raw (fun _ : Role => true);
  tx_count (activeOwner rs organizationId).

(** The advisory lock taken per organization serialises transactions, which run one at a time here. *)
Definition requireOtherOwners (userId : string) : Tx World unit :=
  rs ← tx_findMany_raw (fun _ : Role => true);
  ownerMemberships ← tx_findMany (fun m => (mem_userId m === userId) && (mem_status m === Mem_ACTIVE)
    && is_null (mem_deletedAt m) && hasRole (findMany ownerRole rs) m);
  tx_for (sortStrings (List.map mem_organizationId ownerMemberships)) (fun organizationId =>
    owners ← countActiveOwners organizationId;
    tx_guard (negb (owners <=? 1)%nat)
      (errors.conflict "Transfer ownership or add another owner before deleting this account")).

Definition anonymized (deletedAt : Z) (u : User) : User :=
  u <| user_email := None |> <| user_phone := None |> <| user_passwordHash := None |>
    <| user_displayName := None |> <| user_locale := "en" |> <| user_pendingEmail := None |>
    <| user_stripeCustomerId := None |> <| user_emailVerifiedAt := None |>
    <| user_phoneVerifiedAt := None |> <| user_lastLoginAt := None |>
    <| user_status := User_DISABLED |> <| user_deletedAt := Some deletedAt |>.

(** Sessions and tokens end; what they and the user's satellites hold is removed. *)
Definition eraseIdentity (deletedAt : Z) (userId : string) : Tx World unit :=
  _ ← tx_update (fun u => user_id u === userId) (anonymized deletedAt);
  endSessions deletedAt userId "account_deleted" None;;
  _ ← tx_updateMany (fun s => (sess_userId s === userId) && is_null (sess_deletedAt s))
        (fun s => s <| sess_ipHash := None |> <| sess_userAgent := None |>);
  _ ← tx_deleteMany (fun d => (dev_userId d === userId) && is_null (dev_deletedAt d));
  _ ← tx_deleteMany (fun s => (soc_userId s === userId) && is_null (soc_deletedAt s));
  _ ← tx_deleteMany (fun p => (prt_userId p === userId) && is_null (prt_deletedAt p));
  _ ← tx_deleteMany (fun c => (otp_userId c === Some userId) && is_null (otp_deletedAt c));
  _ ← tx_deleteMany (fun r => (ur_userId r === userId) && is_null (ur_deletedAt r));
  _ ← tx_deleteMany (fun p => (pref_userId p === userId) && is_null (pref_deletedAt p));
  _ ← tx_updateMany (fun d => (del_userId d === Some userId) && is_null (del_deletedAt d))
        (fun d => d <| del_userId := None |>);
  _ ← tx_updateMany (fun m => (mem_userId m === userId) && is_null (mem_deletedAt m))
        (fun m => m <| mem_status := Mem_SUSPENDED |> <| mem_deletedAt := Some deletedAt |>);
  _ ← tx_deleteMany (fun b => bw_userId b === userId);
  mret tt.

Definition erasedUpload (deletedAt : Z) (u : Upload) : Upload :=
  u <| up_status := Up_DELETED |> <| up_originalName := "erased" |> <| up_checksum := None |>
    <| up_scanReference := None |> <| up_url := None |> <| up_deletedAt := Some deletedAt |>.

Definition erasedOutboxWhere (challengeIds : list string) (userId : string) (e : OutboxEvent) : bool :=
  ((ob_aggregateType e === "otp_challenge") && existsb (String.eqb (ob_aggregateId e)) challengeIds
   || (ob_aggregateType e === "user") && (ob_aggregateId e === userId))
  && is_null (ob_deletedAt e).

Definition eraseOutbox (deletedAt : Z) (challengeIds : list string) (userId : string) : Tx World unit :=
  _ ← tx_updateMany (erasedOutboxWhere challengeIds userId)
        (fun e => e <| ob_payload := JObj [("erased", JBool true)] |> <| ob_expiresAt := Some deletedAt |>);
  _ ← tx_updateMany (fun e => erasedOutboxWhere challengeIds userId e
        && ((ob_status e === Ob_PENDING) || (ob_status e === Ob_CLAIMED) || (ob_status e === Ob_ENQUEUED)
            || (ob_status e === Ob_PROCESSING) || (ob_status e === Ob_FAILED)))
        (fun e => e <| ob_status := Ob_DEAD_LETTER |>
                    <| ob_lastError := Some "Account deleted before delivery" |>
                    <| ob_claimToken := None |> <| ob_claimedAt := None |> <| ob_claimExpiresAt := None |>);
  mret tt.

Definition endsWith (s suffix : string) : bool := String.prefix (str_reverse suffix) (str_reverse s).

Definition deleteAccountTransaction (amb : Ambient) (userId : string) (stripeCustomerId : option string)
    (uploadIds challengeIds : list string) (metadata : RequestMetadata) : Tx World unit :=
  let deletedAt := nowMs amb in
  requireOtherOwners userId;;
  eraseIdentity deletedAt userId;;
  tx_for uploadIds (fun id => _ ← tx_update (fun u => up_id u === id) (erasedUpload deletedAt); mret tt);;
  eraseOutbox deletedAt challengeIds userId;;
  _ ← tx_deleteMany (fun r => endsWith (idem_actorKey r) ("user:" ++ userId) && is_null (idem_deletedAt r));
  _ ← tx_updateMany (fun s => (sub_userId s === userId) && is_null (sub_organizationId s)
                              && is_null (sub_deletedAt s))
        (fun s => s <| sub_status := "canceled" |> <| sub_canceledAt := Some deletedAt |>
                    <| sub_deletedAt := Some deletedAt |>);
  addOutboxEvent amb (mkOutboxInput "account_erasure" userId "account.erasure.requested" Ch_INTERNAL
    (JObj (("userId", JStr userId)
           :: match stripeCustomerId with
              | Some c => if c === EmptyString then [] else [("stripeCustomerId", JStr c)]
              | None => [] end))
    ("account-erasure:" ++ userId) None None);;
  writeAuditEvent amb (auditMetadata metadata (Some userId) "user.account_deleted" "user" (Some userId)
    (Some (JObj [("queuedUploadObjects", JNum (Z.of_nat (List.length uploadIds)));
                 ("externalCleanupQueued", JBool true)]))).

Definition deleteAccountUnscoped (userId : string) (confirmation : Confirmation)
    (metadata : RequestMetadata) (amb : Ambient) : Proc World bool :=
  user ← transact (tx_findFirst (fun u =>
    (user_id u === userId) && (user_status u === User_ACTIVE) && is_null (user_deletedAt u)));
  match user with
  | None => mret false
  | Some user =>
      confirmed ← confirmCredential amb userId (user_passwordHash user) confirmation;
      if negb confirmed then mret false
      else
        found ← transact (tx_findMany (fun u => (up_userId u === userId)
          && ((up_status u === Up_PENDING) || (up_status u === Up_QUARANTINED)
              || (up_status u === Up_SCANNING) || (up_status u === Up_READY)) && is_null (up_deletedAt u)));
        challenges ← transact (tx_findMany (fun c => (otp_userId c === Some userId) && is_null (otp_deletedAt c)));
        transact (deleteAccountTransaction amb userId (user_stripeCustomerId user)
                    (List.map up_id found) (List.map otp_id challenges) metadata);;
        mret true
  end.

Definition deleteAccount (amb : Ambient) (userId : string) (confirmation : Confirmation)
    (metadata : RequestMetadata) : Proc World bool :=
  deleted ← withoutTenantScope "account-deletion" (deleteAccountUnscoped userId confirmation metadata) amb;
  (if deleted : bool then publishChatRevocation userId else mret tt);;
  mret deleted.

Definition confirmRecentCredential (amb : Ambient) (userId : string) (confirmation : Confirmation)
    : Proc World bool :=
  user ← transact (tx_findFirst (fun u =>
    (user_id u === userId) && (user_status u === User_ACTIVE) && is_null (user_deletedAt u)));
  match user with
  | None => mret false
  | Some user => confirmCredential amb userId (user_passwordHash user) confirmation
  end.

Definition requestEmailChange (amb : Ambient) (draw : OtpDraw) (userId newEmailInput : string)
    (confirmation : Confirmation) (metadata : RequestMetadata) : Proc World bool :=
  confirmed ← confirmRecentCredential amb userId confirmation;
  if negb confirmed then mret false
  else
    let newEmail := normalizeEmail newEmailInput in
    conflict ← transact (tx_findFirst (fun u =>
      ((user_email u === Some newEmail) || (user_pendingEmail u === Some newEmail))
      && is_null (user_deletedAt u)));
    match conflict with
    | Some _ => mret false
    | None =>
        transact (
          _ ← tx_update_unique (fun u => user_id u === userId)
                (fun u => u <| user_pendingEmail := Some newEmail |>);
          _ ← createChallenge amb draw userId newEmail OtpC_EMAIL Otp_EMAIL_CHANGE "email-change";
          writeAuditEvent amb (auditMetadata metadata (Some userId) "auth.email_change.requested" "user"
            (Some userId) None));;
        mret true
    end.

Definition emailChangeTransaction (amb : Ambient) (userId newEmail challengeId : string)
    (metadata : RequestMetadata) : Tx World bool :=
  consumed ← tx_updateMany (fun c => (otp_id c === challengeId) && is_null (otp_consumedAt c)
      && is_null (otp_lockedAt c) && (nowMs amb <? otp_expiresAt c)%Z)
    (fun c => c <| otp_consumedAt := Some (nowMs amb) |>);
  if negb (consumed =? 1)%nat then mret false
  else
    updated ← tx_updateMany_unique
      (fun u => (user_id u === userId) && (user_pendingEmail u === Some newEmail)
                && (user_status u === User_ACTIVE) && is_null (user_deletedAt u))
      (fun u => u <| user_email := Some newEmail |> <| user_pendingEmail := None |>
                  <| user_emailVerifiedAt := Some (nowMs amb) |>);
    if negb (updated =? 1)%nat then mret false
    else
      endSessions (nowMs amb) userId "email_changed" None;;
      writeAuditEvent amb (auditMetadata metadata (Some userId) "auth.email_change.completed" "user"
        (Some userId) None);;
      mret true.

Definition verifyEmailChange (amb : Ambient) (userId newEmailInput code : string)
    (metadata : RequestMetadata) : Proc World bool :=
  let newEmail := normalizeEmail newEmailInput in
  live ← transact (tx_findMany (fun c =>
    (otp_userId c === Some userId) && (otp_normalizedDestination c === newEmail)
    && (otp_purpose c === Otp_EMAIL_CHANGE) && is_null (otp_consumedAt c) && is_null (otp_lockedAt c)
    && (nowMs amb <? otp_expiresAt c)%Z && is_null (otp_deletedAt c)));
  match head (orderByDesc otp_createdAt live) with
  | None => mret false
  | Some challenge =>
      if negb (verifySecret (otp_codeHash challenge) code) then
        transact (recordInvalidOtpAttempt amb (otp_id challenge));;
        mret false
      else
        changed ← transact (emailChangeTransaction amb userId newEmail (otp_id challenge) metadata);
        (if changed : bool then publishChatRevocation userId else mret tt);;
        mret changed
  end.
End Account.
