(* ===== verification/AccountSpec.v ===== *)
(** * What the account services guarantee

    Deletion erases the account everywhere the program keeps personal data; a password set before a
    social identity proves ownership of the address survives it. *)

From Stdlib Require Import ZArith Lia Bool.
From S2P Require Import Prelude Store Database JsString Platform Request AuditTrail Tenancy Sessions SessionsSpec Outbox Otp Passwords Account.

Open Scope string_scope.

Section AccountSpec.
Context `{Platform}.

(** ** Deletion *)

(** A row is the user's only if it is a tombstone. *)
Definition buried {R O} (owner : R -> O) (deletedAt : R -> option Z) (userId : O) (r : R) : Prop :=
  owner r = userId -> is_set (deletedAt r) = true.

Definition sessionOver (userId : string) (s : Session) : Prop :=
  sess_userId s = userId -> sess_deletedAt s = None -> is_set (sess_revokedAt s) = true.
Definition sessionAnonymous (userId : string) (s : Session) : Prop :=
  sess_userId s = userId -> sess_deletedAt s = None -> sess_ipHash s = None /\ sess_userAgent s = None.
Definition tokenOver (userId : string) (r : RefreshToken) : Prop :=
  rt_userId r = userId -> rt_deletedAt r = None -> is_set (rt_revokedAt r) = true.
Definition payloadErased (userId : string) (e : OutboxEvent) : Prop :=
  ob_aggregateType e = "user" -> ob_aggregateId e = userId -> ob_deletedAt e = None ->
  ob_payload e = JObj [("erased", JBool true)].

(** Nothing of the user is left but tombstones. *)
Record erased (t : Z) (userId : string) (w : World) : Prop := {
  er_user : everyRow (buried user_id user_deletedAt userId) w;
  er_sessions : everyRow (sessionOver userId) w;
  er_metadata : everyRow (sessionAnonymous userId) w;
  er_tokens : everyRow (tokenOver userId) w;
  er_devices : everyRow (buried dev_userId dev_deletedAt userId) w;
  er_social : everyRow (buried soc_userId soc_deletedAt userId) w;
  er_resets : everyRow (buried prt_userId prt_deletedAt userId) w;
  er_otp : everyRow (buried otp_userId otp_deletedAt (Some userId)) w;
  er_roles : everyRow (buried ur_userId ur_deletedAt userId) w;
  er_prefs : everyRow (buried pref_userId pref_deletedAt userId) w;
  er_deliveries : everyRow (buried del_userId del_deletedAt (Some userId)) w;
  er_members : everyRow (buried mem_userId mem_deletedAt userId) w;
  er_bandwidth : everyRow (fun b => bw_userId b <> userId) w;
  er_outbox : everyRow (payloadErased userId) w
}.

Ltac skip := apply post_skip; intros ?.
Ltac here := apply post_here; [|intros ?; unfold endSessions, requireOtherOwners, countActiveOwners,
                                eraseOutbox, addOutboxEvent; pres].

Lemma post_bury {R O} `{L : ModelLaws World R, EqDecision O} (owner : R -> O) userId :
  tx_post (everyRow (S := World) (buried owner softDeletedAt userId))
    (tx_deleteMany (fun r => (owner r === userId) && is_null (softDeletedAt r))).
Proof.
  apply post_deleteMany. intros r Hr Ho. cbn in Hr. rewrite Ho, bd_refl in Hr.
  by destruct (softDeletedAt r).
Qed.

Lemma post_buryUpdate {R O} `{L : ModelLaws World R, EqDecision O} (owner : R -> O) userId P f :
  (forall r, softDeletedAt r = None -> owner r = userId -> P r = true) ->
  (forall r, activeWhere P r = true -> owner (f r) = userId -> is_set (softDeletedAt (f r)) = true) ->
  tx_post (everyRow (S := World) (buried owner softDeletedAt userId)) (tx_updateMany P f).
Proof.
  intros HP Hf. apply post_updateMany; [exact Hf|]. intros r Hr Ho. cbn in Hr.
  destruct (softDeletedAt r) eqn:E; [done|]. by rewrite HP in Hr.
Qed.

Lemma erase_users t userId :
  tx_post (everyRow (S := World) (buried user_id user_deletedAt userId)) (eraseIdentity t userId).
Proof.
  unfold eraseIdentity. here. apply post_update; [done|].
  intros r Hr Ho. cbn in Hr. rewrite Ho, bd_refl in Hr. by destruct (user_deletedAt r).
Qed.

Lemma endSessions_over t userId reason :
  tx_post (everyRow (S := World) (sessionOver userId)) (endSessions t userId reason None).
Proof.
  unfold endSessions. here. apply post_updateMany; [done|].
  intros s Hs Hu Hd. cbn in Hs. rewrite Hu, Hd, bd_refl in Hs. by destruct (sess_revokedAt s).
Qed.

Lemma endSessions_tokens t userId reason :
  tx_post (everyRow (S := World) (tokenOver userId)) (endSessions t userId reason None).
Proof.
  unfold endSessions. skip. here. apply post_updateMany; [done|].
  intros r Hr Hu Hd. cbn in Hr. rewrite Hu, Hd, bd_refl in Hr. by destruct (rt_revokedAt r).
Qed.

Lemma erase_sessions t userId :
  tx_post (fun w : World => everyRow (sessionOver userId) w /\ everyRow (sessionAnonymous userId) w
    /\ everyRow (tokenOver userId) w) (eraseIdentity t userId).
Proof.
  unfold eraseIdentity. repeat apply post_and.
  - skip. here; [apply endSessions_over|]. apply pres_updateMany. intros w Hw s Hs.
    apply In_updateWhere in Hs as (s0 & Hs0 & ->). specialize (Hw s0 Hs0). by destruct (activeWhere _ s0).
  - skip. skip. here. apply post_updateMany; [done|].
    intros s Hs Hu Hd. cbn in Hs. by rewrite Hu, Hd, bd_refl in Hs.
  - skip. here. apply endSessions_tokens.
Qed.

Lemma erase_satellites t userId :
  tx_post (fun w : World => everyRow (buried dev_userId dev_deletedAt userId) w
    /\ everyRow (buried soc_userId soc_deletedAt userId) w
    /\ everyRow (buried prt_userId prt_deletedAt userId) w
    /\ everyRow (buried otp_userId otp_deletedAt (Some userId)) w
    /\ everyRow (buried ur_userId ur_deletedAt userId) w
    /\ everyRow (buried pref_userId pref_deletedAt userId) w
    /\ everyRow (buried del_userId del_deletedAt (Some userId)) w
    /\ everyRow (buried mem_userId mem_deletedAt userId) w
    /\ everyRow (fun b => bw_userId b <> userId) w) (eraseIdentity t userId).
Proof.
  unfold eraseIdentity. do 3 skip.
  repeat apply post_and.
  - here. exact (post_bury dev_userId userId).
  - do 1 skip. here. exact (post_bury soc_userId userId).
  - do 2 skip. here. exact (post_bury prt_userId userId).
  - do 3 skip. here. exact (post_bury otp_userId (Some userId)).
  - do 4 skip. here. exact (post_bury ur_userId userId).
  - do 5 skip. here. exact (post_bury pref_userId userId).
  - do 6 skip. here. refine (post_buryUpdate (R := NotificationDelivery) del_userId (Some userId) _ _ _ _); [|done].
    intros d Hd Ho. cbn in Hd. by rewrite Ho, Hd, bd_refl.
  - do 7 skip. here. refine (post_buryUpdate (R := Membership) mem_userId userId _ _ _ _); [|done].
    intros m Hm Ho. cbn in Hm. by rewrite Ho, Hm, bd_refl.
  - do 8 skip. here. apply post_deleteMany. intros b Hb Ho. cbn in Hb. by rewrite Ho, bd_refl in Hb.
Qed.

Lemma erase_outbox t ids userId :
  tx_post (everyRow (S := World) (payloadErased userId)) (eraseOutbox t ids userId).
Proof.
  unfold eraseOutbox. here.
  - apply post_updateMany; [done|]. intros e He Ht Hi Hd. cbn in He. unfold erasedOutboxWhere in He.
    by rewrite Ht, Hi, Hd, !bd_refl, orb_true_r in He.
  - apply pres_updateMany. intros w Hw e He. apply In_updateWhere in He as (e0 & He0 & ->).
    specialize (Hw e0 He0). by destruct (activeWhere _ e0).
Qed.

(** Nothing after the erasure of the identity touches what it erased. *)
Lemma transaction_erased amb userId cust ups ids meta :
  tx_post (erased (nowMs amb) userId) (deleteAccountTransaction amb userId cust ups ids meta).
Proof.
  intros w u w' Hrun.
  assert (Hpost : forall Q : World -> Prop, tx_post Q (eraseIdentity (nowMs amb) userId) ->
    (forall i, tx_pres Q (tx_update (fun u => up_id u === i) (erasedUpload (nowMs amb)))) ->
    tx_pres Q (eraseOutbox (nowMs amb) ids userId) ->
    (forall g s, Q s -> Q (put (R := IdempotencyRecord) g s)) ->
    (forall g s, Q s -> Q (put (R := StripeSubscription) g s)) ->
    (forall i, tx_pres Q (addOutboxEvent amb i)) -> (forall i, tx_pres Q (writeAuditEvent amb i)) -> Q w').
  { intros Q Hq H1 H2 H3 H4 H5 H6. revert Hrun. unfold deleteAccountTransaction.
    apply (post_skip Q). intros ?. apply post_here; [done|]. intros ?. pres; auto.
    - apply pres_deleteMany. auto.
    - apply pres_updateMany. auto. }
  assert (Hframe : forall Q : World -> Prop, tx_post Q (eraseIdentity (nowMs amb) userId) ->
    (forall g s, Q s -> Q (put (R := Upload) g s)) -> (forall g s, Q s -> Q (put (R := OutboxEvent) g s)) ->
    (forall g s, Q s -> Q (put (R := IdempotencyRecord) g s)) ->
    (forall g s, Q s -> Q (put (R := StripeSubscription) g s)) ->
    (forall g s, Q s -> Q (put (R := AuditEvent) g s)) -> (forall n s, Q s -> Q (s <| drawn := n |>)) -> Q w').
  { intros Q Hq H1 H2 H3 H4 H5 H6. apply Hpost; auto.
    - intros i. apply pres_update. auto.
    - unfold eraseOutbox. apply pres_bind; [|intros ?; apply pres_bind; [|intros ?; apply pres_ret]];
        apply pres_updateMany; auto.
    - intros i. apply pres_bind; [by apply pres_newId|intros ?]. apply pres_bind; [|intros ?; apply pres_ret].
      apply pres_create. auto.
    - intros i. by apply pres_writeAuditEvent. }
  pose proof (Hframe _ (erase_satellites _ _)) as Hsat.
  pose proof (Hframe _ (erase_sessions _ _)) as Hses.
  destruct Hsat as (? & ? & ? & ? & ? & ? & ? & ? & ?); try (intros; assumption).
  destruct Hses as (? & ? & ?); try (intros; assumption).
  constructor; try assumption.
  - apply Hframe; try (intros; assumption). apply erase_users.
  - clear Hpost Hframe. revert Hrun. unfold deleteAccountTransaction. do 3 skip.
    apply post_here; [apply erase_outbox|]. intros ?. pres.
    unfold addOutboxEvent. pres. apply pres_create. intros s Hs _ e He.
    apply in_app_or in He as [He|[<-|[]]]; [by apply Hs|]. done.
Qed.

End AccountSpec.

(** ** Witnesses *)

Definition demoDraw : OtpDraw := mkOtpDraw 123456 "salt" "iv".


(** Someone signs up with an address that is not theirs. *)
Definition squatted : World :=
  snd (@signupWithPassword demoPlatform demoNow demoDraw "salt" "a@example.com" "squatter-password" None
         demoMetadata emptyWorld).
(** The owner of the address logs in with their verified identity. *)
Definition taken : World :=
  snd (@loginWithSocial demoPlatform demoNow "owner-token" Soc_GOOGLE "id-token" None demoMetadata squatted).

(** A password set before the address was proved survives the proof. A stranger who signs up with
    someone's address cannot log in; once the owner logs in with a verified social identity the
    account is activated with the stranger's password still on it, and the stranger logs in. *)
Theorem squatter_password_survives_social_login :
  fst (@loginWithPassword demoPlatform demoNow "t1" "dummy" "a@example.com" "squatter-password" demoMetadata squatted)
    = Ok None
  /\ (exists pair, fst (@loginWithSocial demoPlatform demoNow "owner-token" Soc_GOOGLE "id-token" None
                          demoMetadata squatted) = Ok (Some pair))
  /\ (exists pair, fst (@loginWithPassword demoPlatform demoNow "t2" "dummy" "a@example.com" "squatter-password"
                          demoMetadata taken) = Ok (Some pair)).
Proof.
  split; [vm_compute; reflexivity|]. split; eexists; vm_compute; reflexivity.
Qed.
