(* ===== verification/PasswordsSpec.v ===== *)
(** * What the password services guarantee

    A login needs an active account and its password; a reset uses its token up, ends every session
    and leaves no other reset pending; a change spares only the session it was made in. *)

From Stdlib Require Import ZArith Lia Bool.
From S2P Require Import Prelude Store Database JsString Platform Request AuditTrail Tenancy Sessions SessionsSpec Outbox Otp Passwords Account AccountSpec.

Open Scope string_scope.

Section PasswordsSpec.
Context `{Platform}.

(** ** Login *)

Definition hasLiveSession (userId : string) (w : World) : Prop :=
  exists s, In s (sessions w) /\ sess_userId s = userId /\ sess_revokedAt s = None.

Lemma createSession_live amb tok userId meta w pair w' :
  createSession amb tok userId meta w = (Ok pair, w') -> hasLiveSession userId w'.
Proof.
  unfold createSession. intros (created & w1 & H1 & Hrun)%proc_bind_ok. apply transact_ok in H1.
  apply proc_ret_ok in Hrun as [_ <-]. revert H1. apply (post_skip (hasLiveSession userId)). intros org.
  apply post_skip; intros iph. apply post_skip; intros sid.
  apply post_here; [|intros ?; pres].
  intros s r s' Hc. apply create_ok in Hc as (_ & -> & _). eexists.
  split; [apply in_or_app; right; by left|done].
Qed.

(** The rows a failed login may not touch. *)
Definition credentialsUnchanged (us : list User) (ss : list Session) (ts : list RefreshToken) (w : World) : Prop :=
  users w = us /\ sessions w = ss /\ refreshTokens w = ts.

(** A login needs the password of an active account. Tokens are issued only if a live, active
    account has the address and the password verifies against its hash (an account without one is
    compared with the hash of a random secret); otherwise no user, session or token row changes. *)
Theorem login_requires_active_password amb tok dummy email password meta w r w' :
  loginWithPassword amb tok dummy email password meta w = (Ok r, w') ->
  match r with
  | Some _ => exists u, In u (users w) /\ user_email u = Some (normalizeEmail email)
      /\ user_status u = User_ACTIVE /\ user_deletedAt u = None
      /\ verifySecret (user_passwordHash u ??? dummy) password = true
      /\ exists s, In s (sessions w') /\ sess_userId s = user_id u /\ sess_revokedAt s = None
  | None => users w' = users w /\ sessions w' = sessions w /\ refreshTokens w' = refreshTokens w
  end.
Proof.
  intros Hrun. unfold loginWithPassword in Hrun.
  apply proc_bind_ok in Hrun as (found & w1 & H1 & Hrun). apply transact_ok in H1.
  assert (Hkeep : forall u o w2, writeAuditEvent amb (auditMetadata meta None "auth.login.failed" "user" o None) w
            = Ok (u, w2) -> credentialsUnchanged (users w) (sessions w) (refreshTokens w) w2).
  { intros u o w2 Hw. eapply (pres_writeAuditEvent (credentialsUnchanged (users w) (sessions w) (refreshTokens w)));
      [..|exact Hw]; done. }
  destruct found as [u|]; tx_store.
  - destruct (_ || _) eqn:E.
    + proc_inv Hrun. by eapply Hkeep.
    + apply proc_bind_ok in Hrun as (pair & w2 & Hs & Hrun). apply proc_ret_ok in Hrun as [<- <-].
      bools. exists u. do 5 (split; [done|]). by eapply createSession_live.
  - proc_inv Hrun. by eapply Hkeep.
Qed.

(** ** Reset *)

(** A reset token that could still be confirmed. *)
Definition resetPending (p : PasswordResetToken) : bool :=
  is_null (prt_usedAt p) && is_null (prt_deletedAt p).

(** What a completed reset leaves of a user. *)
Record resetDone (userId passwordHash : string) (w : World) : Prop := {
  rd_password : exists u, In u (users w) /\ user_id u = userId /\ user_passwordHash u = Some passwordHash;
  rd_sessions : everyRow (sessionOver userId) w;
  rd_tokens : everyRow (tokenOver userId) w;
  rd_pending : everyRow (fun p => prt_userId p = userId -> resetPending p = false) w
}.

Definition hasPassword (userId hash : string) (w : World) : Prop :=
  exists u, In u (users w) /\ user_id u = userId /\ user_passwordHash u = Some hash.

Lemma countWhere_one_update {R} (P : R -> bool) f (t : list R) :
  countWhere P t = 1 -> exists r, In r t /\ P r = true /\ In (f r) (updateWhere P f t).
Proof.
  intros Hc. assert (0 < countWhere P t) as (r & Hr & HP)%countWhere_pos by lia.
  exists r. split; [done|]. split; [done|]. apply In_updateWhere. exists r. by rewrite HP.
Qed.

(** The token the statement hit is the only one with its identifier. *)
Lemma used_not_pending t P id :
  (forall p, P p = true -> prt_id p = id) -> forall n : Z,
  List.NoDup (List.map prt_id t) -> countWhere P t = 1 ->
  forall p, In p (updateWhere P (fun p => p <| prt_usedAt := Some n |>) t) ->
  prt_id p = id -> resetPending p = false.
Proof.
  intros HP n Hnd Hc p (p0 & Hp0 & ->)%In_updateWhere Hid.
  destruct (P p0) eqn:E; [done|].
  assert (0 < countWhere P t) as (r & Hr & HPr)%countWhere_pos by lia.
  rewrite (NoDup_key_inj prt_id t p0 r Hnd Hp0 Hr) in E by (by rewrite (HP _ HPr)). congruence.
Qed.

Lemma applyReset_done amb reset hash meta w w' :
  List.NoDup (List.map prt_id (passwordResetTokens w)) ->
  applyReset amb reset hash meta w = Ok (true, w') -> resetDone (prt_userId reset) hash w'.
Proof.
  intros Hnd Hrun. unfold applyReset in Hrun.
  apply bind_ok in Hrun as (used & w1 & H1 & Hrun).
  destruct (negb (used =? 1)%nat) eqn:Eu; [by tx_inv Hrun|].
  apply bind_ok in Hrun as (consumed & w2 & H2 & Hrun).
  apply bind_ok in Hrun as (u1 & w3 & H3 & Hrun). tx_inv H3.
  apply bind_ok in Hrun as (updated & w4 & H4 & Hrun).
  apply bind_ok in Hrun as (u2 & w5 & H5 & Hrun). tx_inv H5.
  assert (Hpw : hasPassword (prt_userId reset) hash w5).
  { bools. subst. apply updateMany_ok in H4 as [Hn ->]. symmetry in Hn.
    destruct (countWhere_one_update _ (fun u => u <| user_passwordHash := Some hash |>) _ Hn)
      as (u & _ & HP & Hin). exists (u <| user_passwordHash := Some hash |>).
    split; [exact Hin|]. cbn in HP. bools. done. }
  assert (Hid : everyRow (fun p => prt_id p = prt_id reset -> resetPending p = false) w5).
  { bools. subst. apply updateMany_ok in H1 as [Hn ->]. apply updateMany_ok in H2 as [_ ->].
    apply updateMany_ok in H4 as [_ ->]. symmetry in Hn. 
    refine (used_not_pending _ _ _ _ _ Hnd Hn). intros p HP. cbn in HP. by bools. }
  constructor.
  - revert Hrun. apply (kept_by (hasPassword (prt_userId reset) hash)); [|done]. unfold endSessions. pres.
  - revert Hrun. apply (post_here (everyRow (sessionOver _))); [apply endSessions_over|intros ?; pres].
  - revert Hrun. apply (post_here (everyRow (tokenOver _))); [apply endSessions_tokens|intros ?; pres].
  - apply bind_ok in Hrun as (u3 & w6 & H6 & Hrun).
    assert (Hid6 : everyRow (fun p => prt_id p = prt_id reset -> resetPending p = false) w6).
    { revert H6. apply (kept_by (everyRow (S := World) (fun p => prt_id p = prt_id reset -> resetPending p = false)));
        [|done]. unfold endSessions. pres. }
    apply bind_ok in Hrun as (n & w7 & H7 & Hrun).
    assert (H8 : everyRow (fun p => prt_userId p = prt_userId reset -> resetPending p = false) w7).
    { apply updateMany_ok in H7 as [_ ->]. intros p (p0 & Hp0 & ->)%In_updateWhere Hu.
      destruct (activeWhere _ p0) eqn:E; [unfold resetPending; cbn; by rewrite andb_false_r|].
      destruct (decide (prt_id p0 = prt_id reset)) as [Heq|Hne]; [by apply Hid6|].
      cbn in E. rewrite Hu, bd_refl, (bd_ne _ _ Hne) in E. unfold resetPending.
      by destruct (prt_usedAt p0), (prt_deletedAt p0). }
    revert Hrun.
    apply (kept_by (everyRow (S := World) (fun p => prt_userId p = prt_userId reset -> resetPending p = false)));
      [pres|done].
Qed.

(** C20: a completed password reset ends everything the old password opened. The user has the new
    password, every session of theirs is revoked, none of their refresh tokens is live, and no reset
    token of theirs is pending any more: neither the one used nor any other. *)
Theorem password_reset_ends_everything amb salt token password meta w w' :
  List.NoDup (List.map prt_id (passwordResetTokens w)) ->
  confirmPasswordReset amb salt token password meta w = (Ok true, w') ->
  exists reset, In reset (passwordResetTokens w) /\ resetPending reset = true
    /\ (nowMs amb < prt_expiresAt reset)%Z
    /\ resetDone (prt_userId reset) (hashSecret salt password) w'.
Proof.
  intros Hnd Hrun. unfold confirmPasswordReset in Hrun.
  apply proc_bind_ok in Hrun as (hashes & w1 & H1 & Hrun). apply transact_ok, lift_ok in H1 as [_ ->].
  apply proc_bind_ok in Hrun as (found & w2 & H2 & Hrun). apply transact_ok in H2.
  destruct found as [reset|]; [|by proc_inv Hrun].
  apply findFirst_ok in H2 as (-> & Hin & Hd & HP). bools.
  apply proc_bind_ok in Hrun as (user & w3 & Hu & Hrun). apply transact_ok in Hu. injection Hu as <- <-.
  destruct (findFirst _ _) as [u|]; [|by proc_inv Hrun]. destruct (_ || _); [by proc_inv Hrun|].
  apply proc_bind_ok in Hrun as (changed & w4 & Ha & Hrun). apply transact_ok in Ha.
  apply proc_bind_ok in Hrun as (u2 & w5 & Hp & Hrun). apply proc_ret_ok in Hrun as [-> <-].
  exists reset. split; [done|]. split; [unfold resetPending; by apply andb_true_iff|]. split; [done|].
  apply applyReset_done in Ha; [|done].
  unfold publishChatRevocation in Hp. destruct (CHAT_ENABLED env); injection Hp as _ <-; destruct Ha; by constructor.
Qed.

(** ** Signup *)

Lemma addOutboxEvent_duplicate amb input w e :
  In e (outboxEvents w) -> ob_dedupeKey e = oi_dedupeKey input ->
  addOutboxEvent amb input w = Err (Known "P2002").
Proof.
  intros He Hk. unfold addOutboxEvent. rewrite (tx_step _ _ _ _ _ eq_refl). apply tx_step_err.
  unfold tx_create. destruct (existsb _ _) eqn:E; [done|]. exfalso.
  assert (existsb (clash (R := OutboxEvent) (mkOutboxEvent (uuid (drawn w)) (oi_aggregateType input)
    (oi_aggregateId input) (oi_eventType input) (oi_channel input) (oi_payload input) (oi_dedupeKey input)
    Ob_PENDING 0 0 (oi_availableAt input ??? nowMs amb) (oi_expiresAt input) None None None None None None
    None None (nowMs amb) (nowMs amb) None)) (outboxEvents w) = true); [|unfold table in E; cbn in *; congruence].
  apply existsb_exists. exists e. split; [done|]. cbn. by rewrite Hk, bd_refl, orb_true_r.
Qed.

Lemma addOutboxEvent_adds amb input w u w' : addOutboxEvent amb input w = Ok (u, w') ->
  exists e, outboxEvents w' = (outboxEvents w ++ [e])%list /\ ob_dedupeKey e = oi_dedupeKey input.
Proof.
  unfold addOutboxEvent. intros Hrun. tx_inv Hrun. injection Hrun0 as <- <-. tx_store. by eexists.
Qed.

Definition hasEvent (key : string) (w : World) : Prop :=
  exists e, In e (outboxEvents w) /\ ob_dedupeKey e = key.

(** Asking to sign up twice with a registered address is told apart from asking once. The first
    request is accepted like any other; a second one within the same clock hour violates the unique
    dedupe key of the notice and fails, changing nothing. *)
Theorem signup_retry_reveals_account amb amb2 draw draw2 salt salt2 email email2 pw pw2 dn dn2 meta meta2 w u w1 :
  findFirst (activeWhere (fun u => user_email u === Some (normalizeEmail email))) (users w) = Some u ->
  normalizeEmail email2 = normalizeEmail email ->
  (nowMs amb2 / 3600000 = nowMs amb / 3600000)%Z ->
  signupWithPassword amb draw salt email pw dn meta w = (Ok tt, w1) ->
  signupWithPassword amb2 draw2 salt2 email2 pw2 dn2 meta2 w1 = (Err (Known "P2002"), w1).
Proof.
  intros Hf He Ht Hrun. unfold signupWithPassword in Hrun |- *.
  rewrite (proc_step _ _ _ (Some u) w) in Hrun by (unfold tx_findFirst; by rewrite <- Hf).
  apply transact_ok in Hrun.
  set (key := "signup-existing:" ++ user_id u ++ ":" ++ show (nowMs amb / 3600000)%Z) in *.
  assert (Hu : users w1 = users w).
  { revert Hrun. apply (kept_by (fun w1 => users w1 = users w)); [|done]. unfold addOutboxEvent. pres. }
  assert (Hk : hasEvent key w1).
  { revert Hrun. apply (post_here (hasEvent key)); [|intros ?; pres].
    intros s a s' Ha. apply addOutboxEvent_adds in Ha as (e & Ha & Hd). exists e.
    rewrite Ha. split; [apply in_or_app; right; by left|done]. }
  destruct Hk as (e & Hin & Hd).
  rewrite (proc_step _ _ _ (Some u) w1) by (unfold tx_findFirst; rewrite He, <- Hf; cbn; by rewrite Hu).
  unfold transact. erewrite tx_step_err; [done|].
  eapply addOutboxEvent_duplicate; [exact Hin|]. rewrite Hd. cbn. by rewrite Ht.
Qed.
End PasswordsSpec.

(** ** Witnesses *)

Lemma login_requires_active_password_witness :
  exists pair w', @loginWithPassword demoPlatform demoNow "t" "dummy" "A@example.com" "Passw0rd!" demoMetadata userWorld
                  = (Ok (Some pair), w')
    /\ exists u, In u (users userWorld) /\ user_status u = User_ACTIVE.
Proof.
  assert (Hrun : exists pair w', @loginWithPassword demoPlatform demoNow "t" "dummy" "A@example.com" "Passw0rd!"
                                   demoMetadata userWorld = (Ok (Some pair), w'))
    by (eexists _, _; vm_compute; reflexivity).
  destruct Hrun as (pair & w' & Hrun). exists pair, w'. split; [exact Hrun|].
  destruct (@login_requires_active_password demoPlatform demoNow "t" "dummy" "A@example.com" "Passw0rd!"
              demoMetadata userWorld (Some pair) w' Hrun) as (u & Hu & _ & Hs & _).
  exists u. split; [exact Hu|exact Hs].
Defined.

(** A reset asked for, its code verified. *)
Definition resetAsked : World :=
  snd (@requestPasswordReset demoPlatform demoNow demoDraw "a@example.com" demoMetadata loggedIn).
Definition resetVerified : World :=
  snd (@verifyPasswordResetOtp demoPlatform demoNow "reset-token" "a@example.com" "123456" demoMetadata resetAsked).

Lemma password_reset_ends_everything_witness :
  exists w', @confirmPasswordReset demoPlatform demoNow "salt" "reset-token" "N3wPassword" demoMetadata resetVerified
             = (Ok true, w')
    /\ exists reset, In reset (passwordResetTokens resetVerified)
       /\ resetDone (prt_userId reset) "argon:N3wPassword" w'.
Proof.
  assert (Hrun : exists w', @confirmPasswordReset demoPlatform demoNow "salt" "reset-token" "N3wPassword"
                              demoMetadata resetVerified = (Ok true, w')) by (eexists; vm_compute; reflexivity).
  destruct Hrun as (w' & Hrun). exists w'. split; [exact Hrun|].
  assert (Hnd : List.NoDup (List.map prt_id (passwordResetTokens resetVerified))).
  { assert (Hlen : (List.length (passwordResetTokens resetVerified) <=? 1)%nat = true) by (vm_compute; reflexivity).
    destruct (passwordResetTokens resetVerified) as [|p [|q l]]; [constructor| |discriminate Hlen].
    constructor; [intros []|constructor]. }
  destruct (@password_reset_ends_everything demoPlatform demoNow "salt" "reset-token" "N3wPassword" demoMetadata
              resetVerified w' Hnd Hrun) as (reset & Hin & _ & _ & Hdone).
  exists reset. split; [exact Hin|exact Hdone].
Defined.

Lemma signup_retry_reveals_account_witness :
  exists w1, @signupWithPassword demoPlatform demoNow demoDraw "s" "a@example.com" "pw" None demoMetadata userWorld
             = (Ok tt, w1)
    /\ @signupWithPassword demoPlatform demoNow demoDraw "s" "a@example.com" "pw" None demoMetadata w1
       = (Err (Known "P2002"), w1).
Proof.
  assert (Hrun : exists w1, @signupWithPassword demoPlatform demoNow demoDraw "s" "a@example.com" "pw" None
                              demoMetadata userWorld = (Ok tt, w1)) by (eexists; vm_compute; reflexivity).
  destruct Hrun as (w1 & Hrun). exists w1. split; [exact Hrun|].
  exact (@signup_retry_reveals_account demoPlatform demoNow demoNow demoDraw demoDraw "s" "s" "a@example.com"
           "a@example.com" "pw" "pw" None None demoMetadata demoMetadata userWorld demoUser w1 eq_refl eq_refl
           eq_refl Hrun).
Defined.
