(* ===== verification/Organizations.v ===== *)
(** * Organizations, memberships and invitations

    modules/organizations/organizations.service.ts. A projection ([select]) returns the row. The
    advisory lock of [lockOrganizationMemberships] orders transactions, which run one at a time here;
    [countActiveOwners] is in Account.v, which uses it too. *)

From Stdlib Require Import ZArith Lia Bool.
From S2P Require Import Prelude Store Database JsString Pagination Platform Request AuditTrail Tenancy Sessions Outbox Account.

Open Scope string_scope.

Definition INVITATION_TTL_MS : Z := 7 * 24 * 60 * 60 * 1000.

(** ** [slugify] *)

Definition slugChar (c : ascii) : bool :=
  isDigit c || ((97 <=? code_of c) && (code_of c <=? 122))%nat.

(** [.replace(/[^a-z0-9]+/g, '-')]: [inRun] tells whether the previous character was replaced. *)
Fixpoint hyphenate (inRun : bool) (s : string) : string :=
  match s with
  | EmptyString => EmptyString
  | String c s' =>
      if slugChar c then String c (hyphenate false s')
      else if inRun then hyphenate true s' else String "-" (hyphenate true s')
  end.

(** [.replace(/^-+|-+$/g, '')] *)
Fixpoint dropHyphens (s : string) : string :=
  match s with
  | String c s' => if c === "-"%char then dropHyphens s' else s
  | EmptyString => EmptyString
  end.
Definition trimHyphens (s : string) : string :=
  str_reverse (dropHyphens (str_reverse (dropHyphens s))).

Definition slugify (value : string) : res string :=
  let slug := take_str 64 (trimHyphens (hyphenate false (toLowerCase value))) in
  if (String.length slug <? 2)%nat then Err (errors.badRequest "Organization name must yield a usable slug")
  else Ok slug.

(** The audit input of a service that spreads the request's metadata into it. *)
Definition requestAudit (metadata : RequestMetadata) (actor action entityType entityId : string)
    (extra : option Json) : AuditInput :=
  auditMetadata metadata (Some actor) action entityType (Some entityId) extra.

Section Organizations.
Context `{Platform}.

Definition assertAssignableRole (roleId organizationId : string) : Tx World Role :=
  role ← tx_findFirst (fun r => (role_id r === roleId) && is_null (role_deletedAt r)
    && (is_null (role_organizationId r) || (role_organizationId r === Some organizationId)));
  tx_require role (errors.badRequest "Role is not assignable in this organization").

(** [permissionEpoch: { increment: 1 }] on one user. *)
Definition bumpUserEpoch (userId : string) : Tx World unit :=
  _ ← tx_update (fun u => user_id u === userId) (fun u => u <| user_permissionEpoch ::= Z.add 1 |>);
  mret tt.

Definition listMyOrganizations (userId : string) : Tx World (list (Organization * option Role)) :=
  os ← tx_findMany_raw (fun o : Organization => is_null (org_deletedAt o));
  rs ← tx_findMany_raw (fun _ : Role => true);
  memberships ← tx_findMany (fun m => (mem_userId m === userId) && (mem_status m === Mem_ACTIVE)
    && is_null (mem_deletedAt m) && existsb (fun o => org_id o === mem_organizationId m) os);
  mret (flat_map (fun m =>
          match findFirst (fun o => org_id o === mem_organizationId m) os with
          | Some o => [(o, findFirst (fun r => role_id r === mem_roleId m) rs)]
          | None => []
          end) (orderByAsc mem_createdAt memberships)).

Definition getOrganization (organizationId : string) : Tx World Organization :=
  organization ← tx_findFirst (fun o => (org_id o === organizationId) && is_null (org_deletedAt o));
  tx_require organization (errors.notFound "Organization not found").

Definition createOrganization (amb : Ambient) (name : string) (slugInput : option string)
    (actorUserId : string) (metadata : RequestMetadata) : Proc World Organization :=
  if TENANCY_MODE env !== Tenancy_multi then
    throw (errors.conflict "Organizations can only be created when TENANCY_MODE=multi")
  else
    slug ← transact (match slugInput with Some s => mret s | None => tx_lift (slugify name) end);
    transact (
      existing ← tx_findFirst (fun o => org_slug o === slug);
      tx_guard (is_null existing) (errors.conflict "Organization slug is already taken");;
      orgId ← newId;
      organization ← tx_create (mkOrganization orgId slug name Org_ACTIVE 0 None None (nowMs amb) None);
      roleId ← findGlobalRoleId "owner";
      memId ← newId;
      _ ← tx_create (mkMembership memId (org_id organization) actorUserId roleId Mem_ACTIVE
            (Some (nowMs amb)) (nowMs amb) None);
      bumpUserEpoch actorUserId;;
      writeAuditEvent amb (requestAudit metadata actorUserId "organization.created" "organization"
        (org_id organization) (Some (JObj [("slug", JStr slug)])));;
      mret organization).

(** The input's keys that are present, for the audit. *)
Definition fieldNames (name : option string) (settings : option Json) : list Json :=
  (if name then [JStr "name"] else []) ++ (if settings then [JStr "settings"] else []).

Definition updateOrganization (amb : Ambient) (organizationId : string) (name : option string)
    (settings : option Json) (actorUserId : string) (metadata : RequestMetadata)
    : Proc World Organization :=
  transact (
    updated ← tx_updateMany (fun o => (org_id o === organizationId) && is_null (org_deletedAt o))
      (fun o => let o := match name with Some n => o <| org_name := n |> | None => o end in
                match settings with Some s => o <| org_settings := Some s |> | None => o end);
    tx_guard (negb (updated =? 0)%nat) (errors.notFound "Organization not found");;
    writeAuditEvent amb (requestAudit metadata actorUserId "organization.updated" "organization"
      organizationId (Some (JObj [("fields", JArr (fieldNames name settings))])));;
    found ← tx_findFirst (fun o => org_id o === organizationId);
    tx_require found (Known "P2025")).

Definition getOrganizationInTransaction (organizationId : string) : Tx World Organization :=
  found ← tx_findFirst (fun o => org_id o === organizationId);
  tx_require found (Known "P2025").

Definition switchOrganization (amb : Ambient) (userId sessionId organizationId : string)
    (metadata : RequestMetadata) : Proc World Organization :=
  organization ← transact (
    os ← tx_findMany_raw (fun o => (org_status o === Org_ACTIVE) && is_null (org_deletedAt o));
    membership ← tx_findFirst (fun m => (mem_userId m === userId)
      && (mem_organizationId m === organizationId) && (mem_status m === Mem_ACTIVE)
      && is_null (mem_deletedAt m) && existsb (fun o => org_id o === mem_organizationId m) os);
    tx_guard (is_set membership) (errors.forbidden "You are not an active member of that organization");;
    switched ← tx_updateMany (fun s => (sess_id s === sessionId) && (sess_userId s === userId)
        && is_null (sess_revokedAt s) && is_null (sess_deletedAt s))
      (fun s => s <| sess_activeOrganizationId := Some organizationId |>);
    tx_guard (negb (switched =? 0)%nat) (errors.unauthenticated "Authentication required");;
    writeAuditEvent amb (requestAudit metadata userId "organization.switched" "organization"
      organizationId None);;
    getOrganizationInTransaction organizationId);
  publishChatRevocation userId;;
  mret organization.

(** The rows [listMembers] pages through, in the order of the query. *)
Definition memberRows (organizationId : string) (ms : list Membership) : list Membership :=
  orderAscId mem_createdAt mem_id (findMany (activeWhere (fun m =>
    (mem_organizationId m === organizationId) && is_null (mem_deletedAt m))) ms).

Definition listMembers (organizationId : string) (input : CursorPaginationInput)
    : Proc World (CursorPage Membership) :=
  paginateCursor mem_id input
    (fun pagination w => (Ok (fetchRows mem_id (memberRows organizationId (memberships w)) pagination), w)).

(** A membership with [role: { select: { name } }], a required relation. *)
Definition findMember (organizationId userId : string) : Tx World (Membership * Role) :=
  target ← tx_findFirst (fun m => (mem_organizationId m === organizationId) && (mem_userId m === userId)
                                  && is_null (mem_deletedAt m));
  target ← tx_require target (errors.notFound "Membership not found");
  role ← tx_findFirst_raw (fun r => role_id r === mem_roleId target);
  role ← tx_require role (Failure "Inconsistent query result");
  mret (target, role).

(** [target.status === 'ACTIVE' && target.role.name === 'owner' && .. && countActiveOwners(..) <= 1] *)
Definition keepAnOwner (organizationId : string) (target : Membership) (role : Role) (losesOwner : bool)
    : Tx World unit :=
  if (mem_status target === Mem_ACTIVE) && (role_name role === "owner") && losesOwner then
    owners ← countActiveOwners organizationId;
    tx_guard (negb (owners <=? 1)%nat) (errors.conflict "An organization must keep at least one active owner")
  else mret tt.

Definition changeMemberRole (amb : Ambient) (organizationId userId roleId actorUserId : string)
    (metadata : RequestMetadata) : Proc World Membership :=
  transact (
    newRole ← assertAssignableRole roleId organizationId;
    found ← findMember organizationId userId;
    keepAnOwner organizationId (fst found) (snd found) (role_name newRole !== "owner");;
    changed ← tx_updateMany (fun m => (mem_id m === mem_id (fst found)) && is_null (mem_deletedAt m))
      (fun m => m <| mem_roleId := roleId |>);
    tx_guard (negb (changed =? 0)%nat) (errors.notFound "Membership not found");;
    bumpUserEpoch userId;;
    writeAuditEvent amb (requestAudit metadata actorUserId "organization.member.role_changed" "membership"
      (organizationId ++ ":" ++ userId)
      (Some (JObj [("organizationId", JStr organizationId); ("userId", JStr userId); ("roleId", JStr roleId)])));;
    member ← tx_findFirst (fun m => (mem_organizationId m === organizationId) && (mem_userId m === userId));
    tx_require member (Known "P2025")).

Definition removeMember (amb : Ambient) (organizationId userId actorUserId : string)
    (metadata : RequestMetadata) : Proc World unit :=
  transact (
    found ← findMember organizationId userId;
    keepAnOwner organizationId (fst found) (snd found) true;;
    _ ← tx_update (fun m => mem_id m === mem_id (fst found))
      (fun m => m <| mem_deletedAt := Some (nowMs amb) |> <| mem_status := Mem_SUSPENDED |>);
    _ ← tx_updateMany (fun s => (sess_userId s === userId)
                                && (sess_activeOrganizationId s === Some organizationId))
      (fun s => s <| sess_activeOrganizationId := None |>);
    bumpUserEpoch userId;;
    writeAuditEvent amb (requestAudit metadata actorUserId "organization.member.removed" "membership"
      (organizationId ++ ":" ++ userId)
      (Some (JObj [("organizationId", JStr organizationId); ("userId", JStr userId)]))));;
  publishChatRevocation userId.

Definition createInvitation (amb : Ambient) (token iv organizationId emailInput roleId actorUserId : string)
    (metadata : RequestMetadata) : Proc World (Invitation * string) :=
  let email := toLowerCase (trim emailInput) in
  invitation ← transact (
    _ ← assertAssignableRole roleId organizationId;
    organization ← tx_findFirst (fun o => (org_id o === organizationId) && is_null (org_deletedAt o));
    organization ← tx_require organization (Known "P2025");
    invitedUser ← tx_findFirst (fun u => (user_email u === Some email) && is_null (user_deletedAt u));
    tokenHash ← tx_lift (hashOpaqueToken token);
    id ← newId;
    created ← tx_create (mkInvitation id organizationId email roleId tokenHash
      (nowMs amb + INVITATION_TTL_MS)%Z None None (Some actorUserId) (nowMs amb) None);
    encryptedToken ← tx_lift (encryptSecret iv token);
    addOutboxEvent amb (mkOutboxInput "invitation" (inv_id created) "organization.invitation" Ch_EMAIL
      (JObj ([("destination", JStr email); ("invitationId", JStr (inv_id created));
              ("encryptedToken", JStr encryptedToken); ("organizationId", JStr organizationId);
              ("organizationName", JStr (org_name organization)); ("expiresInDays", JStr "7")]
             ++ match invitedUser with
                | Some u => [("userId", JStr (user_id u)); ("locale", JStr (user_locale u))]
                | None => [] end)%list)
      ("organization-invitation:" ++ inv_id created) None (Some (inv_expiresAt created)));;
    writeAuditEvent amb (requestAudit metadata actorUserId "organization.invitation.created" "invitation"
      (inv_id created) (Some (JObj [("organizationId", JStr organizationId); ("email", JStr email)])));;
    mret created);
  mret (invitation, token).

(** The invitation a token opens now. *)
Definition openInvitation (amb : Ambient) (hashes : list string) : Tx World (option Invitation) :=
  os ← tx_findMany_raw (fun o => (org_status o === Org_ACTIVE) && is_null (org_deletedAt o));
  tx_findFirst (fun i => existsb (String.eqb (inv_tokenHash i)) hashes && is_null (inv_acceptedAt i)
    && is_null (inv_revokedAt i) && is_null (inv_deletedAt i) && (nowMs amb <? inv_expiresAt i)%Z
    && existsb (fun o => org_id o === inv_organizationId i) os).

(** [user?.email && user.emailVerifiedAt && same address] *)
Definition invitedAddress (user : option User) (invitation : Invitation) : bool :=
  match user with
  | Some u => truthy (user_email u) && is_set (user_emailVerifiedAt u)
              && (toLowerCase (user_email u ??? "") === toLowerCase (inv_email invitation))
  | None => false
  end.

Definition acceptInvitation (amb : Ambient) (rawToken userId : string) (metadata : RequestMetadata)
    : Proc World Organization :=
  transact (
    hashes ← tx_lift (candidateOpaqueTokenHashes rawToken);
    invitation ← openInvitation amb hashes;
    invitation ← tx_require invitation (errors.notFound "Invitation is invalid or has expired");
    user ← tx_findFirst (fun u => (user_id u === userId) && is_null (user_deletedAt u));
    tx_guard (invitedAddress user invitation)
      (errors.forbidden "This invitation was issued to a different verified email address");;
    id ← newId;
    _ ← tx_upsert (fun m => (mem_organizationId m === inv_organizationId invitation) && (mem_userId m === userId))
      (mkMembership id (inv_organizationId invitation) userId (inv_roleId invitation) Mem_ACTIVE
         (Some (nowMs amb)) (nowMs amb) None)
      (fun m => m <| mem_roleId := inv_roleId invitation |> <| mem_status := Mem_ACTIVE |>
                  <| mem_deletedAt := None |> <| mem_joinedAt := Some (nowMs amb) |>);
    _ ← tx_update (fun i => inv_id i === inv_id invitation)
      (fun i => i <| inv_acceptedAt := Some (nowMs amb) |>);
    bumpUserEpoch userId;;
    writeAuditEvent amb (requestAudit metadata userId "organization.invitation.accepted" "invitation"
      (inv_id invitation) (Some (JObj [("organizationId", JStr (inv_organizationId invitation))])));;
    getOrganizationInTransaction (inv_organizationId invitation)).

Definition revokeInvitation (amb : Ambient) (organizationId invitationId actorUserId : string)
    (metadata : RequestMetadata) : Proc World unit :=
  transact (
    revoked ← tx_updateMany (fun i => (inv_id i === invitationId) && (inv_organizationId i === organizationId)
        && is_null (inv_acceptedAt i) && is_null (inv_revokedAt i))
      (fun i => i <| inv_revokedAt := Some (nowMs amb) |>);
    tx_guard (negb (revoked =? 0)%nat) (errors.notFound "Invitation not found");;
    writeAuditEvent amb (requestAudit metadata actorUserId "organization.invitation.revoked" "invitation"
      invitationId (Some (JObj [("organizationId", JStr organizationId)])))).
End Organizations.
