(* ===== verification/OrganizationsSpec.v ===== *)
(** * What the organization services guarantee

    An organization that has an active owner keeps one through every operation but one; the exception,
    accepting an invitation, is shown. *)

From Stdlib Require Import ZArith Lia Bool.
From stdpp Require Import relations.
From S2P Require Import Prelude Store Database JsString Pagination Platform Request AuditTrail Tenancy Sessions SessionsSpec Outbox Otp Account AccountSpec Organizations.

Open Scope string_scope.

(** ** Owners *)

(** The active owners of an organization. *)
Definition owners (organizationId : string) (rs : list Role) (ms : list Membership) : nat :=
  countWhere (activeOwner rs organizationId) ms.

Record membershipsOk (rs : list Role) (ms : list Membership) : Prop := {
  mo_ids : List.NoDup (List.map mem_id ms);
  mo_pairs : List.NoDup (List.map (fun m => (mem_organizationId m, mem_userId m)) ms);
  mo_roles : List.NoDup (List.map role_id rs)
}.

(** The organization is well formed and has an active owner. *)
Definition owned (organizationId : string) (w : World) : Prop :=
  membershipsOk (roles w) (memberships w) /\ 0 < owners organizationId (roles w) (memberships w).

Lemma activeOwner_active rs o m : activeWhere (activeOwner rs o) m = activeOwner rs o m.
Proof.
  unfold activeOwner. cbn. destruct (mem_deletedAt m); [|done].
  by rewrite !andb_false_r.
Qed.

(** The role of a membership tells whether it is an owner's. *)
Lemma hasRole_owner rs m r : List.NoDup (List.map role_id rs) -> In r rs -> role_id r = mem_roleId m ->
  hasRole (findMany ownerRole rs) m = ownerRole r.
Proof.
  intros Hnd Hr Hid. unfold hasRole. destruct (ownerRole r) eqn:E.
  - apply existsb_exists. exists r. split; [by apply In_findMany|]. by apply bool_decide_true.
  - apply not_true_is_false. intros (r' & [Hr' Ho]%In_findMany & Hid')%existsb_exists. bools.
    rewrite (NoDup_key_inj role_id rs r' r) in Ho; congruence.
Qed.

Lemma activeOwner_intro rs o m r : List.NoDup (List.map role_id rs) -> In r rs -> role_id r = mem_roleId m ->
  ownerRole r = true -> mem_organizationId m = o -> mem_status m = Mem_ACTIVE -> mem_deletedAt m = None ->
  activeOwner rs o m = true.
Proof.
  intros Hnd Hr Hid Ho <- Hs Hd. unfold activeOwner.
  by rewrite (hasRole_owner rs m r Hnd Hr Hid), Ho, Hs, Hd, !bd_refl.
Qed.

Section OrganizationsSpec.
Context `{Platform}.

Lemma countActiveOwners_ok o w n w' : countActiveOwners o w = Ok (n, w') ->
  w' = w /\ n = owners o (roles w) (memberships w).
Proof.
  unfold countActiveOwners. intros (rs & w1 & H1 & Hrun)%bind_ok. injection H1 as <- <-.
  injection Hrun as <- <-. split; [done|]. unfold owners.
  assert (Hall : forall l : list Role, findMany (fun _ => true) l = l)
    by (intros l; unfold findMany; induction l; cbn; congruence).
  rewrite Hall. apply countWhere_ext. intros m _. apply activeOwner_active.
Qed.

Lemma findMember_ok o u w t r w' : findMember o u w = Ok ((t, r), w') ->
  w' = w /\ In t (memberships w) /\ mem_deletedAt t = None /\ mem_organizationId t = o /\ mem_userId t = u
  /\ In r (roles w) /\ role_id r = mem_roleId t.
Proof.
  unfold findMember. intros Hrun. apply bind_ok in Hrun as (f & w1 & H1 & Hrun).
  apply bind_ok in Hrun as (t' & w2 & H2 & Hrun). apply require_ok in H2 as [-> ->].
  apply findFirst_ok in H1 as (-> & Hin & Hd & HP). bools.
  apply bind_ok in Hrun as (rr & w3 & H3 & Hrun). apply bind_ok in Hrun as (r' & w4 & H4 & Hrun).
  apply require_ok in H4 as [-> ->]. injection H3 as Hf <-. apply ret_ok in Hrun as [[= -> ->] <-].
  apply findFirst_Some in Hf as [Hr HPr]. bools. done.
Qed.

(** *** One row of the memberships changes *)

(** An update of the one membership with an identifier. *)
Definition byId (t : Membership) (m : Membership) : bool := (mem_id m === mem_id t) && is_null (mem_deletedAt m).

Lemma membershipsOk_update rs ms P f :
  (forall m, mem_id (f m) = mem_id m /\ mem_organizationId (f m) = mem_organizationId m
             /\ mem_userId (f m) = mem_userId m) ->
  membershipsOk rs ms -> membershipsOk rs (updateWhere P f ms).
Proof.
  intros Hf [Hi Hp Hr]. constructor; [| |done].
  - rewrite map_updateWhere; [done|]. intros; apply Hf.
  - rewrite map_updateWhere; [done|]. intros m _. by destruct (Hf m) as (_ & -> & ->).
Qed.

(** Losing at most one owner, of several. *)
Lemma owners_lose_one o rs ms P f : List.NoDup (List.map mem_id ms) ->
  (exists id, forall m, P m = true -> mem_id m = id) ->
  1 < owners o rs ms -> 0 < owners o rs (updateWhere P f ms).
Proof.
  intros Hnd [id HP] Hc. unfold owners in *.
  pose proof (countWhere_update_ge P (activeOwner rs o) f ms).
  assert (countWhere (fun m => P m && activeOwner rs o m) ms <= 1); [|lia].
  apply (countWhere_key_le1 mem_id _ _ id Hnd). intros m Hm. bools. auto.
Qed.

(** Nobody of the organization loses the role. *)
Lemma owners_keep o rs ms P f :
  (forall m, In m ms -> P m = true -> activeOwner rs o m = true -> activeOwner rs o (f m) = true) ->
  0 < owners o rs ms -> 0 < owners o rs (updateWhere P f ms).
Proof.
  intros Hf (m & Hm & Ho)%countWhere_pos. apply countWhere_pos.
  exists (if P m then f m else m). split; [apply In_updateWhere; eauto|].
  destruct (P m) eqn:E; auto.
Qed.

Lemma keepAnOwner_ok o t r b w u w' : keepAnOwner o t r b w = Ok (u, w') ->
  w' = w /\ (mem_status t = Mem_ACTIVE -> role_name r = "owner" -> b = true ->
             1 < owners o (roles w) (memberships w)).
Proof.
  unfold keepAnOwner. destruct (_ && _) eqn:E; intros Hrun.
  - apply bind_ok in Hrun as (n & w1 & H1 & Hrun). apply countActiveOwners_ok in H1 as [-> ->].
    apply guard_ok in Hrun as [Hg <-]. split; [done|]. bools. lia.
  - apply ret_ok in Hrun as [_ <-]. split; [done|]. intros Hs Hr ->. by rewrite Hs, Hr, !bd_refl in E.
Qed.

(** An update of a member who is not an active owner, or whose organization has others. *)
Lemma owned_update o rs ms t r P f :
  membershipsOk rs ms -> In t ms -> mem_deletedAt t = None -> In r rs -> role_id r = mem_roleId t ->
  (forall m, P m = true -> mem_id m = mem_id t) ->
  (mem_organizationId t = o -> mem_status t = Mem_ACTIVE -> role_name r = "owner" ->
     1 < owners o rs ms \/ activeOwner rs o (f t) = true) ->
  0 < owners o rs ms -> 0 < owners o rs (updateWhere P f ms).
Proof.
  intros [Hi Hp Hr] Ht Hd Hin Hid HP Hmany Hc.
  destruct (decide (1 < owners o rs ms)) as [Hgt|Hle].
  { apply owners_lose_one; eauto. }
  apply owners_keep; [|done]. intros m Hm HPm Ho.
  rewrite (NoDup_key_inj mem_id ms m t Hi Hm Ht (HP _ HPm)) in *. unfold activeOwner in Ho. bools.
  match goal with Hh : hasRole _ _ = true |- _ => rewrite (hasRole_owner rs t r Hr Hin Hid) in Hh end.
  unfold ownerRole in *. bools. destruct Hmany; auto; lia.
Qed.

(** *** The operations *)

Lemma bumpUserEpoch_owned o u : tx_pres (owned o) (bumpUserEpoch u).
Proof. unfold bumpUserEpoch. pres. Qed.

Lemma changeMemberRole_owned o amb org u role actor meta :
  proc_pres (owned o) (changeMemberRole amb org u role actor meta).
Proof.
  apply pres_transact. intros w m w' [Hok Hc] Hrun.
  apply bind_ok in Hrun as (newRole & w1 & Har & Hrun).
  unfold assertAssignableRole in Har. apply bind_ok in Har as (f & w0 & Hff & Har).
  apply require_ok in Har as [-> ->]. apply findFirst_ok in Hff as (-> & Hnr & _ & HP). bools.
  apply bind_ok in Hrun as ([t r] & w2 & Hfm & Hrun).
  apply findMember_ok in Hfm as (-> & Ht & Hd & Ho & Hu & Hr & Hid).
  apply bind_ok in Hrun as (? & w3 & Hkp & Hrun). apply keepAnOwner_ok in Hkp as [-> Hk]. cbn [fst snd] in *.
  apply bind_ok in Hrun as (n & w4 & Hup & Hrun). apply updateMany_ok in Hup as [_ ->].
  revert Hrun. apply (kept_by (owned o)); [unfold bumpUserEpoch; pres|]. split.
  - apply membershipsOk_update; [done|exact Hok].
  - apply (owned_update o _ _ t r); auto.
    + intros y Hy. cbn in Hy. by bools.
    + intros Hto Hs Hn. destruct (decide (role_name newRole = "owner")) as [Hown|Hne].
      * right. apply (activeOwner_intro _ _ _ newRole); auto; [apply Hok|]. unfold ownerRole.
        rewrite Hown, bd_refl. by match goal with E : is_null (role_deletedAt newRole) = true |- _ => rewrite E end.
      * left. rewrite <- Hto, Ho. apply Hk; auto. by rewrite (bd_ne _ _ Hne).
Qed.

Lemma removeMember_owned o amb org u actor meta : proc_pres (owned o) (removeMember amb org u actor meta).
Proof.
  apply pres_proc_bind; [|intros _ w Hw; unfold publishChatRevocation; by destruct (CHAT_ENABLED env)].
  apply pres_transact. intros w m w' [Hok Hc] Hrun.
  apply bind_ok in Hrun as ([t r] & w2 & H2 & Hrun).
  apply findMember_ok in H2 as (-> & Ht & Hd & Ho & Hu & Hr & Hid).
  apply bind_ok in Hrun as (? & w3 & H3 & Hrun). apply keepAnOwner_ok in H3 as [-> Hk]. cbn [fst snd] in *.
  apply bind_ok in Hrun as (n & w4 & H4 & Hrun). apply update_ok in H4 as [-> _].
  revert Hrun. apply (kept_by (owned o)); [unfold bumpUserEpoch; pres|]. split.
  - apply membershipsOk_update; [done|exact Hok].
  - apply (owned_update o _ _ t r); auto.
    + intros y Hy. cbn in Hy. by bools.
    + intros Hto Hs Hn. left. rewrite <- Hto, Ho. by apply Hk.
Qed.

(** A new membership, of an organization and a user that had none. *)
Lemma owned_create o (m : Membership) : tx_pres (owned o) (tx_create m).
Proof.
  apply pres_create. intros w [[Hi Hp Hr] Hc] Hcl.
  assert (Hno : forall x, In x (memberships w) -> clash m x = false).
  { intros x Hx. destruct (clash m x) eqn:E; [|done].
    rewrite <- Hcl. symmetry. apply existsb_exists. eauto. }
  split; [constructor; [| |done]|].
  - cbn. rewrite List.map_app. apply List.NoDup_app; [done|repeat constructor; auto|].
    intros k (x & <- & Hx)%List.in_map_iff [Hk|[]]. specialize (Hno x Hx). cbn in Hno.
    by rewrite Hk, bd_refl in Hno.
  - cbn. rewrite List.map_app. apply List.NoDup_app; [done|repeat constructor; auto|].
    intros k (x & <- & Hx)%List.in_map_iff [[= H1 H2]|[]]. specialize (Hno x Hx). cbn in Hno.
    by rewrite H1, H2, !bd_refl, orb_true_r in Hno.
  - change (0 < owners o (roles w) (memberships w ++ [m])%list). unfold owners in *.
    rewrite countWhere_app. lia.
Qed.

Lemma createOrganization_owned o amb name slug actor meta :
  proc_pres (owned o) (createOrganization amb name slug actor meta).
Proof.
  unfold createOrganization, findGlobalRoleId, bumpUserEpoch. pres. apply owned_create.
Qed.

(** *** Account deletion *)

(** Suspending a user's memberships, when every organization they own has another owner. *)
Lemma owned_leave o u rs ms f :
  membershipsOk rs ms ->
  (forall m, In m ms -> mem_userId m = u -> activeOwner rs o m = true -> 1 < owners o rs ms) ->
  0 < owners o rs ms ->
  0 < owners o rs (updateWhere (activeWhere (fun m => (mem_userId m === u) && is_null (mem_deletedAt m))) f ms).
Proof.
  intros Hok Hmany Hc. set (P := activeWhere _).
  destruct (decide (1 < owners o rs ms)) as [Hgt|Hle].
  - unfold owners in *. pose proof (countWhere_update_ge P (activeOwner rs o) f ms).
    assert (countWhere (fun m => P m && activeOwner rs o m) ms <= 1); [|lia].
    apply (countWhere_key_le1 (fun m => (mem_organizationId m, mem_userId m)) _ _ (o, u) (mo_pairs _ _ Hok)).
    intros m Hm. unfold P, activeOwner in Hm. cbn in Hm. bools. congruence.
  - apply owners_keep; [|done]. intros m Hm HP Ho. exfalso. apply Hle. apply (Hmany m); [done| |done].
    unfold P in HP. cbn in HP. by bools.
Qed.

Lemma requireOtherOwners_ok u w x w' : requireOtherOwners u w = Ok (x, w') ->
  w' = w /\ forall o m, In m (memberships w) -> mem_userId m = u -> activeOwner (roles w) o m = true ->
    1 < owners o (roles w) (memberships w).
Proof.
  unfold requireOtherOwners. intros (rs & w1 & H1 & Hrun)%bind_ok. injection H1 as <- <-.
  assert (Hall : forall l : list Role, findMany (fun _ => true) l = l)
    by (intros l; unfold findMany; induction l; cbn; congruence).
  rewrite Hall in Hrun. apply bind_ok in Hrun as (oms & w1 & H1 & Hrun). apply findMany_ok in H1 as [-> ->].
  assert (Hfor : forall l s s' y, tx_for l (fun organizationId =>
      owners ← countActiveOwners organizationId;
      tx_guard (negb (owners <=? 1)%nat)
        (errors.conflict "Transfer ownership or add another owner before deleting this account")) s = Ok (y, s') ->
      s' = s /\ forall o, In o l -> 1 < owners o (roles s) (memberships s)).
  { induction l as [|o l IH]; intros s s' y Hl; cbn in Hl.
    - apply ret_ok in Hl as [_ <-]. by split.
    - apply bind_ok in Hl as (z & s1 & Ho & Hl). apply bind_ok in Ho as (n & s2 & Hn & Hg).
      apply countActiveOwners_ok in Hn as [-> ->]. apply guard_ok in Hg as [Hg <-].
      apply IH in Hl as [-> Hl]. split; [done|]. intros o' [<-|Ho']; [bools; lia|auto]. }
  apply Hfor in Hrun as [-> Ho]. split; [done|]. intros o m Hm Hu Hao. apply Ho.
  unfold sortStrings. apply list_elem_of_In. rewrite sorting.merge_sort_Permutation. apply list_elem_of_In.
  unfold activeOwner in Hao. bools. subst. apply List.in_map_iff. exists m. split; [done|].
  apply In_findMany. split; [done|]. cbn.
  repeat match goal with E : _ = _ |- _ => rewrite E end. rewrite ?bd_refl.
  destruct (mem_deletedAt m); done.
Qed.

(** Owned, and still owned should the user leave. *)
Definition leaving (o u : string) (w : World) : Prop :=
  owned o w /\ forall m, In m (memberships w) -> mem_userId m = u -> activeOwner (roles w) o m = true ->
    1 < owners o (roles w) (memberships w).

Lemma eraseIdentity_leaving o t u : tx_pres (leaving o u) (eraseIdentity t u).
Proof.
  unfold eraseIdentity, endSessions. pres. apply pres_updateMany. intros w [[Hok Hc] Hmany]. split.
  - split; [by apply membershipsOk_update|by apply owned_leave].
  - intros m (m0 & Hm0 & ->)%In_updateWhere Hu Ho. exfalso. revert Ho.
    destruct (activeWhere _ m0) eqn:E; unfold activeOwner; cbn; [by rewrite ?andb_false_r|].
    cbn in E. rewrite Hu, bd_refl in E. destruct (mem_deletedAt m0); [|done]. by rewrite !andb_false_r.
Qed.

Lemma deleteAccount_owned o amb u confirmation meta : proc_pres (owned o) (deleteAccount amb u confirmation meta).
Proof.
  unfold deleteAccount, withoutTenantScope, runWithRequestContext, deleteAccountUnscoped, confirmCredential,
    confirmSocial.
  pres; try (intros w Hw; unfold publishChatRevocation; by destruct (CHAT_ENABLED env)).
  intros w x w' Hw Hrun. unfold deleteAccountTransaction in Hrun.
  apply bind_ok in Hrun as (y & w1 & H1 & Hrun). apply requireOtherOwners_ok in H1 as [-> Hmany].
  apply bind_ok in Hrun as (z & w2 & H2 & Hrun). revert Hrun.
  apply (kept_by (owned o)); [unfold eraseOutbox, addOutboxEvent; pres|].
  apply eraseIdentity_leaving with (o := o) in H2; [apply H2|]. split; [done|]. exact (Hmany o).
Qed.

(** One operation on memberships other than accepting an invitation, or anything that leaves
    memberships and roles alone (the rest of organizations.service.ts does). *)
Inductive org_step : World -> World -> Prop :=
  | os_create amb name slug actor meta w : org_step w (snd (createOrganization amb name slug actor meta w))
  | os_role amb org u role actor meta w : org_step w (snd (changeMemberRole amb org u role actor meta w))
  | os_remove amb org u actor meta w : org_step w (snd (removeMember amb org u actor meta w))
  | os_switch amb u sid org meta w : org_step w (snd (switchOrganization amb u sid org meta w))
  | os_update amb org name settings actor meta w :
      org_step w (snd (updateOrganization amb org name settings actor meta w))
  | os_invite amb token iv org email role actor meta w :
      org_step w (snd (createInvitation amb token iv org email role actor meta w))
  | os_revoke amb org inv actor meta w : org_step w (snd (revokeInvitation amb org inv actor meta w))
  | os_deleteAccount amb u confirmation meta w : org_step w (snd (deleteAccount amb u confirmation meta w))
  | os_other w w' : memberships w' = memberships w -> roles w' = roles w -> org_step w w'.

(** C30: an organization keeps an active owner. Once it has one, no sequence of role changes, removals,
    account deletions, new organizations, switches and invitations (whoever acts, whether the calls
    succeed or fail) leaves it without; accepting an invitation is the one operation left out. *)
Theorem organization_keeps_an_owner o w w' :
  owned o w -> rtc org_step w w' -> 0 < owners o (roles w') (memberships w').
Proof.
  intros Hw Hsteps. assert (Hw' : owned o w'); [|apply Hw'].
  induction Hsteps as [|w w1 w' Hstep Hsteps IH]; [done|]. apply IH. clear IH Hsteps. destruct Hstep.
  - by apply createOrganization_owned.
  - by apply changeMemberRole_owned.
  - by apply removeMember_owned.
  - assert (Hp : proc_pres (owned o) (switchOrganization amb u sid org meta)); [|by apply Hp].
    unfold switchOrganization, getOrganizationInTransaction. pres.
    intros s Hs. unfold publishChatRevocation. by destruct (CHAT_ENABLED env).
  - assert (Hp : proc_pres (owned o) (updateOrganization amb org name settings actor meta)); [|by apply Hp].
    unfold updateOrganization. pres.
  - assert (Hp : proc_pres (owned o) (createInvitation amb token iv org email role actor meta)); [|by apply Hp].
    unfold createInvitation, assertAssignableRole, addOutboxEvent. pres.
  - assert (Hp : proc_pres (owned o) (revokeInvitation amb org inv actor meta)); [|by apply Hp].
    unfold revokeInvitation. pres.
  - by apply deleteAccount_owned.
  - match goal with H1 : memberships _ = _, H2 : roles _ = _ |- _ => unfold owned; rewrite H1, H2; exact Hw end.
Qed.
End OrganizationsSpec.

(** ** Witnesses *)

Definition globalRole (id name : string) : Role := mkRole id None name None 0 None.
Definition otherUser : User :=
  mkUser "u2" (Some "b@example.com") None None None "en" None None 0 User_ACTIVE (Some 1%Z) None None 0 None.
Definition invitedOwner : Invitation :=
  mkInvitation "i1" "o1" "a@example.com" "r-member" "v1.k2.new-master/opaque-token#invite" 900000 None None
    (Some "u2") 0 None.
(** One organization, its owner [u1], a member [u2], and an invitation as member to the owner's address. *)
Definition orgWorld : World :=
  emptyWorld <| users := [demoUser <| user_emailVerifiedAt := Some 1%Z |>; otherUser] |>
    <| organizations := [mkOrganization "o1" "acme" "Acme" Org_ACTIVE 0 None None 0 None] |>
    <| roles := [globalRole "r-owner" "owner"; globalRole "r-member" "member"] |>
    <| memberships := [mkMembership "m1" "o1" "u1" "r-owner" Mem_ACTIVE (Some 0%Z) 0 None;
                       mkMembership "m2" "o1" "u2" "r-member" Mem_ACTIVE (Some 0%Z) 0 None] |>
    <| invitations := [invitedOwner] |>.

Lemma orgWorld_owned : owned "o1" orgWorld.
Proof.
  split; [constructor|vm_compute; lia]; cbn; repeat constructor; cbn; intuition discriminate.
Qed.

(** The owner is made sole owner no longer: a second owner first, then the role change. *)
Lemma organization_keeps_an_owner_witness :
  exists w', rtc (@org_step demoPlatform) orgWorld w'
    /\ 0 < owners "o1" (roles w') (memberships w') /\ List.map mem_roleId (memberships w') = ["r-member"; "r-owner"].
Proof.
  pose (w1 := snd (@changeMemberRole demoPlatform demoNow "o1" "u2" "r-owner" "u1" demoMetadata orgWorld)).
  pose (w2 := snd (@changeMemberRole demoPlatform demoNow "o1" "u1" "r-member" "u2" demoMetadata w1)).
  assert (Hsteps : rtc (@org_step demoPlatform) orgWorld w2).
  { apply (rtc_l _ orgWorld w1 w2).
    - exact (os_role demoNow "o1" "u2" "r-owner" "u1" demoMetadata orgWorld).
    - apply rtc_once. exact (os_role demoNow "o1" "u1" "r-member" "u2" demoMetadata w1). }
  exists w2. split; [exact Hsteps|]. split; [|vm_compute; reflexivity].
  exact (@organization_keeps_an_owner demoPlatform "o1" orgWorld w2 orgWorld_owned Hsteps).
Defined.

(** Accepting an invitation can take the last owner away. The only active owner of an organization,
    holding an invitation to it with a lesser role, accepts it: the call succeeds and the organization
    has no owner left. *)
Theorem accepting_invitation_demotes_last_owner :
  owned "o1" orgWorld
  /\ exists organization w', @acceptInvitation demoPlatform demoNow "invite" "u1" demoMetadata orgWorld
                             = (Ok organization, w')
      /\ owners "o1" (roles w') (memberships w') = 0.
Proof. split; [exact orgWorld_owned|]. eexists _, _. split; vm_compute; reflexivity. Qed.
