(* ===== verification/Roles.v ===== *)
(** * Roles and permissions

    modules/roles/roles.service.ts. *)

From Stdlib Require Import ZArith Lia Bool.
From S2P Require Import Prelude Store Database JsString Pagination Platform Request AuditTrail Tenancy Sessions Outbox Account Organizations.

Open Scope string_scope.

Definition inList (x : string) (l : list string) : bool := existsb (String.eqb x) l.

(** [[...new Set(codes)]]: first occurrences, in order. *)
Fixpoint unique (l : list string) : list string :=
  match l with
  | [] => []
  | x :: l' => x :: List.filter (fun y => negb (String.eqb x y)) (unique l')
  end.

(** A role with the codes and descriptions of its permissions ([rolePermissionSelect]). *)
Definition RoleView : Type := Role * list (string * option string).

Section Roles.
Context `{Platform}.

(** [permissions: { where: { deletedAt: null } }] of a role, through the nested relation. *)
Definition rolePermissionRows (roleId : string) (rps : list RolePermission) (ps : list Permission)
    : list (string * option string) :=
  flat_map (fun rp => match findFirst (fun p => perm_id p === rp_permissionId rp) ps with
                      | Some p => [(perm_code p, perm_description p)]
                      | None => []
                      end)
    (findMany (fun rp => (rp_roleId rp === roleId) && is_null (rp_deletedAt rp)) rps).

Definition includePermissions (role : Role) : Tx World RoleView :=
  rps ← tx_findMany_raw (fun _ : RolePermission => true);
  ps ← tx_findMany_raw (fun _ : Permission => true);
  mret (role, rolePermissionRows (role_id role) rps ps).

(** [user.updateMany({ where: { roles: { some: .. } } })] *)
Definition bumpPermissionEpochForRoleHolders (roleId : string) : Tx World unit :=
  holders ← tx_findMany_raw (fun ur => (ur_roleId ur === roleId) && is_null (ur_deletedAt ur));
  _ ← tx_updateMany (fun u => existsb (fun ur => ur_userId ur === user_id u) holders)
        (fun u => u <| user_permissionEpoch ::= Z.add 1 |>);
  mret tt.

Definition role_name_le (a b : Role) : Prop := str_le (role_name a) (role_name b).
#[export] Instance role_name_le_dec : RelDecision role_name_le.
Proof. intros a b. unfold role_name_le, str_le. exact _. Defined.

Definition listRoles : Tx World (list RoleView) :=
  found ← tx_findMany (fun r : Role => is_null (role_deletedAt r));
  rps ← tx_findMany_raw (fun _ : RolePermission => true);
  ps ← tx_findMany_raw (fun _ : Permission => true);
  mret (List.map (fun r => (r, rolePermissionRows (role_id r) rps ps))
          (sorting.merge_sort role_name_le found)).

Definition createRole (amb : Ambient) (name : string) (description : option string)
    (codes : list string) (actorUserId : string) (metadata : RequestMetadata) : Proc World Role :=
  transact (
    id ← newId;
    role ← tx_create (mkRole id None name description (nowMs amb) None);
    tx_for codes (fun code =>
      permission ← tx_findFirst_raw (fun p => perm_code p === code);
      permission ← tx_require permission (Known "P2025");
      rpId ← newId;
      _ ← tx_create (mkRolePermission rpId (role_id role) (perm_id permission) None);
      mret tt);;
    writeAuditEvent amb (requestAudit metadata actorUserId "role.created" "role" (role_id role) None);;
    mret role).

Definition assignRole (amb : Ambient) (userId roleId actorUserId : string) (metadata : RequestMetadata)
    : Proc World UserRole :=
  transact (
    role ← tx_findFirst (fun r => (role_id r === roleId) && is_null (role_organizationId r)
                                  && is_null (role_deletedAt r));
    _ ← tx_require role (errors.badRequest
      "Platform role assignment requires a global role; organization roles belong on memberships");
    id ← newId;
    assignment ← tx_upsert (fun ur => (ur_userId ur === userId) && (ur_roleId ur === roleId))
      (mkUserRole id userId roleId None) (fun ur => ur <| ur_deletedAt := None |>);
    bumpUserEpoch userId;;
    writeAuditEvent amb (requestAudit metadata actorUserId "role.assigned" "user" userId
      (Some (JObj [("roleId", JStr roleId)])));;
    mret assignment).

Definition revokeRole (amb : Ambient) (userId roleId actorUserId : string) (metadata : RequestMetadata)
    : Proc World bool :=
  transact (
    revoked ← tx_updateMany (fun ur => (ur_userId ur === userId) && (ur_roleId ur === roleId)
                                       && is_null (ur_deletedAt ur))
      (fun ur => ur <| ur_deletedAt := Some (nowMs amb) |>);
    if (revoked =? 0)%nat then mret false
    else
      bumpUserEpoch userId;;
      writeAuditEvent amb (requestAudit metadata actorUserId "role.revoked" "user" userId
        (Some (JObj [("roleId", JStr roleId)])));;
      mret true).

(** The links are brought to exactly the desired permissions. *)
Definition syncRolePermissions (t : Z) (roleId : string) (desiredIds : list string) : Tx World unit :=
  current ← tx_findMany (fun rp => (rp_roleId rp === roleId) && is_null (rp_deletedAt rp));
  let currentIds := unique (List.map rp_permissionId current) in
  let toRemove := List.filter (fun id => negb (inList id desiredIds)) currentIds in
  (if (0 <? List.length toRemove)%nat then
     _ ← tx_updateMany (fun rp => (rp_roleId rp === roleId) && inList (rp_permissionId rp) toRemove)
           (fun rp => rp <| rp_deletedAt := Some t |>);
     mret tt
   else mret tt);;
  tx_for desiredIds (fun permissionId =>
    if inList permissionId currentIds then mret tt
    else
      id ← newId;
      _ ← tx_upsert (fun rp => (rp_roleId rp === roleId) && (rp_permissionId rp === permissionId))
            (mkRolePermission id roleId permissionId None) (fun rp => rp <| rp_deletedAt := None |>);
      mret tt).

Definition updateRolePermissions (amb : Ambient) (roleId : string) (permissionCodes : list string)
    (actorUserId : string) (metadata : RequestMetadata) : Proc World RoleView :=
  transact (
    role ← tx_findFirst (fun r => (role_id r === roleId) && is_null (role_deletedAt r));
    role ← tx_require role (errors.notFound "Role not found");
    let uniqueCodes := unique permissionCodes in
    found ← tx_findMany (fun p => inList (perm_code p) uniqueCodes && is_null (perm_deletedAt p));
    tx_guard (List.length found =? List.length uniqueCodes)%nat
      (errors.badRequest ("Unknown permission codes: "
         ++ join ", " (List.filter (fun code => negb (inList code (List.map perm_code found))) uniqueCodes)));;
    syncRolePermissions (nowMs amb) roleId (unique (List.map perm_id found));;
    (match role_organizationId role with
     | Some organizationId =>
         if organizationId === EmptyString then bumpPermissionEpochForRoleHolders roleId
         else
           _ ← tx_update (fun o => org_id o === organizationId)
                 (fun o => o <| org_permissionEpoch ::= Z.add 1 |>);
           mret tt
     | None => bumpPermissionEpochForRoleHolders roleId
     end);;
    writeAuditEvent amb (requestAudit metadata actorUserId "role.permissions_updated" "role" roleId
      (Some (JObj [("permissions", JArr (List.map JStr uniqueCodes))])));;
    updated ← tx_findFirst (fun r => role_id r === roleId);
    updated ← tx_require updated (Known "P2025");
    includePermissions updated).
End Roles.
