(* ===== verification/AccessControl.v ===== *)
(** * Authentication and permission checks

    middleware/access-control.ts. The access token is the one [resolveAccessToken] found; the
    permission cache is the part of Redis the guard reads and writes, and may be unreachable. *)

From Stdlib Require Import ZArith Lia Bool.
From stdpp Require Import gmap strings.
From S2P Require Import Prelude Store Database JsString Platform Request AuditTrail Tenancy Sessions.

Open Scope string_scope.

(** What [authenticate] leaves on the request. *)
Record AuthState := mkAuthState {
  auth_userId : string; auth_sessionId : string; auth_permissionEpoch : Z;
  auth_organizationId : option string; auth_organizationPermissionEpoch : option Z
}.

Inductive PermissionScope := scope_global | scope_organization | scope_context.
#[export] Instance PermissionScope_eq_dec : EqDecision PermissionScope.
Proof. solve_decision. Defined.

Definition scopeName (s : PermissionScope) : string :=
  match s with scope_global => "global" | scope_organization => "organization" | scope_context => "context" end.

(** The message defaults of lib/errors.ts. *)
Definition UNAUTHENTICATED_ERROR : Error := errors.unauthenticated "Authentication required".
Definition FORBIDDEN_ERROR : Error :=
  errors.forbidden "You do not have permission to perform this action".

Section AccessControl.
Context `{Platform}.

(** The session row [authenticate] accepts, with its user. *)
Definition liveSession (amb : Ambient) (claims : AccessClaims) (us : list User) (s : Session) : bool :=
  (sess_id s === claim_sessionId claims) && (sess_userId s === claim_userId claims)
  && is_null (sess_revokedAt s) && is_null (sess_deletedAt s) && (nowMs amb <? sess_expiresAt s)%Z
  && existsb (fun u => (user_id u === sess_userId s) && (user_status u === User_ACTIVE)
                       && is_null (user_deletedAt u)) us.

(** [next(error)] is an error; [next()] returns the request's state and its ambient context. *)
Definition authenticate (amb : Ambient) (token : option string) : Tx World (AuthState * Ambient) :=
  if negb (truthy token) then tx_throw UNAUTHENTICATED_ERROR
  else
    claims ← tx_lift (match verifyAccessToken amb (token ??? "") with
                      | Ok c => Ok c | Err _ => Err UNAUTHENTICATED_ERROR end);
    us ← tx_findMany_raw (fun _ : User => true);
    session ← tx_findFirst (liveSession amb claims us);
    session ← tx_require session UNAUTHENTICATED_ERROR;
    user ← tx_require (findFirst (fun u => user_id u === sess_userId session) us) UNAUTHENTICATED_ERROR;
    if truthy (sess_activeOrganizationId session) then
      let organizationId := sess_activeOrganizationId session ??? "" in
      organization ← tx_findFirst_raw (fun o => org_id o === organizationId);
      match organization with
      | Some o =>
          if is_set (org_deletedAt o) || (org_status o !== Org_ACTIVE) then
            tx_throw (errors.forbidden "Organization is not active")
          else
            membership ← tx_findFirst (fun m => (mem_organizationId m === organizationId)
              && (mem_userId m === claim_userId claims) && (mem_status m === Mem_ACTIVE)
              && is_null (mem_deletedAt m));
            match membership with
            | None => tx_throw (errors.forbidden "Organization membership is not active")
            | Some _ =>
                mret (mkAuthState (claim_userId claims) (claim_sessionId claims) (user_permissionEpoch user)
                        (Some organizationId) (Some (org_permissionEpoch o)),
                      setRequestIdentity (Some (claim_userId claims)) (Some organizationId) amb)
            end
      | None => tx_throw (errors.forbidden "Organization is not active")
      end
    else
      mret (mkAuthState (claim_userId claims) (claim_sessionId claims) (user_permissionEpoch user) None None,
            setRequestIdentity (Some (claim_userId claims)) None amb).

(** [permissions: { some: { deletedAt: null, permission: { code, deletedAt: null } } }] of a role. *)
Definition roleGrants (w : World) (code roleId : string) : bool :=
  existsb (fun rp => (rp_roleId rp === roleId) && is_null (rp_deletedAt rp)
    && existsb (fun p => (perm_id p === rp_permissionId rp) && (perm_code p === code)
                         && is_null (perm_deletedAt p)) (permissions w)) (rolePermissions w).

Definition hasGlobalGrant (userId code : string) (w : World) : bool :=
  is_set (findFirst (activeWhere (fun ur => (ur_userId ur === userId) && is_null (ur_deletedAt ur)
    && existsb (fun r => (role_id r === ur_roleId ur) && is_null (role_organizationId r)
                         && is_null (role_deletedAt r) && roleGrants w code (role_id r)) (roles w)))
    (userRoles w)).

Definition hasOrganizationGrant (userId organizationId code : string) (w : World) : bool :=
  is_set (findFirst (activeWhere (fun m => (mem_userId m === userId)
    && (mem_organizationId m === organizationId) && (mem_status m === Mem_ACTIVE) && is_null (mem_deletedAt m)
    && existsb (fun r => (role_id r === mem_roleId m) && is_null (role_deletedAt r)
                         && roleGrants w code (role_id r)) (roles w)))
    (memberships w)).

Definition permissionCacheKey (request : AuthState) (code : string) (scope : PermissionScope) : string :=
  let userEpoch := auth_permissionEpoch request in
  let organizationId := auth_organizationId request ??? "global" in
  let organizationEpoch := (auth_organizationPermissionEpoch request ??? 0)%Z in
  "permission:" ++ scopeName scope ++ ":" ++ auth_userId request ++ ":" ++ show userEpoch ++ ":"
    ++ organizationId ++ ":" ++ show organizationEpoch ++ ":" ++ code.

(** The decision of the database. *)
Definition permissionDecision (request : AuthState) (code : string) (scope : PermissionScope) (w : World)
    : bool :=
  let allowed := negb (scope === scope_organization) && hasGlobalGrant (auth_userId request) code w in
  if negb allowed && negb (scope === scope_global) && truthy (auth_organizationId request)
  then hasOrganizationGrant (auth_userId request) (auth_organizationId request ??? "") code w
  else allowed.

(** The cache: ["1"] and ["0"] under a key. *)
Definition Cache : Type := gmap string string.

(** [reachable] tells whether Redis answers the read, [stored] whether it takes the write. *)
Definition permissionGuard (code : string) (scope : PermissionScope) (request : AuthState)
    (reachable stored : bool) (w : World) (cache : Cache) : res unit * Cache :=
  if (scope === scope_organization) && negb (truthy (auth_organizationId request)) then
    (Err (errors.forbidden "An active organization is required"), cache)
  else
    let cacheKey := permissionCacheKey request code scope in
    let cached := if reachable : bool then cache !! cacheKey else None in
    if bool_decide (cached = Some "1") then (Ok tt, cache)
    else if bool_decide (cached = Some "0") then (Err FORBIDDEN_ERROR, cache)
    else
      let allowed := permissionDecision request code scope w in
      let cache' := if stored : bool then <[cacheKey := (if allowed then "1" else "0")]> cache else cache in
      (if allowed then Ok tt else Err FORBIDDEN_ERROR, cache').
End AccessControl.
