(* ===== verification/PermissionsSpec.v ===== *)
(** * What permission checks guarantee

    Authentication fails closed; a cached decision is the database's decision, because whatever changes
    a grant moves an epoch of the cache key; the one operation that does not is shown. *)

From Stdlib Require Import ZArith Lia Bool.
From stdpp Require Import relations gmap strings.
From S2P Require Import Prelude Store Database JsString Pagination Platform Request AuditTrail Tenancy Sessions SessionsSpec Outbox Account AccountSpec Organizations OrganizationsSpec Roles AccessControl.

Open Scope string_scope.

Section PermissionsSpec.
Context `{Platform}.

(** ** Authentication *)

(** Authentication fails closed. A request is let through only with a token that verifies, for a
    session that is unrevoked, unexpired and the token's, of an active user; and it acts in an
    organization only if that organization is the session's, is active, and has the user as an active
    member now. Nothing is written. *)
Theorem authenticate_fails_closed amb token w state amb' w' :
  authenticate amb token w = Ok ((state, amb'), w') ->
  w' = w
  /\ (exists t claims, token = Some t /\ verifyAccessToken amb t = Ok claims
        /\ auth_userId state = claim_userId claims /\ auth_sessionId state = claim_sessionId claims)
  /\ (exists s u, In s (sessions w) /\ sess_id s = auth_sessionId state /\ sess_userId s = auth_userId state
        /\ sess_revokedAt s = None /\ sess_deletedAt s = None /\ (nowMs amb < sess_expiresAt s)%Z
        /\ In u (users w) /\ user_id u = auth_userId state /\ user_status u = User_ACTIVE /\ user_deletedAt u = None
        /\ (auth_organizationId state = None \/ auth_organizationId state = sess_activeOrganizationId s))
  /\ (forall o, auth_organizationId state = Some o ->
        (exists org, In org (organizations w) /\ org_id org = o /\ org_status org = Org_ACTIVE
           /\ org_deletedAt org = None /\ auth_organizationPermissionEpoch state = Some (org_permissionEpoch org))
        /\ exists m, In m (memberships w) /\ mem_organizationId m = o /\ mem_userId m = auth_userId state
           /\ mem_status m = Mem_ACTIVE /\ mem_deletedAt m = None).
Proof.
  intros Hrun. unfold authenticate in Hrun. destruct (negb (truthy token)) eqn:Et; [discriminate Hrun|].
  destruct token as [t|]; [|discriminate Et]. change (Some t ??? "") with t in Hrun.
  apply bind_ok in Hrun as (claims & w1 & H1 & Hrun). apply lift_ok in H1 as [Hc ->].
  destruct (verifyAccessToken amb t) as [c|] eqn:Ev; [|discriminate Hc]. injection Hc as ->.
  apply bind_ok in Hrun as (us & w2 & H1 & Hrun). injection H1 as <- <-.
  apply bind_ok in Hrun as (found & w2 & Hfs & Hrun).
  apply bind_ok in Hrun as (s & w3 & Hrs & Hrun). apply require_ok in Hrs as [-> ->].
  apply findFirst_ok in Hfs as (-> & Hs & Hd & HP).
  apply bind_ok in Hrun as (u & w3 & Hru & Hrun). apply require_ok in Hru as [_ ->].
  unfold liveSession in HP. apply andb_true_iff in HP as [HP Hu]. bools.
  apply existsb_exists in Hu as (u0 & [Hu0 _]%In_findMany & HPu). bools.
  assert (Hsess : forall org, org = None \/ org = sess_activeOrganizationId s ->
      exists s u, In s (sessions w3) /\ sess_id s = claim_sessionId claims
      /\ sess_userId s = claim_userId claims /\ sess_revokedAt s = None /\ sess_deletedAt s = None
      /\ (nowMs amb < sess_expiresAt s)%Z /\ In u (users w3) /\ user_id u = claim_userId claims
      /\ user_status u = User_ACTIVE /\ user_deletedAt u = None
      /\ (org = None \/ org = sess_activeOrganizationId s)).
  { intros org Horg. exists s, u0. destruct (sess_revokedAt s); [done|]. destruct (user_deletedAt u0); [done|].
    repeat (split; [done || congruence|]). exact Horg. }
  destruct (truthy (sess_activeOrganizationId s)) eqn:Eo.
  - apply bind_ok in Hrun as (org & w4 & Hor & Hrun). injection Hor as Hf <-.
    destruct org as [org|]; [|discriminate Hrun]. apply findFirst_Some in Hf as [Horg HPo].
    destruct (_ || _) eqn:Eg; [discriminate Hrun|].
    apply bind_ok in Hrun as (m & w4 & Hme & Hrun). destruct m as [m|]; [|discriminate Hrun].
    apply findFirst_ok in Hme as (-> & Hm & Hmd & HPm). apply ret_ok in Hrun as [[= <- <-] <-].
    bools. split; [done|]. split; [by exists t, claims|]. split.
    + apply Hsess. right. destruct (sess_activeOrganizationId s); done.
    + intros o [= <-]. split; [exists org|exists m]; [|done].
      destruct (org_deletedAt org); done.
  - apply ret_ok in Hrun as [[= <- <-] <-]. split; [done|]. split; [by exists t, claims|].
    split; [by apply Hsess; left|done].
Qed.

(** ** The cache key *)

(** Identifiers as the program draws them: no separator in them, and an organization with its epoch. *)
Definition wellFormed (r : AuthState) : Prop :=
  noChar ":" (auth_userId r) = true /\
  match auth_organizationId r with
  | Some o => noChar ":" o = true /\ o <> "global" /\ o <> "" /\ is_Some (auth_organizationPermissionEpoch r)
  | None => auth_organizationPermissionEpoch r = None
  end.

Lemma append_inj p (x y : string) : p ++ x = p ++ y -> x = y.
Proof. induction p as [|c p IH]; cbn; [done|]. intros [= Heq]. auto. Qed.

Lemma scopeName_inj s s' : scopeName s = scopeName s' -> s = s'.
Proof. by destruct s, s'. Qed.

(** Equal keys are the same question of the same user at the same epochs. *)
Lemma permissionCacheKey_inj r r' code code' scope scope' : wellFormed r -> wellFormed r' ->
  permissionCacheKey r code scope = permissionCacheKey r' code' scope' ->
  auth_userId r = auth_userId r' /\ auth_permissionEpoch r = auth_permissionEpoch r'
  /\ auth_organizationId r = auth_organizationId r'
  /\ auth_organizationPermissionEpoch r = auth_organizationPermissionEpoch r'
  /\ code = code' /\ scope = scope'.
Proof.
  intros [Hu Ho] [Hu' Ho'] Heq. unfold permissionCacheKey in Heq. apply append_inj in Heq.
  apply append_sep_inj in Heq as [Hs Heq]; [|by destruct scope|by destruct scope'].
  apply append_sep_inj in Heq as [He Heq]; [|done|done].
  apply append_sep_inj in Heq as [Hp Heq]; [|apply show_no_colon|apply show_no_colon].
  assert (Hog : forall r, match auth_organizationId r with
     | Some o => noChar ":" o = true /\ o <> "global" /\ o <> "" /\ is_Some (auth_organizationPermissionEpoch r)
     | None => auth_organizationPermissionEpoch r = None end -> noChar ":" (auth_organizationId r ??? "global") = true).
  { intros x Hx. destruct (auth_organizationId x); [apply Hx|done]. }
  apply append_sep_inj in Heq as [Hoo Heq]; [|auto|auto].
  apply append_sep_inj in Heq as [Hoe Heq]; [|apply show_no_colon|apply show_no_colon].
  apply show_inj in Hp, Hoe. apply scopeName_inj in Hs. repeat (split; [done|]).
  destruct (auth_organizationId r) as [o|], (auth_organizationId r') as [o'|]; cbn in Hoo.
  - destruct Ho as (_ & _ & _ & [e He1]), Ho' as (_ & _ & _ & [e' He2]). rewrite He1, He2 in *.
    cbn in Hoe. subst. auto.
  - destruct Ho as (_ & Hg & _). done.
  - destruct Ho' as (_ & Hg & _). done.
  - rewrite Ho, Ho'. auto.
Qed.

(** ** Coherence *)

Definition userEpoch (w : World) (u : string) : Z :=
  match findFirst (fun x => user_id x === u) (users w) with Some x => user_permissionEpoch x | None => 0 end.
Definition orgEpoch (w : World) (o : string) : Z :=
  match findFirst (fun x => org_id x === o) (organizations w) with Some x => org_permissionEpoch x | None => 0 end.

(** The request was authenticated at [w] or before, and: the epochs it holds are still [w]'s. *)
Definition issued (w : World) (r : AuthState) : Prop :=
  (auth_permissionEpoch r <= userEpoch w (auth_userId r))%Z /\
  forall o e, auth_organizationId r = Some o -> auth_organizationPermissionEpoch r = Some e -> (e <= orgEpoch w o)%Z.
Definition current (w : World) (r : AuthState) : Prop :=
  auth_permissionEpoch r = userEpoch w (auth_userId r) /\
  forall o e, auth_organizationId r = Some o -> auth_organizationPermissionEpoch r = Some e -> e = orgEpoch w o.

Definition verdict (b : bool) : string := if b then "1" else "0".

(** Every entry answers a request of the past, and a current request truly. *)
Definition coherent (w : World) (cache : Cache) : Prop :=
  forall r code scope v, wellFormed r -> cache !! permissionCacheKey r code scope = Some v ->
  issued w r /\ (current w r -> v = verdict (permissionDecision r code scope w)).

(** What changes a decision moves an epoch, and epochs never go back. *)
Record sound (w w' : World) : Prop := {
  so_user : forall u, (userEpoch w u <= userEpoch w' u)%Z;
  so_org : forall o, (orgEpoch w o <= orgEpoch w' o)%Z;
  so_global : forall u code, userEpoch w u = userEpoch w' u -> hasGlobalGrant u code w' = hasGlobalGrant u code w;
  so_member : forall u o code, userEpoch w u = userEpoch w' u -> orgEpoch w o = orgEpoch w' o ->
    hasOrganizationGrant u o code w' = hasOrganizationGrant u o code w
}.

Lemma sound_coherent w w' cache : sound w w' -> coherent w cache -> coherent w' cache.
Proof.
  intros [Hu Ho Hg Hm] Hc r code scope v Hwf Hk. destruct (Hc r code scope v Hwf Hk) as [[Hiu Hio] Hv].
  assert (Hi : issued w' r).
  { split; [etrans; [exact Hiu|apply Hu]|]. intros o e H1 H2. etrans; [by apply Hio|apply Ho]. }
  split; [done|]. intros [Hcu Hco].
  assert (Heu : userEpoch w (auth_userId r) = userEpoch w' (auth_userId r)).
  { specialize (Hu (auth_userId r)). lia. }
  assert (Heo : forall o, auth_organizationId r = Some o -> orgEpoch w o = orgEpoch w' o).
  { intros o Hor. destruct Hwf as [_ Hwf]. rewrite Hor in Hwf. destruct Hwf as (_ & _ & _ & [e He]).
    specialize (Hio o e Hor He). specialize (Hco o e Hor He). specialize (Ho o). lia. }
  rewrite Hv.
  - unfold permissionDecision. rewrite Hg by done. destruct (auth_organizationId r) as [o|].
    + change (Some o ??? "") with o. by rewrite Hm by auto.
    + by rewrite !andb_false_r.
  - split; [congruence|]. intros o e Hor He. rewrite (Heo o Hor). by apply Hco.
Qed.

Lemma decision_same r r' code scope w : auth_userId r = auth_userId r' ->
  auth_organizationId r = auth_organizationId r' ->
  permissionDecision r code scope w = permissionDecision r' code scope w.
Proof. intros H1 H2. unfold permissionDecision. by rewrite H1, H2. Qed.

(** The guard keeps the cache coherent, whoever asks. *)
Lemma guard_coherent r code scope reachable stored w cache : wellFormed r -> issued w r ->
  coherent w cache -> coherent w (snd (permissionGuard code scope r reachable stored w cache)).
Proof.
  intros Hwf Hi Hc. unfold permissionGuard. destruct (_ && _); [done|].
  case_bool_decide; [done|]. case_bool_decide; [done|]. cbn [snd]. destruct stored; [|done].
  intros r' code' scope' v Hwf' Hk. apply (lookup_insert_Some cache) in Hk.
  destruct Hk as [[Hkey <-]|[_ Hk]]; [|by apply Hc].
  destruct (permissionCacheKey_inj _ _ _ _ _ _ Hwf Hwf' Hkey) as (Ku & Ke & Ko & Koe & -> & ->). split.
  - split; [rewrite <- Ku, <- Ke; apply Hi|]. intros o e. rewrite <- Ko, <- Koe. apply Hi.
  - intros _. by rewrite (decision_same r' r) by done.
Qed.

(** To a current request the guard answers with the cache what it answers without. *)
Lemma guard_answer r code scope reachable stored w cache : wellFormed r -> current w r -> coherent w cache ->
  fst (permissionGuard code scope r reachable stored w cache)
  = fst (permissionGuard code scope r false false w ∅).
Proof.
  intros Hwf Hcur Hc. unfold permissionGuard. destruct (_ && _); [done|].
  destruct reachable; [|done]. destruct (cache !! _) as [v|] eqn:E; [|done].
  destruct (Hc r code scope v Hwf E) as [_ Hv]. rewrite (Hv Hcur).
  by destruct (permissionDecision r code scope w).
Qed.

(** ** The operations are sound *)

(** Identifiers are distinct, and a membership's role is global or its organization's. *)
Record grantsTables (us : list User) (os : list Organization) (rs : list Role) (ms : list Membership) : Prop := {
  go_users : List.NoDup (List.map user_id us);
  go_orgs : List.NoDup (List.map org_id os);
  go_roles : List.NoDup (List.map role_id rs);
  go_members : List.NoDup (List.map mem_id ms);
  go_scoped : forall m r, In m ms -> In r rs -> role_id r = mem_roleId m ->
    role_organizationId r = None \/ role_organizationId r = Some (mem_organizationId m)
}.
Definition grantsOk (w : World) : Prop :=
  grantsTables (users w) (organizations w) (roles w) (memberships w).

(** One user's epoch moved, the others' did not. *)
Definition bumped (u : string) (w w' : World) : Prop :=
  (userEpoch w u < userEpoch w' u)%Z /\ forall u', u' <> u -> userEpoch w' u' = userEpoch w u'.

Lemma bumpUserEpoch_bumped u w x w' : List.NoDup (List.map user_id (users w)) ->
  bumpUserEpoch u w = Ok (x, w') -> bumped u w w'.
Proof.
  intros Hnd Hrun. unfold bumpUserEpoch in Hrun. apply bind_ok in Hrun as (y & w1 & H1 & Hrun).
  apply ret_ok in Hrun as [_ <-]. apply update_ok in H1 as (-> & u0 & Hin & Hd & HP & _). bools.
  unfold bumped, userEpoch. assert (Hus : forall g, users (put (R := User) g w) = g (users w)) by done.
  rewrite Hus. split; [|intros u' Hne].
  - rewrite findFirst_updateWhere by done.
    assert (Hf : findFirst (fun x => user_id x === u) (users w) = Some u0).
    { apply (Row_find user_id); [by split| |by apply bool_decide_true]. intros z Hz. bools. congruence. }
    rewrite Hf. cbn in Hd |- *. rewrite Hd, bool_decide_true by done. cbn. lia.
  - rewrite findFirst_updateWhere by done. destruct (findFirst _ _) as [z|] eqn:E; [|done]. cbn.
    apply findFirst_Some in E as [_ Hz]. bools. rewrite bd_ne by congruence. by rewrite andb_false_r.
Qed.

(** A change of one user's grants, with their epoch moved. *)
Lemma sound_user u w w' :
  bumped u w w' -> organizations w' = organizations w -> roles w' = roles w ->
  rolePermissions w' = rolePermissions w -> permissions w' = permissions w ->
  sameBut ur_userId u (userRoles w) (userRoles w') -> sameBut mem_userId u (memberships w) (memberships w') ->
  sound w w'.
Proof.
  intros [Hb Hu] Ho Hr Hrp Hp Hur Hm.
  assert (Hne : forall u', userEpoch w u' = userEpoch w' u' -> u' <> u) by (intros u' He ->; lia).
  constructor.
  - intros u'. destruct (decide (u' = u)) as [->|Hn]; [lia|]. rewrite Hu by done. lia.
  - intros o. unfold orgEpoch. rewrite Ho. lia.
  - intros u' code He. apply Hne in He. unfold hasGlobalGrant, roleGrants. rewrite !is_set_findFirst, Hr, Hrp, Hp.
    apply Hur. intros r HPr. cbn in HPr. bools. congruence.
  - intros u' o code He _. apply Hne in He. unfold hasOrganizationGrant, roleGrants.
    rewrite !is_set_findFirst, Hr, Hrp, Hp. apply Hm. intros m HPm. cbn in HPm. bools. congruence.
Qed.

(** What an operation on one user's grants leaves alone. *)
Record onTables (u : string) (w0 : World) (os : list Organization) (rs : list Role)
    (rps : list RolePermission) (ps : list Permission) (urs : list UserRole) (ms : list Membership) : Prop := {
  ou_orgs : os = organizations w0; ou_roles : rs = roles w0;
  ou_rps : rps = rolePermissions w0; ou_ps : ps = permissions w0;
  ou_urs : sameBut ur_userId u (userRoles w0) urs;
  ou_ms : sameBut mem_userId u (memberships w0) ms
}.
Definition onUser (u : string) (w0 w : World) : Prop :=
  onTables u w0 (organizations w) (roles w) (rolePermissions w) (permissions w) (userRoles w) (memberships w).
(** The same, the users untouched too: what holds until the epoch moves. *)
Definition untilBump (u : string) (w0 w : World) : Prop := onUser u w0 w /\ users w = users w0.

Lemma untilBump_refl u w : untilBump u w w.
Proof. by split. Qed.

Lemma sound_bump u w w1 x w2 w3 :
  grantsOk w -> untilBump u w w1 -> bumpUserEpoch u w1 = Ok (x, w2) -> onUser u w w3 -> users w3 = users w2 ->
  sound w w3.
Proof.
  intros Hok [_ Hu1] Hb Ho3 Hu3. apply (sound_user u); try apply Ho3.
  apply bumpUserEpoch_bumped in Hb; [|rewrite Hu1; apply Hok].
  unfold bumped, userEpoch in *. by rewrite Hu3, <- Hu1.
Qed.

Lemma sound_refl w : sound w w.
Proof. constructor; intros; lia || done. Qed.

Lemma sound_transact {A} (m : Tx World A) w :
  (forall a w', m w = Ok (a, w') -> sound w w') -> sound w (snd (transact m w)).
Proof. intros Hm. unfold transact. destruct (m w) as [[a w']|]; [by eapply Hm|apply sound_refl]. Qed.

(** Statements on one user's rows. *)
Lemma onUser_userRoles u w0 P f : (forall r, P r = true -> ur_userId r = u) ->
  (forall r, ur_userId (f r) = ur_userId r) ->
  forall w, untilBump u w0 w -> untilBump u w0 (put (updateWhere P f) w).
Proof.
  intros HP Hf w [[? ? ? ? Hur Hm] Hu]. split; [|done]. constructor; try done. by apply sameBut_update; auto.
Qed.
Lemma onUser_newUserRole u w0 r : ur_userId r = u -> forall w, untilBump u w0 w ->
  untilBump u w0 (put (fun t => t ++ [r])%list w).
Proof. intros Hr w [[? ? ? ? Hur Hm] Hu]. split; [|done]. constructor; try done. by apply sameBut_snoc. Qed.

(** Walk to the statement that moves the epoch, then past it. *)
Ltac to_bump u w Hb Hrun :=
  lazymatch type of Hrun with
  | (bumpUserEpoch _ ≫= _) _ = _ => idtac
  | _ =>
      let x := fresh "x" in let s := fresh "s" in let H1 := fresh "Hstep" in
      apply bind_ok in Hrun as (x & s & H1 & Hrun);
      apply (kept_by (untilBump u w)) in H1; [|solve [pres]|exact Hb]; clear Hb; rename H1 into Hb
  end.
Ltac past_bump u w Hok Hb Hrun :=
  let x := fresh "x" in let s := fresh "s" in let H1 := fresh "Hbump" in
  apply bind_ok in Hrun as (x & s & H1 & Hrun);
  assert (Hon : onUser u w s)
    by (refine (kept_by (onUser u w) _ _ _ _ _ (proj1 Hb) H1); unfold bumpUserEpoch; solve [pres]);
  eapply (sound_bump u w _ _ _ _ Hok Hb H1);
  [refine (kept_by (onUser u w) _ _ _ _ _ Hon Hrun); solve [pres]
  |refine (kept_by (fun w' => users w' = users s) _ _ _ _ _ eq_refl Hrun); solve [pres]].

Lemma assignRole_sound amb u role actor meta w : grantsOk w -> sound w (snd (assignRole amb u role actor meta w)).
Proof.
  intros Hok. apply sound_transact. intros a w' Hrun. pose proof (untilBump_refl u w) as Hb.
  do 3 to_bump u w Hb Hrun. apply bind_ok in Hrun as (x2 & s2 & Hup & Hrun).
  apply (kept_by (untilBump u w)) in Hup; [| |exact Hb].
  2: { apply pres_upsert.
       - apply onUser_userRoles; [|done]. intros r Hr. by bools.
       - intros t Ht _. by apply onUser_newUserRole. }
  clear Hb. rename Hup into Hb. past_bump u w Hok Hb Hrun.
Qed.

Lemma revokeRole_sound amb u role actor meta w : grantsOk w -> sound w (snd (revokeRole amb u role actor meta w)).
Proof.
  intros Hok. apply sound_transact. intros a w' Hrun.
  apply bind_ok in Hrun as (n & s1 & Hup & Hrun).
  destruct (n =? 0)%nat eqn:En.
  { apply ret_ok in Hrun as [_ <-]. apply updateMany_ok in Hup as [Hn ->]. bools.
    rewrite Hn, countWhere_0 in En.
    assert (Hsame : forall f, put (updateWhere (activeWhere (fun ur => (ur_userId ur === u)
      && (ur_roleId ur === role) && is_null (ur_deletedAt ur))) f) w = w).
    { intros f. unfold put. cbn. unfold field_set. rewrite updateWhere_none by done. by destruct w. }
    rewrite Hsame. apply sound_refl. }
  assert (Hb : untilBump u w s1).
  { apply (kept_by (untilBump u w)) in Hup; [done| |apply untilBump_refl]. apply pres_updateMany.
    apply onUser_userRoles; [|done]. intros r Hr. cbn in Hr. by bools. }
  past_bump u w Hok Hb Hrun.
Qed.

(** Changing one membership, found by its organization and user. *)
Lemma onUser_membership u w0 t P f : grantsOk w0 -> memberships w0 = memberships w0 ->
  In t (memberships w0) -> mem_userId t = u -> (forall m, P m = true -> mem_id m = mem_id t) ->
  (forall m, mem_userId (f m) = mem_userId m) ->
  untilBump u w0 (put (updateWhere P f) w0).
Proof.
  intros Hok _ Ht Hu HP Hf. split; [|done]. constructor; try done.
  apply sameBut_update; [|done|done]. intros m Hm HPm.
  by rewrite (NoDup_key_inj mem_id _ m t (go_members _ _ _ _ Hok) Hm Ht (HP _ HPm)).
Qed.

Lemma changeMemberRole_sound amb org u role actor meta w : grantsOk w ->
  sound w (snd (changeMemberRole amb org u role actor meta w)).
Proof.
  intros Hok. apply sound_transact. intros a w' Hrun.
  apply bind_ok in Hrun as (r & s0 & Har & Hrun).
  apply (kept_by (fun w' => w' = w)) in Har; [|unfold assertAssignableRole; pres|done]. subst s0.
  apply bind_ok in Hrun as ([t tr] & s1 & Hfm & Hrun). apply findMember_ok in Hfm as (-> & Ht & _ & Hto & Htu & _).
  apply bind_ok in Hrun as (x & s2 & Hk & Hrun). apply keepAnOwner_ok in Hk as [-> _].
  apply bind_ok in Hrun as (n & s3 & Hup & Hrun). apply updateMany_ok in Hup as [_ ->].
  match type of Hrun with _ ?s = _ => assert (Hb : untilBump u w s) end.
  { apply (onUser_membership u w t); auto. intros m Hm. cbn in Hm. by bools. }
  to_bump u w Hb Hrun. past_bump u w Hok Hb Hrun.
Qed.

Lemma removeMember_sound amb org u actor meta w : grantsOk w ->
  sound w (snd (removeMember amb org u actor meta w)).
Proof.
  intros Hok. unfold removeMember.
  match goal with |- sound w (snd ((transact ?m ≫= ?k) w)) =>
    assert (Hs : sound w (snd (transact m w))) end.
  { apply sound_transact. intros a w' Hrun.
    apply bind_ok in Hrun as ([t tr] & s1 & Hfm & Hrun). apply findMember_ok in Hfm as (-> & Ht & _ & Hto & Htu & _).
    apply bind_ok in Hrun as (x & s2 & Hk & Hrun). apply keepAnOwner_ok in Hk as [-> _].
    apply bind_ok in Hrun as (n & s3 & Hup & Hrun). apply update_ok in Hup as [-> _].
    match type of Hrun with _ ?s = _ => assert (Hb : untilBump u w s) end.
    { apply (onUser_membership u w t); auto. intros m Hm. cbn in Hm. by bools. }
    to_bump u w Hb Hrun. past_bump u w Hok Hb Hrun. }
  unfold mbind, proc_bind. destruct (transact _ w) as [[x|e] w1]; [|done].
  unfold publishChatRevocation. destruct (CHAT_ENABLED env); [|done].
  cbn in *. destruct Hs. by constructor.
Qed.

(** ** Permissions of an organization's role *)

(** Only the permission links of one role differ. *)
Record onRoleTables (roleId : string) (w0 : World) (us : list User) (rs : list Role)
    (rps : list RolePermission) (ps : list Permission) (urs : list UserRole) (ms : list Membership) : Prop := {
  orl_users : us = users w0; orl_roles : rs = roles w0; orl_ps : ps = permissions w0;
  orl_urs : urs = userRoles w0; orl_ms : ms = memberships w0;
  orl_rps : sameBut rp_roleId roleId (rolePermissions w0) rps
}.
Definition onRole (roleId : string) (w0 w : World) : Prop :=
  onRoleTables roleId w0 (users w) (roles w) (rolePermissions w) (permissions w) (userRoles w) (memberships w).

Lemma onRole_update roleId w0 P f : (forall r, P r = true -> rp_roleId r = roleId) ->
  (forall r, rp_roleId (f r) = rp_roleId r) ->
  forall w, onRole roleId w0 w -> onRole roleId w0 (put (updateWhere P f) w).
Proof. intros HP Hf w []. constructor; try done. by apply sameBut_update; auto. Qed.

Lemma syncRolePermissions_onRole t roleId ids w0 : tx_pres (onRole roleId w0) (syncRolePermissions t roleId ids).
Proof.
  unfold syncRolePermissions. pres.
  - apply pres_updateMany, onRole_update; [|done]. intros r Hr. cbn in Hr. by bools.
  - apply pres_upsert.
    + apply onRole_update; [|done]. intros r Hr. by bools.
    + intros w [] _. constructor; try done. by apply sameBut_snoc.
Qed.

Lemma roleGrants_other roleId w0 w code r : onRole roleId w0 w -> r <> roleId ->
  roleGrants w code r = roleGrants w0 code r.
Proof.
  intros [? ? Hp ? ? Hrp] Hne. unfold roleGrants. rewrite Hp. apply Hrp. intros rp HP. bools. congruence.
Qed.

Lemma sound_role role o w0 w : grantsOk w0 -> In role (roles w0) -> role_organizationId role = Some o ->
  onRole (role_id role) w0 w ->
  (orgEpoch w0 o < orgEpoch w o)%Z -> (forall o', o' <> o -> orgEpoch w o' = orgEpoch w0 o') -> sound w0 w.
Proof.
  intros Hok Hr Hro Hon Ho Hoo. pose proof Hon as [Hu Hrs Hps Hur Hms Hrp]. constructor.
  - intros u. unfold userEpoch. rewrite Hu. lia.
  - intros o'. destruct (decide (o' = o)) as [->|Hne]; [lia|rewrite Hoo by done; lia].
  - intros u code _. unfold hasGlobalGrant. rewrite !is_set_findFirst, Hur, Hrs.
    apply existsb_ext_In. intros ur _. unfold activeWhere. f_equal. f_equal.
    apply existsb_ext_In. intros r Hin. destruct (decide (role_id r = role_id role)) as [He|Hne].
    + rewrite (NoDup_key_inj role_id _ r role (go_roles _ _ _ _ Hok) Hin Hr He), Hro. by rewrite !andb_false_r.
    + by rewrite (roleGrants_other _ _ _ _ _ Hon Hne).
  - intros u o' code _ Hoe. unfold hasOrganizationGrant. rewrite !is_set_findFirst, Hms, Hrs.
    apply existsb_ext_In. intros m Hm. unfold activeWhere.
    destruct (mem_organizationId m === o') eqn:Eo; [|by rewrite !andb_false_r]. bools.
    f_equal. f_equal. apply existsb_ext_In. intros r Hin.
    destruct (role_id r === mem_roleId m) eqn:Er; [|done]. bools.
    destruct (decide (role_id r = role_id role)) as [He|Hne].
    + exfalso. rewrite (NoDup_key_inj role_id _ r role (go_roles _ _ _ _ Hok) Hin Hr He) in *.
      destruct (go_scoped _ _ _ _ Hok m role Hm Hr) as [Hs|Hs]; [done|congruence|].
      assert (o' = o) as -> by congruence. lia.
    + by rewrite (roleGrants_other _ _ _ _ _ Hon Hne).
Qed.

Definition sameOrgs (w0 w : World) : Prop := organizations w = organizations w0.

Lemma updateRolePermissions_sound amb roleId codes actor meta w : grantsOk w ->
  (forall r, In r (roles w) -> role_id r = roleId -> truthy (role_organizationId r) = true) ->
  sound w (snd (updateRolePermissions amb roleId codes actor meta w)).
Proof.
  intros Hok Horg. apply sound_transact. intros a w' Hrun.
  apply bind_ok in Hrun as (fr & s0 & Hf & Hrun). apply bind_ok in Hrun as (role & s1 & Hr & Hrun).
  apply require_ok in Hr as [-> ->]. apply findFirst_ok in Hf as (-> & Hin & _ & HP). bools.
  destruct (role_organizationId role) as [o|] eqn:Ero; [|by specialize (Horg role Hin); rewrite Ero in Horg; discriminate Horg].
  apply bind_ok in Hrun as (ps & s2 & Hps & Hrun). apply findMany_ok in Hps as [-> _].
  apply bind_ok in Hrun as (x & s3 & Hg & Hrun). apply guard_ok in Hg as [_ <-].
  apply bind_ok in Hrun as (x1 & s4 & Hsync & Hrun).
  assert (Hon : onRole roleId w s4) by (eapply syncRolePermissions_onRole; [|exact Hsync]; by constructor).
  assert (Hos : sameOrgs w s4).
  { revert Hsync. apply (kept_by (sameOrgs w)); [unfold syncRolePermissions; pres|done]. }
  apply bind_ok in Hrun as (x2 & s5 & Hbump & Hrun).
  assert (Hrole : In role (roles w)) by done.
  assert (Hto : truthy (role_organizationId role) = true) by (by apply Horg). rewrite Ero in Hto. cbn in Hto. bools.
  rewrite (bd_ne _ _ Hto) in Hbump.
  apply bind_ok in Hbump as (oo & s6 & Hup & Hbump). apply ret_ok in Hbump as [_ <-].
  apply update_ok in Hup as (-> & o0 & Hino & Hdel & HPo & _). bools.
  match type of Hrun with _ ?s = _ => assert (Hon5 : onRole roleId w s) by (by destruct Hon; constructor) end.
  assert (Hend : onRole roleId w w').
  { revert Hrun. apply (kept_by (onRole roleId w)); [unfold includePermissions; pres|exact Hon5]. }
  match type of Hrun with _ ?s = _ => assert (Hos5 : organizations w' = organizations s) end.
  { revert Hrun. match goal with |- _ ?s = _ -> _ => apply (kept_by (fun w' => organizations w' = organizations s)) end;
      [unfold includePermissions; pres|done]. }
  match goal with E : role_id role = roleId |- _ => rewrite <- E in * end.
  assert (Hino' : In o0 (organizations w)) by (rewrite <- Hos; exact Hino).
  assert (Hput : forall g, organizations (put (R := Organization) g s4) = g (organizations s4)) by done.
  apply (sound_role role o); auto; unfold orgEpoch; [|intros o' Hne]; rewrite Hos5, Hput, Hos, findFirst_updateWhere by done.
  - assert (Hf : findFirst (fun x => org_id x === o) (organizations w) = Some o0).
    { apply (Row_find org_id); [split; [apply Hok|done]| |by apply bool_decide_true]. intros z Hz. bools. congruence. }
    rewrite Hf. cbn in Hdel |- *. rewrite Hdel, bool_decide_true by done. cbn. lia.
  - destruct (findFirst _ _) as [z|] eqn:E; [|done]. cbn.
    apply findFirst_Some in E as [_ Hz]. bools. rewrite bd_ne by congruence. by rewrite andb_false_r.
Qed.

(** ** The operations keep the grants well formed *)

Lemma grantsOk_users P f : (forall u, user_id (f u) = user_id u) ->
  forall w, grantsOk w -> grantsOk (put (updateWhere (R := User) P f) w).
Proof. intros Hf w []. constructor; try done. cbn. by rewrite map_updateWhere. Qed.
Lemma grantsOk_orgs P f : (forall o, org_id (f o) = org_id o) ->
  forall w, grantsOk w -> grantsOk (put (updateWhere (R := Organization) P f) w).
Proof. intros Hf w []. constructor; try done. cbn. by rewrite map_updateWhere. Qed.
Lemma grantsOk_members P f w :
  (forall m, P m = true -> mem_id (f m) = mem_id m /\ mem_organizationId (f m) = mem_organizationId m) ->
  (forall m r, In m (memberships w) -> P m = true -> In r (roles w) -> role_id r = mem_roleId (f m) ->
     role_organizationId r = None \/ role_organizationId r = Some (mem_organizationId m)) ->
  grantsOk w -> grantsOk (put (updateWhere (R := Membership) P f) w).
Proof.
  intros Hf Hr [? ? ? ? Hs]. constructor; try done; cbn.
  - rewrite map_updateWhere; [done|]. intros m Hm. by apply Hf.
  - intros m r (m0 & Hm0 & ->)%In_updateWhere Hin Hid. destruct (P m0) eqn:E; [|by apply Hs].
    destruct (Hf m0 E) as [_ ->]. by apply (Hr m0).
Qed.

Lemma bumpUserEpoch_grants u : tx_pres grantsOk (bumpUserEpoch u).
Proof. unfold bumpUserEpoch. pres. apply pres_update, grantsOk_users. done. Qed.

Lemma assignRole_grants amb u role actor meta : proc_pres grantsOk (assignRole amb u role actor meta).
Proof. unfold assignRole. pres. apply bumpUserEpoch_grants. Qed.
Lemma revokeRole_grants amb u role actor meta : proc_pres grantsOk (revokeRole amb u role actor meta).
Proof. unfold revokeRole. pres. apply bumpUserEpoch_grants. Qed.
Lemma removeMember_grants amb org u actor meta : proc_pres grantsOk (removeMember amb org u actor meta).
Proof.
  unfold removeMember, findMember, keepAnOwner, countActiveOwners. pres.
  - apply pres_update. intros w Hw. apply grantsOk_members; [done| |done].
    intros m r Hm _ Hr Hid. exact (go_scoped _ _ _ _ Hw m r Hm Hr Hid).
  - apply bumpUserEpoch_grants.
  - intros w Hw. unfold publishChatRevocation. by destruct (CHAT_ENABLED env).
Qed.
Lemma changeMemberRole_grants amb org u role actor meta : proc_pres grantsOk (changeMemberRole amb org u role actor meta).
Proof.
  apply pres_transact. intros w a w' Hok Hrun.
  apply bind_ok in Hrun as (r & s0 & Har & Hrun). unfold assertAssignableRole in Har.
  apply bind_ok in Har as (fr & s1 & Hf & Har). apply require_ok in Har as [-> ->].
  apply findFirst_ok in Hf as (-> & Hin & _ & HP).
  apply bind_ok in Hrun as ([t tr] & s1 & Hfm & Hrun). apply findMember_ok in Hfm as (-> & Ht & _ & Hto & Htu & _).
  apply bind_ok in Hrun as (x & s2 & Hk & Hrun). apply keepAnOwner_ok in Hk as [-> _].
  apply bind_ok in Hrun as (n & s3 & Hup & Hrun). apply updateMany_ok in Hup as [_ ->].
  revert Hrun. apply (kept_by grantsOk); [pres; apply bumpUserEpoch_grants|].
  apply grantsOk_members; [done| |done]. intros m r' Hm HPm Hin' Hid. cbn in HPm, Hid. bools.
  assert (m = t) as -> by (by apply (NoDup_key_inj mem_id _ m t (go_members _ _ _ _ Hok))).
  assert (r' = r) as ->
    by (apply (NoDup_key_inj role_id _ r' r (go_roles _ _ _ _ Hok) Hin' Hin); congruence).
  match goal with E : (_ || _) = true |- _ => apply orb_true_iff in E as [E|E] end; bools.
  - left. by destruct (role_organizationId r).
  - right. congruence.
Qed.
Lemma updateRolePermissions_grants amb roleId codes actor meta :
  proc_pres grantsOk (updateRolePermissions amb roleId codes actor meta).
Proof.
  unfold updateRolePermissions, syncRolePermissions, bumpPermissionEpochForRoleHolders, includePermissions. pres.
  - apply pres_updateMany, grantsOk_users. done.
  - apply pres_update, grantsOk_orgs. done.
  - apply pres_updateMany, grantsOk_users. done.
Qed.

(** ** The cache *)

(** What the grants are stored in, and the epochs. *)
Definition sameGrants (w w' : World) : Prop :=
  userRoles w' = userRoles w /\ roles w' = roles w /\ rolePermissions w' = rolePermissions w
  /\ permissions w' = permissions w /\ memberships w' = memberships w
  /\ List.map (fun u => (user_id u, user_permissionEpoch u)) (users w')
     = List.map (fun u => (user_id u, user_permissionEpoch u)) (users w)
  /\ List.map (fun o => (org_id o, org_permissionEpoch o)) (organizations w')
     = List.map (fun o => (org_id o, org_permissionEpoch o)) (organizations w).

Lemma findFirst_map {R K} (key : R -> K) `{EqDecision K} (val : R -> Z) (t t' : list R) (k : K) :
  List.map (fun r => (key r, val r)) t' = List.map (fun r => (key r, val r)) t ->
  match findFirst (fun r => key r === k) t' with Some r => val r | None => 0%Z end
  = match findFirst (fun r => key r === k) t with Some r => val r | None => 0%Z end.
Proof.
  unfold findFirst. revert t'. induction t as [|r t IH]; intros [|r' t'] Heq; cbn in *; try done.
  injection Heq as Hk Hv Heq. rewrite Hk. destruct (key r === k); auto.
Qed.

Lemma map_pair_fst {R K V} (key : R -> K) (val : R -> V) t t' :
  List.map (fun r => (key r, val r)) t' = List.map (fun r => (key r, val r)) t -> List.map key t' = List.map key t.
Proof.
  intros Heq. apply (f_equal (List.map fst)) in Heq. by rewrite !List.map_map in Heq.
Qed.

Lemma sameGrants_sound w w' : sameGrants w w' -> sound w w'.
Proof.
  intros (Hur & Hr & Hrp & Hp & Hm & Hu & Ho). constructor.
  - intros u. unfold userEpoch. rewrite (findFirst_map user_id user_permissionEpoch _ _ u Hu). lia.
  - intros o. unfold orgEpoch. rewrite (findFirst_map org_id org_permissionEpoch _ _ o Ho). lia.
  - intros u code _. unfold hasGlobalGrant, roleGrants. by rewrite Hur, Hr, Hrp, Hp.
  - intros u o code _ _. unfold hasOrganizationGrant, roleGrants. by rewrite Hm, Hr, Hrp, Hp.
Qed.
Lemma sameGrants_ok w w' : sameGrants w w' -> grantsOk w -> grantsOk w'.
Proof.
  intros (_ & Hr & _ & _ & Hm & Hu & Ho) []. unfold grantsOk. rewrite Hr, Hm. constructor; try done.
  - by rewrite (map_pair_fst user_id user_permissionEpoch _ _ Hu).
  - by rewrite (map_pair_fst org_id org_permissionEpoch _ _ Ho).
Qed.

(** One step of the system: a guard runs for a request authenticated now or earlier, an entry expires,
    a grant changes, or something that leaves the grants alone happens. *)
Inductive perm_step : World * Cache -> World * Cache -> Prop :=
  | ps_guard r code scope reachable stored w cache : wellFormed r -> issued w r ->
      perm_step (w, cache) (w, snd (permissionGuard code scope r reachable stored w cache))
  | ps_expire key w cache : perm_step (w, cache) (w, delete key cache)
  | ps_assign amb u role actor meta w cache :
      perm_step (w, cache) (snd (assignRole amb u role actor meta w), cache)
  | ps_revoke amb u role actor meta w cache :
      perm_step (w, cache) (snd (revokeRole amb u role actor meta w), cache)
  | ps_memberRole amb org u role actor meta w cache :
      perm_step (w, cache) (snd (changeMemberRole amb org u role actor meta w), cache)
  | ps_removeMember amb org u actor meta w cache :
      perm_step (w, cache) (snd (removeMember amb org u actor meta w), cache)
  | ps_orgRole amb role codes actor meta w cache :
      (forall r, In r (roles w) -> role_id r = role -> truthy (role_organizationId r) = true) ->
      perm_step (w, cache) (snd (updateRolePermissions amb role codes actor meta w), cache)
  | ps_other w w' cache : sameGrants w w' -> perm_step (w, cache) (w', cache).

Lemma perm_step_ok s s' : perm_step s s' -> grantsOk (fst s) -> coherent (fst s) (snd s) ->
  grantsOk (fst s') /\ coherent (fst s') (snd s').
Proof.
  intros Hstep Hok Hc. destruct Hstep; cbn [fst snd] in *.
  - split; [done|]. by apply guard_coherent.
  - split; [done|]. intros r code scope v Hwf Hk. apply (lookup_delete_Some cache) in Hk as [_ Hk]. by apply Hc.
  - split; [by apply assignRole_grants|]. by eapply sound_coherent; [apply assignRole_sound|].
  - split; [by apply revokeRole_grants|]. by eapply sound_coherent; [apply revokeRole_sound|].
  - split; [by apply changeMemberRole_grants|]. by eapply sound_coherent; [apply changeMemberRole_sound|].
  - split; [by apply removeMember_grants|]. by eapply sound_coherent; [apply removeMember_sound|].
  - split; [by apply updateRolePermissions_grants|]. by eapply sound_coherent; [apply updateRolePermissions_sound|].
  - split; [by eapply sameGrants_ok|]. by eapply sound_coherent; [apply sameGrants_sound|].
Qed.


Lemma coherent_empty w : coherent w ∅.
Proof. intros r code scope v _ Hk. by apply (lookup_empty_Some (M := gmap string)) in Hk. Qed.
End PermissionsSpec.

(** ** Witnesses *)

Definition loginToken : option string :=
  Some (@signAccessToken demoPlatform demoNow (mkClaims "u1" "s1")).
(** [u1] of the organization world, with a session in the organization. *)
Definition sessionWorld : World :=
  orgWorld <| sessions := [mkSession "s1" "u1" (Some "o1") None None 900000 None None 0 0 None] |>.

Lemma authenticate_fails_closed_witness :
  exists state amb', @authenticate demoPlatform demoNow loginToken sessionWorld = Ok ((state, amb'), sessionWorld)
    /\ auth_organizationId state = Some "o1"
    /\ exists m, In m (memberships sessionWorld) /\ mem_userId m = "u1" /\ mem_status m = Mem_ACTIVE.
Proof.
  assert (Hrun : exists state amb', @authenticate demoPlatform demoNow loginToken sessionWorld
                   = Ok ((state, amb'), sessionWorld) /\ auth_organizationId state = Some "o1"
                   /\ auth_userId state = "u1") by (eexists _, _; vm_compute; repeat split).
  destruct Hrun as (state & amb' & Hrun & Ho & Hu). exists state, amb'. split; [exact Hrun|]. split; [exact Ho|].
  destruct (@authenticate_fails_closed demoPlatform demoNow loginToken sessionWorld state amb' sessionWorld Hrun)
    as (_ & _ & _ & Hm). destruct (Hm "o1" Ho) as [_ (m & Hin & _ & Hmu & Hst & _)].
  exists m. split; [exact Hin|]. split; [rewrite Hmu; exact Hu|exact Hst].
Defined.

(** A permission of the organization's own role, another of the global role. *)
Definition grantWorld : World :=
  orgWorld <| permissions := [mkPermission "p1" "docs.read" None None] |>
    <| roles := [globalRole "r-owner" "owner"; globalRole "r-member" "member";
                 mkRole "r-org" (Some "o1") "reader" None 0 None] |>
    <| rolePermissions := [mkRolePermission "rp1" "r-member" "p1" None; mkRolePermission "rp2" "r-org" "p1" None] |>.
Definition memberRequest (epoch : Z) : AuthState := mkAuthState "u2" "s2" epoch (Some "o1") (Some 0%Z).
Definition guardOf (w : World) (r : AuthState) : Cache -> res unit * Cache :=
  permissionGuard "docs.read" scope_context r true true w.

Lemma grantWorld_ok : grantsOk grantWorld.
Proof.
  constructor; cbn; try (repeat constructor; cbn; intuition discriminate).
  intros m r [<-|[<-|[]]] [<-|[<-|[<-|[]]]]; cbn; intros Heq; try discriminate Heq; auto.
Qed.


(** Narrowing a global role leaves its members' cached permission standing. A member who holds a
    global role through a membership reads with it; the role's permissions are emptied; the member's
    epochs have not moved, so the request is current, the database refuses it and the guard still
    lets it through from the cache. *)
Theorem global_role_update_leaves_stale_grant :
  let w1 := snd (@updateRolePermissions demoPlatform demoNow "r-member" [] "u1" demoMetadata grantWorld) in
  let cache1 := snd (guardOf grantWorld (memberRequest 0) ∅) in
  rolePermissions w1 <> rolePermissions grantWorld
  /\ current w1 (memberRequest 0)
  /\ permissionDecision (memberRequest 0) "docs.read" scope_context w1 = false
  /\ fst (guardOf w1 (memberRequest 0) cache1) = Ok tt.
Proof.
  intros w1 cache1. split; [vm_compute; discriminate|]. split.
  - split; [vm_compute; reflexivity|]. intros o e [= <-] [= <-]. vm_compute. reflexivity.
  - split; vm_compute; reflexivity.
Qed.
