(* ===== verification/Worker.v ===== *)
(** * The notification worker

    queues/notification.worker.ts: a job of the outbox queues is processed against the database.
    What actually sends (modules/notifications/providers.ts) and what an internal event triggers
    (account erasure, upload scanning, Stripe projection) are procedures given to the section. *)

From Stdlib Require Import ZArith Lia Bool.
From stdpp Require Import relations.
From S2P Require Import Prelude Store Database JsString Platform Request TenantScope AuditTrail Outbox.

Open Scope string_scope.

(** [typeof value === 'string' && value ? value : undefined] *)
Definition payloadString (payload : Json) (key : string) : option string :=
  match jget key payload with
  | Some (JStr s) => if s === EmptyString then None else Some s
  | _ => None
  end.

Inductive DeliveryResultStatus := sent | suppressed.
#[export] Instance DeliveryResultStatus_eq_dec : EqDecision DeliveryResultStatus.
Proof. solve_decision. Defined.

Record ProviderDeliveryResult := mkDeliveryResult {
  dr_status : DeliveryResultStatus; dr_provider : string;
  dr_messageId : option string; dr_templateKey : option string
}.

(** [recordDeliveryStarted] treats these as already delivered. *)
Definition recorded (s : NotificationDeliveryStatus) : bool :=
  match s with
  | Del_SENT | Del_DELIVERED | Del_SUPPRESSED | Del_BOUNCED | Del_COMPLAINED => true
  | Del_PROCESSING | Del_FAILED => false
  end.

Inductive DeliveryStart := SEND | ALREADY_RECORDED.

Definition stripeWebhookEventId (event : OutboxEvent) : option string :=
  if (ob_channel event === Ch_INTERNAL) && (ob_eventType event === "stripe.event_received") then
    match jget "stripeWebhookEventId" (ob_payload event) with Some (JStr s) => Some s | _ => None end
  else None.

(** [event.status === 'DELIVERED' || event.status === 'DEAD_LETTER'] *)
Definition settled (s : OutboxStatus) : bool := (s === Ob_DELIVERED) || (s === Ob_DEAD_LETTER).

Section Worker.
Context `{Platform}.

Definition recordDeliveryStarted (amb : Ambient) (event : OutboxEvent) : Proc World DeliveryStart :=
  existing ← transact (sc_findFirst amb None (fun d => del_outboxEventId d === ob_id event));
  if match existing with Some d => recorded (del_status d) | None => false end then
    mret ALREADY_RECORDED
  else
    let destination := payloadString (ob_payload event) "destination" in
    transact (
      id ← newId;
      destinationHash ← match destination with
                        | Some d => h ← tx_lift (hashMetadata (normalizeEmail d)); mret (Some h)
                        | None => mret None
                        end;
      _ ← sc_upsert amb None (Some <$> payloadString (ob_payload event) "organizationId")
        (fun d => del_outboxEventId d === ob_id event)
        (mkNotificationDelivery id None (payloadString (ob_payload event) "userId") (ob_id event)
           (ob_channel event) destinationHash None None None Del_PROCESSING 1 None None None None)
        (fun d => d <| del_status := Del_PROCESSING |> <| del_attempts ::= Z.add 1 |>
                    <| del_lastError := None |>);
      mret tt);;
    mret SEND.

Definition recordDeliveryResult (amb : Ambient) (event : OutboxEvent) (result : ProviderDeliveryResult)
    : Tx World unit :=
  _ ← sc_update_unique amb None (fun d => del_outboxEventId d === ob_id event)
    (fun d => d <| del_status := if dr_status result === suppressed then Del_SUPPRESSED else Del_SENT |>
                <| del_provider := Some (dr_provider result) |>
                <| del_providerMessageId := match dr_messageId result with
                                            | Some m => Some m | None => del_providerMessageId d end |>
                <| del_templateKey := match dr_templateKey result with
                                      | Some k => Some k | None => del_templateKey d end |>
                <| del_sentAt := if dr_status result === sent then Some (nowMs amb) else None |>
                <| del_lastError := None |>);
  mret tt.

Definition recordDeliveryError (amb : Ambient) (event : OutboxEvent) (error : Error) : Tx World unit :=
  _ ← sc_updateMany amb None (fun d => del_outboxEventId d === ob_id event)
    (fun d => d <| del_status := Del_FAILED |>
                <| del_lastError := Some (take_str 2000 (errorMessage error)) |>);
  mret tt.

Definition recordDeliveryFailure (amb : Ambient) (event : OutboxEvent) (generation : Z)
    (error : Error) (disposition : DeliveryFailureDisposition) : Tx World bool :=
  let message := take_str 2000 (errorMessage error) in
  let dead := disposition === DEAD_LETTER in
  updated ← tx_updateMany
    (fun e => (ob_id e === ob_id event) && (ob_deliveryGeneration e === generation)
              && negb (settled (ob_status e)))
    (fun e => e <| ob_status := if dead then Ob_DEAD_LETTER else Ob_ENQUEUED |>
                <| ob_failedAt := if dead then Some (nowMs amb) else None |>
                <| ob_deadLetteredAt := if dead then Some (nowMs amb) else None |>
                <| ob_lastError := Some message |> <| ob_updatedAt := nowMs amb |>);
  if negb (updated =? 1)%nat then mret false
  else
    match stripeWebhookEventId event with
    | Some webhookEventId =>
        if webhookEventId === EmptyString then mret true
        else
          _ ← tx_updateMany (fun e => swe_id e === webhookEventId)
            (fun e => e <| swe_status := Swe_FAILED |> <| swe_lastError := Some message |>);
          mret true
    | None => mret true
    end.

(** The job's event, unless it is settled, deleted or of another generation. *)
Definition currentEvent (job : Job) (event : option OutboxEvent) : option OutboxEvent :=
  match event with
  | Some e =>
      if is_set (ob_deletedAt e) || settled (ob_status e)
         || negb (ob_deliveryGeneration e === job_generation job)
      then None else Some e
  | None => None
  end.

(** [stalledMessage] is the test [/stalled more than/i] on the error's message. *)
Definition reconcileExhaustedJob (amb : Ambient) (stalledMessage : bool) (job : Job) (error : Error)
    : Proc World unit :=
  let configuredAttempts := job_attempts job ??? 1%Z in
  let exhaustedAttempts := (Z.max 1 configuredAttempts <=? job_attemptsMade job)%Z in
  if negb exhaustedAttempts && negb stalledMessage then mret tt
  else
    event ← transact (tx_findFirst (fun e => ob_id e === job_outboxId job));
    match currentEvent job event with
    | None => mret tt
    | Some e =>
        _ ← transact (recordDeliveryFailure amb e (job_generation job) error DEAD_LETTER);
        mret tt
    end.

(** The statement that takes the event: only an enqueued (or failed) one of this generation. *)
Definition startProcessing (amb : Ambient) (event : OutboxEvent) (generation : Z) : Tx World nat :=
  tx_updateMany
    (fun e => (ob_id e === ob_id event) && (ob_deliveryGeneration e === generation)
              && ((ob_status e === Ob_ENQUEUED) || (ob_status e === Ob_FAILED)))
    (fun e => e <| ob_status := Ob_PROCESSING |> <| ob_attempts ::= Z.add 1 |>
                <| ob_claimedAt := None |> <| ob_claimExpiresAt := None |>
                <| ob_claimToken := None |> <| ob_updatedAt := nowMs amb |>).

Definition markDelivered (amb : Ambient) (event : OutboxEvent) (generation : Z) : Tx World nat :=
  tx_updateMany
    (fun e => (ob_id e === ob_id event) && (ob_deliveryGeneration e === generation)
              && (ob_status e === Ob_PROCESSING))
    (fun e => e <| ob_status := Ob_DELIVERED |> <| ob_deliveredAt := Some (nowMs amb) |>
                <| ob_failedAt := None |> <| ob_deadLetteredAt := None |>
                <| ob_lastError := None |> <| ob_updatedAt := nowMs amb |>).

Definition expireBeforeDelivery (amb : Ambient) (event : OutboxEvent) (generation : Z) : Tx World nat :=
  tx_updateMany
    (fun e => (ob_id e === ob_id event) && (ob_deliveryGeneration e === generation)
              && (ob_status e !== Ob_DELIVERED))
    (fun e => e <| ob_status := Ob_DEAD_LETTER |> <| ob_failedAt := Some (nowMs amb) |>
                <| ob_deadLetteredAt := Some (nowMs amb) |>
                <| ob_lastError := Some "Business expiry elapsed before delivery" |>
                <| ob_updatedAt := nowMs amb |>).

(** What the worker calls: the send limits of lib/rate-limit.ts, the providers, and the internal
    handlers. *)
Variable enforceSendLimit : NotificationChannel -> Proc World unit.
Variable sendEmail sendSms : string -> Json -> Proc World ProviderDeliveryResult.
Variable sendPush : Json -> Proc World ProviderDeliveryResult.
Variable processAccountErasure : Json -> Proc World unit.
Variable processUploadScan : string -> Proc World unit.
Variable processStoredStripeEvent : string -> Proc World unit.

Definition processInternal (event : OutboxEvent) : Proc World unit :=
  if ob_eventType event === "account.erasure.requested" then
    processAccountErasure (ob_payload event)
  else if ob_eventType event === "upload.scan.requested" then
    match payloadString (ob_payload event) "uploadId" with
    | None => throw (Failure "Missing upload id")
    | Some uploadId => processUploadScan uploadId
    end
  else if ob_eventType event !== "stripe.event_received" then
    throw (Failure ("Unsupported internal event: " ++ ob_eventType event))
  else
    match stripeWebhookEventId event with
    | None => throw (Failure "Missing Stripe event id")
    | Some webhookEventId =>
        if webhookEventId === EmptyString then throw (Failure "Missing Stripe event id")
        else
          _ ← transact (tx_update (fun e => swe_id e === webhookEventId)
                (fun e => e <| swe_status := Swe_PROCESSING |> <| swe_lastError := None |>));
          processStoredStripeEvent webhookEventId
    end.

Definition deliver (event : OutboxEvent) : Proc World ProviderDeliveryResult :=
  match ob_channel event with
  | Ch_EMAIL => enforceSendLimit Ch_EMAIL;; sendEmail (ob_eventType event) (ob_payload event)
  | Ch_SMS => enforceSendLimit Ch_SMS;; sendSms (ob_eventType event) (ob_payload event)
  | Ch_PUSH => sendPush (ob_payload event)
  | Ch_INTERNAL => processInternal event;; mret (mkDeliveryResult sent "internal" None None)
  end.

Definition attemptDelivery (amb : Ambient) (event : OutboxEvent) (generation : Z) : Proc World unit :=
  delivery ← deliver event;
  transact (recordDeliveryResult amb event delivery);;
  delivered ← transact (markDelivered amb event generation);
  if negb (delivered =? 1)%nat then throw (Failure "Outbox delivery state changed unexpectedly")
  else mret tt.

Definition handleDeliveryError (amb : Ambient) (event : OutboxEvent) (job : Job) (error : Error)
    : Proc World unit :=
  transact (recordDeliveryError amb event error);;
  _ ← transact (recordDeliveryFailure amb event (job_generation job) error
        (deliveryFailureDisposition (job_attemptsMade job) (job_attempts job)));
  throw error.

Definition processNotification (amb : Ambient) (job : Job) : Proc World unit :=
  let generation := job_generation job in
  event ← transact (tx_findFirst (fun e => ob_id e === job_outboxId job));
  match currentEvent job event with
  | None => mret tt
  | Some event =>
      if opt_le (ob_expiresAt event) (nowMs amb) then
        _ ← transact (expireBeforeDelivery amb event generation); mret tt
      else
        started ← transact (startProcessing amb event generation);
        if negb (started =? 1)%nat then mret tt
        else
          deliveryStart ← recordDeliveryStarted amb event;
          match deliveryStart with
          | ALREADY_RECORDED => _ ← transact (markDelivered amb event generation); mret tt
          | SEND => try_catch (attemptDelivery amb event generation)
                              (handleDeliveryError amb event job)
          end
  end.

(** The worker runs jobs outside any tenant ([startNotificationWorkers]). *)
Definition runJob (amb : Ambient) (job : Job) : Proc World unit :=
  withoutTenantScope "notification-worker" (fun amb => processNotification amb job) amb.
End Worker.
