(* ===== verification/OutboxLifecycle.v ===== *)
(** * The life of an outbox event

    The contract of the outbox: a state machine over the statuses, and the proof that every
    statement of the relay and the worker, in any interleaving, moves each event along it. *)

From Stdlib Require Import ZArith Lia Bool Permutation.
From stdpp Require Import relations.
From S2P Require Import Prelude Store Database JsString Platform Request TenantScope AuditTrail Outbox Worker.

Open Scope string_scope.

(** ** The specification *)

Inductive lifecycle : OutboxStatus -> OutboxStatus -> Prop :=
  | lc_claim : lifecycle Ob_PENDING Ob_CLAIMED
  | lc_reclaim : lifecycle Ob_CLAIMED Ob_CLAIMED
  | lc_release : lifecycle Ob_CLAIMED Ob_PENDING
  | lc_enqueue : lifecycle Ob_CLAIMED Ob_ENQUEUED
  | lc_start : lifecycle Ob_ENQUEUED Ob_PROCESSING
  | lc_restart : lifecycle Ob_FAILED Ob_PROCESSING
  | lc_deliver : lifecycle Ob_PROCESSING Ob_DELIVERED
  | lc_retry s : settled s = false -> lifecycle s Ob_ENQUEUED
  | lc_dead s : s <> Ob_DELIVERED -> lifecycle s Ob_DEAD_LETTER
  | lc_redrive : lifecycle Ob_DEAD_LETTER Ob_PENDING.

(** What an event is about never changes. *)
Definition same_event (e e' : OutboxEvent) : Prop :=
  ob_id e' = ob_id e /\ ob_aggregateType e' = ob_aggregateType e /\ ob_aggregateId e' = ob_aggregateId e
  /\ ob_eventType e' = ob_eventType e /\ ob_channel e' = ob_channel e /\ ob_payload e' = ob_payload e
  /\ ob_dedupeKey e' = ob_dedupeKey e /\ ob_expiresAt e' = ob_expiresAt e
  /\ ob_createdAt e' = ob_createdAt e /\ ob_deletedAt e' = ob_deletedAt e.

(** One move: along the life cycle, the generation advancing exactly when a dead letter is revived. *)
Definition ob_step (e e' : OutboxEvent) : Prop :=
  same_event e e' /\ lifecycle (ob_status e) (ob_status e')
  /\ ob_deliveryGeneration e'
     = (if bool_decide (ob_status e = Ob_DEAD_LETTER /\ ob_status e' = Ob_PENDING)
        then 1 + ob_deliveryGeneration e else ob_deliveryGeneration e)%Z.

Definition ob_path : OutboxEvent -> OutboxEvent -> Prop := rtc ob_step.

Lemma lifecycle_not_from_delivered s s' : lifecycle s s' -> s <> Ob_DELIVERED.
Proof. intros Hl ->. inversion Hl; subst; naive_solver. Qed.

Lemma ob_path_delivered e e' : ob_path e e' -> ob_status e = Ob_DELIVERED -> e' = e.
Proof.
  intros Hp Hs. inversion Hp as [|? y ? Hy Hr]; [done|]. destruct Hy as (_ & Hl & _).
  by apply lifecycle_not_from_delivered in Hl.
Qed.

Lemma ob_path_id e e' : ob_path e e' -> ob_id e' = ob_id e.
Proof. induction 1 as [|x y z [[H _] _] _ IH]; congruence. Qed.

Lemma ob_path_same e e' : ob_path e e' -> same_event e e'.
Proof.
  induction 1 as [|x y z [H _] _ IH]; [by repeat split|].
  unfold same_event in *. destruct_and!. repeat split; congruence.
Qed.

Lemma ob_path_generation e e' : ob_path e e' -> (ob_deliveryGeneration e <= ob_deliveryGeneration e')%Z.
Proof.
  induction 1 as [|x y z (_ & _ & H) _ IH]; [lia|]. revert H. case_bool_decide; lia.
Qed.

(** A dead letter comes back to life only as a new generation. *)
Lemma ob_path_dead e e' : ob_path e e' -> ob_status e = Ob_DEAD_LETTER ->
  ob_deliveryGeneration e' = ob_deliveryGeneration e -> ob_status e' = Ob_DEAD_LETTER.
Proof.
  induction 1 as [|x y z (Hs & Hl & Hg) Hr IH]; intros Hd He; [done|].
  pose proof (ob_path_generation _ _ Hr) as Hmono.
  rewrite Hd in Hl. inversion Hl; subst; try (cbn in *; done).
  - apply IH; [done|]. revert Hg. case_bool_decide as Hb; [|lia]. destruct Hb; congruence.
  - revert Hg. rewrite bool_decide_true by done. lia.
Qed.

(** ** Every statement moves events along the life cycle *)

Definition outbox_inv (events0 : list OutboxEvent) (w : World) : Prop :=
  List.NoDup (List.map ob_id (outboxEvents w)) /\ evolves ob_path events0 (outboxEvents w).

Lemma outbox_inv_update events0 (P : OutboxEvent -> bool) f w :
  (forall e, In e (outboxEvents w) -> P e = true -> ob_step e (f e)) ->
  outbox_inv events0 w -> outbox_inv events0 (put (updateWhere P f) w).
Proof.
  intros Hf [Hnd Hev]. unfold outbox_inv. cbn.
  set (g e := if P e then f e else e).
  assert (Heq : updateWhere P f (outboxEvents w) = List.map g (outboxEvents w)) by done.
  assert (Hg : forall e, In e (outboxEvents w) -> ob_path e (g e)).
  { intros e He. unfold g. destruct (P e) eqn:E; [|reflexivity]. apply rtc_once; auto. }
  split.
  - rewrite Heq, List.map_map, (List.map_ext_in _ ob_id); [done|].
    intros e He. by apply ob_path_id, Hg.
  - rewrite Heq. destruct Hev as (a & b & Ht & Hab). rewrite Ht in *.
    exists (List.map g a), (List.map g b). split; [by rewrite List.map_app|].
    clearbody g. clear Heq Ht Hnd Hf. induction Hab as [|x y l k Hxy Hlk IH]; cbn; constructor.
    + etrans; [done|]. apply Hg. by left.
    + apply IH. intros e He. apply Hg. by right.
Qed.

Lemma outbox_inv_updateMany events0 (P : OutboxEvent -> bool) f :
  (forall e, P e = true -> ob_step e (f e)) -> tx_pres (outbox_inv events0) (tx_updateMany P f).
Proof.
  intros Hf. apply pres_updateMany. intros w Hw. apply outbox_inv_update; [|done].
  intros e _ HP. apply andb_true_iff in HP as [_ HP]. auto.
Qed.

Ltac ob_step_solve :=
  intros e He; bools; unfold ob_step, same_event; cbn;
  repeat match goal with H : _ || _ = true |- _ => apply orb_true_iff in H as [?|?] end;
  bools;
  repeat match goal with H : ob_status e = _ |- _ => rewrite H end;
  (split; [done|]); (split; [first [constructor; done | apply lc_dead; intros Hd; rewrite Hd in *; done] | by repeat case_bool_decide; cbn; naive_solver]).

Section Statements.
Context `{Platform}.

Lemma inv_markEnqueued ev0 amb event : tx_pres (outbox_inv ev0) (markEnqueued amb event).
Proof. apply pres_bind; [|intros; apply pres_ret]. apply outbox_inv_updateMany. ob_step_solve. Qed.

Lemma inv_release ev0 amb event err :
  tx_pres (outbox_inv ev0) (releaseClaimAfterEnqueueFailure amb event err).
Proof. apply pres_bind; [|intros; apply pres_ret]. apply outbox_inv_updateMany. ob_step_solve. Qed.

Lemma inv_startProcessing ev0 amb event g : tx_pres (outbox_inv ev0) (startProcessing amb event g).
Proof. apply outbox_inv_updateMany. ob_step_solve. Qed.

Lemma inv_markDelivered ev0 amb event g : tx_pres (outbox_inv ev0) (markDelivered amb event g).
Proof. apply outbox_inv_updateMany. ob_step_solve. Qed.

Lemma inv_expire ev0 amb event g : tx_pres (outbox_inv ev0) (expireBeforeDelivery amb event g).
Proof. apply outbox_inv_updateMany. ob_step_solve. Qed.

Lemma inv_recordDeliveryFailure ev0 amb event g err d :
  tx_pres (outbox_inv ev0) (recordDeliveryFailure amb event g err d).
Proof.
  unfold recordDeliveryFailure. apply pres_bind.
  - apply outbox_inv_updateMany. destruct d; ob_step_solve.
  - intros n. pres.
Qed.

Lemma claimed_id t tok e : ob_id (claimed t tok e) = ob_id e.
Proof. done. Qed.

(** The rows the claim statement hits are the claimable ones it selected. *)
Lemma candidate_claimable t batchSize events e :
  List.NoDup (List.map ob_id events) -> In e events ->
  mem (ob_id e) (candidateIds batchSize t events) = true -> claimable t e = true.
Proof.
  intros Hnd He Hm. apply mem_In, List.in_map_iff in Hm as (e' & Hid & He').
  apply In_firstn, In_orderByAsc, In_findMany in He' as [He' Hc].
  by rewrite <- (NoDup_key_inj ob_id _ _ _ Hnd He' He Hid).
Qed.

Lemma claimed_step t tok e : claimable t e = true -> ob_step e (claimed t tok e).
Proof.
  intros Hc. unfold claimable in Hc. revert e Hc. ob_step_solve.
Qed.

Lemma inv_claim ev0 amb n : tx_pres (outbox_inv ev0) (claimOutboxBatch amb n).
Proof.
  apply pres_bind; [auto with pres|]. intros tok w a w' Hw [= <- <-].
  apply outbox_inv_update; [|done]. intros e He Hm. apply claimed_step.
  destruct Hw as [Hnd _]. by eapply candidate_claimable.
Qed.

Lemma outbox_inv_create ev0 (e : OutboxEvent) : tx_pres (outbox_inv ev0) (tx_create e).
Proof.
  apply pres_create. intros w [Hnd Hev] Hc. split.
  - change (List.NoDup (List.map ob_id (outboxEvents w ++ [e]))).
    rewrite List.map_app. apply List.NoDup_app; [done|repeat constructor; auto|].
    intros k Hk [<-|[]]. apply List.in_map_iff in Hk as (x & Hx & Hin).
    assert (existsb (clash e) (outboxEvents w) = true); [|by cbn in *; congruence].
    apply existsb_exists. exists x. split; [done|]. cbn. by rewrite bool_decide_true.
  - change (evolves ob_path ev0 (outboxEvents w ++ [e])). by apply evolves_app.
Qed.

Lemma inv_addOutboxEvent ev0 amb input : tx_pres (outbox_inv ev0) (addOutboxEvent amb input).
Proof.
  apply pres_bind; [auto with pres|]. intros id. apply pres_bind; [apply outbox_inv_create|].
  intros; apply pres_ret.
Qed.

Lemma inv_redrive ev0 amb id actor meta :
  tx_pres (outbox_inv ev0) (redriveDeadLetterEvent amb id actor meta).
Proof.
  unfold redriveDeadLetterEvent. pres. apply outbox_inv_updateMany.
  intros e He. bools. unfold ob_step, same_event; cbn.
  match goal with H : ob_status e = _ |- _ => rewrite H end. split; [done|]. split; [constructor|].
  by rewrite bool_decide_true.
Qed.
End Statements.

#[export] Hint Resolve inv_markEnqueued inv_release inv_startProcessing inv_markDelivered inv_expire
  inv_recordDeliveryFailure inv_claim inv_addOutboxEvent inv_redrive : pres.

(** ** Handlers *)

Section Handlers.
Context `{Platform}.
Variable enforceSendLimit : NotificationChannel -> Proc World unit.
Variable sendEmail sendSms : string -> Json -> Proc World ProviderDeliveryResult.
Variable sendPush : Json -> Proc World ProviderDeliveryResult.
Variable processAccountErasure : Json -> Proc World unit.
Variable processUploadScan : string -> Proc World unit.
Variable processStoredStripeEvent : string -> Proc World unit.

Notation process := (processNotification enforceSendLimit sendEmail sendSms sendPush
  processAccountErasure processUploadScan processStoredStripeEvent).

Lemma inv_recordDeliveryStarted ev0 amb event :
  proc_pres (outbox_inv ev0) (recordDeliveryStarted amb event).
Proof. unfold recordDeliveryStarted. pres. Qed.

Lemma inv_reconcile ev0 amb stalled job err :
  proc_pres (outbox_inv ev0) (reconcileExhaustedJob amb stalled job err).
Proof. unfold reconcileExhaustedJob. pres. Qed.

(** What the worker runs on behalf of an event keeps the outbox on its life cycle. *)
Definition keepsOutbox {A} (p : Proc World A) : Prop := forall ev0, proc_pres (outbox_inv ev0) p.

Lemma inv_process ev0 amb job :
  (forall c, keepsOutbox (enforceSendLimit c)) -> (forall t p, keepsOutbox (sendEmail t p)) ->
  (forall t p, keepsOutbox (sendSms t p)) -> (forall p, keepsOutbox (sendPush p)) ->
  (forall p, keepsOutbox (processAccountErasure p)) -> (forall u, keepsOutbox (processUploadScan u)) ->
  (forall i, keepsOutbox (processStoredStripeEvent i)) ->
  proc_pres (outbox_inv ev0) (process amb job).
Proof.
  intros H1 H2 H3 H4 H5 H6 H7. unfold processNotification. pres.
  - apply inv_recordDeliveryStarted.
  - unfold attemptDelivery, deliver, processInternal, recordDeliveryResult. pres;
      first [apply H1|apply H2|apply H3|apply H4|apply H5|apply H6|apply H7].
  - unfold handleDeliveryError, recordDeliveryError. pres.
Qed.
End Handlers.

(** ** Interleavings

    One committed statement of the system on the database: the outbox statements with whatever
    arguments a handler holds (possibly stale), or anything that leaves the outbox table alone. *)

Section Interleaving.
Context `{Platform}.

Inductive outbox_statement : World -> World -> Prop :=
  | st_add amb input w w' : addOutboxEvent amb input w = Ok (tt, w') -> outbox_statement w w'
  | st_claim amb n events w w' : claimOutboxBatch amb n w = Ok (events, w') -> outbox_statement w w'
  | st_enqueued amb e w w' : markEnqueued amb e w = Ok (tt, w') -> outbox_statement w w'
  | st_release amb e err w w' :
      releaseClaimAfterEnqueueFailure amb e err w = Ok (tt, w') -> outbox_statement w w'
  | st_start amb e g n w w' : startProcessing amb e g w = Ok (n, w') -> outbox_statement w w'
  | st_delivered amb e g n w w' : markDelivered amb e g w = Ok (n, w') -> outbox_statement w w'
  | st_expire amb e g n w w' : expireBeforeDelivery amb e g w = Ok (n, w') -> outbox_statement w w'
  | st_failure amb e g err d b w w' :
      recordDeliveryFailure amb e g err d w = Ok (b, w') -> outbox_statement w w'
  | st_redrive amb id actor meta e w w' :
      redriveDeadLetterEvent amb id actor meta w = Ok (e, w') -> outbox_statement w w'
  | st_other w w' : outboxEvents w' = outboxEvents w -> outbox_statement w w'.

Lemma outbox_inv_statement ev0 w w' : outbox_statement w w' -> outbox_inv ev0 w -> outbox_inv ev0 w'.
Proof.
  destruct 1 as [amb i w w' E|amb n evs w w' E|amb e w w' E|amb e err w w' E|amb e g n w w' E
                |amb e g n w w' E|amb e g n w w' E|amb e g err d b w w' E|amb id ac me e w w' E|w w' E];
    intros Hw.
  10: { unfold outbox_inv in *. by rewrite E. }
  all: revert Hw E; match goal with |- _ -> ?m _ = _ -> _ =>
    let Hp := fresh in assert (Hp : tx_pres (outbox_inv ev0) m) by auto with pres; exact (Hp _ _ _) end.
Qed.

(** C12: whatever the interleaving of relay replicas, workers, dead-letter redrives and writers,
    an outbox event keeps its identity and payload and only moves along the life cycle: a
    delivered event is never touched again, the delivery generation never decreases, and a dead
    letter stays dead within its generation. *)
Theorem outbox_interleaving_safe w w' e :
  List.NoDup (List.map ob_id (outboxEvents w)) ->
  rtc outbox_statement w w' -> In e (outboxEvents w) ->
  exists e', In e' (outboxEvents w') /\ ob_path e e' /\ same_event e e'
    /\ (ob_status e = Ob_DELIVERED -> e' = e)
    /\ (ob_deliveryGeneration e <= ob_deliveryGeneration e')%Z
    /\ (ob_status e = Ob_DEAD_LETTER -> ob_deliveryGeneration e' = ob_deliveryGeneration e ->
        ob_status e' = Ob_DEAD_LETTER).
Proof.
  intros Hnd Hsteps Hin.
  assert (Hinv : outbox_inv (outboxEvents w) w) by (split; [done|by apply evolves_refl; intros ?; apply rtc_refl]).
  assert (Hinv' : outbox_inv (outboxEvents w) w').
  { clear Hin Hnd. revert Hinv. generalize (outboxEvents w). intros ev0.
    induction Hsteps; eauto using outbox_inv_statement. }
  destruct Hinv' as [_ Hev]. destruct (evolves_In _ _ _ _ Hev Hin) as (e' & He' & Hp).
  exists e'. split; [done|]. split; [done|].
  split; [by apply ob_path_same|]. split; [by apply ob_path_delivered|].
  split; [by apply ob_path_generation|]. by apply ob_path_dead.
Qed.
End Interleaving.

(** ** Claims partition the events *)

Section Claims.
Context `{Platform}.

Lemma claimStatement_ids t n tok w evs w1 :
  claimStatement t n tok w = Ok (evs, w1) ->
  outboxEvents w1 = updateWhere (fun e => mem (ob_id e) (candidateIds n t (outboxEvents w)))
                      (claimed t tok) (outboxEvents w)
  /\ evs = List.map (claimed t tok)
             (findMany (fun e => mem (ob_id e) (candidateIds n t (outboxEvents w))) (outboxEvents w)).
Proof. by intros [= <- <-]. Qed.

Lemma claim_runs amb n w : claimOutboxBatch amb n w
  = claimStatement (nowMs amb) n (uuid (drawn w)) (w <| drawn ::= S |>).
Proof. done. Qed.

Lemma claimed_length t n events : List.NoDup (List.map ob_id events) ->
  length (findMany (fun e => mem (ob_id e) (candidateIds n t events)) events) <= n.
Proof.
  intros Hnd. rewrite <- (length_map ob_id).
  etrans; [apply (List.NoDup_incl_length (l' := candidateIds n t events))|].
  - by apply NoDup_map_findMany.
  - intros k Hk. apply List.in_map_iff in Hk as (x & <- & Hx).
    apply In_findMany in Hx as [_ Hx]. by apply mem_In.
  - unfold candidateIds. rewrite length_map, length_firstn. lia.
Qed.

(** C13: claiming partitions the available events between relay replicas. A claim returns at most
    a batch of events that were due, each marked with the claimer's token under a lease; it takes
    the oldest first; and a second claim made before the lease runs out returns none of them. *)
Theorem claim_partition amb1 amb2 n1 n2 w w1 w2 evs1 evs2 :
  List.NoDup (List.map ob_id (outboxEvents w)) ->
  claimOutboxBatch amb1 n1 w = Ok (evs1, w1) -> claimOutboxBatch amb2 n2 w1 = Ok (evs2, w2) ->
  (nowMs amb1 <= nowMs amb2 < nowMs amb1 + OUTBOX_CLAIM_LEASE_MS)%Z ->
  length evs1 <= n1
  /\ (forall e1, In e1 evs1 -> exists e, In e (outboxEvents w) /\ claimable (nowMs amb1) e = true
        /\ e1 = claimed (nowMs amb1) (uuid (drawn w)) e /\ In e1 (outboxEvents w1)
        /\ forall e', In e' (outboxEvents w) -> claimable (nowMs amb1) e' = true ->
             ~ In (ob_id e') (List.map ob_id evs1) -> (ob_createdAt e <= ob_createdAt e')%Z)
  /\ (forall e1 e2, In e1 evs1 -> In e2 evs2 -> ob_id e1 <> ob_id e2).
Proof.
  intros Hnd H1 H2 Ht. rewrite claim_runs in H1, H2.
  apply claimStatement_ids in H1 as [Hw1 ->], H2 as [_ ->]. cbn [outboxEvents field_set] in Hw1.
  set (t1 := nowMs amb1) in *. set (tok := uuid (drawn w)) in *. set (events := outboxEvents w) in *.
  change (outboxEvents (w <| drawn ::= S |>)) with events.
  change (outboxEvents (w1 <| drawn ::= S |>)) with (outboxEvents w1).
  set (hit e := mem (ob_id e) (candidateIds n1 t1 events)) in *.
  assert (Hnd1 : List.NoDup (List.map ob_id (outboxEvents w1))).
  { rewrite Hw1, map_updateWhere; auto. }
  split; [rewrite length_map; by apply claimed_length|]. split.
  - intros e1 He1. apply List.in_map_iff in He1 as (e & <- & He). apply In_findMany in He as [He Hm].
    exists e. split; [done|]. split; [exact (candidate_claimable _ _ _ _ Hnd He Hm)|]. split; [done|]. split.
    { rewrite Hw1. apply In_updateWhere. exists e. split; [done|]. by rewrite Hm. }
    intros e' He' Hc' Hn. unfold hit, candidateIds in Hm.
    apply mem_In, List.in_map_iff in Hm as (x & Hx & Hin).
    assert (x = e) as ->.
    { apply (NoDup_key_inj ob_id events); auto. by apply In_firstn, In_orderByAsc, In_findMany in Hin as [? _]. }
    apply (sorted_take_le (key_asc ob_createdAt) n1
             (orderByAsc ob_createdAt (findMany (claimable t1) events)) e e');
      [apply orderByAsc_sorted|done|].
    assert (Hall : In e' (orderByAsc ob_createdAt (findMany (claimable t1) events)))
      by (by apply In_orderByAsc, In_findMany).
    rewrite <- (firstn_skipn n1) in Hall. apply in_app_or in Hall as [Hall|Hall]; [|done].
    contradict Hn. rewrite List.map_map. apply List.in_map_iff. exists e'. split; [done|].
    apply In_findMany. split; [done|]. unfold hit, candidateIds. by apply mem_In, List.in_map.
  - intros e1 e2 He1 He2 Heq.
    apply List.in_map_iff in He1 as (r1 & <- & Hr1). apply In_findMany in Hr1 as [Hr1 Hm1].
    apply List.in_map_iff in He2 as (r2 & <- & Hr2). apply In_findMany in Hr2 as [Hr2 Hm2].
    pose proof (candidate_claimable _ _ _ _ Hnd1 Hr2 Hm2) as Hc.
    assert (r2 = claimed t1 tok r1) as ->.
    { apply (NoDup_key_inj ob_id (outboxEvents w1)); auto. rewrite Hw1. apply In_updateWhere.
      exists r1. split; [done|]. by rewrite Hm1. }
    unfold claimable in Hc. cbn in Hc. bools. unfold OUTBOX_CLAIM_LEASE_MS in *.
    repeat case_bool_decide; cbn in *; bools; try done; lia.
Qed.
End Claims.
