(* ===== verification/WorkerSpec.v ===== *)
(** * What processing a job does

    The functional behaviour of [processNotification] on every branch: which jobs are inert, that
    a recorded delivery is not sent again, success, failure and dead-lettering, and the race
    between the relay and the worker. *)

From Stdlib Require Import ZArith Lia Bool.
From stdpp Require Import relations.
From S2P Require Import Prelude Store Database JsString Platform Request TenantScope AuditTrail Outbox Worker OutboxLifecycle.

Open Scope string_scope.

Section Process.
Context `{Platform}.
Variable enforceSendLimit : NotificationChannel -> Proc World unit.
Variable sendEmail sendSms : string -> Json -> Proc World ProviderDeliveryResult.
Variable sendPush : Json -> Proc World ProviderDeliveryResult.
Variable processAccountErasure : Json -> Proc World unit.
Variable processUploadScan : string -> Proc World unit.
Variable processStoredStripeEvent : string -> Proc World unit.

Notation process := (processNotification enforceSendLimit sendEmail sendSms sendPush
  processAccountErasure processUploadScan processStoredStripeEvent).
Notation dispatch := (deliver enforceSendLimit sendEmail sendSms sendPush
  processAccountErasure processUploadScan processStoredStripeEvent).
Notation attempt := (attemptDelivery enforceSendLimit sendEmail sendSms sendPush
  processAccountErasure processUploadScan processStoredStripeEvent).

Lemma pins_id (P : OutboxEvent -> bool) e :
  (forall x, P x = true -> ob_id x = ob_id e) -> pins ob_id P e.
Proof. done. Qed.

Lemma process_no_event amb job w o :
  tx_findFirst (fun e => ob_id e === job_outboxId job) w = Ok (o, w) ->
  currentEvent job o = None -> process amb job w = (Ok tt, w).
Proof. intros Hf Hn. unfold processNotification. rewrite (proc_step _ _ _ _ _ Hf), Hn. done. Qed.

(** The lookup of the job's event. *)
Lemma find_event job w e : Row ob_id e (outboxEvents w) -> job_outboxId job = ob_id e ->
  ob_deletedAt e = None ->
  tx_findFirst (fun x => ob_id x === job_outboxId job) w = Ok (Some e, w).
Proof.
  intros Hr Hj Hd. apply (run_findFirst ob_id); [done| |done|].
  - intros x Hx. bools. congruence.
  - by rewrite Hj, bool_decide_true.
Qed.

Lemma process_inert amb job w e :
  Row ob_id e (outboxEvents w) -> job_outboxId job = ob_id e -> ob_deletedAt e = None ->
  settled (ob_status e) = true \/ ob_deliveryGeneration e <> job_generation job ->
  process amb job w = (Ok tt, w).
Proof.
  intros Hr Hj Hd Hs. eapply process_no_event; [by apply find_event|].
  unfold currentEvent. rewrite Hd. cbn.
  destruct Hs as [->|Hs]; [done|]. by rewrite (bool_decide_false _ Hs), orb_true_r.
Qed.

(** The statement that takes an event. *)
Definition taken (amb : Ambient) (e : OutboxEvent) : OutboxEvent :=
  e <| ob_status := Ob_PROCESSING |> <| ob_attempts ::= Z.add 1 |> <| ob_claimedAt := None |>
    <| ob_claimExpiresAt := None |> <| ob_claimToken := None |> <| ob_updatedAt := nowMs amb |>.


(** An event a worker may take: enqueued, of the job's generation, and not past its expiry. *)
Record takeable (amb : Ambient) (job : Job) (w : World) (e : OutboxEvent) : Prop := {
  tk_row : Row ob_id e (outboxEvents w);
  tk_job : job_outboxId job = ob_id e;
  tk_live : ob_deletedAt e = None;
  tk_status : ob_status e = Ob_ENQUEUED;
  tk_generation : ob_deliveryGeneration e = job_generation job;
  tk_expiry : opt_le (ob_expiresAt e) (nowMs amb) = false
}.

Definition takes (e : OutboxEvent) (g : Z) (x : OutboxEvent) : bool :=
  (ob_id x === ob_id e) && (ob_deliveryGeneration x === g)
  && ((ob_status x === Ob_ENQUEUED) || (ob_status x === Ob_FAILED)).

(** The state after the event was taken. *)
Definition takenWorld (amb : Ambient) (job : Job) (e : OutboxEvent) (w : World) : World :=
  put (updateWhere (activeWhere (takes e (job_generation job))) (taken amb)) w.

Lemma takenWorld_row amb job w e : takeable amb job w e ->
  Row ob_id (taken amb e) (outboxEvents (takenWorld amb job e w)).
Proof.
  intros [Hr Hj Hd Hs Hg Hx]. apply (Row_update_pos ob_id); [done|done|].
  cbn. rewrite Hd. unfold takes. by rewrite Hs, Hg, !bd_refl.
Qed.

Lemma process_taken amb job w e : takeable amb job w e ->
  process amb job w =
  (deliveryStart ← recordDeliveryStarted amb e;
   match deliveryStart with
   | ALREADY_RECORDED => _ ← transact (markDelivered amb e (job_generation job)); mret tt
   | SEND => try_catch (attempt amb e (job_generation job)) (handleDeliveryError amb e job)
   end) (takenWorld amb job e w).
Proof.
  intros [Hr Hj Hd Hs Hg Hx]. unfold processNotification.
  rewrite (proc_step _ _ _ _ _ (find_event _ _ _ Hr Hj Hd)). unfold currentEvent.
  rewrite Hd, Hs, Hg, bd_refl. change (settled Ob_ENQUEUED) with false. cbn [is_set orb negb].
  rewrite Hx.
  rewrite (proc_step _ _ _ 1 (takenWorld amb job e w)); [done|].
  unfold startProcessing. apply (run_updateMany ob_id _ _ e); [done| |done|].
  - intros x Hx'. bools. done.
  - by rewrite Hs, Hg, !bd_refl.
Qed.
End Process.

(** ** The delivery record *)

Section Deliveries.
Context `{Platform}.

(** The unique constraints hold between the deliveries of different events. *)
Definition clashFree (w : World) : Prop := forall x y,
  In x (notificationDeliveries w) -> In y (notificationDeliveries w) ->
  del_outboxEventId y <> del_outboxEventId x -> clash x y = false.

(** The deliveries of the database: one live row per outbox event, and the next identifier drawn
    is a new one. *)
Record deliveriesOk (w : World) : Prop := {
  dl_nodup : List.NoDup (List.map del_outboxEventId (notificationDeliveries w));
  dl_live : forall d, In d (notificationDeliveries w) -> del_deletedAt d = None;
  dl_fresh : forall d, In d (notificationDeliveries w) -> del_id d <> uuid (drawn w);
  dl_unique : clashFree w
}.

Definition isFor (e : OutboxEvent) (d : NotificationDelivery) : bool := del_outboxEventId d === ob_id e.

Lemma isFor_true e d : isFor e d = true <-> del_outboxEventId d = ob_id e.
Proof. unfold isFor. apply bool_decide_eq_true. Qed.

Lemma delivery_find e w : deliveriesOk w ->
  (exists d, Row del_outboxEventId d (notificationDeliveries w) /\ isFor e d = true /\ del_deletedAt d = None)
  \/ (forall d, In d (notificationDeliveries w) -> isFor e d = false).
Proof.
  intros [Hnd Hlive _ _]. destruct (findFirst (isFor e) (notificationDeliveries w)) as [d|] eqn:E.
  - left. apply findFirst_Some in E as [Hd He]. exists d. repeat split; auto.
  - right. intros d. by apply findFirst_None.
Qed.

Lemma isFor_pins e d : isFor e d = true -> pins del_outboxEventId (isFor e) d.
Proof. intros Hd x Hx. apply isFor_true in Hd, Hx. congruence. Qed.

(** The row a started delivery has. *)
Definition inFlight (e : OutboxEvent) (w : World) : Prop :=
  exists d, Row del_outboxEventId d (notificationDeliveries w) /\ isFor e d = true
            /\ del_deletedAt d = None /\ del_status d = Del_PROCESSING.

Lemma hash_runs (dest : option string) (w : World) : keyringValid ->
  exists h, (match dest with
             | Some d => h ← tx_lift (hashMetadata (normalizeEmail d)); mret (Some h)
             | None => mret None
             end : Tx World (option string)) w = Ok (h, w).
Proof.
  intros Hk. destruct dest as [d|]; [|eauto].
  destruct (hashMetadata_total (normalizeEmail d) Hk) as [h Hh]. exists (Some h).
  unfold mbind, tx_bind, tx_lift. by rewrite Hh.
Qed.

(** The provider message identifiers of [w'] are among those of [w]. *)
Definition messagesWithin (w w' : World) : Prop := forall x, In x (notificationDeliveries w') ->
  del_providerMessageId x = None
  \/ exists y, In y (notificationDeliveries w) /\ del_providerMessageId y = del_providerMessageId x.

(** Starting a delivery always succeeds; it sends unless a final result is on record. *)
Lemma recordDeliveryStarted_runs amb reason e w :
  reqContext amb = Some (Unscoped reason) -> keyringValid -> deliveriesOk w ->
  exists r w', recordDeliveryStarted amb e w = (Ok r, w')
    /\ outboxEvents w' = outboxEvents w
    /\ match r with
       | SEND => inFlight e w' /\ clashFree w' /\ messagesWithin w w' /\ forall d, In d (notificationDeliveries w) -> isFor e d = true -> recorded (del_status d) = false
       | ALREADY_RECORDED => w' = w /\ exists d, In d (notificationDeliveries w)
                               /\ isFor e d = true /\ recorded (del_status d) = true
       end.
Proof.
  intros Hc Hk Hok. unfold recordDeliveryStarted.
  assert (Hfilter : forall op, scopeFilter (R := NotificationDelivery) amb op None = Ok (fun _ => true))
    by (intros; by eapply scopeFilter_unscoped).
  assert (Hfind : forall o, tx_findFirst (isFor e) w = Ok (o, w) ->
    sc_findFirst amb None (fun d => del_outboxEventId d === ob_id e) w = Ok (o, w)).
  { intros o Ho. unfold sc_findFirst, mbind, tx_bind, tx_lift. by rewrite Hfilter. }
  destruct (hash_runs (payloadString (ob_payload e) "destination") (w <| drawn ::= S |>) Hk) as [h Hh].
  set (row := mkNotificationDelivery (uuid (drawn w)) None (payloadString (ob_payload e) "userId")
                (ob_id e) (ob_channel e) h None None None Del_PROCESSING 1 None None None None).
  set (owner := default None (Some <$> payloadString (ob_payload e) "organizationId")).
  destruct (delivery_find e w Hok) as [(d & Hrow & Hd & Hlive)|Hnone].
  - rewrite (proc_step _ _ _ (Some d) w); [|apply Hfind, (run_findFirst del_outboxEventId); auto using isFor_pins].
    destruct (recorded (del_status d)) eqn:Er.
    { exists ALREADY_RECORDED, w. split; [done|]. split; [done|]. split; [done|].
      exists d. split; [exact (proj2 Hrow)|done]. }
    eexists SEND, _. erewrite (proc_step _ _ _ tt); [split; [reflexivity|]|].
    2: { rewrite (tx_step _ _ _ _ _ eq_refl). rewrite (tx_step _ _ _ _ _ Hh).
         erewrite tx_step; [reflexivity|]. unfold sc_upsert. erewrite tx_step.
         2: { unfold tx_lift. by rewrite (scopeUpsert_unscoped _ _ _ Hc). }
         apply (run_upsert_some del_outboxEventId _ _ _ d); [done|by apply isFor_pins|done]. }
    split; [done|]. split.
    + eexists. split; [apply (Row_update_pos del_outboxEventId); [|exact Hrow|exact Hd]; done|].
      repeat split; [exact Hd|done].
    + split; [|split].
      * intros x y Hx Hy. apply In_updateWhere in Hx as (x0 & Hx & ->), Hy as (y0 & Hy & ->).
        pose proof (dl_unique _ Hok x0 y0 Hx Hy) as Hu.
        cbn [fst andb].
        destruct (del_outboxEventId y0 === ob_id e), (del_outboxEventId x0 === ob_id e); exact Hu.
      * intros x Hx. apply In_updateWhere in Hx as (x0 & Hx & ->). right. exists x0.
        split; [done|]. cbn [fst andb]. by destruct (del_outboxEventId x0 === ob_id e).
      * intros d' Hd' Hf. apply isFor_true in Hf. apply isFor_true in Hd.
        rewrite (Row_unique _ d d' _ Hrow Hd'); [done|congruence].
  - rewrite (proc_step _ _ _ None w).
    2: { apply Hfind. unfold tx_findFirst. destruct (findFirst _ _) as [x|] eqn:E; [|done].
         apply findFirst_Some in E as [Hx HP]. apply andb_true_iff in HP as [_ HP].
         rewrite Hnone in HP; done. }
    eexists SEND, _. erewrite (proc_step _ _ _ tt); [split; [reflexivity|]|].
    2: { rewrite (tx_step _ _ _ _ _ eq_refl). rewrite (tx_step _ _ _ _ _ Hh).
         erewrite tx_step; [reflexivity|]. unfold sc_upsert. erewrite tx_step.
         2: { unfold tx_lift. by rewrite (scopeUpsert_unscoped _ _ _ Hc). }
         rewrite run_upsert_none; [apply run_create|].
         - destruct (existsb _ _) eqn:E; [|done]. apply existsb_exists in E as (x & Hx & Hcl).
           cbn in Hcl. destruct Hok as [_ _ Hfresh _]. specialize (Hfresh x Hx). specialize (Hnone x Hx).
           unfold isFor in Hnone. bools. rewrite bd_ne, (bd_ne (ob_id e)) in Hcl by congruence. done.
         - intros x Hx. apply (Hnone x Hx). }
    split; [done|]. split; [|split; [|split; [|intros d Hd; rewrite Hnone; done]]].
    2: { intros x y Hx Hy. apply in_app_or in Hx as [Hx|[<-|[]]], Hy as [Hy|[<-|[]]].
         - by apply (dl_unique _ Hok).
         - intros Hne. destruct Hok as [_ _ Hfresh _]. specialize (Hfresh x Hx).
           cbn in *. rewrite !bd_ne by congruence. by destruct (del_providerMessageId x).
         - intros Hne. destruct Hok as [_ _ Hfresh _]. specialize (Hfresh y Hy).
           cbn in *. by rewrite !bd_ne by congruence.
         - by intros []. }
    2: { intros x Hx. apply in_app_or in Hx as [Hx|[<-|[]]]; [eauto|by left]. }
    exists (stampOrganization owner row). split.
    + split; [|apply in_or_app; right; by left]. cbn.
      change (List.NoDup (List.map del_outboxEventId (notificationDeliveries w ++ [stampOrganization owner row]))).
      rewrite List.map_app. destruct Hok as [Hnd _ _ _]. apply List.NoDup_app; [done|repeat constructor; auto|].
      intros k Hkk [<-|[]]. apply List.in_map_iff in Hkk as (x & Hx & Hin).
      specialize (Hnone x Hin). unfold isFor in Hnone. bools. by cbn in Hx.
    + repeat split. cbn. apply isFor_true. done.
Qed.
End Deliveries.

(** ** The claims *)

Section Claims.
Context `{Platform}.
Variable enforceSendLimit : NotificationChannel -> Proc World unit.
Variable sendEmail sendSms : string -> Json -> Proc World ProviderDeliveryResult.
Variable sendPush : Json -> Proc World ProviderDeliveryResult.
Variable processAccountErasure : Json -> Proc World unit.
Variable processUploadScan : string -> Proc World unit.
Variable processStoredStripeEvent : string -> Proc World unit.

Notation process := (processNotification enforceSendLimit sendEmail sendSms sendPush
  processAccountErasure processUploadScan processStoredStripeEvent).
Notation run := (runJob enforceSendLimit sendEmail sendSms sendPush
  processAccountErasure processUploadScan processStoredStripeEvent).
Notation dispatch := (deliver enforceSendLimit sendEmail sendSms sendPush
  processAccountErasure processUploadScan processStoredStripeEvent).

Definition workerAmbient (amb : Ambient) : Ambient :=
  amb <| reqContext := Some (Unscoped "notification-worker") |>.

(** Marking an event this worker took. *)
Lemma mark_runs amb job w e w2 :
  takeable amb job w e -> outboxEvents w2 = outboxEvents (takenWorld amb job e w) ->
  exists w3, markDelivered amb e (job_generation job) w2 = Ok (1, w3)
    /\ exists e', Row ob_id e' (outboxEvents w3) /\ ob_id e' = ob_id e /\ ob_status e' = Ob_DELIVERED
         /\ ob_deliveredAt e' = Some (nowMs amb) /\ ob_attempts e' = (1 + ob_attempts e)%Z.
Proof.
  intros Ht Hw. pose proof (takenWorld_row _ _ _ _ Ht) as Hr. rewrite <- Hw in Hr.
  destruct Ht as [_ _ Hd _ Hg _].
  eexists. split.
  - apply (run_updateMany ob_id _ _ (taken amb e)); [exact Hr| |done|].
    + intros x Hx. bools. done.
    + cbn. by rewrite Hg, !bd_refl.
  - eexists. split; [apply (Row_update_pos ob_id); [|exact Hr|]; [done|]|done].
    cbn. by rewrite Hd, Hg, !bd_refl.
Qed.

(** Recording the provider's answer on a delivery in flight. *)
Lemma recordDeliveryResult_runs amb reason e result w :
  reqContext amb = Some (Unscoped reason) -> inFlight e w -> clashFree w ->
  (forall m x, dr_messageId result = Some m -> In x (notificationDeliveries w) ->
     del_providerMessageId x <> Some m) ->
  exists w', recordDeliveryResult amb e result w = Ok (tt, w')
    /\ outboxEvents w' = outboxEvents w
    /\ exists d, In d (notificationDeliveries w') /\ del_outboxEventId d = ob_id e
         /\ del_status d = (if dr_status result === suppressed then Del_SUPPRESSED else Del_SENT)
         /\ del_provider d = Some (dr_provider result).
Proof.
  intros Hc (d & Hrow & Hd & Hlive & _) Hcf Hm. eexists. split.
  - unfold recordDeliveryResult. erewrite tx_step; [reflexivity|].
    unfold sc_update_unique. erewrite tx_step.
    2: { unfold tx_lift. by rewrite (scopeFilter_unscoped _ _ _ Hc). }
    apply (run_update_unique del_outboxEventId _ _ d); [done|by apply isFor_pins|done|done|].
    intros x Hx Hne. pose proof (Hcf d x (proj2 Hrow) Hx Hne) as Hcl. cbn in *. bools.
    rewrite !bd_ne by done. cbn. destruct (dr_messageId result) as [m|] eqn:Em; [|done].
    specialize (Hm m x eq_refl Hx). unfold same_some. destruct (del_providerMessageId x); [|done].
    rewrite bd_ne; congruence.
  - split; [done|]. eexists. split.
    { apply In_updateWhere. exists d. split; [exact (proj2 Hrow)|].
      rewrite (active_true _ d) by (done || exact Hd). reflexivity. }
    repeat split. by apply isFor_true.
Qed.

Lemma markDelivered_frame amb e g w n w' :
  markDelivered amb e g w = Ok (n, w') -> notificationDeliveries w' = notificationDeliveries w.
Proof. by intros [= _ <-]. Qed.

(** A successful delivery. A worker that takes an enqueued event and whose provider call
    succeeds leaves the event DELIVERED, with one more attempt counted, and the delivery recorded
    as SENT (or SUPPRESSED when the provider suppressed it). *)
Theorem process_success amb job w e result :
  keyringValid -> deliveriesOk (takenWorld amb job e w) -> takeable amb job w e ->
  (forall d, In d (notificationDeliveries w) -> isFor e d = true -> recorded (del_status d) = false) ->
  (forall w1, dispatch e w1 = (Ok result, w1)) ->
  (forall m d, dr_messageId result = Some m -> In d (notificationDeliveries w) ->
     del_providerMessageId d <> Some m) ->
  exists w', run amb job w = (Ok tt, w')
    /\ (exists e', Row ob_id e' (outboxEvents w') /\ ob_id e' = ob_id e
          /\ ob_status e' = Ob_DELIVERED /\ ob_attempts e' = (1 + ob_attempts e)%Z)
    /\ (exists d, In d (notificationDeliveries w') /\ del_outboxEventId d = ob_id e
          /\ del_status d = (if dr_status result === suppressed then Del_SUPPRESSED else Del_SENT)
          /\ del_provider d = Some (dr_provider result)).
Proof.
  intros Hk Hok Ht Hnr Hdisp Hmsg.
  change (run amb job w) with (process (workerAmbient amb) job w).
  assert (Ht' : takeable (workerAmbient amb) job w e) by (destruct Ht; constructor; done).
  rewrite (process_taken _ _ _ _ _ _ _ _ _ _ _ Ht').
  change (takenWorld (workerAmbient amb) job e w) with (takenWorld amb job e w).
  destruct (recordDeliveryStarted_runs (workerAmbient amb) "notification-worker" e
              (takenWorld amb job e w) eq_refl Hk Hok) as (r & w2 & Hrun & Hev & Hr).
  rewrite (proc_call _ _ _ _ _ Hrun). destruct r as [|].
  2: { destruct Hr as (_ & d & Hd & Hf & Hrec). by rewrite (Hnr d Hd Hf) in Hrec. }
  destruct Hr as (Hfl & Hcf & Hmw & _).
  destruct (recordDeliveryResult_runs (workerAmbient amb) "notification-worker" e result w2)
    as (w3 & Hrec & Hev3 & Hdel); [done..| |].
  { intros m x Hm Hx He. destruct (Hmw x Hx) as [Hn|(y & Hy & Hyx)]; [congruence|].
    apply (Hmsg m y Hm Hy). congruence. }
  destruct (mark_runs (workerAmbient amb) job w e w3 Ht') as (w4 & Hmark & e' & He'); [by rewrite Hev3|].
  exists w4. split; [|split].
  - apply try_call. unfold attemptDelivery. rewrite (proc_call _ _ _ _ _ (Hdisp w2)).
    rewrite (proc_step _ _ _ _ _ Hrec). rewrite (proc_step _ _ _ _ _ Hmark). done.
  - destruct He' as (Hr' & Hid & Hs & _ & Ha). exists e'. done.
  - destruct Hdel as (d & Hd & Hrest). exists d. split; [|done].
    by rewrite <- (markDelivered_frame _ _ _ _ _ _ Hmark) in Hd.
Qed.

(** The failure statements on an event this worker took. *)
Lemma failure_runs amb job w e err w2 :
  takeable amb job w e -> outboxEvents w2 = outboxEvents (takenWorld amb job e w) ->
  let disposition := deliveryFailureDisposition (job_attemptsMade job) (job_attempts job) in
  exists w3, recordDeliveryFailure amb e (job_generation job) err disposition w2 = Ok (true, w3)
    /\ notificationDeliveries w3 = notificationDeliveries w2
    /\ exists e', Row ob_id e' (outboxEvents w3) /\ ob_id e' = ob_id e
         /\ ob_status e' = (if disposition === DEAD_LETTER then Ob_DEAD_LETTER else Ob_ENQUEUED)
         /\ ob_lastError e' = Some (take_str 2000 (errorMessage err))
         /\ ob_attempts e' = (1 + ob_attempts e)%Z
         /\ ob_deliveryGeneration e' = ob_deliveryGeneration e.
Proof.
  intros Ht Hw disposition. pose proof (takenWorld_row _ _ _ _ Ht) as Hr. rewrite <- Hw in Hr.
  destruct Ht as [_ _ Hd _ Hg _].
  assert (Hrow : forall w3, outboxEvents w3 = updateWhere
      (activeWhere (fun x => (ob_id x === ob_id e) && (ob_deliveryGeneration x === job_generation job)
              && negb (settled (ob_status x))))
      (fun x => x <| ob_status := if disposition === DEAD_LETTER then Ob_DEAD_LETTER else Ob_ENQUEUED |>
                <| ob_failedAt := if disposition === DEAD_LETTER then Some (nowMs amb) else None |>
                <| ob_deadLetteredAt := if disposition === DEAD_LETTER then Some (nowMs amb) else None |>
                <| ob_lastError := Some (take_str 2000 (errorMessage err)) |> <| ob_updatedAt := nowMs amb |>)
      (outboxEvents w2) ->
    exists e', Row ob_id e' (outboxEvents w3) /\ ob_id e' = ob_id e
         /\ ob_status e' = (if disposition === DEAD_LETTER then Ob_DEAD_LETTER else Ob_ENQUEUED)
         /\ ob_lastError e' = Some (take_str 2000 (errorMessage err))
         /\ ob_attempts e' = (1 + ob_attempts e)%Z
         /\ ob_deliveryGeneration e' = ob_deliveryGeneration e).
  { intros w3 ->. eexists. split; [apply (Row_update_pos ob_id); [|exact Hr|]; [done|]|done].
    cbn. by rewrite Hd, Hg, !bd_refl. }
  unfold recordDeliveryFailure. erewrite tx_step.
  2: { apply (run_updateMany ob_id _ _ (taken amb e)); [exact Hr| |done|].
       - intros x Hx. bools. done.
       - cbn. by rewrite Hg, !bd_refl. }
  cbn [Nat.eqb negb]. destruct (stripeWebhookEventId e) as [wid|]; [|by eauto].
  destruct (wid === EmptyString); [by eauto|].
  rewrite (tx_step _ _ _ _ _ eq_refl). eexists. split; [reflexivity|]. split; [done|]. by apply Hrow.
Qed.

(** C14: a failed delivery. When the provider call of a taken event throws, the handler rethrows
    the error, the failure is recorded on the delivery, and the event goes back to ENQUEUED for
    BullMQ's retry, or to DEAD_LETTER exactly when this was the last configured attempt; its
    generation stands and the attempt is counted. *)
Theorem process_failure amb job w e err :
  keyringValid -> deliveriesOk (takenWorld amb job e w) -> takeable amb job w e ->
  (forall d, In d (notificationDeliveries w) -> isFor e d = true -> recorded (del_status d) = false) ->
  (forall w1, dispatch e w1 = (Err err, w1)) ->
  exists w', run amb job w = (Err err, w')
    /\ (exists e', Row ob_id e' (outboxEvents w') /\ ob_id e' = ob_id e
          /\ ob_status e' = (if bool_decide (Z.max 1 (job_attempts job ??? 1) <= job_attemptsMade job + 1)%Z
                             then Ob_DEAD_LETTER else Ob_ENQUEUED)
          /\ ob_lastError e' = Some (take_str 2000 (errorMessage err))
          /\ ob_attempts e' = (1 + ob_attempts e)%Z
          /\ ob_deliveryGeneration e' = ob_deliveryGeneration e)
    /\ (exists d, In d (notificationDeliveries w') /\ del_outboxEventId d = ob_id e
          /\ del_status d = Del_FAILED).
Proof.
  intros Hk Hok Ht Hnr Hdisp.
  change (run amb job w) with (process (workerAmbient amb) job w).
  assert (Ht' : takeable (workerAmbient amb) job w e) by (destruct Ht; constructor; done).
  rewrite (process_taken _ _ _ _ _ _ _ _ _ _ _ Ht').
  change (takenWorld (workerAmbient amb) job e w) with (takenWorld amb job e w).
  destruct (recordDeliveryStarted_runs (workerAmbient amb) "notification-worker" e
              (takenWorld amb job e w) eq_refl Hk Hok) as (r & w2 & Hrun & Hev & Hr).
  rewrite (proc_call _ _ _ _ _ Hrun). destruct r as [|].
  2: { destruct Hr as (_ & d & Hd & Hf & Hrec). by rewrite (Hnr d Hd Hf) in Hrec. }
  destruct Hr as ((d & Hrow & Hf & Hlive & _) & _).
  set (w3 := put (updateWhere (activeWhere (fun d => true && isFor e d))
      (fun d => d <| del_status := Del_FAILED |>
                  <| del_lastError := Some (take_str 2000 (errorMessage err)) |>)) w2).
  assert (Herr : recordDeliveryError (workerAmbient amb) e err w2 = Ok (tt, w3)).
  { unfold recordDeliveryError. erewrite tx_step; [reflexivity|]. unfold sc_updateMany.
    erewrite tx_step.
    2: { unfold tx_lift. by rewrite (scopeFilter_unscoped (workerAmbient amb) "notification-worker" _ eq_refl). }
    reflexivity. }
  destruct (failure_runs (workerAmbient amb) job w e err w3 Ht') as (w4 & Hfail & Hdl & e' & He').
  { exact Hev. }
  exists w4. split; [|split].
  - rewrite (try_call_err _ _ _ err w2).
    + unfold handleDeliveryError. rewrite (proc_step _ _ _ _ _ Herr).
      by rewrite (proc_step _ _ _ _ _ Hfail).
    + unfold attemptDelivery. by rewrite (proc_call_err _ _ _ _ _ (Hdisp w2)).
  - destruct He' as (Hr' & Hid & Hs & Hrest). exists e'. split; [done|]. split; [done|].
    split; [|done]. rewrite Hs. unfold deliveryFailureDisposition.
    destruct (Z.leb_spec (Z.max 1 (job_attempts job ??? 1%Z)) (job_attemptsMade job + 1)%Z).
    + by rewrite bd_refl, bool_decide_true.
    + rewrite bd_ne by done. by rewrite bool_decide_false by lia.
  - rewrite Hdl. eexists. split.
    { apply In_updateWhere. exists d. split; [exact (proj2 Hrow)|].
      rewrite (active_true _ d) by (done || exact Hf). reflexivity. }
    split; [|done]. by apply isFor_true.
Qed.
End Claims.

Section Contracts.
Context `{Platform}.

(** A worker that takes an event whose final result is on record marks it, whatever the providers are. *)
Lemma run_recorded amb job w e d :
  keyringValid -> deliveriesOk (takenWorld amb job e w) -> takeable amb job w e ->
  In d (notificationDeliveries w) -> isFor e d = true -> recorded (del_status d) = true ->
  exists w', (forall limit email sms push erase scan stripe,
       runJob limit email sms push erase scan stripe amb job w = (Ok tt, w'))
    /\ markDelivered (workerAmbient amb) e (job_generation job) (takenWorld amb job e w) = Ok (1, w')
    /\ exists e', Row ob_id e' (outboxEvents w') /\ ob_id e' = ob_id e /\ ob_status e' = Ob_DELIVERED.
Proof.
  intros Hk Hok Ht Hd Hf Hrec.
  assert (Ht' : takeable (workerAmbient amb) job w e) by (destruct Ht; constructor; done).
  destruct (recordDeliveryStarted_runs (workerAmbient amb) "notification-worker" e
              (takenWorld amb job e w) eq_refl Hk Hok) as (r & w2 & Hrun & Hev & Hr).
  destruct r as [|].
  { destruct Hr as (_ & _ & _ & Hn). by rewrite (Hn d Hd Hf) in Hrec. }
  destruct Hr as [-> _].
  destruct (mark_runs (workerAmbient amb) job w e _ Ht' Hev) as (w3 & Hmark & e' & Hr' & Hid & Hs & _).
  exists w3. split; [|split; [exact Hmark|by exists e']].
  intros. unfold runJob, withoutTenantScope, runWithRequestContext.
  change (amb <| reqContext := Some (Unscoped "notification-worker") |>) with (workerAmbient amb).
  rewrite (process_taken _ _ _ _ _ _ _ _ _ _ _ Ht').
  change (takenWorld (workerAmbient amb) job e w) with (takenWorld amb job e w).
  rewrite (proc_call _ _ _ _ _ Hrun). by rewrite (proc_step _ _ _ _ _ Hmark).
Qed.

(** C15: no duplicate send. If a final result of the event's delivery is already on record, the
    worker that takes the event marks it DELIVERED without consulting any provider: the outcome
    is the same whatever the providers would do, and the delivery records are untouched. *)
Theorem process_no_duplicate_send amb job w e :
  keyringValid -> deliveriesOk (takenWorld amb job e w) -> takeable amb job w e ->
  (exists d, In d (notificationDeliveries w) /\ isFor e d = true /\ recorded (del_status d) = true) ->
  exists w',
    (forall limit email sms push erase scan stripe,
       runJob limit email sms push erase scan stripe amb job w = (Ok tt, w'))
    /\ (exists e', Row ob_id e' (outboxEvents w') /\ ob_id e' = ob_id e /\ ob_status e' = Ob_DELIVERED)
    /\ notificationDeliveries w' = notificationDeliveries w.
Proof.
  intros Hk Hok Ht (d & Hd & Hf & Hrec).
  destruct (run_recorded amb job w e d Hk Hok Ht Hd Hf Hrec) as (w' & Hrun & Hmark & He).
  exists w'. split; [exact Hrun|]. split; [exact He|]. by rewrite (markDelivered_frame _ _ _ _ _ _ Hmark).
Qed.

(** Redriving. Only a live, unexpired dead letter can be redriven; the result is the same
    event PENDING again under the next generation with its attempts reset and due for claiming,
    and any job left over from the old generation has become inert. *)
Theorem redrive_new_generation amb amb2 id actor meta w ev w' job :
  List.NoDup (List.map ob_id (outboxEvents w)) ->
  redriveDeadLetterEvent amb id actor meta w = Ok (ev, w') ->
  exists e, In e (outboxEvents w) /\ ob_id e = id /\ ob_status e = Ob_DEAD_LETTER
    /\ ob_deletedAt e = None /\ opt_le (ob_expiresAt e) (nowMs amb) = false
    /\ In ev (outboxEvents w') /\ same_event e ev /\ ob_status ev = Ob_PENDING /\ ob_attempts ev = 0%Z
    /\ ob_deliveryGeneration ev = (1 + ob_deliveryGeneration e)%Z
    /\ claimable (nowMs amb) ev = true
    /\ (job_outboxId job = id -> job_generation job = ob_deliveryGeneration e ->
        forall limit email sms push erase scan stripe,
          runJob limit email sms push erase scan stripe amb2 job w' = (Ok tt, w')).
Proof.
  intros Hnd Hrun. unfold redriveDeadLetterEvent in Hrun. tx_inv Hrun.
  assert (Haudit : forall wa wb input, writeAuditEvent amb input wa = Ok (tt, wb) ->
    outboxEvents wb = outboxEvents wa).
  { intros wa wb input. apply (pres_writeAuditEvent (fun w => outboxEvents w = outboxEvents wa)); done. }
  destruct_units. tx_store. rename a0 into e. bools. subst id.
  match goal with H : writeAuditEvent _ _ _ = _ |- _ => apply Haudit in H; rename H into Hout end.
  assert (Hrow : Row ob_id e (outboxEvents w)) by done.
  match goal with |- context [In ev (outboxEvents ?x)] => rename x into w2 end.
  set (ev2 := e <| ob_status := Ob_PENDING |> <| ob_attempts := 0%Z |>
                <| ob_deliveryGeneration ::= Z.add 1 |> <| ob_availableAt := nowMs amb |>
                <| ob_claimedAt := None |> <| ob_claimExpiresAt := None |>
                <| ob_claimToken := None |> <| ob_enqueuedAt := None |>
                <| ob_deliveredAt := None |> <| ob_failedAt := None |>
                <| ob_deadLetteredAt := None |> <| ob_lastError := None |>
                <| ob_updatedAt := nowMs amb |>).
  assert (Hdel : ob_deletedAt e = None) by done.
  assert (Hrow2 : Row ob_id ev2 (outboxEvents w2)).
  { rewrite Hout. apply (Row_update_to ob_id e); [done|done| |done]. cbn. rewrite Hdel.
    match goal with H : ob_status e = _ |- _ => rewrite H end. by rewrite !bd_refl. }
  assert (ev = ev2) as ->.
  { apply (Row_unique ob_id ev2 ev (outboxEvents w2)); [done|done|]. done. }
  exists e. repeat (split; [done|]). split.
  { unfold claimable. cbn. rewrite Hdel, Z.leb_refl.
    match goal with H : opt_le _ _ = false |- _ => rewrite H end. by rewrite orb_true_r. }
  intros Hj Hg. intros. unfold runJob, withoutTenantScope, runWithRequestContext.
  apply (process_inert _ _ _ _ _ _ _ _ _ _ ev2); [done|done|done|].
  right. rewrite Hg. cbn. lia.
Qed.
End Contracts.

(** ** The relay and the worker race

    The relay adds the job before it marks the event ENQUEUED. A worker that picks the job up in
    between sees a CLAIMED event, does nothing and completes the job; the relay's update then leaves
    an ENQUEUED event no job refers to, which no later claim selects. *)

Section Race.
Context `{Platform}.

Lemma enqueued_never_claimable t e : ob_status e = Ob_ENQUEUED -> claimable t e = false.
Proof. intros Hs. unfold claimable. rewrite Hs. cbn. by rewrite andb_false_r. Qed.

(** The window between adding a job and recording it. A worker that takes the job of an event
    the relay has not yet marked finishes the job without touching the event or consulting a provider;
    the relay's mark that follows leaves the event ENQUEUED with no job, and no claim ever returns it. *)
Theorem enqueue_race_strands_event amb job w e token :
  Row ob_id e (outboxEvents w) -> ob_deletedAt e = None ->
  ob_status e = Ob_CLAIMED -> ob_claimToken e = Some token ->
  opt_le (ob_expiresAt e) (nowMs amb) = false ->
  job_outboxId job = ob_id e -> job_generation job = ob_deliveryGeneration e ->
  exists w1 w2,
    (forall limit email sms push erase scan stripe,
       runJob limit email sms push erase scan stripe amb job w = (Ok tt, w1))
    /\ outboxEvents w1 = outboxEvents w
    /\ markEnqueued amb e w1 = Ok (tt, w2)
    /\ exists e', Row ob_id e' (outboxEvents w2) /\ ob_id e' = ob_id e
         /\ ob_status e' = Ob_ENQUEUED /\ forall t, claimable t e' = false.
Proof.
  intros Hr Hd Hs Htok Hx Hj Hg.
  assert (Hstart : exists w1, startProcessing amb e (job_generation job) w = Ok (0, w1)
                              /\ outboxEvents w1 = outboxEvents w).
  { change (exists w1, startProcessing amb e (job_generation job) w = Ok (0, w1)
                       /\ table (R := OutboxEvent) w1 = table w).
    apply (run_updateMany_zero ob_id _ _ e); [exact Hr| |].
    - intros x Hx'. bools. done.
    - rewrite Hs. cbn. by rewrite andb_false_r. }
  destruct Hstart as (w1 & Hstart & Hw1). rewrite <- Hw1 in Hr.
  eexists w1, _. split; [|split; [done|split]].
  - intros. unfold runJob, withoutTenantScope, runWithRequestContext, processNotification.
    rewrite (proc_step _ _ _ (Some e) w).
    2: { apply find_event; [by rewrite <- Hw1|done|done]. }
    unfold currentEvent. rewrite Hd, Hs, Hg, bd_refl.
    change (settled Ob_CLAIMED) with false. cbn [is_set orb negb].
    cbn [nowMs field_set]. rewrite Hx. rewrite <- Hg. by rewrite (proc_step _ _ _ _ _ Hstart).
  - unfold markEnqueued. erewrite tx_step; [reflexivity|].
    apply (run_updateMany ob_id _ _ e); [exact Hr| |done|].
    + intros x Hx'. bools. done.
    + by rewrite Hs, !bd_refl.
  - eexists. split; [apply (Row_update_pos ob_id); [|exact Hr|]; [done|]|].
    + cbn. by rewrite Hd, Hs, !bd_refl.
    + split; [done|]. split; [done|]. intros t. by apply enqueued_never_claimable.
Qed.
End Race.

(** ** Witnesses *)

Definition demoAmbient : Ambient := mkAmbient 5000 (Some (Request "req" (Some "u1") (Some "org-a"))).

Definition demoEvent : OutboxEvent :=
  mkOutboxEvent "ev1" "user" "u1" "auth.otp" Ch_EMAIL
    (JObj [("destination", JStr "a@example.com"); ("userId", JStr "u1")]) "k1" Ob_ENQUEUED 0 0 1000
    (Some 90000%Z) None None None None None None None None 1000 1000 None.

Definition demoJob : Job := mkJob "outbox-ev1-0" Ch_EMAIL "ev1" 0 (Some 5%Z) 4.

Definition demoWorld : World := emptyWorld <| outboxEvents := [demoEvent] |>.

Definition demoDelivery : NotificationDelivery :=
  mkNotificationDelivery "d1" None (Some "u1") "ev1" Ch_EMAIL None None (Some "smtp") (Some "m1")
    Del_SENT 1 None (Some 2000%Z) None None.

Definition demoResult : ProviderDeliveryResult := mkDeliveryResult sent "smtp" (Some "m2") None.

Lemma demo_row e w : outboxEvents w = [e] -> Row ob_id e (outboxEvents w).
Proof. intros ->. split; [repeat constructor; auto|by left]. Qed.

Lemma demo_takeable w : outboxEvents w = [demoEvent] -> takeable demoAmbient demoJob w demoEvent.
Proof. intros Hw. constructor; try reflexivity. by apply demo_row. Qed.

Lemma demo_deliveriesOk : @deliveriesOk demoPlatform (takenWorld demoAmbient demoJob demoEvent demoWorld).
Proof. constructor; [constructor|intros ? []|intros ? []|intros ? ? []]. Qed.

Lemma demo_deliveriesOk_recorded : @deliveriesOk demoPlatform
  (takenWorld demoAmbient demoJob demoEvent (demoWorld <| notificationDeliveries := [demoDelivery] |>)).
Proof.
  constructor; cbn.
  - repeat constructor; auto.
  - intros ? [<-|[]]. done.
  - intros ? [<-|[]]. done.
  - intros ? ? [<-|[]] [<-|[]]. done.
Qed.

Lemma process_success_witness :
  exists w', @runJob demoPlatform (fun _ => mret tt) (fun _ _ => mret demoResult)
      (fun _ _ => throw (Failure "x")) (fun _ => throw (Failure "x")) (fun _ => mret tt)
      (fun _ => mret tt) (fun _ => mret tt) demoAmbient demoJob demoWorld = (Ok tt, w')
    /\ (exists e', Row ob_id e' (outboxEvents w') /\ ob_id e' = "ev1"
          /\ ob_status e' = Ob_DELIVERED /\ ob_attempts e' = 1%Z)
    /\ (exists d, In d (notificationDeliveries w') /\ del_outboxEventId d = "ev1"
          /\ del_status d = Del_SENT /\ del_provider d = Some "smtp").
Proof.
  apply (@process_success demoPlatform _ _ _ _ _ _ _ demoAmbient demoJob demoWorld demoEvent demoResult).
  - exact demo_keyringValid.
  - exact demo_deliveriesOk.
  - by apply demo_takeable.
  - intros ? [].
  - reflexivity.
  - intros ? ? ? [].
Defined.

Lemma process_failure_witness :
  exists w', @runJob demoPlatform (fun _ => mret tt) (fun _ _ => throw (Failure "smtp down"))
      (fun _ _ => throw (Failure "x")) (fun _ => throw (Failure "x")) (fun _ => mret tt)
      (fun _ => mret tt) (fun _ => mret tt) demoAmbient demoJob demoWorld = (Err (Failure "smtp down"), w')
    /\ (exists e', Row ob_id e' (outboxEvents w') /\ ob_id e' = "ev1"
          /\ ob_status e' = Ob_DEAD_LETTER
          /\ ob_lastError e' = Some "smtp down" /\ ob_attempts e' = 1%Z /\ ob_deliveryGeneration e' = 0%Z)
    /\ (exists d, In d (notificationDeliveries w') /\ del_outboxEventId d = "ev1" /\ del_status d = Del_FAILED).
Proof.
  apply (@process_failure demoPlatform _ _ _ _ _ _ _ demoAmbient demoJob demoWorld demoEvent (Failure "smtp down")).
  - exact demo_keyringValid.
  - exact demo_deliveriesOk.
  - by apply demo_takeable.
  - intros ? [].
  - reflexivity.
Defined.

Lemma process_no_duplicate_send_witness :
  exists w',
    (forall limit email sms push erase scan stripe,
       @runJob demoPlatform limit email sms push erase scan stripe demoAmbient demoJob
         (demoWorld <| notificationDeliveries := [demoDelivery] |>) = (Ok tt, w'))
    /\ (exists e', Row ob_id e' (outboxEvents w') /\ ob_id e' = "ev1" /\ ob_status e' = Ob_DELIVERED)
    /\ notificationDeliveries w' = [demoDelivery].
Proof.
  refine (@process_no_duplicate_send demoPlatform demoAmbient demoJob
           (demoWorld <| notificationDeliveries := [demoDelivery] |>) demoEvent demo_keyringValid
           demo_deliveriesOk_recorded (demo_takeable (demoWorld <| notificationDeliveries := [demoDelivery] |>) eq_refl) _).
  exists demoDelivery. repeat split. by left.
Defined.

Definition demoClaimed : OutboxEvent := claimed 4000 "token" (demoEvent <| ob_status := Ob_PENDING |>).

Lemma enqueue_race_strands_event_witness :
  exists w1 w2,
    (forall limit email sms push erase scan stripe,
       @runJob demoPlatform limit email sms push erase scan stripe demoAmbient demoJob
         (emptyWorld <| outboxEvents := [demoClaimed] |>) = (Ok tt, w1))
    /\ outboxEvents w1 = [demoClaimed]
    /\ markEnqueued demoAmbient demoClaimed w1 = Ok (tt, w2)
    /\ exists e', Row ob_id e' (outboxEvents w2) /\ ob_id e' = "ev1"
         /\ ob_status e' = Ob_ENQUEUED /\ forall t, claimable t e' = false.
Proof.
  refine (@enqueue_race_strands_event demoPlatform demoAmbient demoJob
            (emptyWorld <| outboxEvents := [demoClaimed] |>) demoClaimed "token"
            _ _ _ _ _ _ _); try reflexivity.
  by apply demo_row.
Defined.

Definition demoDead : OutboxEvent := demoEvent <| ob_status := Ob_DEAD_LETTER |> <| ob_attempts := 5%Z |>.
Definition demoMeta : RequestMetadata := mkMetadata "10.0.0.1" None "req".

Lemma redrive_new_generation_witness :
  exists e ev w', @redriveDeadLetterEvent demoPlatform demoAmbient "ev1" "admin" demoMeta
      (emptyWorld <| outboxEvents := [demoDead] |>) = Ok (ev, w')
    /\ ob_status e = Ob_DEAD_LETTER /\ ob_status ev = Ob_PENDING
    /\ ob_deliveryGeneration ev = (1 + ob_deliveryGeneration e)%Z
    /\ forall limit email sms push erase scan stripe,
         @runJob demoPlatform limit email sms push erase scan stripe demoAmbient
           (mkJob "outbox-ev1-0" Ch_EMAIL "ev1" (ob_deliveryGeneration e) (Some 5%Z) 1) w' = (Ok tt, w').
Proof.
  assert (Hnd : List.NoDup (List.map ob_id (outboxEvents (emptyWorld <| outboxEvents := [demoDead] |>))))
    by (repeat constructor; auto).
  destruct (@redriveDeadLetterEvent demoPlatform demoAmbient "ev1" "admin" demoMeta
              (emptyWorld <| outboxEvents := [demoDead] |>)) as [[ev w']|err] eqn:E;
    [|vm_compute in E; discriminate E].
  destruct (@redrive_new_generation demoPlatform demoAmbient demoAmbient "ev1" "admin" demoMeta _ ev w'
              (mkJob "outbox-ev1-0" Ch_EMAIL "ev1" 0 (Some 5%Z) 1) Hnd E)
    as (e & He & _ & Hs & _ & _ & _ & _ & Hp & _ & Hg & _ & Hinert).
  destruct He as [<-|[]].
  exists demoDead, ev, w'. split; [reflexivity|]. split; [exact Hs|]. split; [exact Hp|].
  split; [exact Hg|]. exact (Hinert eq_refl eq_refl).
Defined.

Definition demoPending : OutboxEvent := demoEvent <| ob_status := Ob_PENDING |>.
Definition demoPendingWorld : World := emptyWorld <| outboxEvents := [demoPending] |>.

Lemma outbox_interleaving_safe_witness :
  exists w' e', rtc (@outbox_statement demoPlatform) demoPendingWorld w'
    /\ In e' (outboxEvents w') /\ ob_path demoPending e' /\ ob_status e' = Ob_CLAIMED.
Proof.
  set (p := demoPlatform).
  assert (Hc : exists evs w1, @claimOutboxBatch p demoAmbient 10 demoPendingWorld = Ok (evs, w1)
                 /\ List.map ob_status (outboxEvents w1) = [Ob_CLAIMED])
    by (eexists _, _; split; [reflexivity|vm_compute; reflexivity]).
  destruct Hc as (evs & w1 & Hclaim & Hst).
  assert (Hsteps : rtc (@outbox_statement p) demoPendingWorld w1)
    by (eapply rtc_once, st_claim; exact Hclaim).
  destruct (@outbox_interleaving_safe p demoPendingWorld w1 demoPending) as (e' & He' & Hp & _).
  - repeat constructor; auto.
  - exact Hsteps.
  - by left.
  - exists w1, e'. split; [exact Hsteps|]. split; [exact He'|]. split; [exact Hp|].
    apply (List.in_map ob_status) in He'. rewrite Hst in He'. by destruct He' as [<-|[]].
Defined.

Lemma claim_partition_witness :
  exists evs1 evs2 w1 w2,
    @claimOutboxBatch demoPlatform demoAmbient 10 demoPendingWorld = Ok (evs1, w1)
    /\ @claimOutboxBatch demoPlatform demoAmbient 10 w1 = Ok (evs2, w2)
    /\ length evs1 = 1 /\ length evs1 <= 10
    /\ (forall e1 e2, In e1 evs1 -> In e2 evs2 -> ob_id e1 <> ob_id e2).
Proof.
  destruct (@claimOutboxBatch demoPlatform demoAmbient 10 demoPendingWorld) as [[evs1 w1]|] eqn:E1; [|discriminate E1].
  destruct (@claimOutboxBatch demoPlatform demoAmbient 10 w1) as [[evs2 w2]|] eqn:E2; [|discriminate E2].
  exists evs1, evs2, w1, w2. split; [reflexivity|]. split; [exact E2|].
  destruct (@claim_partition demoPlatform demoAmbient demoAmbient 10 10 demoPendingWorld w1 w2 evs1 evs2) as (Hl & _ & Hd).
  - repeat constructor; auto.
  - exact E1.
  - exact E2.
  - cbn. unfold OUTBOX_CLAIM_LEASE_MS. lia.
  - split; [|split; [exact Hl|exact Hd]]. vm_compute in E1. by injection E1 as <- _.
Defined.
