(* ===== verification/Idempotency.v ===== *)
(** * Idempotency

    lib/idempotency.ts and middleware/idempotency.ts: replay records of completed operations, the
    ownership lease of operations with external effects ([runIdempotent]) and the single transaction
    of database-only ones ([runIdempotentTransaction]). A response is a JSON value. The random
    initialisation vector of the stored response is an argument; [contention] says what PostgreSQL
    does to each attempt of the serializable transaction. *)

From Stdlib Require Import ZArith Lia Bool.
From S2P Require Import Prelude Store Database JsString JsonText Platform Request.

Open Scope string_scope.

(** The part of the Express request these functions read. *)
Record IdempotentRequest := mkIdempotentRequest {
  ireq_userId : option string; ireq_organizationId : option string; ireq_header : option string
}.

Definition idempotencyActorSuffix (request : IdempotentRequest) : res string :=
  match ireq_userId request with
  | Some userId => Ok ("user:" ++ userId)
  | None => Err (errors.unauthenticated "Authentication required")
  end.

Definition idempotencyActorKey (request : IdempotentRequest) : res string :=
  match idempotencyActorSuffix request with
  | Ok suffix =>
      Ok (match ireq_organizationId request with
          | Some o => if o === EmptyString then suffix else "org:" ++ o ++ ":" ++ suffix
          | None => suffix
          end)
  | Err e => Err e
  end.

(** middleware/idempotency.ts: the key of the request, or the refusal. *)
Definition requireIdempotencyKey (request : IdempotentRequest) : res string :=
  let value := match ireq_header request with Some h => trim h | None => EmptyString end in
  if (value === EmptyString) || (String.length value <? 8)%nat || (200 <? String.length value)%nat
  then Err (errors.badRequest "A valid Idempotency-Key header is required")
  else Ok value.

Definition canonicalizeIdempotencyInput (value : Json) : string := canonicalJson value.

Definition encryptedResponseKey : string := "__idempotencyCiphertextV1".
Definition EXTERNAL_OPERATION_LEASE_MS : Z := 2 * 60000.

Record IdempotencyHashes := mkIdempotencyHashes {
  keyHash : string; keyHashCandidates : list string;
  requestHash : string; requestHashCandidates : list string
}.

Record IdempotencyInput := mkIdempotencyInput {
  ii_actorKey : string; ii_scope : string; ii_key : string; ii_request : Json;
  ii_ttlHours : option Z
}.

(** [{ statusCode, response, replayed }] *)
Record IdempotentResult := mkIdempotentResult {
  ir_statusCode : Z; ir_response : Json; ir_replayed : bool
}.

Section Idempotency.
Context `{Platform}.

Definition encryptResponse (iv : string) (response : Json) : res Json :=
  match encryptSecret iv (jsonStringify response) with
  | Ok text => Ok (JObj [(encryptedResponseKey, JStr text)])
  | Err e => Err e
  end.

Definition decryptResponse (response : Json) : res Json :=
  match jget encryptedResponseKey response with
  | Some (JStr text) =>
      match decryptSecret text with
      | Ok plain =>
          match jsonParse plain with
          | Some value => Ok value
          | None => Err (Failure "Unexpected token in JSON")
          end
      | Err e => Err e
      end
  | _ => Ok response
  end.

Definition idempotencyHashes (key : string) (request : Json) : res IdempotencyHashes :=
  let keyHashInput := "idempotency-key:" ++ key in
  let requestHashInput := "idempotency-request:" ++ canonicalizeIdempotencyInput request in
  match hashMetadata keyHashInput, candidateMetadataHashes keyHashInput,
        hashMetadata requestHashInput, candidateMetadataHashes requestHashInput with
  | Ok kh, Ok khs, Ok rh, Ok rhs => Ok (mkIdempotencyHashes kh khs rh rhs)
  | Err e, _, _, _ | _, Err e, _, _ | _, _, Err e, _ | _, _, _, Err e => Err e
  end.

Definition completedResult (record : IdempotencyRecord) : res (option IdempotentResult) :=
  match idem_statusCode record, idem_response record with
  | Some statusCode, Some response =>
      match decryptResponse response with
      | Ok value => Ok (Some (mkIdempotentResult statusCode value true))
      | Err e => Err e
      end
  | _, _ => Ok None
  end.

Definition differentRequest : Error := errors.conflict "Idempotency-Key was already used for a different request".
Definition inProgress : Error := errors.conflict "An operation with this Idempotency-Key is already in progress".

Definition assertSameRequest (recordRequestHash : string) (hashes : IdempotencyHashes) : res unit :=
  if existsb (fun h => h === recordRequestHash) (requestHashCandidates hashes) then Ok tt
  else Err differentRequest.

(** The record of a key, under any key of the ring. *)
Definition recordWhere (input : IdempotencyInput) (hashes : IdempotencyHashes) (r : IdempotencyRecord) : bool :=
  (idem_actorKey r === ii_actorKey input) && (idem_scope r === ii_scope input)
  && existsb (fun h => h === idem_keyHash r) (keyHashCandidates hashes).

Definition ttl (input : IdempotencyInput) : Z := ((ii_ttlHours input ??? 24) * 60 * 60 * 1000)%Z.

(** [record.expiresAt <= now && completedResult(record)] *)
Definition releasable (now : Z) (record : IdempotencyRecord) : res bool :=
  if (idem_expiresAt record <=? now)%Z then
    match completedResult record with
    | Ok o => Ok (is_set o)
    | Err e => Err e
    end
  else Ok false.

(** ** [runIdempotent] *)

(** What the lookup leads to: a stored response, or a record whose lease this call holds. *)
Inductive Acquired :=
  | Completed (result : IdempotentResult)
  | Leased (id : string).

Definition leaseRecord (now : Z) (input : IdempotencyInput) (lockToken : string) (r : IdempotencyRecord) :
    IdempotencyRecord :=
  r <| idem_lockToken := Some lockToken |> <| idem_lockedUntil := Some (now + EXTERNAL_OPERATION_LEASE_MS)%Z |>
    <| idem_expiresAt := (now + ttl input)%Z |> <| idem_attempts ::= Z.succ |>.

Definition leaseFree (now : Z) (r : IdempotencyRecord) : bool :=
  is_null (idem_statusCode r) && (is_null (idem_lockedUntil r) || opt_le (idem_lockedUntil r) now).

Definition newRecord (now : Z) (input : IdempotencyInput) (hashes : IdempotencyHashes)
    (id : string) (lock : option (string * Z)) : IdempotencyRecord :=
  mkIdempotencyRecord id (ii_actorKey input) (ii_scope input) (keyHash hashes) (requestHash hashes)
    None None (fst <$> lock) (snd <$> lock) 1 (now + ttl input) None.

(** An expired, completed record releases its key. *)
Definition dropExpired (now : Z) (found : option IdempotencyRecord) : Proc World (option IdempotencyRecord) :=
  match found with
  | None => mret None
  | Some record =>
      expired ← transact (tx_lift (releasable now record));
      if expired : bool then
        _ ← transact (tx_deleteMany (R := IdempotencyRecord) (fun r => (idem_id r === idem_id record)
                        && (idem_expiresAt r <=? now)%Z && is_set (idem_statusCode r)));
        mret None
      else mret (Some record)
  end.

Definition isP2002 (e : Error) : bool := e === Known "P2002".

Definition acquireLease (amb : Ambient) (input : IdempotencyInput) (hashes : IdempotencyHashes)
    (lockToken : string) : Proc World Acquired :=
  let now := nowMs amb in
  found ← transact (tx_findFirst (recordWhere input hashes));
  record ← dropExpired now found;
  match record with
  | Some record =>
      _ ← transact (tx_lift (assertSameRequest (idem_requestHash record) hashes));
      completed ← transact (tx_lift (completedResult record));
      match completed with
      | Some result => mret (Completed result)
      | None =>
          count ← transact (tx_updateMany (fun r => (idem_id r === idem_id record) && leaseFree now r)
                             (leaseRecord now input lockToken));
          if (count =? 1)%nat then mret (Leased (idem_id record)) else throw inProgress
      end
  | None =>
      try_catch
        (created ← transact (id ← newId;
                             tx_create (newRecord now input hashes id
                               (Some (lockToken, (now + EXTERNAL_OPERATION_LEASE_MS)%Z))));
         mret (Leased (idem_id created)))
        (fun error => if isP2002 error then throw inProgress else throw error)
  end.

(** The record of the lease this call still holds. *)
Definition held (id lockToken : string) (r : IdempotencyRecord) : bool :=
  (idem_id r === id) && (idem_lockToken r === Some lockToken) && is_null (idem_statusCode r).

Definition completeRecord (statusCode : Z) (response : Json) (r : IdempotencyRecord) : IdempotencyRecord :=
  r <| idem_statusCode := Some statusCode |> <| idem_response := Some response |>
    <| idem_lockToken := None |> <| idem_lockedUntil := None |>.

Definition saveResult (iv id lockToken : string) (result : Z * Json) : Proc World unit :=
  response ← transact (tx_lift (encryptResponse iv (snd result)));
  count ← transact (tx_updateMany (held id lockToken) (completeRecord (fst result) response));
  if (count =? 1)%nat then mret tt else throw (Failure "Idempotency ownership lease was lost").

Definition releaseLease (now : Z) (id lockToken : string) : Proc World unit :=
  _ ← transact (tx_updateMany (held id lockToken)
                 (fun r => r <| idem_lockToken := None |> <| idem_lockedUntil := Some now |>));
  mret tt.

Definition runIdempotent (amb : Ambient) (iv : string) (input : IdempotencyInput)
    (operation : Proc World (Z * Json)) : Proc World IdempotentResult :=
  hashes ← transact (tx_lift (idempotencyHashes (ii_key input) (ii_request input)));
  lockToken ← transact newId;
  acquired ← acquireLease amb input hashes lockToken;
  match acquired with
  | Completed result => mret result
  | Leased id =>
      try_catch
        (result ← operation;
         _ ← saveResult iv id lockToken result;
         mret (mkIdempotentResult (fst result) (snd result) false))
        (fun error => _ ← releaseLease (nowMs amb) id lockToken; throw error)
  end.

(** ** [runIdempotentTransaction] *)

(** The record of the key; an expired, completed one is deleted. *)
Definition lookupRecord (now : Z) (input : IdempotencyInput) (hashes : IdempotencyHashes) :
    Tx World (option IdempotencyRecord) :=
  found ← tx_findFirst (recordWhere input hashes);
  match found with
  | None => mret None
  | Some record =>
      expired ← tx_lift (releasable now record);
      if expired : bool then _ ← tx_delete (fun r => idem_id r === idem_id record); mret None
      else mret (Some record)
  end.

(** The body of the transaction. *)
Definition idempotentBody (now : Z) (iv : string) (input : IdempotencyInput) (hashes : IdempotencyHashes)
    (operation : Tx World (Z * Json)) : Tx World IdempotentResult :=
  record ← lookupRecord now input hashes;
  match record with
  | Some record =>
      _ ← tx_lift (assertSameRequest (idem_requestHash record) hashes);
      completed ← tx_lift (completedResult record);
      match completed with
      | Some result => mret result
      | None => tx_throw inProgress
      end
  | None =>
      id ← newId;
      created ← tx_create (newRecord now input hashes id None);
      result ← operation;
      response ← tx_lift (encryptResponse iv (snd result));
      _ ← tx_update (fun r => idem_id r === idem_id created)
            (fun r => r <| idem_statusCode := Some (fst result) |> <| idem_response := Some response |>);
      mret (mkIdempotentResult (fst result) (snd result) false)
  end.

(** What the database does to an attempt: lets it run alone, or, after other transactions took the
    store to another state, aborts it with a known error. *)
Definition Contention : Type := nat -> World -> option (string * World).

Definition execute {A} (contention : Contention) (attempt : nat) (body : Tx World A) : Proc World A := fun w =>
  match contention attempt w with
  | Some (code, w') => (Err (Known code), w')
  | None => transact body w
  end.

(** Another transaction won the key: its durable response is replayed. *)
Definition replayWinner (input : IdempotencyInput) (hashes : IdempotencyHashes) (error : Error) :
    Proc World IdempotentResult :=
  winner ← transact (tx_findFirst (recordWhere input hashes));
  match winner with
  | None => throw error
  | Some record =>
      _ ← transact (tx_lift (assertSameRequest (idem_requestHash record) hashes));
      completed ← transact (tx_lift (completedResult record));
      match completed with
      | Some result => mret result
      | None => throw inProgress
      end
  end.

(** [for (let attempt = 0; attempt < 3; attempt += 1)], [remaining] counting down. *)
Fixpoint attempts (contention : Contention) (remaining attempt : nat) (input : IdempotencyInput)
    (hashes : IdempotencyHashes) (body : Tx World IdempotentResult) : Proc World IdempotentResult :=
  match remaining with
  | 0 => throw (Failure "Idempotency transaction retry budget exhausted")
  | S remaining' =>
      try_catch (execute contention attempt body)
        (fun error =>
           if (error === Known "P2034") && (attempt <? 2)%nat
           then attempts contention remaining' (S attempt) input hashes body
           else if isP2002 error then replayWinner input hashes error
           else throw error)
  end.

Definition runIdempotentTransaction (contention : Contention) (amb : Ambient) (iv : string)
    (input : IdempotencyInput) (operation : Tx World (Z * Json)) : Proc World IdempotentResult :=
  hashes ← transact (tx_lift (idempotencyHashes (ii_key input) (ii_request input)));
  attempts contention 3 0 input hashes (idempotentBody (nowMs amb) iv input hashes operation).
End Idempotency.
