(* ===== verification/IdempotencySpec.v ===== *)
(** * Idempotency: what is promised

    A database-only operation runs exactly once and its response is replayed exactly; an operation
    with external effects runs under an exclusive lease. *)

From Stdlib Require Import ZArith Lia Bool.
From stdpp Require Import relations.
From S2P Require Import Prelude Store Database JsString JsonText Platform Request AuditTrail Idempotency.

Open Scope string_scope.

Section Once.
Context `{Platform}.

(** The result is that of a completed record of the key, for the same request. *)
Definition replayedFrom (input : IdempotencyInput) (hashes : IdempotencyHashes) (result : IdempotentResult)
    (w : World) : Prop :=
  exists record, In record (idempotencyRecords w) /\ idem_deletedAt record = None
    /\ recordWhere input hashes record = true
    /\ assertSameRequest (idem_requestHash record) hashes = Ok tt
    /\ completedResult record = Ok (Some result).

(** The tables the lookup leaves when it finds nothing to replay. *)
Definition keptRecords (now : Z) (input : IdempotencyInput) (hashes : IdempotencyHashes) (w : World)
    (kept : list IdempotencyRecord) : Prop :=
  kept = idempotencyRecords w /\ findFirst (activeWhere (recordWhere input hashes)) (idempotencyRecords w) = None
  \/ exists old, findFirst (activeWhere (recordWhere input hashes)) (idempotencyRecords w) = Some old
       /\ releasable now old = Ok true
       /\ kept = deleteWhere (activeWhere (fun r => idem_id r === idem_id old)) (idempotencyRecords w).

(** The operation ran once, between the creation of the record and its completion, in the state where
    the call found the tables but for the record it created and an expired one it dropped. *)
Definition ranOnce (now : Z) (iv : string) (input : IdempotencyInput) (hashes : IdempotencyHashes)
    (operation : Tx World (Z * Json)) (w : World) (result : IdempotentResult) (w' : World) : Prop :=
  exists kept after response,
    keptRecords now input hashes w kept
    /\ (forall r, In r kept -> idem_id r <> uuid (drawn w))
    /\ operation (w <| drawn ::= S |>
                    <| idempotencyRecords := (kept ++ [newRecord now input hashes (uuid (drawn w)) None])%list |>)
       = Ok ((ir_statusCode result, ir_response result), after)
    /\ encryptResponse iv (ir_response result) = Ok response
    /\ w' = after <| idempotencyRecords ::= updateWhere (activeWhere (fun r => idem_id r === uuid (drawn w)))
               (fun r => r <| idem_statusCode := Some (ir_statusCode result) |> <| idem_response := Some response |>) |>
    /\ ir_replayed result = false.

Lemma completed_replayed record result : completedResult record = Ok (Some result) -> ir_replayed result = true.
Proof. unfold completedResult. repeat case_match; intros; by simplify_eq. Qed.

Lemma kept_In now input hashes w kept r : keptRecords now input hashes w kept ->
  In r kept -> In r (idempotencyRecords w).
Proof. by intros [[-> _]|(old & _ & _ & ->)] Hr; [|apply In_deleteWhere in Hr as [? _]]. Qed.

Lemma lookup_ok now input hashes w found w' : lookupRecord now input hashes w = Ok (found, w') ->
  match found with
  | Some record => w' = w /\ In record (idempotencyRecords w) /\ idem_deletedAt record = None
      /\ recordWhere input hashes record = true
  | None => exists kept, keptRecords now input hashes w kept /\ w' = w <| idempotencyRecords := kept |>
  end.
Proof.
  unfold lookupRecord. intros Hl. apply bind_ok in Hl as (o & s & Hf & Hl).
  assert (s = w) as -> by (by unfold tx_findFirst in Hf; injection Hf as _ <-).
  destruct o as [record|]; tx_inv Hl.
  - destruct a; tx_inv Hl.
    + unfold tx_delete in Hl0.
      destruct (findFirst (activeWhere (fun r => idem_id r === idem_id record)) (table s)); [|done].
      injection Hl0 as _ <-. exists (deleteWhere (activeWhere (fun r => idem_id r === idem_id record)) (idempotencyRecords s)).
      split; [|done]. right. exists record. unfold tx_findFirst in Hf. by injection Hf as Hf.
    + apply findFirst_ok in Hf as (_ & ? & ? & ?). done.
  - unfold tx_findFirst in Hf. injection Hf as Hf.
    eexists. split; [by left|]. by lazymatch goal with |- ?x = _ => destruct x end.
Qed.

Lemma body_ok now iv input hashes operation w result w' :
  idempotentBody now iv input hashes operation w = Ok (result, w') ->
  (w' = w /\ replayedFrom input hashes result w) \/ ranOnce now iv input hashes operation w result w'.
Proof.
  intros Hb. apply bind_ok in Hb as (found & s & Hl & Hb). apply lookup_ok in Hl.
  destruct found as [record|].
  - destruct Hl as (-> & Hin & Hd & Hw). tx_inv Hb. destruct a0 as [r|]; tx_inv Hb. left.
    split; [done|]. destruct a. by exists record.
  - destruct Hl as (kept & Hk & ->). right. tx_inv Hb. injection Hb0 as <- <-.
    apply create_ok in Hb1 as (-> & -> & Hfresh). apply update_ok in Hb3 as (-> & _).
    exists kept, s2, a2. split; [exact Hk|]. split.
    { intros r Hr Hid. specialize (Hfresh r Hr). cbn in Hfresh. rewrite Hid, bd_refl in Hfresh. done. }
    split; [by destruct a1|]. split; [done|]. split; [done|done].
Qed.

Lemma winner_ok input hashes e w r w' : replayWinner input hashes e w = (r, w') ->
  match r with
  | Ok result => if ir_replayed result then w' = w /\ replayedFrom input hashes result w else False
  | Err _ => w' = w
  end.
Proof.
  unfold replayWinner, transact, tx_findFirst, tx_lift, throw, mbind, proc_bind, mret, proc_ret.
  destruct (findFirst _ _) as [record|] eqn:Hf; [|intros Hr; by simplify_eq].
  apply findFirst_Some in Hf as [Hin Hw]. apply andb_true_iff in Hw as [Hd Hw].
  destruct (assertSameRequest _ _) as [[]|] eqn:Ha; [|intros Hr; by simplify_eq].
  destruct (completedResult record) as [[result|]|] eqn:Hc; intros Hr; simplify_eq; [|done..].
  rewrite (completed_replayed _ _ Hc). split; [done|]. exists record. repeat split; try done.
  by destruct (idem_deletedAt record) eqn:E; cbn in Hd; rewrite ?E in Hd.
Qed.

(** What the other transactions did to the tables before the attempt that counted. *)
Definition others (contention : Contention) : World -> World -> Prop :=
  rtc (fun w1 w2 => exists k code, contention k w1 = Some (code, w2)).

Section Attempts.
Context (contention : Contention) (now : Z) (iv : string) (input : IdempotencyInput)
  (hashes : IdempotencyHashes) (operation : Tx World (Z * Json)).

(** Either a fresh result, or a replay, or an error: in the last two cases only the other transactions
    moved the tables. *)
Definition outcome (w : World) (r : res IdempotentResult) (w' : World) : Prop :=
  exists w0, others contention w w0 /\
    match r with
    | Ok result => if ir_replayed result then w' = w0 /\ replayedFrom input hashes result w0
                   else ranOnce now iv input hashes operation w0 result w'
    | Err _ => w' = w0
    end.

Lemma attempts_outcome n k w r w' :
  attempts contention n k input hashes (idempotentBody now iv input hashes operation) w = (r, w') ->
  outcome w r w'.
Proof.
  revert k w. induction n as [|n IH]; intros k w Hrun.
  { cbn [attempts] in Hrun. unfold throw in Hrun. simplify_eq. exists w'. split; [apply rtc_refl|done]. }
  cbn [attempts] in Hrun. unfold try_catch, execute in Hrun.
  assert (Hfail : forall w1 e, others contention w w1 ->
    (if (e === Known "P2034") && (k <? 2)%nat
     then attempts contention n (S k) input hashes (idempotentBody now iv input hashes operation)
     else if isP2002 e then replayWinner input hashes e else throw e) w1 = (r, w') -> outcome w r w').
  { intros w1 e Ho. destruct (_ && _).
    - intros (w0 & Ho2 & Hr)%IH. exists w0. split; [by etrans|done].
    - destruct (isP2002 e); intros Hr; exists w1; (split; [done|]).
      + apply winner_ok in Hr. destruct r as [result|]; [|done]. by destruct (ir_replayed result).
      + unfold throw in Hr. by simplify_eq. }
  destruct (contention k w) as [[code w1]|] eqn:Ec.
  { eapply Hfail; [|exact Hrun]. apply rtc_once. by exists k, code. }
  unfold transact in Hrun. destruct (idempotentBody _ _ _ _ _ w) as [[result w1]|e] eqn:Eb.
  - injection Hrun as <- <-. exists w. split; [apply rtc_refl|].
    destruct (body_ok _ _ _ _ _ _ _ _ Eb) as [[-> Hr]|Hr].
    + destruct (ir_replayed result) eqn:Ep; [done|]. destruct Hr as (? & _ & _ & _ & _ & Hc).
      apply completed_replayed in Hc. congruence.
    + assert (ir_replayed result = false) as -> by (by destruct Hr as (? & ? & ? & ? & ? & ? & ? & ? & ?)). done.
  - eapply Hfail; [apply rtc_refl|exact Hrun].
Qed.
End Attempts.

Lemma transaction_outcome contention amb iv input operation w r w' hashes :
  idempotencyHashes (ii_key input) (ii_request input) = Ok hashes ->
  runIdempotentTransaction contention amb iv input operation w = (r, w') ->
  outcome contention (nowMs amb) iv input hashes operation w r w'.
Proof.
  intros Hh. unfold runIdempotentTransaction, transact, tx_lift. unfold mbind at 1, proc_bind at 1.
  rewrite Hh. apply attempts_outcome.
Qed.

(** C16: a database-only operation runs at most once, and its record tells the truth. Whatever the
    contention, either the call returns a fresh result, and the operation ran exactly once, in the
    transaction that also recorded that result; or it replays the result of a completed record of the
    same request; or it throws; and in the last two cases it leaves the tables as the other
    transactions left them. *)
Theorem idempotent_transaction_once contention amb iv input operation w r w' hashes :
  idempotencyHashes (ii_key input) (ii_request input) = Ok hashes ->
  runIdempotentTransaction contention amb iv input operation w = (r, w') ->
  exists w0, others contention w w0 /\
    match r with
    | Ok result => if ir_replayed result then w' = w0 /\ replayedFrom input hashes result w0
                   else ranOnce (nowMs amb) iv input hashes operation w0 result w'
    | Err _ => w' = w0
    end.
Proof.
  apply transaction_outcome.
Qed.
End Once.

Section Replay.
Context `{Platform}.

(** No other transaction interferes. *)
Definition alone : Contention := fun _ _ => None.

Lemma mapHashes_active f : keyringValid -> forall hs h, mapHashes f (List.map fst cryptoKeyring) = Ok hs ->
  f activeKeyId = Ok h -> In h hs.
Proof.
  intros Hv hs h Hm Hf. destruct (mapHashes_In _ _ _ Hm activeKeyId (activeKey_In Hv)) as (h' & Hf' & Hin).
  congruence.
Qed.

Lemma hashMetadata_candidate v h hs : keyringValid ->
  hashMetadata v = Ok h -> candidateMetadataHashes v = Ok hs -> In h hs.
Proof.
  intros Hv Hh. unfold candidateMetadataHashes. destruct (mapHashes _ _) as [l|] eqn:Hm; [|done].
  intros [= <-]. apply in_or_app. left. by eapply mapHashes_active.
Qed.

Lemma hashes_candidates key request hashes : keyringValid -> idempotencyHashes key request = Ok hashes ->
  In (keyHash hashes) (keyHashCandidates hashes) /\ In (requestHash hashes) (requestHashCandidates hashes).
Proof.
  intros Hv. unfold idempotencyHashes. set (k := "idempotency-key:" ++ key).
  set (q := "idempotency-request:" ++ canonicalizeIdempotencyInput request).
  destruct (hashMetadata k) eqn:E1, (candidateMetadataHashes k) eqn:E2, (hashMetadata q) eqn:E3,
    (candidateMetadataHashes q) eqn:E4; try done.
  intros [= <-]. split; by eapply hashMetadata_candidate.
Qed.

Lemma existsb_In {A} `{EqDecision A} (x : A) l : existsb (fun h => h === x) l = true <-> In x l.
Proof.
  rewrite existsb_exists. split; [intros (y & Hy & E); bools; by subst|].
  intros Hx. exists x. split; [done|apply bd_refl].
Qed.

Lemma newRecord_where now input hashes key request id lock : keyringValid ->
  idempotencyHashes key request = Ok hashes -> recordWhere input hashes (newRecord now input hashes id lock) = true.
Proof.
  intros Hv Hh. apply hashes_candidates in Hh as [Hh _]; [|done]. unfold recordWhere. cbn.
  rewrite !bd_refl. by apply existsb_In.
Qed.

Lemma decryptResponse_encrypt iv value stored : aeadLaws -> keyringValid ->
  noChar "." activeKeyId = true -> noChar "." iv = true -> jsonOk value ->
  encryptResponse iv value = Ok stored -> decryptResponse stored = Ok value.
Proof.
  intros Hl Hv Hid Hiv Hok. unfold encryptResponse.
  destruct (decrypt_encrypt iv (jsonStringify value) Hl Hv Hid Hiv) as (text & -> & Hd).
  intros [= <-]. unfold decryptResponse. cbn [jget assoc]. rewrite bd_refl, Hd.
  by rewrite jsonParse_stringify.
Qed.

Lemma others_alone w w0 : others alone w w0 -> w0 = w.
Proof. intros Ho. inversion Ho as [|? ? ? (k & code & Hs)]; [done|discriminate Hs]. Qed.

Lemma hashes_same_key key request1 request2 h1 h2 : idempotencyHashes key request1 = Ok h1 ->
  idempotencyHashes key request2 = Ok h2 -> keyHashCandidates h1 = keyHashCandidates h2.
Proof.
  unfold idempotencyHashes. generalize ("idempotency-key:" ++ key). intros k.
  generalize ("idempotency-request:" ++ canonicalizeIdempotencyInput request1). intros q1.
  generalize ("idempotency-request:" ++ canonicalizeIdempotencyInput request2). intros q2.
  destruct (hashMetadata k), (candidateMetadataHashes k); try done;
    try (destruct (hashMetadata q1); done); try (destruct (hashMetadata q1), (candidateMetadataHashes q1); done).
  destruct (hashMetadata q1), (candidateMetadataHashes q1); try done. intros [= <-].
  destruct (hashMetadata q2), (candidateMetadataHashes q2); try done. by intros [= <-].
Qed.

(** A call that finds an unexpired record of its key. *)
Section Found.
Context (amb : Ambient) (iv : string) (input : IdempotencyInput) (hashes : IdempotencyHashes)
  (w : World) (record : IdempotencyRecord).
Context (Hhashes : idempotencyHashes (ii_key input) (ii_request input) = Ok hashes).
Context (Hfind : findFirst (activeWhere (recordWhere input hashes)) (idempotencyRecords w) = Some record).
Context (Hlive : releasable (nowMs amb) record = Ok false).

Lemma found_lookup : lookupRecord (nowMs amb) input hashes w = Ok (Some record, w).
Proof.
  unfold lookupRecord. unfold tx_findFirst, tx_lift, mbind, tx_bind, mret, tx_ret.
  cbn [table IdempotencyRecord_model]. by rewrite Hfind, Hlive.
Qed.

Lemma found_transaction operation (r : res IdempotentResult) :
  (forall e, r = Err e -> e <> Known "P2034" /\ e <> Known "P2002") ->
  (match assertSameRequest (idem_requestHash record) hashes with
   | Ok _ => match completedResult record with
             | Ok (Some result) => Ok result | Ok None => Err inProgress | Err e => Err e
             end
   | Err e => Err e
   end) = r ->
  runIdempotentTransaction alone amb iv input operation w = (r, w).
Proof.
  intros He Hr. unfold runIdempotentTransaction, transact, tx_lift. unfold mbind at 1, proc_bind at 1.
  rewrite Hhashes. cbn [attempts]. unfold try_catch at 1, execute at 1, transact at 1.
  change (alone 0 w) with (@None (string * World)). cbn iota.
  assert (Hb : idempotentBody (nowMs amb) iv input hashes operation w
               = match r with Ok result => Ok (result, w) | Err e => Err e end).
  { unfold idempotentBody. rewrite (tx_step _ _ _ _ _ found_lookup). rewrite <- Hr.
    unfold tx_lift, mbind, tx_bind. destruct (assertSameRequest _ _); [|done].
    destruct (completedResult record) as [[?|]|]; done. }
  rewrite Hb. destruct r as [result|e]; [done|]. destruct (He e eq_refl) as [H1 H2].
  unfold isP2002. by rewrite (bd_ne _ _ H1), (bd_ne _ _ H2).
Qed.

Lemma found_lease_completed result effect :
  assertSameRequest (idem_requestHash record) hashes = Ok tt -> completedResult record = Ok (Some result) ->
  runIdempotent amb iv input effect w = (Ok result, w <| drawn ::= S |>).
Proof.
  intros Ha Hc. unfold runIdempotent, acquireLease, dropExpired, newId, transact, tx_lift, tx_findFirst.
  unfold mbind, proc_bind, mret, proc_ret. rewrite Hhashes. cbn [table IdempotencyRecord_model].
  change (idempotencyRecords w <| drawn ::= S |>) with (idempotencyRecords w).
  by rewrite Hfind, Hlive, Ha, Hc.
Qed.
End Found.

Lemma findFirst_deleteWhere_le1 {R} (P Q : R -> bool) (t : list R) r : findFirst P t = Some r -> Q r = true ->
  countWhere P t <= 1 -> findFirst P (deleteWhere Q t) = None.
Proof.
  intros Hf HQ Hc. apply findFirst_None_iff. intros x Hx. apply In_deleteWhere in Hx as [Hx HQx].
  apply findFirst_Some in Hf as [Hr HP]. destruct (P x) eqn:HPx; [|done].
  assert (x = r) as ->; [|congruence]. by eapply countWhere_le1_eq.
Qed.

(** The record a fresh run leaves, as the next call finds it. *)
Lemma ranOnce_found now iv input hashes operation w result w1 : keyringValid ->
  idempotencyHashes (ii_key input) (ii_request input) = Ok hashes ->
  (forall s a s', operation s = Ok (a, s') -> idempotencyRecords s' = idempotencyRecords s) ->
  countWhere (activeWhere (recordWhere input hashes)) (idempotencyRecords w) <= 1 ->
  ranOnce now iv input hashes operation w result w1 ->
  exists record response, findFirst (activeWhere (recordWhere input hashes)) (idempotencyRecords w1) = Some record
    /\ idem_expiresAt record = (now + ttl input)%Z /\ idem_requestHash record = requestHash hashes
    /\ idem_statusCode record = Some (ir_statusCode result) /\ idem_response record = Some response
    /\ encryptResponse iv (ir_response result) = Ok response.
Proof.
  intros Hv Hh Hframe Hone (kept & after & response & Hk & Hids & Hop & Henc & -> & _).
  apply Hframe in Hop. 
  change (idempotencyRecords after = (kept ++ [newRecord now input hashes (uuid (drawn w)) None])%list) in Hop.
  set (done_ := fun r => r <| idem_statusCode := Some (ir_statusCode result) |> <| idem_response := Some response |>).
  assert (Hnone : findFirst (activeWhere (recordWhere input hashes)) kept = None).
  { destruct Hk as [[-> Hn]|(old & Hf & _ & ->)]; [done|].
    eapply findFirst_deleteWhere_le1; [done| |done]. apply findFirst_Some in Hf as [_ Hf].
    apply andb_true_iff in Hf as [Hd _]. apply andb_true_iff. split; [done|apply bd_refl]. }
  exists (done_ (newRecord now input hashes (uuid (drawn w)) None)), response.
  split; [|done]. cbn [idempotencyRecords field_set]. 
  change (findFirst (activeWhere (recordWhere input hashes))
    (updateWhere (activeWhere (fun r => idem_id r === uuid (drawn w))) done_ (idempotencyRecords after))
    = Some (done_ (newRecord now input hashes (uuid (drawn w)) None))).
  rewrite Hop. unfold updateWhere. rewrite List.map_app.
  change (List.map _ kept) with (updateWhere (activeWhere (fun r => idem_id r === uuid (drawn w))) done_ kept).
  rewrite updateWhere_none.
  2: { intros r Hr. cbn. by rewrite (bd_ne _ _ (Hids r Hr)), andb_false_r. }
  rewrite findFirst_app_none by done. cbn [List.map].
  assert (Hhit : activeWhere (fun r => idem_id r === uuid (drawn w))
                   (newRecord now input hashes (uuid (drawn w)) None) = true) by (cbn; apply bd_refl).
  rewrite Hhit. unfold findFirst. cbn [List.find].
  assert (Hw : activeWhere (recordWhere input hashes) (done_ (newRecord now input hashes (uuid (drawn w)) None)) = true)
    by exact (newRecord_where now input hashes _ _ (uuid (drawn w)) None Hv Hh).
  by rewrite Hw.
Qed.

(** A retry gets the first answer back, exactly. After a database-only operation returned a fresh
    result, a later call with the same actor, scope, key and request, before the record expires and
    whatever operation it carries, returns the same status and the same response, decrypted from the
    record, and changes nothing; so does a call through the leased variant; and a call with the same
    key for a request with another fingerprint is refused and changes nothing. *)
Theorem idempotent_replay_exact amb amb2 iv iv2 input operation operation2 effect hashes w w1 result :
  aeadLaws -> keyringValid -> noChar "." activeKeyId = true -> noChar "." iv = true ->
  jsonOk (ir_response result) ->
  (forall s a s', operation s = Ok (a, s') -> idempotencyRecords s' = idempotencyRecords s) ->
  idempotencyHashes (ii_key input) (ii_request input) = Ok hashes ->
  countWhere (activeWhere (recordWhere input hashes)) (idempotencyRecords w) <= 1 ->
  runIdempotentTransaction alone amb iv input operation w = (Ok result, w1) ->
  ir_replayed result = false -> (nowMs amb2 < nowMs amb + ttl input)%Z ->
  let replay := mkIdempotentResult (ir_statusCode result) (ir_response result) true in
  runIdempotentTransaction alone amb2 iv2 input operation2 w1 = (Ok replay, w1)
  /\ runIdempotent amb2 iv2 input effect w1 = (Ok replay, w1 <| drawn ::= S |>)
  /\ forall request hashes2,
       idempotencyHashes (ii_key input) request = Ok hashes2 ->
       ~ In (requestHash hashes) (requestHashCandidates hashes2) ->
       runIdempotentTransaction alone amb2 iv2
         (mkIdempotencyInput (ii_actorKey input) (ii_scope input) (ii_key input) request (ii_ttlHours input))
         operation2 w1 = (Err differentRequest, w1).
Proof.
  intros Hl Hv Hid Hiv Hok Hframe Hh Hone Hrun Hfresh Hlive replay.
  apply (transaction_outcome alone amb iv input operation w _ w1 hashes Hh) in Hrun.
  destruct Hrun as (w0 & ->%others_alone & Hrun). rewrite Hfresh in Hrun.
  destruct (ranOnce_found _ _ _ _ _ _ _ _ Hv Hh Hframe Hone Hrun)
    as (record & response & Hf & Hexp & Hrh & Hst & Hresp & Henc).
  assert (Hrel : releasable (nowMs amb2) record = Ok false).
  { unfold releasable. rewrite Hexp. by destruct (Z.leb_spec (nowMs amb + ttl input) (nowMs amb2)); [lia|]. }
  assert (Hc : completedResult record = Ok (Some replay)).
  { unfold completedResult. rewrite Hst, Hresp. by rewrite (decryptResponse_encrypt iv (ir_response result)). }
  destruct (hashes_candidates _ _ _ Hv Hh) as [_ Hcand].
  assert (Ha : assertSameRequest (idem_requestHash record) hashes = Ok tt).
  { unfold assertSameRequest. rewrite Hrh. by rewrite (proj2 (existsb_In _ _) Hcand). }
  split; [|split].
  - apply (found_transaction amb2 iv2 input hashes w1 record Hh Hf Hrel); [done|]. by rewrite Ha, Hc.
  - by apply (found_lease_completed amb2 iv2 input hashes w1 record Hh Hf Hrel).
  - intros request hashes2 Hh2 Hn.
    apply (found_transaction amb2 iv2 (mkIdempotencyInput _ _ _ request _) hashes2 w1 record Hh2); [|done|..].
    + erewrite findFirst_ext; [exact Hf|]. intros r _. unfold recordWhere. cbn [ii_actorKey ii_scope].
      cbn. by rewrite (hashes_same_key _ _ _ _ _ Hh2 Hh).
    + by intros e [= <-].
    + unfold assertSameRequest. rewrite Hrh. destruct (existsb _ _) eqn:E; [|done].
      by apply existsb_In in E.
Qed.
End Replay.

Lemma existsb_false_In {A} (P : A -> bool) l x : existsb P l = false -> In x l -> P x = false.
Proof.
  intros He Hx. destruct (P x) eqn:E; [|done]. rewrite <- He. symmetry. apply existsb_exists. eauto.
Qed.

Lemma put_same g (w : World) : g (idempotencyRecords w) = idempotencyRecords w ->
  w <| idempotencyRecords ::= g |> = w.
Proof. intros Hg. destruct w. unfold field_set. cbn in Hg |- *. by rewrite Hg. Qed.

Section Lease.
Context `{Platform}.
Context (input : IdempotencyInput) (hashes : IdempotencyHashes) (since until : Z) (id token : string).

(** The record of the key is leased to [token] until [until]. *)
Definition leaseHeld (t : list IdempotencyRecord) : Prop :=
  List.NoDup (List.map idem_id t) /\
  exists r, findFirst (activeWhere (recordWhere input hashes)) t = Some r
    /\ idem_id r = id /\ idem_lockToken r = Some token /\ idem_lockedUntil r = Some until
    /\ idem_statusCode r = None.

Definition leased (w : World) : Prop := leaseHeld (idempotencyRecords w).

(** What other callers do meanwhile: look the key up and try to lease it, or any other key, save or
    release under their own tokens, and work on other tables. *)
Inductive lease_step : World -> World -> Prop :=
  | ls_acquire amb other otherHashes tok w :
      (since <= nowMs amb < until)%Z -> lease_step w (snd (acquireLease amb other otherHashes tok w))
  | ls_save iv rid tok result w : tok <> token -> lease_step w (snd (saveResult iv rid tok result w))
  | ls_release now rid tok w : tok <> token -> lease_step w (snd (releaseLease now rid tok w))
  | ls_elsewhere w w' : idempotencyRecords w' = idempotencyRecords w -> lease_step w w'.

Lemma leaseHeld_update Q f t : leaseHeld t ->
  (forall r, idem_id (f r) = idem_id r /\ recordWhere input hashes (f r) = recordWhere input hashes r
             /\ idem_deletedAt (f r) = idem_deletedAt r) ->
  (forall r, idem_lockToken r = Some token -> idem_lockedUntil r = Some until ->
             idem_statusCode r = None -> Q r = false) ->
  leaseHeld (updateWhere Q f t).
Proof.
  intros (Hnd & r & Hf & Hid & Htok & Hu & Hs) Hkeep Hmiss. split.
  { rewrite map_updateWhere; [done|]. intros x _. apply Hkeep. }
  exists r. split; [|done]. rewrite findFirst_updateWhere.
  - rewrite Hf. cbn. by rewrite Hmiss.
  - intros x _. cbn. destruct (Hkeep x) as (_ & -> & ->). done.
Qed.

Lemma leaseHeld_delete Q t : leaseHeld t ->
  (forall r, idem_statusCode r = None -> Q r = false) -> leaseHeld (deleteWhere Q t).
Proof.
  intros (Hnd & r & Hf & Hid & Htok & Hu & Hs) Hmiss. split; [by apply NoDup_map_findMany|].
  exists r. split; [|done]. unfold findFirst, deleteWhere in *. clear Hnd.
  induction t as [|x t IH]; [done|]. cbn [List.find List.filter] in *.
  destruct (activeWhere _ x) eqn:Ex.
  - injection Hf as ->. rewrite (Hmiss r Hs). cbn [negb List.find]. by rewrite Ex.
  - destruct (Q x); cbn [negb List.find]; [auto|]. rewrite Ex. auto.
Qed.

Lemma leaseHeld_snoc t r : leaseHeld t -> (forall x, In x t -> idem_id x <> idem_id r) -> leaseHeld (t ++ [r]).
Proof.
  intros (Hnd & r0 & Hf & Hrest) Hfresh. split.
  - rewrite List.map_app. apply List.NoDup_app; [done|repeat constructor; auto|].
    intros k Hk [<-|[]]. apply List.in_map_iff in Hk as (x & Hx & Hin). by eapply Hfresh.
  - exists r0. split; [|done]. by apply findFirst_app_some.
Qed.

Lemma leased_acquire amb other otherHashes tok : (since <= nowMs amb < until)%Z ->
  proc_pres leased (acquireLease amb other otherHashes tok).
Proof.
  intros Ht. unfold acquireLease, dropExpired. pres.
  - apply pres_deleteMany. intros w Hw. apply leaseHeld_delete; [done|]. intros r Hr. cbn.
    by rewrite Hr, !andb_false_r.
  - apply pres_updateMany. intros w Hw. apply leaseHeld_update; [done|done|]. intros r _ Hu Hs. cbn.
    unfold leaseFree. rewrite Hu, Hs. cbn. destruct (Z.leb_spec until (nowMs amb)); [lia|].
    by rewrite !andb_false_r.
  - apply pres_create. intros w Hw Hc. apply leaseHeld_snoc; [done|]. intros x Hx He.
    apply (existsb_false_In _ _ _ Hc) in Hx. cbn in Hx. by rewrite He, bd_refl in Hx.
Qed.

Lemma leased_save iv rid tok result : tok <> token -> proc_pres leased (saveResult iv rid tok result).
Proof.
  intros Ht. unfold saveResult. pres. apply pres_updateMany. intros w Hw.
  apply leaseHeld_update; [done|done|]. intros r Htok _ _. cbn. unfold held. rewrite Htok.
  rewrite (bd_ne (Some token) (Some tok)) by congruence. by rewrite !andb_false_r.
Qed.

Lemma leased_release now rid tok : tok <> token -> proc_pres leased (releaseLease now rid tok).
Proof.
  intros Ht. unfold releaseLease. pres. apply pres_updateMany. intros w Hw.
  apply leaseHeld_update; [done|done|]. intros r Htok _ _. cbn. unfold held. rewrite Htok.
  rewrite (bd_ne (Some token) (Some tok)) by congruence. by rewrite !andb_false_r.
Qed.

Lemma leased_steps w w' : leased w -> rtc lease_step w w' -> leased w'.
Proof.
  intros Hw. induction 1 as [|w w1 w2 Hs _ IH]; [done|]. apply IH. destruct Hs.
  - by apply leased_acquire.
  - by apply leased_save.
  - by apply leased_release.
  - unfold leased. by rewrite H0.
Qed.

(** Another call for the key is turned away, changing nothing. *)
Lemma leased_refuses w amb other otherHashes tok : leased w -> (since <= nowMs amb < until)%Z ->
  (forall r, recordWhere other otherHashes r = recordWhere input hashes r) ->
  exists e, (e = differentRequest \/ e = inProgress) /\ acquireLease amb other otherHashes tok w = (Err e, w).
Proof.
  intros (Hnd & r & Hf & Hid & Htok & Hu & Hs) Ht Hsame.
  assert (Hf' : findFirst (activeWhere (recordWhere other otherHashes)) (idempotencyRecords w) = Some r).
  { rewrite <- Hf. apply findFirst_ext. intros x _. cbn. by rewrite Hsame. }
  assert (Hc : completedResult r = Ok None) by (unfold completedResult; by rewrite Hs).
  assert (Hrel : releasable (nowMs amb) r = Ok false) by (unfold releasable; rewrite Hc; by destruct (_ <=? _)%Z).
  unfold acquireLease, dropExpired, transact, tx_lift, tx_findFirst.
  unfold mbind, proc_bind, mret, proc_ret. cbn [table IdempotencyRecord_model].
  rewrite Hf', Hrel. destruct (assertSameRequest (idem_requestHash r) otherHashes) as [u|e] eqn:Ha.
  2: { exists e. split; [|done]. left. unfold assertSameRequest in Ha. by destruct (existsb _ _); simplify_eq. }
  rewrite Hc. exists inProgress. split; [by right|]. unfold tx_updateMany.
  assert (Hmiss : forall x, In x (idempotencyRecords w) ->
    activeWhere (fun x => (idem_id x === idem_id r) && leaseFree (nowMs amb) x) x = false).
  { intros x Hx. cbn. destruct (decide (idem_id x = idem_id r)) as [He|He].
    - apply findFirst_Some in Hf as [Hr _]. rewrite (NoDup_key_inj idem_id _ x r Hnd Hx Hr He).
      unfold leaseFree. rewrite Hu, Hs. cbn. destruct (Z.leb_spec until (nowMs amb)); [lia|].
      by rewrite !andb_false_r.
    - by rewrite (bd_ne _ _ He), !andb_false_r. }
  cbn [table put IdempotencyRecord_model]. rewrite (proj2 (countWhere_0 _ _) Hmiss). cbn [Nat.eqb]. unfold throw.
  f_equal. apply put_same. by apply updateWhere_none.
Qed.

(** The holder's result is saved, on the record of the key. *)
Lemma leased_saves w iv result stored : leased w -> encryptResponse iv (snd result) = Ok stored ->
  exists w' r, saveResult iv id token result w = (Ok tt, w')
    /\ findFirst (activeWhere (recordWhere input hashes)) (idempotencyRecords w') = Some r
    /\ idem_id r = id /\ idem_statusCode r = Some (fst result) /\ idem_response r = Some stored
    /\ exists r0, findFirst (activeWhere (recordWhere input hashes)) (idempotencyRecords w) = Some r0
         /\ r = completeRecord (fst result) stored r0.
Proof.
  intros (Hnd & r & Hf & Hid & Htok & Hu & Hs) He.
  pose proof (findFirst_Some _ _ _ Hf) as [Hr Hw]. pose proof Hw as [Hd _]%andb_true_iff.
  assert (Hheld : activeWhere (held id token) r = true).
  { cbn in Hd |- *. rewrite Hd. unfold held. by rewrite Hid, Htok, Hs, !bd_refl. }
  assert (Hrow : Row idem_id r (idempotencyRecords w)) by done.
  assert (Hone : countWhere (activeWhere (held id token)) (idempotencyRecords w) = 1).
  { apply (Row_count1 idem_id r); [done| |done]. intros x Hx. apply andb_true_iff in Hx as [_ Hx].
    unfold held in Hx. bools. congruence. }
  eexists _, (completeRecord (fst result) stored r). split; [|split].
  - unfold saveResult, transact, tx_lift. unfold mbind, proc_bind. rewrite He. unfold tx_updateMany.
    cbn [table put IdempotencyRecord_model]. by rewrite Hone.
  - change (findFirst (activeWhere (recordWhere input hashes))
      (updateWhere (activeWhere (held id token)) (completeRecord (fst result) stored) (idempotencyRecords w))
      = Some (completeRecord (fst result) stored r)).
    rewrite findFirst_updateWhere by done. rewrite Hf. cbn [fmap option_fmap option_map]. by rewrite Hheld.
  - repeat (split; [done|]). by exists r.
Qed.

Lemma dropExpired_ok now w kept w1 :
  List.NoDup (List.map idem_id (idempotencyRecords w)) ->
  countWhere (activeWhere (recordWhere input hashes)) (idempotencyRecords w) <= 1 ->
  let found := findFirst (activeWhere (recordWhere input hashes)) (idempotencyRecords w) in
  dropExpired now found w = (Ok kept, w1) ->
  match kept with
  | Some r => w1 = w /\ found = Some r
  | None => List.NoDup (List.map idem_id (idempotencyRecords w1))
      /\ findFirst (activeWhere (recordWhere input hashes)) (idempotencyRecords w1) = None
  end.
Proof.
  intros Hnd Hone found Hd. destruct found as [r|] eqn:Hf; unfold dropExpired in Hd; subst found.
  2: { apply proc_ret_ok in Hd as [<- <-]. done. }
  apply proc_bind_ok in Hd as (expired & w0 & Hrel & Hd). apply transact_ok, lift_ok in Hrel as [Hrel ->].
  destruct expired; [|by apply proc_ret_ok in Hd as [<- <-]].
  apply proc_bind_ok in Hd as (n & w2 & Hdel & Hd). apply proc_ret_ok in Hd as [<- ->].
  apply transact_ok, deleteMany_ok in Hdel as [_ ->]. cbn [table put IdempotencyRecord_model].
  split; [by apply NoDup_map_findMany|]. eapply findFirst_deleteWhere_le1; [exact Hf| |done].
  apply findFirst_Some in Hf as [_ Hw]. apply andb_true_iff in Hw as [Hdel _].
  unfold releasable in Hrel. destruct (idem_expiresAt r <=? now)%Z eqn:He; [|done].
  assert (is_set (idem_statusCode r) = true).
  { unfold completedResult in Hrel. by destruct (idem_statusCode r). }
  cbn in Hdel |- *. by rewrite Hdel, bd_refl, He.
Qed.

(** The record of the key, while it is leased: of this request, and for its time to live. *)
Definition leasedUntil (expires : Z) (w : World) : Prop :=
  exists r, findFirst (activeWhere (recordWhere input hashes)) (idempotencyRecords w) = Some r
    /\ assertSameRequest (idem_requestHash r) hashes = Ok tt /\ idem_expiresAt r = expires.

(** Acquiring the lease. *)
Lemma acquire_leased_until amb w w' : since = nowMs amb -> until = (nowMs amb + EXTERNAL_OPERATION_LEASE_MS)%Z ->
  (forall rid lock, recordWhere input hashes (newRecord (nowMs amb) input hashes rid lock) = true) ->
  List.NoDup (List.map idem_id (idempotencyRecords w)) ->
  countWhere (activeWhere (recordWhere input hashes)) (idempotencyRecords w) <= 1 ->
  assertSameRequest (requestHash hashes) hashes = Ok tt ->
  acquireLease amb input hashes token w = (Ok (Leased id), w') -> leased w' /\ leasedUntil (nowMs amb + ttl input) w'.
Proof.
  intros Hsi Hun Hnew Hnd Hone Hself. unfold acquireLease. intros Ha.
  apply proc_bind_ok in Ha as (found & w0 & Hf & Ha). apply transact_ok in Hf.
  unfold tx_findFirst in Hf. injection Hf as <- <-.
  apply proc_bind_ok in Ha as (kept & w1 & Hd & Ha). apply dropExpired_ok in Hd; [|done..].
  destruct kept as [r|].
  - destruct Hd as [-> Hf]. proc_inv Ha. destruct a0 as [res|]; [by apply proc_ret_ok in Ha as []|].
    proc_inv Ha. rename select (tx_updateMany _ _ _ = _) into Hup. apply updateMany_ok in Hup as [Hn ->].
    destruct (a0 =? 1)%nat eqn:Hone'; [|done]. apply proc_ret_ok in Ha as [Hid <-]. injection Hid as <-.
    apply Nat.eqb_eq in Hone'. rewrite Hone' in Hn.
    assert (Hhit : activeWhere (fun x => (idem_id x === idem_id r) && leaseFree (nowMs amb) x) r = true).
    { destruct (proj1 (countWhere_pos _ _) (eq_ind 1 (fun n => 0 < n) Nat.lt_0_1 _ Hn)) as (x & Hx & Hhit).
      pose proof Hhit as Hx'. apply andb_true_iff in Hx' as [_ Hx']. bools.
      apply findFirst_Some in Hf as [Hr _].
      by assert (x = r) as -> by (by eapply (NoDup_key_inj idem_id)). }
    assert (Hs : idem_statusCode r = None).
    { apply andb_true_iff in Hhit as [_ Hhit]. unfold leaseFree in Hhit. bools. by destruct (idem_statusCode r). }
    match goal with |- leased ?w' /\ _ => set (w2 := w') end.
    assert (Hfind : findFirst (activeWhere (recordWhere input hashes)) (idempotencyRecords w2) = Some (leaseRecord (nowMs amb) input token r)).
    { change (idempotencyRecords w2) with (updateWhere (activeWhere (fun x => (idem_id x === idem_id r) && leaseFree (nowMs amb) x))
        (leaseRecord (nowMs amb) input token) (idempotencyRecords s0)).
      rewrite findFirst_updateWhere by done. rewrite Hf. cbn [fmap option_fmap option_map]. by rewrite Hhit. }
    split; [split; [cbn; by rewrite map_updateWhere|]|]; exists (leaseRecord (nowMs amb) input token r);
      (split; [exact Hfind|]); [by rewrite Hun|]. split; [|done]. by destruct a.
  - destruct Hd as [Hnd1 Hnone]. apply try_catch_ok in Ha as [Hc|(e & w2 & _ & He)];
      [|by destruct (isP2002 e)]. proc_inv Hc. injection Hc1 as <- <-.
    apply create_ok in Hc0 as (-> & -> & Hfresh). 
    set (fresh := newRecord (nowMs amb) input hashes (uuid (drawn w1)) (Some (token, (nowMs amb + EXTERNAL_OPERATION_LEASE_MS)%Z))).
    match goal with |- leased ?w' /\ _ => set (w2 := w') end.
    assert (Hfind : findFirst (activeWhere (recordWhere input hashes)) (idempotencyRecords w2) = Some fresh).
    { change (idempotencyRecords w2) with (idempotencyRecords w1 ++ [fresh])%list. rewrite findFirst_app_none by done.
      unfold findFirst. cbn [List.find]. assert (Hw : activeWhere (recordWhere input hashes) fresh = true) by exact (Hnew _ _).
      by rewrite Hw. }
    split; [split|]; [|exists fresh; (split; [exact Hfind|]); by rewrite Hun|by exists fresh].
    change (List.NoDup (List.map idem_id (idempotencyRecords w1 ++ [fresh])%list)).
    rewrite List.map_app. apply List.NoDup_app; [done|repeat constructor; auto|].
    intros k Hk [<-|[]]. apply List.in_map_iff in Hk as (x & Hx & Hin). specialize (Hfresh x Hin).
    cbn in Hx, Hfresh. by rewrite Hx, bd_refl in Hfresh.
Qed.
End Lease.

Section LeaseTheorem.
Context `{Platform}.

(** A fingerprint is a fingerprint of its own request. *)
Lemma own_request key request hashes : keyringValid -> idempotencyHashes key request = Ok hashes ->
  assertSameRequest (requestHash hashes) hashes = Ok tt.
Proof.
  intros Hv Hh. destruct (hashes_candidates _ _ _ Hv Hh) as [_ Hcand]. unfold assertSameRequest.
  by rewrite (proj2 (existsb_In _ _) Hcand).
Qed.

Lemma acquire_completed amb input hashes token w result w' :
  acquireLease amb input hashes token w = (Ok (Completed result), w') -> ir_replayed result = true.
Proof.
  unfold acquireLease. intros Ha. proc_inv Ha. destruct a0 as [record|].
  - proc_inv Ha. destruct a1 as [res|].
    + apply proc_ret_ok in Ha as [[= ->] _]. by eapply completed_replayed.
    + proc_inv Ha. by destruct (_ =? 1)%nat.
  - apply try_catch_ok in Ha as [Hc|(e & w2 & _ & He)]; [by proc_inv Hc|by destruct (isP2002 e)].
Qed.

(** After an operation with external effects ran under its lease, a retry gets its answer back and runs nothing. *)
Lemma leased_run_replayed amb amb2 iv iv2 input operation operation2 hashes w w1 result :
  aeadLaws -> keyringValid -> noChar "." activeKeyId = true -> noChar "." iv = true ->
  (forall s answer s', operation s = (Ok answer, s') -> jsonOk (snd answer)) ->
  (forall t, proc_pres (fun s => idempotencyRecords s = t) operation) ->
  idempotencyHashes (ii_key input) (ii_request input) = Ok hashes ->
  List.NoDup (List.map idem_id (idempotencyRecords w)) ->
  countWhere (activeWhere (recordWhere input hashes)) (idempotencyRecords w) <= 1 ->
  runIdempotent amb iv input operation w = (Ok result, w1) -> ir_replayed result = false ->
  (nowMs amb2 < nowMs amb + ttl input)%Z ->
  runIdempotent amb2 iv2 input operation2 w1
  = (Ok (mkIdempotentResult (ir_statusCode result) (ir_response result) true), w1 <| drawn ::= S |>).
Proof.
  intros Hl Hv Hid Hiv Hok Hframe Hh Hnd Hone Hrun Hfresh Hlive. unfold runIdempotent in Hrun.
  apply proc_bind_ok in Hrun as (hs & w0 & H1 & Hrun). apply transact_ok, lift_ok in H1 as [H1 ->].
  assert (hs = hashes) as -> by congruence.
  apply proc_bind_ok in Hrun as (token & w2 & H2 & Hrun). apply transact_ok in H2. injection H2 as <- <-.
  apply proc_bind_ok in Hrun as (acquired & w3 & Ha & Hrun). destruct acquired as [res|id].
  { apply proc_ret_ok in Hrun as [-> _]. apply acquire_completed in Ha. congruence. }
  apply (acquire_leased_until input hashes (nowMs amb) (nowMs amb + EXTERNAL_OPERATION_LEASE_MS) id (uuid (drawn w0))) in Ha as [Ha Hlu];
    [|done|done|intros; by apply (newRecord_where _ _ _ _ _ _ _ Hv Hh)|done|done|by eapply own_request].
  apply try_catch_ok in Hrun as [Hrun|(e & w4 & _ & Hrun)]; [|by proc_inv Hrun].
  apply proc_bind_ok in Hrun as (answer & w4 & Hop & Hrun).
  assert (Ht : idempotencyRecords w4 = idempotencyRecords w3) by (exact (proc_pres_run _ operation w3 _ _ (Hframe _) eq_refl Hop)).
  apply proc_bind_ok in Hrun as (u & w5 & Hsave & Hrun). apply proc_ret_ok in Hrun as [Hres ->]. subst result. cbn. specialize (Hok _ _ _ Hop).
  assert (Hl4 : leased input hashes (nowMs amb + EXTERNAL_OPERATION_LEASE_MS) id (uuid (drawn w0)) w4) by (unfold leased; by rewrite Ht).
  destruct (encryptResponse iv (snd answer)) as [stored|e] eqn:He.
  2: { unfold saveResult in Hsave. proc_inv Hsave. congruence. }
  destruct (leased_saves _ _ _ _ _ _ iv answer stored Hl4 He) as (w' & r & Hs & Hf & _ & Hst & Hresp & r0 & Hf0 & ->).
  rewrite Hsave in Hs. injection Hs as _ <-.
  destruct Hlu as (r1 & Hf1 & Hsame & Hexp). rewrite Ht, Hf1 in Hf0. injection Hf0 as <-.
  assert (Hrel : releasable (nowMs amb2) (completeRecord (fst answer) stored r1) = Ok false).
  { unfold releasable. cbn. rewrite Hexp. by destruct (Z.leb_spec (nowMs amb + ttl input) (nowMs amb2)); [lia|]. }
  apply (found_lease_completed amb2 iv2 input hashes w1 _ Hh Hf Hrel _ operation2 Hsame).
  unfold completedResult. rewrite Hst, Hresp. by rewrite (decryptResponse_encrypt iv (snd answer)).
Qed.

(** C17: one caller at a time. While the lease a call acquired runs, whatever other callers try (on
    this key or any other, in any order), every further call for the key is
    refused without running its operation and without changing a table, and the holder's result is
    saved on the record of the key. *)
Theorem idempotent_lease_exclusive amb input hashes token id w w1 w2 :
  keyringValid -> idempotencyHashes (ii_key input) (ii_request input) = Ok hashes ->
  List.NoDup (List.map idem_id (idempotencyRecords w)) ->
  countWhere (activeWhere (recordWhere input hashes)) (idempotencyRecords w) <= 1 ->
  acquireLease amb input hashes token w = (Ok (Leased id), w1) ->
  rtc (lease_step (nowMs amb) (nowMs amb + EXTERNAL_OPERATION_LEASE_MS) token) w1 w2 ->
  (forall amb2 iv2 request2 ttl2 hashes2 operation2,
     idempotencyHashes (ii_key input) request2 = Ok hashes2 ->
     (nowMs amb <= nowMs amb2 < nowMs amb + EXTERNAL_OPERATION_LEASE_MS)%Z ->
     exists e, (e = differentRequest \/ e = inProgress)
       /\ runIdempotent amb2 iv2
            (mkIdempotencyInput (ii_actorKey input) (ii_scope input) (ii_key input) request2 ttl2)
            operation2 w2 = (Err e, w2 <| drawn ::= S |>))
  /\ (forall iv result stored, encryptResponse iv (snd result) = Ok stored ->
       exists w3 r, saveResult iv id token result w2 = (Ok tt, w3)
         /\ findFirst (activeWhere (recordWhere input hashes)) (idempotencyRecords w3) = Some r
         /\ idem_id r = id /\ idem_statusCode r = Some (fst result) /\ idem_response r = Some stored).
Proof.
  intros Hv Hh Hnd Hone Ha Hsteps.
  apply (acquire_leased_until input hashes (nowMs amb) (nowMs amb + EXTERNAL_OPERATION_LEASE_MS) id token) in Ha as [Ha _];
    [|done|done|intros; by apply (newRecord_where _ _ _ _ _ _ _ Hv Hh)|done|done|by eapply own_request].
  apply (leased_steps input hashes (nowMs amb) (nowMs amb + EXTERNAL_OPERATION_LEASE_MS) id token) in Hsteps; [|done].
  split.
  2: { intros iv result stored He. destruct (leased_saves _ _ _ _ _ _ iv result stored Hsteps He) as (w3 & r & Hs & Hf & Hi & Hst & Hr & _).
    by exists w3, r. }
  intros amb2 iv2 request2 ttl2 hashes2 operation2 Hh2 Ht.
  set (input2 := mkIdempotencyInput _ _ _ request2 ttl2).
  set (w2' := w2 <| drawn ::= S |>).
  destruct (leased_refuses input hashes (nowMs amb) (nowMs amb + EXTERNAL_OPERATION_LEASE_MS) id token
    w2' amb2 input2 hashes2 (uuid (drawn w2)) Hsteps Ht) as (e & He & Hr).
  { intros r. unfold recordWhere. cbn. by rewrite (hashes_same_key _ _ _ _ _ Hh2 Hh). }
  exists e. split; [done|]. unfold runIdempotent. 
  rewrite (proc_step _ _ _ hashes2 w2) by (unfold tx_lift; cbn [ii_key ii_request input2]; by rewrite Hh2).
  rewrite (proc_step _ _ _ (uuid (drawn w2)) w2') by done.
  erewrite proc_call_err; [reflexivity|exact Hr].
Qed.
End LeaseTheorem.

(** ** Witnesses *)

Definition idemAmbient (t : Z) : Ambient := mkAmbient t None.
Definition idemInput (request : Json) : IdempotencyInput :=
  mkIdempotencyInput "user:u1" "charges.create" "key-0001" request None.
Definition idemRequest : Json := JObj [("amount", JNum 500)].
Definition idemResponse : Json := JObj [("id", JStr "pi_1"); ("amount", JNum 500); ("refunded", JBool false)].
(** An operation that writes a row elsewhere and answers. *)
Definition idemOperation : Tx World (Z * Json) := fun w =>
  Ok ((201%Z, idemResponse), w <| revocations ::= cons "u1" |>).

Lemma idempotent_transaction_once_witness :
  exists hashes result w',
    @idempotencyHashes demoPlatform "key-0001" idemRequest = Ok hashes
    /\ @runIdempotentTransaction demoPlatform
         (fun k w => if (k =? 0)%nat then Some ("P2034", w <| revocations := ["u9"] |>) else None)
         (idemAmbient 1000) "iv" (idemInput idemRequest) idemOperation emptyWorld = (Ok result, w')
    /\ ir_replayed result = false /\ revocations w' = ["u1"; "u9"]
    /\ exists w0, @ranOnce demoPlatform 1000 "iv" (idemInput idemRequest) hashes idemOperation w0 result w'.
Proof.
  destruct (@idempotencyHashes demoPlatform "key-0001" idemRequest) as [hashes|] eqn:Eh; [|discriminate Eh].
  set (contention := fun (k : nat) (w : World) => if (k =? 0)%nat then Some ("P2034", w <| revocations := ["u9"] |>) else None).
  assert (Hrun : exists result w', @runIdempotentTransaction demoPlatform contention (idemAmbient 1000) "iv"
                   (idemInput idemRequest) idemOperation emptyWorld = (Ok result, w')
                   /\ ir_replayed result = false /\ revocations w' = ["u1"; "u9"])
    by (eexists _, _; split; [vm_compute; reflexivity|by split]).
  destruct Hrun as (result & w' & Hrun & Hf & Hrev). exists hashes, result, w'.
  split; [reflexivity|]. split; [exact Hrun|]. split; [exact Hf|]. split; [exact Hrev|].
  destruct (@idempotent_transaction_once demoPlatform contention (idemAmbient 1000) "iv" (idemInput idemRequest)
              idemOperation emptyWorld _ w' hashes Eh Hrun) as (w0 & _ & Hr).
  rewrite Hf in Hr. exists w0. exact Hr.
Defined.

Lemma idempotent_replay_exact_witness :
  exists result w1,
    @runIdempotentTransaction demoPlatform alone (idemAmbient 1000) "iv" (idemInput idemRequest) idemOperation
      emptyWorld = (Ok result, w1)
    /\ @runIdempotentTransaction demoPlatform alone (idemAmbient 2000) "iv2" (idemInput idemRequest)
        (tx_throw (Failure "not run")) w1 = (Ok (mkIdempotentResult 201 idemResponse true), w1)
    /\ @runIdempotentTransaction demoPlatform alone (idemAmbient 2000) "iv2" (idemInput (JObj [("amount", JNum 501)]))
        (tx_throw (Failure "not run")) w1 = (Err differentRequest, w1).
Proof.
  destruct (@idempotencyHashes demoPlatform "key-0001" idemRequest) as [hashes|] eqn:Eh; [|discriminate Eh].
  assert (Hrun : exists w', @runIdempotentTransaction demoPlatform alone (idemAmbient 1000) "iv"
                   (idemInput idemRequest) idemOperation emptyWorld
                   = (Ok (mkIdempotentResult 201 idemResponse false), w'))
    by (eexists; vm_compute; reflexivity).
  destruct Hrun as (w1 & Hrun). exists (mkIdempotentResult 201 idemResponse false), w1. split; [exact Hrun|].
  destruct (@idempotent_replay_exact demoPlatform (idemAmbient 1000) (idemAmbient 2000) "iv" "iv2" (idemInput idemRequest)
    idemOperation (tx_throw (Failure "not run")) (throw (Failure "not run")) hashes emptyWorld w1 (mkIdempotentResult 201 idemResponse false)
    demo_aeadLaws demo_keyringValid eq_refl eq_refl) as (H1 & _ & H3).
  - repeat constructor; cbn; intuition discriminate.
  - by intros s a s' [= _ <-].
  - exact Eh.
  - vm_compute. lia.
  - exact Hrun.
  - reflexivity.
  - vm_compute. reflexivity.
  - split; [exact H1|].
    destruct (@idempotencyHashes demoPlatform "key-0001" (JObj [("amount", JNum 501)])) as [hashes2|] eqn:E2;
      [|discriminate E2].
    refine (H3 (JObj [("amount", JNum 501)]) hashes2 E2 _).
    vm_compute in Eh, E2. injection Eh as <-. injection E2 as <-. cbn. intuition discriminate.
Defined.

Lemma idempotent_lease_exclusive_witness :
  exists id w1 hashes,
    @acquireLease demoPlatform (idemAmbient 1000) (idemInput idemRequest) hashes "token" emptyWorld = (Ok (Leased id), w1)
    /\ (exists e, (e = differentRequest \/ e = inProgress)
         /\ @runIdempotent demoPlatform (idemAmbient 1500) "iv" (idemInput idemRequest)
              (mret (200%Z, JNull)) w1 = (Err e, w1 <| drawn ::= S |>))
    /\ exists w3 r, @saveResult demoPlatform "iv" id "token" (201%Z, idemResponse) w1 = (Ok tt, w3)
         /\ In r (idempotencyRecords w3) /\ idem_statusCode r = Some 201%Z.
Proof.
  destruct (@idempotencyHashes demoPlatform "key-0001" idemRequest) as [hashes|] eqn:Eh; [|discriminate Eh].
  destruct (@acquireLease demoPlatform (idemAmbient 1000) (idemInput idemRequest) hashes "token" emptyWorld)
    as [[[|id]|] w1] eqn:Ea; try (vm_compute in Eh; injection Eh as <-; vm_compute in Ea; discriminate Ea).
  exists id, w1, hashes. split; [exact Ea|].
  destruct (@idempotent_lease_exclusive demoPlatform (idemAmbient 1000) (idemInput idemRequest) hashes "token" id
              emptyWorld w1 w1 demo_keyringValid Eh) as [H1 H2].
  - constructor.
  - vm_compute. lia.
  - exact Ea.
  - apply rtc_refl.
  - split; [apply (H1 (idemAmbient 1500) "iv" idemRequest None hashes (mret (200%Z, JNull)) Eh); cbn;
            unfold EXTERNAL_OPERATION_LEASE_MS; lia|].
    destruct (H2 "iv" (201%Z, idemResponse) _ eq_refl) as (w3 & r & Hs & Hf & _ & Hst & _).
    exists w3, r. split; [exact Hs|]. split; [|exact Hst]. by apply findFirst_Some in Hf as [Hr _].
Defined.
