(* ===== verification/Stripe.v ===== *)
(** * Billing: the Stripe client and who pays

    modules/stripe/stripe.client.ts and stripe.shared.ts. The Stripe SDK is the record
    [StripeClient]: one field per call the services make, answering from the number of requests sent
    so far; every call is recorded among the world's [calls]. Amounts are integers in minor units. *)

From Stdlib Require Import ZArith Lia Bool.
From S2P Require Import Prelude Store Database JsString JsonText Platform Request.

Open Scope string_scope.

(** ** The objects Stripe returns, as far as they are read *)

Record PaymentIntent := mkPaymentIntent {
  pi_id : string; pi_status : string; pi_amount : Z; pi_currency : string;
  pi_client_secret : option string; pi_customer : option string;
  pi_metadata : list (string * string); pi_created : Z; pi_amount_received : Z;
  (** [amount_refunded] of [latest_charge], when it was expanded *)
  pi_latest_charge_refunded : option Z
}.

Record StripeCharge := mkStripeCharge {
  ch_id : string; ch_amount : Z; ch_amount_refunded : Z; ch_currency : string; ch_created : Z;
  ch_paid : bool; ch_captured : bool; ch_customer : option string; ch_metadata : list (string * string)
}.

Record Refund := mkRefund {
  re_id : string; re_status : option string; re_amount : Z; re_currency : string
}.

(** An exception of the SDK: its [code], its message and [raw.payment_intent]. *)
Record StripeFailure := mkStripeFailure {
  sf_code : option string; sf_message : string; sf_payment_intent : option PaymentIntent
}.

Record SubscriptionItem := mkSubscriptionItem {
  si_id : string; si_price : string; si_period_start : option Z; si_period_end : option Z
}.
Record Subscription := mkSubscription {
  ss_id : string; ss_status : string; ss_customer : string; ss_items : list SubscriptionItem;
  ss_cancel_at_period_end : bool; ss_canceled_at : option Z; ss_metadata : list (string * string)
}.
(** A page of a list call. *)
Record SubscriptionPage := mkSubscriptionPage { sp_data : list Subscription; sp_has_more : bool }.

Record CheckoutSession := mkCheckoutSession {
  cs_id : string; cs_url : option string; cs_mode : string; cs_status : option string;
  cs_payment_status : string; cs_amount_total : option Z; cs_currency : option string;
  cs_customer : option string; cs_metadata : list (string * string)
}.

Record Coupon := mkCoupon {
  cp_deleted : bool; cp_percent_off : option Z; cp_amount_off : option Z; cp_currency : option string
}.
(** A promotion code; its coupon is an identifier, an expanded object or absent. *)
Inductive CouponReference := CouponId (id : string) | CouponObject (coupon : option Coupon).
Record PromotionCode := mkPromotionCode {
  pc_id : string; pc_code : string; pc_active : bool; pc_expires_at : option Z; pc_coupon : CouponReference
}.

Record StripeEvent := mkStripeEvent {
  ev_id : string; ev_created : Z; ev_type : string; ev_api_version : option string; ev_livemode : bool
}.

Record SetupIntent := mkSetupIntent { sui_id : string; sui_client_secret : option string; sui_status : string }.

(** The arguments of a call: its path arguments and body as JSON, its idempotency key, and the number of
    requests sent before it. *)
Record StripeClient := mkStripeClient {
  customers_create : Json -> string -> nat -> res string;
  customers_update : string -> Json -> string -> nat -> res unit;
  paymentIntents_create : Json -> string -> nat -> PaymentIntent + StripeFailure;
  paymentIntents_retrieve : string -> nat -> res PaymentIntent;
  charges_retrieve : string -> nat -> res StripeCharge;
  refunds_create : Json -> string -> nat -> res Refund;
  setupIntents_create : Json -> string -> nat -> res SetupIntent;
  paymentMethods_detach : string -> string -> nat -> res unit;
  promotionCodes_list : string -> nat -> res (list PromotionCode);
  coupons_retrieve : string -> nat -> res Coupon;
  checkout_sessions_create : Json -> string -> nat -> res CheckoutSession;
  checkout_sessions_retrieve : string -> nat -> res CheckoutSession;
  billingPortal_sessions_create : Json -> string -> nat -> res (string * string);
  subscriptions_list : Json -> nat -> res SubscriptionPage;
  subscriptions_retrieve : string -> nat -> res Subscription;
  subscriptions_update : string -> Json -> string -> nat -> res Subscription;
  subscriptions_cancel : string -> nat -> res unit;
  (** [webhooks.constructEvent(rawBody, signature, secret)] *)
  webhooks_constructEvent : string -> string -> string -> res StripeEvent;
  (** the current object of a kind, read as [Record<string, unknown>] by the webhook projections *)
  retrieve_object : string -> string -> nat -> res Json
}.

(** The payer of a request. *)
Inductive BillingOwner :=
  | OwnerUser (userId : string)
  | OwnerOrganization (organizationId userId : string).

Definition strings (l : list (string * string)) : list (string * Json) :=
  List.map (fun kv => (fst kv, JStr (snd kv))) l.

(** [{ ...(value ? { key: value } : {}) }] *)
Definition optional (key : string) (value : option string) : list (string * Json) :=
  match value with
  | Some v => if v === EmptyString then [] else [(key, JStr v)]
  | None => []
  end.

Definition getBillingUserWhere (userId : string) (u : User) : bool :=
  (user_id u === userId) && (user_status u === User_ACTIVE).

Definition getBillingUser (userId : string) : Proc World User :=
  transact (u ← tx_findFirst (getBillingUserWhere userId);
            tx_require u (errors.notFound "User not found")).

Definition getBillingOrganization (organizationId : string) : Proc World Organization :=
  transact (o ← tx_findFirst (fun o => (org_id o === organizationId) && (org_status o === Org_ACTIVE));
            tx_require o (errors.notFound "Organization not found")).

Definition billingOwnerKey (owner : BillingOwner) : string :=
  match owner with
  | OwnerOrganization organizationId _ => "organization:" ++ organizationId
  | OwnerUser userId => "user:" ++ userId
  end.

Definition ownerUserId (owner : BillingOwner) : string :=
  match owner with OwnerUser u => u | OwnerOrganization _ u => u end.

Definition billingOwnerMetadata (owner : BillingOwner) : list (string * string) :=
  ([("userId", ownerUserId owner); ("actorUserId", ownerUserId owner)]
   ++ match owner with
      | OwnerOrganization organizationId _ => [("organizationId", organizationId)]
      | OwnerUser _ => []
      end)%list.

(** The columns [userId] and [organizationId]. *)
Definition billingOwnerData (owner : BillingOwner) : string * option string :=
  (ownerUserId owner, match owner with OwnerOrganization o _ => Some o | OwnerUser _ => None end).

(** [billingOwnerWhere] in two parts: the organization entry of the filter, for the tenant extension,
    and the user it pins. *)
Definition ownerOrganization (owner : BillingOwner) : option (option string) := Some (snd (billingOwnerData owner)).
Definition billingOwnerWhere (owner : BillingOwner) (userId : string) : bool :=
  match owner with OwnerOrganization _ _ => true | OwnerUser u => userId === u end.

Definition requireStripe (client : option StripeClient) : res StripeClient :=
  match client with
  | Some c => Ok c
  | None => Err (errors.serviceUnavailable "Stripe is not configured")
  end.

(** [error instanceof PrismaClientKnownRequestError && error.code === 'P2002'] *)
Definition uniqueViolation (e : Error) : bool := e === Known "P2002".

Section Stripe.
Context `{Platform}.

Definition resolvePrice (input : option string) : res (string * string) :=
  let priceKey := input ??? STRIPE_DEFAULT_PRICE_KEY env in
  if priceKey === EmptyString then Err (errors.badRequest "A Stripe priceKey is required")
  else match assoc priceKey (STRIPE_PRICE_CATALOG env) with
       | Some priceId =>
           if priceId === EmptyString then Err (errors.badRequest "The requested Stripe price is not available")
           else Ok (priceId, priceKey)
       | None => Err (errors.badRequest "The requested Stripe price is not available")
       end.

Definition safeRedirectUrl (input : option string) (fallbackPath : string) : res string :=
  let value := match input with
               | Some v => Ok v
               | None => match resolveUrl fallbackPath (APP_ORIGIN env) with
                         | Some u => Ok (url_href u)
                         | None => Err (TypeError "Invalid URL")
                         end
               end in
  match value with
  | Err e => Err e
  | Ok value =>
      match parseUrl value with
      | None => Err (errors.badRequest "Invalid redirect URL")
      | Some parsed =>
          match parseUrl (APP_ORIGIN env) with
          | None => Err (TypeError "Invalid URL")
          | Some app =>
              if url_origin parsed === url_origin app then Ok (url_href parsed)
              else Err (errors.badRequest "Redirect URL must belong to APP_ORIGIN")
          end
      end
  end.

Definition resolveBillingOwner (amb : Ambient) (userId : string) : res BillingOwner :=
  if BILLING_OWNER env === Billing_organization then
    match reqContext amb with
    | Some (Request _ _ (Some organizationId)) =>
        if organizationId === EmptyString
        then Err (errors.conflict "An active organization is required while BILLING_OWNER=organization")
        else Ok (OwnerOrganization organizationId userId)
    | _ => Err (errors.conflict "An active organization is required while BILLING_OWNER=organization")
    end
  else Ok (OwnerUser userId).

Definition lift {A} (r : res A) : Proc World A := transact (tx_lift r).

(** The owner's Stripe customer, if one was created. *)
Definition getBillingCustomerId (amb : Ambient) (userId : string) : Proc World (option string) :=
  owner ← lift (resolveBillingOwner amb userId);
  match owner with
  | OwnerUser _ => u ← getBillingUser userId; mret (user_stripeCustomerId u)
  | OwnerOrganization organizationId _ => o ← getBillingOrganization organizationId; mret (org_stripeCustomerId o)
  end.

(** A concurrent request stored the customer first: its identifier is used. *)
Definition storedCustomer (stored : option string) (error : Error) : Proc World string :=
  match stored with
  | Some c => if c === EmptyString then throw error else mret c
  | None => throw error
  end.

Definition ensureCustomer (amb : Ambient) (userId : string) (stripeClient : option StripeClient) : Proc World string :=
  client ← lift (requireStripe stripeClient);
  owner ← lift (resolveBillingOwner amb userId);
  match owner with
  | OwnerOrganization organizationId _ =>
      organization ← getBillingOrganization organizationId;
      if truthy (org_stripeCustomerId organization) then mret (org_stripeCustomerId organization ??? EmptyString)
      else
        let params := JObj [("name", JStr (org_name organization));
                            ("metadata", JObj (strings (billingOwnerMetadata owner)))] in
        let key := "customer:org:" ++ org_id organization in
        customer ← provider (mkCall "customers.create" (Some key) params) (customers_create client params key);
        try_catch
          (_ ← transact (tx_update_unique (fun o => org_id o === org_id organization)
                           (fun o => o <| org_stripeCustomerId := Some customer |>));
           mret customer)
          (fun error =>
             if uniqueViolation error then
               refreshed ← getBillingOrganization organizationId;
               storedCustomer (org_stripeCustomerId refreshed) error
             else throw error)
  | OwnerUser _ =>
      user ← getBillingUser userId;
      if truthy (user_stripeCustomerId user) then mret (user_stripeCustomerId user ??? EmptyString)
      else
        let params := JObj (optional "email" (user_email user) ++ optional "name" (user_displayName user)
                            ++ [("metadata", JObj (strings (billingOwnerMetadata owner)))])%list in
        let key := "customer:" ++ userId in
        customer ← provider (mkCall "customers.create" (Some key) params) (customers_create client params key);
        try_catch
          (_ ← transact (tx_update_unique (fun u => user_id u === userId)
                           (fun u => u <| user_stripeCustomerId := Some customer |>));
           mret customer)
          (fun error =>
             if uniqueViolation error then
               refreshed ← getBillingUser userId;
               storedCustomer (user_stripeCustomerId refreshed) error
             else throw error)
  end.
End Stripe.
