(* ===== verification/StripeCharges.v ===== *)
(** * Charges

    modules/stripe/stripe.chargeable.ts and stripe.charges.service.ts: what a reference costs, the
    reservation of the item before any provider call, and the payment itself. The resolver interface
    is a record, [chargeableItemResolver] its table-backed implementation. Between the two statements
    of a reservation attempt other requests may commit: [meanwhile] is what they did. *)

From Stdlib Require Import ZArith Lia Bool.
From S2P Require Import Prelude Store Database JsString JsonText Platform Request TenantScope Stripe.

Open Scope string_scope.

Record ChargeableAmount := mkChargeableAmount {
  ca_amount : Z; ca_currency : string; ca_description : string; ca_metadata : list (string * string)
}.

Record ReservedChargeable := mkReservedChargeable {
  rc_chargeable : ChargeableAmount; rc_reservationId : string; rc_reservationKeyHash : string
}.

(** The methods take the reference, the user and (to reserve) the reservation key hash. *)
Record ChargeableResolver := mkChargeableResolver {
  resolve : string -> string -> Proc World ChargeableAmount;
  reserve : option (string -> string -> string -> Proc World ReservedChargeable);
  recordPaymentIntent : option (ReservedChargeable -> string -> bool -> Proc World unit)
}.

Record CreateChargeInput := mkCreateChargeInput {
  cci_reference : string; cci_savePaymentMethod : bool; cci_paymentMethodId : option string;
  cci_returnUrl : option string
}.

Record ChargeResult := mkChargeResult {
  cr_id : string; cr_status : string; cr_amount : Z; cr_currency : string; cr_requiresAction : bool;
  cr_clientSecret : option string
}.

Definition toChargeResult (intent : PaymentIntent) : ChargeResult :=
  mkChargeResult (pi_id intent) (pi_status intent) (pi_amount intent) (pi_currency intent)
    ((pi_status intent === "requires_action") || (pi_status intent === "requires_confirmation"))
    (pi_client_secret intent).

Definition lowerStatus (s : ChargeableStatus) : string :=
  match s with
  | Item_OPEN => "open" | Item_RESERVED => "reserved" | Item_CONSUMED => "consumed"
  | Item_EXPIRED => "expired" | Item_CANCELED => "canceled"
  end.

Definition assertItemOwnerAndExpiry (now : Z) (item : ChargeableItem) (userId : string) : res unit :=
  if opt_le (item_expiresAt item) now then Err (errors.conflict "That chargeable item has expired")
  else if truthy (item_userId item) && (item_userId item !== Some userId)
  then Err (errors.notFound "No chargeable item for that reference")
  else Ok tt.

(** [{ ...itemAmount(item), metadata: { reference, chargeableItemId } }]. *)
Definition itemAmount (reference : string) (item : ChargeableItem) : ChargeableAmount :=
  mkChargeableAmount (item_amount item) (toLowerCase (item_currency item)) (item_description item)
    [("reference", reference); ("chargeableItemId", item_id item)].

Section Chargeable.
Context `{Platform}.

Definition assertChargeableWithinBounds (chargeable : ChargeableAmount) : res unit :=
  let currency := toLowerCase (ca_currency chargeable) in
  if (ca_amount chargeable <? 1)%Z
  then Err (errors.badRequest "Chargeable amount must be a positive integer in minor units")
  else if negb (mem currency (CHARGE_ALLOWED_CURRENCIES env))
  then Err (errors.badRequest ("Currency " ++ currency ++ " is not enabled for charges"))
  else match assoc currency (CHARGE_MAX_AMOUNT_BY_CURRENCY env) with
       | None => Err (errors.badRequest ("No maximum charge amount is configured for " ++ currency))
       | Some maximum =>
           if (maximum <? ca_amount chargeable)%Z
           then Err (errors.badRequest ("Charge amount exceeds the configured maximum for " ++ currency))
           else match assoc currency (CHARGE_MIN_AMOUNT_BY_CURRENCY env) with
                | Some minimum =>
                    if (ca_amount chargeable <? minimum)%Z
                    then Err (errors.badRequest ("Charge amount is below the configured minimum for " ++ currency))
                    else Ok tt
                | None => Ok tt
                end
       end.

Definition resolveItem (amb : Ambient) (reference userId : string) : Proc World ChargeableAmount :=
  item ← transact (item ← sc_findFirst amb None (fun i => (item_reference i === reference) && (item_status i === Item_OPEN));
                   tx_require item (errors.notFound "No open chargeable item for that reference"));
  _ ← lift (assertItemOwnerAndExpiry (nowMs amb) item userId);
  mret (itemAmount reference item).

(** The two statements of a reservation attempt. *)
Definition findItem (amb : Ambient) (reference : string) : Tx World ChargeableItem :=
  item ← sc_findFirst amb None (fun i => item_reference i === reference);
  tx_require item (errors.notFound "No chargeable item for that reference").

Definition reserveStatement (amb : Ambient) (id reservationKeyHash : string) : Tx World nat :=
  sc_updateMany amb None (fun i => (item_id i === id) && (item_status i === Item_OPEN))
    (fun i => i <| item_status := Item_RESERVED |> <| item_reservationKeyHash := Some reservationKeyHash |>
                <| item_reservedAt := Some (nowMs amb) |>).

(** Other requests' committed transactions: a change of the tables, given the attempt. *)
Definition others_commit (meanwhile : nat -> World -> World) (attempt : nat) : Proc World unit :=
  fun w => (Ok tt, meanwhile attempt w).

Fixpoint reserveAttempts (meanwhile : nat -> World -> World) (amb : Ambient)
    (reference userId reservationKeyHash : string) (remaining attempt : nat) : Proc World ReservedChargeable :=
  match remaining with
  | 0 => throw (errors.conflict "That chargeable item changed while it was being reserved")
  | S remaining' =>
      item ← transact (findItem amb reference);
      _ ← lift (assertItemOwnerAndExpiry (nowMs amb) item userId);
      let reservation := mkReservedChargeable (itemAmount reference item) (item_id item) reservationKeyHash in
      if item_status item === Item_RESERVED then
        if item_reservationKeyHash item !== Some reservationKeyHash
        then throw (errors.conflict "That chargeable item is already reserved for another payment")
        else mret reservation
      else if item_status item !== Item_OPEN
      then throw (errors.conflict ("That chargeable item is " ++ lowerStatus (item_status item)))
      else
        _ ← others_commit meanwhile attempt;
        count ← transact (reserveStatement amb (item_id item) reservationKeyHash);
        if negb (count =? 1)%nat
        then reserveAttempts meanwhile amb reference userId reservationKeyHash remaining' (S attempt)
        else mret reservation
  end.

Definition reserveItem (meanwhile : nat -> World -> World) (amb : Ambient)
    (reference userId reservationKeyHash : string) : Proc World ReservedChargeable :=
  reserveAttempts meanwhile amb reference userId reservationKeyHash 2 0.

(** [OR: [{ paymentIntentId: null }, { paymentIntentId }]] *)
Definition unpaidOr (paymentIntentId : string) (i : ChargeableItem) : bool :=
  is_null (item_paymentIntentId i) || (item_paymentIntentId i === Some paymentIntentId).

Definition recordStatement (amb : Ambient) (id reservationKeyHash paymentIntentId : string) (succeeded : bool) :
    Tx World nat :=
  sc_updateMany_unique amb None
    (fun i => (item_id i === id) && (item_status i === Item_RESERVED)
              && (item_reservationKeyHash i === Some reservationKeyHash) && unpaidOr paymentIntentId i)
    (fun i => let i' := i <| item_paymentIntentId := Some paymentIntentId |> in
              if succeeded then i' <| item_status := Item_CONSUMED |> <| item_consumedAt := Some (nowMs amb) |> else i').

Definition recordItemPayment (amb : Ambient) (reservation : ReservedChargeable) (paymentIntentId : string)
    (succeeded : bool) : Proc World unit :=
  count ← transact (recordStatement amb (rc_reservationId reservation) (rc_reservationKeyHash reservation)
                      paymentIntentId succeeded);
  if negb (count =? 1)%nat
  then throw (errors.conflict "Chargeable item reservation no longer belongs to this payment") else mret tt.

Definition chargeableItemResolver (meanwhile : nat -> World -> World) (amb : Ambient) : ChargeableResolver := {|
  resolve := resolveItem amb;
  reserve := Some (reserveItem meanwhile amb);
  recordPaymentIntent := Some (recordItemPayment amb)
|}.

Definition requireDynamicPricing : res unit :=
  if DYNAMIC_PRICING_ENABLED env then Ok tt
  else Err (errors.conflict "Dynamic pricing is disabled; set DYNAMIC_PRICING_ENABLED=true").

Definition normalised (c : ChargeableAmount) : ChargeableAmount :=
  mkChargeableAmount (ca_amount c) (toLowerCase (ca_currency c)) (ca_description c) (ca_metadata c).

Definition resolveChargeable (resolver : ChargeableResolver) (reference userId : string) : Proc World ChargeableAmount :=
  _ ← lift requireDynamicPricing;
  chargeable ← resolve resolver reference userId;
  _ ← lift (assertChargeableWithinBounds (normalised chargeable));
  mret (normalised chargeable).

Definition reserveChargeable (resolver : ChargeableResolver) (reference userId reservationKeyHash : string) :
    Proc World ReservedChargeable :=
  _ ← lift requireDynamicPricing;
  match reserve resolver with
  | None => throw (errors.serviceUnavailable
                     "The configured chargeable resolver does not implement atomic reservation")
  | Some reserve =>
      chargeable ← reserve reference userId reservationKeyHash;
      _ ← lift (assertChargeableWithinBounds (normalised (rc_chargeable chargeable)));
      mret (mkReservedChargeable (normalised (rc_chargeable chargeable)) (rc_reservationId chargeable)
              (rc_reservationKeyHash chargeable))
  end.

(** ** stripe.charges.service.ts *)

Definition assertPaymentMethodOwned (amb : Ambient) (userId paymentMethodId : string) : Proc World string :=
  owner ← lift (resolveBillingOwner amb userId);
  method ← transact (m ← sc_findFirst amb (ownerOrganization owner)
                          (fun m => (pm_id m === paymentMethodId) && billingOwnerWhere owner (pm_userId m)
                                    && is_null (pm_detachedAt m));
                     tx_require m (errors.notFound "Payment method not found"));
  mret (pm_stripePaymentMethodId method).

Definition persistIntent (resolver : ChargeableResolver) (chargeable : ReservedChargeable) (intent : PaymentIntent) :
    Proc World unit :=
  match recordPaymentIntent resolver with
  | None => throw (errors.serviceUnavailable "The configured chargeable resolver cannot record its provider payment")
  | Some record => record chargeable (pi_id intent) (pi_status intent === "succeeded")
  end.

(** The parameters of the payment intent. *)
Definition chargeParams (owner : BillingOwner) (customerId : string) (savedPaymentMethod returnUrl : option string)
    (input : CreateChargeInput) (chargeable : ReservedChargeable) : Json :=
  let c := rc_chargeable chargeable in
  JObj ([("amount", JNum (ca_amount c)); ("currency", JStr (ca_currency c)); ("customer", JStr customerId);
         ("description", JStr (ca_description c));
         ("metadata", JObj (strings (spread (spread (ca_metadata c) (billingOwnerMetadata owner))
            [("reference", cci_reference input);
             ("chargeableReservationKeyHash", rc_reservationKeyHash chargeable)])))]
    ++ match savedPaymentMethod with
       | Some method => [("payment_method", JStr method); ("confirm", JBool true); ("off_session", JBool true)]
       | None => ("automatic_payment_methods", JObj [("enabled", JBool true)])
                 :: match returnUrl with Some u => [("return_url", JStr u)] | None => [] end
       end
    ++ if cci_savePaymentMethod input then [("setup_future_usage", JStr "off_session")] else [])%list.

(** [paymentIntents.create] and what is done with its outcome: an intent, returned or carried by the
    exception, is persisted. An exception of [persistIntent] itself is caught by the same handler and
    carries no intent. *)
Definition createPaymentIntent (client : StripeClient) (resolver : ChargeableResolver)
    (chargeable : ReservedChargeable) (params : Json) (downstreamIdempotencyKey : string) : Proc World ChargeResult :=
  answer ← provider (mkCall "paymentIntents.create" (Some downstreamIdempotencyKey) params)
             (fun n => Ok (paymentIntents_create client params downstreamIdempotencyKey n));
  match answer with
  | inl intent => _ ← persistIntent resolver chargeable intent; mret (toChargeResult intent)
  | inr failure =>
      match sf_payment_intent failure with
      | Some intent =>
          _ ← persistIntent resolver chargeable intent;
          if sf_code failure === Some "authentication_required" then
            let r := toChargeResult intent in
            mret (mkChargeResult (cr_id r) (cr_status r) (cr_amount r) (cr_currency r) true (cr_clientSecret r))
          else throw (Failure (sf_message failure))
      | None => throw (Failure (sf_message failure))
      end
  end.

Definition createCharge (amb : Ambient) (userId : string) (input : CreateChargeInput)
    (businessIdempotencyKey : string) (stripeClient : option StripeClient) (resolver : ChargeableResolver) :
    Proc World ChargeResult :=
  client ← lift (requireStripe stripeClient);
  owner ← lift (resolveBillingOwner amb userId);
  customerId ← ensureCustomer amb userId stripeClient;
  savedPaymentMethod ← (if truthy (cci_paymentMethodId input)
                        then m ← assertPaymentMethodOwned amb userId (cci_paymentMethodId input ??? EmptyString);
                             mret (Some m)
                        else mret None : Proc World (option string));
  reservationKeyHash ← lift (hashMetadata ("chargeable-reservation:" ++ billingOwnerKey owner ++ ":" ++ businessIdempotencyKey));
  chargeable ← reserveChargeable resolver (cci_reference input) userId reservationKeyHash;
  returnUrl ← (if negb (truthy (cci_paymentMethodId input)) && truthy (cci_returnUrl input)
               then u ← lift (safeRedirectUrl (cci_returnUrl input) "/billing"); mret (Some u)
               else mret None : Proc World (option string));
  keyHash ← lift (hashMetadata businessIdempotencyKey);
  createPaymentIntent client resolver chargeable
    (chargeParams owner customerId savedPaymentMethod returnUrl input chargeable)
    ("charge:" ++ billingOwnerKey owner ++ ":" ++ keyHash).

Definition getCharge (amb : Ambient) (userId paymentIntentId : string) (stripeClient : option StripeClient) :
    Proc World ChargeResult :=
  client ← lift (requireStripe stripeClient);
  owner ← lift (resolveBillingOwner amb userId);
  customerId ← ensureCustomer amb userId stripeClient;
  intent ← provider (mkCall "paymentIntents.retrieve" None (JStr paymentIntentId)) (paymentIntents_retrieve client paymentIntentId);
  let organizationId := assoc "organizationId" (pi_metadata intent) in
  let metadataMatches := match owner with
    | OwnerOrganization o _ => organizationId === Some o
    | OwnerUser u => (assoc "userId" (pi_metadata intent) === Some u) && negb (truthy organizationId)
    end in
  if negb metadataMatches && (pi_customer intent !== Some customerId)
  then throw (errors.notFound "Payment not found") else mret (toChargeResult intent).
End Chargeable.
