(* ===== verification/StripeRefunds.v ===== *)
(** * Refunds

    modules/stripe/stripe.refunds.service.ts: the self-service refund policy, the durable refund
    operation around the provider call, and the payer's payments. *)

From Stdlib Require Import ZArith Lia Bool.
From S2P Require Import Prelude Store Database JsString JsonText Platform Request TenantScope AuditTrail Sessions Pagination Stripe.

Open Scope string_scope.

Record RefundInput := mkRefundInput {
  rin_paymentIntentId : option string; rin_chargeId : option string; rin_amount : option Z
}.

(** [Stripe.PaymentIntent | Stripe.Charge] *)
Inductive RefundTarget := TargetIntent (intent : PaymentIntent) | TargetCharge (charge : StripeCharge).

Definition targetUserId (t : RefundTarget) : option string :=
  assoc "userId" (match t with TargetIntent i => pi_metadata i | TargetCharge c => ch_metadata c end).
Definition targetCustomerId (t : RefundTarget) : option string :=
  match t with TargetIntent i => pi_customer i | TargetCharge c => ch_customer c end.

Record RefundDetails := mkRefundDetails {
  rd_created : Z; rd_currency : string; rd_refundableAmount : Z; rd_refundable : bool
}.

Definition refundTargetDetails (target : RefundTarget) : RefundDetails :=
  match target with
  | TargetIntent i =>
      mkRefundDetails (pi_created i) (toLowerCase (pi_currency i))
        (Z.max 0 (pi_amount_received i - (pi_latest_charge_refunded i ??? 0)%Z))
        (pi_status i === "succeeded")
  | TargetCharge c =>
      mkRefundDetails (ch_created c) (toLowerCase (ch_currency c))
        (Z.max 0 (ch_amount c - ch_amount_refunded c)) (ch_paid c && ch_captured c)
  end.

(** What [createRefund] answers. *)
Record RefundResult := mkRefundResult {
  rr_id : string; rr_status : option string; rr_amount : option Z; rr_currency : option string
}.

(** [operation.stripeRefundId], as a condition. *)
Definition refunded (operation : option StripeRefundOperation) : option string :=
  match operation ≫= rop_stripeRefundId with
  | Some id => if id === EmptyString then None else Some id
  | None => None
  end.

Definition operationResult (id : string) (operation : StripeRefundOperation) : RefundResult :=
  mkRefundResult id (Some (rop_status operation)) (rop_amount operation) (rop_currency operation).

Section Refunds.
Context `{Platform}.

Definition enforceSelfServiceRefundPolicy (now : Z) (target : RefundTarget) (requestedAmount : option Z) : res Z :=
  if negb (REFUND_SELF_SERVICE_ENABLED env) then Err (errors.forbidden "Self-service refunds are disabled")
  else
    let details := refundTargetDetails target in
    if negb (rd_refundable details) || (rd_refundableAmount details <? 1)%Z
    then Err (errors.conflict "The payment has no refundable balance")
    else if (REFUND_WINDOW_DAYS env * 24 * 60 * 60 * 1000 <? now - rd_created details * 1000)%Z
    then Err (errors.forbidden "The self-service refund window has expired")
    else
      match assoc (rd_currency details) (REFUND_MAX_AMOUNT_BY_CURRENCY env) with
      | None => Err (errors.forbidden ("Self-service refunds are unavailable for " ++ rd_currency details))
      | Some policyLimit =>
          if (policyLimit =? 0)%Z
          then Err (errors.forbidden ("Self-service refunds are unavailable for " ++ rd_currency details))
          else
            let amount := requestedAmount ??? rd_refundableAmount details in
            if (rd_refundableAmount details <? amount)%Z
            then Err (errors.badRequest "Refund amount exceeds the remaining refundable balance")
            else if (policyLimit <? amount)%Z
            then Err (errors.forbidden "Refund amount requires administrative approval")
            else Ok amount
      end.

Definition differentRefund : Error :=
  errors.conflict "Idempotency-Key was already used for a different refund request".

(** The operation of an idempotency key, under any key of the ring. *)
Definition operationWhere (owner : BillingOwner) (hashes : list string) (r : StripeRefundOperation) : bool :=
  (rop_ownerKey r === billingOwnerKey owner) && billingOwnerWhere owner (rop_userId r)
  && existsb (fun h => h === rop_idempotencyKeyHash r) hashes.

Definition newOperation (owner : BillingOwner) (input : RefundInput) (id idempotencyKeyHash requestHash : string)
    (amount : Z) : StripeRefundOperation :=
  let data := billingOwnerData owner in
  mkStripeRefundOperation id (snd data) (fst data) (billingOwnerKey owner) idempotencyKeyHash requestHash
    (rin_paymentIntentId input) (rin_chargeId input) (Some amount) None "PENDING" None None None None.

(** The operation created now, or the one a concurrent request created first. *)
Definition createOperation (amb : Ambient) (owner : BillingOwner) (input : RefundInput)
    (idempotencyKeyHash requestHash : string) (amount : Z) : Proc World StripeRefundOperation :=
  try_catch
    (transact (id ← newId;
               sc_create amb (ownerOrganization owner)
                 (newOperation owner input id idempotencyKeyHash requestHash amount)))
    (fun error =>
       if uniqueViolation error then
         transact (o ← sc_findFirst amb (ownerOrganization owner)
                         (fun r => (rop_ownerKey r === billingOwnerKey owner)
                                   && (rop_idempotencyKeyHash r === idempotencyKeyHash)
                                   && billingOwnerWhere owner (rop_userId r));
                   tx_require o (Known "P2025"))
       else throw error).

Definition retrieveTarget (client : StripeClient) (input : RefundInput) : Proc World RefundTarget :=
  if truthy (rin_paymentIntentId input) then
    let id := rin_paymentIntentId input ??? EmptyString in
    i ← provider (mkCall "paymentIntents.retrieve" None (JStr id)) (paymentIntents_retrieve client id);
    mret (TargetIntent i)
  else
    let id := rin_chargeId input ??? EmptyString in
    c ← provider (mkCall "charges.retrieve" None (JStr id)) (charges_retrieve client id);
    mret (TargetCharge c).

Definition refundParams (owner : BillingOwner) (input : RefundInput) (amount : Z) (operationId : string) : Json :=
  JObj ((if truthy (rin_paymentIntentId input)
         then [("payment_intent", JStr (rin_paymentIntentId input ??? EmptyString))]
         else [("charge", JStr (rin_chargeId input ??? EmptyString))])
        ++ [("amount", JNum amount); ("reason", JStr "requested_by_customer");
            ("metadata", JObj (strings (billingOwnerMetadata owner ++ [("refundOperationId", operationId)])))])%list.

(** The operation completed, and the audit row of the one request that completed it. *)
Definition completeOperation (amb : Ambient) (owner : BillingOwner) (userId : string) (input : RefundInput)
    (operation : StripeRefundOperation) (refund : Refund) (metadata : RequestMetadata) : Tx World unit :=
  completed ← sc_updateMany_unique amb (ownerOrganization owner)
    (fun r => (rop_id r === rop_id operation) && billingOwnerWhere owner (rop_userId r) && is_null (rop_stripeRefundId r))
    (fun r => r <| rop_stripeRefundId := Some (re_id refund) |> <| rop_status := re_status refund ??? "pending" |>
                <| rop_amount := Some (re_amount refund) |> <| rop_currency := Some (re_currency refund) |>
                <| rop_completedAt := Some (nowMs amb) |> <| rop_lastError := None |>);
  if (completed =? 1)%nat then
    writeAuditEvent amb (auditMetadata metadata (Some userId) "billing.refund_created" "stripe_refund"
      (Some (re_id refund))
      (Some (JObj ([("refundOperationId", JStr (rop_id operation))]
                   ++ (match rin_paymentIntentId input with Some p => [("paymentIntentId", JStr p)] | None => [] end)
                   ++ (match rin_chargeId input with Some c => [("chargeId", JStr c)] | None => [] end)
                   ++ [("amount", JNum (re_amount refund)); ("currency", JStr (re_currency refund))])%list)))
  else mret tt.

(** The provider call; a failure is recorded on the operation. *)
Definition sendRefund (amb : Ambient) (client : StripeClient) (owner : BillingOwner) (input : RefundInput)
    (amount : Z) (operation : StripeRefundOperation) (key : string) : Proc World Refund :=
  let params := refundParams owner input amount (rop_id operation) in
  try_catch
    (provider (mkCall "refunds.create" (Some key) params) (refunds_create client params key))
    (fun error =>
       _ ← transact (sc_update amb (ownerOrganization owner)
                       (fun r => (rop_id r === rop_id operation) && billingOwnerWhere owner (rop_userId r))
                       (fun r => r <| rop_status := "FAILED" |>
                                   <| rop_lastError := Some (take_str 2000 (errorMessage error)) |>));
       throw error).

Definition sameRefundRequest (requestHashCandidates : list string) (operation : StripeRefundOperation) : res unit :=
  if existsb (fun h => h === rop_requestHash operation) requestHashCandidates then Ok tt else Err differentRefund.

Definition createRefund (amb : Ambient) (userId : string) (input : RefundInput) (businessIdempotencyKey : string)
    (metadata : RequestMetadata) (stripeClient : option StripeClient) : Proc World RefundResult :=
  client ← lift (requireStripe stripeClient);
  owner ← lift (resolveBillingOwner amb userId);
  let ownerKey := billingOwnerKey owner in
  let idempotencyInput := "refund-operation:" ++ businessIdempotencyKey in
  let requestInput := "refund-request:" ++ (rin_paymentIntentId input ??? EmptyString) ++ ":"
                      ++ (rin_chargeId input ??? EmptyString) ++ ":"
                      ++ match rin_amount input with Some a => show a | None => "full" end in
  idempotencyKeyHash ← lift (hashMetadata idempotencyInput);
  requestHash ← lift (hashMetadata requestInput);
  requestHashCandidates ← lift (candidateMetadataHashes requestInput);
  keyCandidates ← lift (candidateMetadataHashes idempotencyInput);
  found ← transact (sc_findFirst amb (ownerOrganization owner) (operationWhere owner keyCandidates));
  _ ← lift (match found with Some o => sameRefundRequest requestHashCandidates o | None => Ok tt end);
  match refunded found, found with
  | Some id, Some o => mret (operationResult id o)
  | _, _ =>
      customerId ← ensureCustomer amb userId stripeClient;
      target ← retrieveTarget client input;
      if (targetUserId target !== Some userId) && (targetCustomerId target !== Some customerId)
      then throw (errors.notFound "Payment not found")
      else
        amount ← lift (match found ≫= rop_requestedAmount with
                       | Some a => Ok a
                       | None => enforceSelfServiceRefundPolicy (nowMs amb) target (rin_amount input)
                       end);
        operation ← (match found with
                     | Some o => mret o
                     | None => createOperation amb owner input idempotencyKeyHash requestHash amount
                     end : Proc World StripeRefundOperation);
        _ ← lift (sameRefundRequest requestHashCandidates operation);
        match refunded (Some operation) with
        | Some id => mret (operationResult id operation)
        | None =>
            refund ← sendRefund amb client owner input amount operation
                       ("refund:" ++ ownerKey ++ ":" ++ idempotencyKeyHash);
            _ ← transact (completeOperation amb owner userId input operation refund metadata);
            mret (mkRefundResult (re_id refund) (re_status refund) (Some (re_amount refund)) (Some (re_currency refund)))
        end
  end.

Definition listPayments (amb : Ambient) (userId : string) (input : CursorPaginationInput) :
    Proc World (CursorPage StripePayment) :=
  _ ← getBillingUser userId;
  owner ← lift (resolveBillingOwner amb userId);
  rows ← transact (sc_findMany amb (ownerOrganization owner) (fun p => billingOwnerWhere owner (pay_userId p)));
  mret (cursorPage pay_id (cpi_limit input)
          (fetchRows pay_id (orderDescId pay_createdAt pay_id rows) (cursorQuery input))).
End Refunds.
