(* ===== verification/StripeMethods.v ===== *)
(** * Saved cards, checkout and subscriptions

    modules/stripe/stripe.payment-methods.service.ts, stripe.checkout.service.ts and
    stripe.subscriptions.service.ts. The pages of a subscription listing are followed with fuel. *)

From Stdlib Require Import ZArith Lia Bool.
From S2P Require Import Prelude Store Database JsString JsonText Platform Request TenantScope AuditTrail Sessions Stripe.

Open Scope string_scope.

Record CheckoutInput := mkCheckoutInput {
  ck_mode : string; ck_priceKey : option string; ck_quantity : Z; ck_successUrl : option string;
  ck_cancelUrl : option string; ck_promotionCode : option string
}.

(** What the validation of a promotion code answers. *)
Record PromotionResult := mkPromotionResult {
  pr_id : string; pr_code : string; pr_active : bool; pr_expiresAt : option Z;
  pr_percentOff : option Z; pr_amountOff : option Z; pr_currency : option string
}.

Record SubscriptionView := mkSubscriptionView {
  sv_id : string; sv_status : string; sv_cancelAtPeriodEnd : bool; sv_currentPeriodStart : option Z;
  sv_currentPeriodEnd : option Z; sv_priceId : option string
}.

(** [value ? new Date(value * 1000) : null] *)
Definition unixDate (value : option Z) : option Z :=
  match value with Some v => if (v =? 0)%Z then None else Some (v * 1000)%Z | None => None end.

Definition firstItem (s : Subscription) : option SubscriptionItem := List.hd_error (ss_items s).

Definition subscriptionView (s : Subscription) : SubscriptionView :=
  mkSubscriptionView (ss_id s) (ss_status s) (ss_cancel_at_period_end s)
    (unixDate (firstItem s ≫= si_period_start)) (unixDate (firstItem s ≫= si_period_end))
    (si_price <$> firstItem s).

Definition terminal (status : string) : bool := mem status ["canceled"; "incomplete_expired"].

(** A payment method as Stripe returns it; [card] is absent for other types. *)
Record Card := mkCard {
  card_brand : string; card_last4 : string; card_exp_month : Z; card_exp_year : Z; card_fingerprint : option string
}.
Record StripePaymentMethod := mkStripePaymentMethod { spm_id : string; spm_type : string; spm_card : option Card }.

Definition cardDetails (paymentMethod : StripePaymentMethod) (m : PaymentMethod) : PaymentMethod :=
  let card := spm_card paymentMethod in
  m <| pm_type := spm_type paymentMethod |> <| pm_brand := card_brand <$> card |> <| pm_last4 := card_last4 <$> card |>
    <| pm_expMonth := card_exp_month <$> card |> <| pm_expYear := card_exp_year <$> card |>
    <| pm_fingerprint := card ≫= card_fingerprint |>.

Section Methods.
Context `{Platform}.

(** [`${kind}:${billingOwnerKey(owner)}:${hashMetadata(businessIdempotencyKey)}`] *)
Definition downstreamKey (kind : string) (owner : BillingOwner) (businessIdempotencyKey : string) : res string :=
  match hashMetadata businessIdempotencyKey with
  | Ok h => Ok (kind ++ ":" ++ billingOwnerKey owner ++ ":" ++ h)
  | Err e => Err e
  end.

(** ** Payment methods *)

Definition createSetupIntent (amb : Ambient) (userId : string) (stripeClient : option StripeClient)
    (businessIdempotencyKey : string) : Proc World SetupIntent :=
  client ← lift (requireStripe stripeClient);
  owner ← lift (resolveBillingOwner amb userId);
  customerId ← ensureCustomer amb userId stripeClient;
  key ← lift (downstreamKey "setup-intent" owner businessIdempotencyKey);
  let params := JObj [("customer", JStr customerId); ("usage", JStr "off_session");
                      ("metadata", JObj (strings (billingOwnerMetadata owner)))] in
  provider (mkCall "setupIntents.create" (Some key) params) (setupIntents_create client params key).

Definition liveMethod (owner : BillingOwner) (m : PaymentMethod) : bool :=
  billingOwnerWhere owner (pm_userId m) && is_null (pm_detachedAt m).

(** [orderBy: [{ isDefault: 'desc' }, { createdAt: 'desc' }]] *)
Definition methodOrder (methods : list PaymentMethod) : list PaymentMethod :=
  let byDate := orderByDesc pm_createdAt methods in
  (List.filter pm_isDefault byDate ++ List.filter (fun m => negb (pm_isDefault m)) byDate)%list.

Definition listPaymentMethods (amb : Ambient) (userId : string) : Proc World (list PaymentMethod) :=
  owner ← lift (resolveBillingOwner amb userId);
  rows ← transact (sc_findMany amb (ownerOrganization owner) (liveMethod owner));
  mret (methodOrder rows).

Definition findOwnedPaymentMethod (amb : Ambient) (id userId : string) : Proc World PaymentMethod :=
  owner ← lift (resolveBillingOwner amb userId);
  transact (m ← sc_findFirst amb (ownerOrganization owner) (fun m => (pm_id m === id) && liveMethod owner m);
            tx_require m (errors.notFound "Payment method not found")).

(** The audited transaction of [setDefaultPaymentMethod]. *)
Definition makeDefault (amb : Ambient) (owner : BillingOwner) (userId id : string) (metadata : RequestMetadata) :
    Tx World PaymentMethod :=
  _ ← sc_updateMany amb (ownerOrganization owner)
        (fun m => billingOwnerWhere owner (pm_userId m) && pm_isDefault m) (fun m => m <| pm_isDefault := false |>);
  _ ← sc_update amb (ownerOrganization owner)
        (fun m => (pm_id m === id) && billingOwnerWhere owner (pm_userId m)) (fun m => m <| pm_isDefault := true |>);
  _ ← writeAuditEvent amb (auditMetadata metadata (Some userId) "billing.payment_method.default_changed"
        "payment_method" (Some id) None);
  m ← sc_findFirst amb (ownerOrganization owner) (fun m => (pm_id m === id) && billingOwnerWhere owner (pm_userId m));
  tx_require m (Known "P2025").

Definition setDefaultPaymentMethod (amb : Ambient) (userId paymentMethodId : string)
    (stripeClient : option StripeClient) (metadata : RequestMetadata) (businessIdempotencyKey : string) :
    Proc World PaymentMethod :=
  client ← lift (requireStripe stripeClient);
  owner ← lift (resolveBillingOwner amb userId);
  method ← findOwnedPaymentMethod amb paymentMethodId userId;
  customerId ← ensureCustomer amb userId stripeClient;
  key ← lift (downstreamKey "payment-method-default" owner businessIdempotencyKey);
  let params := JObj [("invoice_settings", JObj [("default_payment_method", JStr (pm_stripePaymentMethodId method))])] in
  _ ← provider (mkCall "customers.update" (Some key) params) (customers_update client customerId params key);
  transact (makeDefault amb owner userId (pm_id method) metadata).

Definition detached (now : Z) (m : PaymentMethod) : PaymentMethod :=
  m <| pm_detachedAt := Some now |> <| pm_deletedAt := Some now |> <| pm_isDefault := false |>.

Definition detachPaymentMethod (amb : Ambient) (userId paymentMethodId : string)
    (stripeClient : option StripeClient) (metadata : RequestMetadata) (businessIdempotencyKey : string) :
    Proc World unit :=
  client ← lift (requireStripe stripeClient);
  owner ← lift (resolveBillingOwner amb userId);
  method ← findOwnedPaymentMethod amb paymentMethodId userId;
  activeSubscriptions ← transact (sc_count amb (ownerOrganization owner)
    (fun s => billingOwnerWhere owner (sub_userId s) && mem (sub_status s) ["active"; "trialing"; "past_due"]));
  remaining ← transact (sc_count amb (ownerOrganization owner) (liveMethod owner));
  if (0 <? activeSubscriptions)%nat && (remaining <=? 1)%nat
  then throw (errors.conflict "Add another payment method before removing the last one while a subscription is active")
  else
    key ← lift (downstreamKey "payment-method-detach" owner businessIdempotencyKey);
    _ ← provider (mkCall "paymentMethods.detach" (Some key) (JStr (pm_stripePaymentMethodId method)))
          (paymentMethods_detach client (pm_stripePaymentMethodId method) key);
    transact (
      _ ← sc_update amb (ownerOrganization owner)
            (fun m => (pm_id m === pm_id method) && billingOwnerWhere owner (pm_userId m)) (detached (nowMs amb));
      writeAuditEvent amb (auditMetadata metadata (Some userId) "billing.payment_method.detached"
        "payment_method" (Some (pm_id method)) None)).

(** Records of a card by its events; the service exports them, the webhook projection of
    StripeWebhooks.v supersedes them. *)
Definition recordAttachedPaymentMethod (amb : Ambient) (paymentMethod : StripePaymentMethod) (ownerUserId : string)
    (organizationId : option string) : Tx World PaymentMethod :=
  id ← newId;
  sc_upsert amb None (Some organizationId)
    (fun m => pm_stripePaymentMethodId m === spm_id paymentMethod)
    (cardDetails paymentMethod
       (mkPaymentMethod id organizationId ownerUserId (spm_id paymentMethod) EmptyString None None None None None
          false None (nowMs amb) None))
    (fun m => cardDetails paymentMethod m <| pm_detachedAt := None |> <| pm_deletedAt := None |>).

Definition recordDetachedPaymentMethod (amb : Ambient) (stripePaymentMethodId : string) : Tx World nat :=
  sc_updateMany amb None (fun m => (pm_stripePaymentMethodId m === stripePaymentMethodId) && is_null (pm_detachedAt m))
    (detached (nowMs amb)).

(** ** Checkout *)

Definition findPromotionCode (code : string) (stripeClient : option StripeClient) : Proc World PromotionCode :=
  client ← lift (requireStripe stripeClient);
  data ← provider (mkCall "promotionCodes.list" None (JObj [("code", JStr code); ("active", JBool true); ("limit", JNum 1)]))
           (promotionCodes_list client code);
  lift (match data with p :: _ => Ok p | [] => Err (errors.badRequest "Invalid or inactive promotion code") end).

Definition checkoutParams (owner : BillingOwner) (customerId : string) (input : CheckoutInput)
    (priceId priceKey successUrl cancelUrl : string) (promotion : option PromotionCode) : Json :=
  JObj ([("mode", JStr (ck_mode input)); ("customer", JStr customerId);
         ("line_items", JArr [JObj [("price", JStr priceId); ("quantity", JNum (ck_quantity input))]]);
         ("success_url", JStr successUrl); ("cancel_url", JStr cancelUrl);
         ("metadata", JObj (strings (billingOwnerMetadata owner ++ [("priceKey", priceKey)])))]
    ++ [match promotion with
        | Some p => ("discounts", JArr [JObj [("promotion_code", JStr (pc_id p))]])
        | None => ("allow_promotion_codes", JBool true)
        end;
        (if ck_mode input === "payment" then "payment_intent_data" else "subscription_data",
         JObj [("metadata", JObj (strings (billingOwnerMetadata owner)))])])%list.

Definition createCheckoutSession (amb : Ambient) (userId : string) (input : CheckoutInput)
    (businessIdempotencyKey : string) (stripeClient : option StripeClient) : Proc World CheckoutSession :=
  client ← lift (requireStripe stripeClient);
  owner ← lift (resolveBillingOwner amb userId);
  customerId ← ensureCustomer amb userId stripeClient;
  price ← lift (resolvePrice (ck_priceKey input));
  successUrl ← lift (safeRedirectUrl (ck_successUrl input) "/billing/success");
  cancelUrl ← lift (safeRedirectUrl (ck_cancelUrl input) "/billing/cancel");
  promotion ← (if truthy (ck_promotionCode input)
               then p ← findPromotionCode (ck_promotionCode input ??? EmptyString) stripeClient; mret (Some p)
               else mret None : Proc World (option PromotionCode));
  key ← lift (downstreamKey "checkout" owner businessIdempotencyKey);
  let params := checkoutParams owner customerId input (fst price) (snd price) successUrl cancelUrl promotion in
  provider (mkCall "checkout.sessions.create" (Some key) params) (checkout_sessions_create client params key).

Definition getCheckoutSession (amb : Ambient) (userId sessionId : string) (stripeClient : option StripeClient) :
    Proc World CheckoutSession :=
  client ← lift (requireStripe stripeClient);
  ownerCustomerId ← getBillingCustomerId amb userId;
  session ← provider (mkCall "checkout.sessions.retrieve" None (JStr sessionId)) (checkout_sessions_retrieve client sessionId);
  if (assoc "userId" (cs_metadata session) !== Some userId)
     && (negb (truthy ownerCustomerId) || (cs_customer session !== ownerCustomerId))
  then throw (errors.notFound "Checkout session not found") else mret session.

Definition validatePromotionCode (userId code : string) (stripeClient : option StripeClient) : Proc World PromotionResult :=
  _ ← getBillingUser userId;
  client ← lift (requireStripe stripeClient);
  promotion ← findPromotionCode code stripeClient;
  coupon ← (match pc_coupon promotion with
            | CouponId id => c ← provider (mkCall "coupons.retrieve" None (JStr id)) (coupons_retrieve client id);
                             mret (Some c)
            | CouponObject c => mret c
            end : Proc World (option Coupon));
  let couponData := match coupon with Some c => if cp_deleted c then None else Some c | None => None end in
  mret (mkPromotionResult (pc_id promotion) (pc_code promotion) (pc_active promotion)
          (unixDate (pc_expires_at promotion)) (couponData ≫= cp_percent_off) (couponData ≫= cp_amount_off)
          (couponData ≫= cp_currency)).

(** ** Subscriptions *)

Definition listParams (customerId : string) (limit : Z) (startingAfter : option string) : Json :=
  JObj ([("customer", JStr customerId); ("status", JStr "all"); ("limit", JNum limit)]
        ++ optional "starting_after" startingAfter)%list.

(** [page.data.at(-1)?.id] *)
Definition lastId (page : SubscriptionPage) : option string := ss_id <$> List.last (List.map Some (sp_data page)) None.

Definition listSubscriptions (amb : Ambient) (userId : string) (cursor : option string) (limit : Z)
    (stripeClient : option StripeClient) : Proc World (list SubscriptionView * option string) :=
  client ← lift (requireStripe stripeClient);
  customerId ← ensureCustomer amb userId stripeClient;
  let params := listParams customerId limit cursor in
  page ← provider (mkCall "subscriptions.list" None params) (subscriptions_list client params);
  mret (List.map subscriptionView (sp_data page), if sp_has_more page then lastId page else None).

(** The subscription of the payer, or the refusal. *)
Definition ownedSubscription (amb : Ambient) (client : StripeClient) (userId subscriptionId : string) :
    Proc World Subscription :=
  customerId ← ensureCustomer amb userId (Some client);
  subscription ← provider (mkCall "subscriptions.retrieve" None (JStr subscriptionId))
                   (subscriptions_retrieve client subscriptionId);
  if ss_customer subscription !== customerId then throw (errors.notFound "Subscription not found")
  else mret subscription.

Definition updateSubscription (client : StripeClient) (subscriptionId key : string) (params : Json) :
    Proc World Subscription :=
  provider (mkCall "subscriptions.update" (Some key) params) (subscriptions_update client subscriptionId params key).

(** [cancelSubscription] and [resumeSubscription]: the flag at the end of the period. *)
Definition setCancelAtPeriodEnd (kind : string) (flag : bool) (amb : Ambient) (userId subscriptionId : string)
    (stripeClient : option StripeClient) (businessIdempotencyKey : string) : Proc World Subscription :=
  client ← lift (requireStripe stripeClient);
  _ ← ownedSubscription amb client userId subscriptionId;
  owner ← lift (resolveBillingOwner amb userId);
  key ← lift (downstreamKey kind owner businessIdempotencyKey);
  updateSubscription client subscriptionId key (JObj [("cancel_at_period_end", JBool flag)]).

Definition cancelSubscription := setCancelAtPeriodEnd "subscription-cancel" true.
Definition resumeSubscription := setCancelAtPeriodEnd "subscription-resume" false.

Definition changeSubscriptionPrice (amb : Ambient) (userId subscriptionId priceKey prorationBehavior : string)
    (stripeClient : option StripeClient) (businessIdempotencyKey : string) : Proc World Subscription :=
  client ← lift (requireStripe stripeClient);
  owner ← lift (resolveBillingOwner amb userId);
  subscription ← ownedSubscription amb client userId subscriptionId;
  item ← lift (match firstItem subscription with
               | Some i => Ok i
               | None => Err (errors.conflict "Subscription has no changeable item")
               end);
  price ← lift (resolvePrice (Some priceKey));
  key ← lift (downstreamKey "subscription-change" owner businessIdempotencyKey);
  updateSubscription client subscriptionId key
    (JObj [("items", JArr [JObj [("id", JStr (si_id item)); ("price", JStr (fst price))]]);
           ("proration_behavior", JStr prorationBehavior); ("cancel_at_period_end", JBool false);
           ("metadata", JObj (strings (spread (ss_metadata subscription)
              (billingOwnerMetadata owner ++ [("priceKey", snd price)])%list)))]).

Definition createBillingPortalSession (amb : Ambient) (userId : string) (returnUrl : option string)
    (stripeClient : option StripeClient) (businessIdempotencyKey : string) : Proc World (string * string) :=
  client ← lift (requireStripe stripeClient);
  customer ← ensureCustomer amb userId stripeClient;
  owner ← lift (resolveBillingOwner amb userId);
  url ← lift (safeRedirectUrl returnUrl "/billing");
  key ← lift (downstreamKey "billing-portal" owner businessIdempotencyKey);
  let params := JObj [("customer", JStr customer); ("return_url", JStr url)] in
  provider (mkCall "billingPortal.sessions.create" (Some key) params) (billingPortal_sessions_create client params key).

(** [for (const subscription of page.data)]: how many were canceled. *)
Fixpoint cancelPage (client : StripeClient) (subscriptions : list Subscription) (canceled : nat) : Proc World nat :=
  match subscriptions with
  | [] => mret canceled
  | s :: rest =>
      if negb (terminal (ss_status s)) then
        _ ← provider (mkCall "subscriptions.cancel" None (JStr (ss_id s))) (subscriptions_cancel client (ss_id s));
        cancelPage client rest (S canceled)
      else cancelPage client rest canceled
  end.

(** [do ... while (startingAfter)]: [None] when the fuel ran out before the last page. *)
Fixpoint cancelPages (fuel : nat) (client : StripeClient) (customerId : string) (startingAfter : option string)
    (canceled : nat) : Proc World (option nat) :=
  match fuel with
  | 0 => mret None
  | S fuel =>
      let params := listParams customerId 100 startingAfter in
      page ← provider (mkCall "subscriptions.list" None params) (subscriptions_list client params);
      n ← cancelPage client (sp_data page) canceled;
      let next := if sp_has_more page then lastId page else None in
      if truthy next then cancelPages fuel client customerId next n else mret (Some n)
  end.

Definition cancelCustomerSubscriptions (fuel : nat) (customerId : string) (client : StripeClient) : Proc World (option nat) :=
  cancelPages fuel client customerId None 0.

Definition cancelAllUserSubscriptions (fuel : nat) (userId : string) (stripeClient : option StripeClient) :
    Proc World (option nat) :=
  match stripeClient with
  | None => mret (Some 0)
  | Some client =>
      user ← transact (tx_findFirst (fun u => user_id u === userId));
      match user ≫= user_stripeCustomerId with
      | Some c => if c === EmptyString then mret (Some 0) else cancelCustomerSubscriptions fuel c client
      | None => mret (Some 0)
      end
  end.
End Methods.
