(* ===== verification/StripeWebhooks.v ===== *)
(** * Stripe webhooks

    modules/stripe/stripe.webhooks.service.ts: an event is verified and stored with its outbox event;
    processing it reads the current object from Stripe and projects it on the local tables. Objects are
    JSON values read field by field, as the source reads them. The advisory lock only orders
    transactions on the same object; [contention] is the database's verdict on each attempt. *)

From Stdlib Require Import ZArith Lia Bool.
From S2P Require Import Prelude Store Database JsString JsonText Platform Request TenantScope Outbox Idempotency Stripe StripeCharges.

Open Scope string_scope.

(** ** Reading unknown values *)

Definition isObject (v : option Json) : bool :=
  match v with Some (JObj _) | Some (JArr _) => true | _ => false end.

(** [value[key]] of an object, [undefined] otherwise. *)
Definition field (value : option Json) (key : string) : option Json := value ≫= jget key.

Definition objectFromEvent (payload : Json) : option Json :=
  if negb (isObject (Some payload)) then None
  else
    let data := jget "data" payload in
    if negb (isObject data) then None
    else let object := field data "object" in if isObject object then object else None.

Definition stringValue (value : option Json) : option string :=
  match value with Some (JStr s) => if s === EmptyString then None else Some s | _ => None end.
Definition numberValue (value : option Json) : option Z :=
  match value with Some (JNum n) => Some n | _ => None end.
Definition dateFromUnix (value : option Json) : option Z := (fun n => n * 1000)%Z <$> numberValue value.
Definition nestedString (value : option Json) (key : string) : option string := stringValue (field value key).
Definition referenceId (value : option Json) : option string :=
  match stringValue value with Some s => Some s | None => nestedString value "id" end.

(** [a ?? b] *)
Definition orElse {A} (a b : option A) : option A := match a with Some _ => a | None => b end.

Record StripeProjectionCursor := mkCursor { cur_eventId : string; cur_createdAt : Z; cur_authoritative : bool }.
Record StripeAttribution := mkAttribution { at_userId : string; at_organizationId : option string }.

Record PaymentInput := mkPaymentInput {
  pin_paymentIntentId : string; pin_checkoutSessionId : option string; pin_chargeId : option string;
  pin_status : string; pin_amount : option Z; pin_amountRefunded : option Z; pin_currency : option string
}.

(** The event is newer than the last one projected on the row. *)
Definition newer (cursor : StripeProjectionCursor) (lastId : option string) (lastCreated : option Z) : bool :=
  match lastCreated with
  | None => true
  | Some t =>
      (t <? cur_createdAt cursor)%Z
      || ((t =? cur_createdAt cursor)%Z
          && match lastId with Some i => String.ltb i (cur_eventId cursor) | None => false end)
  end.

Definition projects (cursor : StripeProjectionCursor) (lastId : option string) (lastCreated : option Z) : bool :=
  cur_authoritative cursor || newer cursor lastId lastCreated.

(** The data of the guarded update of a payment. *)
Definition paymentData (input : PaymentInput) (cursor : StripeProjectionCursor) (p : StripePayment) : StripePayment :=
  p <| pay_chargeId ::= orElse (pin_chargeId input) |> <| pay_status := pin_status input |>
    <| pay_amount ::= orElse (pin_amount input) |>
    <| pay_amountRefunded ::= fun a => pin_amountRefunded input ??? a |>
    <| pay_currency ::= orElse (pin_currency input) |>
    <| pay_lastStripeEventId := Some (cur_eventId cursor) |>
    <| pay_lastStripeEventCreatedAt := Some (cur_createdAt cursor) |>.

(** What is projected of a subscription. *)
Record SubscriptionData := mkSubscriptionData {
  sd_status : string; sd_priceId : option string; sd_currency : option string; sd_currentPeriodStart : option Z;
  sd_currentPeriodEnd : option Z; sd_cancelAtPeriodEnd : bool; sd_canceledAt : option Z; sd_deletedAt : option Z
}.

Definition subscriptionData (object : Json) (cursor : StripeProjectionCursor) : SubscriptionData :=
  let itemData := field (jget "items" object) "data" in
  let firstItem := match itemData with Some (JArr (i :: _)) => Some i | _ => None end in
  let price := field firstItem "price" in
  mkSubscriptionData (stringValue (jget "status" object) ??? "unknown") (nestedString price "id")
    (nestedString price "currency") (dateFromUnix (jget "current_period_start" object))
    (dateFromUnix (jget "current_period_end" object))
    (match jget "cancel_at_period_end" object with Some (JBool true) => true | _ => false end)
    (dateFromUnix (jget "canceled_at" object))
    (match jget "status" object with
     | Some (JStr s) => if s === "canceled" then Some (cur_createdAt cursor) else None
     | _ => None
     end).

(** The update leaves out what the object does not carry. *)
Definition setSubscription (d : SubscriptionData) (cursor : StripeProjectionCursor) (s : StripeSubscription) :
    StripeSubscription :=
  s <| sub_status := sd_status d |> <| sub_priceId ::= orElse (sd_priceId d) |>
    <| sub_currency ::= orElse (sd_currency d) |> <| sub_currentPeriodStart ::= orElse (sd_currentPeriodStart d) |>
    <| sub_currentPeriodEnd ::= orElse (sd_currentPeriodEnd d) |>
    <| sub_cancelAtPeriodEnd := sd_cancelAtPeriodEnd d |> <| sub_canceledAt ::= orElse (sd_canceledAt d) |>
    <| sub_deletedAt := sd_deletedAt d |> <| sub_lastStripeEventId := Some (cur_eventId cursor) |>
    <| sub_lastStripeEventCreatedAt := Some (cur_createdAt cursor) |>.

Section Webhooks.
Context `{Platform}.

Definition verifyAndStoreStripeEvent (amb : Ambient) (rawBody signature : string) (stripeClient : option StripeClient) :
    Proc World bool :=
  match stripeClient with
  | None => throw (Failure "Stripe webhook configuration is unavailable")
  | Some client =>
      if STRIPE_WEBHOOK_SECRET env === EmptyString then throw (Failure "Stripe webhook configuration is unavailable")
      else match webhooks_constructEvent client rawBody signature (STRIPE_WEBHOOK_SECRET env) with
           | Err _ => throw (errors.badRequest "Invalid Stripe webhook signature")
           | Ok event =>
               try_catch
                 (transact (
                    id ← newId;
                    payload ← tx_lift (match jsonParse rawBody with
                                       | Some j => Ok j
                                       | None => Err (Failure "Unexpected token in JSON")
                                       end);
                    stored ← tx_create (mkStripeWebhookEvent id (ev_id event) (ev_created event * 1000)
                                          (ev_type event) payload Swe_RECEIVED None None (nowMs amb) None);
                    addOutboxEvent amb (mkOutboxInput "stripe_webhook_event" (swe_id stored) "stripe.event_received"
                      Ch_INTERNAL (JObj [("stripeWebhookEventId", JStr (swe_id stored)); ("type", JStr (ev_type event))])
                      ("stripe:" ++ ev_id event) None None));;
                  mret false)
                 (fun error => if uniqueViolation error then mret true else throw error)
           end
  end.

(** Who a Stripe object belongs to: its metadata, or the owner of its customer. *)
Definition attributionForStripeObject (object : Json) : Tx World (option StripeAttribution) :=
  let values := jget "metadata" object in
  match orElse (stringValue (field values "userId")) (stringValue (field values "actorUserId")) with
  | Some userId => mret (Some (mkAttribution userId (stringValue (field values "organizationId"))))
  | None =>
      match referenceId (jget "customer" object) with
      | None => mret None
      | Some customerId =>
          organization ← tx_findFirst (fun o => org_stripeCustomerId o === Some customerId);
          members ← tx_findMany (fun m => (Some (mem_organizationId m) === (org_id <$> organization))
                                          && (mem_status m === Mem_ACTIVE));
          match organization, List.hd_error (orderByAsc mem_createdAt members) with
          | Some o, Some m => mret (Some (mkAttribution (mem_userId m) (Some (org_id o))))
          | _, _ =>
              user ← tx_findFirst (fun u => user_stripeCustomerId u === Some customerId);
              mret ((fun u => mkAttribution (user_id u) None) <$> user)
          end
      end
  end.

Definition upsertPayment (amb : Ambient) (attribution : StripeAttribution) (input : PaymentInput)
    (cursor : StripeProjectionCursor) : Tx World nat :=
  id ← newId;
  payment ← sc_upsert_unique amb None (Some (at_organizationId attribution))
    (fun p => pay_stripePaymentIntentId p === Some (pin_paymentIntentId input))
    (mkStripePayment id (at_organizationId attribution) (at_userId attribution) (Some (pin_paymentIntentId input))
       (pin_checkoutSessionId input) (pin_chargeId input) (pin_status input) (pin_amount input)
       (pin_amountRefunded input ??? 0%Z) (pin_currency input) (Some (cur_eventId cursor))
       (Some (cur_createdAt cursor)) (nowMs amb) None)
    (fun p => p <| pay_checkoutSessionId ::= orElse (pin_checkoutSessionId input) |>
                <| pay_userId := at_userId attribution |> <| pay_organizationId := at_organizationId attribution |>);
  sc_updateMany_unique amb None
    (fun p => (pay_id p === pay_id payment)
              && projects cursor (pay_lastStripeEventId p) (pay_lastStripeEventCreatedAt p))
    (paymentData input cursor).

(** The item a payment intent pays for, and the reservation it was created under. *)
Definition chargeableMetadata (object : Json) : option (string * string * string * string) :=
  let metadata := jget "metadata" object in
  match stringValue (jget "id" object), stringValue (field metadata "chargeableItemId"),
        stringValue (field metadata "chargeableReservationKeyHash"), stringValue (jget "status" object) with
  | Some paymentIntentId, Some item, Some reservationKeyHash, Some status =>
      Some (paymentIntentId, item, reservationKeyHash, status)
  | _, _, _, _ => None
  end.

Definition itemOf (id reservationKeyHash paymentIntentId : string) (statuses : list ChargeableStatus)
    (i : ChargeableItem) : bool :=
  (item_id i === id) && (item_reservationKeyHash i === Some reservationKeyHash)
  && existsb (fun s => s === item_status i) statuses && unpaidOr paymentIntentId i.

Definition projectStatus (amb : Ambient) (paymentIntentId id reservationKeyHash status : string) : Tx World nat :=
  if status === "succeeded" then
    sc_updateMany_unique amb None (itemOf id reservationKeyHash paymentIntentId [Item_RESERVED; Item_CONSUMED])
      (fun i => i <| item_paymentIntentId := Some paymentIntentId |> <| item_status := Item_CONSUMED |>
                  <| item_consumedAt := Some (nowMs amb) |>)
  else if status === "canceled" then
    sc_updateMany_unique amb None (itemOf id reservationKeyHash paymentIntentId [Item_RESERVED])
      (fun i => i <| item_status := Item_OPEN |> <| item_reservationKeyHash := None |>
                  <| item_reservedAt := None |> <| item_paymentIntentId := None |>)
  else
    sc_updateMany_unique amb None (itemOf id reservationKeyHash paymentIntentId [Item_RESERVED])
      (fun i => i <| item_paymentIntentId := Some paymentIntentId |>).

Definition projectChargeableItem (amb : Ambient) (object : Json) : Tx World unit :=
  match chargeableMetadata object with
  | None => mret tt
  | Some (paymentIntentId, id, reservationKeyHash, status) =>
      _ ← projectStatus amb paymentIntentId id reservationKeyHash status; mret tt
  end.

Definition projectSubscription (amb : Ambient) (attribution : StripeAttribution) (object : Json)
    (cursor : StripeProjectionCursor) : Tx World unit :=
  match stringValue (jget "id" object) with
  | None => mret tt
  | Some subscriptionId =>
      let data := subscriptionData object cursor in
      id ← newId;
      subscription ← sc_upsert amb None (Some (at_organizationId attribution))
        (fun s => sub_stripeSubscriptionId s === subscriptionId)
        (setSubscription data cursor
           (mkStripeSubscription id (at_organizationId attribution) (at_userId attribution) subscriptionId
              EmptyString None None None None false None None None None))
        (fun s => s <| sub_userId := at_userId attribution |> <| sub_organizationId := at_organizationId attribution |>);
      _ ← sc_updateMany amb None
        (fun s => (sub_id s === sub_id subscription)
                  && projects cursor (sub_lastStripeEventId s) (sub_lastStripeEventCreatedAt s))
        (setSubscription data cursor);
      mret tt
  end.

(** Which current object an event is about. *)
Definition objectKind (eventType : string) : option string :=
  if startsWith eventType "customer.subscription." then Some "subscriptions"
  else if startsWith eventType "payment_intent." then Some "paymentIntents"
  else if eventType === "charge.refunded" then Some "charges"
  else if eventType === "checkout.session.completed" then Some "checkout.sessions"
  else if startsWith eventType "setup_intent." then Some "setupIntents"
  else if startsWith eventType "payment_method." then Some "paymentMethods"
  else if eventType === "customer.updated" then Some "customers"
  else None.

Definition retrieveCurrentStripeObject (eventType : string) (object : Json) (stripeClient : option StripeClient) :
    Proc World (Json * bool) :=
  match stripeClient, stringValue (jget "id" object), objectKind eventType with
  | Some client, Some id, Some kind =>
      current ← provider (mkCall (kind ++ ".retrieve") None (JStr id)) (retrieve_object client kind id);
      mret (current, true)
  | _, _, _ => mret (object, false)
  end.

Definition cardString (card : option Json) (key : string) : option string := stringValue (field card key).
Definition cardNumber (card : option Json) (key : string) : option Z := numberValue (field card key).

Definition projectAttachedPaymentMethod (amb : Ambient) (attribution : StripeAttribution) (paymentMethod : Json) :
    Tx World unit :=
  match stringValue (jget "id" paymentMethod) with
  | None => mret tt
  | Some stripePaymentMethodId =>
      let card := jget "card" paymentMethod in
      let details (m : PaymentMethod) :=
        m <| pm_type := stringValue (jget "type" paymentMethod) ??? "card" |> <| pm_brand := cardString card "brand" |>
          <| pm_last4 := cardString card "last4" |> <| pm_expMonth := cardNumber card "exp_month" |>
          <| pm_expYear := cardNumber card "exp_year" |> <| pm_fingerprint := cardString card "fingerprint" |> in
      id ← newId;
      _ ← sc_upsert amb None (Some (at_organizationId attribution))
        (fun m => pm_stripePaymentMethodId m === stripePaymentMethodId)
        (details (mkPaymentMethod id (at_organizationId attribution) (at_userId attribution) stripePaymentMethodId
                    EmptyString None None None None None false None (nowMs amb) None))
        (fun m => details (m <| pm_userId := at_userId attribution |> <| pm_organizationId := at_organizationId attribution |>)
                  <| pm_detachedAt := None |> <| pm_deletedAt := None |>);
      mret tt
  end.

Definition attributionWhere (attribution : StripeAttribution) (userId : string) : bool :=
  truthy (at_organizationId attribution) || (userId === at_userId attribution).
Definition attributionOwner (attribution : StripeAttribution) : Owner :=
  Some (if truthy (at_organizationId attribution) then at_organizationId attribution else None).

(** ** [processStoredStripeEvent] *)

Definition isPaymentIntent (eventType : string) : bool := startsWith eventType "payment_intent.".

(** The payment an intent or a completed checkout reports. *)
Definition projectPayment (amb : Ambient) (attribution : StripeAttribution) (eventType : string) (object : Json)
    (cursor : StripeProjectionCursor) : Tx World unit :=
  let paymentIntentId := if isPaymentIntent eventType then stringValue (jget "id" object)
                         else referenceId (jget "payment_intent" object) in
  match paymentIntentId with
  | None => mret tt
  | Some paymentIntentId =>
      _ ← upsertPayment amb attribution
        (mkPaymentInput paymentIntentId
           (if startsWith eventType "checkout.session." then stringValue (jget "id" object) else None)
           (referenceId (jget "latest_charge" object))
           (orElse (stringValue (jget "payment_status" object)) (stringValue (jget "status" object)) ??? "unknown")
           (orElse (numberValue (jget "amount_received" object))
              (orElse (numberValue (jget "amount_total" object)) (numberValue (jget "amount" object))))
           None (stringValue (jget "currency" object))) cursor;
      mret tt
  end.

Definition projectDetached (amb : Ambient) (object : Json) : Tx World unit :=
  match stringValue (jget "id" object) with
  | None => mret tt
  | Some id =>
      _ ← sc_updateMany amb None (fun m => (pm_stripePaymentMethodId m === id) && is_null (pm_detachedAt m))
            (fun m => m <| pm_detachedAt := Some (nowMs amb) |> <| pm_deletedAt := Some (nowMs amb) |>
                        <| pm_isDefault := false |>);
      mret tt
  end.

Definition projectCardUpdate (amb : Ambient) (object : Json) : Tx World unit :=
  match stringValue (jget "id" object) with
  | None => mret tt
  | Some id =>
      let card := jget "card" object in
      _ ← sc_updateMany amb None (fun m => pm_stripePaymentMethodId m === id)
            (fun m => m <| pm_brand := cardString card "brand" |> <| pm_last4 := cardString card "last4" |>
                        <| pm_expMonth := cardNumber card "exp_month" |> <| pm_expYear := cardNumber card "exp_year" |>);
      mret tt
  end.

Definition projectDefaultMethod (amb : Ambient) (attribution : StripeAttribution) (object : Json) : Tx World unit :=
  let defaultPaymentMethodId := referenceId (field (jget "invoice_settings" object) "default_payment_method") in
  _ ← sc_updateMany amb (attributionOwner attribution)
        (fun m => attributionWhere attribution (pm_userId m) && pm_isDefault m) (fun m => m <| pm_isDefault := false |>);
  match defaultPaymentMethodId with
  | None => mret tt
  | Some id =>
      _ ← sc_updateMany amb (attributionOwner attribution)
            (fun m => attributionWhere attribution (pm_userId m) && (pm_stripePaymentMethodId m === id)
                      && is_null (pm_detachedAt m)) (fun m => m <| pm_isDefault := true |>);
      mret tt
  end.

Definition projectRefunded (amb : Ambient) (attribution : StripeAttribution) (object : Json)
    (cursor : StripeProjectionCursor) : Tx World unit :=
  match referenceId (jget "payment_intent" object) with
  | None => mret tt
  | Some paymentIntentId =>
      _ ← upsertPayment amb attribution
        (mkPaymentInput paymentIntentId None (stringValue (jget "id" object)) "refunded"
           (numberValue (jget "amount" object)) (numberValue (jget "amount_refunded" object))
           (stringValue (jget "currency" object))) cursor;
      mret tt
  end.

(** [if (attribution && condition) { ... }] *)
Definition attributed (attribution : option StripeAttribution) (condition : bool)
    (body : StripeAttribution -> Tx World unit) : Tx World unit :=
  match attribution with Some a => if condition then body a else mret tt | None => mret tt end.

(** The body of the transaction. *)
Definition projectEvent (amb : Ambient) (webhookEventId eventType : string) (object : Json)
    (savedPaymentMethod : option Json) (cursor : StripeProjectionCursor) : Tx World unit :=
  attribution ← attributionForStripeObject object;
  (if isPaymentIntent eventType then projectChargeableItem amb object else mret tt);;
  attributed attribution (isPaymentIntent eventType || (eventType === "checkout.session.completed"))
    (fun a => projectPayment amb a eventType object cursor);;
  attributed attribution (is_set savedPaymentMethod)
    (fun a => projectAttachedPaymentMethod amb a (savedPaymentMethod ??? JNull));;
  (if eventType === "payment_method.detached" then projectDetached amb object else mret tt);;
  (if (eventType === "payment_method.updated") || (eventType === "payment_method.automatically_updated")
   then projectCardUpdate amb object else mret tt);;
  attributed attribution (eventType === "customer.updated") (fun a => projectDefaultMethod amb a object);;
  attributed attribution (startsWith eventType "customer.subscription.")
    (fun a => projectSubscription amb a object cursor);;
  attributed attribution (eventType === "charge.refunded") (fun a => projectRefunded amb a object cursor);;
  _ ← tx_update (fun e => swe_id e === webhookEventId)
        (fun e => e <| swe_status := Swe_PROCESSED |> <| swe_processedAt := Some (nowMs amb) |> <| swe_lastError := None |>);
  mret tt.

(** [for (let attempt = 0; attempt < 2; attempt += 1)]: one retry of a unique-key collision. *)
Definition projectWithRetry (contention : Contention) (body : Tx World unit) : Proc World unit :=
  try_catch (execute contention 0 body)
    (fun error => if uniqueViolation error then execute contention 1 body else throw error).

Definition savedMethodId (eventType : string) (object : Json) : option string :=
  if (eventType === "setup_intent.succeeded")
     || ((eventType === "payment_intent.succeeded")
         && match jget "setup_future_usage" object with Some (JStr s) => s === "off_session" | _ => false end)
  then referenceId (jget "payment_method" object) else None.

Definition processStoredStripeEvent (contention : Contention) (amb : Ambient) (webhookEventId : string)
    (stripeClient : option StripeClient) : Proc World unit :=
  stored ← transact (e ← tx_findFirst (fun e => swe_id e === webhookEventId);
                     tx_require e (Failure "Stripe webhook event not found"));
  eventObject ← lift (match objectFromEvent (swe_payload stored) with
                      | Some o => Ok o
                      | None => Err (Failure "Stripe webhook payload is malformed")
                      end);
  current ← retrieveCurrentStripeObject (swe_type stored) eventObject stripeClient;
  let object := fst current in
  savedPaymentMethod ← (match savedMethodId (swe_type stored) object, stripeClient with
                        | Some id, Some client =>
                            m ← provider (mkCall "paymentMethods.retrieve" None (JStr id)) (retrieve_object client "paymentMethods" id);
                            mret (Some m)
                        | _, _ => mret None
                        end : Proc World (option Json));
  projectWithRetry contention
    (projectEvent amb webhookEventId (swe_type stored) object savedPaymentMethod
       (mkCursor (swe_stripeEventId stored) (swe_stripeCreatedAt stored) (snd current))).
End Webhooks.
