(* ===== verification/StripeSpec.v ===== *)
(** * Billing: what is promised

    The life of a chargeable item refines the claim specification [claim_step], whatever the
    interleaving of charges and webhooks; a charge asks Stripe for the server's price; and payment
    projections depend on the newest event, not on the order of arrival. *)

From Stdlib Require Import ZArith Lia Bool Permutation.
From stdpp Require Import relations.
From S2P Require Import Prelude Store Database JsString JsonText Platform Request TenantScope AuditTrail Outbox Idempotency Stripe StripeCharges StripeWebhooks.

Open Scope string_scope.

(** ** The claim on a chargeable item *)

Inductive Claim :=
  | Free
  | Claimed (key intent : option string)
  | Paid (key intent : option string)
  | Closed (status : ChargeableStatus).

(** An intent may be attached where none is, or where it is the one attached. *)
Definition attachable (intent : option string) (p : string) : Prop := intent = None \/ intent = Some p.

(** The abstract specification: a free item is claimed under one key; only that key's claim attaches
    an intent, is paid, or is given up; a payment is final. *)
Inductive claim_step : Claim -> Claim -> Prop :=
  | cl_claim k : claim_step Free (Claimed (Some k) None)
  | cl_attach k o p : attachable o p -> claim_step (Claimed (Some k) o) (Claimed (Some k) (Some p))
  | cl_pay k o p : attachable o p -> claim_step (Claimed (Some k) o) (Paid (Some k) (Some p))
  | cl_paid k o p : attachable o p -> claim_step (Paid (Some k) o) (Paid (Some k) (Some p))
  | cl_release k o p : attachable o p -> claim_step (Claimed (Some k) o) Free.

Definition claimOf (i : ChargeableItem) : Claim :=
  match item_status i with
  | Item_OPEN => Free
  | Item_RESERVED => Claimed (item_reservationKeyHash i) (item_paymentIntentId i)
  | Item_CONSUMED => Paid (item_reservationKeyHash i) (item_paymentIntentId i)
  | s => Closed s
  end.

(** What is sold, and to whom, never moves. *)
Definition sameItem (i i' : ChargeableItem) : Prop :=
  item_id i' = item_id i /\ item_organizationId i' = item_organizationId i /\ item_userId i' = item_userId i
  /\ item_reference i' = item_reference i /\ item_amount i' = item_amount i
  /\ item_currency i' = item_currency i /\ item_description i' = item_description i.

Lemma paid_stays k p c : rtc claim_step (Paid k (Some p)) c -> c = Paid k (Some p).
Proof.
  intros Hs. remember (Paid k (Some p)) as c0 eqn:He. induction Hs as [c|c c1 c2 H1 _ IH]; [done|].
  subst c. inversion H1 as [| | |k0 o0 p0 Ha He2 He3|]; subst.
  destruct Ha as [|Ha]; [done|]. injection Ha as ->. by apply IH.
Qed.

(** An open item carries no intent: what [claimOf] forgets of it. *)
Definition openClean (i : ChargeableItem) : Prop := item_status i = Item_OPEN -> item_paymentIntentId i = None.

Definition item_path (i i' : ChargeableItem) : Prop :=
  sameItem i i' /\ (openClean i -> openClean i' /\ rtc claim_step (claimOf i) (claimOf i')).

#[export] Instance item_path_refl : Reflexive item_path.
Proof. intros i. split; [by repeat split|]. intros Ho. split; [done|apply rtc_refl]. Qed.
#[export] Instance item_path_trans : Transitive item_path.
Proof.
  intros i j k [Hij Hcij] [Hjk Hcjk]. split.
  - unfold sameItem in *. intuition congruence.
  - intros Hi. destruct (Hcij Hi) as [Hj H1]. destruct (Hcjk Hj) as [Hk H2]. split; [done|by etrans].
Qed.

Lemma path_step i i' : sameItem i i' -> (openClean i -> openClean i' /\ claim_step (claimOf i) (claimOf i')) -> item_path i i'.
Proof. intros Hs Hc. split; [done|]. intros Ho. destruct (Hc Ho). split; [done|by apply rtc_once]. Qed.

Lemma unpaidOr_attachable p i : unpaidOr p i = true -> attachable (item_paymentIntentId i) p.
Proof.
  unfold unpaidOr, attachable. intros [H|H]%orb_true_iff; [left|right].
  - by destruct (item_paymentIntentId i).
  - by apply bool_decide_eq_true in H.
Qed.

Section Claims.
Context `{Platform}.

(** What any request, worker or other part of the program does, a committed statement at a time. *)
Inductive item_step : World -> World -> Prop :=
  | is_reserve amb id key n w w' : reserveStatement amb id key w = Ok (n, w') -> item_step w w'
  | is_record amb id key p succeeded n w w' :
      recordStatement amb id key p succeeded w = Ok (n, w') -> item_step w w'
  | is_webhook amb p id key status n w w' :
      projectStatus amb p id key status w = Ok (n, w') -> item_step w w'
  | is_create amb o i i' w w' : sc_create (R := ChargeableItem) amb o i w = Ok (i', w') -> item_step w w'
  | is_elsewhere w w' : chargeableItems w' = chargeableItems w -> item_step w w'.

Notation items_evolve := (evolves item_path).

Lemma scoped_update_evolves amb o P f n w w' :
  (forall i, P i = true -> item_path i (f i)) ->
  sc_updateMany (R := ChargeableItem) amb o P f w = Ok (n, w') -> items_evolve (chargeableItems w) (chargeableItems w').
Proof.
  intros Hf. unfold sc_updateMany. intros Hr. tx_inv Hr. apply updateMany_ok in Hr as [_ ->].
  apply (evolves_updateWhere item_path); [|apply (evolves_refl item_path)].
  intros i Hi. apply andb_true_iff in Hi as [_ Hi]. apply andb_true_iff in Hi as [_ Hi]. auto.
Qed.

Lemma scoped_update_unique_evolves amb o P f n w w' :
  (forall i, P i = true -> item_path i (f i)) ->
  sc_updateMany_unique (R := ChargeableItem) amb o P f w = Ok (n, w') ->
  items_evolve (chargeableItems w) (chargeableItems w').
Proof.
  intros Hf. unfold sc_updateMany_unique. intros Hr. tx_inv Hr. unfold tx_updateMany_unique in Hr.
  destruct (clashes _ _ _); [done|]. injection Hr as _ <-.
  apply (evolves_updateWhere item_path); [|apply (evolves_refl item_path)].
  intros i Hi. apply andb_true_iff in Hi as [_ Hi]. apply andb_true_iff in Hi as [_ Hi]. auto.
Qed.

(** The three answers of the webhook. *)
Lemma webhook_path amb p id key status n w w' : projectStatus amb p id key status w = Ok (n, w') ->
  items_evolve (chargeableItems w) (chargeableItems w').
Proof.
  unfold projectStatus. case_bool_decide; [|case_bool_decide];
    apply scoped_update_unique_evolves; intros i Hi; unfold itemOf in Hi;
    apply andb_true_iff in Hi as [Hi Hu]; apply unpaidOr_attachable in Hu;
    apply andb_true_iff in Hi as [Hi Hex]; apply andb_true_iff in Hi as [_ Hk]; bools;
    cbn in Hex; (apply path_step; [by repeat split|]); intros Ho; unfold openClean, claimOf; cbn; rewrite ?Hk.
  - split; [done|]. destruct (item_status i) eqn:Es; try done.
    + by apply cl_pay with (o := item_paymentIntentId i).
    + by apply cl_paid with (o := item_paymentIntentId i).
  - split; [done|]. destruct (item_status i) eqn:Es; try done.
    by apply cl_release with (o := item_paymentIntentId i) (p := p).
  - destruct (item_status i) eqn:Es; try done. split; [done|]. by apply cl_attach.
Qed.

Lemma reserve_path amb id key n w w' : reserveStatement amb id key w = Ok (n, w') ->
  items_evolve (chargeableItems w) (chargeableItems w').
Proof.
  apply scoped_update_evolves. intros i Hi. bools. apply path_step; [by repeat split|].
  intros Ho. split; [done|]. unfold claimOf. cbn. rewrite (Ho H1), H1. apply cl_claim.
Qed.

Lemma record_path amb id key p succeeded n w w' : recordStatement amb id key p succeeded w = Ok (n, w') ->
  items_evolve (chargeableItems w) (chargeableItems w').
Proof.
  apply scoped_update_unique_evolves. intros i Hi. apply andb_true_iff in Hi as [Hi Hu].
  apply unpaidOr_attachable in Hu. bools. apply path_step; [by destruct succeeded; repeat split|].
  intros _. unfold openClean, claimOf. destruct succeeded; cbn; rewrite H2, H1.
  - split; [done|]. by apply cl_pay with (o := item_paymentIntentId i).
  - split; [congruence|]. by apply cl_attach.
Qed.

Lemma step_path w w' : item_step w w' -> items_evolve (chargeableItems w) (chargeableItems w').
Proof.
  destruct 1 as [amb id key n w w' Hr|amb id key p ok n w w' Hr|amb p id key st n w w' Hr|amb o i i' w w' Hr|w w' ->].
  - by eapply reserve_path.
  - by eapply record_path.
  - by eapply webhook_path.
  - unfold sc_create in Hr. tx_inv Hr. apply create_ok in Hr as (_ & -> & _).
    apply evolves_app, (evolves_refl item_path).
  - apply (evolves_refl item_path).
Qed.

Lemma steps_path w w' i : rtc item_step w w' -> In i (chargeableItems w) ->
  exists i', In i' (chargeableItems w') /\ item_path i i'.
Proof.
  intros Hs. revert i. induction Hs as [w|w w1 w' H1 _ IH]; intros i Hi; [by exists i|].
  destruct (evolves_In _ _ _ i (step_path _ _ H1) Hi) as (j & Hj & Hij).
  destruct (IH j Hj) as (k & Hk & Hjk). exists k. split; [done|by etrans].
Qed.

(** C22: The chargeable item refines the claim specification. However the reservations of charges, the
    recording of their payments and the projections of payment-intent webhooks interleave, over any
    number of requests, every item that was there is still there with the same owner, price and
    reference, and its status, reservation key and payment intent moved along [claim_step]: it is
    claimed by one key at a time, only that key's claim is paid or given up, and once it is paid by an
    intent it stays paid by that intent. *)
Theorem item_refines_claim w w' i : rtc item_step w w' -> In i (chargeableItems w) -> openClean i ->
  exists i', In i' (chargeableItems w') /\ sameItem i i' /\ openClean i'
    /\ rtc claim_step (claimOf i) (claimOf i')
    /\ forall k p, claimOf i = Paid k (Some p) -> claimOf i' = Paid k (Some p).
Proof.
  intros Hs Hi Ho. destruct (steps_path w w' i Hs Hi) as (i' & Hi' & Hsame & Hp).
  destruct (Hp Ho) as [Ho' Hc]. exists i'. repeat (split; [done|]).
  intros k p He. rewrite He in Hc. by apply paid_stays.
Qed.
End Claims.

Section Witness.
Definition demoItem : ChargeableItem :=
  mkChargeableItem "item-1" (Some "org-1") None "invoice-7" 2500 "usd" "Invoice 7" Item_OPEN None None None None None None.
Definition demoItems : World := emptyWorld <| chargeableItems := [demoItem] |>.
Definition demoRequest (t : Z) : Ambient := mkAmbient t (Some (Request "r" (Some "u1") (Some "org-1"))).
Definition background (t : Z) : Ambient := mkAmbient t (Some (Unscoped "webhook")).
Local Existing Instance demoPlatform.

(** A charge reserves the item and records its intent; the webhook reports it paid. *)
Example item_refines_claim_witness : exists w w1 w2,
  snd <$> (match reserveStatement (demoRequest 10) "item-1" "key" demoItems with Ok r => Some r | _ => None end) = Some w1
  /\ snd <$> (match recordStatement (demoRequest 11) "item-1" "key" "pi_1" false w1 with Ok r => Some r | _ => None end) = Some w2
  /\ snd <$> (match projectStatus (background 12) "pi_1" "item-1" "key" "succeeded" w2 with Ok r => Some r | _ => None end) = Some w
  /\ (claimOf <$> chargeableItems w) = [Paid (Some "key") (Some "pi_1")]
  /\ exists i', In i' (chargeableItems w) /\ sameItem demoItem i' /\ openClean i'
    /\ rtc claim_step (claimOf demoItem) (claimOf i')
    /\ forall k p, claimOf demoItem = Paid k (Some p) -> claimOf i' = Paid k (Some p).
Proof.
  destruct (reserveStatement (demoRequest 10) "item-1" "key" demoItems) as [[n1 w1]|] eqn:E1; [|discriminate E1].
  destruct (recordStatement (demoRequest 11) "item-1" "key" "pi_1" false w1) as [[n2 w2]|] eqn:E2.
  2: { revert E2. vm_compute in E1. injection E1 as _ <-. vm_compute. discriminate. }
  destruct (projectStatus (background 12) "pi_1" "item-1" "key" "succeeded" w2) as [[n3 w3]|] eqn:E3.
  2: { revert E3. vm_compute in E1. injection E1 as _ <-. vm_compute in E2. injection E2 as _ <-. vm_compute. discriminate. }
  exists w3, w1, w2. rewrite E2, E3. split; [done|]. split; [done|]. split; [done|]. split.
  - revert E3. vm_compute in E1. injection E1 as _ <-. vm_compute in E2. injection E2 as _ <-.
    intros E3. vm_compute in E3. injection E3 as _ <-. done.
  - apply (item_refines_claim demoItems w3 demoItem); [|by left|done].
    eapply rtc_l; [by eapply is_reserve|]. eapply rtc_l; [by eapply is_record|].
    eapply rtc_l; [by eapply is_webhook|]. apply rtc_refl.
Defined.
End Witness.
