(* ===== verification/EnvConfig.v ===== *)
(** * The validated environment

    config/env.ts: the list and map fields the schema reads from text, the field formats the services
    rely on, and [superRefine], the checks across fields. [Config] is the part the services read;
    [Env] adds the fields only the checks read. An issue is a path and a message; the environment is
    accepted when there is none. The formats zod itself checks (URLs, ports, ranges) are not modelled. *)

From Stdlib Require Import ZArith Lia Bool.
From S2P Require Import Prelude JsString JsonText Store Database Platform TenantScope.

Open Scope string_scope.

Record Issue := mkIssue { issue_path : string; issue_message : string }.

(** ** Fields read from text *)

Definition commaSeparatedList (value : string) : list string :=
  unique (List.filter (fun s => negb (s === EmptyString)) (List.map trim (split "," value))).

Definition mimeTypeList (value : string) : list string :=
  unique (List.filter (fun s => negb (s === EmptyString)) (List.map (fun item => toLowerCase (trim item)) (split "," value))).

Definition isLower (c : ascii) : bool := (97 <=? code_of c)%nat && (code_of c <=? 122)%nat.
Definition isAlnum (c : ascii) : bool := isDigit c || isUpper c || isLower c.
Definition isWord (c : ascii) : bool := isAlnum c || (c === "_"%char) || (c === "-"%char).

(** [/^[a-zA-Z0-9_-]{1,32}$/] *)
Definition keyIdPattern (s : string) : bool :=
  (1 <=? String.length s)%nat && (String.length s <=? 32)%nat && str_forallb isWord s.

(** [/^[a-z][a-z0-9_-]{0,63}$/] *)
Definition stripeCatalogKeyPattern (s : string) : bool :=
  match s with
  | EmptyString => false
  | String c s' => isLower c && (String.length s' <=? 63)%nat
                   && str_forallb (fun c => isLower c || isDigit c || (c === "_"%char) || (c === "-"%char)) s'
  end.

(** [/^price_[A-Za-z0-9]+$/] *)
Definition stripePriceIdPattern (s : string) : bool :=
  startsWith s "price_" && (7 <=? String.length s)%nat && str_forallb isAlnum (drop_str 6 s).

(** [/^[a-z]{3}$/] *)
Definition currencyPattern (s : string) : bool := (String.length s =? 3)%nat && str_forallb isLower s.

(** A JSON object given as text: its entries, or the issue. An empty text is an empty object. *)
Definition jsonObject (value : string) : list (string * Json) * list Issue :=
  if trim value === EmptyString then ([], [])
  else match jsonParse value with
       | None => ([], [mkIssue "" "must be a valid JSON object"])
       | Some (JObj entries) => (entries, [])
       | Some _ => ([], [mkIssue "" "must be a JSON object"])
       end.

(** The entries a reader accepts, and an issue for each of the others. *)
Fixpoint readEntries {A} (read : string -> Json -> A + string) (entries : list (string * Json)) :
    list (string * A) * list Issue :=
  match entries with
  | [] => ([], [])
  | (k, v) :: rest =>
      let '(kept, issues) := readEntries read rest in
      match read k v with
      | inl a => ((k, a) :: kept, issues)
      | inr message => (kept, mkIssue "" message :: issues)
      end
  end.

Definition readObject {A} (read : string -> Json -> A + string) (value : string) : list (string * A) * list Issue :=
  let '(entries, issues) := jsonObject value in
  let '(kept, more) := readEntries read entries in (kept, (issues ++ more)%list).

Definition cryptoKeyring : string -> list (string * string) * list Issue :=
  readObject (fun keyId secret =>
    match secret with
    | JStr s => if keyIdPattern keyId && (32 <=? String.length s)%nat then inl s
                else inr "must map safe key IDs to secrets of at least 32 characters"
    | _ => inr "must map safe key IDs to secrets of at least 32 characters"
    end).

Definition stripePriceCatalog : string -> list (string * string) * list Issue :=
  readObject (fun key priceId =>
    if negb (stripeCatalogKeyPattern key) then inr ("contains invalid catalogue key " ++ jsonString key)
    else match priceId with
         | JStr p => if stripePriceIdPattern p then inl p
                     else inr ("catalogue key " ++ jsonString key ++ " must map to a Stripe Price ID")
         | _ => inr ("catalogue key " ++ jsonString key ++ " must map to a Stripe Price ID")
         end).

Definition refundAmountLimits : string -> list (string * Z) * list Issue :=
  readObject (fun currency amount =>
    match amount with
    | JNum n => if currencyPattern currency && (1 <=? n)%Z then inl n
                else inr "must map lowercase ISO currency codes to positive minor-unit integers"
    | _ => inr "must map lowercase ISO currency codes to positive minor-unit integers"
    end).

(** ** The checks across fields *)

Inductive NodeEnv := Node_development | Node_test | Node_production.
#[export] Instance NodeEnv_eq_dec : EqDecision NodeEnv.
Proof. solve_decision. Defined.

Record Env := mkEnv {
  config : Config;
  NODE_ENV : NodeEnv; HOST : string; PORT : Z; WORKER_CHANNELS : list string;
  METRICS_ENABLED : bool; METRICS_HOST : string; METRICS_API_PORT : Z; METRICS_WORKER_PORT : Z;
  METRICS_BEARER_TOKEN : string; UPLOAD_SCAN_WEBHOOK_URL : string; UPLOAD_SCAN_WEBHOOK_AUTH_TOKEN : string;
  EMAIL_PROVIDER : string; SMTP_HOST : string; SMTP_USER : string; SMTP_PASSWORD : string;
  SMS_PROVIDER : string; TWILIO_ACCOUNT_SID : string; TWILIO_AUTH_TOKEN : string; TWILIO_FROM : string;
  PUSH_PROVIDER : string; FIREBASE_SERVICE_ACCOUNT_JSON : string; STRIPE_SECRET_KEY : string;
  S3_BUCKET : string; S3_REGION : string; AWS_ACCESS_KEY_ID : string; AWS_SECRET_ACCESS_KEY : string
}.

Definition given (s : string) : bool := negb (s === EmptyString).
Definition hasOwn {A} (k : string) (l : list (string * A)) : bool := is_set (assoc k l).

(** [if (condition) context.addIssue(...)] *)
Definition issueIf (condition : bool) (path message : string) : list Issue :=
  if condition then [mkIssue path message] else [].

(** [for (const key of keys) if (!config[key]) ...] *)
Definition required (fields : list (string * string)) (message : string) : list Issue :=
  List.flat_map (fun kv => issueIf (negb (given (snd kv))) (fst kv) message) fields.

Section Refine.
Variable e : Env.
Let c := config e.
Let production := NODE_ENV e === Node_production.
Let s3 := UPLOAD_PROVIDER c === UploadSetting_s3.

Definition platformIssues : list Issue :=
  (issueIf ((0 <? TRUST_PROXY_HOPS c)%nat && negb (length (TRUST_PROXY_CIDRS c) =? 0)%nat) "TRUST_PROXY_CIDRS"
     "cannot be combined with TRUST_PROXY_HOPS; choose one explicit trust model"
   ++ issueIf (negb (length (CRYPTO_KEYRING c) =? 0)%nat && negb (hasOwn (CRYPTO_ACTIVE_KEY_ID c) (CRYPTO_KEYRING c)))
        "CRYPTO_ACTIVE_KEY_ID" "must identify a key present in CRYPTO_KEYRING"
   ++ issueIf ((BILLING_OWNER c === Billing_organization) && (TENANCY_MODE c === Tenancy_disabled)) "BILLING_OWNER"
        "cannot be organization while TENANCY_MODE=disabled; no organization exists"
   ++ issueIf (UPLOAD_SCAN_MODE_webhook c && negb (given (UPLOAD_SCAN_WEBHOOK_URL e))) "UPLOAD_SCAN_WEBHOOK_URL"
        "is required when UPLOAD_SCAN_MODE=webhook"
   ++ issueIf (production && UPLOAD_SCAN_MODE_webhook c && (String.length (UPLOAD_SCAN_WEBHOOK_AUTH_TOKEN e) <? 32)%nat)
        "UPLOAD_SCAN_WEBHOOK_AUTH_TOKEN"
        "must be at least 32 characters for the upload scanner webhook in production"
   ++ issueIf (METRICS_ENABLED e && (METRICS_API_PORT e =? PORT e)%Z && (METRICS_HOST e === HOST e)) "METRICS_API_PORT"
        "must differ from PORT/HOST; metrics are served on a separate listener"
   ++ issueIf (METRICS_ENABLED e && (METRICS_API_PORT e =? METRICS_WORKER_PORT e)%Z) "METRICS_WORKER_PORT"
        "must differ from METRICS_API_PORT when processes share a network namespace"
   ++ issueIf (production && METRICS_ENABLED e && negb (mem (METRICS_HOST e) ["127.0.0.1"; "::1"; "localhost"])
               && (String.length (METRICS_BEARER_TOKEN e) <? 32)%nat) "METRICS_BEARER_TOKEN"
        "must be at least 32 characters for a non-loopback production metrics listener"
   ++ issueIf ((COOKIE_SAME_SITE c === "none") && negb (COOKIE_SECURE c)) "COOKIE_SECURE"
        "must be true when COOKIE_SAME_SITE=none")%list.

Definition providerIssues : list Issue :=
  (List.flat_map (fun cp => issueIf (mem (fst cp) (WORKER_CHANNELS e) && (snd cp === "disabled"))
                              (fst cp ++ "_PROVIDER") ("cannot be disabled while WORKER_CHANNELS includes " ++ fst cp))
     [("EMAIL", EMAIL_PROVIDER e); ("SMS", SMS_PROVIDER e); ("PUSH", PUSH_PROVIDER e)]
   ++ (if EMAIL_PROVIDER e === "smtp"
       then required [("SMTP_HOST", SMTP_HOST e); ("SMTP_USER", SMTP_USER e); ("SMTP_PASSWORD", SMTP_PASSWORD e)]
              "is required for SMTP email" else [])
   ++ (if SMS_PROVIDER e === "twilio"
       then required [("TWILIO_ACCOUNT_SID", TWILIO_ACCOUNT_SID e); ("TWILIO_AUTH_TOKEN", TWILIO_AUTH_TOKEN e);
                      ("TWILIO_FROM", TWILIO_FROM e)] "is required for Twilio SMS" else [])
   ++ issueIf ((PUSH_PROVIDER e === "firebase") && negb (given (FIREBASE_SERVICE_ACCOUNT_JSON e)))
        "FIREBASE_SERVICE_ACCOUNT_JSON" "is required for Firebase push"
   ++ issueIf (given (EMAIL_UNSUBSCRIBE_URL c) && negb (startsWith (toLowerCase (trim (EMAIL_UNSUBSCRIBE_URL c))) "https:"))
        "EMAIL_UNSUBSCRIBE_URL" "must use HTTPS before one-click List-Unsubscribe-Post can be emitted")%list.

Definition billingIssues : list Issue :=
  (issueIf (BILLING_ENABLED c && (negb (given (STRIPE_SECRET_KEY e)) || negb (given (STRIPE_WEBHOOK_SECRET c))))
     (if negb (given (STRIPE_SECRET_KEY e)) then "STRIPE_SECRET_KEY" else "STRIPE_WEBHOOK_SECRET")
     "is required when BILLING_ENABLED=true"
   ++ issueIf (BILLING_ENABLED c && (length (STRIPE_PRICE_CATALOG c) =? 0)%nat) "STRIPE_PRICE_CATALOG"
        "must contain at least one server-owned price when Stripe is enabled"
   ++ issueIf (given (STRIPE_DEFAULT_PRICE_KEY c) && negb (hasOwn (STRIPE_DEFAULT_PRICE_KEY c) (STRIPE_PRICE_CATALOG c)))
        "STRIPE_DEFAULT_PRICE_KEY" "must reference a key in STRIPE_PRICE_CATALOG"
   ++ (if DYNAMIC_PRICING_ENABLED c then
         issueIf (length (CHARGE_ALLOWED_CURRENCIES c) =? 0)%nat "CHARGE_ALLOWED_CURRENCIES"
           "must list at least one currency when dynamic pricing is enabled"
         ++ List.flat_map (fun currency =>
              issueIf (negb (hasOwn currency (CHARGE_MAX_AMOUNT_BY_CURRENCY c))) "CHARGE_MAX_AMOUNT_BY_CURRENCY"
                ("must define an upper bound for " ++ currency ++ " when dynamic pricing is enabled"))
              (CHARGE_ALLOWED_CURRENCIES c)
       else [])
   ++ issueIf (REFUND_SELF_SERVICE_ENABLED c && (length (REFUND_MAX_AMOUNT_BY_CURRENCY c) =? 0)%nat)
        "REFUND_MAX_AMOUNT_BY_CURRENCY"
        "must define at least one currency limit when self-service refunds are enabled")%list.

Definition uploadIssues : list Issue :=
  ((if s3 then
      required [("S3_BUCKET", S3_BUCKET e); ("S3_REGION", S3_REGION e)] "is required for S3 uploads"
      ++ issueIf (negb (Bool.eqb (given (AWS_ACCESS_KEY_ID e)) (given (AWS_SECRET_ACCESS_KEY e))))
           (if given (AWS_ACCESS_KEY_ID e) then "AWS_SECRET_ACCESS_KEY" else "AWS_ACCESS_KEY_ID")
           "must be set together with the other AWS credential field"
    else [])
   ++ (if UPLOAD_PROVIDER c === UploadSetting_cloudinary then
         required [("CLOUDINARY_CLOUD_NAME", CLOUDINARY_CLOUD_NAME c); ("CLOUDINARY_API_KEY", CLOUDINARY_API_KEY c);
                   ("CLOUDINARY_API_SECRET", CLOUDINARY_API_SECRET c)] "is required for Cloudinary uploads"
       else [])
   ++ issueIf (UPLOAD_DOWNLOAD_MODE_redirect c && negb s3) "UPLOAD_DOWNLOAD_MODE"
        "redirect requires the S3 provider because its download signatures expire")%list.

Definition documentTypes : list string :=
  ["application/pdf"; "application/msword";
   "application/vnd.openxmlformats-officedocument.wordprocessingml.document"].

Definition productionRequirements : list (string * bool) :=
  ([("COOKIE_SECURE", COOKIE_SECURE c); ("AUDIT_INTEGRITY_SECRET", (32 <=? String.length (AUDIT_INTEGRITY_SECRET c))%nat)]
   ++ (if (EMAIL_PROVIDER e === "log") && mem "EMAIL" (WORKER_CHANNELS e) then [("EMAIL_PROVIDER", false)] else [])
   ++ (if EMAIL_PROVIDER e === "smtp"
       then [("EMAIL_EVENT_WEBHOOK_SECRET", (32 <=? String.length (EMAIL_EVENT_WEBHOOK_SECRET c))%nat);
             ("EMAIL_UNSUBSCRIBE_URL", given (EMAIL_UNSUBSCRIBE_URL c))] else [])
   ++ (if (SMS_PROVIDER e === "log") && mem "SMS" (WORKER_CHANNELS e) then [("SMS_PROVIDER", false)] else [])
   ++ (if (PUSH_PROVIDER e === "log") && mem "PUSH" (WORKER_CHANNELS e) then [("PUSH_PROVIDER", false)] else []))%list.

Definition productionIssues : list Issue :=
  (issueIf (existsb (fun m => mem m documentTypes) (UPLOAD_ALLOWED_MIME_TYPES c) && negb (UPLOAD_SCAN_MODE_webhook c))
     "UPLOAD_SCAN_MODE" "must be webhook in production when PDF or document uploads are allowed (malware/CDR)"
   ++ List.flat_map (fun kv => issueIf (negb (snd kv)) (fst kv) "is required and must be secure in production")
        productionRequirements)%list.

Definition superRefine : list Issue :=
  (platformIssues ++ providerIssues ++ billingIssues ++ uploadIssues
   ++ if production then productionIssues else [])%list.
End Refine.

(** ** [parseEnv] *)

(** The texts of the fields read above. *)
Record Texts := mkTexts {
  text_keyring : string; text_catalog : string; text_currencies : string; text_chargeMin : string;
  text_chargeMax : string; text_refundMax : string; text_mimeTypes : string; text_proxies : string;
  text_allowlist : string
}.

Definition readTexts (t : Texts) (c : Config) : Config * list Issue :=
  let '(ring, i1) := cryptoKeyring (text_keyring t) in
  let '(catalogue, i2) := stripePriceCatalog (text_catalog t) in
  let '(minimum, i3) := refundAmountLimits (text_chargeMin t) in
  let '(maximum, i4) := refundAmountLimits (text_chargeMax t) in
  let '(refunds, i5) := refundAmountLimits (text_refundMax t) in
  (c <| CRYPTO_KEYRING := ring |> <| STRIPE_PRICE_CATALOG := catalogue |>
     <| CHARGE_ALLOWED_CURRENCIES := commaSeparatedList (text_currencies t) |>
     <| CHARGE_MIN_AMOUNT_BY_CURRENCY := minimum |> <| CHARGE_MAX_AMOUNT_BY_CURRENCY := maximum |>
     <| REFUND_MAX_AMOUNT_BY_CURRENCY := refunds |> <| UPLOAD_ALLOWED_MIME_TYPES := mimeTypeList (text_mimeTypes t) |>
     <| TRUST_PROXY_CIDRS := commaSeparatedList (text_proxies t) |>
     <| RATE_LIMIT_ALLOWLIST_CIDRS := commaSeparatedList (text_allowlist t) |>,
   i1 ++ i2 ++ i3 ++ i4 ++ i5)%list.

(** The formats the schema gives the secrets and the active key. *)
Definition formats (c : Config) : bool :=
  (32 <=? String.length (JWT_ACCESS_SECRET c))%nat && (32 <=? String.length (TOKEN_HASH_SECRET c))%nat
  && (32 <=? String.length (COOKIE_SECRET c))%nat && keyIdPattern (CRYPTO_ACTIVE_KEY_ID c).

(** ["environment"] stands for an empty path. *)
Definition issueText (i : Issue) : string :=
  (if issue_path i === EmptyString then "environment" else issue_path i) ++ ": " ++ issue_message i.

#[export] Instance Env_eta : Eta Env := fun r => mkEnv (config r) (NODE_ENV r) (HOST r) (PORT r) (WORKER_CHANNELS r)
    (METRICS_ENABLED r) (METRICS_HOST r) (METRICS_API_PORT r) (METRICS_WORKER_PORT r) (METRICS_BEARER_TOKEN r)
    (UPLOAD_SCAN_WEBHOOK_URL r) (UPLOAD_SCAN_WEBHOOK_AUTH_TOKEN r) (EMAIL_PROVIDER r) (SMTP_HOST r) (SMTP_USER r)
    (SMTP_PASSWORD r) (SMS_PROVIDER r) (TWILIO_ACCOUNT_SID r) (TWILIO_AUTH_TOKEN r) (TWILIO_FROM r) (PUSH_PROVIDER r)
    (FIREBASE_SERVICE_ACCOUNT_JSON r) (STRIPE_SECRET_KEY r) (S3_BUCKET r) (S3_REGION r) (AWS_ACCESS_KEY_ID r)
    (AWS_SECRET_ACCESS_KEY r).

(** [zodIssues] is what zod reports of the fields' own formats. *)
Definition parseEnv (zodIssues : Env -> list Issue) (source : Env) (t : Texts) : res Env :=
  let '(c, issues) := readTexts t (config source) in
  let e := source <| config := c |> in
  match (zodIssues e ++ issues ++ superRefine e)%list with
  | [] => Ok e
  | all => Err (Failure ("Invalid environment configuration: " ++ join "; " (List.map issueText all)))
  end.

(** ** What acceptance gives *)

Lemma issueIf_nil b p m : issueIf b p m = [] <-> b = false.
Proof. by destruct b. Qed.
Lemma app_nil {A} (l k : list A) : (l ++ k)%list = [] <-> l = [] /\ k = [].
Proof. split; [apply List.app_eq_nil|by intros [-> ->]]. Qed.
Lemma flat_map_nil {A B} (f : A -> list B) l : List.flat_map f l = [] <-> forall x, In x l -> f x = [].
Proof.
  induction l as [|a l IH]; cbn; [by split|]. rewrite app_nil, IH.
  split; [intros [H1 H2] x [->|Hx]; auto|intros Hf; auto].
Qed.

(** Entries that were kept satisfy what the reader checks of them. *)
Lemma readEntries_In {A} (read : string -> Json -> A + string) entries k a :
  In (k, a) (fst (readEntries read entries)) -> exists v, read k v = inl a.
Proof.
  induction entries as [|[k' v] rest IH]; cbn; [done|]. destruct (readEntries read rest) as [kept issues].
  destruct (read k' v) as [b|m] eqn:E; cbn; [|done]. intros [He|Hin]; [|auto]. simplify_eq. eauto.
Qed.
Lemma readObject_In {A} (read : string -> Json -> A + string) value k a :
  In (k, a) (fst (readObject read value)) -> exists v, read k v = inl a.
Proof.
  unfold readObject. destruct (jsonObject value) as [entries issues].
  pose proof (readEntries_In read entries k a) as Hr. by destruct (readEntries read entries).
Qed.

Lemma keyring_entry value k s : In (k, s) (fst (cryptoKeyring value)) ->
  keyIdPattern k = true /\ 32 <= String.length s.
Proof.
  intros (v & Hv)%readObject_In. destruct v; try done. destruct (_ && _) eqn:E; [|done].
  injection Hv as ->. bools. done.
Qed.
Lemma catalog_entry value k p : In (k, p) (fst (stripePriceCatalog value)) -> p <> EmptyString.
Proof.
  intros (v & Hv)%readObject_In. destruct (negb _); [done|]. destruct v; try done.
  destruct (stripePriceIdPattern s) eqn:E; [|done]. injection Hv as ->. by intros ->.
Qed.
Lemma limit_entry value k n : In (k, n) (fst (refundAmountLimits value)) -> currencyPattern k = true /\ (1 <= n)%Z.
Proof.
  intros (v & Hv)%readObject_In. destruct v; try done. destruct (_ && _) eqn:E; [|done].
  injection Hv as ->. by bools.
Qed.

Lemma isWord_no_dot c : isWord c = true -> (c === "."%char) = false.
Proof. by destruct c as [[] [] [] [] [] [] [] []]. Qed.
Lemma keyId_no_dot s : keyIdPattern s = true -> noChar "." s = true.
Proof.
  unfold keyIdPattern, noChar. intros [_ Hs]%andb_true_iff. induction s as [|c s IH]; [done|]. cbn in Hs.
  apply andb_true_iff in Hs as [Hc Hs]. cbn. rewrite (isWord_no_dot c Hc). auto.
Qed.

Lemma readTexts_fields t c c' issues : readTexts t c = (c', issues) ->
  CRYPTO_KEYRING c' = fst (cryptoKeyring (text_keyring t))
  /\ STRIPE_PRICE_CATALOG c' = fst (stripePriceCatalog (text_catalog t))
  /\ CHARGE_MAX_AMOUNT_BY_CURRENCY c' = fst (refundAmountLimits (text_chargeMax t))
  /\ REFUND_MAX_AMOUNT_BY_CURRENCY c' = fst (refundAmountLimits (text_refundMax t)).
Proof.
  unfold readTexts. destruct (cryptoKeyring _), (stripePriceCatalog _), (refundAmountLimits (text_chargeMin t)),
    (refundAmountLimits (text_chargeMax t)), (refundAmountLimits (text_refundMax t)).
  intros [= <- _]. done.
Qed.

Lemma hasOwn_ok {A} k (l : list (string * A)) : negb (hasOwn k l) = false -> exists a, assoc k l = Some a.
Proof. unfold hasOwn. destruct (assoc k l); [eauto|done]. Qed.

(** What the services rely on of the part of the environment they read. *)
Record validConfig (c : Config) : Prop := {
  valid_keyring : forall P : Platform, env = c -> keyringValid;
  valid_activeKey : noChar "." (CRYPTO_ACTIVE_KEY_ID c) = true;
  valid_price : STRIPE_DEFAULT_PRICE_KEY c <> EmptyString -> exists price,
    assoc (STRIPE_DEFAULT_PRICE_KEY c) (STRIPE_PRICE_CATALOG c) = Some price /\ price <> EmptyString;
  valid_charges : DYNAMIC_PRICING_ENABLED c = true -> CHARGE_ALLOWED_CURRENCIES c <> [] /\
    forall currency, In currency (CHARGE_ALLOWED_CURRENCIES c) -> exists maximum,
      assoc currency (CHARGE_MAX_AMOUNT_BY_CURRENCY c) = Some maximum /\ (1 <= maximum)%Z;
  valid_refunds : REFUND_SELF_SERVICE_ENABLED c = true -> exists currency limit,
    assoc currency (REFUND_MAX_AMOUNT_BY_CURRENCY c) = Some limit /\ (1 <= limit)%Z;
  valid_tenancy : BILLING_OWNER c = Billing_organization -> TENANCY_MODE c <> Tenancy_disabled;
  valid_proxies : TRUST_PROXY_HOPS c = 0 \/ TRUST_PROXY_CIDRS c = [];
  valid_downloads : UPLOAD_DOWNLOAD_MODE_redirect c = true -> UPLOAD_PROVIDER c = UploadSetting_s3
}.

(** What a production environment adds. *)
Definition productionReady (c : Config) : Prop :=
  COOKIE_SECURE c = true /\ 32 <= String.length (AUDIT_INTEGRITY_SECRET c)
  /\ forall m, In m (UPLOAD_ALLOWED_MIME_TYPES c) -> In m documentTypes -> UPLOAD_SCAN_MODE_webhook c = true.

Lemma platform_ok e : platformIssues e = [] ->
  (CRYPTO_KEYRING (config e) = [] \/ exists s, assoc (CRYPTO_ACTIVE_KEY_ID (config e)) (CRYPTO_KEYRING (config e)) = Some s)
  /\ (BILLING_OWNER (config e) = Billing_organization -> TENANCY_MODE (config e) <> Tenancy_disabled)
  /\ (TRUST_PROXY_HOPS (config e) = 0 \/ TRUST_PROXY_CIDRS (config e) = []).
Proof.
  unfold platformIssues. rewrite !app_nil, !issueIf_nil. intros (H1 & H2 & H3 & _). split; [|split].
  - destruct (CRYPTO_KEYRING (config e)) as [|x ring]; [by left|]. right. by apply hasOwn_ok.
  - intros Hb Ht. rewrite Hb, Ht in H3. done.
  - destruct (TRUST_PROXY_HOPS (config e)); [by left|]. right. by destruct (TRUST_PROXY_CIDRS (config e)).
Qed.

Lemma billing_ok e : billingIssues e = [] ->
  (STRIPE_DEFAULT_PRICE_KEY (config e) <> EmptyString ->
     exists p, assoc (STRIPE_DEFAULT_PRICE_KEY (config e)) (STRIPE_PRICE_CATALOG (config e)) = Some p)
  /\ (DYNAMIC_PRICING_ENABLED (config e) = true -> CHARGE_ALLOWED_CURRENCIES (config e) <> [] /\
        forall currency, In currency (CHARGE_ALLOWED_CURRENCIES (config e)) ->
          exists m, assoc currency (CHARGE_MAX_AMOUNT_BY_CURRENCY (config e)) = Some m)
  /\ (REFUND_SELF_SERVICE_ENABLED (config e) = true -> REFUND_MAX_AMOUNT_BY_CURRENCY (config e) <> []).
Proof.
  unfold billingIssues. rewrite !app_nil, !issueIf_nil. intros (_ & _ & H1 & H2 & H3). split; [|split].
  - intros Hk. apply andb_false_iff in H1 as [H1|H1]; [|by apply hasOwn_ok].
    unfold given in H1. by rewrite bd_ne in H1.
  - intros Hd. rewrite Hd in H2. apply app_nil in H2 as [H2 H4]. rewrite issueIf_nil in H2. split.
    + by destruct (CHARGE_ALLOWED_CURRENCIES (config e)).
    + intros cur Hc. rewrite flat_map_nil in H4. specialize (H4 cur Hc).
      rewrite issueIf_nil in H4. by apply hasOwn_ok.
  - intros Hr. rewrite Hr in H3. by destruct (REFUND_MAX_AMOUNT_BY_CURRENCY (config e)).
Qed.

Lemma production_ok e : productionIssues e = [] -> productionReady (config e).
Proof.
  unfold productionIssues. rewrite app_nil, issueIf_nil, flat_map_nil. intros [H1 H2]. split; [|split].
  - specialize (H2 ("COOKIE_SECURE", COOKIE_SECURE (config e)) (or_introl eq_refl)).
    rewrite issueIf_nil in H2. by apply negb_false_iff in H2.
  - specialize (H2 ("AUDIT_INTEGRITY_SECRET", _) (or_intror (or_introl eq_refl))).
    rewrite issueIf_nil in H2. apply negb_false_iff in H2. by apply Nat.leb_le in H2.
  - intros m Hm Hd. destruct (UPLOAD_SCAN_MODE_webhook (config e)); [done|]. rewrite andb_true_r in H1.
    rewrite <- H1. apply existsb_exists. exists m. split; [done|]. by apply mem_In.
Qed.


Section Witness.
(** JSON text written with apostrophes. *)
Definition quoted (s : string) : string := str_map (fun c => if (code_of c =? 39)%nat then dquote else c) s.
Definition demoSecret : string := replicate_str 32 "s"%char.
Definition demoTexts : Texts := mkTexts (quoted "{'k2':'ssssssssssssssssssssssssssssssss'}") (quoted "{'pro':'price_1'}")
  "usd, eur,usd" "" (quoted "{'usd':100000,'eur':90000}") (quoted "{'usd':5000}") "image/png,Application/PDF" "" "10.0.0.0/8".
Definition demoSource : Env :=
  mkEnv (demoConfig <| JWT_ACCESS_SECRET := demoSecret |> <| TOKEN_HASH_SECRET := demoSecret |>
           <| COOKIE_SECRET := demoSecret |> <| AUDIT_INTEGRITY_SECRET := demoSecret |> <| COOKIE_SECURE := true |>)
    Node_production "0.0.0.0" 4000 ["INTERNAL"] false "" 1 2 "" "https://scan" demoSecret
    "disabled" "" "" "" "disabled" "" "" "" "disabled" "" "sk_live" "bucket" "eu" "" "".
Definition demoZod (e : Env) : list Issue :=
  issueIf (negb (formats (config e))) "JWT_ACCESS_SECRET" "Too small: expected string to have >=32 characters".

Lemma demo_currencies : match parseEnv demoZod demoSource demoTexts with
  | Ok e => CHARGE_ALLOWED_CURRENCIES (config e) = ["usd"; "eur"] | Err _ => False end.
Proof. vm_compute. reflexivity. Qed.

End Witness.
