(* ===== verification/UploadStorage.v ===== *)
(** * Object storage

    modules/uploads/uploads.provider.ts: the adapter interface, and its S3 and Cloudinary
    implementations over the S3 SDK ([S3Client]) and [fetch], which answer from the number of requests
    sent so far. Timeouts are answers. Bytes are strings. *)

From Stdlib Require Import ZArith Lia Bool.
From S2P Require Import Prelude JsString JsonText Store Database Platform Request.

Open Scope string_scope.

Record ObjectRef := mkObjectRef {
  or_objectKey : string; or_contentType : string; or_visibility : option UploadVisibility
}.
Record UploadDirective := mkUploadDirective {
  dir_method : string; dir_url : string; dir_headers : list (string * string);
  dir_fields : list (string * string); dir_expiresAt : Z
}.
Record StoredObjectMetadata := mkStored {
  so_size : Z; so_contentType : option string; so_checksum : option string; so_url : option string
}.
Record DownloadedObject := mkDownloaded {
  do_body : string; do_contentLength : option Z; do_contentType : option string
}.
Record DirectDownload := mkDirectDownload { dd_url : string; dd_expiresAt : Z }.

Record UploadProviderAdapter := mkUploadProviderAdapter {
  providerKind : UploadProvider;
  createUpload : ObjectRef -> Z -> Proc World UploadDirective;
  inspectObject : ObjectRef -> Proc World StoredObjectMetadata;
  createDownloadUrl : ObjectRef -> Proc World string;
  createDirectDownload : option (ObjectRef -> string -> Z -> Proc World DirectDownload);
  openDownload : ObjectRef -> Proc World DownloadedObject;
  readObjectPrefix : ObjectRef -> nat -> Proc World string;
  deleteObject : ObjectRef -> Proc World unit
}.

(** The SDK's commands and presigner: bucket, key and, where there is one, the range or the header. *)
Record HeadResult := mkHead {
  hd_ContentLength : option Z; hd_ContentType : option string; hd_ChecksumSHA256 : option string;
  hd_ETag : option string
}.
Record GetResult := mkGet { gt_Body : option string; gt_ContentLength : option Z; gt_ContentType : option string }.
Record S3Client := mkS3Client {
  s3_head : string -> string -> nat -> res HeadResult;
  s3_get : string -> string -> option string -> nat -> res GetResult;
  s3_delete : string -> string -> nat -> res unit;
  getSignedUrl : Json -> Z -> nat -> res string
}.

(** A response of [fetch]: its body as JSON when it is JSON, and as bytes. *)
Record HttpResponse := mkHttpResponse {
  hr_ok : bool; hr_status : Z; hr_json : option Json; hr_body : option string;
  hr_contentLength : option Z; hr_contentType : option string
}.
Definition Fetch := string -> Json -> nat -> res HttpResponse.

(** [value?.split(';', 1)[0]?.trim().toLowerCase()] *)
Definition mediaType (value : option string) : option string :=
  (fun v => toLowerCase (trim (List.hd EmptyString (split ";" v)))) <$> value.

(** Quotation marks removed. *)
Definition unquote (s : string) : string := str_filter (fun c => negb (code_of c =? 34)%nat) s.

Definition upperHex (n : nat) : string := str1 (if (n <? 10)%nat then 48 + n else 55 + n)%nat.
Definition unreserved (c : ascii) : bool :=
  let n := code_of c in
  isDigit c || isUpper c || ((97 <=? n)%nat && (n <=? 122)%nat)
  || existsb (fun m => (n =? m)%nat) [45; 95; 46; 33; 126; 42; 39; 40; 41]%nat.
Fixpoint encodeURIComponent (s : string) : string :=
  match s with
  | EmptyString => EmptyString
  | String c s' => (if unreserved c then String c EmptyString
                    else "%" ++ upperHex (code_of c / 16) ++ upperHex (code_of c mod 16)) ++ encodeURIComponent s'
  end.

(** [`bytes=0-${Math.max(0, maxBytes - 1)}`] *)
Definition byteRange (maxBytes : nat) : string := "bytes=0-" ++ show (Z.of_nat (maxBytes - 1)).

Section Storage.
Context `{Platform}.

(** ** S3 *)

Section S3.
Variables (amb : Ambient) (S3_BUCKET : string) (client : S3Client).

Definition putCommand (input : ObjectRef) (size : Z) : Json :=
  JObj [("Bucket", JStr S3_BUCKET); ("Key", JStr (or_objectKey input)); ("ContentType", JStr (or_contentType input));
        ("ContentLength", JNum size); ("IfNoneMatch", JStr "*")].
Definition getCommand (input : ObjectRef) (extra : list (string * Json)) : Json :=
  JObj ([("Bucket", JStr S3_BUCKET); ("Key", JStr (or_objectKey input))] ++ extra)%list.

Definition signed (command : Json) (seconds : Z) : Proc World string :=
  provider (mkCall "s3.getSignedUrl" None command) (getSignedUrl client command seconds).

Definition createS3UploadProvider : UploadProviderAdapter := {|
  providerKind := UpP_S3;
  createUpload input size :=
    url ← signed (putCommand input size) (UPLOAD_URL_TTL_SECONDS env);
    mret (mkUploadDirective "PUT" url
      [("content-type", or_contentType input); ("content-length", show size); ("if-none-match", "*")] []
      (nowMs amb + UPLOAD_URL_TTL_SECONDS env * 1000));
  inspectObject input :=
    result ← provider (mkCall "s3.HeadObject" None (JStr (or_objectKey input))) (s3_head client S3_BUCKET (or_objectKey input));
    mret (mkStored (hd_ContentLength result ??? 0%Z) (mediaType (hd_ContentType result))
            (match hd_ChecksumSHA256 result with Some c => Some c | None => unquote <$> hd_ETag result end) None);
  createDownloadUrl input := signed (getCommand input []) (UPLOAD_URL_TTL_SECONDS env);
  createDirectDownload := Some (fun input filename expiresInSeconds =>
    url ← signed (getCommand input
      [("ResponseContentType", JStr (or_contentType input));
       ("ResponseContentDisposition", JStr ("attachment; filename*=UTF-8''" ++ encodeURIComponent filename))]) expiresInSeconds;
    mret (mkDirectDownload url (nowMs amb + expiresInSeconds * 1000)));
  openDownload input :=
    result ← provider (mkCall "s3.GetObject" None (JStr (or_objectKey input))) (s3_get client S3_BUCKET (or_objectKey input) None);
    match gt_Body result with
    | None => throw (errors.notFound "Uploaded object is unavailable")
    | Some body => mret (mkDownloaded body (gt_ContentLength result) (mediaType (gt_ContentType result)))
    end;
  readObjectPrefix input maxBytes :=
    result ← provider (mkCall "s3.GetObject" None (JStr (or_objectKey input)))
               (s3_get client S3_BUCKET (or_objectKey input) (Some (byteRange maxBytes)));
    match gt_Body result with
    | None => throw (errors.notFound "Uploaded object is unavailable")
    | Some body => mret (take_str maxBytes body)
    end;
  deleteObject input :=
    provider (mkCall "s3.DeleteObject" None (JStr (or_objectKey input))) (s3_delete client S3_BUCKET (or_objectKey input))
|}.
End S3.

(** ** Cloudinary *)

Definition cloudinaryResourceType (contentType : string) : string :=
  if startsWith contentType "image/" then "image" else "raw".

(** The printed value of a parameter: strings as they are, numbers in decimal, booleans as words. *)
Definition parameterText (v : Json) : string :=
  match v with
  | JStr s => s | JNum n => show n | JBool b => if b then "true" else "false" | _ => EmptyString
  end.

(** [localeCompare] orders the parameter names, which are lower-case words, as their characters do. *)
Definition cloudinarySignature (parameters : list (string * Json)) (secret : string) : string :=
  let entries := List.filter (fun kv => match snd kv with JStr s => negb (s === EmptyString) | _ => true end) parameters in
  sha1Hex (join "&" (List.map (fun kv => fst kv ++ "=" ++ parameterText (snd kv)) (sortEntries entries)) ++ secret).

Definition marker : string := "/authenticated/".

Definition signedCloudinaryDeliveryUrl (value secret : string) : res string :=
  match parseUrl value with
  | None => Err (TypeError "Invalid URL")
  | Some url =>
      match String.index 0 marker (url_pathname url) with
      | None => Ok value
      | Some index =>
          let cut := (index + String.length marker)%nat in
          let suffix := drop_str cut (url_pathname url) in
          let signature := take_str 8 (sha1Base64url (suffix ++ secret)) in
          Ok (url_origin url ++ take_str cut (url_pathname url) ++ "s--" ++ signature ++ "--/" ++ suffix ++ url_rest url)
      end
  end.

Section Cloudinary.
Variables (amb : Ambient) (fetch : Fetch).

Definition cloudinaryError (value : Json) : string :=
  match jget "error" value with
  | Some nested => match jget "message" nested with Some (JStr m) => m | _ => "Cloudinary request failed" end
  | None => "Cloudinary request failed"
  end.

Definition cloudinaryJson (url : string) (init : Json) : Proc World Json :=
  response ← provider (mkCall url None init) (fetch url init);
  let value := hr_json response ??? JObj [] in
  if negb (hr_ok response) then throw (errors.serviceUnavailable (cloudinaryError value)) else mret value.

Definition cloudinaryInspect (basicAuthorization : string) (input : ObjectRef) : Proc World StoredObjectMetadata :=
  value ← cloudinaryJson
    ("https://api.cloudinary.com/v1_1/" ++ CLOUDINARY_CLOUD_NAME env ++ "/resources/"
     ++ cloudinaryResourceType (or_contentType input) ++ "/authenticated/" ++ encodeURIComponent (or_objectKey input))
    (JObj [("method", JStr "GET"); ("headers", JObj [("authorization", JStr basicAuthorization)])]);
  mret (mkStored (match jget "bytes" value with Some (JNum n) => n | _ => 0%Z end) None
          (match jget "etag" value with Some (JStr e) => Some e | _ => None end)
          (match jget "secure_url" value with Some (JStr u) => Some u | _ => None end)).

(** The signed URL of the object, or the error its absence is. *)
Definition cloudinaryUrl (basicAuthorization : string) (input : ObjectRef) (missing : Error) :
    Proc World (string * StoredObjectMetadata) :=
  metadata ← cloudinaryInspect basicAuthorization input;
  if negb (truthy (so_url metadata)) then throw missing
  else
    url ← transact (tx_lift (signedCloudinaryDeliveryUrl (so_url metadata ??? EmptyString) (CLOUDINARY_API_SECRET env)));
    mret (url, metadata).

Definition cloudinaryUpload (timestamp : Z) (input : ObjectRef) : UploadDirective :=
  let parameters := [("public_id", JStr (or_objectKey input)); ("timestamp", JNum timestamp); ("overwrite", JBool false);
                     ("unique_filename", JBool false); ("type", JStr "authenticated")] in
  mkUploadDirective "POST"
    ("https://api.cloudinary.com/v1_1/" ++ CLOUDINARY_CLOUD_NAME env ++ "/"
     ++ cloudinaryResourceType (or_contentType input) ++ "/upload") []
    [("api_key", CLOUDINARY_API_KEY env); ("public_id", or_objectKey input); ("timestamp", show timestamp);
     ("overwrite", "false"); ("unique_filename", "false"); ("type", "authenticated");
     ("signature", cloudinarySignature parameters (CLOUDINARY_API_SECRET env))]
    ((timestamp + UPLOAD_URL_TTL_SECONDS env) * 1000).

Definition cloudinaryDestroy (timestamp : Z) (input : ObjectRef) : Proc World unit :=
  let parameters := [("public_id", JStr (or_objectKey input)); ("timestamp", JNum timestamp); ("type", JStr "authenticated")] in
  _ ← cloudinaryJson
    ("https://api.cloudinary.com/v1_1/" ++ CLOUDINARY_CLOUD_NAME env ++ "/"
     ++ cloudinaryResourceType (or_contentType input) ++ "/destroy")
    (JObj [("method", JStr "POST");
           ("body", JObj [("public_id", JStr (or_objectKey input)); ("timestamp", JStr (show timestamp));
                          ("api_key", JStr (CLOUDINARY_API_KEY env)); ("type", JStr "authenticated");
                          ("signature", JStr (cloudinarySignature parameters (CLOUDINARY_API_SECRET env)))])]);
  mret tt.

(** [Number(header ?? metadata.size) || undefined] *)
Definition positiveLength (header : option Z) (size : Z) : option Z :=
  let n := header ??? size in if (n =? 0)%Z then None else Some n.

Definition createCloudinaryUploadProvider (basicAuthorization : string) : UploadProviderAdapter :=
  let timestamp := (nowMs amb / 1000)%Z in {|
  providerKind := UpP_CLOUDINARY;
  createUpload input _ := mret (cloudinaryUpload timestamp input);
  inspectObject := cloudinaryInspect basicAuthorization;
  createDownloadUrl input :=
    r ← cloudinaryUrl basicAuthorization input (errors.serviceUnavailable "Cloudinary asset URL is unavailable"); mret (fst r);
  createDirectDownload := None;
  openDownload input :=
    r ← cloudinaryUrl basicAuthorization input (errors.notFound "Uploaded object is unavailable");
    response ← provider (mkCall (fst r) None JNull) (fetch (fst r) JNull);
    match hr_body response with
    | Some body =>
        if negb (hr_ok response) then throw (errors.serviceUnavailable "Unable to read uploaded object")
        else mret (mkDownloaded body (positiveLength (hr_contentLength response) (so_size (snd r)))
                     (mediaType (hr_contentType response)))
    | None => throw (errors.serviceUnavailable "Unable to read uploaded object")
    end;
  readObjectPrefix input maxBytes :=
    r ← cloudinaryUrl basicAuthorization input (errors.notFound "Uploaded object is unavailable");
    let init := JObj [("headers", JObj [("range", JStr (byteRange maxBytes))])] in
    response ← provider (mkCall (fst r) None init) (fetch (fst r) init);
    if negb (hr_ok response) then throw (errors.serviceUnavailable "Unable to read quarantined upload")
    else mret (take_str maxBytes (hr_body response ??? EmptyString));
  deleteObject := cloudinaryDestroy timestamp
|}.
End Cloudinary.

Definition createUploadProvider (amb : Ambient) (S3_BUCKET : string) (client : S3Client) (fetch : Fetch)
    (basicAuthorization : string) : option UploadProviderAdapter :=
  match UPLOAD_PROVIDER env with
  | UploadSetting_s3 => Some (createS3UploadProvider amb S3_BUCKET client)
  | UploadSetting_cloudinary => Some (createCloudinaryUploadProvider amb fetch basicAuthorization)
  | UploadSetting_disabled => None
  end.
End Storage.

(** ** What an adapter promises the services

    It talks to its storage and leaves the tables alone: whatever holds of the state regardless of the
    provider calls on record still holds after any of its operations. *)
Definition quiet {A} (p : Proc World A) : Prop := forall I : World -> Prop,
  (forall w call, I w -> I (w <| calls ::= fun l => (l ++ [call])%list |>)) -> proc_pres I p.

Class OutsideStore (a : UploadProviderAdapter) := {
  createUpload_quiet : forall input size, quiet (createUpload a input size);
  inspectObject_quiet : forall input, quiet (inspectObject a input);
  createDownloadUrl_quiet : forall input, quiet (createDownloadUrl a input);
  createDirectDownload_quiet : forall f input filename seconds,
    createDirectDownload a = Some f -> quiet (f input filename seconds);
  openDownload_quiet : forall input, quiet (openDownload a input);
  readObjectPrefix_quiet : forall input n, quiet (readObjectPrefix a input n);
  deleteObject_quiet : forall input, quiet (deleteObject a input)
}.

Section Quiet.
Context `{Platform}.

Lemma quiet_ret {A} (x : A) : quiet (mret x).
Proof. intros I _. apply pres_proc_ret. Qed.
Lemma quiet_throw {A} e : quiet (A := A) (throw e).
Proof. intros I _. apply pres_proc_throw. Qed.
Lemma quiet_bind {A B} (m : Proc World A) (k : A -> Proc World B) : quiet m -> (forall x, quiet (k x)) -> quiet (m ≫= k).
Proof. intros Hm Hk I HI. apply pres_proc_bind; [by apply Hm|]. intros x. by apply Hk. Qed.
Lemma quiet_provider {A} call (answer : nat -> res A) : quiet (provider call answer).
Proof. intros I HI. apply pres_provider. intros w. apply HI. Qed.
Lemma quiet_lift {A} (r : res A) : quiet (transact (tx_lift r)).
Proof. intros I _. apply pres_transact, pres_lift. Qed.
End Quiet.

Ltac quiet := repeat first
  [ apply quiet_ret | apply quiet_throw | apply quiet_provider | apply quiet_lift
  | apply quiet_bind; [|intros ?] | case_match ].

#[export] Instance S3_outside `{Platform} amb bucket client : OutsideStore (createS3UploadProvider amb bucket client).
Proof. split; cbn; intros; simplify_eq; unfold signed; quiet. Qed.

#[export] Instance Cloudinary_outside `{Platform} amb fetch basic : OutsideStore (createCloudinaryUploadProvider amb fetch basic).
Proof. split; cbn; intros; simplify_eq; unfold cloudinaryUrl, cloudinaryDestroy, cloudinaryInspect, cloudinaryJson; quiet. Qed.
