(* ===== verification/Uploads.v ===== *)
(** * Uploads

    modules/uploads/uploads.service.ts and upload-security.ts: a reservation against the storage quota,
    the quarantine of what was uploaded, its scan, downloads against the bandwidth quota, deletion. A
    transaction that starts by taking an advisory lock is one atomic step, as the lock makes it for the
    requests of the same scope. *)

From Stdlib Require Import ZArith Lia Bool.
From S2P Require Import Prelude Store Database JsString JsonText Pagination Platform Request TenantScope AuditTrail Sessions Outbox UploadStorage.

Open Scope string_scope.

(** ** upload-security.ts *)

Definition bytes (l : list nat) : string := List.fold_right (fun n s => String (chr n) s) EmptyString l.

(** The files whose first bytes are known. *)
Definition signatures : list (string * (string -> bool)) :=
  [("image/jpeg", fun b => take_str 3 b === bytes [255; 216; 255]);
   ("image/png", fun b => take_str 8 b === bytes [137; 80; 78; 71; 13; 10; 26; 10]);
   ("image/webp", fun b => (take_str 4 b === "RIFF") && (take_str 4 (drop_str 8 b) === "WEBP"));
   ("application/pdf", fun b => take_str 5 b === "%PDF-")].

Definition detectContentType (b : string) : option string :=
  fst <$> List.find (fun s => snd s b) signatures.

Definition includes (s part : string) : bool := is_set (String.index 0 part s).

Definition requiresDocumentCdr (contentType : string) : bool :=
  (contentType === "application/pdf") || includes contentType "word" || includes contentType "officedocument".

Record ScanInput := mkScanInput {
  sc_uploadId : string; sc_filename : string; sc_contentType : string; sc_size : Z;
  sc_checksum : option string; sc_sourceUrl : string
}.
Record ScanResult := mkScanResult { scan_verdict : string; scan_provider : string; scan_reference : option string }.

Definition SIGNATURE_PREFIX_BYTES : nat := 16.

(** The statuses whose size counts against the quota. *)
Definition occupying (s : UploadStatus) : bool :=
  match s with Up_PENDING | Up_QUARANTINED | Up_SCANNING | Up_READY => true | _ => false end.

(** [_sum: { expectedSize: true }] *)
Definition sumSizes (l : list Upload) : Z := List.fold_right (fun u n => (up_expectedSize u + n)%Z) 0%Z l.

Record InitiateInput := mkInitiateInput {
  ini_filename : string; ini_contentType : string; ini_size : Z; ini_visibility : UploadVisibility
}.

Definition refOf (u : Upload) : ObjectRef := mkObjectRef (up_objectKey u) (up_contentType u) (Some (up_visibility u)).

(** What a download answers: a redirect, or the bytes through the API. *)
Inductive Delivery :=
  | Redirect (direct : DirectDownload) (filename contentType : string) (contentLength : Z)
  | Proxy (download : DownloadedObject) (filename contentType : string) (contentLength : Z).

(** [Date.UTC(year, month, 1)] of an instant. *)
Definition monthStart (t : Z) : Z :=
  let '(_, _, d) := civil (t / DAY)%Z in ((t / DAY - (d - 1)) * DAY)%Z.

Section Uploads.
Context `{Platform}.
(** The scanner's address and token, and [fetch]. *)
Variables (UPLOAD_SCAN_WEBHOOK_URL UPLOAD_SCAN_WEBHOOK_AUTH_TOKEN : string) (fetch : Fetch).

Definition scanUpload (input : ScanInput) : Proc World ScanResult :=
  if negb (UPLOAD_SCAN_MODE_webhook env) then mret (mkScanResult "CLEAN" "signature-only" None)
  else
    let init := JObj [("method", JStr "POST");
      ("headers", JObj (("content-type", JStr "application/json")
                        :: (if UPLOAD_SCAN_WEBHOOK_AUTH_TOKEN === EmptyString then []
                            else [("authorization", JStr ("Bearer " ++ UPLOAD_SCAN_WEBHOOK_AUTH_TOKEN))])));
      ("body", JObj ([("uploadId", JStr (sc_uploadId input)); ("filename", JStr (sc_filename input));
                      ("contentType", JStr (sc_contentType input)); ("size", JNum (sc_size input))]
                     ++ match sc_checksum input with Some c => [("checksum", JStr c)] | None => [] end
                     ++ [("sourceUrl", JStr (sc_sourceUrl input));
                         ("cdrRequired", JBool (requiresDocumentCdr (sc_contentType input)))])%list)] in
    response ← provider (mkCall UPLOAD_SCAN_WEBHOOK_URL None init) (fetch UPLOAD_SCAN_WEBHOOK_URL init);
    if negb (hr_ok response) then throw (Failure ("Upload scanner returned HTTP " ++ show (hr_status response)))
    else match hr_json response with
         | None => throw (Failure "Unexpected token in JSON")
         | Some result =>
             match jget "verdict" result with
             | Some (JStr verdict) =>
                 if (verdict === "CLEAN") || (verdict === "MALICIOUS")
                 then mret (mkScanResult verdict "webhook"
                              (match jget "reference" result with Some (JStr r) => Some r | _ => None end))
                 else throw (Failure "Upload scanner returned an invalid verdict")
             | _ => throw (Failure "Upload scanner returned an invalid verdict")
             end
         end.

(** ** uploads.service.ts *)

Definition requireProvider (p : option UploadProviderAdapter) : res UploadProviderAdapter :=
  match p with Some a => Ok a | None => Err (errors.serviceUnavailable "File uploads are not configured") end.

(** The year and the month of [toISOString]. *)
Definition objectKey (amb : Ambient) (userId id : string) : string :=
  let date := toISOString (nowMs amb) in
  userId ++ "/" ++ take_str 4 date ++ "/" ++ take_str 2 (drop_str 5 date) ++ "/" ++ id.

Definition activeOrganizationId (amb : Ambient) : option string := ambientOrganization amb.

Definition uploadQuotaScopeKey (amb : Ambient) (userId : string) : string :=
  if truthy (activeOrganizationId amb)
  then "organization:" ++ (activeOrganizationId amb ??? EmptyString) ++ ":user:" ++ userId
  else "user:" ++ userId.

Definition inUse (userId : string) (u : Upload) : bool := (up_userId u === userId) && occupying (up_status u).

(** The transaction that checks the quota and reserves the upload. *)
Definition reserveUpload (amb : Ambient) (userId : string) (input : InitiateInput) (provider : UploadProvider)
    (key : string) (expiresAt : Z) : Tx World Upload :=
  inScope ← tx_lift (scopeFilter (R := Upload) amb "aggregate" None);
  usage ← tx_findMany (fun u => inScope u && inUse userId u);
  if (UPLOAD_USER_STORAGE_QUOTA_BYTES env <? sumSizes usage + ini_size input)%Z
  then tx_throw (errors.forbidden "Per-user storage quota exceeded")
  else
    id ← newId;
    sc_create amb None
      (mkUpload id None userId provider Up_PENDING (ini_visibility input) key (ini_filename input) (ini_contentType input)
         (ini_size input) None None None None None None None None expiresAt None None (nowMs amb) (nowMs amb) None).

(** [@updatedAt]: every update through the client stamps the row. *)
Definition touch (amb : Ambient) (f : Upload -> Upload) (u : Upload) : Upload := (f u) <| up_updatedAt := nowMs amb |>.

Definition setUpload (amb : Ambient) (id : string) (f : Upload -> Upload) : Tx World Upload :=
  sc_update amb None (fun u => up_id u === id) (touch amb f).

Definition initiateUpload (amb : Ambient) (userId : string) (input : InitiateInput)
    (provider : option UploadProviderAdapter) : Proc World (Upload * UploadDirective) :=
  p ← transact (tx_lift (requireProvider provider));
  if negb (mem (ini_contentType input) (UPLOAD_ALLOWED_MIME_TYPES env))
  then throw (errors.badRequest "This file type is not allowed")
  else if (UPLOAD_MAX_BYTES env <? ini_size input)%Z
  then throw (errors.badRequest ("File exceeds the " ++ show (UPLOAD_MAX_BYTES env) ++ "-byte upload limit"))
  else
    keyId ← transact newId;
    let key := objectKey amb userId keyId in
    let expiresAt := (nowMs amb + UPLOAD_URL_TTL_SECONDS env * 1000)%Z in
    upload ← transact (reserveUpload amb userId input (providerKind p) key expiresAt);
    try_catch
      (directive ← createUpload p (mkObjectRef key (ini_contentType input) (Some (ini_visibility input))) (ini_size input);
       persisted ← (if negb (dir_expiresAt directive =? expiresAt)%Z
                    then transact (setUpload amb (up_id upload) (fun u => u <| up_uploadExpiresAt := dir_expiresAt directive |>))
                    else mret upload : Proc World Upload);
       mret (persisted, directive))
      (fun error =>
         _ ← transact (setUpload amb (up_id upload) (fun u => u <| up_status := Up_FAILED |>));
         throw error).

(** The object is removed and the upload refused. *)
Definition discard (amb : Ambient) (p : UploadProviderAdapter) (upload : Upload) (f : Upload -> Upload) (error : Error) :
    Proc World Upload :=
  _ ← deleteObject p (refOf upload);
  _ ← transact (setUpload amb (up_id upload) f);
  throw error.

Definition quarantined (stored : StoredObjectMetadata) (detected : option string) (u : Upload) : Upload :=
  u <| up_status := Up_QUARANTINED |> <| up_actualSize := Some (so_size stored) |> <| up_checksum ::= fun c =>
         match so_checksum stored with Some x => Some x | None => c end |>
    <| up_detectedContentType := detected |> <| up_url := None |>.

(** The audited transaction that puts what was uploaded in quarantine. *)
Definition quarantine (amb : Ambient) (userId : string) (upload : Upload) (stored : StoredObjectMetadata)
    (detected : option string) (metadata : RequestMetadata) : Tx World Upload :=
  _ ← sc_updateMany amb None
        (fun u => (up_id u === up_id upload) && (up_userId u === userId)
                  && ((up_status u === Up_PENDING) || (up_status u === Up_QUARANTINED)))
        (touch amb (quarantined stored detected));
  _ ← writeAuditEvent amb (auditMetadata metadata (Some userId) "upload.quarantined" "upload" (Some (up_id upload))
        (Some (JObj [("provider", JStr (match up_provider upload with UpP_S3 => "S3" | UpP_CLOUDINARY => "CLOUDINARY" end));
                     ("contentType", JStr (up_contentType upload)); ("size", JNum (so_size stored))])));
  u ← sc_findFirst amb None (fun u => up_id u === up_id upload);
  tx_require u (Known "P2025").

(** The verdict becomes the upload's status, in one audited transaction. *)
Definition finalizeUploadScan (amb : Ambient) (uploadId userId : string) (scan : ScanResult)
    (metadata : RequestMetadata) : Proc World Upload :=
  let accepted := scan_verdict scan === "CLEAN" in
  transact (
    _ ← setUpload amb uploadId (fun u =>
          u <| up_status := if accepted then Up_READY else Up_REJECTED |> <| up_scanProvider := Some (scan_provider scan) |>
            <| up_scanReference ::= fun r => match scan_reference scan with Some x => Some x | None => r end |>
            <| up_scanVerdict := Some (scan_verdict scan) |> <| up_scannedAt := Some (nowMs amb) |>
            <| up_readyAt := if accepted then Some (nowMs amb) else None |> <| up_url := None |>);
    _ ← writeAuditEvent amb (auditMetadata metadata (Some userId) (if accepted then "upload.ready" else "upload.rejected")
          "upload" (Some uploadId)
          (Some (JObj [("scanProvider", JStr (scan_provider scan)); ("verdict", JStr (scan_verdict scan))])));
    u ← sc_findFirst amb None (fun u => up_id u === uploadId);
    tx_require u (Known "P2025")).

Definition requestScan (amb : Ambient) (upload : Upload) (stored : StoredObjectMetadata) : Tx World Upload :=
  _ ← setUpload amb (up_id upload) (fun u => u <| up_status := Up_SCANNING |> <| up_scanVerdict := None |>);
  _ ← addOutboxEvent amb (mkOutboxInput "upload" (up_id upload) "upload.scan.requested" Ch_INTERNAL
        (JObj [("uploadId", JStr (up_id upload))])
        ("upload-scan:" ++ up_id upload ++ ":" ++ (so_checksum stored ??? show (so_size stored))) None
        (Some (nowMs amb + 24 * 60 * 60 * 1000)%Z));
  u ← sc_findFirst amb None (fun u => up_id u === up_id upload);
  tx_require u (Known "P2025").

(** What is next once the bytes are in quarantine. *)
Definition afterQuarantine (amb : Ambient) (userId : string) (upload quarantined : Upload) (stored : StoredObjectMetadata)
    (metadata : RequestMetadata) : Proc World Upload :=
  if negb (UPLOAD_SCAN_MODE_webhook env) then
    if requiresDocumentCdr (up_contentType upload) then mret quarantined
    else finalizeUploadScan amb (up_id upload) userId (mkScanResult "CLEAN" "signature-only" None) metadata
  else transact (requestScan amb upload stored).

Definition completeUpload (amb : Ambient) (userId uploadId : string) (metadata : RequestMetadata)
    (provider : option UploadProviderAdapter) : Proc World Upload :=
  p ← transact (tx_lift (requireProvider provider));
  upload ← transact (u ← sc_findFirst amb None (fun u => (up_id u === uploadId) && (up_userId u === userId));
                     tx_require u (errors.notFound "Upload not found"));
  if up_provider upload !== providerKind p
  then throw (errors.serviceUnavailable "The configured upload provider has changed")
  else if up_status upload === Up_READY then mret upload
  else if negb ((up_status upload === Up_PENDING) || (up_status upload === Up_QUARANTINED))
  then throw (errors.conflict "Upload cannot be completed")
  else
    stored ← inspectObject p (refOf upload);
    if negb (so_size stored =? up_expectedSize upload)%Z
       || (is_set (so_contentType stored) && (so_contentType stored !== Some (up_contentType upload)))
    then discard amb p upload (fun u => u <| up_status := Up_FAILED |>)
           (errors.badRequest "Uploaded file does not match the declared size or content type")
    else
      signaturePrefix ← readObjectPrefix p (refOf upload) SIGNATURE_PREFIX_BYTES;
      let detected := detectContentType signaturePrefix in
      if detected !== Some (up_contentType upload)
      then discard amb p upload
             (fun u => u <| up_status := Up_REJECTED |> <| up_detectedContentType := detected |>
                         <| up_scanVerdict := Some "SIGNATURE_MISMATCH" |>)
             (errors.badRequest "Uploaded file signature does not match the declared content type")
      else
        q ← transact (quarantine amb userId upload stored detected metadata);
        afterQuarantine amb userId upload q stored metadata.

(** A malicious object is deleted, and the deletion noted. *)
Definition deleteMalicious (amb : Ambient) (p : UploadProviderAdapter) (upload : Upload) : Proc World unit :=
  _ ← deleteObject p (refOf upload);
  _ ← transact (sc_updateMany amb None
        (fun u => (up_id u === up_id upload) && (up_status u === Up_REJECTED) && is_null (up_storageDeletedAt u))
        (touch amb (fun u => u <| up_storageDeletedAt := Some (nowMs amb) |>)));
  mret tt.

(** The request context the scan is finished under, and its metadata. *)
Definition scanContext (upload : Upload) : RequestContext :=
  Request ("worker:upload-scan:" ++ up_id upload) (Some (up_userId upload)) (up_organizationId upload).
Definition scanMetadata (upload : Upload) : RequestMetadata :=
  mkMetadata "internal" None ("worker:upload-scan:" ++ up_id upload).

Definition scanAndFinalize (amb : Ambient) (p : UploadProviderAdapter) (upload : Upload) : Proc World unit :=
  sourceUrl ← createDownloadUrl p (refOf upload);
  scan ← scanUpload (mkScanInput (up_id upload) (up_originalName upload) (up_contentType upload)
           (up_actualSize upload ??? up_expectedSize upload) (up_checksum upload) sourceUrl);
  _ ← runWithRequestContext (scanContext upload)
        (fun amb => finalizeUploadScan amb (up_id upload) (up_userId upload) scan (scanMetadata upload)) amb;
  if scan_verdict scan === "MALICIOUS" then deleteMalicious amb p upload else mret tt.

Definition processUploadScan (amb : Ambient) (uploadId : string) (provider : option UploadProviderAdapter) : Proc World unit :=
  p ← transact (tx_lift (requireProvider provider));
  found ← transact (sc_findFirst amb None (fun u => (up_id u === uploadId)
            && ((up_status u === Up_QUARANTINED) || (up_status u === Up_SCANNING) || (up_status u === Up_REJECTED))));
  match found with
  | None => mret tt
  | Some upload =>
      if up_provider upload !== providerKind p
      then throw (Failure ("Upload " ++ up_id upload ++ " belongs to unavailable provider "
                           ++ match up_provider upload with UpP_S3 => "S3" | UpP_CLOUDINARY => "CLOUDINARY" end))
      else if up_status upload === Up_REJECTED then
        if (up_scanVerdict upload === Some "MALICIOUS") && is_null (up_storageDeletedAt upload)
        then deleteMalicious amb p upload else mret tt
      else
        _ ← transact (sc_updateMany amb None
              (fun u => (up_id u === up_id upload) && ((up_status u === Up_QUARANTINED) || (up_status u === Up_SCANNING)))
              (touch amb (fun u => u <| up_status := Up_SCANNING |> <| up_scanVerdict := None |>)));
        try_catch (scanAndFinalize amb p upload)
          (fun error =>
             _ ← transact (sc_updateMany amb None (fun u => (up_id u === up_id upload) && (up_status u === Up_SCANNING))
                   (touch amb (fun u => u <| up_status := Up_QUARANTINED |> <| up_scanVerdict := Some "ERROR" |>)));
             throw error)
  end.

Definition listUploads (amb : Ambient) (userId : string) (input : CursorPaginationInput) : Proc World (CursorPage Upload) :=
  rows ← transact (sc_findMany amb None (fun u => up_userId u === userId));
  mret (cursorPage up_id (cpi_limit input) (fetchRows up_id (orderDescId up_createdAt up_id rows) (cursorQuery input))).

(** ** Downloads *)

(** A live message of a live conversation the user takes part in carries the upload. *)
Definition sharedThroughChat (userId uploadId : string) (w : World) (m : Message) : bool :=
  (msg_uploadId m === Some uploadId) && is_null (msg_deletedAt m)
  && existsb (fun c => (conv_id c === msg_conversationId m) && is_null (conv_deletedAt c)
       && existsb (fun q => (part_conversationId q === conv_id c) && (part_userId q === userId)
                            && is_null (part_leftAt q) && is_null (part_deletedAt q)) (conversationParticipants w))
       (conversations w).

Definition findDownload (amb : Ambient) (userId uploadId : string) : Proc World Upload :=
  upload ← transact (u ← sc_findFirst amb None (fun u => (up_id u === uploadId) && (up_status u === Up_READY));
                     tx_require u (errors.notFound "Upload not found"));
  if up_userId upload === userId then mret upload
  else
    shared ← transact (w ← tx_world; sc_findFirst amb None (sharedThroughChat userId (up_id upload) w));
    if is_set shared then mret upload else throw (errors.notFound "Upload not found").

Definition quotaExceeded : Error := errors.forbidden "Monthly download bandwidth quota exceeded".

Definition chargeQuota (amb : Ambient) (userId : string) (increment : Z) : Proc World unit :=
  let maximum := UPLOAD_USER_MONTHLY_BANDWIDTH_QUOTA_BYTES env in
  let scopeKey := uploadQuotaScopeKey amb userId in
  let periodStart := monthStart (nowMs amb) in
  try_catch
    (_ ← transact (id ← newId;
                   sc_create amb (Some (activeOrganizationId amb))
                     (mkUploadBandwidthUsage id (activeOrganizationId amb) userId scopeKey periodStart increment));
     mret tt)
    (fun error =>
       if negb (error === Known "P2002") then throw error
       else
         updated ← transact (sc_updateMany amb None
           (fun b => (bw_scopeKey b === scopeKey) && (bw_periodStart b =? periodStart)%Z
                     && (bw_bytes b <=? maximum - increment)%Z)
           (fun b => b <| bw_bytes ::= Z.add increment |>));
         if negb (updated =? 1)%nat then throw quotaExceeded else mret tt).

Definition deliver (amb : Ambient) (userId : string) (p : UploadProviderAdapter) (upload : Upload) (increment : Z) :
    Proc World Delivery :=
  if UPLOAD_DOWNLOAD_MODE_redirect env then
    match createDirectDownload p with
    | None => throw (errors.serviceUnavailable "Direct downloads are unavailable for this provider")
    | Some direct =>
        d ← direct (refOf upload) (up_originalName upload) (UPLOAD_DOWNLOAD_URL_TTL_SECONDS env);
        _ ← chargeQuota amb userId increment;
        mret (Redirect d (up_originalName upload) (up_contentType upload) increment)
    end
  else
    download ← openDownload p (refOf upload);
    _ ← chargeQuota amb userId increment;
    mret (Proxy download (up_originalName upload) (do_contentType download ??? up_contentType upload)
            (do_contentLength download ??? increment)).

Definition createUploadDownload (amb : Ambient) (userId uploadId : string) (provider : option UploadProviderAdapter) :
    Proc World Delivery :=
  p ← transact (tx_lift (requireProvider provider));
  upload ← findDownload amb userId uploadId;
  if up_provider upload !== providerKind p
  then throw (errors.serviceUnavailable "The configured upload provider has changed")
  else
    let increment := up_actualSize upload ??? up_expectedSize upload in
    if (UPLOAD_USER_MONTHLY_BANDWIDTH_QUOTA_BYTES env <? increment)%Z then throw quotaExceeded
    else deliver amb userId p upload increment.

Definition deleteUpload (amb : Ambient) (userId uploadId : string) (metadata : RequestMetadata)
    (provider : option UploadProviderAdapter) : Proc World unit :=
  p ← transact (tx_lift (requireProvider provider));
  upload ← transact (u ← sc_findFirst amb None (fun u => (up_id u === uploadId) && (up_userId u === userId));
                     tx_require u (errors.notFound "Upload not found"));
  if up_provider upload !== providerKind p
  then throw (errors.serviceUnavailable "The configured upload provider has changed")
  else
    _ ← deleteObject p (refOf upload);
    transact (
      _ ← setUpload amb (up_id upload) (fun u => u <| up_status := Up_DELETED |> <| up_deletedAt := Some (nowMs amb) |>);
      writeAuditEvent amb (auditMetadata metadata (Some userId) "upload.deleted" "upload" (Some (up_id upload))
        (Some (JObj [("provider", JStr (match up_provider upload with UpP_S3 => "S3" | UpP_CLOUDINARY => "CLOUDINARY" end))])))).
End Uploads.
