(* ===== verification/UploadsSpec.v ===== *)
(** * What the upload quotas promise

    Whatever requests are served, a user's stored files never outgrow the storage quota, and the bytes a
    user is allowed to download in a month never outgrow the bandwidth quota. *)

From Stdlib Require Import ZArith Lia Bool.
From S2P Require Import Prelude Store Database JsString Platform Request TenantScope AuditTrail Outbox Pagination UploadStorage Uploads.

Open Scope string_scope.

(** The live uploads of a user in an organization that count against the quota, and their size. *)
Definition counts (organizationId : option string) (userId : string) (u : Upload) : bool :=
  is_null (up_deletedAt u) && (up_organizationId u === organizationId) && inUse userId u.
Definition usage (organizationId : option string) (userId : string) (w : World) : Z :=
  sumSizes (List.filter (counts organizationId userId) (uploads w)).

(** The stored sizes are sizes, and the identifiers identify. *)
Definition wellStored (w : World) : Prop :=
  (forall u, In u (uploads w) -> (0 <= up_expectedSize u)%Z) /\ List.NoDup (List.map up_id (uploads w)).

(** ** Sums of sizes *)

Lemma sumSizes_cons u l : sumSizes (u :: l) = (up_expectedSize u + sumSizes l)%Z.
Proof. done. Qed.
#[local] Arguments sumSizes : simpl never.

Lemma sumSizes_app l1 l2 : sumSizes (l1 ++ l2)%list = (sumSizes l1 + sumSizes l2)%Z.
Proof. induction l1 as [|u l1 IH]; [done|]. cbn [app]. rewrite !sumSizes_cons, IH. lia. Qed.

Lemma sumSizes_nonneg l : (forall u, In u l -> (0 <= up_expectedSize u)%Z) -> (0 <= sumSizes l)%Z.
Proof.
  induction l as [|u l IH]; cbn; intros Hl; [done|]. pose proof (Hl u (or_introl eq_refl)).
  pose proof (IH (fun x Hx => Hl x (or_intror Hx))). rewrite sumSizes_cons. lia.
Qed.

(** Selecting fewer files cannot weigh more. *)
Lemma sumSizes_filter_le P Q l : (forall u, In u l -> (0 <= up_expectedSize u)%Z) ->
  (forall u, In u l -> P u = true -> Q u = true) ->
  (sumSizes (List.filter P l) <= sumSizes (List.filter Q l))%Z.
Proof.
  induction l as [|u l IH]; cbn; intros Hl HPQ; [lia|].
  specialize (IH (fun x Hx => Hl x (or_intror Hx)) (fun x Hx => HPQ x (or_intror Hx))).
  pose proof (Hl u (or_introl eq_refl)). pose proof (HPQ u (or_introl eq_refl)) as Hu.
  destruct (P u), (Q u); rewrite ?sumSizes_cons; try lia; discriminate (Hu eq_refl).
Qed.

(** An update that keeps the sizes and brings no file back into use cannot weigh more. *)
Lemma sumSizes_update_le P Q f l : (forall u, In u l -> (0 <= up_expectedSize u)%Z) ->
  (forall u, In u l -> P u = true -> up_expectedSize (f u) = up_expectedSize u) ->
  (forall u, In u l -> P u = true -> Q (f u) = true -> Q u = true) ->
  (sumSizes (List.filter Q (updateWhere P f l)) <= sumSizes (List.filter Q l))%Z.
Proof.
  unfold updateWhere. induction l as [|u l IH]; cbn; intros Hl Hs HQ; [lia|].
  specialize (IH (fun x Hx => Hl x (or_intror Hx)) (fun x Hx => Hs x (or_intror Hx)) (fun x Hx => HQ x (or_intror Hx))).
  pose proof (Hl u (or_introl eq_refl)). pose proof (Hs u (or_introl eq_refl)) as H1. pose proof (HQ u (or_introl eq_refl)) as H2.
  destruct (P u); [|destruct (Q u); rewrite ?sumSizes_cons; lia].
  destruct (Q (f u)) eqn:Ef, (Q u) eqn:Eu; rewrite ?sumSizes_cons; try lia.
Qed.

Section Storage.
Context `{Platform}.
Implicit Types (amb : Ambient) (w : World).

(** ** The storage quota *)

Section Quota.
Variables (organizationId : option string) (userId : string).

Definition withinQuota w : Prop :=
  wellStored w /\ (usage organizationId userId w <= UPLOAD_USER_STORAGE_QUOTA_BYTES env)%Z.

(** The live row of an identifier is in use: no update of it can bring it back into use. *)
Definition inUseAt (id : string) w : Prop :=
  withinQuota w /\ forall u, In u (uploads w) -> up_id u = id -> up_deletedAt u = None -> occupying (up_status u) = true.

(** An update that keeps owners, sizes and identifiers, and revives no deleted row. *)
Record tame (f : Upload -> Upload) : Prop := {
  tame_id : forall u, up_id (f u) = up_id u;
  tame_size : forall u, up_expectedSize (f u) = up_expectedSize u;
  tame_owner : forall u, up_userId (f u) = up_userId u /\ up_organizationId (f u) = up_organizationId u;
  tame_live : forall u, up_deletedAt (f u) = None -> up_deletedAt u = None
}.

Lemma wellStored_update P f w : (forall u, up_id (f u) = up_id u) ->
  (forall u, up_expectedSize (f u) = up_expectedSize u) -> wellStored w -> wellStored (put (updateWhere P f) w).
Proof.
  intros Hi Hs [H1 H2]. split; cbn.
  - intros u (u0 & Hu & ->)%In_updateWhere. destruct (P u0); rewrite ?Hs; auto.
  - rewrite map_updateWhere; auto.
Qed.

Lemma withinQuota_update P f w : (forall u, In u (uploads w) -> P u = true -> up_deletedAt u = None ->
    occupying (up_status (f u)) = true -> occupying (up_status u) = true) ->
  tame f -> withinQuota w -> withinQuota (put (updateWhere P f) w).
Proof.
  intros Hu Ht [Hw Hq]. split; [apply wellStored_update; auto using tame_id, tame_size; by eapply Ht|].
  etransitivity; [|exact Hq]. apply sumSizes_update_le; [apply Hw|intros; by apply (tame_size _ Ht)|].
  intros u Hin HP. unfold counts, inUse. destruct (tame_owner _ Ht u) as [-> ->]. intros Hc. bools.
  assert (Hd : up_deletedAt u = None).
  { apply (tame_live _ Ht). unfold is_null in *. destruct (up_deletedAt (f u)); [done|done]. }
  rewrite Hd. rewrite (Hu u Hin HP Hd) by done. by rewrite !bool_decide_true.
Qed.

(** What any update of the services keeps: the reached rows are in use already, or are not afterwards. *)
Lemma pres_tame (P : Upload -> bool) f : tame f ->
  (forall u, P u = true -> occupying (up_status (f u)) = true -> occupying (up_status u) = true) ->
  tx_pres withinQuota (tx_updateMany P f) /\ tx_pres withinQuota (tx_update P f).
Proof.
  intros Ht Hu. assert (Hk : forall w, withinQuota w -> withinQuota (put (updateWhere (activeWhere P) f) w)).
  { intros w. apply withinQuota_update; [|done]. intros u _ [_ HP]%andb_true_iff _. by apply Hu. }
  split; [apply pres_updateMany|apply pres_update]; done.
Qed.

(** The same of the row an operation has taken in hand, which stays in use. *)
Lemma pres_inUseAt id (P : Upload -> bool) f : tame f ->
  (forall u, P u = true -> up_id u = id) ->
  (forall u, P u = true -> occupying (up_status (f u)) = true) ->
  tx_pres (inUseAt id) (tx_updateMany P f) /\ tx_pres (inUseAt id) (tx_update P f).
Proof.
  intros Ht Hid Hu. assert (Hk : forall w, inUseAt id w -> inUseAt id (put (updateWhere (activeWhere P) f) w)).
  { intros w [Hw Ho]. split.
    - apply withinQuota_update; [|done..]. intros u Hin [_ HP]%andb_true_iff Hd _. by apply Ho; [| apply Hid|].
    - cbn. intros u (u0 & Hin & ->)%In_updateWhere. destruct (activeWhere P u0) eqn:E; [|by apply Ho].
      intros _ _. apply Hu. by apply andb_true_iff in E as [_ E]. }
  split; [apply pres_updateMany|apply pres_update]; done.
Qed.

Lemma usage_snoc u w : usage organizationId userId (put (fun l => l ++ [u])%list w)
  = (usage organizationId userId w + if counts organizationId userId u then up_expectedSize u else 0)%Z.
Proof.
  unfold usage. cbn. rewrite List.filter_app, sumSizes_app. cbn [List.filter].
  destruct (counts _ _ u); rewrite ?sumSizes_cons; change (sumSizes []) with 0%Z; lia.
Qed.

Lemma pres_reserveUpload amb user input kind key expiresAt : (0 <= ini_size input)%Z ->
  tx_pres withinQuota (reserveUpload amb user input kind key expiresAt).
Proof.
  intros Hsize w a w' [Hw Hq] Hr. unfold reserveUpload, sc_create in Hr. tx_inv Hr.
  destruct (_ <? _)%Z eqn:Efull in Hr; [discriminate Hr|]. tx_inv Hr. bools.
  apply findMany_ok in Hr0 as [-> ->]. injection Hr1 as <- <-. apply create_ok in Hr as (-> & -> & Hfresh).
  set (r := stampOrganization a3 _) in *. cbn in Hfresh. destruct Hw as [Hpos Hnd].
  split; [split; cbn|].
  - intros u [Hu| [<-|[]]]%in_app_iff; [by apply Hpos|done].
  - rewrite List.map_app. cbn. apply List.NoDup_app; [done|by constructor; [intros []|constructor]|].
    intros x (u & Hid & Hu)%List.in_map_iff [<-|[]].
    specialize (Hfresh u Hu). cbn in Hfresh, Hid. rewrite Hid in Hfresh. by rewrite bd_refl in Hfresh.
  - rewrite usage_snoc. destruct (counts organizationId userId r) eqn:Ec; [|by rewrite Z.add_0_r].
    unfold counts, inUse in Ec. bools. subst. etransitivity; [|exact Efull]. apply Z.add_le_mono_r.
    apply sumSizes_filter_le; [done|]. intros u _ Hc. unfold counts in Hc. bools. cbn.
    apply andb_true_intro; split; [done|]. apply andb_true_intro; split; [|done].
    eapply scope_agrees; [| | |exact H0|exact H1|]; done.
Qed.

(** ** The operations, one after another *)

Lemma tame_touch amb f : tame f -> tame (touch amb f).
Proof. intros [H1 H2 H3 H4]. split; [exact H1|exact H2|exact H3|exact H4]. Qed.

Lemma pres_setUpload amb id f : tame f ->
  (forall u, occupying (up_status (f u)) = true -> occupying (up_status u) = true) ->
  tx_pres withinQuota (setUpload amb id f).
Proof. intros Ht Hu. apply pres_sc_update. intros Q. apply pres_tame; [by apply tame_touch|]. intros u _. apply Hu. Qed.

Lemma pres_updateUploads amb P f : tame f ->
  (forall u, P u = true -> occupying (up_status (f u)) = true -> occupying (up_status u) = true) ->
  tx_pres withinQuota (sc_updateMany amb None P (touch amb f)).
Proof.
  intros Ht Hu. apply pres_sc_updateMany. intros Q. apply pres_tame; [by apply tame_touch|].
  intros u [_ HP]%andb_true_iff. by apply Hu.
Qed.

Lemma quiet_within {A} (p : Proc World A) : quiet p -> proc_pres withinQuota p.
Proof. intros Hp. apply Hp. by intros w call. Qed.
Lemma quiet_inUseAt {A} id (p : Proc World A) : quiet p -> proc_pres (inUseAt id) p.
Proof. intros Hp. apply Hp. by intros w call. Qed.

(** The operations start by asking for the configured adapter. *)
Lemma pres_provided {A} I p (k : UploadProviderAdapter -> Proc World A) :
  (forall a, p = Some a -> proc_pres I (k a)) -> proc_pres I (transact (tx_lift (requireProvider p)) ≫= k).
Proof. destruct p as [a|]; intros Hk; [exact (Hk a eq_refl)|by intros w]. Qed.

Lemma pres_initiateUpload amb user input p : (forall a, p = Some a -> OutsideStore a) -> (0 <= ini_size input)%Z ->
  proc_pres withinQuota (initiateUpload amb user input p).
Proof.
  intros Hp Hsize. apply pres_provided. intros a Ha. specialize (Hp a Ha). pres.
  - by apply pres_reserveUpload.
  - apply quiet_within, createUpload_quiet.
  - by apply pres_setUpload.
  - by apply pres_setUpload.
Qed.

Lemma pres_deleteUpload amb user id metadata p : (forall a, p = Some a -> OutsideStore a) ->
  proc_pres withinQuota (deleteUpload amb user id metadata p).
Proof.
  intros Hp. apply pres_provided. intros a Ha. specialize (Hp a Ha). pres.
  - apply quiet_within, deleteObject_quiet.
  - by apply pres_setUpload.
Qed.

(** *** Downloads do not touch the uploads *)

Lemma pres_createUploadDownload amb user id p : (forall a, p = Some a -> OutsideStore a) ->
  proc_pres withinQuota (createUploadDownload amb user id p).
Proof.
  intros Hp. apply pres_provided. intros a Ha. specialize (Hp a Ha). unfold findDownload, deliver, chargeQuota.
  pres; apply quiet_within.
  - by eapply createDirectDownload_quiet.
  - apply openDownload_quiet.
Qed.

(** *** Completion and scan: the upload taken in hand stays in use until its verdict *)

(** From a state where [I] holds, a procedure ends, returning or throwing, where [J] holds. *)
Definition proc_from {A} (I J : World -> Prop) (p : Proc World A) : Prop := forall w, I w -> J (snd (p w)).

Lemma from_bind {A B} (I K J : World -> Prop) (m : Proc World A) (k : A -> Proc World B) : (forall w, K w -> J w) ->
  proc_from I K m -> (forall a, proc_from K J (k a)) -> proc_from I J (m ≫= k).
Proof.
  intros HKJ Hm Hk w Hw. specialize (Hm w Hw). unfold mbind, proc_bind.
  destruct (m w) as [[a|e] w1]; [by apply Hk|by apply HKJ].
Qed.
Lemma from_weaken {A} (I J : World -> Prop) (p : Proc World A) : (forall w, I w -> J w) -> proc_pres J p -> proc_from I J p.
Proof. intros HIJ Hp w Hw. by apply Hp, HIJ. Qed.

Lemma from_try {A} (I J : World -> Prop) (m : Proc World A) h :
  proc_from I J m -> (forall e, proc_pres J (h e)) -> proc_from I J (try_catch m h).
Proof. intros Hm Hh w Hw. specialize (Hm w Hw). unfold try_catch. destruct (m w) as [[a|e] w1]; [done|by apply Hh]. Qed.

Lemma inUse_within id w : inUseAt id w -> withinQuota w.
Proof. by intros [Hw _]. Qed.

(** An upload read in use is in hand. *)
Lemma found_inUse amb P w u w1 : sc_findFirst amb None P w = Ok (Some u, w1) -> withinQuota w ->
  w1 = w /\ P u = true /\ (occupying (up_status u) = true -> inUseAt (up_id u) w).
Proof.
  intros E Hw. unfold sc_findFirst in E. tx_inv E. apply findFirst_ok in E as (-> & Hu & Hd & [_ HP]%andb_true_iff).
  split; [done|]. split; [done|]. intros Ho. split; [done|]. intros u' Hu' Hid _.
  destruct Hw as [[_ Hnd] _]. by rewrite (NoDup_key_inj up_id _ u' u Hnd).
Qed.

Lemma pres_found {A} amb (P : Upload -> bool) (k : option Upload -> Proc World A) : proc_pres withinQuota (k None) ->
  (forall u, P u = true -> occupying (up_status u) = true -> proc_from (inUseAt (up_id u)) withinQuota (k (Some u))) ->
  (forall u, P u = true -> occupying (up_status u) = false -> proc_pres withinQuota (k (Some u))) ->
  proc_pres withinQuota (transact (sc_findFirst amb None P) ≫= k).
Proof.
  intros Hn Hin Hout w Hw. unfold mbind, proc_bind, transact.
  destruct (sc_findFirst amb None P w) as [[[u|] w1]|] eqn:E; [| |done].
  - destruct (found_inUse _ _ _ _ _ E Hw) as (-> & HP & Hi). destruct (occupying (up_status u)) eqn:Eo; [|by apply Hout].
    by apply Hin; [| |apply Hi].
  - apply Hn. unfold sc_findFirst in E. tx_inv E. by apply findFirst_none_ok in E as [-> _].
Qed.

(** Reading a row or failing is reading it and then failing. *)
Lemma found_or_throw {A} (m : Tx World (option Upload)) e (k : Upload -> Proc World A) w :
  (transact (u ← m; tx_require u e) ≫= k) w
  = (transact m ≫= fun u => match u with Some u => k u | None => throw e end) w
  \/ exists w1, m w = Ok (None, w1) /\ (transact (u ← m; tx_require u e) ≫= k) w = (Err e, w).
Proof.
  unfold transact, mbind, proc_bind, tx_bind. destruct (m w) as [[[u|] w1]|e1] eqn:E; cbn; [by left| |by left].
  right. eauto.
Qed.

Lemma pres_found_or {A} amb (P : Upload -> bool) e (k : Upload -> Proc World A) :
  (forall u, P u = true -> occupying (up_status u) = true -> proc_from (inUseAt (up_id u)) withinQuota (k u)) ->
  (forall u, P u = true -> occupying (up_status u) = false -> proc_pres withinQuota (k u)) ->
  proc_pres withinQuota (transact (u ← sc_findFirst amb None P; tx_require u e) ≫= k).
Proof.
  intros Hin Hout w Hw. destruct (found_or_throw (sc_findFirst amb None P) e k w) as [->|(w1 & _ & ->)]; [|done].
  apply pres_found; [apply pres_proc_throw|done..].
Qed.

Definition tx_from {A} (I J : World -> Prop) (m : Tx World A) : Prop := forall w a w', I w -> m w = Ok (a, w') -> J w'.

Lemma from_transact {A} (I J : World -> Prop) (m : Tx World A) : (forall w, I w -> J w) ->
  tx_from I J m -> proc_from I J (transact m).
Proof. intros HIJ Hm w Hw. unfold transact. destruct (m w) as [[a w']|e] eqn:E; cbn; eauto. Qed.
Lemma from_first {A B} (I J : World -> Prop) (m : Tx World A) (k : A -> Tx World B) :
  tx_from I J m -> (forall a, tx_pres J (k a)) -> tx_from I J (m ≫= k).
Proof. intros Hm Hk w b w' Hw (a & w1 & H1 & H2)%bind_ok. eapply Hk; eauto. Qed.

(** Whatever the upload in hand becomes, it was in use before. *)
Lemma from_setUpload amb id f : tame f -> tx_from (inUseAt id) withinQuota (setUpload amb id f).
Proof.
  intros Ht w a w' [Hw Ho] Hr. unfold setUpload, sc_update in Hr. tx_inv Hr. apply update_ok in Hr as [-> _].
  apply withinQuota_update; [|by apply tame_touch|done]. intros u Hu [_ [_ Hid]%andb_true_iff]%andb_true_iff Hd _.
  bools. by apply Ho.
Qed.

Lemma from_finalize amb id user scan metadata :
  proc_from (inUseAt id) withinQuota (finalizeUploadScan amb id user scan metadata).
Proof.
  apply from_transact; [apply inUse_within|]. apply from_first; [by apply from_setUpload|]. intros a. pres.
Qed.

Lemma from_discard amb a upload f e : OutsideStore a -> tame f ->
  proc_from (inUseAt (up_id upload)) withinQuota (discard amb a upload f e).
Proof.
  intros Ha Ht. eapply from_bind; [apply inUse_within|apply quiet_inUseAt, deleteObject_quiet|]. intros _.
  eapply from_bind; [done| |intros _; apply pres_proc_throw].
  apply from_transact; [apply inUse_within|by apply from_setUpload].
Qed.

(** Quarantine and the request of a scan keep the upload in use. *)
Lemma pres_updateInHand amb id (P : Upload -> bool) f : tame f ->
  (forall u, P u = true -> up_id u = id) -> (forall u, occupying (up_status (f u)) = true) ->
  tx_pres (inUseAt id) (sc_updateMany amb None P (touch amb f))
  /\ tx_pres (inUseAt id) (sc_update amb None P (touch amb f)).
Proof.
  intros Ht Hid Hu. split.
  - apply pres_sc_updateMany. intros Q. apply pres_inUseAt; [by apply tame_touch| |intros; apply Hu].
    intros u [_ HP]%andb_true_iff. by apply Hid.
  - apply pres_sc_update. intros Q. apply pres_inUseAt; [by apply tame_touch| |intros; apply Hu].
    intros u [_ HP]%andb_true_iff. by apply Hid.
Qed.

Lemma pres_quarantine amb user upload stored detected metadata :
  tx_pres (inUseAt (up_id upload)) (quarantine amb user upload stored detected metadata).
Proof.
  unfold quarantine. pres. apply pres_updateInHand; [done| |done]. intros u [[H1 _]%andb_true_iff _]%andb_true_iff. by bools.
Qed.

Lemma pres_requestScan amb upload stored : tx_pres (inUseAt (up_id upload)) (requestScan amb upload stored).
Proof.
  unfold requestScan, addOutboxEvent. pres. apply pres_updateInHand; [done| |done]. intros u Hid. by bools.
Qed.

Lemma notOccupying s : occupying s = false ->
  (s === Up_READY) = false /\ (s === Up_PENDING) || (s === Up_QUARANTINED) = false
  /\ (s === Up_QUARANTINED) || (s === Up_SCANNING) = false.
Proof. by destruct s. Qed.

Lemma pres_completeUpload amb user id metadata p : (forall a, p = Some a -> OutsideStore a) ->
  proc_pres withinQuota (completeUpload amb user id metadata p).
Proof.
  intros Hp. apply pres_provided. intros a Ha. specialize (Hp a Ha). apply pres_found_or; intros u _ Ho.
  2: { destruct (_ !== _); [pres|]. destruct (notOccupying _ Ho) as (-> & -> & _). cbn. pres. }
  destruct (_ !== _); [by apply from_weaken; [apply inUse_within|apply pres_proc_throw]|].
  destruct (_ === _); [by apply from_weaken; [apply inUse_within|apply pres_proc_ret]|].
  destruct (negb _); [by apply from_weaken; [apply inUse_within|apply pres_proc_throw]|].
  eapply from_bind; [apply inUse_within|apply quiet_inUseAt, inspectObject_quiet|intros stored].
  destruct (_ || _); [by apply from_discard|].
  eapply from_bind; [apply inUse_within|apply quiet_inUseAt, readObjectPrefix_quiet|intros prefix]. cbn zeta.
  destruct (_ !== _); [by apply from_discard|].
  eapply from_bind; [apply inUse_within|apply pres_transact, pres_quarantine|intros q].
  unfold afterQuarantine. destruct (negb _).
  - destruct (requiresDocumentCdr _); [by apply from_weaken; [apply inUse_within|apply pres_proc_ret]|apply from_finalize].
  - intros w Hw. apply (inUse_within (up_id u)). by apply pres_transact; [apply pres_requestScan|].
Qed.

Lemma pres_deleteMalicious amb a upload : OutsideStore a -> proc_pres withinQuota (deleteMalicious amb a upload).
Proof.
  intros Ha. unfold deleteMalicious. pres; [apply quiet_within, deleteObject_quiet|by apply pres_updateUploads].
Qed.

Lemma quiet_scanUpload url token fetch input : quiet (scanUpload url token fetch input).
Proof. unfold scanUpload. quiet. Qed.

Lemma pres_processUploadScan url token fetch amb id p : (forall a, p = Some a -> OutsideStore a) ->
  proc_pres withinQuota (processUploadScan url token fetch amb id p).
Proof.
  intros Hp. apply pres_provided. intros a Ha. specialize (Hp a Ha).
  apply pres_found; [apply pres_proc_ret|intros u HP Ho..]; (destruct (_ !== _); [by eauto using from_weaken, inUse_within, pres_proc_throw|]).
  - assert (Hr : (up_status u === Up_REJECTED) = false) by (by destruct (up_status u)). rewrite Hr.
    eapply from_bind; [apply inUse_within| |intros n].
    { apply pres_transact, pres_updateInHand; [done| |done]. intros x [Hx _]%andb_true_iff. by bools. }
    apply from_try; [|intros e; pres; apply pres_updateUploads; [done|]; intros x HPx _; bools; by match goal with E : up_status x = _ |- _ => rewrite E end].
    unfold scanAndFinalize. eapply from_bind; [apply inUse_within|apply quiet_inUseAt, createDownloadUrl_quiet|intros sourceUrl].
    eapply from_bind; [apply inUse_within|apply quiet_inUseAt, quiet_scanUpload|intros scan].
    eapply from_bind; [done|apply from_finalize|intros _]. 
    destruct (scan_verdict scan === "MALICIOUS"); [by apply pres_deleteMalicious|apply pres_proc_ret].
  - apply andb_true_iff in HP as [_ HP]. destruct (notOccupying _ Ho) as (_ & _ & Hq). rewrite Hq in HP. cbn in HP. rewrite HP.
    destruct (_ && _); [by apply pres_deleteMalicious|apply pres_proc_ret].
Qed.

Lemma pres_listUploads amb user input : proc_pres withinQuota (listUploads amb user input).
Proof. unfold listUploads. pres. Qed.
End Quota.

(** ** Requests *)

Inductive UploadRequest :=
  | Initiate (userId : string) (input : InitiateInput)
  | Complete (userId uploadId : string) (metadata : RequestMetadata)
  | ScanJob (uploadId : string)
  | Listing (userId : string) (input : CursorPaginationInput)
  | Download (userId uploadId : string)
  | Remove (userId uploadId : string) (metadata : RequestMetadata).

(** What the request schema lets through: a file has a size. *)
Definition sized (r : UploadRequest) : Prop :=
  match r with Initiate _ input => (0 <= ini_size input)%Z | _ => True end.

Section Service.
Variables (scannerUrl scannerToken : string) (fetch : Fetch) (bucket : string) (client : S3Client) (basic : string).

Definition adapter (amb : Ambient) : option UploadProviderAdapter := createUploadProvider amb bucket client fetch basic.

Lemma adapter_outside amb a : adapter amb = Some a -> OutsideStore a.
Proof. unfold adapter, createUploadProvider. destruct (UPLOAD_PROVIDER env); intros [= <-]; exact _. Qed.

Definition serve (amb : Ambient) (r : UploadRequest) (w : World) : World :=
  match r with
  | Initiate userId input => snd (initiateUpload amb userId input (adapter amb) w)
  | Complete userId uploadId metadata => snd (completeUpload amb userId uploadId metadata (adapter amb) w)
  | ScanJob uploadId => snd (processUploadScan scannerUrl scannerToken fetch amb uploadId (adapter amb) w)
  | Listing userId input => snd (listUploads amb userId input w)
  | Download userId uploadId => snd (createUploadDownload amb userId uploadId (adapter amb) w)
  | Remove userId uploadId metadata => snd (deleteUpload amb userId uploadId metadata (adapter amb) w)
  end.

Definition serveAll (requests : list (Ambient * UploadRequest)) (w : World) : World :=
  List.fold_left (fun w ar => serve (fst ar) (snd ar) w) requests w.

Lemma serve_within organizationId userId amb r w : sized r -> withinQuota organizationId userId w ->
  withinQuota organizationId userId (serve amb r w).
Proof.
  intros Hs Hw. pose proof (adapter_outside amb) as Ha. destruct r; cbn.
  - by apply pres_initiateUpload.
  - by apply pres_completeUpload.
  - by apply pres_processUploadScan.
  - by apply pres_listUploads.
  - by apply pres_createUploadDownload.
  - by apply pres_deleteUpload.
Qed.

(** C25: The storage quota holds. Serve any sequence of upload requests, scan jobs, downloads and deletions,
    of any users and organizations, whatever the storage provider and the scanner answer and whether they
    succeed or fail: as long as a user's files in an organization did not exceed the storage quota at the
    start, their live files (pending, quarantined, scanning or ready) never weigh more than the quota. *)
Theorem storage_quota_never_exceeded requests w organizationId userId :
  wellStored w -> (usage organizationId userId w <= UPLOAD_USER_STORAGE_QUOTA_BYTES env)%Z ->
  List.Forall (fun ar => sized (snd ar)) requests ->
  (usage organizationId userId (serveAll requests w) <= UPLOAD_USER_STORAGE_QUOTA_BYTES env)%Z.
Proof.
  intros Hw Hq Hall. enough (withinQuota organizationId userId (serveAll requests w)) as [_ ?]; [done|].
  assert (Hi : withinQuota organizationId userId w) by done. clear Hw Hq. revert w Hi.
  induction Hall as [|[amb r] rest Hr _ IH]; intros w Hi; [done|]. apply IH. by apply serve_within.
Qed.

(** ** The bandwidth quota *)

Section Bandwidth.
Variables (scopeKey : string) (period : Z).

Definition metersFor (b : UploadBandwidthUsage) : bool := (bw_scopeKey b === scopeKey) && (bw_periodStart b =? period)%Z.
Definition sumBytes (l : list UploadBandwidthUsage) : Z := List.fold_right (fun b n => (bw_bytes b + n)%Z) 0%Z l.
(** What the scope has been charged in the period. *)
Definition metered (w : World) : Z := sumBytes (List.filter metersFor (uploadBandwidthUsages w)).

(** One meter per scope and period, never over the quota. *)
Definition meterInv (w : World) : Prop :=
  countWhere metersFor (uploadBandwidthUsages w) <= 1
  /\ (metered w <= UPLOAD_USER_MONTHLY_BANDWIDTH_QUOTA_BYTES env)%Z.

Lemma metered_update P n l : (forall b, P b = true -> metersFor b = true) ->
  sumBytes (List.filter metersFor (updateWhere P (fun b => b <| bw_bytes ::= Z.add n |>) l))
  = (sumBytes (List.filter metersFor l) + n * Z.of_nat (countWhere P l))%Z.
Proof.
  intros HP. unfold updateWhere, countWhere. induction l as [|b l IH]; cbn; [lia|].
  pose proof (HP b) as Hb. destruct (P b) eqn:E; cbn.
  - change (metersFor (b <| bw_bytes ::= Z.add n |>)) with (metersFor b). rewrite Hb by done. cbn.
    unfold sumBytes in *. lia.
  - destruct (metersFor b); cbn; unfold sumBytes in *; lia.
Qed.

(** The only meter shows what it has counted. *)
Lemma metered_single P l : (forall b, P b = true -> metersFor b = true) -> countWhere metersFor l <= 1 ->
  countWhere P l = 1 -> exists b, In b l /\ P b = true /\ sumBytes (List.filter metersFor l) = bw_bytes b.
Proof.
  intros HP Hle H1. assert (Hpos : 0 < countWhere P l) by lia. apply countWhere_pos in Hpos as (b & Hb & HPb).
  exists b. split; [done|]. split; [done|].
  assert (Hin : In b (List.filter metersFor l)) by (apply List.filter_In; auto).
  unfold countWhere in Hle. destruct (List.filter metersFor l) as [|b1 [|b2 rest]]; cbn in *; [done| |lia].
  destruct Hin as [->|[]]. lia.
Qed.

(** Opening the meter: there was none. *)
Lemma open_meter amb organizationId userId n w b w' :
  (id ← newId; sc_create amb (Some organizationId) (mkUploadBandwidthUsage id organizationId userId scopeKey period n)) w
    = Ok (b, w') -> (n <= UPLOAD_USER_MONTHLY_BANDWIDTH_QUOTA_BYTES env)%Z ->
  meterInv w' /\ uploads w' = uploads w /\ metered w' = (metered w + n)%Z.
Proof.
  intros (id & w1 & [= <- <-] & Hc)%bind_ok Hn. apply bind_ok in Hc as (owner & w2 & [_ <-]%lift_ok & Hc).
  apply create_ok in Hc as (-> & -> & Hfresh).
  set (u := stampOrganization owner _) in *. cbn in Hfresh.
  assert (H0 : List.filter metersFor (uploadBandwidthUsages w) = []).
  { apply length_zero_iff_nil, countWhere_0. intros x Hx. specialize (Hfresh x Hx). bools.
    unfold metersFor. destruct (bw_scopeKey x === scopeKey) eqn:E1; [|done]. destruct (bw_periodStart x =? period)%Z eqn:E2; [|done].
    bools. apply Z.eqb_eq in E2. match goal with Hf : _ && _ = false |- _ => subst; by rewrite !bd_refl in Hf end. }
  assert (Hu : metersFor u = true) by (unfold metersFor; cbn; by rewrite bd_refl, Z.eqb_refl).
  assert (Hb : bw_bytes u = n) by done. clearbody u.
  assert (Hw : List.filter metersFor (uploadBandwidthUsages (put (fun l => l ++ [u])%list w)) = [u]).
  { cbn. rewrite List.filter_app, H0. cbn [List.filter]. by rewrite Hu. }
  unfold meterInv, metered, countWhere. cbn in Hw |- *. rewrite Hw, H0. cbn. rewrite Hb. repeat split; lia.
Qed.
(** Adding to the meter: it stays under the quota, or nothing is added. *)
Lemma add_meter n (P : UploadBandwidthUsage -> bool) w :
  (forall b, P b = true -> metersFor b = true /\ (bw_bytes b <= UPLOAD_USER_MONTHLY_BANDWIDTH_QUOTA_BYTES env - n)%Z) ->
  meterInv w -> let w' := put (updateWhere P (fun b => b <| bw_bytes ::= Z.add n |>)) w in
  let count := countWhere P (uploadBandwidthUsages w) in
  meterInv w' /\ metered w' = (metered w + if (count =? 1)%nat then n else 0)%Z.
Proof.
  intros HP [Hone Hle] w' count. assert (HPm : forall b, P b = true -> metersFor b = true) by (intros b Hb; by apply HP).
  assert (Hm : metered w' = (metered w + n * Z.of_nat count)%Z) by (by apply metered_update).
  assert (Hc : count <= 1) by (etransitivity; [apply countWhere_mono; intros b _; apply HPm|exact Hone]).
  assert (Hone' : countWhere metersFor (uploadBandwidthUsages w') <= 1).
  { change (uploadBandwidthUsages w') with (updateWhere P (fun b => b <| bw_bytes ::= Z.add n |>) (uploadBandwidthUsages w)).
    by rewrite countWhere_update_same. }
  destruct (Nat.eqb_spec count 1) as [E|E]; unfold meterInv; rewrite Hm.
  - destruct (metered_single P _ HPm Hone E) as (b & _ & Hb & Hs). destruct (HP b Hb) as [_ Hq].
    unfold metered in *. rewrite E. repeat split; try lia; done.
  - replace count with 0 by lia. repeat split; try lia; done.
Qed.

Lemma charge_metered amb userId n w r w' : uploadQuotaScopeKey amb userId = scopeKey -> monthStart (nowMs amb) = period ->
  (n <= UPLOAD_USER_MONTHLY_BANDWIDTH_QUOTA_BYTES env)%Z -> meterInv w -> chargeQuota amb userId n w = (r, w') ->
  meterInv w' /\ uploads w' = uploads w /\ metered w' = (metered w + match r with Ok _ => n | Err _ => 0 end)%Z.
Proof.
  intros Hk Hp Hn Hi. unfold chargeQuota. rewrite Hk, Hp. intros [(u & H1 & ->)|(e & w1 & H1 & H2)]%try_catch_run.
  - apply proc_bind_ok in H1 as (b & w1 & H1 & [_ <-]%proc_ret_ok). apply transact_ok in H1. by apply open_meter in H1.
  - apply proc_bind_run in H1 as [(e' & H1 & _)|(b & w2 & H1 & Hr)]; [|discriminate Hr].
    apply transact_run in H1 as [(b & _ & [=])|(e2 & _ & _ & ->)].
    destruct (negb (e === Known "P2002")); [injection H2 as <- <-; rewrite Z.add_0_r; by destruct Hi|].
    apply proc_bind_run in H2 as [(e3 & H2 & ->)|(k & w3 & H2 & H3)].
    { apply transact_run in H2 as [(b & _ & [=])|(e4 & _ & _ & ->)]. rewrite Z.add_0_r. by destruct Hi. }
    apply transact_ok in H2. unfold sc_updateMany in H2. tx_inv H2. apply updateMany_ok in H2 as [-> ->].
    set (P := activeWhere _) in H3. destruct (add_meter n P s) as [Hi' Hm]; [|done|].
    { intros b [_ [_ [Hb Hle]%andb_true_iff]%andb_true_iff]%andb_true_iff. split; [exact Hb|by apply Z.leb_le]. }
    change (table s) with (uploadBandwidthUsages s) in H3.
    destruct (countWhere P (uploadBandwidthUsages s) =? 1)%nat; injection H3 as <- <-; done.
Qed.

(** Nothing but the meter and the record of provider calls moves during a download. *)
Definition unmoved (w0 w : World) : Prop := uploads w = uploads w0 /\ uploadBandwidthUsages w = uploadBandwidthUsages w0.

Lemma quiet_unmoved {A} w0 (p : Proc World A) : quiet p -> proc_pres (unmoved w0) p.
Proof. intros Hp. apply Hp. by intros w call. Qed.

Lemma findDownload_ok amb userId id w u w' : findDownload amb userId id w = (Ok u, w') ->
  w' = w /\ In u (uploads w) /\ up_id u = id.
Proof.
  intros Hr. unfold findDownload, sc_findFirst in Hr. proc_inv Hr. tx_store. bools.
  destruct (_ === _); [by apply proc_ret_ok in Hr as [<- <-]|]. proc_inv Hr.
  match goal with Hw : tx_world _ = Ok _ |- _ => injection Hw as <- <- end.
  match goal with Hf : tx_findFirst _ _ = Ok _ |- _ => injection Hf as _ <- end.
  destruct (is_set _); [by apply proc_ret_ok in Hr as [<- <-]|discriminate Hr].
Qed.

Lemma findDownload_err amb userId id w e w' : findDownload amb userId id w = (Err e, w') -> w' = w.
Proof.
  assert (Hp : proc_pres (fun x => x = w) (findDownload amb userId id)).
  { unfold findDownload. pres. }
  intros Hr. specialize (Hp w eq_refl). by rewrite Hr in Hp.
Qed.

(** The size the code charges for a file. *)
Definition chargedSize (u : Upload) : Z := up_actualSize u ??? up_expectedSize u.
Definition sizeOf (id : string) (l : list Upload) : Z :=
  match findFirst (fun u => up_id u === id) l with Some u => chargedSize u | None => 0%Z end.

Lemma sizeOf_In l u : List.NoDup (List.map up_id l) -> In u l -> sizeOf (up_id u) l = chargedSize u.
Proof.
  intros Hnd Hu. unfold sizeOf. destruct (findFirst _ l) as [u'|] eqn:E.
  - apply findFirst_Some in E as [Hu' Hid]. bools. by rewrite (NoDup_key_inj up_id l u' u Hnd Hu' Hu Hid).
  - exfalso. pose proof (findFirst_None _ _ _ E Hu) as Hf. cbn in Hf. by rewrite bd_refl in Hf.
Qed.

(** A download is delivered once it was charged, and only then. *)
Definition meterStep (n : Z) (w w' : World) : Prop :=
  meterInv w' /\ uploads w' = uploads w /\ metered w' = (metered w + n)%Z.

Lemma meterStep_unmoved w w' : meterInv w -> unmoved w w' -> meterStep 0 w w'.
Proof. intros Hi [Hu Hb]. unfold meterStep, meterInv, metered in *. rewrite Hb, Hu, Z.add_0_r. done. Qed.

Lemma deliver_metered amb userId a u w r w' : OutsideStore a ->
  uploadQuotaScopeKey amb userId = scopeKey -> monthStart (nowMs amb) = period ->
  (chargedSize u <= UPLOAD_USER_MONTHLY_BANDWIDTH_QUOTA_BYTES env)%Z -> meterInv w ->
  deliver amb userId a u (chargedSize u) w = (r, w') ->
  meterStep (match r with Ok _ => chargedSize u | Err _ => 0 end) w w'.
Proof.
  intros Ha Hk Hp Hn Hi. unfold deliver.
  assert (Hgo : forall A (m : Proc World A) (k : A -> Delivery), quiet m ->
    (d ← m; _ ← chargeQuota amb userId (chargedSize u); mret (k d)) w = (r, w') ->
    meterStep (match r with Ok _ => chargedSize u | Err _ => 0 end) w w').
  { intros A m k Hm Hr. apply proc_bind_pres with (I := unmoved w) in Hr; [|by apply quiet_unmoved|done].
    destruct Hr as [(e & -> & Hw)|(d & w1 & H1 & Hw & Hr)]; [by apply meterStep_unmoved|].
    destruct (meterStep_unmoved _ _ Hi Hw) as (Hi1 & Hu1 & Hm1). unfold meterStep. rewrite <- Hu1.
    replace (metered w) with (metered w1) by lia.
    apply proc_bind_run in Hr as [(e & H2 & ->)|(? & w2 & H2 & [= <- <-])]; by apply charge_metered in H2. }
  destruct (UPLOAD_DOWNLOAD_MODE_redirect env).
  - destruct (createDirectDownload a) as [direct|] eqn:Ed; [|intros [= <- <-]; by apply meterStep_unmoved].
    intros Hr. apply (Hgo _ _ (fun d => Redirect d (up_originalName u) (up_contentType u) (chargedSize u))) in Hr; [done|].
    by eapply createDirectDownload_quiet.
  - intros Hr. apply (Hgo _ _ (fun d => Proxy d (up_originalName u) (do_contentType d ??? up_contentType u)
                                          (do_contentLength d ??? chargedSize u))) in Hr; [done|apply openDownload_quiet].
Qed.

Lemma download_metered amb userId id w r w' : List.NoDup (List.map up_id (uploads w)) ->
  uploadQuotaScopeKey amb userId = scopeKey -> monthStart (nowMs amb) = period -> meterInv w ->
  createUploadDownload amb userId id (adapter amb) w = (r, w') ->
  meterStep (match r with Ok _ => sizeOf id (uploads w) | Err _ => 0 end) w w'.
Proof.
  intros Hnd Hk Hp Hi. unfold createUploadDownload.
  destruct (adapter amb) as [a|] eqn:Ea; [|intros [= <- <-]; by apply meterStep_unmoved].
  intros Hr. change (transact (tx_lift (requireProvider (Some a)))) with (fun w : World => (Ok a, w)) in Hr.
  unfold mbind at 1, proc_bind in Hr.
  apply proc_bind_run in Hr as [(e & Hf & ->)|(u & w1 & Hf & Hr)].
  { apply findDownload_err in Hf as ->. by apply meterStep_unmoved. }
  apply findDownload_ok in Hf as (-> & Hu & Hid).
  destruct (_ !== _); [injection Hr as <- <-; by apply meterStep_unmoved|]. cbn zeta in Hr.
  fold (chargedSize u) in Hr. destruct (_ <? _)%Z eqn:Eq; [injection Hr as <- <-; by apply meterStep_unmoved|]. bools.
  rewrite <- Hid, sizeOf_In by done. eapply deliver_metered; eauto using adapter_outside.
Qed.
(** Download requests of a user, one after another, with what each of them got. *)
Fixpoint downloads (userId : string) (requests : list (Ambient * string)) (w : World) :
    list (string * res Delivery) * World :=
  match requests with
  | [] => ([], w)
  | (amb, id) :: rest =>
      let '(r, w1) := createUploadDownload amb userId id (adapter amb) w in
      let '(rs, w2) := downloads userId rest w1 in ((id, r) :: rs, w2)
  end.

(** The bytes of the files that were delivered. *)
Fixpoint delivered (l : list Upload) (results : list (string * res Delivery)) : Z :=
  match results with
  | [] => 0
  | (id, r) :: rest => (match r with Ok _ => sizeOf id l | Err _ => 0 end + delivered l rest)%Z
  end.

Lemma downloads_metered userId requests w results w' : List.NoDup (List.map up_id (uploads w)) -> meterInv w ->
  List.Forall (fun ai => uploadQuotaScopeKey (fst ai) userId = scopeKey /\ monthStart (nowMs (fst ai)) = period) requests ->
  downloads userId requests w = (results, w') -> meterStep (delivered (uploads w) results) w w'.
Proof.
  intros Hnd Hi Hall. revert w Hnd Hi results w'.
  induction Hall as [|[amb id] rest [Hk Hp] _ IH]; intros w Hnd Hi results w'; cbn [downloads].
  - intros [= <- <-]. by apply meterStep_unmoved.
  - destruct (createUploadDownload _ _ _ _ w) as [r w1] eqn:E1. destruct (downloads userId rest w1) as [rs w2] eqn:E2.
    intros [= <- <-]. apply download_metered in E1 as (Hi1 & Hu1 & Hm1); [|done..].
    apply IH in E2 as (Hi2 & Hu2 & Hm2); [|by rewrite Hu1|done]. cbn [delivered]. rewrite Hu1 in *.
    split; [done|]. split; [congruence|lia].
Qed.
End Bandwidth.

(** C26: The bandwidth quota holds. However many downloads a user asks for in a month, whatever the storage
    provider answers, the sizes of the files that were delivered add up with what had been charged before
    to no more than the monthly quota; and the meter shows exactly that sum at the end. *)
Theorem monthly_bandwidth_bounded scopeKey period userId requests w results w' :
  List.NoDup (List.map up_id (uploads w)) -> countWhere (metersFor scopeKey period) (uploadBandwidthUsages w) <= 1 ->
  (metered scopeKey period w <= UPLOAD_USER_MONTHLY_BANDWIDTH_QUOTA_BYTES env)%Z ->
  List.Forall (fun ai => uploadQuotaScopeKey (fst ai) userId = scopeKey /\ monthStart (nowMs (fst ai)) = period) requests ->
  downloads userId requests w = (results, w') ->
  metered scopeKey period w' = (metered scopeKey period w + delivered (uploads w) results)%Z
  /\ (metered scopeKey period w' <= UPLOAD_USER_MONTHLY_BANDWIDTH_QUOTA_BYTES env)%Z.
Proof.
  intros Hnd H1 Hle Hall Hr. by apply (downloads_metered scopeKey period) in Hr as ([_ ?] & _ & ?).
Qed.
End Service.
End Storage.

(** ** Witnesses *)

Section Witness.
Local Existing Instance demoPlatform.

Definition demoS3 : S3Client := mkS3Client
  (fun _ _ _ => Ok (mkHead (Some 10000000%Z) (Some "image/png") None None))
  (fun _ _ _ _ => Ok (mkGet (Some "bytes") (Some 10000000%Z) (Some "image/png")))
  (fun _ _ _ => Ok tt) (fun _ _ _ => Ok "https://bucket/signed").
Definition noFetch : Fetch := fun _ _ _ => Err (Failure "offline").
Definition demoFile (id : string) (size : Z) : Upload :=
  mkUpload id (Some "org-1") "u1" UpP_S3 Up_READY UpV_PRIVATE id id "image/png" size (Some size) None None None None None
    None None 0 (Some 1%Z) None 0 0 None.
Definition demoRequest (t : Z) : Ambient := mkAmbient t (Some (Request "r" (Some "u1") (Some "org-1"))).

(** A user who has filled the quota up to ten megabytes: the first upload fits, the second is refused. *)
Definition demoStored : World := emptyWorld <| uploads := [demoFile "f1" 1063741824] |>.
Definition demoUploads : list (Ambient * UploadRequest) :=
  [(demoRequest 5000, Initiate "u1" (mkInitiateInput "a.png" "image/png" 10000000 UpV_PRIVATE));
   (demoRequest 6000, Initiate "u1" (mkInitiateInput "b.png" "image/png" 10000000 UpV_PRIVATE))].
Definition served : World := serveAll EmptyString EmptyString noFetch "bucket" demoS3 EmptyString demoUploads demoStored.

Example storage_quota_never_exceeded_witness :
  length (uploads served) = 2 /\ (usage (Some "org-1") "u1" served <= 1073741824)%Z.
Proof.
  split; [vm_compute; reflexivity|]. refine (storage_quota_never_exceeded EmptyString EmptyString noFetch "bucket" demoS3 EmptyString
    demoUploads demoStored (Some "org-1") "u1" _ _ _).
  - split; [|repeat constructor; intros []]. intros u [<-|[]]. cbn. lia.
  - vm_compute. discriminate.
  - repeat constructor; cbn; lia.
Defined.

(** A file of two gigabytes can be downloaded twice in a month, not three times. *)
Definition demoMeter : World := emptyWorld <| uploads := [demoFile "f1" 2000000000] |>.
Definition demoDownloads : list (Ambient * string) := [(demoRequest 5000, "f1"); (demoRequest 6000, "f1"); (demoRequest 7000, "f1")].

Example monthly_bandwidth_bounded_witness : exists results w',
  downloads noFetch "bucket" demoS3 EmptyString "u1" demoDownloads demoMeter = (results, w')
  /\ delivered (uploads demoMeter) results = 4000000000%Z
  /\ metered "organization:org-1:user:u1" 0 w' = (metered "organization:org-1:user:u1" 0 demoMeter + delivered (uploads demoMeter) results)%Z
  /\ (metered "organization:org-1:user:u1" 0 w' <= UPLOAD_USER_MONTHLY_BANDWIDTH_QUOTA_BYTES env)%Z.
Proof.
  destruct (downloads noFetch "bucket" demoS3 EmptyString "u1" demoDownloads demoMeter) as [results w'] eqn:E.
  exists results, w'. split; [reflexivity|]. split.
  - vm_compute in E. injection E as <- _. reflexivity.
  - apply (monthly_bandwidth_bounded noFetch "bucket" demoS3 EmptyString "organization:org-1:user:u1" 0 "u1" demoDownloads demoMeter results w');
      [repeat constructor; intros []|vm_compute; lia|vm_compute; discriminate|repeat constructor|exact E].
Defined.
End Witness.
