(* ===== verification/Erasure.v ===== *)
(** * Account erasure

    modules/auth/account-erasure.service.ts: the external half of an account's deletion, run by the
    worker until it is done. The deletion itself ([Account.deleteAccount]) has committed; here the
    subscriptions of the Stripe customer are canceled and the objects of the deleted uploads removed
    from the storage, a hundred at a time.

    Given enough fuel the worker's loop ends, and then no object of the deleted account is left in the
    storage. *)

From Stdlib Require Import ZArith Lia Bool.
From stdpp Require Import sorting.
From S2P Require Import Prelude Store Database JsString Platform Request Stripe StripeMethods UploadStorage Uploads.

Open Scope string_scope.

(** What [accountErasurePayload.parse] reads; [isUuid] is [z.uuid()]. *)
Record ErasurePayload := mkErasurePayload { ep_userId : string; ep_stripeCustomerId : option string }.

Definition accountErasurePayload (isUuid : string -> bool) (payload : Json) : res ErasurePayload :=
  match jget "userId" payload with
  | Some (JStr userId) =>
      if negb (isUuid userId) then Err (Failure "Invalid UUID")
      else match jget "stripeCustomerId" payload with
           | None => Ok (mkErasurePayload userId None)
           | Some (JStr customer) =>
               if startsWith customer "cus_" then Ok (mkErasurePayload userId (Some customer))
               else Err (Failure "Invalid string: must start with cus_")
           | Some _ => Err (Failure "Invalid input: expected string")
           end
  | _ => Err (Failure "Invalid input: expected string")
  end.

(** A deleted upload of the user whose object is still in the storage. *)
Definition pendingErasure (userId : string) (u : Upload) : bool :=
  (up_userId u === userId) && (up_status u === Up_DELETED) && is_null (up_storageDeletedAt u) && is_set (up_deletedAt u).

Definition ERASURE_BATCH : nat := 100.
Definition erasedKey (id : string) : string := "erased/" ++ id.

Section Erasure.
Context `{Platform}.

(** [orderBy: { id: 'asc' }, take: 100] *)
Definition nextBatch (userId : string) : Tx World (list Upload) :=
  rows ← tx_findMany_raw (pendingErasure userId);
  mret (firstn ERASURE_BATCH (orderAscId (fun _ => 0%Z) up_id rows)).

Definition markErased (amb : Ambient) (id : string) : Tx World Upload :=
  tx_update_unique_raw (fun u => (up_id u === id) && is_set (up_deletedAt u))
    (fun u => u <| up_objectKey := erasedKey (up_id u) |> <| up_storageDeletedAt := Some (nowMs amb) |>
                <| up_updatedAt := nowMs amb |>).

Definition eraseUpload (amb : Ambient) (p : UploadProviderAdapter) (upload : Upload) : Proc World unit :=
  if providerKind p !== up_provider upload
  then throw (Failure ("Upload provider " ++ match up_provider upload with UpP_S3 => "S3" | UpP_CLOUDINARY => "CLOUDINARY" end
                       ++ " is required for account erasure"))
  else
    _ ← deleteObject p (refOf upload);
    _ ← transact (markErased amb (up_id upload));
    mret tt.

(** [for (const upload of uploads)] *)
Fixpoint eraseBatch (amb : Ambient) (p : UploadProviderAdapter) (batch : list Upload) : Proc World unit :=
  match batch with
  | [] => mret tt
  | upload :: rest => _ ← eraseUpload amb p upload; eraseBatch amb p rest
  end.

(** [for (;;)]: [None] when the fuel ran out before a batch was empty. *)
Fixpoint eraseUploads (fuel : nat) (amb : Ambient) (userId : string) (provider : option UploadProviderAdapter) :
    Proc World (option unit) :=
  match fuel with
  | 0 => mret None
  | S fuel =>
      batch ← transact (nextBatch userId);
      match batch with
      | [] => mret (Some tt)
      | _ =>
          match provider with
          | None => throw (Failure "Upload storage must be configured to finish account erasure")
          | Some p => _ ← eraseBatch amb p batch; eraseUploads fuel amb userId provider
          end
      end
  end.

(** [if (value.stripeCustomerId)] *)
Definition cancelBilling (fuel : nat) (customerId : option string) (stripeClient : option StripeClient) :
    Proc World (option unit) :=
  match customerId with
  | None => mret (Some tt)
  | Some customer =>
      match stripeClient with
      | None => throw (Failure "Stripe must be configured to finish account erasure")
      | Some client =>
          canceled ← cancelCustomerSubscriptions fuel customer client;
          mret ((fun _ => tt) <$> canceled)
      end
  end.

Definition processAccountErasure (isUuid : string -> bool) (fuel : nat) (amb : Ambient) (payload : Json)
    (stripeClient : option StripeClient) (uploadProvider : option UploadProviderAdapter) : Proc World (option unit) :=
  value ← transact (tx_lift (accountErasurePayload isUuid payload));
  billing ← cancelBilling fuel (ep_stripeCustomerId value) stripeClient;
  match billing with
  | None => mret None
  | Some _ =>
      withoutTenantScope "account-erasure-worker"
        (fun amb => eraseUploads fuel amb (ep_userId value) uploadProvider) amb
  end.
End Erasure.

(** ** Account erasure finishes *)

(** A storage that deletes what it is asked to, leaving one request on record per object. *)
Class ObjectEraser (a : UploadProviderAdapter) (receipt : ObjectRef -> Call) := {
  deleteObject_runs : forall input w,
    deleteObject a input w = (Ok tt, w <| calls ::= fun l => (l ++ [receipt input])%list |>)
}.

#[export] Instance S3_eraser `{Platform} amb bucket client :
  (forall key n, s3_delete client bucket key n = Ok tt) ->
  ObjectEraser (createS3UploadProvider amb bucket client)
    (fun input => mkCall "s3.DeleteObject" None (JStr (or_objectKey input))).
Proof. intros Hs. split. intros input w. cbn. unfold provider. by rewrite Hs. Qed.

Section Erasure.
Context `{Platform}.
Context (a : UploadProviderAdapter) (receipt : ObjectRef -> Call) `{!ObjectEraser a receipt}.
Variables (amb : Ambient) (userId : string).
Implicit Types (w : World) (u v : Upload).

(** Identifiers identify, and only the erasure writes keys of its form. *)
Record wellKeyed w : Prop := {
  wk_ids : List.NoDup (List.map up_id (uploads w));
  wk_keys : forall u v, In u (uploads w) -> In v (uploads w) ->
              up_objectKey u = erasedKey (up_id v) -> up_id u = up_id v
}.

(** The object of [u] was removed, and its row says so. *)
Definition erased w u : Prop :=
  (exists u', In u' (uploads w) /\ up_id u' = up_id u /\ up_objectKey u' = erasedKey (up_id u)
              /\ is_set (up_storageDeletedAt u') = true)
  /\ In (receipt (refOf u)) (calls w).

(** Where the erasure stands: what was pending in [w0] is untouched or erased. *)
Record underway (w0 w : World) : Prop := {
  uw_keyed : wellKeyed w;
  uw_kind : forall u, In u (uploads w) -> pendingErasure userId u = true -> up_provider u = providerKind a;
  uw_track : forall u, In u (uploads w0) -> pendingErasure userId u = true -> In u (uploads w) \/ erased w u
}.

Definition pending w : nat := countWhere (pendingErasure userId) (uploads w).

Lemma erasedKey_inj x y : erasedKey x = erasedKey y -> x = y.
Proof. unfold erasedKey. intros [= Hx]. exact Hx. Qed.

Lemma pending_facts u : pendingErasure userId u = true -> up_storageDeletedAt u = None /\ is_set (up_deletedAt u) = true.
Proof.
  unfold pendingErasure. intros [[_ Hs]%andb_true_iff Hd]%andb_true_iff. split; [|done].
  unfold is_null in Hs. by destruct (up_storageDeletedAt u).
Qed.

(** The row of the upload just erased. *)
Definition stamp u : Upload :=
  u <| up_objectKey := erasedKey (up_id u) |> <| up_storageDeletedAt := Some (nowMs amb) |> <| up_updatedAt := nowMs amb |>.
Definition ofId (id : string) (u : Upload) : bool := (up_id u === id) && is_set (up_deletedAt u).
Definition erasedWorld u w : World :=
  put (updateWhere (ofId (up_id u)) stamp) (w <| calls ::= fun l => (l ++ [receipt (refOf u)])%list |>).

Lemma eraseUpload_runs w u : wellKeyed w -> In u (uploads w) -> pendingErasure userId u = true ->
  up_provider u = providerKind a -> eraseUpload amb a u w = (Ok tt, erasedWorld u w).
Proof.
  intros [Hnd Hkeys] Hu Hp Hk. destruct (pending_facts u Hp) as [_ Hd]. unfold eraseUpload. rewrite Hk, bd_refl. cbn [negb].
  rewrite (proc_call _ _ _ _ _ (deleteObject_runs _ _)).
  set (w1 := w <| calls ::= _ |>). unfold markErased.
  assert (Hf : findFirst (ofId (up_id u)) (uploads w1) = Some u).
  { destruct (findFirst_is_Some (ofId (up_id u)) (uploads w1) u Hu) as [u' Hf]; [unfold ofId; by rewrite bd_refl, Hd|].
    rewrite Hf. apply findFirst_Some in Hf as [Hu' [Hid _]%andb_true_iff]. bools.
    by rewrite (NoDup_key_inj up_id _ u' u Hnd Hu' Hu Hid). }
  erewrite proc_step; [reflexivity|]. unfold tx_update_unique_raw.
  change (table w1) with (uploads w1). fold (ofId (up_id u)). rewrite Hf.
  destruct (clashes _ _ _) eqn:Ec; [|reflexivity]. exfalso. unfold clashes in Ec.
  apply existsb_exists in Ec as (x & Hx & [HPx Ec]%andb_true_iff). apply existsb_exists in Ec as (y & Hy & [HPy Hc]%andb_true_iff).
  apply andb_true_iff in HPx as [Hxid _]. bools.
  assert (x = u) as -> by (by apply (NoDup_key_inj up_id _ x u Hnd)).
  assert (Hne : up_id y <> up_id u).
  { intros He. assert (y = u) as -> by (by apply (NoDup_key_inj up_id _ y u Hnd)). unfold ofId in HPy. by rewrite bd_refl, Hd in HPy. }
  cbn in Hc. apply orb_true_iff in Hc as [Hc|[_ Hc]%andb_true_iff]; bools; [by apply Hne|].
  apply Hne. by apply (Hkeys y u).
Qed.

Lemma In_erasedWorld w u v : In v (uploads (erasedWorld u w)) <->
  exists v0, In v0 (uploads w) /\ v = (if ofId (up_id u) v0 then stamp v0 else v0).
Proof. apply (In_updateWhere (ofId (up_id u)) stamp (uploads w)). Qed.

(** Only the row itself answers to its identifier. *)
Lemma ofId_row w u v : wellKeyed w -> In u (uploads w) -> In v (uploads w) -> ofId (up_id u) v = true -> v = u.
Proof.
  intros Hw Hu Hv [Hid _]%andb_true_iff. bools. by apply (NoDup_key_inj up_id (uploads w) v u); [apply Hw|..].
Qed.

Lemma wellKeyed_step w u : wellKeyed w -> In u (uploads w) -> wellKeyed (erasedWorld u w).
Proof.
  intros Hw Hu. pose proof Hw as [Hnd Hkeys]. split.
  - change (uploads (erasedWorld u w)) with (updateWhere (ofId (up_id u)) stamp (uploads w)). by rewrite map_updateWhere.
  - intros x y (x0 & Hx & ->)%In_erasedWorld (y0 & Hy & ->)%In_erasedWorld.
    assert (Hi : forall v, up_id (if ofId (up_id u) v then stamp v else v) = up_id v) by (intros v; by destruct (ofId _ v)).
    rewrite !Hi. destruct (ofId (up_id u) x0); [|by apply Hkeys]. cbn. apply erasedKey_inj.
Qed.

(** An upload of the batch is erased and everything else stays as it was. *)
Lemma step_runs w0 w u : underway w0 w -> In u (uploads w) -> pendingErasure userId u = true ->
  exists w1, eraseUpload amb a u w = (Ok tt, w1) /\ underway w0 w1 /\ pending w1 + 1 <= pending w
    /\ forall v, In v (uploads w) -> up_id v <> up_id u -> In v (uploads w1).
Proof.
  intros [Hw Hkind Htrack] Hu Hp. exists (erasedWorld u w).
  destruct (pending_facts u Hp) as [Hs Hd].
  assert (Hkeep : forall v, In v (uploads w) -> up_id v <> up_id u -> In v (uploads (erasedWorld u w))).
  { intros v Hv Hne. apply In_erasedWorld. exists v. split; [done|]. unfold ofId. by rewrite bd_ne. }
  assert (Hself : In (stamp u) (uploads (erasedWorld u w))).
  { apply In_erasedWorld. exists u. split; [done|]. unfold ofId. by rewrite bd_refl, Hd. }
  split; [by apply eraseUpload_runs; auto|]. split; [split|split; [|done]].
  - by apply wellKeyed_step.
  - intros v (v0 & Hv & ->)%In_erasedWorld. destruct (ofId (up_id u) v0); [|by apply Hkind].
    intros [Hn _]%pending_facts. discriminate Hn.
  - intros v Hv Hpv. destruct (Htrack v Hv Hpv) as [Hin|[(v' & Hv' & Hid & Hkey & Hst) Hc]].
    + destruct (decide (up_id v = up_id u)) as [He|Hne]; [|left; by apply Hkeep].
      assert (v = u) as -> by (apply (NoDup_key_inj up_id (uploads w) v u); [apply Hw|done..]).
      right. split; [by exists (stamp u)|]. apply in_app_iff. right. by left.
    + right. split; [|apply in_app_iff; by left]. exists v'. repeat split; try done. apply Hkeep; [done|].
      intros He. assert (v' = u) as -> by (apply (NoDup_key_inj up_id (uploads w) v' u); [apply Hw|done..]).
      by rewrite Hs in Hst.
  - unfold pending. change (uploads (erasedWorld u w)) with (updateWhere (ofId (up_id u)) stamp (uploads w)).
    rewrite (countWhere_split (ofId (up_id u)) (pendingErasure userId) (uploads w)).
    rewrite countWhere_update_out by (intros r _; unfold pendingErasure; cbn; by rewrite !andb_false_r).
    enough (0 < countWhere (fun r => pendingErasure userId r && ofId (up_id u) r) (uploads w)) by lia.
    apply countWhere_pos. exists u. split; [done|]. unfold ofId. by rewrite Hp, bd_refl, Hd.
Qed.

Lemma batch_runs w0 batch : forall w, underway w0 w -> List.NoDup (List.map up_id batch) ->
  (forall u, In u batch -> In u (uploads w) /\ pendingErasure userId u = true) ->
  exists w1, eraseBatch amb a batch w = (Ok tt, w1) /\ underway w0 w1 /\ pending w1 + length batch <= pending w.
Proof.
  induction batch as [|u rest IH]; intros w Hw Hnd Hb; [exists w; cbn; split; [done|]; split; [done|lia]|].
  cbn [List.map] in Hnd. apply List.NoDup_cons_iff in Hnd as [Hni Hnd]. destruct (Hb u (or_introl eq_refl)) as [Hu Hp].
  destruct (step_runs w0 w u Hw Hu Hp) as (w1 & H1 & Hw1 & Hc1 & Hkeep).
  destruct (IH w1 Hw1 Hnd) as (w2 & H2 & Hw2 & Hc2).
  { intros v Hv. destruct (Hb v (or_intror Hv)) as [Hin Hpv]. split; [|done]. apply Hkeep; [done|].
    intros He. apply Hni. rewrite <- He. by apply List.in_map. }
  exists w2. cbn [eraseBatch length]. rewrite (proc_call _ _ _ _ _ H1). split; [done|]. split; [done|lia].
Qed.

Lemma nextBatch_facts w batch w1 : wellKeyed w -> nextBatch userId w = Ok (batch, w1) ->
  w1 = w /\ List.NoDup (List.map up_id batch)
  /\ (forall u, In u batch -> In u (uploads w) /\ pendingErasure userId u = true)
  /\ (batch = [] -> pending w = 0).
Proof.
  intros [Hnd _] [= <- <-]. set (rows := findMany (pendingErasure userId) (uploads w)).
  assert (Hperm : Permutation.Permutation (orderAscId (fun _ => 0%Z) up_id rows) rows) by (unfold orderAscId; apply merge_sort_Permutation).
  set (sorted := orderAscId _ _ _) in *. split; [done|]. split; [|split].
  - apply (List.NoDup_app_remove_r _ (List.map up_id (skipn ERASURE_BATCH sorted))).
    rewrite <- List.map_app, firstn_skipn. eapply Permutation.Permutation_NoDup; [symmetry; by apply Permutation.Permutation_map|].
    by apply NoDup_map_findMany.
  - intros u Hu%In_firstn. eapply Permutation.Permutation_in in Hu; [|exact Hperm]. by apply In_findMany.
  - intros He. unfold pending, countWhere. change (length rows = 0). rewrite <- (Permutation.Permutation_length Hperm).
    by destruct sorted.
Qed.

Lemma loop_runs w0 fuel : forall w, underway w0 w -> pending w < fuel ->
  exists w', eraseUploads fuel amb userId (Some a) w = (Ok (Some tt), w') /\ underway w0 w' /\ pending w' = 0.
Proof.
  induction fuel as [|fuel IH]; intros w Hw Hf; [lia|]. cbn [eraseUploads].
  destruct (nextBatch userId w) as [[batch w1]|] eqn:Eb; [|discriminate Eb].
  destruct (nextBatch_facts w batch w1 (uw_keyed _ _ Hw) Eb) as (-> & Hnd & Hin & Hnil).
  rewrite (proc_step _ _ _ _ _ Eb). destruct batch as [|u rest]; [exists w; auto|].
  destruct (batch_runs w0 (u :: rest) w Hw Hnd Hin) as (w2 & H2 & Hw2 & Hc). rewrite (proc_call _ _ _ _ _ H2).
  apply IH; [done|]. cbn in Hc. lia.
Qed.
End Erasure.

(** ** The subscriptions *)

(** Stripe answers, and its pages come to an end: [rank] counts those still to come after a cursor. *)
Record finitePages (client : StripeClient) (customer : string) (rank : option string -> nat) : Prop := {
  list_answers : forall cursor n, exists page, subscriptions_list client (listParams customer 100 cursor) n = Ok page
                   /\ (sp_has_more page = true -> rank (lastId page) < rank cursor);
  cancel_answers : forall id n, exists s, subscriptions_cancel client id n = Ok s
}.

Section Billing.
Context `{Platform}.

Lemma quiet_cancelPage client l : forall n, quiet (cancelPage client l n).
Proof. induction l as [|s rest IH]; intros n; cbn; [quiet|]. destruct (negb _); [|apply IH]. apply quiet_bind; [quiet|auto]. Qed.
Lemma quiet_cancelPages fuel client customer : forall cursor n, quiet (cancelPages fuel client customer cursor n).
Proof.
  induction fuel as [|fuel IH]; intros cursor n; cbn; [quiet|]. apply quiet_bind; [quiet|intros page].
  apply quiet_bind; [apply quiet_cancelPage|intros k]. destruct (truthy _); [apply IH|quiet].
Qed.
Lemma quiet_cancelBilling fuel customer client : quiet (cancelBilling fuel customer client).
Proof. unfold cancelBilling. destruct customer, client; quiet. apply quiet_cancelPages. Qed.

Lemma cancelPage_ends client customer rank l : finitePages client customer rank ->
  forall n w, exists k w', cancelPage client l n w = (Ok k, w').
Proof.
  intros Hc. induction l as [|s rest IH]; intros n w; cbn; [eauto|]. destruct (negb _); [|apply IH].
  destruct (cancel_answers _ _ _ Hc (ss_id s) (length (calls w))) as [x Hx].
  erewrite proc_call by (unfold provider; rewrite Hx; reflexivity). apply IH.
Qed.

Lemma cancelPages_end client customer rank fuel : finitePages client customer rank ->
  forall cursor n w, rank cursor < fuel -> exists k w', cancelPages fuel client customer cursor n w = (Ok (Some k), w').
Proof.
  intros Hc. induction fuel as [|fuel IH]; intros cursor n w Hf; [lia|]. cbn.
  destruct (list_answers _ _ _ Hc cursor (length (calls w))) as (page & Hp & Hrank).
  erewrite proc_call by (unfold provider; rewrite Hp; reflexivity).
  destruct (cancelPage_ends client customer rank (sp_data page) Hc n (w <| calls ::= fun l => (l ++ [mkCall "subscriptions.list" None (listParams customer 100 cursor)])%list |>)) as (k & w1 & H1).
  rewrite (proc_call _ _ _ _ _ H1). destruct (sp_has_more page); [|eauto].
  destruct (truthy (lastId page)); [|eauto]. apply IH. specialize (Hrank eq_refl). lia.
Qed.
End Billing.

(** C27: Account erasure finishes. With a storage that deletes what it is asked to, every deleted upload of the
    user kept by that storage, a Stripe that answers and whose subscription pages end, and fuel for the pages
    and the pending uploads, the worker's run ends successfully: the object of every upload that was pending
    was deleted and its row carries the erased key and the time of deletion, and no deleted upload of the user
    is left whose object has not been removed. *)
Theorem account_erasure_finishes `{Platform} (a : UploadProviderAdapter) (receipt : ObjectRef -> Call) `{!ObjectEraser a receipt}
    isUuid fuel amb payload value client rank w :
  accountErasurePayload isUuid payload = Ok value ->
  (forall customer, ep_stripeCustomerId value = Some customer ->
     exists c, client = Some c /\ finitePages c customer rank /\ rank None < fuel) ->
  wellKeyed w ->
  (forall u, In u (uploads w) -> pendingErasure (ep_userId value) u = true -> up_provider u = providerKind a) ->
  pending (ep_userId value) w < fuel ->
  exists w', processAccountErasure isUuid fuel amb payload client (Some a) w = (Ok (Some tt), w')
    /\ (forall u, In u (uploads w) -> pendingErasure (ep_userId value) u = true -> erased receipt w' u)
    /\ (forall u, In u (uploads w') -> pendingErasure (ep_userId value) u = false).
Proof.
  intros Hpay Hbill Hw Hkind Hfuel. unfold processAccountErasure. rewrite Hpay.
  change (transact (tx_lift (Ok value))) with (fun w : World => (Ok value, w)). unfold mbind at 1, proc_bind.
  assert (Hb : exists w1, cancelBilling fuel (ep_stripeCustomerId value) client w = (Ok (Some tt), w1)).
  { unfold cancelBilling. destruct (ep_stripeCustomerId value) as [customer|]; [|by exists w].
    destruct (Hbill customer eq_refl) as (c & -> & Hc & Hr).
    destruct (cancelPages_end c customer rank fuel Hc None 0 w Hr) as (k & w1 & H1). exists w1.
    by rewrite (proc_call _ _ _ _ _ H1). }
  destruct Hb as [w1 Hb]. rewrite (proc_call _ _ _ _ _ Hb).
  assert (Hu : uploads w1 = uploads w).
  { pose proof (quiet_cancelBilling fuel (ep_stripeCustomerId value) client (fun x => uploads x = uploads w)
      (fun x call Hx => Hx) w eq_refl) as Hq. by rewrite Hb in Hq. }
  unfold withoutTenantScope, runWithRequestContext. set (amb' := amb <| reqContext := _ |>).
  destruct (loop_runs a receipt amb' (ep_userId value) w fuel w1) as (w' & Hr & Hunder & Hz).
  - split; rewrite ?Hu; [destruct Hw; split; by rewrite Hu|done|by left].
  - unfold pending. by rewrite Hu.
  - exists w'. split; [done|]. unfold pending in Hz. rewrite countWhere_0 in Hz. split; [|done].
    intros u Hin Hp. destruct (uw_track _ _ _ _ _ Hunder u Hin Hp) as [Hstill|He]; [|done].
    by rewrite (Hz u Hstill) in Hp.
Qed.

(** ** A run *)

Section Witness.
Local Existing Instance demoPlatform.

Definition silent : Error := Failure "not asked".
Definition demoSubscription (id : string) : Subscription := mkSubscription id "active" "cus_1" [] false None [].
(** A customer with two pages of subscriptions. *)
Definition demoBilling : StripeClient := {|
  customers_create _ _ _ := Err silent; customers_update _ _ _ _ := Err silent;
  paymentIntents_create _ _ _ := inr (mkStripeFailure None EmptyString None); paymentIntents_retrieve _ _ := Err silent;
  charges_retrieve _ _ := Err silent; refunds_create _ _ _ := Err silent;
  setupIntents_create _ _ _ := Err silent; paymentMethods_detach _ _ _ := Err silent;
  promotionCodes_list _ _ := Err silent; coupons_retrieve _ _ := Err silent;
  checkout_sessions_create _ _ _ := Err silent; checkout_sessions_retrieve _ _ := Err silent;
  billingPortal_sessions_create _ _ _ := Err silent;
  subscriptions_list params _ :=
    if is_set (jget "starting_after" params) then Ok (mkSubscriptionPage [demoSubscription "sub_2"] false)
    else Ok (mkSubscriptionPage [demoSubscription "sub_1"] true);
  subscriptions_retrieve _ _ := Err silent; subscriptions_update _ _ _ _ := Err silent;
  subscriptions_cancel _ _ := Ok tt; webhooks_constructEvent _ _ _ := Err silent; retrieve_object _ _ _ := Err silent
|}.
Definition demoRank (cursor : option string) : nat := if truthy cursor then 0 else 1.
Definition demoStorage : S3Client :=
  mkS3Client (fun _ _ _ => Err silent) (fun _ _ _ _ => Err silent) (fun _ _ _ => Ok tt) (fun _ _ _ => Err silent).
Definition deletedFile (id key : string) : Upload :=
  mkUpload id (Some "org-1") "u1" UpP_S3 Up_DELETED UpV_PRIVATE key "photo.png" "image/png" 10 None None None None None None
    None None 0 None None 0 0 (Some 100%Z).
Definition demoLeft : World := emptyWorld <| uploads := [deletedFile "f1" "u1/2024/01/a"; deletedFile "f2" "u1/2024/01/b"] |>.
Definition demoPayload : Json := JObj [("userId", JStr "u1"); ("stripeCustomerId", JStr "cus_1")].
Definition demoWorker : Ambient := mkAmbient 5000 None.

Example account_erasure_finishes_witness : exists w',
  processAccountErasure (fun _ => true) 3 demoWorker demoPayload (Some demoBilling)
    (Some (createS3UploadProvider demoWorker "bucket" demoStorage)) demoLeft = (Ok (Some tt), w')
  /\ length (calls w') = 6
  /\ (forall u, In u (uploads w') -> pendingErasure "u1" u = false).
Proof.
  assert (Heraser : ObjectEraser (createS3UploadProvider demoWorker "bucket" demoStorage)
                      (fun input => mkCall "s3.DeleteObject" None (JStr (or_objectKey input)))) by (by apply S3_eraser).
  destruct (account_erasure_finishes (createS3UploadProvider demoWorker "bucket" demoStorage)
              (fun input => mkCall "s3.DeleteObject" None (JStr (or_objectKey input)))
              (fun _ => true) 3 demoWorker demoPayload (mkErasurePayload "u1" (Some "cus_1")) (Some demoBilling) demoRank demoLeft)
    as (w' & Hr & _ & Hnone).
  - reflexivity.
  - intros customer [= <-]. exists demoBilling. split; [reflexivity|]. split; [split|cbn; lia].
    + intros [[|x cursor]|] n.
      * exists (mkSubscriptionPage [demoSubscription "sub_1"] true). split; [reflexivity|intros _; vm_compute; lia].
      * exists (mkSubscriptionPage [demoSubscription "sub_2"] false). split; [reflexivity|discriminate].
      * exists (mkSubscriptionPage [demoSubscription "sub_1"] true). split; [reflexivity|intros _; vm_compute; lia].
    + intros id n. exists tt. reflexivity.
  - split; [repeat constructor; cbn; intuition discriminate|].
    intros u v [<-|[<-|[]]] [<-|[<-|[]]] Hk; first [reflexivity|discriminate Hk].
  - intros u [<-|[<-|[]]]; reflexivity.
  - vm_compute. lia.
  - exists w'. split; [exact Hr|]. split; [|exact Hnone]. vm_compute in Hr. injection Hr as <-. reflexivity.
Defined.
End Witness.
