(* ===== verification/Chat.v ===== *)
(** * Chat

    modules/chat/chat.service.ts: conversations, their participants and their messages. A message and its
    sequence number are written by one SQL statement, here one transaction on the tables; BigInt columns
    are 64-bit, and PostgreSQL refuses to count past them. *)

From Stdlib Require Import ZArith Lia Bool.
From S2P Require Import Prelude Store Database JsString Platform Request TenantScope.

Open Scope string_scope.

Definition MAX_PARTICIPANTS : nat := 256.
Definition MESSAGE_PAGE_SIZE : nat := 50.
Definition MAX_SAFE_INTEGER : Z := 9007199254740991.
Definition BIGINT_MAX : Z := 9223372036854775807.

Definition serializeMessage (message : Message) : res Message :=
  if (MAX_SAFE_INTEGER <? msg_seq message)%Z then Err (Failure "Message sequence exceeds the JSON-safe integer range")
  else Ok message.

(** [messages.map(serializeMessage)] *)
Fixpoint serializeMessages (l : list Message) : res (list Message) :=
  match l with
  | [] => Ok []
  | m :: rest =>
      match serializeMessage m with
      | Err e => Err e
      | Ok m' => match serializeMessages rest with Ok ms => Ok (m' :: ms) | Err e => Err e end
      end
  end.

(** The unique violation of a raw statement: P2010 with PostgreSQL's 23505. *)
Definition rawUniqueViolation : Error := Known "P2010:23505".
Definition bigintOutOfRange : Error := Known "P2010:22003".
Definition isUniqueViolation (e : Error) : bool := (e === Known "P2002") || (e === rawUniqueViolation).

Record CreateConversationInput := mkCreateConversation {
  cci_type : ConversationType; cci_participantUserIds : list string; cci_title : option string
}.
Record SendMessageInput := mkSendMessage {
  smi_clientMessageId : string; smi_body : option string; smi_uploadId : option string; smi_type : option MessageType
}.
Record ConversationView := mkConversationView { cv_conversation : Conversation; cv_unreadCount : Z }.

(** A live conversation of that identifier. *)
Definition liveConversation (id : string) (w : World) : bool :=
  existsb (fun c => (conv_id c === id) && is_null (conv_deletedAt c)) (conversations w).

(** [orderBy: { lastMessageAt: 'desc' }]: PostgreSQL puts NULL first. *)
Definition orderByLastMessage {R} (lastMessageAt : R -> option Z) (l : list R) : list R :=
  (List.filter (fun r => is_null (lastMessageAt r)) l
   ++ orderByDesc (fun r => lastMessageAt r ??? 0%Z) (List.filter (fun r => is_set (lastMessageAt r)) l))%list.

Definition directConversationKey (participantIds : list string) (organizationId : option string) : string :=
  (organizationId ??? "global") ++ ":" ++ join ":" (sortStrings participantIds).

Section Chat.
Context `{Platform}.
Variable amb : Ambient.

Definition activeOrganizationId : option string := ambientOrganization amb.

(** [...organizationFilter()] *)
Definition organizationFilter : Owner :=
  if truthy activeOrganizationId then Some activeOrganizationId else None.

(** The conversation of a participant row. *)
Definition conversationOf (w : World) (p : ConversationParticipant) : option Conversation :=
  findFirst (fun c => conv_id c === part_conversationId p) (conversations w).

(** The participant row with its conversation's [lastSeq]. *)
Definition requireParticipant (conversationId userId : string) : Tx World (ConversationParticipant * Z) :=
  w ← tx_world;
  participant ← sc_findFirst amb organizationFilter (fun p =>
    (part_conversationId p === conversationId) && (part_userId p === userId)
    && is_null (part_leftAt p) && liveConversation (part_conversationId p) w);
  p ← tx_require participant (errors.notFound "Conversation not found");
  mret (p, (conv_lastSeq <$> conversationOf w p) ??? 0%Z).

Definition listConversations (userId : string) (limit : nat) : Proc World (list ConversationView) :=
  transact (
    w ← tx_world;
    rows ← sc_findMany amb organizationFilter (fun p =>
      (part_userId p === userId) && is_null (part_leftAt p) && liveConversation (part_conversationId p) w);
    let joined := omap (fun p => (fun c => (p, c)) <$> conversationOf w p) rows in
    mret (List.map (fun pc => mkConversationView (snd pc) (Z.max 0 (conv_lastSeq (snd pc) - part_lastReadSeq (fst pc))))
            (firstn limit (orderByLastMessage (fun pc => conv_lastMessageAt (snd pc)) joined)))).

(** ** Creating a conversation *)

Definition reachableUser (participantIds : list string) (w : World) (u : User) : bool :=
  mem (user_id u) participantIds && (user_status u === User_ACTIVE)
  && (if truthy activeOrganizationId
      then existsb (fun m => (mem_userId m === user_id u) && (Some (mem_organizationId m) === activeOrganizationId)
                             && (mem_status m === Mem_ACTIVE) && is_null (mem_deletedAt m)) (memberships w)
      else true).

Definition findDirectConversation (directKey : string) : Tx World (option Conversation) :=
  sc_findFirst amb None (fun c => (conv_directKey c === Some directKey) && (conv_type c === Conv_DIRECT)).

(** One row of the nested [participants: { create: [...] }]. *)
Definition addParticipant (conversationId userId participantId : string) : Tx World unit :=
  id ← newId;
  _ ← tx_create (mkConversationParticipant id (if truthy activeOrganizationId then activeOrganizationId else None)
        conversationId participantId (if participantId === userId then Part_OWNER else Part_MEMBER) 0 None None None);
  mret tt.

(** [prisma.conversation.create] with its participants: one statement. *)
Definition insertConversation (userId : string) (input : CreateConversationInput) (participantIds : list string)
    (directKey : option string) : Tx World Conversation :=
  id ← newId;
  created ← sc_create amb organizationFilter
    (mkConversation id (if truthy activeOrganizationId then activeOrganizationId else None) (cci_type input)
       (cci_title input) (Some userId) 0 None directKey (nowMs amb) None);
  _ ← tx_for participantIds (addParticipant (conv_id created) userId);
  mret created.

Definition createConversation (userId : string) (input : CreateConversationInput) : Proc World Conversation :=
  let participantIds := unique (userId :: cci_participantUserIds input) in
  let direct := cci_type input === Conv_DIRECT in
  if (MAX_PARTICIPANTS <? length participantIds)%nat
  then throw (errors.badRequest ("A conversation may have at most " ++ show (Z.of_nat MAX_PARTICIPANTS) ++ " participants"))
  else if direct && negb (length participantIds =? 2)%nat
  then throw (errors.badRequest "A direct conversation must have exactly two participants")
  else
    reachable ← transact (w ← tx_world; tx_count (reachableUser participantIds w));
    if negb (reachable =? length participantIds)%nat
    then throw (errors.badRequest "Every participant must be an active member of this organization")
    else
      let directKey := if direct then Some (directConversationKey participantIds activeOrganizationId) else None in
      existing ← (match directKey with Some key => transact (findDirectConversation key) | None => mret None end
                  : Proc World (option Conversation));
      match existing with
      | Some c => mret c
      | None =>
          try_catch (transact (insertConversation userId input participantIds directKey))
            (fun error =>
               match directKey with
               | Some key =>
                   if error === Known "P2002" then
                     winner ← transact (findDirectConversation key);
                     match winner with Some c => mret c | None => throw error end
                   else throw error
               | None => throw error
               end)
      end.

(** ** Sending *)

(** [INSERT ... RETURNING]: a unique violation is the raw statement's. *)
Definition insertMessage (m : Message) : Tx World Message := fun w =>
  match tx_create m w with Ok r => Ok r | Err _ => Err rawUniqueViolation end.

Definition ofConversation (conversationId : string) (c : Conversation) : bool :=
  (conv_id c === conversationId) && is_null (conv_deletedAt c)
  && (conv_organizationId c === (if truthy activeOrganizationId then activeOrganizationId else None)).

(** The statement: [next_sequence] takes the number, the insert uses it. *)
Definition sendStatement (conversationId userId : string) (input : SendMessageInput) : Tx World (option Message) :=
  found ← tx_findFirst_raw (ofConversation conversationId);
  match found with
  | None => mret None
  | Some c =>
      let seq := (conv_lastSeq c + 1)%Z in
      if (BIGINT_MAX <? seq)%Z then tx_throw bigintOutOfRange
      else
        _ ← tx_updateMany_raw (ofConversation conversationId)
              (fun c => c <| conv_lastSeq ::= Z.add 1 |> <| conv_lastMessageAt := Some (nowMs amb) |>);
        id ← newId;
        m ← insertMessage (mkMessage id (conv_organizationId c) (conv_id c) (Some userId) seq (smi_clientMessageId input)
               (smi_type input ??? if truthy (smi_uploadId input) then Msg_ATTACHMENT else Msg_TEXT)
               (smi_body input) (smi_uploadId input) None (nowMs amb) None);
        mret (Some m)
  end.

Definition attachmentReady (userId : string) (input : SendMessageInput) : Tx World unit :=
  if truthy (smi_uploadId input) then
    upload ← sc_findFirst amb None (fun u =>
      (Some (up_id u) === smi_uploadId input) && (up_userId u === userId) && (up_status u === Up_READY));
    tx_guard (is_set upload) (errors.badRequest "Attachment is not available")
  else mret tt.

Definition sendMessage (conversationId userId : string) (input : SendMessageInput) : Proc World (Message * bool) :=
  _ ← transact (requireParticipant conversationId userId);
  _ ← transact (attachmentReady userId input);
  try_catch
    (inserted ← transact (sendStatement conversationId userId input);
     match inserted with
     | Some m => mret (m, false)
     | None => throw (errors.notFound "Conversation not found")
     end)
    (fun error =>
       if isUniqueViolation error then
         existing ← transact (sc_findFirst amb organizationFilter (fun m =>
           (msg_conversationId m === conversationId) && (msg_clientMessageId m === smi_clientMessageId input)));
         match existing with Some m => mret (m, true) | None => throw error end
       else throw error).

(** ** Reading *)

(** The spread writes [seq] twice: with both bounds given only the upper one is left. *)
Definition seqFilter (afterSeq beforeSeq : option Z) (m : Message) : bool :=
  match beforeSeq, afterSeq with
  | Some b, _ => (msg_seq m <? b)%Z
  | None, Some a => (a <? msg_seq m)%Z
  | None, None => true
  end.

Definition listMessages (conversationId userId : string) (afterSeq beforeSeq : option Z) (limit : option nat) :
    Proc World (list Message) :=
  _ ← transact (requireParticipant conversationId userId);
  let take := Nat.min (limit ??? MESSAGE_PAGE_SIZE) MESSAGE_PAGE_SIZE in
  found ← transact (sc_findMany amb organizationFilter (fun m =>
    (msg_conversationId m === conversationId) && seqFilter afterSeq beforeSeq m));
  let ordered := if is_set afterSeq then orderByAsc msg_seq found else orderByDesc msg_seq found in
  transact (tx_lift (serializeMessages (firstn take ordered))).

Definition markRead (conversationId userId : string) (seq : Z) : Proc World Z :=
  found ← transact (requireParticipant conversationId userId);
  let '(participant, lastSeq) := found in
  if (lastSeq <? seq)%Z then throw (errors.badRequest "Read sequence cannot be ahead of the conversation")
  else if (seq <=? part_lastReadSeq participant)%Z then mret (part_lastReadSeq participant)
  else
    updated ← transact (sc_update amb organizationFilter (fun p => part_id p === part_id participant)
                          (fun p => p <| part_lastReadSeq := seq |>));
    mret (part_lastReadSeq updated).

Definition deleteMessage (messageId userId : string) : Proc World (string * string) :=
  found ← transact (sc_findFirst amb organizationFilter (fun m => (msg_id m === messageId) && is_null (msg_deletedAt m)));
  match found with
  | None => throw (errors.notFound "Message not found")
  | Some message =>
      _ ← transact (requireParticipant (msg_conversationId message) userId);
      if msg_senderUserId message !== Some userId
      then throw (errors.forbidden "You can only delete your own messages")
      else
        _ ← transact (sc_update amb organizationFilter (fun m => msg_id m === msg_id message)
              (fun m => m <| msg_deletedAt := Some (nowMs amb) |> <| msg_body := None |> <| msg_uploadId := None |>));
        mret (msg_id message, msg_conversationId message)
  end.

Definition listParticipantUserIds (conversationId : string) : Proc World (list string) :=
  rows ← transact (sc_findMany amb organizationFilter (fun p =>
    (part_conversationId p === conversationId) && is_null (part_leftAt p)));
  mret (List.map part_userId rows).
End Chat.
