(* ===== verification/ChatSpec.v ===== *)
(** * What a conversation promises

    The messages of a conversation are numbered 1, 2, 3, ... without a gap, whatever is sent, retried,
    read or deleted, so a client that knows its last number can fetch exactly what it missed. *)

From Stdlib Require Import ZArith Lia Bool.
From stdpp Require Import sorting.
From S2P Require Import Prelude Store Database JsString Platform Request TenantScope AuditTrail Chat.

Open Scope string_scope.

(** The messages of a conversation, in the order they were sent. *)
Definition messagesIn (id : string) (ms : list Message) : list Message :=
  List.filter (fun m => msg_conversationId m === id) ms.
Definition messagesOf (id : string) (w : World) : list Message := messagesIn id (messages w).
(** 1, 2, ..., n *)
Definition upTo (n : Z) : list Z := List.map Z.of_nat (List.seq 1 (Z.to_nat n)).

Record numbered (cs : list Conversation) (ps : list ConversationParticipant) (ms : list Message) : Prop := {
  d_ids : List.NoDup (List.map conv_id cs);
  d_home : forall m, In m ms -> exists c, In c cs /\ conv_id c = msg_conversationId m
             /\ conv_organizationId c = msg_organizationId m;
  d_seat : forall p, In p ps -> exists c, In c cs /\ conv_id c = part_conversationId p
             /\ conv_organizationId c = part_organizationId p;
  d_seqs : forall c, In c cs -> (0 <= conv_lastSeq c)%Z
             /\ List.map msg_seq (messagesIn (conv_id c) ms) = upTo (conv_lastSeq c);
  d_clients : forall m m', In m ms -> In m' ms -> msg_conversationId m = msg_conversationId m' ->
             msg_clientMessageId m = msg_clientMessageId m' -> m = m'
}.

(** Every conversation numbers its messages without a gap; every row is of its conversation's organization. *)
Definition dense (w : World) : Prop := numbered (conversations w) (conversationParticipants w) (messages w).

Lemma upTo_succ n : (0 <= n)%Z -> upTo (n + 1) = (upTo n ++ [(n + 1)%Z])%list.
Proof.
  intros Hn. unfold upTo. replace (Z.to_nat (n + 1)) with (S (Z.to_nat n)) by lia.
  rewrite List.seq_S, List.map_app. cbn [List.map]. f_equal. f_equal. lia.
Qed.

(** Updates of the rows that keep what the numbering speaks about. *)
Lemma dense_participants P f w : (forall p, part_conversationId (f p) = part_conversationId p) ->
  (forall p, part_organizationId (f p) = part_organizationId p) -> dense w ->
  dense (put (R := ConversationParticipant) (updateWhere P f) w).
Proof.
  intros Hc Ho [H1 H2 H3 H4 H5]. split; [exact H1|exact H2| |exact H4|exact H5].
  intros p (p0 & Hp & ->)%In_updateWhere. destruct (P p0); [rewrite Hc, Ho|]; by apply H3.
Qed.

Lemma filter_map_same {A} (P : A -> bool) (f : A -> A) l : (forall x, P (f x) = P x) ->
  List.filter P (List.map f l) = List.map f (List.filter P l).
Proof. intros Hf. induction l as [|x l IH]; cbn; [done|]. rewrite Hf. destruct (P x); cbn; by rewrite IH. Qed.

Lemma dense_messages P f w : (forall m, msg_id (f m) = msg_id m) -> (forall m, msg_conversationId (f m) = msg_conversationId m) ->
  (forall m, msg_organizationId (f m) = msg_organizationId m) -> (forall m, msg_seq (f m) = msg_seq m) ->
  (forall m, msg_clientMessageId (f m) = msg_clientMessageId m) -> dense w -> dense (put (R := Message) (updateWhere P f) w).
Proof.
  intros Hi Hc Ho Hs Hcl [H1 H2 H3 H4 H5]. set (g := fun m => if P m then f m else m).
  assert (Hg : forall m, msg_conversationId (g m) = msg_conversationId m /\ msg_organizationId (g m) = msg_organizationId m
            /\ msg_seq (g m) = msg_seq m /\ msg_clientMessageId (g m) = msg_clientMessageId m).
  { intros m. unfold g. destruct (P m); auto. }
  split; [exact H1| |exact H3| |].
  - intros m (m0 & Hm & ->)%In_updateWhere. fold (g m0). destruct (Hg m0) as (-> & -> & _). by apply H2.
  - intros c Hin. destruct (H4 c Hin) as [Hn Hseq]. split; [done|]. unfold messagesIn in *. cbn. unfold updateWhere.
    rewrite filter_map_same by (intros m; fold (g m); by destruct (Hg m) as (-> & _)).
    rewrite List.map_map, <- Hseq. apply List.map_ext. intros m. by destruct (Hg m) as (_ & _ & Hx & _).
  - intros m m' (m0 & Hm & ->)%In_updateWhere (m1 & Hm' & ->)%In_updateWhere. fold (g m0) (g m1).
    destruct (Hg m0) as (-> & _ & _ & ->). destruct (Hg m1) as (-> & _ & _ & ->). intros E1 E2. f_equal. by apply H5.
Qed.

Lemma messagesIn_snoc id l m : messagesIn id (l ++ [m])%list = (messagesIn id l ++ if msg_conversationId m === id then [m] else [])%list.
Proof. unfold messagesIn. rewrite List.filter_app. cbn. by destruct (_ === _). Qed.

Section Chat.
Context `{Platform}.
Implicit Types (amb : Ambient) (w : World).

(** ** The rows a chat statement reaches *)

(** The request may use tenant-owned models at all. *)
Definition admitted amb : bool :=
  (TENANCY_MODE env === Tenancy_disabled)
  || match reqContext amb with Some (Request _ _ o) => truthy o | Some (Unscoped _) => true | None => false end.
(** The organizations it sees. *)
Definition sees amb (organizationId : option string) : bool :=
  if truthy (activeOrganizationId amb) then organizationId === activeOrganizationId amb else true.
Definition stored amb : option string := if truthy (activeOrganizationId amb) then activeOrganizationId amb else None.

Lemma chat_scope `{Model World R} `{TenantModel R} amb operation : mem modelName tenantScopedModels = true ->
  mem modelName nullableGlobalOwnerModels = false -> mem operation filterOperations = true -> operation <> "upsert" ->
  if admitted amb
  then (exists P, scopeFilter (R := R) amb operation (organizationFilter amb) = Ok P /\ forall r, P r = sees amb (organizationIdOf r))
       /\ scopeCreate (R := R) amb "create" (organizationFilter amb) = Ok (stored amb)
  else (exists e, scopeFilter (R := R) amb operation (organizationFilter amb) = Err e)
       /\ exists e, scopeCreate (R := R) amb "create" (organizationFilter amb) = Err e.
Proof.
  intros Hm Hn Hop Hu. unfold admitted. destruct (decide (TENANCY_MODE env = Tenancy_disabled)) as [Hd|Hd].
  - rewrite bool_decide_true by done. cbn [orb]. unfold scopeFilter, scopeCreate, extended, sees, stored, organizationFilter.
    rewrite !bool_decide_true by done. destruct (truthy (activeOrganizationId amb)) eqn:Et; [|eauto].
    destruct (activeOrganizationId amb) as [org|]; [|done]. split; [|done]. by eexists.
  - rewrite bool_decide_false by done. cbn [orb]. unfold organizationFilter, sees, stored, activeOrganizationId, ambientOrganization.
    destruct (reqContext amb) as [[rid uid o|reason]|] eqn:Ec.
    + destruct (truthy o) eqn:Et.
      * destruct o as [org|]; [|done].
        destruct (scope_request (R := R) amb rid uid org operation (Some (Some org)) Hd Hm Ec Et (or_intror eq_refl)) as [Hf Hc].
        rewrite Hf, Hc by done. split; [|done]. by eexists.
      * split; [by eapply scope_unresolved; eauto|]. by eapply (scope_unresolved amb rid uid o "create"); eauto.
    + cbn. rewrite (scopeFilter_unscoped _ reason), (scopeCreate_unscoped _ reason) by done. split; [|done]. by eexists.
    + split; [eapply (scope_unresolved amb "" None None operation)|eapply (scope_unresolved amb "" None None "create")]; eauto.
Qed.

(** The three models of the chat. *)
Class ChatModel (R : Type) `{TenantModel R} := {
  chat_scoped : mem modelName tenantScopedModels = true;
  chat_owned : mem modelName nullableGlobalOwnerModels = false
}.
#[export] Instance Conversation_chat : ChatModel Conversation.
Proof. by split; vm_compute. Qed.
#[export] Instance Participant_chat : ChatModel ConversationParticipant.
Proof. by split; vm_compute. Qed.
#[export] Instance Message_chat : ChatModel Message.
Proof. by split; vm_compute. Qed.

Section Statements.
Context {R : Type} `{Model World R} `{ChatModel R}.

Lemma sees_findFirst amb P w : admitted amb = true -> sc_findFirst (R := R) amb (organizationFilter amb) P w
  = Ok (findFirst (activeWhere (fun r => sees amb (organizationIdOf r) && P r)) (table w), w).
Proof.
  intros Ha. pose proof (chat_scope (R := R) amb "findFirst" chat_scoped chat_owned eq_refl ltac:(done)) as Hs.
  rewrite Ha in Hs. destruct Hs as [(Q & HQ & Heq) _]. unfold sc_findFirst. rewrite HQ.
  rewrite (tx_step _ _ w Q w eq_refl). unfold tx_findFirst. f_equal. f_equal. apply findFirst_ext. intros r _. cbn. by rewrite Heq.
Qed.
Lemma sees_findMany amb P w : admitted amb = true -> sc_findMany (R := R) amb (organizationFilter amb) P w
  = Ok (findMany (activeWhere (fun r => sees amb (organizationIdOf r) && P r)) (table w), w).
Proof.
  intros Ha. pose proof (chat_scope (R := R) amb "findMany" chat_scoped chat_owned eq_refl ltac:(done)) as Hs.
  rewrite Ha in Hs. destruct Hs as [(Q & HQ & Heq) _]. unfold sc_findMany. rewrite HQ.
  rewrite (tx_step _ _ w Q w eq_refl). unfold tx_findMany. f_equal. f_equal. apply List.filter_ext. intros r. cbn. by rewrite Heq.
Qed.
Lemma refused_findFirst amb P w : admitted amb = false -> exists e, sc_findFirst (R := R) amb (organizationFilter amb) P w = Err e.
Proof.
  intros Ha. pose proof (chat_scope (R := R) amb "findFirst" chat_scoped chat_owned eq_refl ltac:(done)) as Hs.
  rewrite Ha in Hs. destruct Hs as [[e He] _]. exists e. unfold sc_findFirst. by rewrite He.
Qed.
End Statements.

(** ** Conversations are created empty *)

Lemma dense_new c w : dense w -> conv_lastSeq c = 0%Z -> (forall x, In x (conversations w) -> conv_id x <> conv_id c) ->
  dense (put (R := Conversation) (fun l => l ++ [c])%list w).
Proof.
  intros [H1 H2 H3 H4 H5] Hz Hfresh. split.
  - cbn. rewrite List.map_app. apply List.NoDup_app; [done|by constructor; [intros []|constructor]|].
    intros x (y & <- & Hy)%List.in_map_iff [He|[]]. by apply (Hfresh y).
  - intros m Hm. destruct (H2 m Hm) as (x & Hx & ?). exists x. split; [|done]. apply in_app_iff. by left.
  - intros p Hp. destruct (H3 p Hp) as (x & Hx & ?). exists x. split; [|done]. apply in_app_iff. by left.
  - intros x [Hx|[<-|[]]]%in_app_iff; [by apply H4|]. rewrite Hz. split; [lia|].
    change (messages (put _ w)) with (messages w).
    destruct (messagesIn (conv_id c) (messages w)) as [|m rest] eqn:E; [done|]. exfalso.
    assert (Hm : In m (messagesIn (conv_id c) (messages w))) by (rewrite E; by left). apply List.filter_In in Hm as [Hm Hc]. bools.
    destruct (H2 m Hm) as (x & Hx & Hid & _). by apply (Hfresh x Hx); congruence.
  - exact H5.
Qed.

(** A conversation to seat participants in. *)
Definition seated (id : string) (organizationId : option string) w : Prop :=
  dense w /\ exists c, In c (conversations w) /\ conv_id c = id /\ conv_organizationId c = organizationId.

Lemma pres_addParticipant amb id userId participantId :
  tx_pres (seated id (stored amb)) (addParticipant amb id userId participantId).
Proof.
  unfold addParticipant. pres. apply pres_create. intros w [Hw (c & Hc & Hid & Ho)]. split; [|by exists c].
  pose proof Hw as [H1 H2 H3 H4 H5]. split; [exact H1|exact H2| |exact H4|exact H5].
  intros p [Hp|[<-|[]]]%in_app_iff; [by apply H3|]. by exists c.
Qed.

Lemma pres_insertConversation amb userId input ids key : tx_pres dense (insertConversation amb userId input ids key).
Proof.
  intros w c w' Hw Hr. unfold insertConversation, sc_create in Hr.
  apply bind_ok in Hr as (id & w1 & [= <- <-] & Hr). apply bind_ok in Hr as (c1 & w2 & Hc & Hr).
  apply bind_ok in Hc as (o & w3 & [Ho <-]%lift_ok & Hc). apply create_ok in Hc as (-> & -> & Hfresh).
  apply bind_ok in Hr as (u & w4 & Hfor & [_ <-]%ret_ok).
  assert (Hs : o = stored amb).
  { pose proof (chat_scope (R := Conversation) amb "findFirst" chat_scoped chat_owned eq_refl ltac:(done)) as Hs.
    destruct (admitted amb); [destruct Hs as [_ Hs]|destruct Hs as [_ [e Hs]]]; rewrite Hs in Ho; congruence. }
  subst o. set (c1 := stampOrganization (stored amb) _) in *.
  enough (Hs : seated (conv_id c1) (stored amb) w4) by apply Hs.
  eapply pres_for; [intros x; apply pres_addParticipant| |exact Hfor]. split.
  - apply dense_new; [exact Hw|done|]. intros x Hx He. specialize (Hfresh x Hx). cbn in Hfresh.
    apply orb_false_iff in Hfresh as [Hid _]. bools. by apply Hid.
  - exists c1. split; [|done]. apply in_app_iff. right. by left.
Qed.

(** ** A message takes the next number *)

Definition advance amb (c : Conversation) : Conversation :=
  c <| conv_lastSeq ::= Z.add 1 |> <| conv_lastMessageAt := Some (nowMs amb) |>.

(** The row the statement writes. *)
Definition written amb userId input (c : Conversation) (id : string) : Message :=
  mkMessage id (conv_organizationId c) (conv_id c) (Some userId) (conv_lastSeq c + 1) (smi_clientMessageId input)
    (smi_type input ??? if truthy (smi_uploadId input) then Msg_ATTACHMENT else Msg_TEXT)
    (smi_body input) (smi_uploadId input) None (nowMs amb) None.

(** The state after the statement, for the conversation it found. *)
Definition sent amb conversationId userId input (c : Conversation) w : World :=
  put (R := Message) (fun l => l ++ [written amb userId input c (uuid (drawn w))])%list
    (put (R := Conversation) (updateWhere (ofConversation amb conversationId) (advance amb)) w <| drawn ::= S |>).

Lemma sendStatement_run amb conversationId userId input w :
  sendStatement amb conversationId userId input w =
  match findFirst (ofConversation amb conversationId) (conversations w) with
  | None => Ok (None, w)
  | Some c =>
      if (BIGINT_MAX <? conv_lastSeq c + 1)%Z then Err bigintOutOfRange
      else if existsb (clash (written amb userId input c (uuid (drawn w)))) (messages w) then Err rawUniqueViolation
      else Ok (Some (written amb userId input c (uuid (drawn w))), sent amb conversationId userId input c w)
  end.
Proof.
  unfold sendStatement, mbind at 1, tx_bind at 1, tx_findFirst_raw. cbn [table Conversation_model].
  destruct (findFirst (ofConversation amb conversationId) (conversations w)) as [c|] eqn:E; [|done]. cbn zeta.
  destruct (_ <? _)%Z; [done|]. unfold mbind, tx_bind, tx_updateMany_raw, newId, insertMessage, tx_create.
  match goal with |- context [existsb ?f ?l] =>
    change (existsb f l) with (existsb (clash (written amb userId input c (uuid (drawn w)))) (messages w)) end.
  by destruct (existsb _ _).
Qed.

(** The numbering after the statement. *)
Lemma dense_sent amb conversationId userId input c w : dense w ->
  findFirst (ofConversation amb conversationId) (conversations w) = Some c ->
  existsb (clash (written amb userId input c (uuid (drawn w)))) (messages w) = false ->
  dense (sent amb conversationId userId input c w).
Proof.
  intros Hw Hf Hfresh. pose proof Hw as [H1 H2 H3 H4 H5]. apply findFirst_Some in Hf as [Hc Hof].
  set (m := written _ _ _ _ _) in *. set (P := ofConversation amb conversationId) in *.
  assert (HP : forall x, In x (conversations w) -> P x = true -> x = c).
  { intros x Hx HPx. unfold P, ofConversation in HPx, Hof. bools. apply (NoDup_key_inj conv_id _ x c H1 Hx Hc). congruence. }
  assert (Hid : forall x, conv_id (if P x then advance amb x else x) = conv_id x) by (intros x; by destruct (P x)).
  assert (Horg : forall x, conv_organizationId (if P x then advance amb x else x) = conv_organizationId x) by (intros x; by destruct (P x)).
  assert (Hstay : forall id o, (exists x, In x (conversations w) /\ conv_id x = id /\ conv_organizationId x = o) ->
            exists x, In x (conversations (sent amb conversationId userId input c w)) /\ conv_id x = id /\ conv_organizationId x = o).
  { intros id o (x & Hx & <- & <-). exists (if P x then advance amb x else x). rewrite Hid, Horg. split; [|done].
    apply (In_updateWhere P (advance amb)). by exists x. }
  split.
  - change (List.NoDup (List.map conv_id (updateWhere P (advance amb) (conversations w)))). by rewrite map_updateWhere.
  - intros x [Hx|[<-|[]]]%in_app_iff; apply Hstay; [by apply H2|]. by exists c.
  - intros p Hp. by apply Hstay, H3.
  - intros x (x0 & Hx & ->)%(In_updateWhere P (advance amb)). destruct (H4 x0 Hx) as [Hn Hseq].
    change (messages (sent _ _ _ _ _ _)) with (messages w ++ [m])%list. rewrite Hid, messagesIn_snoc, List.map_app.
    change (msg_conversationId m) with (conv_id c). destruct (P x0) eqn:EP.
    + rewrite (HP x0 Hx EP) in *. rewrite bd_refl, Hseq. cbn [List.map msg_seq]. split; [cbn; lia|].
      change (conv_lastSeq (advance amb c)) with (1 + conv_lastSeq c)%Z. by rewrite Z.add_comm, upTo_succ.
    + rewrite bd_ne; [cbn [List.map]; by rewrite app_nil_r|]. intros He. enough (x0 = c) as -> by congruence.
      by apply (NoDup_key_inj conv_id _ x0 c H1).
  - assert (Hnew : forall x, In x (messages w) -> msg_conversationId x = conv_id c ->
              msg_clientMessageId x = smi_clientMessageId input -> False).
    { intros x Hx E1 E2. enough (existsb (clash m) (messages w) = true) by congruence. apply existsb_exists. exists x.
      split; [done|]. cbn. rewrite E1, E2, !bd_refl. cbn. by rewrite orb_true_r. }
    intros x y [Hx|[<-|[]]]%in_app_iff [Hy|[<-|[]]]%in_app_iff E1 E2; [by apply H5|exfalso..|done]; cbn in E1, E2; eauto.
Qed.

Lemma pres_sendStatement amb conversationId userId input : tx_pres dense (sendStatement amb conversationId userId input).
Proof.
  intros w r w' Hw. rewrite sendStatement_run. destruct (findFirst _ _) as [c|] eqn:E; [|by intros [= _ <-]].
  destruct (_ <? _)%Z; [done|]. destruct (existsb _ _) eqn:Ec; [done|]. intros [= _ <-]. by apply dense_sent.
Qed.

(** ** Requests *)

Inductive ChatRequest :=
  | NewConversation (userId : string) (input : CreateConversationInput)
  | Send (conversationId userId : string) (input : SendMessageInput)
  | Read (conversationId userId : string) (seq : Z)
  | Unsend (messageId userId : string)
  | Messages (conversationId userId : string) (afterSeq beforeSeq : option Z) (limit : option nat)
  | Conversations (userId : string) (limit : nat)
  | Participants (conversationId : string).

Definition serveChat (amb : Ambient) (r : ChatRequest) (w : World) : World :=
  match r with
  | NewConversation userId input => snd (createConversation amb userId input w)
  | Send conversationId userId input => snd (sendMessage amb conversationId userId input w)
  | Read conversationId userId seq => snd (markRead amb conversationId userId seq w)
  | Unsend messageId userId => snd (deleteMessage amb messageId userId w)
  | Messages conversationId userId a b limit => snd (listMessages amb conversationId userId a b limit w)
  | Conversations userId limit => snd (listConversations amb userId limit w)
  | Participants conversationId => snd (listParticipantUserIds amb conversationId w)
  end.

Definition serveChats (requests : list (Ambient * ChatRequest)) (w : World) : World :=
  List.fold_left (fun w ar => serveChat (fst ar) (snd ar) w) requests w.

Lemma pres_requireParticipant I amb conversationId userId : tx_pres I (requireParticipant amb conversationId userId).
Proof. unfold requireParticipant. pres. Qed.
#[local] Hint Resolve pres_requireParticipant : pres.

Lemma serveChat_dense amb r w : dense w -> dense (serveChat amb r w).
Proof.
  intros Hw. destruct r; cbn.
  - assert (Hp : proc_pres dense (createConversation amb userId input)); [|by apply Hp].
    unfold createConversation, findDirectConversation. pres. apply pres_insertConversation.
  - assert (Hp : proc_pres dense (sendMessage amb conversationId userId input)); [|by apply Hp].
    unfold sendMessage, attachmentReady. pres. apply pres_sendStatement.
  - assert (Hp : proc_pres dense (markRead amb conversationId userId seq)); [|by apply Hp].
    unfold markRead. pres. apply pres_sc_update. intros Q. apply pres_update. intros x Hx. by apply dense_participants.
  - assert (Hp : proc_pres dense (deleteMessage amb messageId userId)); [|by apply Hp].
    unfold deleteMessage. pres. apply pres_sc_update. intros Q. apply pres_update. intros x Hx. by apply dense_messages.
  - assert (Hp : proc_pres dense (listMessages amb conversationId userId afterSeq beforeSeq limit)); [|by apply Hp].
    unfold listMessages. pres.
  - assert (Hp : proc_pres dense (listConversations amb userId limit)); [|by apply Hp]. unfold listConversations. pres.
  - assert (Hp : proc_pres dense (listParticipantUserIds amb conversationId)); [|by apply Hp].
    unfold listParticipantUserIds. pres.
Qed.

(** C28: The messages of a conversation are numbered without a gap. Serve any sequence of chat requests (new
    conversations, messages and their retries, read marks, deletions, reads), of any users in any organization,
    succeeding or failing: from a state numbered without gaps, the messages of every conversation are at the end
    numbered 1, 2, ..., [lastSeq], each number once and in the order the messages were stored. *)
Theorem conversation_sequence_dense requests w c : dense w -> In c (conversations (serveChats requests w)) ->
  List.map msg_seq (messagesOf (conv_id c) (serveChats requests w)) = upTo (conv_lastSeq c).
Proof.
  intros Hw. enough (Hd : dense (serveChats requests w)) by (intros Hc; by apply Hd).
  revert w Hw. induction requests as [|[amb r] rest IH]; intros w Hw; [done|]. by apply IH, serveChat_dense.
Qed.

(** ** A message is stored exactly once *)

Lemma sees_stored amb : sees amb (stored amb) = true.
Proof. unfold sees, stored. destruct (truthy _); [apply bd_refl|done]. Qed.

(** Who may see a conversation does not depend on its messages. *)
Lemma live_sent amb conversationId userId input c w id :
  liveConversation id (sent amb conversationId userId input c w) = liveConversation id w.
Proof.
  unfold liveConversation. change (conversations (sent _ _ _ _ _ _))
    with (updateWhere (ofConversation amb conversationId) (advance amb) (conversations w)).
  unfold updateWhere. induction (conversations w) as [|x l IH]; cbn; [done|]. rewrite IH. by destruct (ofConversation _ _ x).
Qed.

Lemma requireParticipant_sent amb t conversationId userId input c w x w1 :
  requireParticipant amb conversationId userId w = Ok (x, w1) ->
  exists y, requireParticipant (amb <| nowMs := t |>) conversationId userId (sent amb conversationId userId input c w)
            = Ok (y, sent amb conversationId userId input c w).
Proof.
  unfold requireParticipant, tx_world. intros Hr. unfold mbind at 1, tx_bind at 1 in Hr. unfold mbind at 1, tx_bind at 1.
  destruct (admitted amb) eqn:Ea.
  - pose proof (sees_findFirst (R := ConversationParticipant) (amb <| nowMs := t |>)) as Hs.
    unfold mbind at 1, tx_bind at 1 in Hr. rewrite sees_findFirst in Hr by done.
    set (w2 := sent _ _ _ _ _ _) in *. unfold mbind at 1, tx_bind at 1.
    rewrite Hs by exact Ea. change (table w2) with (table (R := ConversationParticipant) w).
    match type of Hr with context [findFirst ?P ?l] => destruct (findFirst P l) as [p|] eqn:Ef; [|discriminate Hr] end.
    erewrite findFirst_ext; [rewrite Ef; by eexists|]. intros r _. unfold activeWhere, w2. rewrite live_sent. reflexivity.
  - unfold mbind at 1, tx_bind at 1 in Hr.
    match type of Hr with context [sc_findFirst _ _ ?P] =>
      destruct (refused_findFirst (R := ConversationParticipant) amb P w Ea) as [e He] end. by rewrite He in Hr.
Qed.

Lemma requireParticipant_same amb conversationId userId w x w1 :
  requireParticipant amb conversationId userId w = Ok (x, w1) -> w1 = w.
Proof. intros Hr. by apply (pres_requireParticipant (fun y => y = w) _ _ _ _ _ _ eq_refl Hr). Qed.

Lemma attachmentReady_same amb userId input w u w1 : attachmentReady amb userId input w = Ok (u, w1) -> w1 = w.
Proof.
  intros Hr. assert (Hp : tx_pres (fun y => y = w) (attachmentReady amb userId input)) by (unfold attachmentReady; pres).
  by apply (Hp _ _ _ eq_refl Hr).
Qed.

Lemma attachmentReady_later amb t userId input w w2 u : uploads w2 = uploads w ->
  attachmentReady amb userId input w = Ok (u, w) -> attachmentReady (amb <| nowMs := t |>) userId input w2 = Ok (u, w2).
Proof.
  intros Hu. unfold attachmentReady. destruct (truthy _); [|by intros [= <-]]. unfold sc_findFirst.
  change (scopeFilter (R := Upload) (amb <| nowMs := t |>)) with (scopeFilter (R := Upload) amb).
  destruct (scopeFilter amb "findFirst" None) as [Q|e]; [|done]. unfold mbind, tx_bind, tx_lift, tx_findFirst.
  change (table w2) with (uploads w2). rewrite Hu. unfold tx_guard. destruct (is_set _); [by intros [= <-]|done].
Qed.

(** Sending under a client identifier the conversation already has: the first message is the answer. *)
Lemma send_duplicate amb conversationId userId input w m x u c : dense w ->
  requireParticipant amb conversationId userId w = Ok (x, w) -> attachmentReady amb userId input w = Ok (u, w) ->
  findFirst (ofConversation amb conversationId) (conversations w) = Some c -> (conv_lastSeq c + 1 <= BIGINT_MAX)%Z ->
  In m (messages w) -> msg_conversationId m = conversationId -> msg_clientMessageId m = smi_clientMessageId input ->
  msg_organizationId m = stored amb ->
  sendMessage amb conversationId userId input w = (Ok (m, true), w).
Proof.
  intros Hw Hp Ha Hf Hmax Hm Hconv Hclient Horg. unfold sendMessage. rewrite (proc_step _ _ _ _ _ Hp), (proc_step _ _ _ _ _ Ha).
  assert (Hid : conv_id c = conversationId).
  { apply findFirst_Some in Hf as [_ Hf]. unfold ofConversation in Hf. by bools. }
  assert (Hs : sendStatement amb conversationId userId input w = Err rawUniqueViolation).
  { rewrite sendStatement_run, Hf. destruct (_ <? _)%Z eqn:E; [apply Z.ltb_lt in E; lia|].
    replace (existsb _ (messages w)) with true; [done|]. symmetry. apply existsb_exists. exists m. split; [done|]. cbn.
    by rewrite Hid, Hconv, Hclient, !bd_refl, orb_true_r. }
  erewrite try_call_err; [|by apply (proc_step_err _ _ _ _ Hs)]. change (isUniqueViolation rawUniqueViolation) with true. cbn iota.
  assert (Had : admitted amb = true).
  { destruct (admitted amb) eqn:Ea; [done|]. unfold requireParticipant, tx_world, mbind, tx_bind in Hp.
    match type of Hp with context [sc_findFirst _ _ ?P] =>
      destruct (refused_findFirst (R := ConversationParticipant) amb P w Ea) as [e He] end. by rewrite He in Hp. }
  erewrite proc_step by (by apply sees_findFirst).
  set (Q := activeWhere _). destruct (findFirst_is_Some Q (messages w) m Hm) as [m' Hm'].
  { unfold Q. cbn. rewrite Horg, sees_stored, Hconv, Hclient, !bd_refl. done. }
  change (table w) with (messages w). rewrite Hm'. apply findFirst_Some in Hm' as [Hin HQ].
  enough (m' = m) as -> by done. unfold Q in HQ. cbn in HQ. bools. destruct Hw. apply d_clients0; congruence.
Qed.

(** What a send comes to: an error, the message there was, or the statement. *)
Lemma sendMessage_cases amb conversationId userId input w r w' : sendMessage amb conversationId userId input w = (r, w') ->
  (exists e, r = Err e /\ w' = w)
  \/ (exists m, r = Ok (m, true) /\ w' = w /\ In m (messages w) /\ msg_conversationId m = conversationId
        /\ msg_clientMessageId m = smi_clientMessageId input)
  \/ (exists c x u, findFirst (ofConversation amb conversationId) (conversations w) = Some c
        /\ requireParticipant amb conversationId userId w = Ok (x, w) /\ attachmentReady amb userId input w = Ok (u, w)
        /\ (BIGINT_MAX <? conv_lastSeq c + 1)%Z = false
        /\ existsb (clash (written amb userId input c (uuid (drawn w)))) (messages w) = false
        /\ r = Ok (written amb userId input c (uuid (drawn w)), false) /\ w' = sent amb conversationId userId input c w).
Proof.
  unfold sendMessage. intros Hr.
  apply proc_bind_run in Hr as [(e & H1 & ->)|(x & w1 & Hp & Hr)].
  { apply transact_run in H1 as [(? & _ & [=])|(? & _ & _ & ->)]. left. eauto. }
  apply transact_ok in Hp. pose proof (requireParticipant_same _ _ _ _ _ _ Hp) as ->.
  apply proc_bind_run in Hr as [(e & H1 & ->)|(u & w1 & Ha & Hr)].
  { apply transact_run in H1 as [(? & _ & [=])|(? & _ & _ & ->)]. left. eauto. }
  apply transact_ok in Ha. pose proof (attachmentReady_same _ _ _ _ _ _ Ha) as ->.
  pose proof (sendStatement_run amb conversationId userId input w) as Hs.
  destruct (findFirst (ofConversation amb conversationId) (conversations w)) as [c|] eqn:Hf.
  2: { left. unfold try_catch in Hr. rewrite (proc_step _ _ _ _ _ Hs) in Hr. injection Hr as <- <-. eauto. }
  destruct (_ <? _)%Z eqn:Emax in Hs.
  { left. unfold try_catch in Hr. rewrite (proc_step_err _ _ _ _ Hs) in Hr. injection Hr as <- <-. eauto. }
  destruct (existsb _ _) eqn:Ec in Hs.
  - unfold try_catch in Hr. rewrite (proc_step_err _ _ _ _ Hs) in Hr.
    change (isUniqueViolation rawUniqueViolation) with true in Hr. cbn iota in Hr.
    apply proc_bind_run in Hr as [(e & H1 & ->)|(found & w1 & H1 & Hr)].
    { apply transact_run in H1 as [(? & _ & [=])|(? & _ & _ & ->)]. left. eauto. }
    apply transact_ok in H1. unfold sc_findFirst in H1. tx_inv H1. tx_store.
    + injection Hr as <- <-. bools. right. left. eexists. eauto.
    + injection Hr as <- <-. left. eauto.
  - unfold try_catch in Hr. rewrite (proc_step _ _ _ _ _ Hs) in Hr. injection Hr as <- <-. right. right. exists c, x, u. auto 8.
Qed.

(** A message is stored exactly once. A send either stores one new message, under the next number of its
    conversation, or answers with the message that conversation already has under the client's identifier, or
    fails; in the last two cases nothing changes. And a client that lost the answer can retry: the retry, at any
    later time, answers with the very message that was stored and changes nothing. *)
Theorem message_stored_once amb conversationId userId input w r w' : dense w ->
  sendMessage amb conversationId userId input w = (r, w') ->
  match r with
  | Ok (m, false) =>
      msg_conversationId m = conversationId /\ msg_clientMessageId m = smi_clientMessageId input
      /\ msg_senderUserId m = Some userId /\ messages w' = (messages w ++ [m])%list
      /\ (exists c, In c (conversations w) /\ conv_id c = conversationId /\ msg_seq m = (conv_lastSeq c + 1)%Z)
      /\ forall t, (msg_seq m < BIGINT_MAX)%Z ->
           sendMessage (amb <| nowMs := t |>) conversationId userId input w' = (Ok (m, true), w')
  | Ok (m, true) => w' = w /\ In m (messages w) /\ msg_conversationId m = conversationId
                    /\ msg_clientMessageId m = smi_clientMessageId input
  | Err _ => w' = w
  end.
Proof.
  intros Hw Hr. apply sendMessage_cases in Hr as [(e & -> & ->)|[(m & -> & -> & Hm)|(c & x & u & Hf & Hp & Ha & Emax & Ec & -> & ->)]]; [done|done|].
  pose proof (findFirst_Some _ _ _ Hf) as [Hc Hof]. pose proof Hof as Hof'. unfold ofConversation in Hof. bools. subst conversationId.
  do 4 (split; [done|]). split; [by exists c|]. intros t Hlt. cbn in Hlt.
  destruct (requireParticipant_sent amb t (conv_id c) userId input c w x w Hp) as [y Hy].
  eapply (send_duplicate (amb <| nowMs := t |>)) with (c := advance amb c);
    [by apply dense_sent|exact Hy|by apply (attachmentReady_later amb t userId input w)| | | |done..|].
  - change (ofConversation (amb <| nowMs := t |>)) with (ofConversation amb).
    change (conversations (sent _ _ _ _ _ _)) with (updateWhere (ofConversation amb (conv_id c)) (advance amb) (conversations w)).
    rewrite findFirst_updateWhere by done. rewrite Hf. cbn [fmap option_fmap option_map].
    by rewrite Hof'.
  - cbn. lia.
  - apply in_app_iff. right. by left.
  - done.
Qed.

(** ** Catching up *)

Lemma upTo_In n x : In x (upTo n) -> (1 <= x <= n)%Z.
Proof. unfold upTo. intros (k & <- & Hk%List.in_seq)%List.in_map_iff. lia. Qed.

Lemma upTo_sorted n : StronglySorted Z.lt (upTo n).
Proof.
  unfold upTo. generalize 1. induction (Z.to_nat n) as [|k IH]; intros s; cbn; [constructor|]. constructor; [apply IH|].
  apply List.Forall_forall. intros x (y & <- & Hy%List.in_seq)%List.in_map_iff. lia.
Qed.

Lemma StronglySorted_filter {A} (Rel : A -> A -> Prop) (P : A -> bool) l : StronglySorted Rel l -> StronglySorted Rel (List.filter P l).
Proof.
  induction 1 as [|x l Hl IH Hx]; cbn; [constructor|]. destruct (P x); [|done]. constructor; [done|].
  apply List.Forall_forall. intros y [Hy _]%List.filter_In. by apply (proj1 (List.Forall_forall _ _) Hx).
Qed.

Lemma StronglySorted_map_inv {A} (key : A -> Z) l : StronglySorted Z.lt (List.map key l) -> StronglySorted (key_asc key) l.
Proof.
  induction l as [|x l IH]; cbn; [constructor|]. intros [Hl Hx]%StronglySorted_inv. constructor; [by apply IH|].
  apply List.Forall_forall. intros y Hy. unfold key_asc. apply Z.lt_le_incl.
  apply (proj1 (List.Forall_forall _ _) Hx). by apply List.in_map.
Qed.

(** Rows already in the order of distinct keys stay where they are. *)
Lemma orderByAsc_id {A} (key : A -> Z) l : StronglySorted Z.lt (List.map key l) -> orderByAsc key l = l.
Proof.
  intros Hs. pose proof (StronglySorted_map_inv _ _ Hs) as Hl.
  assert (Hinj : forall x y, In x l -> In y l -> key x = key y -> x = y).
  { clear Hl. induction l as [|z l IH]; [done|]. cbn in Hs. apply StronglySorted_inv in Hs as [Hs Hz].
    rewrite List.Forall_forall in Hz. assert (Hlt : forall x, In x l -> (key z < key x)%Z) by (intros x Hx; by apply Hz, List.in_map).
    intros x y [<-|Hx] [<-|Hy] He; [done|pose proof (Hlt y Hy); lia|pose proof (Hlt x Hx); lia|by apply IH]. }
  apply (StronglySorted_unique_strong (key_asc key)); [|apply orderByAsc_sorted|done|apply orderByAsc_Permutation].
  intros x y Hx Hy H1 H2. unfold key_asc in *. apply list_elem_of_In in Hx, Hy. apply In_orderByAsc in Hx.
  apply Hinj; [done|done|lia].
Qed.

Lemma filter_filter {A} (P Q : A -> bool) l : List.filter (fun x => P x && Q x) l = List.filter Q (List.filter P l).
Proof. induction l as [|x l IH]; cbn; [done|]. destruct (P x); cbn; [|done]. by destruct (Q x); rewrite ?IH. Qed.

Lemma map_filter {A B} (f : A -> B) (P : B -> bool) l : List.map f (List.filter (fun x => P (f x)) l) = List.filter P (List.map f l).
Proof. induction l as [|x l IH]; cbn; [done|]. destruct (P (f x)); cbn; by rewrite IH. Qed.

Lemma serializeMessages_ok l : (forall m, In m l -> (msg_seq m <= MAX_SAFE_INTEGER)%Z) -> serializeMessages l = Ok l.
Proof.
  induction l as [|m l IH]; intros Hl; cbn; [done|]. unfold serializeMessage.
  destruct (_ <? _)%Z eqn:E; [apply Z.ltb_lt in E; specialize (Hl m (or_introl eq_refl)); lia|].
  by rewrite IH by (intros x Hx; by apply Hl; right).
Qed.

(** A participant sees every message of the conversation. *)
Lemma participant_home amb conversationId userId w x w1 : dense w ->
  requireParticipant amb conversationId userId w = Ok (x, w1) -> admitted amb = true /\ w1 = w /\
  exists c, In c (conversations w) /\ conv_id c = conversationId
    /\ forall m, In m (messages w) -> msg_conversationId m = conversationId -> sees amb (msg_organizationId m) = true.
Proof.
  intros Hw Hr. pose proof (requireParticipant_same _ _ _ _ _ _ Hr) as ->. unfold requireParticipant, tx_world in Hr.
  unfold mbind at 1, tx_bind at 1 in Hr. unfold mbind at 1, tx_bind at 1 in Hr.
  destruct (admitted amb) eqn:Ea.
  2: { match type of Hr with context [sc_findFirst _ _ ?P] =>
      destruct (refused_findFirst (R := ConversationParticipant) amb P w Ea) as [e He] end. by rewrite He in Hr. }
  split; [done|]. split; [done|]. rewrite sees_findFirst in Hr by done.
  match type of Hr with context [findFirst ?P ?l] => destruct (findFirst P l) as [p|] eqn:Ef; [|discriminate Hr] end.
  apply findFirst_Some in Ef as [Hp Hsel]. cbn in Hsel. bools. pose proof Hw as [Hids Hhome Hseat _ _].
  destruct (Hseat p Hp) as (c & Hc & Hid & Horg). exists c. split; [done|]. split; [congruence|].
  intros m Hm Hconv. destruct (Hhome m Hm) as (c' & Hc' & Hid' & <-).
  assert (c' = c) as -> by (apply (NoDup_key_inj conv_id _ c' c Hids Hc' Hc); congruence). by rewrite Horg.
Qed.

(** Catching up is complete. A participant who asks for what came after number [a] is answered with exactly
    the messages [a+1], [a+2], ... of the conversation, deleted ones as tombstones included, in order and without
    a gap, up to the size of a page: none of them is hidden and none is repeated. The call succeeds as long as the
    numbers are JSON-safe. *)
Theorem catch_up_complete amb conversationId userId a limit w x : dense w ->
  requireParticipant amb conversationId userId w = Ok (x, w) ->
  exists c, In c (conversations w) /\ conv_id c = conversationId
    /\ ((conv_lastSeq c <= MAX_SAFE_INTEGER)%Z ->
        exists page, listMessages amb conversationId userId (Some a) None limit w = (Ok page, w)
          /\ List.map msg_seq page = firstn (Nat.min (limit ??? 50) 50) (List.filter (Z.ltb a) (upTo (conv_lastSeq c)))
          /\ forall m, In m page -> In m (messagesOf conversationId w)).
Proof.
  intros Hw Hp. destruct (participant_home _ _ _ _ _ _ Hw Hp) as (Had & _ & c & Hc & Hid & Hsees).
  exists c. split; [done|]. split; [done|]. intros Hsafe. destruct (d_seqs _ _ _ Hw c Hc) as [Hn Hseq].
  set (found := List.filter (fun m => Z.ltb a (msg_seq m)) (messagesIn conversationId (messages w))).
  assert (Hfound : List.map msg_seq found = List.filter (Z.ltb a) (upTo (conv_lastSeq c))).
  { unfold found. by rewrite map_filter, <- Hid, Hseq. }
  assert (Hin : forall m, In m found -> In m (messagesOf conversationId w) /\ (msg_seq m <= conv_lastSeq c)%Z).
  { intros m Hm. split; [by apply List.filter_In in Hm as [Hm _]|]. apply (upTo_In (conv_lastSeq c)).
    assert (Hms : In (msg_seq m) (List.map msg_seq found)) by (by apply List.in_map).
    rewrite Hfound in Hms. by apply List.filter_In in Hms as [Hms _]. }
  exists (firstn (Nat.min (limit ??? 50) 50) found). split; [|split].
  - unfold listMessages. rewrite (proc_step _ _ _ _ _ Hp). erewrite proc_step by (by apply sees_findMany). cbn [is_set].
    replace (findMany _ (table w)) with found.
    + rewrite orderByAsc_id by (rewrite Hfound; apply StronglySorted_filter, upTo_sorted).
      unfold transact, tx_lift. rewrite serializeMessages_ok; [done|].
      intros m Hm%In_firstn. destruct (Hin m Hm). lia.
    + unfold found, messagesIn, findMany. rewrite <- filter_filter. apply filter_ext_in. intros m Hm. cbn.
      destruct (msg_conversationId m === conversationId) eqn:E; [|by rewrite andb_false_r]. bools. by rewrite Hsees.
  - by rewrite <- List.firstn_map, Hfound.
  - intros m Hm%In_firstn. by apply Hin.
Qed.
End Chat.

(** ** A conversation *)

Section Witness.
Local Existing Instance demoPlatform.

Definition demoChatUser (id : string) : User :=
  mkUser id (Some (id ++ "@example.com")) None None None "en" None None 0 User_ACTIVE (Some 1%Z) None None 0 None.
Definition demoSeat (userId : string) : Membership := mkMembership ("m-" ++ userId) "org-1" userId "role-1" Mem_ACTIVE None 0 None.
Definition demoTenant : World := emptyWorld <| users := [demoChatUser "u1"; demoChatUser "u2"] |>
  <| memberships := [demoSeat "u1"; demoSeat "u2"] |>.
Definition at_ (t : Z) (userId : string) : Ambient := mkAmbient t (Some (Request "r" (Some userId) (Some "org-1"))).
Definition hello (clientId : string) : SendMessageInput := mkSendMessage clientId (Some "hello") None None.
Definition demoChat : list (Ambient * ChatRequest) :=
  [(at_ 1000 "u1", NewConversation "u1" (mkCreateConversation Conv_DIRECT ["u2"] None));
   (at_ 2000 "u1", Send "id-0" "u1" (hello "client-1")); (at_ 2001 "u1", Send "id-0" "u1" (hello "client-1"));
   (at_ 3000 "u2", Send "id-0" "u2" (hello "client-2")); (at_ 4000 "u2", Unsend "id-3" "u1");
   (at_ 5000 "u2", Read "id-0" "u2" 1)].
Definition chatted : World := serveChats demoChat demoTenant.

Lemma demo_dense : dense demoTenant.
Proof. split; cbn; [constructor|intros ? []..|intros ? ? []]. Qed.
Lemma chatted_dense : dense chatted.
Proof.
  assert (Hall : forall requests w, dense w -> dense (serveChats requests w)); [|apply Hall, demo_dense].
  induction requests as [|[amb r] rest IH]; intros w Hw; [done|]. by apply IH, serveChat_dense.
Qed.

(** What the runs compute. *)
Lemma chatted_one : exists c, conversations (serveChats demoChat demoTenant) = [c] /\ conv_lastSeq c = 2%Z.
Proof. eexists. split; vm_compute; reflexivity. Qed.
Lemma chatted_single : exists c, conversations chatted = [c] /\ conv_lastSeq c = 2%Z.
Proof. exact chatted_one. Qed.
Lemma third_sent : match sendMessage (at_ 6000 "u1") "id-0" "u1" (hello "client-3") chatted with
  | (Ok (m, false), _) => msg_seq m = 3%Z | _ => False end.
Proof. vm_compute. reflexivity. Qed.
Lemma second_participates : exists x, requireParticipant (at_ 6000 "u2") "id-0" "u2" chatted = Ok (x, chatted).
Proof. eexists. vm_compute. reflexivity. Qed.

Example conversation_sequence_dense_witness : exists c, conversations (serveChats demoChat demoTenant) = [c]
  /\ conv_lastSeq c = 2%Z
  /\ List.map msg_seq (messagesOf (conv_id c) (serveChats demoChat demoTenant)) = upTo (conv_lastSeq c).
Proof.
  destruct chatted_one as (c & E & H2). exists c. split; [exact E|]. split; [exact H2|].
  apply (conversation_sequence_dense demoChat demoTenant c demo_dense). rewrite E. left. reflexivity.
Defined.

Example message_stored_once_witness : exists m w',
  sendMessage (at_ 6000 "u1") "id-0" "u1" (hello "client-3") chatted = (Ok (m, false), w') /\ msg_seq m = 3%Z
  /\ sendMessage ((at_ 6000 "u1") <| nowMs := 7000%Z |>) "id-0" "u1" (hello "client-3") w' = (Ok (m, true), w').
Proof.
  pose proof third_sent as H3.
  destruct (sendMessage (at_ 6000 "u1") "id-0" "u1" (hello "client-3") chatted) as [[[m [|]]|e] w'] eqn:E; [destruct H3| |destruct H3].
  exists m, w'. split; [reflexivity|]. split; [exact H3|].
  apply (message_stored_once (at_ 6000 "u1") "id-0" "u1" (hello "client-3") chatted (Ok (m, false)) w' chatted_dense E).
  rewrite H3. reflexivity.
Defined.

Example catch_up_complete_witness : exists page,
  listMessages (at_ 6000 "u2") "id-0" "u2" (Some 0%Z) None None chatted = (Ok page, chatted)
  /\ List.map msg_seq page = [1%Z; 2%Z].
Proof.
  destruct second_participates as (x & E).
  destruct (catch_up_complete (at_ 6000 "u2") "id-0" "u2" 0 None chatted x chatted_dense E) as (c & Hc & _ & Hpage).
  destruct chatted_single as (c1 & E1 & H1). assert (Hl : conv_lastSeq c = 2%Z).
  { rewrite E1 in Hc. destruct Hc as [<-|[]]. exact H1. }
  rewrite Hl in Hpage. destruct Hpage as (page & Hrun & Hseq & _); [discriminate|].
  exists page. split; [exact Hrun|]. rewrite Hseq. reflexivity.
Defined.
End Witness.
