(* ===== verification/ClientIp.v ===== *)
(** * Client addresses

    lib/client-ip.ts: parsing of IPv4 and IPv6 addresses and networks, the rate-limit bucket of an address,
    and the client of a request behind trusted proxies. [isIPv4] and [isIPv6] are node:net's. *)

From Stdlib Require Import ZArith Lia Bool.
From S2P Require Import Prelude JsString JsonText.

Open Scope string_scope.

(** ** node:net *)

(** Decimal, up to 255, without leading zeros. *)
Definition octet (part : string) : option Z :=
  match parseDigits part with
  | Some n => if (n <=? 255)%Z && (show n === part) then Some n else None
  | None => None
  end.

Fixpoint allSome {A} (l : list (option A)) : option (list A) :=
  match l with
  | [] => Some []
  | Some a :: rest => cons a <$> allSome rest
  | None :: _ => None
  end.

(** [isIPv4(value)], with the numbers [value.split('.').map(Number)] then reads. *)
Definition parseIpv4Bytes (value : string) : option (list Z) :=
  match split "." value with
  | [a; b; c; d] => allSome [octet a; octet b; octet c; octet d]
  | _ => None
  end.
Definition isIPv4 (value : string) : bool := is_set (parseIpv4Bytes value).

Definition isHex (c : ascii) : bool := is_set (hexValue c).
(** [/^[0-9a-f]{1,4}$/i] *)
Definition hextet (g : string) : bool :=
  (1 <=? String.length g)%nat && (String.length g <=? 4)%nat && str_forallb isHex g.
(** [Number.parseInt(group, 16)] *)
Fixpoint hexOnto (acc : Z) (g : string) : Z :=
  match g with
  | EmptyString => acc
  | String c rest => hexOnto (16 * acc + Z.of_nat (hexValue c ??? 0)) rest
  end.

(** [value.split('::')] *)
Fixpoint splitDouble (s : string) : list string :=
  match s with
  | EmptyString => [EmptyString]
  | String c rest =>
      match c === ":"%char, rest with
      | true, String d rest' =>
          if d === ":"%char then EmptyString :: splitDouble rest'
          else match splitDouble rest with h :: t => String c h :: t | [] => [String c EmptyString] end
      | _, _ => match splitDouble rest with h :: t => String c h :: t | [] => [String c EmptyString] end
      end
  end.

(** [half ? half.split(':') : []] *)
Definition pieces (half : string) : list string := if half === EmptyString then [] else split ":" half.

(** The groups a sequence of pieces stands for; the last piece may be a dotted quad, worth two. *)
Fixpoint countGroups (ps : list string) : option nat :=
  match ps with
  | [] => Some 0
  | [p] => if hextet p then Some 1 else if isIPv4 p then Some 2 else None
  | p :: rest => if hextet p then S <$> countGroups rest else None
  end.

(** [isIPv6(value)] of a value without a zone. *)
Definition isIPv6 (value : string) : bool :=
  match splitDouble value with
  | [all] => countGroups (split ":" all) === Some 8
  | [lhs; rhs] =>
      forallb hextet (pieces lhs)
      && match countGroups (pieces rhs) with
         | Some n => (length (pieces lhs) + n <=? 7)%nat
         | None => false
         end
  | _ => false
  end.

(** ** lib/client-ip.ts *)

Definition UNRESOLVED_CLIENT_IP : string := "ip:unresolved".

Inductive Family := IPv4 | IPv6.
#[export] Instance Family_eq_dec : EqDecision Family.
Proof. solve_decision. Defined.

Record ParsedIp := mkParsedIp { ip_family : Family; ip_bytes : list Z }.

(** [n.toString(16)] of a 16-bit number *)
Definition toHex (n : Z) : string :=
  let d k := hexDigit (Z.to_nat (n / 16 ^ k mod 16)) in
  if (n <? 16)%Z then d 0%Z
  else if (n <? 256)%Z then d 1%Z ++ d 0%Z
  else if (n <? 4096)%Z then d 2%Z ++ d 1%Z ++ d 0%Z
  else d 3%Z ++ d 2%Z ++ d 1%Z ++ d 0%Z.

Definition word (high low : Z) : Z := Z.lor (Z.shiftl high 8) low.

(** [value.includes(c)] *)
Definition includesChar (c : ascii) (s : string) : bool := negb (noChar c s).

(** A trailing dotted quad as two hextets; [None] when the tail has a dot and is none. *)
Definition rewriteQuad (value : string) : option string :=
  let tail := List.last (split ":" value) EmptyString in
  if includesChar "." tail then
    match parseIpv4Bytes tail with
    | Some [a; b; c; d] =>
        Some (take_str (String.length value - String.length tail) value
              ++ toHex (word a b) ++ ":" ++ toHex (word c d))
    | _ => None
    end
  else Some value.

Definition expandGroups (value : string) : option (list string) :=
  match splitDouble value with
  | [all] => Some (split ":" all)
  | [lhs; rhs] =>
      let l := pieces lhs in let r := pieces rhs in
      if (8 <=? length l + length r)%nat then None
      else Some (l ++ replicate (8 - length l - length r) "0" ++ r)%list
  | _ => None
  end.

Definition groupBytes (groups : list string) : option (list Z) :=
  if forallb hextet groups
  then Some (List.concat (List.map (fun g => let w := hexOnto 0 g in [Z.land (Z.shiftr w 8) 255; Z.land w 255]) groups))
  else None.

Definition dropZone (input : string) : string := List.hd EmptyString (split "%" input).

Definition parseIpv6Bytes (input : string) : option (list Z) :=
  value ← rewriteQuad (dropZone input);
  groups ← expandGroups value;
  if negb (length groups =? 8)%nat then None else groupBytes groups.

Definition isIpv4Mapped (bytes : list Z) : bool :=
  forallb (fun b => (b =? 0)%Z) (firstn 10 bytes)
  && (nth 10 bytes 0 =? 255)%Z && (nth 11 bytes 0 =? 255)%Z.

(** [.replace(/^\[|\]$/g, '')] *)
Definition unbracket (s : string) : string :=
  let s1 := match s with String c rest => if c === "["%char then rest else s | EmptyString => s end in
  let n := String.length s1 in
  if drop_str (n - 1) s1 === "]" then take_str (n - 1) s1 else s1.

Definition parseClientIp (value : option string) : option ParsedIp :=
  value ← value;
  let trimmed := unbracket (trim value) in
  if trimmed === EmptyString then None
  else match parseIpv4Bytes trimmed with
       | Some bytes => Some (mkParsedIp IPv4 bytes)
       | None =>
           if negb (isIPv6 (dropZone trimmed)) then None
           else bytes ← parseIpv6Bytes trimmed;
                if isIpv4Mapped bytes then Some (mkParsedIp IPv4 (skipn 12 bytes)) else Some (mkParsedIp IPv6 bytes)
       end.

Definition IPV6_BUCKET_BITS : nat := 64.

(** The first [2 * count] bytes as hextets. *)
Fixpoint hextetList (count : nat) (bytes : list Z) : list string :=
  match count with
  | 0 => []
  | S n => toHex (word (nth 0 bytes 0%Z) (nth 1 bytes 0%Z)) :: hextetList n (skipn 2 bytes)
  end.
Definition hextets (bytes : list Z) (count : nat) : string := join ":" (hextetList (count / 2) bytes).

Definition bucketOf (parsed : ParsedIp) : string :=
  match ip_family parsed with
  | IPv4 => "ip4:" ++ join "." (List.map show (ip_bytes parsed))
  | IPv6 => "ip6:" ++ hextets (ip_bytes parsed) (IPV6_BUCKET_BITS / 8)
  end.

Definition clientIpKey (value : option string) : string :=
  match parseClientIp value with None => UNRESOLVED_CLIENT_IP | Some parsed => bucketOf parsed end.

(** ** Networks *)

Record ParsedCidr := mkParsedCidr { cidr_address : ParsedIp; cidr_prefix : nat }.

Definition parseCidr (input : string) : option ParsedCidr :=
  match split "/" (trim input) with
  | address :: rest =>
      if (1 <? length rest)%nat || (address === EmptyString) then None
      else
        parsed ← parseClientIp (Some address);
        let maxPrefix := (length (ip_bytes parsed) * 8)%nat in
        match rest with
        | [] => Some (mkParsedCidr parsed maxPrefix)
        | prefixText :: _ =>
            if (String.length prefixText <=? 3)%nat then
              prefix ← parseDigits prefixText;
              if (Z.of_nat maxPrefix <? prefix)%Z then None else Some (mkParsedCidr parsed (Z.to_nat prefix))
            else None
        end
  | [] => None
  end.

(** [for (index < wholeBytes) if (candidate[index] !== network[index]) return false] *)
Fixpoint sameBytes (n : nat) (candidate network : list Z) : bool :=
  match n, candidate, network with
  | 0, _, _ => true
  | S n, c :: cs, b :: bs => (c =? b)%Z && sameBytes n cs bs
  | S n, [], [] => sameBytes n [] []
  | S _, _, _ => false
  end.

Definition withinPrefix (candidate network : list Z) (prefix : nat) : bool :=
  let wholeBytes := (prefix / 8)%nat in
  let remainingBits := (prefix mod 8)%nat in
  sameBytes wholeBytes candidate network
  && ((remainingBits =? 0)%nat
      || let mask := Z.land (Z.shiftl 255 (8 - Z.of_nat remainingBits)) 255 in
         (Z.land (nth wholeBytes candidate 0%Z) mask =? Z.land (nth wholeBytes network 0%Z) mask)%Z).

Definition matchesAnyCidr (value : option string) (networks : list ParsedCidr) : bool :=
  match parseClientIp value with
  | None => false
  | Some parsed =>
      existsb (fun network => (ip_family (cidr_address network) === ip_family parsed)
                 && withinPrefix (ip_bytes parsed) (ip_bytes (cidr_address network)) (cidr_prefix network)) networks
  end.

(** ** Behind proxies *)

Record TrustedProxyInput := mkTrustedProxy {
  tp_remoteAddress : option string; tp_forwardedFor : list string; tp_trustedHops : nat; tp_trustedCidrs : list ParsedCidr
}.

(** The header's values, joined, split at the commas, trimmed, the empty ones left out, nearest hop first. *)
Definition forwardedChain (headers : list string) : list string :=
  List.rev (List.filter (fun v => negb (v === EmptyString)) (List.map trim (split "," (join "," headers)))).

(** [for (const candidate of forwarded)] *)
Fixpoint walkProxies (trusted : list ParsedCidr) (address : string) (forwarded : list string) : string :=
  match forwarded with
  | [] => address
  | candidate :: rest =>
      if negb (matchesAnyCidr (Some address) trusted) then address else walkProxies trusted candidate rest
  end.

Definition trustedClientAddress (input : TrustedProxyInput) : option string :=
  remote ← trim <$> tp_remoteAddress input;
  if (remote === EmptyString) || negb (is_set (parseClientIp (Some remote))) then None
  else
    let forwarded := forwardedChain (tp_forwardedFor input) in
    if existsb (fun v => negb (is_set (parseClientIp (Some v)))) forwarded then Some remote
    else if (0 <? tp_trustedHops input)%nat then
      let chain := remote :: forwarded in
      List.nth_error chain (Nat.min (tp_trustedHops input) (length chain - 1))
    else if (length (tp_trustedCidrs input) =? 0)%nat then Some remote
    else Some (walkProxies (tp_trustedCidrs input) remote forwarded).

Example key_v4 : clientIpKey (Some " 203.0.113.7 ") = "ip4:203.0.113.7".
Proof. reflexivity. Qed.
Example key_mapped : clientIpKey (Some "::ffff:203.0.113.7") = "ip4:203.0.113.7".
Proof. reflexivity. Qed.
Example key_v6 : clientIpKey (Some "[2001:DB8::1%eth0]") = "ip6:2001:db8:0:0".
Proof. reflexivity. Qed.
Example key_bad : clientIpKey (Some "1:2:3:4:5:6:7:8:9") = UNRESOLVED_CLIENT_IP.
Proof. reflexivity. Qed.
Example key_leading_zero : clientIpKey (Some "010.0.0.1") = UNRESOLVED_CLIENT_IP.
Proof. reflexivity. Qed.
Example in_network : matchesAnyCidr (Some "10.1.2.3") (omap parseCidr ["10.0.0.0/9"; "fe80::/10"]) = true.
Proof. reflexivity. Qed.
