(* ===== verification/ClientIpSpec.v ===== *)
(** * What a client address is good for

    Two clients share a rate-limit bucket exactly when they are the same IPv4 host or the same IPv6 /64; a
    network contains exactly the addresses that share its prefix bit by bit; and what a client writes into the
    forwarding header does not move it to another address. *)

From Stdlib Require Import ZArith Lia Bool.
From stdpp Require Import pretty.
From S2P Require Import Prelude JsString JsonText ClientIp.

Open Scope string_scope.

(** ** Well-formed addresses *)

Definition isByte (b : Z) : Prop := (0 <= b < 256)%Z.
Definition addressLength (f : Family) : nat := match f with IPv4 => 4 | IPv6 => 16 end.
Definition wellFormedIp (p : ParsedIp) : Prop :=
  length (ip_bytes p) = addressLength (ip_family p) /\ List.Forall isByte (ip_bytes p).

Lemma digits_onto_nonneg s : forall acc n, (0 <= acc)%Z -> digits_onto acc s = Some n -> (0 <= n)%Z.
Proof.
  induction s as [|c s IH]; cbn; intros acc n Hacc H; [by simplify_eq|].
  destruct (isDigit c) eqn:E; [|done]. eapply IH; [|exact H].
  unfold isDigit in E. bools. lia.
Qed.

Lemma octet_byte s n : octet s = Some n -> isByte n.
Proof.
  unfold octet, parseDigits. destruct s as [|c s]; [done|].
  destruct (digits_onto 0 (String c s)) as [m|] eqn:E; [|done]. apply digits_onto_nonneg in E; [|done].
  destruct (_ && _) eqn:Eb; [|done]. intros [= <-]. bools. unfold isByte. lia.
Qed.

Lemma allSome_Forall {A} (Q : A -> Prop) l bs : List.Forall (fun o => forall a, o = Some a -> Q a) l ->
  allSome l = Some bs -> length bs = length l /\ List.Forall Q bs.
Proof.
  intros Hl. revert bs. induction Hl as [|o l Ho _ IH]; cbn; intros bs H; [by simplify_eq|].
  destruct o as [a|]; [|done]. destruct (allSome l) as [rest|]; [|done]. cbn in H. simplify_eq.
  destruct (IH _ eq_refl) as [<- ?]. split; [done|]. constructor; [by apply Ho|done].
Qed.

Lemma parseIpv4Bytes_ok s bs : parseIpv4Bytes s = Some bs -> length bs = 4 /\ List.Forall isByte bs.
Proof.
  unfold parseIpv4Bytes. repeat case_match; try done. intros Hs.
  eapply (allSome_Forall isByte) in Hs; [done|].
  repeat (apply List.Forall_cons; [intros ?; apply octet_byte|]). done.
Qed.

Lemma land_byte x : isByte (Z.land x 255).
Proof. unfold isByte. change 255%Z with (Z.ones 8). rewrite Z.land_ones by lia. by apply Z.mod_pos_bound. Qed.

Lemma groupBytes_ok gs bs : groupBytes gs = Some bs -> length bs = 2 * length gs /\ List.Forall isByte bs.
Proof.
  unfold groupBytes. destruct (forallb _ _); [|done]. intros [= <-].
  induction gs as [|g gs [IHl IHb]]; cbn; [done|]. split; [lia|]. by repeat (apply List.Forall_cons; [apply land_byte|]).
Qed.

Lemma parseIpv6Bytes_ok s bs : parseIpv6Bytes s = Some bs -> length bs = 16 /\ List.Forall isByte bs.
Proof.
  unfold parseIpv6Bytes. destruct (rewriteQuad _) as [v|]; [|done]. cbn. destruct (expandGroups v) as [gs|]; [|done]. cbn.
  destruct (length gs =? 8)%nat eqn:E; [|done]. apply Nat.eqb_eq in E. intros H. apply groupBytes_ok in H. by rewrite E in H.
Qed.

Lemma Forall_skipn {A} (Q : A -> Prop) n l : List.Forall Q l -> List.Forall Q (skipn n l).
Proof. intros H. by apply Forall_drop. Qed.

(** Everything the parser accepts is an address. *)
Lemma parseClientIp_wf value p : parseClientIp value = Some p -> wellFormedIp p.
Proof.
  unfold parseClientIp, wellFormedIp. destruct value as [v|]; [|done]. cbn.
  destruct (unbracket (trim v) === ""); [done|].
  destruct (parseIpv4Bytes _) as [bs|] eqn:E4; [intros [= <-]; by apply parseIpv4Bytes_ok in E4|].
  destruct (negb _); [done|]. destruct (parseIpv6Bytes _) as [bs|] eqn:E6; [|done]. apply parseIpv6Bytes_ok in E6 as [Hl Hb].
  cbn. destruct (isIpv4Mapped bs); intros [= <-]; cbn; [|done].
  split; [by rewrite length_skipn, Hl|by apply (Forall_skipn _ 12)].
Qed.

(** ** Printing is injective *)

Lemma hexDigit_value d rest acc : d < 16 -> hexOnto acc (hexDigit d ++ rest) = hexOnto (16 * acc + Z.of_nat d) rest.
Proof. intros Hd. do 16 (destruct d as [|d]; [done|]). lia. Qed.

Lemma hexDigit_noColon d : d < 16 -> noChar ":" (hexDigit d) = true.
Proof. intros Hd. do 16 (destruct d as [|d]; [done|]). lia. Qed.


(** The hexadecimal text of a word reads back as the word. *)
Lemma hexOnto_toHex n : (0 <= n < 65536)%Z -> hexOnto 0 (toHex n) = n /\ noChar ":" (toHex n) = true.
Proof.
  intros Hn. unfold toHex.
  assert (Hd : forall k, (0 <= k)%Z -> Z.to_nat (n / 16 ^ k mod 16) < 16).
  { intros k Hk. pose proof (Z.mod_pos_bound (n / 16 ^ k) 16). lia. }
  pose proof (Hd 0%Z ltac:(done)) as H0. pose proof (Hd 1%Z ltac:(done)) as H1.
  pose proof (Hd 2%Z ltac:(done)) as H2. pose proof (Hd 3%Z ltac:(done)) as H3. clear Hd.
  change (16 ^ 0)%Z with 1%Z in *. change (16 ^ 1)%Z with 16%Z in *.
  change (16 ^ 2)%Z with 256%Z in *. change (16 ^ 3)%Z with 4096%Z in *.
  split.
  - destruct (n <? 16)%Z eqn:E; [|destruct (n <? 256)%Z eqn:E2; [|destruct (n <? 4096)%Z eqn:E3]];
      rewrite <- (append_nil_r (hexDigit (Z.to_nat (n / 1 mod 16)))), !hexDigit_value by done; cbn [hexOnto];
      bools; Z.div_mod_to_equations; lia.
  - repeat case_match; rewrite ?noChar_app, !hexDigit_noColon by done; done.
Qed.

Lemma toHex_inj a b : (0 <= a < 65536)%Z -> (0 <= b < 65536)%Z -> toHex a = toHex b -> a = b.
Proof. intros Ha Hb H. apply hexOnto_toHex in Ha as [<- _], Hb as [<- _]. by rewrite H. Qed.

Lemma str_forallb_impl (P Q : ascii -> bool) s : (forall c, P c = true -> Q c = true) ->
  str_forallb P s = true -> str_forallb Q s = true.
Proof. intros H. induction s as [|c s IH]; cbn; [done|]. intros Hs. bools. by rewrite H, IH. Qed.

Lemma show_noDot n : (0 <= n)%Z -> noChar "." (show n) = true.
Proof.
  intros Hn. apply (str_forallb_impl isDigit).
  { intros c Hc. destruct (c === "."%char) eqn:E; [|done]. apply bool_decide_eq_true in E as ->. done. }
  destruct n as [|p|p]; [done| |lia]. change (show (Z.pos p)) with (pretty (N.pos p)). rewrite pretty_pos.
  by apply allDigits_go.
Qed.

(** Parts without the separator are recovered from what is joined. *)
Lemma join_inj c l1 : forall l2, length l1 = length l2 ->
  List.Forall (fun s => noChar c s = true) l1 -> List.Forall (fun s => noChar c s = true) l2 ->
  join (String c "") l1 = join (String c "") l2 -> l1 = l2.
Proof.
  induction l1 as [|a l1 IH]; intros [|b l2] Hl H1 H2; try done.
  apply List.Forall_cons_iff in H1 as [Ha H1], H2 as [Hb H2]. rewrite !join_cons. injection Hl as Hl.
  destruct l1 as [|a' l1], l2 as [|b' l2]; try done; [by intros ->|]. intros H.
  apply append_sep_inj in H as [-> H]; [|done..]. f_equal. by apply IH.
Qed.

Lemma map_inj_on {A B} (f : A -> B) (Q : A -> Prop) l1 : (forall a b, Q a -> Q b -> f a = f b -> a = b) ->
  forall l2, List.Forall Q l1 -> List.Forall Q l2 -> List.map f l1 = List.map f l2 -> l1 = l2.
Proof.
  intros Hf. induction l1 as [|a l1 IH]; intros [|b l2] H1 H2 H; try done. cbn in H. injection H as Hab H.
  apply List.Forall_cons_iff in H1 as [? H1], H2 as [? H2]. f_equal; [by apply Hf|by apply IH].
Qed.

Lemma show_bytes_inj bs1 bs2 : length bs1 = length bs2 -> List.Forall isByte bs1 -> List.Forall isByte bs2 ->
  join "." (List.map show bs1) = join "." (List.map show bs2) -> bs1 = bs2.
Proof.
  intros Hl H1 H2 H. apply (map_inj_on show isByte); [|done..|]; [intros a b _ _; apply show_inj|].
  assert (Hs : forall bs, List.Forall isByte bs -> List.Forall (fun s => noChar "." s = true) (List.map show bs)).
  { intros bs Hb. apply List.Forall_map. eapply List.Forall_impl; [|exact Hb]. intros b [? _]. by apply show_noDot. }
  apply (join_inj "."); [by rewrite !List.length_map|by apply Hs..|done].
Qed.

(** ** Buckets *)

Lemma word_value h l : isByte h -> isByte l -> word h l = (256 * h + l)%Z.
Proof.
  unfold isByte, word. intros Hh Hl. rewrite Z.shiftl_mul_pow2 by lia.
  pose proof (Z.add_lor_land (h * 2 ^ 8) l) as H. enough (Z.land (h * 2 ^ 8) l = 0)%Z by lia. clear H.
  rewrite <- Z.shiftl_mul_pow2 by lia. apply Z.bits_inj'. intros k Hk. rewrite Z.land_spec, Z.bits_0. destruct (Z.lt_ge_cases k 8).
  + by rewrite Z.shiftl_spec_low by lia.
  + rewrite <- (Z.mod_small l (2 ^ 8)) by lia. by rewrite Z.mod_pow2_bits_high, andb_false_r by lia.
Qed.

Lemma word_range h l : isByte h -> isByte l -> (0 <= word h l < 65536)%Z.
Proof. intros Hh Hl. rewrite word_value by done. unfold isByte in *. lia. Qed.

Lemma word_inj h l h' l' : isByte h -> isByte l -> isByte h' -> isByte l' -> word h l = word h' l' -> h = h' /\ l = l'.
Proof. intros. rewrite !word_value in * by done. unfold isByte in *. lia. Qed.

Lemma isByte_nth bs i : List.Forall isByte bs -> isByte (nth i bs 0%Z).
Proof.
  intros H. destruct (nth_in_or_default i bs 0%Z) as [Hi| ->]; [|done]. by apply (proj1 (List.Forall_forall _ _) H).
Qed.

Lemma hextetList_noColon n : forall bs, List.Forall isByte bs ->
  List.Forall (fun s => noChar ":" s = true) (hextetList n bs).
Proof.
  induction n as [|n IH]; cbn [hextetList]; intros bs Hb; constructor; [|by apply IH, Forall_skipn].
  apply hexOnto_toHex, word_range; by apply isByte_nth.
Qed.

Lemma hextetList_inj n : forall bs1 bs2, List.Forall isByte bs1 -> List.Forall isByte bs2 ->
  2 * n <= length bs1 -> 2 * n <= length bs2 ->
  hextetList n bs1 = hextetList n bs2 <-> firstn (2 * n) bs1 = firstn (2 * n) bs2.
Proof.
  induction n as [|n IH]; intros bs1 bs2 H1 H2 L1 L2; [done|]. replace (2 * S n) with (S (S (2 * n))) in * by lia.
  destruct bs1 as [|a [|b bs1]], bs2 as [|c [|d bs2]]; cbn [length] in *; try lia.
  cbn [hextetList firstn nth skipn]. repeat match goal with H : List.Forall _ (_ :: _) |- _ => apply List.Forall_cons_iff in H as [? H] end.
  specialize (IH bs1 bs2 ltac:(done) ltac:(done) ltac:(lia) ltac:(lia)). split.
  - intros Heq. injection Heq as Hw Heq. apply toHex_inj in Hw; [|by apply word_range..].
    apply word_inj in Hw as [-> ->]; [|done..]. by rewrite (proj1 IH Heq).
  - intros [= -> -> Heq]. f_equal. exact (proj2 IH Heq).
Qed.

Lemma length_hextetList n : forall bs, length (hextetList n bs) = n.
Proof. induction n as [|n IH]; intros bs; cbn; [done|]. by rewrite IH. Qed.

(** The addresses one bucket stands for. *)
Definition sameBucket (p q : ParsedIp) : Prop :=
  ip_family p = ip_family q /\
  match ip_family p with
  | IPv4 => ip_bytes p = ip_bytes q
  | IPv6 => firstn 8 (ip_bytes p) = firstn 8 (ip_bytes q)
  end.

Lemma bucketOf_inj p q : wellFormedIp p -> wellFormedIp q -> bucketOf p = bucketOf q <-> sameBucket p q.
Proof.
  intros [Lp Hp] [Lq Hq]. unfold bucketOf, sameBucket. destruct p as [[] bp], q as [[] bq]; cbn [ip_family ip_bytes addressLength] in *.
  - split; [|by intros [_ ->]]. intros H. split; [done|]. cbn in H. injection H as H. apply show_bytes_inj; [lia|done..].
  - split; [|by intros []]. cbn. done.
  - split; [|by intros []]. cbn. done.
  - pose proof (hextetList_inj 4 bp bq Hp Hq ltac:(lia) ltac:(lia)) as Hiff. change (2 * 4) with 8 in Hiff.
    unfold hextets. change (IPV6_BUCKET_BITS / 8 / 2) with 4. split.
    + intros H. split; [done|]. apply Hiff. cbn [append] in H. injection H as H. apply (join_inj ":").
      * by rewrite !length_hextetList.
      * by apply hextetList_noColon.
      * by apply hextetList_noColon.
      * exact H.
    + intros [_ H]. by rewrite (proj2 Hiff H).
Qed.

Lemma bucketOf_resolved p : bucketOf p <> UNRESOLVED_CLIENT_IP.
Proof. unfold bucketOf. by destruct (ip_family p). Qed.


(** ** Networks, bit by bit *)

(** Bit [i] of an address, from the most significant. *)
Definition bitAt (bytes : list Z) (i : nat) : bool := Z.testbit (nth (i / 8) bytes 0%Z) (7 - Z.of_nat (i mod 8)).

(** The bits of a byte from [low] up decide its masked value. *)
Lemma masked_bits low x y : (0 <= low <= 8)%Z -> isByte x -> isByte y ->
  Z.land x (Z.land (Z.shiftl 255 low) 255) = Z.land y (Z.land (Z.shiftl 255 low) 255)
  <-> forall k, (low <= k < 8)%Z -> Z.testbit x k = Z.testbit y k.
Proof.
  intros Hlow Hx Hy.
  assert (Hm : forall k, (0 <= k)%Z -> Z.testbit (Z.land (Z.shiftl 255 low) 255) k = (low <=? k)%Z && (k <? 8)%Z).
  { intros k Hk. change 255%Z with (Z.ones 8). rewrite Z.land_spec, Z.shiftl_spec by lia.
    rewrite (Z.testbit_ones_nonneg 8 k) by lia. destruct (Z.leb_spec low k); cbn.
    - rewrite Z.testbit_ones_nonneg by lia. destruct (Z.ltb_spec k 8), (Z.ltb_spec (k - low) 8); lia.
    - by rewrite Z.testbit_neg_r by lia. }
  revert Hm. generalize (Z.land (Z.shiftl 255 low) 255). intros m Hm. split; intros H.
  - intros k Hk. apply (f_equal (fun z => Z.testbit z k)) in H. rewrite !Z.land_spec, Hm in H by lia.
    rewrite (proj2 (Z.leb_le low k)), (proj2 (Z.ltb_lt k 8)), !andb_true_r in H by lia. done.
  - apply Z.bits_inj'. intros k Hk. rewrite !Z.land_spec, Hm by lia.
    destruct (Z.leb_spec low k), (Z.ltb_spec k 8); cbn; rewrite ?andb_false_r; [|done..]. by rewrite H.
Qed.

Lemma byte_bits x y : isByte x -> isByte y -> x = y <-> forall k, (0 <= k < 8)%Z -> Z.testbit x k = Z.testbit y k.
Proof.
  intros Hx Hy. rewrite <- (masked_bits 0 x y) by done. change (Z.land (Z.shiftl 255 0) 255) with (Z.ones 8).
  rewrite !Z.land_ones, !Z.mod_small by (unfold isByte in *; lia). done.
Qed.

Lemma sameBytes_nth n : forall c b, length c = length b -> sameBytes n c b = true <-> forall i, i < n -> nth i c 0%Z = nth i b 0%Z.
Proof.
  induction n as [|n IH]; intros c b Hl; [split; [intros _ i; lia|done]|].
  destruct c as [|x c], b as [|y b]; cbn [sameBytes]; try done.
  - rewrite (IH [] []) by done. split; [|intros _ i _; by destruct i]. by intros _ [|i].
  - injection Hl as Hl. rewrite andb_true_iff, Z.eqb_eq, (IH c b Hl). split.
    + intros [-> H] [|i] Hi; [done|]. apply H. lia.
    + intros H. split; [exact (H 0 ltac:(lia))|]. intros i Hi. exact (H (S i) ltac:(lia)).
Qed.

(** Being in a network is agreeing with it on the bits of its prefix. *)
Lemma withinPrefix_bits c b prefix : length c = length b -> List.Forall isByte c -> List.Forall isByte b ->
  withinPrefix c b prefix = true <-> forall i, i < prefix -> bitAt c i = bitAt b i.
Proof.
  intros Hl Hc Hb. unfold withinPrefix. rewrite andb_true_iff, orb_true_iff, Nat.eqb_eq, Z.eqb_eq, sameBytes_nth by done.
  pose proof (Nat.div_mod_eq prefix 8) as Hp. pose proof (Nat.mod_upper_bound prefix 8 ltac:(done)) as Hr.
  set (q := prefix / 8) in *. set (r := prefix mod 8) in *.
  rewrite masked_bits; [|lia|by apply isByte_nth..]. split.
  - intros [Hw Ht] i Hi. unfold bitAt. pose proof (Nat.div_mod_eq i 8) as Ei. pose proof (Nat.mod_upper_bound i 8 ltac:(done)).
    assert (i / 8 < q \/ i / 8 = q /\ i mod 8 < r) as [Hlt|[-> Hlt]] by nia; [by rewrite Hw|].
    destruct Ht as [->|Ht]; [lia|]. apply Ht. lia.
  - intros H. unfold bitAt in H. split.
    + intros i Hi. apply byte_bits; [by apply isByte_nth..|]. intros k Hk.
      specialize (H (8 * i + Z.to_nat (7 - k)) ltac:(lia)).
      rewrite (Nat.mul_comm 8 i), Nat.div_add_l, Nat.div_small, Nat.add_0_r in H by lia.
      rewrite (Nat.add_comm (i * 8)), Nat.Div0.mod_add, Nat.mod_small in H by lia.
      by replace (7 - Z.of_nat (Z.to_nat (7 - k)))%Z with k in H by lia.
    + right. intros k Hk. specialize (H (8 * q + Z.to_nat (7 - k)) ltac:(lia)).
      rewrite (Nat.mul_comm 8 q), Nat.div_add_l, Nat.div_small, Nat.add_0_r in H by lia.
      rewrite (Nat.add_comm (q * 8)), Nat.Div0.mod_add, Nat.mod_small in H by lia.
      by replace (7 - Z.of_nat (Z.to_nat (7 - k)))%Z with k in H by lia.
Qed.

(** A prefix the parser accepts fits its address. *)
Definition wellFormedCidr (n : ParsedCidr) : Prop :=
  wellFormedIp (cidr_address n) /\ cidr_prefix n <= 8 * addressLength (ip_family (cidr_address n)).

Lemma parseCidr_wf input n : parseCidr input = Some n -> wellFormedCidr n.
Proof.
  unfold parseCidr, wellFormedCidr. destruct (split "/" (trim input)) as [|address rest]; [done|].
  destruct (_ || _); [done|]. destruct (parseClientIp (Some address)) as [p|] eqn:Ep; [|done]. cbn.
  apply parseClientIp_wf in Ep as Hp. destruct Hp as [Hl Hb]. unfold wellFormedIp.
  destruct rest as [|t rest]; [intros [= <-]; cbn; rewrite Hl; split; [done|lia]|].
  destruct (_ <=? _)%nat; [|done]. destruct (parseDigits t) as [m|]; [|done]. cbn.
  destruct (_ <? m)%Z eqn:Em; [done|]. intros [= <-]. cbn. split; [done|]. rewrite <- Hl. bools. lia.
Qed.

(** An address is in a list of networks exactly when, for one of them, it is of the network's family and
    agrees with it on every bit of the prefix. *)
Theorem network_match_exact value networks : (forall n, In n networks -> wellFormedCidr n) ->
  matchesAnyCidr value networks = true <->
  exists p n, parseClientIp value = Some p /\ In n networks /\ ip_family (cidr_address n) = ip_family p
    /\ forall i, i < cidr_prefix n -> bitAt (ip_bytes p) i = bitAt (ip_bytes (cidr_address n)) i.
Proof.
  intros Hwf. unfold matchesAnyCidr. destruct (parseClientIp value) as [p|] eqn:Ep; [|by split; [|intros (? & ? & [=] & _)]].
  destruct (parseClientIp_wf _ _ Ep) as [Lp Hp]. rewrite existsb_exists. setoid_rewrite andb_true_iff. split.
  - intros (n & Hn & Hf & Hm). destruct (Hwf n Hn) as [[Ln Hb] _]. apply bool_decide_eq_true in Hf. exists p, n.
    repeat split; [done..|]. apply withinPrefix_bits; [by rewrite Lp, Ln, Hf|done..].
  - intros (? & n & [= <-] & Hn & Hf & Hm). destruct (Hwf n Hn) as [[Ln Hb] _]. exists n. split; [done|].
    split; [by apply bool_decide_eq_true|]. apply withinPrefix_bits; [by rewrite Lp, Ln, Hf|done..].
Qed.

Lemma network_match_exact_witness : exists n, parseCidr "2001:db8:8000::/33" = Some n
  /\ matchesAnyCidr (Some "2001:db8:ffff::1") [n] = true.
Proof.
  eexists (mkParsedCidr _ _). split; [reflexivity|]. eapply network_match_exact.
  - intros n [<-|[]]. eapply (parseCidr_wf "2001:db8:8000::/33"). reflexivity.
  - eexists (mkParsedIp _ _), _. split; [reflexivity|]. split; [left; reflexivity|]. split; [reflexivity|].
    intros i Hi. change (i < 33) in Hi. do 33 (destruct i as [|i]; [reflexivity|]). exfalso. lia.
Defined.

(** ** Forwarding headers *)

Lemma split_append sep a b : split sep (a ++ String sep b) = (split sep a ++ split sep b)%list.
Proof.
  induction a as [|c a IH];
    [|change (String c a ++ String sep b) with (String c (a ++ String sep b))]; cbn [split].
  - change ("" ++ String sep b) with (String sep b). cbn [split app]. by rewrite bd_refl.
  - rewrite IH. destruct (c === sep); [done|]. destruct (split sep a) as [|h t] eqn:E; [|done].
    exfalso. by destruct a as [|d a]; cbn in E; [|destruct (d === sep); [|destruct (split sep a)]].
Qed.

(** What a proxy adds stands nearer than what came before it. *)
Lemma forwardedChain_cons spoof added : added <> [] ->
  forwardedChain (spoof :: added) = (forwardedChain added ++ forwardedChain [spoof])%list.
Proof.
  intros Ha. unfold forwardedChain. rewrite join_cons. destruct added as [|v added]; [done|].
  change ("," ++ join "," (v :: added)) with (String "," (join "," (v :: added))).
  rewrite split_append, List.map_app, List.filter_app, List.rev_app_distr. done.
Qed.

Lemma walkProxies_stops trusted client spoofed proxies : forall remote,
  (forall a, In a (remote :: proxies) -> matchesAnyCidr (Some a) trusted = true) ->
  matchesAnyCidr (Some client) trusted = false ->
  walkProxies trusted remote (proxies ++ client :: spoofed)%list = client.
Proof.
  induction proxies as [|p proxies IH]; intros remote Ht Hc; cbn [app walkProxies]; rewrite (Ht remote) by (by left); cbn [negb].
  - destruct spoofed; cbn [walkProxies]; [done|]. by rewrite Hc.
  - apply IH; [|done]. intros a Ha. apply Ht. by right.
Qed.

Definition resolves (a : string) : bool := is_set (parseClientIp (Some a)).

(** The proxies [remote] and [proxies] in front of the service, and the client the farthest of them saw. *)
Definition seenThrough (hops : nat) (trusted : list ParsedCidr) (remote client : string) (proxies : list string) : Prop :=
  hops = S (length proxies)
  \/ hops = 0 /\ (forall a, In a (remote :: proxies) -> matchesAnyCidr (Some a) trusted = true)
     /\ matchesAnyCidr (Some client) trusted = false.

Lemma existsb_negb {A} (P : A -> bool) l : existsb (fun v => negb (P v)) l = negb (forallb P l).
Proof. induction l as [|a l IH]; cbn; [done|]. by rewrite IH, negb_andb. Qed.

(** Whatever a client writes into the forwarding header, the address the service takes it for is the one the
    proxies in front of the service saw, or, when what it wrote is no list of addresses, the nearest proxy's. *)
Theorem forwarded_header_cannot_spoof remote hops trusted spoof added proxies client :
  trim remote = remote -> resolves remote = true -> forallb resolves (proxies ++ [client]) = true ->
  forwardedChain added = (proxies ++ [client])%list -> seenThrough hops trusted remote client proxies ->
  trustedClientAddress (mkTrustedProxy (Some remote) (spoof :: added) hops trusted)
    = Some (if forallb resolves (forwardedChain [spoof]) then client else remote).
Proof.
  intros Htrim Hr Hres Hadded Hseen.
  assert (Hne : added <> []) by (intros ->; by destruct proxies).
  assert (Hr' : remote === EmptyString = false) by (destruct remote; [done|by apply bd_ne]).
  unfold trustedClientAddress. cbn [tp_remoteAddress tp_forwardedFor tp_trustedHops tp_trustedCidrs fmap option_fmap option_map mbind option_bind].
  rewrite Htrim, Hr'. fold (resolves remote). rewrite Hr. cbn [orb negb]. rewrite forwardedChain_cons, Hadded by done.
  set (spoofed := forwardedChain [spoof]).
  assert (Hex : existsb (fun v => negb (is_set (parseClientIp (Some v)))) ((proxies ++ [client]) ++ spoofed)
                = negb (forallb resolves spoofed)).
  { change (existsb (fun v => negb (resolves v)) ((proxies ++ [client]) ++ spoofed) = negb (forallb resolves spoofed)).
    by rewrite existsb_negb, forallb_app, Hres. }
  rewrite Hex. destruct (forallb resolves spoofed); cbn [negb]; [|done]. rewrite <- app_assoc. cbn [app].
  destruct Hseen as [->|(-> & Htr & Hc)].
  - cbn [Nat.ltb Nat.leb]. rewrite Nat.min_l by (cbn; rewrite length_app; cbn; lia). cbn [List.nth_error].
    by rewrite List.nth_error_app2, Nat.sub_diag by done.
  - cbn [Nat.ltb Nat.leb]. destruct trusted as [|n trusted].
    { pose proof (Htr remote (or_introl eq_refl)) as H. unfold matchesAnyCidr in H. by destruct (parseClientIp _). }
    cbn [length Nat.eqb]. f_equal. by apply walkProxies_stops.
Qed.

Lemma forwarded_header_cannot_spoof_witness :
  trustedClientAddress (mkTrustedProxy (Some "10.0.0.1") ["127.0.0.1, 10.9.9.9"; "198.51.100.4"; "10.0.0.2"] 0 (omap parseCidr ["10.0.0.0/8"]))
    = Some "198.51.100.4"
  /\ trustedClientAddress (mkTrustedProxy (Some "10.0.0.1") ["nonsense"; "198.51.100.4"; "10.0.0.2"] 2 []) = Some "10.0.0.1".
Proof.
  split.
  - apply (forwarded_header_cannot_spoof "10.0.0.1" 0 (omap parseCidr ["10.0.0.0/8"]) "127.0.0.1, 10.9.9.9" ["198.51.100.4"; "10.0.0.2"]
             ["10.0.0.2"] "198.51.100.4"); try reflexivity.
    right. split; [reflexivity|]. split; [|reflexivity]. intros a [<-|[<-|[]]]; reflexivity.
  - apply (forwarded_header_cannot_spoof "10.0.0.1" 2 [] "nonsense" ["198.51.100.4"; "10.0.0.2"] ["10.0.0.2"] "198.51.100.4");
      try reflexivity. left. reflexivity.
Defined.
