(* ===== verification/RateLimit.v ===== *)
(** * Rate limiting

    lib/rate-limit.ts, middleware/rate-limit.ts and modules/auth/auth.abuse.ts: the fixed-window counter kept in
    Redis by a script, the bounded counter in memory used while Redis is away, and the guards over them. Redis is
    outside the source: [Redis] names the three commands the script uses. Log lines and metrics, the capacity
    alert among them, which only logs, are left out. *)

From Stdlib Require Import ZArith Lia Bool.
From S2P Require Import Prelude Store Database JsString Platform Request ClientIp.

Open Scope string_scope.

(** INCR, EXPIRE and TTL of a server at an instant. *)
Class Redis := {
  RedisState : Type;
  redis_incr : Z -> string -> RedisState -> Z * RedisState;
  redis_expire : Z -> string -> Z -> RedisState -> RedisState;
  redis_ttl : Z -> string -> RedisState -> Z
}.

(** ** The counter in memory *)

Record LocalCounter := mkLocalCounter { lc_count : Z; lc_resetAt : Z }.
#[export] Instance LocalCounter_eta : Eta LocalCounter := fun r => mkLocalCounter (lc_count r) (lc_resetAt r).

(** A [Map]: entries in the order of insertion. *)
Definition Entries : Type := list (string * LocalCounter).

Definition fallbackDelete (key : string) (entries : Entries) : Entries :=
  List.filter (fun e => negb (fst e === key)) entries.

(** [#removeExpired] *)
Definition removeExpired (now : Z) (entries : Entries) : Entries :=
  List.filter (fun e => negb (lc_resetAt (snd e) <=? now)%Z) entries.

(** [while (size >= maxKeys)]: the oldest entry goes; an empty key stops the loop. *)
Fixpoint evictOldest (maxKeys : nat) (entries : Entries) : Entries :=
  match entries with
  | [] => []
  | (oldestKey, _) :: rest =>
      if (maxKeys <=? length entries)%nat
      then if oldestKey === EmptyString then entries else evictOldest maxKeys rest
      else entries
  end.

(** [Math.ceil(ms / 1_000)] *)
Definition ceilSeconds (ms : Z) : Z := ((ms + 999) / 1000)%Z.

(** [increment]: the count, the seconds to wait, and the entries left. *)
Definition fallbackIncrement (maxKeys : nat) (key : string) (windowSeconds now : Z) (entries : Entries)
    : (Z * Z) * Entries :=
  let existing := assoc key entries in
  match existing with
  | Some c =>
      if (now <? lc_resetAt c)%Z then
        ((lc_count c + 1, Z.max 1 (ceilSeconds (lc_resetAt c - now))),
         List.map (fun e => if fst e === key then (fst e, (snd e) <| lc_count := (lc_count (snd e) + 1)%Z |>) else e) entries)%Z
      else
        let entries := evictOldest maxKeys (removeExpired now (fallbackDelete key entries)) in
        ((1, windowSeconds), entries ++ [(key, mkLocalCounter 1 (now + windowSeconds * 1000))])%Z%list
  | None =>
      let entries := evictOldest maxKeys (removeExpired now entries) in
      ((1, windowSeconds), entries ++ [(key, mkLocalCounter 1 (now + windowSeconds * 1000))])%Z%list
  end.

(** ** lib/rate-limit.ts *)

Section RateLimit.
Context `{Redis} `{Platform}.

(** The module's state, and the server's. [alerts] are the instants an outage was reported to Sentry. *)
Record RateState := mkRateState {
  rs_redis : RedisState;
  rs_fallback : Entries;
  redisFailureCount : Z;
  redisOutageStartedAt : option Z;
  lastRedisAlertAt : option Z;
  rs_alerts : list Z
}.
#[export] Instance RateState_eta : Eta RateState := fun r => mkRateState (rs_redis r) (rs_fallback r)
  (redisFailureCount r) (redisOutageStartedAt r) (lastRedisAlertAt r) (rs_alerts r).

(** The Lua script, run by the server as one step. *)
Definition incrementScript (now : Z) (key : string) (windowSeconds : Z) (s : RedisState) : (Z * Z) * RedisState :=
  let '(count, s) := redis_incr now key s in
  let s := if (count =? 1)%Z then redis_expire now key windowSeconds s else s in
  ((count, redis_ttl now key s), s).

(** What becomes of a call: the reply arrives, the call never reaches the server, or the reply is lost. *)
Inductive RedisReply := Replies | Unreachable | ReplyLost.

Definition REDIS_ALERT_INTERVAL_MS : Z := 60000.

Inductive RedisFailureMode := mode_local | mode_deny.
#[export] Instance RedisFailureMode_eq_dec : EqDecision RedisFailureMode.
Proof. solve_decision. Defined.

Record RateLimitResult := mkRateLimitResult { rl_count : Z; rl_limit : Z; rl_retryAfterSeconds : Z }.

Definition recordRedisFailure (now : Z) (st : RateState) : RateState :=
  let st := st <| redisFailureCount := (redisFailureCount st + 1)%Z |>
               <| redisOutageStartedAt := Some (redisOutageStartedAt st ??? now) |> in
  match lastRedisAlertAt st with
  | Some t => if (REDIS_ALERT_INTERVAL_MS <=? now - t)%Z
              then st <| lastRedisAlertAt := Some now |> <| rs_alerts := (rs_alerts st ++ [now])%list |> else st
  | None => st <| lastRedisAlertAt := Some now |> <| rs_alerts := (rs_alerts st ++ [now])%list |>
  end.

Definition recordRedisRecovery (st : RateState) : RateState :=
  if (redisFailureCount st =? 0)%Z then st
  else st <| redisFailureCount := 0%Z |> <| redisOutageStartedAt := None |> <| lastRedisAlertAt := None |>.

Definition TOO_MANY : string := "Too many requests; try again later".
Definition PROTECTION_UNAVAILABLE : string := "Request protection is temporarily unavailable; try again".

(** [`rate:${scope}:${hashMetadata(value)}`] *)
Definition rateKey (scope value : string) : res string :=
  match hashMetadata value with Ok h => Ok ("rate:" ++ scope ++ ":" ++ h) | Err e => Err e end.

(** The reply of [appRedis.eval], or nothing when it throws. *)
Definition evalScript (reply : RedisReply) (now : Z) (key : string) (windowSeconds : Z) (st : RateState)
    : option (Z * Z) * RateState :=
  match reply with
  | Unreachable => (None, st)
  | Replies => let '(r, s) := incrementScript now key windowSeconds (rs_redis st) in (Some r, st <| rs_redis := s |>)
  | ReplyLost => let '(_, s) := incrementScript now key windowSeconds (rs_redis st) in (None, st <| rs_redis := s |>)
  end.

(** [localFallback.increment] and what follows it. *)
Definition enforceLocally (key : string) (limit windowSeconds now : Z) : Proc RateState RateLimitResult := fun st =>
  let '((count, retryAfter), entries) :=
    fallbackIncrement (Z.to_nat (RATE_LIMIT_FALLBACK_MAX_KEYS env)) key windowSeconds now (rs_fallback st) in
  let st := st <| rs_fallback := entries |> in
  if (limit <? count)%Z then (Err (errors.rateLimited TOO_MANY retryAfter), st)
  else (Ok (mkRateLimitResult count limit retryAfter), st).

Definition enforceRateLimit (reply : RedisReply) (now : Z) (scope value : string) (limit windowSeconds : Z)
    (failureMode : RedisFailureMode) : Proc RateState RateLimitResult := fun st =>
  match rateKey scope value with
  | Err e => (Err e, st)
  | Ok key =>
      let '(result, st) := evalScript reply now key windowSeconds st in
      match result with
      | None =>
          let st := recordRedisFailure now st in
          if failureMode === mode_deny then (Err (errors.serviceUnavailable PROTECTION_UNAVAILABLE), st)
          else enforceLocally key limit windowSeconds now st
      | Some (count, ttl) =>
          let st := recordRedisRecovery st in
          let st := st <| rs_fallback := fallbackDelete key (rs_fallback st) |> in
          let retryAfterSeconds := if (0 <? ttl)%Z then ttl else windowSeconds in
          if (limit <? count)%Z then (Err (errors.rateLimited TOO_MANY retryAfterSeconds), st)
          else (Ok (mkRateLimitResult count limit retryAfterSeconds), st)
      end
  end.

(** ** middleware/rate-limit.ts *)

Definition allowlist : list ParsedCidr := omap parseCidr (RATE_LIMIT_ALLOWLIST_CIDRS env).
Definition isRateLimitAllowlisted (ip : option string) : bool := matchesAnyCidr ip allowlist.

(** A guard: [next()] is [Ok tt], [next(error)] is the error. *)
Definition ipRateLimit (reply : RedisReply) (now : Z) (scope : string) (limit windowSeconds : Z)
    (failureMode : RedisFailureMode) (ip : option string) : Proc RateState unit :=
  if isRateLimitAllowlisted ip then mret tt
  else _ ← enforceRateLimit reply now scope (clientIpKey ip) limit windowSeconds failureMode; mret tt.

Definition globalIpRateLimit (reply : RedisReply) (now : Z) (ip : option string) : Proc RateState unit :=
  ipRateLimit reply now "global:ip" (RATE_LIMIT_IP_PER_MINUTE env) 60 mode_local ip.

Definition userRateLimit (reply : RedisReply) (now : Z) (scope : string) (limit windowSeconds : Z)
    (userId : option string) : Proc RateState unit :=
  match userId with
  | None => mret tt
  | Some userId =>
      if userId === EmptyString then mret tt
      else _ ← enforceRateLimit reply now scope ("user:" ++ userId) limit windowSeconds mode_local; mret tt
  end.

Definition userIdentityRateLimit (reply : RedisReply) (now : Z) (userId : option string) : Proc RateState unit :=
  userRateLimit reply now "global:user" 300 60 userId.

(** [refreshToken] is [resolveRefreshToken(request)]; the token's owner is read from the database [w]. *)
Definition refreshUserRateLimit (reply : RedisReply) (now : Z) (refreshToken : option string) (w : World)
    : Proc RateState unit := fun st =>
  match refreshToken with
  | None => (Ok tt, st)
  | Some token =>
      if token === EmptyString then (Ok tt, st)
      else match candidateOpaqueTokenHashes token with
           | Err e => (Err e, st)
           | Ok hashes =>
               match List.find (fun t => mem (rt_tokenHash t) hashes) (refreshTokens w) with
               | None => (Ok tt, st)
               | Some current =>
                   (_ ← enforceRateLimit reply now "auth:refresh:user" ("user:" ++ rt_userId current) 20 (15 * 60) mode_local;
                    mret tt) st
               end
           end
  end.

(** ** modules/auth/auth.abuse.ts *)

Inductive PublicAuthEndpoint :=
  | signup | login | otp_send | otp_verify | password_reset_request | password_reset_verify | password_reset_confirm.

Definition endpointName (e : PublicAuthEndpoint) : string :=
  match e with
  | signup => "signup" | login => "login" | otp_send => "otp-send" | otp_verify => "otp-verify"
  | password_reset_request => "password-reset-request" | password_reset_verify => "password-reset-verify"
  | password_reset_confirm => "password-reset-confirm"
  end.

Record Backstop := mkBackstop { ipLimit : Z; globalLimit : Z; window : Z }.
Definition policy (e : PublicAuthEndpoint) : Backstop :=
  match e with
  | signup => mkBackstop 100 20000 (60 * 60)
  | login => mkBackstop 300 100000 (15 * 60)
  | otp_send => mkBackstop 300 20000 (10 * 60)
  | otp_verify => mkBackstop 600 50000 (10 * 60)
  | password_reset_request => mkBackstop 100 20000 (60 * 60)
  | password_reset_verify => mkBackstop 300 50000 (10 * 60)
  | password_reset_confirm => mkBackstop 100 20000 (10 * 60)
  end.

(** [Promise.all] of checks that each run to their end: the first failure is the result. *)
Fixpoint promiseAll (checks : list (Proc RateState RateLimitResult)) : Proc RateState unit := fun st =>
  match checks with
  | [] => (Ok tt, st)
  | check :: rest =>
      let '(r, st) := check st in
      let '(rs, st) := promiseAll rest st in
      (match r with Ok _ => rs | Err e => Err e end, st)
  end.

(** [replies] are what becomes of the calls, in order. *)
Definition enforceAuthBackstops (replies : RedisReply * RedisReply * RedisReply) (now : Z) (endpoint : PublicAuthEndpoint)
    (metadata : RequestMetadata) (provider : option string) : Proc RateState unit :=
  let value := policy endpoint in
  let '(r1, r2, r3) := replies in
  promiseAll
    ([enforceRateLimit r1 now ("auth:" ++ endpointName endpoint ++ ":ip") (clientIpKey (Some (meta_ip metadata)))
        (ipLimit value) (window value) mode_deny;
      enforceRateLimit r2 now ("auth:" ++ endpointName endpoint ++ ":global") "all"
        (globalLimit value) (window value) mode_deny]
     ++ match provider with
        | Some provider => [enforceRateLimit r3 now ("provider-spend:" ++ provider) "all" 10000 (60 * 60) mode_deny]
        | None => []
        end)%list.
End RateLimit.
