(* ===== verification/RateLimitSpec.v ===== *)
(** * What the rate limiter promises

    In no stretch of time as long as the window does the limiter let more than twice the limit through, and from
    the opening of a window not more than the limit, whatever replies of Redis are lost, when the guard denies
    during an outage; and the counters in memory stay within their bound. *)

From Stdlib Require Import ZArith Lia Bool.
From stdpp Require Import gmap strings.
From S2P Require Import Prelude Store Database JsString Platform Request ClientIp RateLimit.

Open Scope string_scope.

(** What Redis documents of the three commands: [counter now k s] is the live counter of a key and the instant it
    expires at. *)
Class RedisLaws `{Redis} (counter : Z -> string -> RedisState -> option (Z * option Z)) : Prop := {
  incr_counts now k s :
    fst (redis_incr now k s) = match counter now k s with Some (n, _) => (n + 1)%Z | None => 1%Z end
    /\ counter now k (snd (redis_incr now k s)) =
         Some (fst (redis_incr now k s), match counter now k s with Some (_, e) => e | None => None end);
  incr_other now k k' s : k' <> k -> counter now k' (snd (redis_incr now k s)) = counter now k' s;
  expire_sets now k w s n e : (0 < w)%Z -> counter now k s = Some (n, e) ->
    counter now k (redis_expire now k w s) = Some (n, Some (now + w * 1000)%Z);
  expire_other now k k' w s : k' <> k -> counter now k' (redis_expire now k w s) = counter now k' s;
  time_passes now now' k s : (now <= now')%Z ->
    counter now' k s = match counter now k s with
                       | Some (n, Some e) => if (now' <? e)%Z then Some (n, Some e) else None
                       | c => c
                       end
}.

(** ** Calls *)

Record Call := mkCall {
  call_reply : RedisReply; call_at : Z; call_scope : string; call_value : string;
  call_limit : Z; call_window : Z; call_mode : RedisFailureMode
}.

Section Limit.
Context `{RedisLaws} `{Platform}.

Definition perform (c : Call) : Proc RateState RateLimitResult :=
  enforceRateLimit (call_reply c) (call_at c) (call_scope c) (call_value c) (call_limit c) (call_window c) (call_mode c).
Definition accepts (c : Call) (st : RateState) : bool := match fst (perform c st) with Ok _ => true | Err _ => false end.

(** The calls let through, in order. *)
Fixpoint admitted (cs : list Call) (st : RateState) : list Call :=
  match cs with
  | [] => []
  | c :: rest => ((if accepts c st then [c] else []) ++ admitted rest (snd (perform c st)))%list
  end.

Definition onKey (key : string) (c : Call) : bool :=
  match rateKey (call_scope c) (call_value c) with Ok k => k === key | Err _ => false end.

(** Those on a key at an instant of [a, b). *)
Definition within (key : string) (a b : Z) (c : Call) : bool :=
  onKey key c && (a <=? call_at c)%Z && (call_at c <? b)%Z.
Definition admittedIn (key : string) (a b : Z) (cs : list Call) (st : RateState) : nat :=
  length (List.filter (within key a b) (admitted cs st)).

(** Every call on the key has its limit and window, and denies during an outage. *)
Definition governed (key : string) (limit window : Z) (c : Call) : Prop :=
  onKey key c = true -> call_limit c = limit /\ call_window c = window /\ call_mode c = mode_deny.

(** Calls in the order of time, none before [t]. *)
Fixpoint inOrder (t : Z) (cs : list Call) : Prop :=
  match cs with [] => True | c :: rest => (t <= call_at c)%Z /\ inOrder (call_at c) rest end.

(** ** One call *)

Definition live (now : Z) (key : string) (st : RateState) : option (Z * option Z) := counter now key (rs_redis st).

Lemma recovery_redis st : rs_redis (recordRedisRecovery st) = rs_redis st.
Proof. unfold recordRedisRecovery. by case_match. Qed.
Lemma failure_redis now st : rs_redis (recordRedisFailure now st) = rs_redis st.
Proof. unfold recordRedisFailure. by repeat case_match. Qed.
Lemma locally_redis key limit w now st : rs_redis (snd (enforceLocally key limit w now st)) = rs_redis st.
Proof. unfold enforceLocally. destruct (fallbackIncrement _ _ _ _ _) as [[count retryAfter] entries]. by case_match. Qed.

(** The script on its key. *)
Lemma script_counts now key w s : (0 < w)%Z ->
  match counter now key s with Some (n, e) => (1 <= n)%Z | None => True end ->
  let '((count, _), s') := incrementScript now key w s in
  match counter now key s with
  | Some (n, e) => count = (n + 1)%Z /\ counter now key s' = Some ((n + 1)%Z, e)
  | None => count = 1%Z /\ counter now key s' = Some (1%Z, Some (now + w * 1000)%Z)
  end.
Proof.
  intros Hw Hn. unfold incrementScript. pose proof (incr_counts now key s) as [Hc Hs].
  destruct (redis_incr now key s) as [count s1]. cbn in Hc, Hs. destruct (counter now key s) as [[n e]|].
  - rewrite (proj2 (Z.eqb_neq count 1)) by lia. by rewrite Hs, Hc.
  - rewrite (proj2 (Z.eqb_eq count 1)) by done. split; [done|]. rewrite <- Hc. by eapply expire_sets.
Qed.

Lemma script_other now key key' w s : key' <> key ->
  counter now key' (snd (incrementScript now key w s)) = counter now key' s.
Proof.
  intros Hk. unfold incrementScript. pose proof (incr_other now key key' s Hk) as Ho.
  destruct (redis_incr now key s) as [count s1]. cbn in *. case_match; [|done]. by rewrite expire_other.
Qed.

(** What a call leaves in Redis. *)
Lemma perform_redis c st key : rateKey (call_scope c) (call_value c) = Ok key ->
  rs_redis (snd (perform c st)) =
    match call_reply c with
    | Unreachable => rs_redis st
    | _ => snd (incrementScript (call_at c) key (call_window c) (rs_redis st))
    end.
Proof.
  intros Hk. unfold perform, enforceRateLimit, evalScript. rewrite Hk.
  destruct (call_reply c); [|cbn|]; try destruct (incrementScript _ _ _ _) as [[count ttl] s]; cbn.
  - case_match; cbn; by rewrite recovery_redis.
  - case_match; cbn; by rewrite ?locally_redis, failure_redis.
  - case_match; cbn; by rewrite ?locally_redis, failure_redis.
Qed.

(** A guard that denies during an outage lets a call through only on the server's count. *)
Lemma perform_accepts c st key : rateKey (call_scope c) (call_value c) = Ok key -> call_mode c = mode_deny ->
  accepts c st = match call_reply c with
                 | Replies => (fst (fst (incrementScript (call_at c) key (call_window c) (rs_redis st))) <=? call_limit c)%Z
                 | _ => false
                 end.
Proof.
  intros Hk Hm. unfold accepts, perform, enforceRateLimit, evalScript. rewrite Hk, Hm.
  destruct (call_reply c); try destruct (incrementScript _ _ _ _) as [[count ttl] s]; cbn; [|done..].
  rewrite Z.ltb_antisym. by destruct (count <=? call_limit c)%Z.
Qed.

(** A counter of the key counts at least one call and expires. *)
Definition countedAt (now : Z) (key : string) (st : RateState) : Prop :=
  match live now key st with Some (n, Some _) => (1 <= n)%Z | Some (_, None) => False | None => True end.

Lemma live_later now now' key st : (now <= now')%Z ->
  live now' key st = match live now key st with
                     | Some (n, Some e) => if (now' <? e)%Z then Some (n, Some e) else None
                     | c => c
                     end.
Proof. intros Ht. unfold live. by apply time_passes. Qed.

Lemma counted_later now now' key st : (now <= now')%Z -> countedAt now key st -> countedAt now' key st.
Proof.
  intros Ht. unfold countedAt. rewrite (live_later now now') by done.
  destruct (live now key st) as [[n [e|]]|]; try done. by destruct (now' <? e)%Z.
Qed.

(** What a call does to the counter of a key: nothing, or it is counted and, if let through, within the limit. *)
Lemma governed_step key limit w c st : (0 < w)%Z -> governed key limit w c -> countedAt (call_at c) key st ->
  let l := live (call_at c) key st in let l' := live (call_at c) key (snd (perform c st)) in
  (l' = l /\ forall a b, within key a b c && accepts c st = false)
  \/ (match l with
      | Some (n, e) => l' = Some ((n + 1)%Z, e) /\ (accepts c st = true -> (n + 1 <= limit)%Z)
      | None => l' = Some (1%Z, Some (call_at c + w * 1000)%Z) /\ (accepts c st = true -> (1 <= limit)%Z)
      end).
Proof.
  intros Hw Hg Hc. unfold governed, within, onKey in *. unfold live, countedAt, live in *. cbn zeta.
  destruct (rateKey (call_scope c) (call_value c)) as [k|e] eqn:Ek.
  2: { left. split; [|done]. unfold perform, enforceRateLimit. by rewrite Ek. }
  rewrite (perform_redis c st k Ek). destruct (k === key) eqn:Eq.
  - apply bool_decide_eq_true in Eq as ->. destruct (Hg eq_refl) as (Hl & Hww & Hm). subst.
    rewrite (perform_accepts c st key Ek Hm).
    assert (Hn : match counter (call_at c) key (rs_redis st) with Some (n, _) => (1 <= n)%Z | None => True end)
      by (by repeat case_match).
    pose proof (script_counts (call_at c) key (call_window c) (rs_redis st) Hw Hn) as Hs.
    destruct (incrementScript _ _ _ _) as [[count ttl] s']. cbn.
    destruct (call_reply c); [right|left; split; [done|intros; by rewrite andb_false_r]|right]; destruct (counter _ _ _) as [[n e]|]; destruct Hs as [-> ->];
      (split; [done|]); intros Hb; bools; done.
  - left. split; [|done]. assert (key <> k) by (by apply bool_decide_eq_false in Eq; intros ->).
    destruct (call_reply c); [by apply script_other|done|by apply script_other].
Qed.

(** ** Counting over time *)

Section Counting.
Variables (key : string) (limit w : Z).
Hypothesis Hw : (0 < w)%Z.

Lemma admittedIn_cons a b c cs st :
  admittedIn key a b (c :: cs) st
  = ((if within key a b c && accepts c st then 1 else 0) + admittedIn key a b cs (snd (perform c st)))%nat.
Proof.
  unfold admittedIn. cbn [admitted]. rewrite List.filter_app, List.length_app. f_equal.
  destruct (accepts c st); cbn; [|by rewrite andb_false_r]. by destruct (within key a b c).
Qed.

Lemma counted_step c st : governed key limit w c -> countedAt (call_at c) key st -> countedAt (call_at c) key (snd (perform c st)).
Proof.
  intros Hg Hc. pose proof (governed_step key limit w c st Hw Hg Hc) as [[Hl _]|Hl]; unfold countedAt in *; [by rewrite Hl|].
  destruct (live (call_at c) key st) as [[n [e|]]|]; destruct Hl as [-> _]; [lia|done|lia].
Qed.

Lemma admitted_none_after cs : forall t st a b, (b <= t)%Z -> inOrder t cs -> admittedIn key a b cs st = 0.
Proof.
  induction cs as [|c cs IH]; intros t st a b Ht Ho; [done|]. destruct Ho as [Hct Ho].
  rewrite admittedIn_cons, (IH (call_at c)) by (done || lia). unfold within.
  by rewrite (proj2 (Z.ltb_ge (call_at c) b)), andb_false_r by lia.
Qed.

(** While a counter runs, what is still let through fits what is left of the limit. *)
Lemma admitted_until_expiry cs : forall t st n e a b, (b <= e)%Z -> inOrder t cs -> List.Forall (governed key limit w) cs ->
  countedAt t key st -> live t key st = Some (n, Some e) ->
  (Z.of_nat (admittedIn key a b cs st) <= Z.max 0 (limit - n))%Z.
Proof.
  induction cs as [|c cs IH]; intros t st n e a b Hb Ho Hg Hc Hl; [cbn; lia|].
  destruct Ho as [Ht Ho]. apply List.Forall_cons_iff in Hg as [Hgc Hg].
  rewrite admittedIn_cons. pose proof (counted_later t (call_at c) key st Ht Hc) as Hc'.
  pose proof (counted_step c st Hgc Hc') as Hc2.
  pose proof (live_later t (call_at c) key st Ht) as Hl'. rewrite Hl in Hl'.
  pose proof (governed_step key limit w c st Hw Hgc Hc') as Hstep. cbn zeta in Hstep.
  destruct (call_at c <? e)%Z eqn:Ee.
  - rewrite Hl' in Hstep. destruct Hstep as [[Hn Hr]|[Hn Ha]].
    + specialize (IH (call_at c) _ n e a b Hb Ho Hg Hc2 Hn).
      rewrite Hr. lia.
    + specialize (IH (call_at c) _ (n + 1)%Z e a b Hb Ho Hg Hc2 Hn).
      destruct (within key a b c && accepts c st) eqn:Ea; [|lia]. apply andb_true_iff in Ea as [_ Ea]. specialize (Ha Ea). lia.
  - bools. rewrite (admitted_none_after cs (call_at c)) by (done || lia). unfold within.
    rewrite (proj2 (Z.ltb_ge (call_at c) b)), andb_false_r by lia. cbn. lia.
Qed.

(** From an instant at which no counter runs, a window's length lets no more than the limit through. *)
Lemma admitted_from_opening cs : forall t st a b, (b <= t + w * 1000)%Z -> inOrder t cs ->
  List.Forall (governed key limit w) cs -> countedAt t key st -> live t key st = None ->
  (Z.of_nat (admittedIn key a b cs st) <= Z.max 0 limit)%Z.
Proof.
  induction cs as [|c cs IH]; intros t st a b Hb Ho Hg Hc Hl; [cbn; lia|].
  destruct Ho as [Ht Ho]. apply List.Forall_cons_iff in Hg as [Hgc Hg]. rewrite admittedIn_cons.
  pose proof (counted_later t (call_at c) key st Ht Hc) as Hc'. pose proof (counted_step c st Hgc Hc') as Hc2.
  pose proof (live_later t (call_at c) key st Ht) as Hl'. rewrite Hl in Hl'.
  pose proof (governed_step key limit w c st Hw Hgc Hc') as Hstep. cbn zeta in Hstep. rewrite Hl' in Hstep.
  destruct Hstep as [[Hn Hr]|[Hn Ha]].
  - specialize (IH (call_at c) _ a b ltac:(lia) Ho Hg Hc2 Hn).
    rewrite Hr. lia.
  - pose proof (admitted_until_expiry cs (call_at c) _ 1 (call_at c + w * 1000) a b ltac:(lia) Ho Hg Hc2 Hn) as Hrest.
    destruct (within key a b c && accepts c st) eqn:Ea; [|lia]. apply andb_true_iff in Ea as [_ Ea]. specialize (Ha Ea). lia.
Qed.

(** A stretch that ends within a window's length of the expiry spans two windows at most. *)
Lemma admitted_across cs : forall t st n e a b, (b <= e + w * 1000)%Z -> inOrder t cs ->
  List.Forall (governed key limit w) cs -> countedAt t key st -> live t key st = Some (n, Some e) ->
  (Z.of_nat (admittedIn key a b cs st) <= Z.max 0 (limit - n) + Z.max 0 limit)%Z.
Proof.
  induction cs as [|c cs IH]; intros t st n e a b Hb Ho Hg Hc Hl; [cbn; lia|].
  pose proof Ho as Hoc. pose proof Hg as Hgs. destruct Ho as [Ht Ho]. apply List.Forall_cons_iff in Hg as [Hgc Hg].
  pose proof (counted_later t (call_at c) key st Ht Hc) as Hc'. pose proof (counted_step c st Hgc Hc') as Hc2.
  pose proof (live_later t (call_at c) key st Ht) as Hl'. rewrite Hl in Hl'.
  destruct (call_at c <? e)%Z eqn:Ee.
  - rewrite admittedIn_cons. pose proof (governed_step key limit w c st Hw Hgc Hc') as Hstep. cbn zeta in Hstep.
    rewrite Hl' in Hstep. destruct Hstep as [[Hn Hr]|[Hn Ha]].
    + specialize (IH (call_at c) _ n e a b Hb Ho Hg Hc2 Hn).
      rewrite Hr. lia.
    + specialize (IH (call_at c) _ (n + 1)%Z e a b Hb Ho Hg Hc2 Hn).
      destruct (within key a b c && accepts c st) eqn:Ea; [|lia]. apply andb_true_iff in Ea as [_ Ea]. specialize (Ha Ea). lia.
  - bools. pose proof (admitted_from_opening (c :: cs) (call_at c) st a b ltac:(lia)
      (conj (Z.le_refl _) Ho) Hgs Hc' Hl'). lia.
Qed.

Lemma admitted_anywhere cs : forall t st a, inOrder t cs -> List.Forall (governed key limit w) cs -> countedAt t key st ->
  (Z.of_nat (admittedIn key a (a + w * 1000) cs st) <= 2 * Z.max 0 limit)%Z.
Proof.
  induction cs as [|c cs IH]; intros t st a Ho Hg Hc; [cbn; lia|].
  pose proof Hg as Hgs. destruct Ho as [Ht Ho]. apply List.Forall_cons_iff in Hg as [Hgc Hg].
  pose proof (counted_later t (call_at c) key st Ht Hc) as Hc'. pose proof (counted_step c st Hgc Hc') as Hc2.
  destruct (Z.lt_ge_cases (call_at c) a) as [Ha|Ha].
  { rewrite admittedIn_cons. specialize (IH (call_at c) _ a Ho Hg Hc2). unfold within.
    by rewrite (proj2 (Z.leb_gt a (call_at c))), andb_false_r by lia. }
  pose proof Hc' as Hn. unfold countedAt in Hn. destruct (live (call_at c) key st) as [[n [e|]]|] eqn:El; [|done|].
  - pose proof (live_later (call_at c) (call_at c) key st ltac:(lia)) as He. rewrite El in He.
    destruct (call_at c <? e)%Z eqn:Ee; [|done]. bools.
    pose proof (admitted_across (c :: cs) (call_at c) st n e a (a + w * 1000) ltac:(lia)
      (conj (Z.le_refl _) Ho) Hgs Hc' El). lia.
  - pose proof (admitted_from_opening (c :: cs) (call_at c) st a (a + w * 1000) ltac:(lia)
      (conj (Z.le_refl _) Ho) Hgs Hc' El). lia.
Qed.
End Counting.

End Limit.

(** ** The counters in memory *)

(** One entry per key, no more entries than [maxKeys]. *)
Definition fallbackOk (maxKeys : nat) (entries : Entries) : Prop :=
  List.NoDup (List.map fst entries) /\ length entries <= maxKeys /\ ~ In EmptyString (List.map fst entries).

Lemma In_map_filter {A B} (f : A -> B) P l b : In b (List.map f (List.filter P l)) -> In b (List.map f l).
Proof. rewrite !List.in_map_iff. intros (a & Ha & Hin). apply List.filter_In in Hin as [Hin _]. by exists a. Qed.

Lemma NoDup_map_filter {A B} (f : A -> B) P l : List.NoDup (List.map f l) -> List.NoDup (List.map f (List.filter P l)).
Proof.
  induction l as [|a l IH]; cbn; [done|]. intros Hd. inversion_clear Hd as [|? ? Hn Hd'].
  destruct (P a); [|by apply IH]. cbn. constructor; [|by apply IH]. intros Hin. by apply In_map_filter in Hin.
Qed.

Lemma fallbackOk_filter max P entries : fallbackOk max entries -> fallbackOk max (List.filter P entries).
Proof.
  intros (Hd & Hl & He). split; [by apply NoDup_map_filter|]. split; [|by intros ?%In_map_filter].
  pose proof (List.filter_length_le P entries). lia.
Qed.

Lemma evict_suffix max entries : exists old, entries = (old ++ evictOldest max entries)%list.
Proof.
  induction entries as [|[k c] rest [old IH]]; [by exists []|]. cbn [evictOldest]. case_match; [|by exists []].
  case_match; [by exists []|]. exists ((k, c) :: old). cbn. by f_equal.
Qed.

Lemma evict_room max entries : 1 <= max -> ~ In EmptyString (List.map fst entries) -> length (evictOldest max entries) < max.
Proof.
  intros Hm. induction entries as [|[k c] rest IH]; intros He; [cbn; lia|]. cbn [evictOldest].
  destruct (max <=? _)%nat eqn:El; [|apply Nat.leb_gt in El; done].
  rewrite bd_ne by (intros ->; apply He; by left). apply IH. intros Hin. apply He. by right.
Qed.

Lemma fallbackOk_evict max entries : fallbackOk max entries -> fallbackOk max (evictOldest max entries).
Proof.
  intros (Hd & Hl & He). destruct (evict_suffix max entries) as [old Ho]. set (kept := evictOldest max entries) in *.
  rewrite Ho in Hd, Hl, He. rewrite List.map_app in Hd, He. rewrite List.length_app in Hl.
  split; [by apply List.NoDup_app_remove_l in Hd|]. split; [lia|]. intros Hin. apply He, List.in_or_app. by right.
Qed.

(** The count of a key that is still running. *)
Definition localCount (now : Z) (key : string) (entries : Entries) : Z :=
  match assoc key entries with Some c => if (now <? lc_resetAt c)%Z then lc_count c else 0%Z | None => 0%Z end.

Lemma assoc_None {A} key (l : list (string * A)) : assoc key l = None -> ~ In key (List.map fst l).
Proof.
  induction l as [|[k a] l IH]; cbn [assoc List.map In fst]; [tauto|]. destruct (key === k) eqn:E; [done|].
  intros Hn [->|Hin]; [by rewrite bd_refl in E|by apply IH].
Qed.

Lemma fallbackOk_append max entries key c : 1 <= max -> key <> EmptyString -> fallbackOk max entries ->
  ~ In key (List.map fst entries) -> fallbackOk max (evictOldest max entries ++ [(key, c)])%list.
Proof.
  intros Hm Hk Hok Hn. pose proof (fallbackOk_evict max entries Hok) as (Hd & _ & He).
  pose proof (evict_room max entries Hm (proj2 (proj2 Hok))) as Hroom. destruct (evict_suffix max entries) as [old Ho].
  assert (Hn' : ~ In key (List.map fst (evictOldest max entries))).
  { intros Hin. apply Hn. rewrite Ho, List.map_app. apply List.in_or_app. by right. }
  unfold fallbackOk. rewrite List.map_app, List.length_app. cbn. split; [|split].
  - apply List.NoDup_app; [done|by constructor; [intros []|constructor]|]. intros x Hx [<-|[]]. done.
  - lia.
  - intros Hin. apply List.in_app_or in Hin as [Hin|[Hin|[]]]; [done|by symmetry in Hin].
Qed.

Lemma assoc_append_new {A} key (l : list (string * A)) a : ~ In key (List.map fst l) -> assoc key (l ++ [(key, a)])%list = Some a.
Proof.
  induction l as [|[k b] l IH]; cbn [app assoc List.map In fst]; intros Hn; [by rewrite bd_refl|].
  rewrite bd_ne by (intros ->; tauto). apply IH. tauto.
Qed.

Lemma assoc_count key entries c : assoc key entries = Some c ->
  assoc key (List.map (fun e => if fst e === key then (fst e, (snd e) <| lc_count := (lc_count (snd e) + 1)%Z |>) else e) entries)
  = Some (c <| lc_count := (lc_count c + 1)%Z |>).
Proof.
  induction entries as [|[k d] l IH]; cbn [assoc List.map fst snd]; [done|]. destruct (key === k) eqn:E.
  - intros [= ->]. apply bool_decide_eq_true in E as ->. rewrite bd_refl. cbn [assoc]. by rewrite bd_refl.
  - apply bool_decide_eq_false in E. rewrite bd_ne by congruence. cbn [assoc]. rewrite bd_ne by done. exact IH.
Qed.

(** An increment counts its key exactly, and keeps the bound. *)
Lemma fallbackIncrement_ok max key w now entries : 1 <= max -> key <> EmptyString -> (0 < w)%Z -> fallbackOk max entries ->
  let '((count, retryAfter), entries') := fallbackIncrement max key w now entries in
  fallbackOk max entries' /\ count = (localCount now key entries + 1)%Z /\ localCount now key entries' = count
  /\ (1 <= retryAfter)%Z.
Proof.
  intros Hm Hk Hw Hok. unfold fallbackIncrement, localCount.
  assert (Hnew : forall base, fallbackOk max base -> ~ In key (List.map fst base) ->
    fallbackOk max (evictOldest max base ++ [(key, mkLocalCounter 1 (now + w * 1000))])%list
    /\ assoc key (evictOldest max base ++ [(key, mkLocalCounter 1 (now + w * 1000))])%list = Some (mkLocalCounter 1 (now + w * 1000))).
  { intros base Hb Hn. split; [by apply fallbackOk_append|]. apply assoc_append_new. intros Hin. apply Hn.
    destruct (evict_suffix max base) as [old Ho]. rewrite Ho, List.map_app. apply List.in_or_app. by right. }
  destruct (assoc key entries) as [c|] eqn:Ea; [destruct (now <? lc_resetAt c)%Z eqn:El|].
  - rewrite (assoc_count _ _ _ Ea). change (lc_resetAt (c <| lc_count := (lc_count c + 1)%Z |>)) with (lc_resetAt c). rewrite El. split; [|split; [done|split; [done|lia]]].
    destruct Hok as (Hd & Hl & He). unfold fallbackOk. rewrite List.length_map, List.map_map.
    rewrite (List.map_ext _ fst) by (intros e; by case_match). done.
  - destruct (Hnew (removeExpired now (fallbackDelete key entries))) as [Hb Has]; [by apply fallbackOk_filter, fallbackOk_filter| |].
    { intros Hin. apply In_map_filter in Hin. apply List.in_map_iff in Hin as (e & He & Hin).
      apply List.filter_In in Hin as [_ Hin]. by rewrite He, bd_refl in Hin. }
    rewrite Has. cbn [lc_resetAt lc_count]. rewrite (proj2 (Z.ltb_lt now (now + w * 1000))) by lia. repeat split; (done || lia || apply Hb).
  - destruct (Hnew (removeExpired now entries)) as [Hb Has]; [by apply fallbackOk_filter| |].
    { intros Hin. apply In_map_filter in Hin. by apply assoc_None in Ea. }
    rewrite Has. cbn [lc_resetAt lc_count]. rewrite (proj2 (Z.ltb_lt now (now + w * 1000))) by lia. repeat split; (done || lia || apply Hb).
Qed.

Section Memory.
Context `{Redis} `{Platform}.

Fixpoint performAll (cs : list Call) (st : RateState) : RateState :=
  match cs with [] => st | c :: rest => performAll rest (snd (perform c st)) end.

Definition maxKeys : nat := Z.to_nat (RATE_LIMIT_FALLBACK_MAX_KEYS env).

Lemma rateKey_nonempty scope value key : rateKey scope value = Ok key -> key <> EmptyString.
Proof. unfold rateKey. destruct (hashMetadata value); [|done]. by intros [= <-]. Qed.

Lemma recovery_fallback st : rs_fallback (recordRedisRecovery st) = rs_fallback st.
Proof. unfold recordRedisRecovery. by case_match. Qed.
Lemma failure_fallback now st : rs_fallback (recordRedisFailure now st) = rs_fallback st.
Proof. unfold recordRedisFailure. by repeat case_match. Qed.
Lemma eval_fallback reply now key w st : rs_fallback (snd (evalScript reply now key w st)) = rs_fallback st.
Proof. unfold evalScript. destruct reply; [|done|]; by destruct (incrementScript _ _ _ _) as [[count ttl] s]. Qed.

Lemma perform_fallback c st : 1 <= maxKeys -> (0 < call_window c)%Z -> fallbackOk maxKeys (rs_fallback st) ->
  fallbackOk maxKeys (rs_fallback (snd (perform c st))).
Proof.
  intros Hm Hw Hok. unfold perform, enforceRateLimit. destruct (rateKey _ _) as [key|] eqn:Ek; [|done].
  apply rateKey_nonempty in Ek. pose proof (eval_fallback (call_reply c) (call_at c) key (call_window c) st) as He.
  destruct (evalScript _ _ _ _ _) as [[[count ttl]|] st1]; cbn [snd] in He.
  - case_match; cbn [snd]; rewrite <- He in Hok; (apply fallbackOk_filter; by rewrite recovery_fallback).
  - rewrite <- He in Hok. case_match; cbn [snd]; [by rewrite failure_fallback|]. unfold enforceLocally. fold maxKeys.
    rewrite failure_fallback.
    pose proof (fallbackIncrement_ok maxKeys key (call_window c) (call_at c) (rs_fallback st1) Hm Ek Hw Hok) as Hi.
    destruct (fallbackIncrement _ _ _ _ _) as [[cnt retryAfter] entries]. destruct Hi as [Hi _]. by case_match.
Qed.

(** Whatever is asked of the limiter and however long Redis stays away, the counters kept in memory never
    outnumber the configured bound. *)
Theorem fallback_stays_bounded cs st : 1 <= maxKeys -> List.Forall (fun c => (0 < call_window c)%Z) cs ->
  fallbackOk maxKeys (rs_fallback st) -> length (rs_fallback (performAll cs st)) <= maxKeys.
Proof.
  intros Hm Hcs. revert st. induction Hcs as [|c cs Hc _ IH]; cbn [performAll]; intros st Hok; [apply Hok|].
  apply IH. by apply perform_fallback.
Qed.
End Memory.

(** ** A server *)

Definition memoryCounter (now : Z) (k : string) (s : gmap string (Z * option Z)) : option (Z * option Z) :=
  match s !! k with Some (n, Some e) => if (now <? e)%Z then Some (n, Some e) else None | c => c end.

Definition memoryIncr (now : Z) (k : string) (s : gmap string (Z * option Z)) : Z * gmap string (Z * option Z) :=
  match memoryCounter now k s with
  | Some (n, e) => ((n + 1)%Z, <[k := ((n + 1)%Z, e)]> s)
  | None => (1%Z, <[k := (1%Z, None)]> s)
  end.
Definition memoryExpire (now : Z) (k : string) (w : Z) (s : gmap string (Z * option Z)) : gmap string (Z * option Z) :=
  match memoryCounter now k s with Some (n, _) => <[k := (n, Some (now + w * 1000)%Z)]> s | None => s end.
Definition memoryTtl (now : Z) (k : string) (s : gmap string (Z * option Z)) : Z :=
  match memoryCounter now k s with Some (_, Some e) => ((e - now + 500) / 1000)%Z | _ => (-1)%Z end.

#[export] Instance memoryRedis : Redis := {
  RedisState := gmap string (Z * option Z);
  redis_incr := memoryIncr; redis_expire := memoryExpire; redis_ttl := memoryTtl
}.

Lemma memoryCounter_insert now k k' c s : memoryCounter now k (<[k' := c]> s) =
  if decide (k' = k) then match c with (n, Some e) => if (now <? e)%Z then Some (n, Some e) else None | c => Some c end
  else memoryCounter now k s.
Proof.
  unfold memoryCounter. destruct (decide (k' = k)) as [->|Hk]; [|by rewrite lookup_insert_ne].
  rewrite lookup_insert_eq. by destruct c as [n [e|]].
Qed.

Lemma memoryCounter_live now k s n e : memoryCounter now k s = Some (n, Some e) -> (now < e)%Z.
Proof.
  unfold memoryCounter. destruct (s !! k) as [[m [e'|]]|]; try done. destruct (now <? e')%Z eqn:El; [|done].
  intros [= _ <-]. by apply Z.ltb_lt.
Qed.

#[export] Instance memoryRedisLaws : RedisLaws memoryCounter.
Proof.
  constructor; cbn [redis_incr redis_expire RedisState memoryRedis].
  - intros now k s. unfold memoryIncr. destruct (memoryCounter now k s) as [[n [e|]]|] eqn:E; cbn [fst snd];
      rewrite memoryCounter_insert, decide_True by done; try done.
    apply memoryCounter_live in E. by rewrite (proj2 (Z.ltb_lt _ _)).
  - intros now k k' s Hk. unfold memoryIncr. destruct (memoryCounter now k s) as [[n e]|]; cbn [snd];
      by rewrite memoryCounter_insert, decide_False by congruence.
  - intros now k w s n e Hw Hs. unfold memoryExpire. rewrite Hs, memoryCounter_insert, decide_True by done.
    by rewrite (proj2 (Z.ltb_lt _ _)) by lia.
  - intros now k k' w s Hk. unfold memoryExpire. destruct (memoryCounter now k s) as [[n e]|]; [|done].
    by rewrite memoryCounter_insert, decide_False by congruence.
  - intros now now' k s Ht. unfold memoryCounter. destruct (s !! k) as [[n [e|]]|]; [|done..].
    destruct (now <? e)%Z eqn:E1, (now' <? e)%Z eqn:E2; try done; bools; lia.
Qed.

Section Witnesses.
Local Existing Instance demoPlatform.

Definition idle : RateState := mkRateState ∅ [] 0 None None [].
Definition attempt (reply : RedisReply) (now : Z) : Call := mkCall reply now "otp:send" "a@example.com" 2 600 mode_deny.
Definition attempts : list Call :=
  [attempt Replies 0; attempt ReplyLost 1000; attempt Replies 599999; attempt Unreachable 599999;
   attempt Replies 600000; attempt Replies 600001; attempt Replies 600002].
Definition attemptKey : string := match rateKey "otp:send" "a@example.com" with Ok k => k | Err _ => EmptyString end.

Example attempts_admitted : List.map call_at (admitted attempts idle) = [0; 600000; 600001]%Z.
Proof. vm_compute. reflexivity. Qed.


Lemma fallback_stays_bounded_witness :
  length (rs_fallback (performAll (List.map (fun v => mkCall Unreachable 5 "global:ip" v 10 60 mode_local) ["a"; "b"; "c"; "d"; "e"]) idle))
    <= maxKeys.
Proof.
  apply fallback_stays_bounded.
  - vm_compute. lia.
  - repeat (apply List.Forall_cons; [reflexivity|]). apply List.Forall_nil.
  - repeat split; [apply List.NoDup_nil|vm_compute; lia|intros []].
Defined.
End Witnesses.
