(* ===== verification/Users.v ===== *)
(** * Users and devices

    modules/users/users.service.ts and lib/resource-ownership.ts: a user's own profile, devices and sessions, and
    the administration of users. The order the database gives text columns, and its case-insensitive match,
    are parameters of [listUsers].

    A suspended or disabled user is out at once, on every session and in every organization. A profile change
    never leaves a phone number verified that was not. A device that was unregistered cannot come back. *)

From Stdlib Require Import ZArith Lia Bool.
From S2P Require Import Prelude Store Database JsString Pagination Platform Request AuditTrail Sessions SessionsSpec AccountSpec OrganizationsSpec AccessControl PermissionsSpec.

Open Scope string_scope.

(** lib/resource-ownership.ts *)
Definition assertResourceOwner (ownerUserId actorUserId : string) : res unit :=
  if ownerUserId !== actorUserId then Err FORBIDDEN_ERROR else Ok tt.

(** [publicUserSelect] *)
Record PublicUser := mkPublicUser {
  pu_id : string; pu_email : option string; pu_phone : option string; pu_displayName : option string;
  pu_locale : string; pu_status : UserStatus; pu_emailVerifiedAt : option Z; pu_phoneVerifiedAt : option Z;
  pu_createdAt : Z
}.
Definition publicUserSelect (u : User) : PublicUser :=
  mkPublicUser (user_id u) (user_email u) (user_phone u) (user_displayName u) (user_locale u) (user_status u)
    (user_emailVerifiedAt u) (user_phoneVerifiedAt u) (user_createdAt u).

(** A field left out of the input is [None]; one set to [null] is [Some None]. *)
Record ProfileInput := mkProfileInput {
  pi_displayName : option (option string); pi_phone : option (option string); pi_locale : option string
}.
Record UserUpdate := mkUserUpdate { uu_displayName : option (option string); uu_status : option UserStatus }.

(** [Object.keys(input)] *)
Definition profileFields (i : ProfileInput) : list string :=
  ((if is_set (pi_displayName i) then ["displayName"] else [])
   ++ (if is_set (pi_phone i) then ["phone"] else []) ++ (if is_set (pi_locale i) then ["locale"] else []))%list.
Definition userUpdateFields (i : UserUpdate) : list string :=
  ((if is_set (uu_displayName i) then ["displayName"] else [])
   ++ (if is_set (uu_status i) then ["status"] else []))%list.
Definition fieldsMetadata (fields : list string) : option Json := Some (JObj [("fields", JArr (List.map JStr fields))]).

(** [`account_${status.toLowerCase()}`] of the two statuses that end sessions. *)
Definition revokeReason (status : UserStatus) : option string :=
  match status with
  | User_SUSPENDED => Some "account_suspended"
  | User_DISABLED => Some "account_disabled"
  | _ => None
  end.

Section Users.
Context `{Platform}.

Definition getCurrentUser (userId : string) : Tx World (option (PublicUser * list string)) :=
  user ← tx_findFirst (fun u => (user_id u === userId) && is_null (user_deletedAt u));
  match user with
  | None => mret None
  | Some user =>
      held ← tx_findMany_raw (fun ur : UserRole => (ur_userId ur === user_id user) && is_null (ur_deletedAt ur));
      rs ← tx_findMany_raw (fun _ : Role => true);
      mret (Some (publicUserSelect user,
                  omap (fun ur => role_name <$> List.find (fun r => role_id r === ur_roleId ur) rs) held))
  end.

(** Two statements, not one transaction. *)
Definition registerDevice (amb : Ambient) (userId token : string) (platform : option string) : Proc World Device :=
  existing ← transact (tx_findFirst (fun d => dev_fcmToken d === token));
  match existing with
  | Some existing =>
      transact (tx_lift (assertResourceOwner (dev_userId existing) userId));;
      transact (tx_update (fun d => (dev_id d === dev_id existing) && (dev_userId d === userId))
        (fun d => let d := match platform with Some _ => d <| dev_platform := platform |> | None => d end in
                  d <| dev_lastSeenAt := nowMs amb |> <| dev_deletedAt := None |>))
  | None =>
      transact (id ← newId; tx_create (mkDevice id userId token platform (nowMs amb) (nowMs amb) None))
  end.

Definition listDevices (userId : string) : Tx World (list Device) :=
  found ← tx_findMany (fun d => (dev_userId d === userId) && is_null (dev_deletedAt d));
  mret (orderByDesc dev_lastSeenAt (orderByDesc dev_createdAt found)).

Definition unregisterDevice (amb : Ambient) (userId deviceId : string) (metadata : RequestMetadata) : Tx World bool :=
  removed ← tx_updateMany (fun d => (dev_id d === deviceId) && (dev_userId d === userId) && is_null (dev_deletedAt d))
    (fun d => d <| dev_deletedAt := Some (nowMs amb) |>);
  if negb (removed =? 1)%nat then mret false
  else
    writeAuditEvent amb (auditMetadata metadata (Some userId) "device.unregistered" "device" (Some deviceId) None);;
    mret true.

(** [data] of [updateOwnProfile]: a new phone number is not verified. *)
Definition applyProfile (input : ProfileInput) (current u : User) : User :=
  let u := match pi_displayName input with Some d => u <| user_displayName := d |> | None => u end in
  let u := match pi_locale input with Some l => u <| user_locale := l |> | None => u end in
  match pi_phone input with
  | Some p =>
      let u := u <| user_phone := p |> in
      if p !== user_phone current then u <| user_phoneVerifiedAt := None |> else u
  | None => u
  end.

Definition updateOwnProfile (amb : Ambient) (userId : string) (input : ProfileInput) (metadata : RequestMetadata)
    : Tx World (option PublicUser) :=
  current ← tx_findFirst (fun u => (user_id u === userId) && is_null (user_deletedAt u));
  match current with
  | None => mret None
  | Some current =>
      updated ← tx_update_unique (fun u => user_id u === userId) (applyProfile input current);
      writeAuditEvent amb (auditMetadata metadata (Some userId) "user.profile_updated" "user" (Some userId)
        (fieldsMetadata (profileFields input)));;
      mret (Some (publicUserSelect updated))
  end.

(** The sessions, each with whether it is the current one. *)
Definition listSessions (userId currentSessionId : string) : Tx World (list (Session * bool)) :=
  found ← tx_findMany (fun s => (sess_userId s === userId) && is_null (sess_revokedAt s) && is_null (sess_deletedAt s));
  mret (List.map (fun s => (s, sess_id s === currentSessionId))
          (orderByDesc sess_lastSeenAt (orderByDesc sess_createdAt found))).

(** [deterministicOrder] is [order]; [contains] is the match of [textSearch]. *)
Definition listUsers (order : list User -> list User) (contains : string -> string -> bool)
    (input : CursorPaginationInput) (search : option string) (status : option UserStatus)
    : Proc World (CursorPage User) :=
  let found needle column := match column with Some text => contains text needle | None => false end in
  paginateCursor user_id input (fun pagination => transact (
    us ← tx_findMany (fun u => is_null (user_deletedAt u)
      && match status with Some s => user_status u === s | None => true end
      && match search with
         | Some needle => (needle === EmptyString) || found needle (user_email u) || found needle (user_displayName u)
         | None => true
         end);
    mret (fetchRows user_id (order us) pagination))).

Definition updateUser (amb : Ambient) (id : string) (input : UserUpdate) (actorUserId : string)
    (metadata : RequestMetadata) : Proc World PublicUser :=
  updated ← transact (
    updated ← tx_update (fun u => user_id u === id)
      (fun u =>
         let u := match uu_displayName input with Some d => u <| user_displayName := d |> | None => u end in
         match uu_status input with Some s => u <| user_status := s |> | None => u end);
    match uu_status input ≫= revokeReason with
    | Some reason => endSessions (nowMs amb) id reason None
    | None => mret tt
    end;;
    writeAuditEvent amb (auditMetadata metadata (Some actorUserId) "user.updated" "user" (Some id)
      (fieldsMetadata (userUpdateFields input)));;
    mret updated);
  match uu_status input ≫= revokeReason with Some _ => publishChatRevocation id | None => mret tt end;;
  mret (publicUserSelect updated).
End Users.

(** ** What the user administration guarantees *)

Section UsersSpec.
Context `{Platform}.

Definition hasStatus (userId : string) (status : UserStatus) (u : User) : Prop :=
  user_id u = userId -> user_deletedAt u = None -> user_status u = status.

(** Nothing of the user's access is left. *)
Record lockedOut (userId : string) (status : UserStatus) (w : World) : Prop := {
  lo_status : everyRow (hasStatus userId status) w;
  lo_sessions : everyRow (sessionOver userId) w;
  lo_tokens : everyRow (tokenOver userId) w
}.

(** The session behind an authenticated request. *)
Lemma authenticate_session amb token w state amb' w' : authenticate amb token w = Ok ((state, amb'), w') ->
  exists claims s, auth_userId state = claim_userId claims /\ In s (sessions w) /\ sess_deletedAt s = None
    /\ liveSession amb claims (users w) s = true.
Proof.
  intros Hrun. unfold authenticate in Hrun. destruct (negb (truthy token)); [discriminate Hrun|].
  apply bind_ok in Hrun as (claims & w1 & H1 & Hrun). apply lift_ok in H1 as [_ ->].
  apply bind_ok in Hrun as (us & w2 & H1 & Hrun). injection H1 as <- <-.
  apply bind_ok in Hrun as (found & w2 & Hfs & Hrun).
  apply bind_ok in Hrun as (s & w3 & Hrs & Hrun). apply require_ok in Hrs as [-> ->].
  apply findFirst_ok in Hfs as (-> & Hs & Hd & HP).
  apply bind_ok in Hrun as (u & w3 & Hru & Hrun). apply require_ok in Hru as [_ ->].
  exists claims, s. unfold findMany in HP. rewrite List.filter_true in HP. split; [|done].
  destruct (truthy (sess_activeOrganizationId s)); [|by apply ret_ok in Hrun as [[= <- _] _]].
  apply bind_ok in Hrun as (org & w4 & Hor & Hrun). destruct org as [org|]; [|discriminate Hrun].
  destruct (_ || _); [discriminate Hrun|]. apply bind_ok in Hrun as (m & w5 & Hme & Hrun).
  destruct m as [m|]; [|discriminate Hrun]. by apply ret_ok in Hrun as [[= <- _] _].
Qed.

Lemma lockedOut_refused userId status w amb token state amb' w' : status <> User_ACTIVE -> lockedOut userId status w ->
  authenticate amb token w = Ok ((state, amb'), w') -> auth_userId state <> userId.
Proof.
  intros Hst Hlo Hrun. apply authenticate_session in Hrun as (claims & s & -> & Hs & Hd & Hl). intros Heq.
  unfold liveSession in Hl. apply andb_true_iff in Hl as [Hl _]. bools.
  pose proof (lo_sessions _ _ _ Hlo s Hs ltac:(congruence) Hd). by destruct (sess_revokedAt s).
Qed.

(** What a revocation publishes is not a row. *)
Lemma lockedOut_frame userId status w l : lockedOut userId status w -> lockedOut userId status (w <| revocations ::= l |>).
Proof. by intros []. Qed.

Lemma revokeReason_inactive status : is_set (revokeReason status) = true -> status <> User_ACTIVE.
Proof. by destruct status. Qed.

(** C19: once the suspension or disabling of a user has committed, no request is authenticated as them any more,
    with whatever token and whenever, every session and refresh token of theirs is revoked, and, where chat is on,
    their live connections are told. *)
Theorem suspension_ends_access amb id input actorUserId metadata status w pu w' :
  updateUser amb id input actorUserId metadata w = (Ok pu, w') ->
  uu_status input = Some status -> is_set (revokeReason status) = true ->
  lockedOut id status w'
  /\ (forall amb1 token state amb2 w2, authenticate amb1 token w' = Ok ((state, amb2), w2) -> auth_userId state <> id)
  /\ (CHAT_ENABLED env = true -> In id (revocations w')).
Proof.
  intros Hrun Hstatus Hreason.
  assert (Hlo : lockedOut id status w' /\ (CHAT_ENABLED env = true -> In id (revocations w'))).
  { unfold updateUser in Hrun. rewrite Hstatus in Hrun. cbn [mbind option_bind] in Hrun.
    destruct (revokeReason status) as [reason|]; [|done].
    apply proc_bind_ok in Hrun as (updated & w1 & H1 & Hrun). apply transact_ok in H1.
    apply proc_bind_ok in Hrun as (u & w2 & H2 & Hrun). apply proc_ret_ok in Hrun as [_ <-].
    assert (Hlo : lockedOut id status w1).
    { apply bind_ok in H1 as (updated' & w3 & H3 & H1). apply bind_ok in H1 as (v & w4 & H4 & H1).
      assert (Hst : everyRow (hasStatus id status) w3).
      { revert H3. apply (post_update (hasStatus id status)); [intros r _ _ _; by destruct (uu_displayName input)|].
        intros r Hr Ho Hd. cbn in Hr. by rewrite Ho, Hd, bd_refl in Hr. }
      constructor.
      - revert H1. apply kept_by; [pres|]. revert H4. apply kept_by; [unfold endSessions; pres|done].
      - revert H1. apply kept_by; [pres|]. revert H4. apply endSessions_over.
      - revert H1. apply kept_by; [pres|]. revert H4. apply endSessions_tokens. }
    unfold publishChatRevocation in H2. destruct (CHAT_ENABLED env); injection H2 as _ <-; [|done].
    split; [by apply lockedOut_frame|]. intros _. cbn. apply List.in_or_app. right. by left. }
  destruct Hlo as [Hlo Hchat]. split; [done|]. split; [|done]. intros. eapply lockedOut_refused; [|done..].
  by apply revokeReason_inactive.
Qed.

(** A phone number a profile update changes is not verified. *)
Lemma applyProfile_phone input u : let u' := applyProfile input u u in
  user_id u' = user_id u /\ (user_phone u' = user_phone u \/ user_phoneVerifiedAt u' = None).
Proof.
  unfold applyProfile. destruct (pi_displayName input), (pi_locale input), (pi_phone input) as [p|]; cbn;
    repeat case_match; cbn; auto; bools; auto.
Qed.

(** Registering the token of a device that was unregistered is meant to revive the device ([deletedAt: null]), but
    the look-up passes over deleted rows, and the row it then creates clashes with the deleted one: whoever asks,
    the answer is a conflict, and nothing changes. *)
Theorem unregistered_device_cannot_return amb userId token platform w d :
  In d (devices w) -> dev_fcmToken d = token ->
  (forall d', In d' (devices w) -> dev_fcmToken d' = token -> is_set (dev_deletedAt d') = true) ->
  registerDevice amb userId token platform w = (Err (Known "P2002"), w).
Proof.
  intros Hd Ht Hall. unfold registerDevice.
  assert (Hf : findFirst (activeWhere (fun d => dev_fcmToken d === token)) (devices w) = None).
  { apply findFirst_None_iff. intros d' Hd'. cbn. destruct (dev_fcmToken d' === token) eqn:E; [|by rewrite andb_false_r].
    apply bool_decide_eq_true in E. specialize (Hall d' Hd' E). by destruct (dev_deletedAt d'). }
  erewrite proc_step by (unfold tx_findFirst; change (table w) with (devices w); by rewrite Hf).
  unfold transact. unfold mbind, tx_bind, newId, tx_create. cbn [drawn].
  match goal with |- context [existsb ?p ?t] => assert (existsb p t = true) as -> end; [|done].
  apply existsb_exists. exists d. split; [exact Hd|]. cbn. by rewrite Ht, bd_refl, orb_true_r.
Qed.
End UsersSpec.

Section Witnesses.
Local Existing Instance demoPlatform.

Definition suspend : UserUpdate := mkUserUpdate None (Some User_SUSPENDED).
Definition suspendedRun := updateUser demoNow "u1" suspend "u2" demoMetadata sessionWorld.

Lemma suspension_runs : exists pu, fst suspendedRun = Ok pu.
Proof. eexists. vm_compute. reflexivity. Qed.
Lemma authenticated_before : exists state amb', authenticate demoNow loginToken sessionWorld = Ok ((state, amb'), sessionWorld)
  /\ auth_userId state = "u1".
Proof. eexists _, _. vm_compute. repeat split. Qed.

Lemma suspension_ends_access_witness : lockedOut "u1" User_SUSPENDED (snd suspendedRun).
Proof.
  destruct suspension_runs as [pu Hpu].
  apply (suspension_ends_access demoNow "u1" suspend "u2" demoMetadata User_SUSPENDED sessionWorld pu (snd suspendedRun)).
  - rewrite <- Hpu. unfold suspendedRun. apply surjective_pairing.
  - reflexivity.
  - reflexivity.
Defined.
End Witnesses.
