(* ===== verification/Guards.v ===== *)
(** * Credentials of a request, CSRF and error responses

    lib/auth-transport.ts, lib/cookies.ts, middleware/csrf.ts, middleware/error-handler.ts and
    the error half of lib/api-response.ts. The details of an error and the logging around a response are left
    out. *)

From Stdlib Require Import ZArith Lia Bool.
From S2P Require Import Prelude JsString JsonText Platform.

Open Scope string_scope.

(** What the guards read of a request; headers by lower-case name, cookies as the parser leaves them. *)
Record WebRequest := mkWebRequest {
  web_method : string; web_path : string; web_headers : list (string * string);
  web_cookies : list (string * Json); web_signedCookies : list (string * Json); web_body : Json
}.
Definition header (name : string) (request : WebRequest) : option string := assoc name (web_headers request).

(** [typeof value === 'string' ? value : undefined] *)
Definition asString (value : option Json) : option string := match value with Some (JStr s) => Some s | _ => None end.

(** [value || undefined] *)
Definition orUndefined (value : string) : option string := if value === EmptyString then None else Some value.

Section Guards.
Context `{Platform}.

(** ** lib/cookies.ts *)

Record CookieNames := mkCookieNames { cookie_access : string; cookie_refresh : string; cookie_csrf : string }.
Definition cookieNames : CookieNames :=
  if COOKIE_SECURE env then mkCookieNames "__Host-access_token" "__Host-refresh_token" "__Host-csrf_token"
  else mkCookieNames "access_token" "refresh_token" "csrf_token".

Record CookieOptions := mkCookieOptions {
  co_path : string; co_secure : bool; co_sameSite : string; co_httpOnly : bool; co_maxAge : option Z
}.
Definition baseCookie : CookieOptions := mkCookieOptions "/" (COOKIE_SECURE env) (COOKIE_SAME_SITE env) false None.

(** [response.cookie] sets a value; [response.clearCookie] expires it. *)
Inductive CookieChange := SetCookie (name value : string) (o : CookieOptions) | ClearCookie (name : string) (o : CookieOptions).

Definition sessionCookie (maxAge : Z) : CookieOptions :=
  mkCookieOptions (co_path baseCookie) (co_secure baseCookie) (co_sameSite baseCookie) true (Some maxAge).

Definition setAuthCookies (accessToken refreshToken : string) : list CookieChange :=
  [SetCookie (cookie_access cookieNames) accessToken (sessionCookie (ACCESS_TOKEN_TTL_MINUTES env * 60 * 1000));
   SetCookie (cookie_refresh cookieNames) refreshToken (sessionCookie (REFRESH_TOKEN_TTL_DAYS env * 24 * 60 * 60 * 1000))].
Definition clearAuthCookies : list CookieChange :=
  [ClearCookie (cookie_access cookieNames) baseCookie; ClearCookie (cookie_refresh cookieNames) baseCookie].

(** ** lib/auth-transport.ts *)

Definition CLIENT_TYPE_HEADER : string := "x-client-type".

Definition isMobileClient (request : WebRequest) : bool :=
  match header CLIENT_TYPE_HEADER request with Some v => toLowerCase v === "mobile" | None => false end.

Definition getBearerToken (request : WebRequest) : option string :=
  match header "authorization" request with
  | Some h => if startsWith h "Bearer " then orUndefined (trim (drop_str 7 h)) else None
  | None => None
  end.

Definition resolveAccessToken (request : WebRequest) : option string :=
  match getBearerToken request with
  | Some bearer => Some bearer
  | None => asString (assoc (cookie_access cookieNames) (web_cookies request))
  end.

Definition resolveRefreshToken (request : WebRequest) : option string :=
  if isMobileClient request then asString (jget "refreshToken" (web_body request))
  else asString (assoc (cookie_refresh cookieNames) (web_cookies request)).

Definition usesCookieAuth (request : WebRequest) : bool :=
  negb (is_set (getBearerToken request)) && negb (isMobileClient request).

(** ** middleware/csrf.ts *)

Definition unsafeMethods : list string := ["POST"; "PUT"; "PATCH"; "DELETE"].

Definition csrfProtection (request : WebRequest) : res unit :=
  if negb (mem (web_method request) unsafeMethods) then Ok tt
  else if web_path request === "/api/v1/webhooks/stripe" then Ok tt
  else if negb (usesCookieAuth request) then Ok tt
  else
    match asString (assoc (cookie_csrf cookieNames) (web_signedCookies request)), header "x-csrf-token" request with
    | Some cookie, Some h =>
        if (h === EmptyString) || negb (constantTimeEqual cookie h) then Err errors.invalidCsrf else Ok tt
    | _, _ => Err errors.invalidCsrf
    end.

(** ** middleware/error-handler.ts *)

Record ErrorResponse := mkErrorResponse {
  er_status : Z; er_code : ErrorCode; er_message : string; er_retryAfter : option string
}.

Definition sendError (status : Z) (code : ErrorCode) (message : string) (retryAfterSeconds : option Z) : ErrorResponse :=
  mkErrorResponse status code message
    (if (status =? 429)%Z then Some (show (Z.max 1 (retryAfterSeconds ??? 1%Z))) else None).

Definition notFoundHandler (request : WebRequest) : ErrorResponse :=
  sendError 404 NOT_FOUND ("Route " ++ web_method request ++ " " ++ web_path request ++ " was not found") None.

(** [malformedBody] tells a syntax error of the body parser from the other errors. *)
Definition errorHandler (malformedBody : bool) (error : Error) : ErrorResponse :=
  let unhandled := sendError 500 INTERNAL_ERROR "An unexpected error occurred" None in
  match error with
  | AppError statusCode code message retryAfterSeconds => sendError statusCode code message retryAfterSeconds
  | Known code =>
      if code === "P2002" then sendError 409 CONFLICT "The resource already exists" None
      else if code === "P2025" then sendError 404 NOT_FOUND "Resource not found" None
      else unhandled
  | Failure _ | TypeError _ =>
      if malformedBody then sendError 400 BAD_REQUEST "Malformed JSON request body" None else unhandled
  end.

(** ** What the guards guarantee *)

Lemma constantTimeEqual_iff a b : constantTimeEqual a b = true <-> a = b.
Proof.
  unfold constantTimeEqual. split; [|intros ->; by rewrite Nat.eqb_refl, bd_refl].
  destruct (_ =? _)%nat; [|done]. by intros ?%bool_decide_eq_true.
Qed.

(** A state-changing request the guard lets through, other than the signed webhook, either presents a bearer
    token, and then that token is its credential and no cookie is looked at, or names itself a mobile client, which
    no page of another origin can, or repeats in a header the value of its signed cookie. *)
Theorem csrf_guards_cookies request : In (web_method request) unsafeMethods ->
  web_path request <> "/api/v1/webhooks/stripe" ->
  csrfProtection request = Ok tt <->
  (exists bearer, bearer <> EmptyString /\ getBearerToken request = Some bearer /\ resolveAccessToken request = Some bearer)
  \/ isMobileClient request = true
  \/ (exists token, token <> EmptyString /\ header "x-csrf-token" request = Some token
        /\ assoc (cookie_csrf cookieNames) (web_signedCookies request) = Some (JStr token)).
Proof.
  intros Hm Hp. unfold csrfProtection.
  assert (mem (web_method request) unsafeMethods = true) as ->.
  { apply existsb_exists. exists (web_method request). split; [done|apply bd_refl]. }
  rewrite (bd_ne _ _ Hp). cbn [negb]. unfold usesCookieAuth, resolveAccessToken.
  assert (Hb : forall b, getBearerToken request = Some b -> b <> EmptyString).
  { unfold getBearerToken, orUndefined. intros b. repeat (case_match; try done). intros [= <-]. by bools. }
  destruct (getBearerToken request) as [b|]; cbn [is_set negb andb].
  { split; [|done]. intros _. left. exists b. by split; [apply Hb|]. }
  destruct (isMobileClient request); cbn [negb]; [split; [auto|done]|].
  split.
  - intros Hok. right. right. destruct (asString _) as [cookie|] eqn:Ec; [|done].
    destruct (header "x-csrf-token" request) as [h|]; [|done]. destruct (_ || _) eqn:Eg; [done|].
    apply orb_false_iff in Eg as [Eh Ee]. apply negb_false_iff, constantTimeEqual_iff in Ee as ->.
    exists h. split; [by bools|]. split; [done|]. unfold asString in Ec. repeat (case_match; try done). congruence.
  - intros [(b & _ & Hx & _)|[Hx|(token & Hne & -> & ->)]]; [done|done|]. cbn [asString].
    rewrite (bd_ne _ _ Hne), (proj2 (constantTimeEqual_iff token token) eq_refl). done.
Qed.

(** A refusal for too many requests always says when to come back; nothing of an unexpected error is shown. *)
Lemma errorHandler_total malformed e : let r := errorHandler malformed e in
  (er_status r = 429%Z <-> is_set (er_retryAfter r) = true)
  /\ (forall m, e = Failure m -> r = errorHandler malformed (Failure "")).
Proof.
  assert (Hs : forall s c m t, er_status (sendError s c m t) = 429%Z <-> is_set (er_retryAfter (sendError s c m t)) = true).
  { intros s c m t. unfold sendError. cbn. destruct (s =? 429)%Z eqn:E; [apply Z.eqb_eq in E|apply Z.eqb_neq in E]; by split. }
  split; [|by intros m ->]. unfold errorHandler. cbn zeta.
  destruct e as [s c m t|code|m|m]; [apply Hs|destruct (code === "P2002"); [apply Hs|destruct (code === "P2025"); apply Hs]|..];
    destruct malformed; apply Hs.
Qed.
End Guards.

Section Witnesses.
Local Existing Instance demoPlatform.

Definition formPost (headers : list (string * string)) : WebRequest :=
  mkWebRequest "POST" "/api/v1/users/me" headers [(cookie_access cookieNames, JStr "token")]
    [(cookie_csrf cookieNames, JStr "c5f")] JNull.

Example post_without_header : csrfProtection (formPost []) = Err errors.invalidCsrf.
Proof. reflexivity. Qed.
Example post_empty_bearer : csrfProtection (formPost [("authorization", "Bearer  ")]) = Err errors.invalidCsrf.
Proof. reflexivity. Qed.

Lemma csrf_guards_cookies_witness : csrfProtection (formPost [("x-csrf-token", "c5f")]) = Ok tt.
Proof.
  apply csrf_guards_cookies; [left; reflexivity|discriminate|]. right. right. exists "c5f".
  split; [discriminate|]. split; reflexivity.
Defined.
End Witnesses.
