(* ===== verification/Notifications.v ===== *)
(** * Notification preferences, unsubscribe links and e-mail events

    modules/notifications/notification-preferences.service.ts, unsubscribe.ts, email-events.service.ts and
    notifications.service.ts. The raw HMAC-SHA-256 digest and zod's formats of identifiers and addresses are
    parameters.

    An unsubscribe link works for the user, topic and time it was made for, and no text without the service's
    signature does. Two behaviours fall short of what the code says of itself: a click leaves an organization's
    own preference standing, and an event about one message settles other messages to the same address. *)

From Stdlib Require Import ZArith Lia Bool.
From S2P Require Import Prelude Store Database JsString JsonText Base64 Platform Request TenantScope AuditTrail Outbox Worker WorkerSpec IdempotencySpec ClientIpSpec.

Open Scope string_scope.

Definition notificationTopics : list string := ["product_updates"].

Definition channelText (c : NotificationChannel) : string :=
  match c with Ch_EMAIL => "EMAIL" | Ch_SMS => "SMS" | Ch_PUSH => "PUSH" | Ch_INTERNAL => "INTERNAL" end.

(** A preference as the API answers it. *)
Record PreferenceView := mkPreferenceView { pv_channel : NotificationChannel; pv_topic : string; pv_enabled : bool }.
Definition viewOf (p : NotificationPreference) : PreferenceView :=
  mkPreferenceView (pref_channel p) (pref_topic p) (pref_enabled p).

(** The unsubscribe token's payload: [exp] is in seconds. *)
Record UnsubscribePayload := mkUnsubscribePayload { un_userId : string; un_topic : string; un_exp : Z }.

Inductive EmailEventType := ev_delivered | ev_bounce | ev_complaint.
#[export] Instance EmailEventType_eq_dec : EqDecision EmailEventType.
Proof. solve_decision. Defined.
Record EmailEvent := mkEmailEvent {
  ee_id : string; ee_type : EmailEventType; ee_destination : string; ee_provider : string; ee_messageId : option string
}.

(** [Buffer.from(text, 'hex')]: pairs of digits, up to the first that is none. *)
Fixpoint hexDecode (s : string) : string :=
  match s with
  | String a (String b rest) =>
      match hexValue a, hexValue b with
      | Some x, Some y => String (chr (16 * x + y)) (hexDecode rest)
      | _, _ => EmptyString
      end
  | _ => EmptyString
  end.

Section Notifications.
Context `{Platform}.
(** [createHmac('sha256', key).update(data).digest()] *)
Variable hmacDigest : string -> string -> string.
(** [z.uuid()] and [z.email()] *)
Variable zodUuid zodEmail : string -> bool.

(** ** notification-preferences.service.ts *)

(** The key and the organization of the request's scope. *)
Definition preferenceScope (amb : Ambient) : string * option string :=
  let organizationId := match reqContext amb with Some (Request _ _ o) => o | _ => None end in
  match organizationId with
  | Some o => if o === EmptyString then ("global", None) else (o, Some o)
  | None => ("global", None)
  end.

(** A query of the global scope runs outside the tenant's. *)
Definition inPreferenceScope {A} (amb : Ambient) (query : Ambient -> A) : A :=
  match snd (preferenceScope amb) with
  | Some _ => query amb
  | None => withoutTenantScope "global-notification-preferences" query amb
  end.

(** The preferences of one topic each, by channel and topic; there is one channel in the answer. *)
Definition listNotificationPreferences (amb : Ambient) (userId : string) : Tx World (list PreferenceView) :=
  let '(scopeKey, organizationId) := preferenceScope amb in
  rows ← inPreferenceScope amb (fun amb =>
    sc_findMany amb (Some organizationId)
      (fun p => (pref_userId p === userId) && (pref_scopeKey p === scopeKey) && is_null (pref_deletedAt p)));
  mret (List.map (fun topic =>
      match List.find (fun p => (pref_channel p === Ch_EMAIL) && (pref_topic p === topic)) rows with
      | Some p => viewOf p
      | None => mkPreferenceView Ch_EMAIL topic true
      end) notificationTopics).

Definition setNotificationPreference (amb : Ambient) (userId : string) (channel : NotificationChannel) (topic : string)
    (enabled : bool) : Tx World PreferenceView :=
  let '(scopeKey, organizationId) := preferenceScope amb in
  row ← inPreferenceScope amb (fun amb =>
    id ← newId;
    sc_upsert amb (Some organizationId) (Some organizationId)
      (fun p => (pref_userId p === userId) && (pref_scopeKey p === scopeKey)
                && (pref_channel p === channel) && (pref_topic p === topic))
      (mkNotificationPreference id None userId scopeKey channel topic enabled None)
      (fun p => p <| pref_enabled := enabled |> <| pref_deletedAt := None |>));
  mret (viewOf row).

Definition notificationAllowed (amb : Ambient) (userId : string) (channel : NotificationChannel) (topic : string)
    (organizationId : option string) : Tx World bool :=
  let scopeKeys := if truthy organizationId then [organizationId ??? ""; "global"] else ["global"] in
  rows ← sc_findMany amb None
    (fun p => (pref_userId p === userId) && (pref_channel p === channel) && (pref_topic p === topic)
              && mem (pref_scopeKey p) scopeKeys && is_null (pref_deletedAt p));
  let inScope key := pref_enabled <$> List.find (fun p => pref_scopeKey p === key) rows in
  let exact := if truthy organizationId then inScope (organizationId ??? "") else None in
  mret (match exact with Some enabled => enabled | None => inScope "global" ??? true end).

(** ** unsubscribe.ts *)

Definition signature (payload : string) : string :=
  hmacDigest (TOKEN_HASH_SECRET env) ("email-unsubscribe:v1:" ++ payload).

(** [Math.floor(Date.now() / 1_000)] *)
Definition nowSeconds (amb : Ambient) : Z := (nowMs amb / 1000)%Z.

Definition createUnsubscribeToken (amb : Ambient) (userId topic : string) (expiresInDays : Z) : string :=
  let payload := base64urlEncode (jsonStringify (JObj
    [("v", JNum 1); ("userId", JStr userId); ("topic", JStr topic);
     ("exp", JNum (nowSeconds amb + expiresInDays * 24 * 60 * 60)%Z)])) in
  payload ++ "." ++ base64urlEncode (signature payload).

(** [unsubscribePayload.parse] *)
Definition parseUnsubscribePayload (json : Json) : option UnsubscribePayload :=
  match jget "v" json, jget "userId" json, jget "topic" json, jget "exp" json with
  | Some (JNum v), Some (JStr userId), Some (JStr topic), Some (JNum exp) =>
      if (v =? 1)%Z && zodUuid userId && mem topic notificationTopics && (0 <? exp)%Z
      then Some (mkUnsubscribePayload userId topic exp) else None
  | _, _, _, _ => None
  end.

Definition verifyUnsubscribeToken (amb : Ambient) (token : string) : option UnsubscribePayload :=
  let parts := split "." token in
  let payload := nth 0 parts EmptyString in
  let encodedSignature := nth 1 parts EmptyString in
  let extra := nth 2 parts EmptyString in
  if (payload === EmptyString) || (encodedSignature === EmptyString) || negb (extra === EmptyString) then None
  else
    let actual := base64urlDecode encodedSignature in
    let expected := signature payload in
    if negb (constantTimeEqual actual expected) then None
    else
      parsed ← jsonParse (base64urlDecode payload) ≫= parseUnsubscribePayload;
      if (nowSeconds amb <? un_exp parsed)%Z then Some parsed else None.

Definition unsubscribeWithToken (amb : Ambient) (token : string) : Tx World bool :=
  match verifyUnsubscribeToken amb token with
  | None => mret false
  | Some payload =>
      _ ← setNotificationPreference amb (un_userId payload) Ch_EMAIL (un_topic payload) false;
      mret true
  end.

(** ** email-events.service.ts *)

Definition validSignature (rawBody value : string) : bool :=
  if EMAIL_EVENT_WEBHOOK_SECRET env === EmptyString then false
  else
    let supplied := if startsWith value "sha256=" then drop_str 7 value else value in
    constantTimeEqual (hexDecode supplied) (hmacDigest (EMAIL_EVENT_WEBHOOK_SECRET env) rawBody).

(** [emailEventSchema.parse]: [z.string().min(1).max(n)] is [bounded]. *)
Definition bounded (n : nat) (s : string) : bool := (1 <=? String.length s)%nat && (String.length s <=? n)%nat.
Definition parseEventType (s : string) : option EmailEventType :=
  if s === "delivered" then Some ev_delivered else if s === "bounce" then Some ev_bounce
  else if s === "complaint" then Some ev_complaint else None.
Definition parseEmailEvent (json : Json) : option EmailEvent :=
  match jget "id" json, jget "type" json, jget "destination" json, jget "provider" json with
  | Some (JStr id), Some (JStr type), Some (JStr destination), Some (JStr provider) =>
      type ← parseEventType type;
      messageId ← match jget "messageId" json with
                  | None => Some None
                  | Some (JStr m) => if bounded 500 m then Some (Some m) else None
                  | Some _ => None
                  end;
      if bounded 255 id && zodEmail destination && bounded 100 provider
      then Some (mkEmailEvent id type destination provider messageId) else None
  | _, _, _, _ => None
  end.

Definition eventStatus (t : EmailEventType) : NotificationDeliveryStatus :=
  match t with ev_delivered => Del_DELIVERED | ev_bounce => Del_BOUNCED | ev_complaint => Del_COMPLAINED end.

(** The transaction of an event. *)
Definition recordEmailEvent (amb : Ambient) (event : EmailEvent) (destinationHashes : list string) (destinationHash : string)
    : Tx World unit :=
  _ ← sc_updateMany amb None
    (fun d => match ee_messageId event with Some m => del_providerMessageId d === Some m | None => false end
              || match del_destinationHash d with Some h => mem h destinationHashes | None => false end)
    (fun d => d <| del_status := eventStatus (ee_type event) |> <| del_provider := Some (ee_provider event) |>
                <| del_deliveredAt := if ee_type event === ev_delivered then Some (nowMs amb) else None |>);
  if (ee_type event === ev_bounce) || (ee_type event === ev_complaint) then
    let reason := if ee_type event === ev_bounce then Sup_BOUNCE else Sup_COMPLAINT in
    id ← newId;
    _ ← tx_upsert (fun s => sup_destinationHash s === destinationHash)
      (mkEmailSuppression id destinationHash reason (Some (ee_provider event)) (Some (ee_id event)) None)
      (fun s => s <| sup_reason := reason |> <| sup_provider := Some (ee_provider event) |>
                  <| sup_providerEventId := Some (ee_id event) |> <| sup_deletedAt := None |>);
    mret tt
  else mret tt.

(** The schema's error is zod's. *)
Definition processEmailProviderEvent (amb : Ambient) (rawBody signature : string) : Proc World unit :=
  if negb (validSignature rawBody signature) then throw (errors.badRequest "Invalid email event signature")
  else match jsonParse rawBody with
  | None => throw (errors.badRequest "Invalid email event payload")
  | Some json =>
      match parseEmailEvent json with
      | None => throw (Failure "ZodError")
      | Some event =>
          let normalized := normalizeEmail (ee_destination event) in
          destinationHashes ← transact (tx_lift (candidateMetadataHashes normalized));
          destinationHash ← transact (tx_lift (hashMetadata normalized));
          withoutTenantScope "email-provider-event"
            (fun amb => transact (recordEmailEvent amb event destinationHashes destinationHash)) amb
      end
  end.

(** ** notifications.service.ts *)

Record ProductAnnouncementInput := mkAnnouncement {
  pa_userId : string; pa_destination : string; pa_organizationId : option string;
  pa_headline : string; pa_message : string; pa_actionUrl : string; pa_dedupeKey : string
}.

Definition queueProductAnnouncement (amb : Ambient) (input : ProductAnnouncementInput) : Tx World unit :=
  addOutboxEvent amb (mkOutboxInput "user" (pa_userId input) "product.announcement" Ch_EMAIL
    (JObj ([("userId", JStr (pa_userId input)); ("destination", JStr (pa_destination input));
            ("topic", JStr "product_updates"); ("headline", JStr (pa_headline input));
            ("message", JStr (pa_message input)); ("actionUrl", JStr (pa_actionUrl input))]
           ++ if truthy (pa_organizationId input) then [("organizationId", JStr (pa_organizationId input ??? ""))] else [])%list)
    (pa_dedupeKey input ++ ":email") None None).

Definition queueUserNotification (amb : Ambient) (userId eventType : string) (channels : list NotificationChannel)
    (payload : Json) (dedupeKey : string) : Tx World unit :=
  tx_for channels (fun channel =>
    addOutboxEvent amb (mkOutboxInput "user" userId eventType channel payload
      (dedupeKey ++ ":" ++ toLowerCase (channelText channel)) None None)).
End Notifications.

(** ** What preferences, unsubscribe links and e-mail events do *)

Section NotificationsSpec.
Context `{Platform}.
Variable hmacDigest : string -> string -> string.
Variable zodUuid : string -> bool.

(** A digest has 32 bytes. *)
Hypothesis hmac_length : forall key data, String.length (hmacDigest key data) = 32.

(** ** Unsubscribe links *)

Lemma split_noChar c s : noChar c s = true -> split c s = [s].
Proof.
  unfold noChar. induction s as [|d s IH]; cbn [str_forallb split]; [done|]. intros Hs. apply andb_true_iff in Hs as [Hd Hs].
  destruct (d === c); [done|]. by rewrite (IH Hs).
Qed.

(** What a token verifies for: its payload's owner, on the service's signature of the payload. *)
Lemma verify_signed_token amb payload sig extra : payload <> EmptyString -> sig <> EmptyString ->
  noChar "." payload = true -> noChar "." sig = true -> extra = [] \/ (exists rest, extra = EmptyString :: rest) ->
  base64urlDecode sig = signature hmacDigest payload ->
  verifyUnsubscribeToken hmacDigest zodUuid amb (join "." (payload :: sig :: extra)) =
  parsed ← jsonParse (base64urlDecode payload) ≫= parseUnsubscribePayload zodUuid;
  if (nowSeconds amb <? un_exp parsed)%Z then Some parsed else None.
Proof.
  intros Hp Hs Hnp Hns Hx Hsig. unfold verifyUnsubscribeToken.
  assert (Hsplit : exists tail, split "." (join "." (payload :: sig :: extra)) = payload :: sig :: tail /\ nth 0 tail "" = "").
  { rewrite !join_cons.
    change (payload ++ "." ++ match extra with [] => sig | _ :: _ => sig ++ "." ++ join "." extra end)
      with (payload ++ String "." (match extra with [] => sig | _ :: _ => sig ++ "." ++ join "." extra end)).
    rewrite split_append, (split_noChar "." payload Hnp). cbn [app].
    destruct Hx as [->|[rest ->]]; [exists []; by rewrite (split_noChar "." sig Hns)|].
    change (sig ++ "." ++ join "." ("" :: rest)) with (sig ++ String "." (join "." ("" :: rest))).
    rewrite split_append, (split_noChar "." sig Hns). cbn [app]. eexists. split; [reflexivity|].
    rewrite join_cons. destruct rest as [|r rest]; [done|].
    change ("" ++ "." ++ join "." (r :: rest)) with (String "." (join "." (r :: rest))). cbn [split]. by rewrite bd_refl. }
  destruct Hsplit as (tail & -> & Htail). cbn [nth]. change (nth 2 (payload :: sig :: tail) "") with (nth 0 tail "").
  rewrite (bd_ne _ _ Hp), (bd_ne _ _ Hs), Htail, bd_refl, Hsig. cbn [orb negb].
  unfold constantTimeEqual. by rewrite Nat.eqb_refl, bd_refl.
Qed.

Lemma encode_nonempty s : s <> EmptyString -> base64urlEncode s <> EmptyString.
Proof.
  intros Hs He. apply Hs. rewrite <- (proj1 (base64url_roundtrip s)), He. reflexivity.
Qed.

(** An unsubscribe link verifies, for the user and the topic it was made for, until the day it expires, and
    never after. *)
Theorem unsubscribe_token_roundtrip amb amb' userId topic days :
  zodUuid userId = true -> mem topic notificationTopics = true ->
  let exp := (nowSeconds amb + days * 24 * 60 * 60)%Z in (0 < exp)%Z ->
  verifyUnsubscribeToken hmacDigest zodUuid amb' (createUnsubscribeToken hmacDigest amb userId topic days)
  = if (nowSeconds amb' <? exp)%Z then Some (mkUnsubscribePayload userId topic exp) else None.
Proof.
  intros Hu Ht exp Hexp. unfold createUnsubscribeToken. fold exp.
  set (json := JObj _). set (payload := base64urlEncode (jsonStringify json)).
  assert (Hpd : base64urlDecode payload = jsonStringify json) by apply base64url_roundtrip.
  change (payload ++ "." ++ base64urlEncode (signature hmacDigest payload))
    with (join "." [payload; base64urlEncode (signature hmacDigest payload)]).
  rewrite verify_signed_token; [|..|by left|apply base64url_roundtrip]; try apply base64url_roundtrip.
  - rewrite Hpd, jsonParse_stringify.
    + change (Some json ≫= parseUnsubscribePayload zodUuid) with (parseUnsubscribePayload zodUuid json).
      unfold parseUnsubscribePayload.
      change (jget "v" json) with (Some (JNum 1)). change (jget "userId" json) with (Some (JStr userId)).
      change (jget "topic" json) with (Some (JStr topic)). change (jget "exp" json) with (Some (JNum exp)).
      cbv iota beta. rewrite Hu, Ht, (proj2 (Z.ltb_lt 0 exp)) by done. reflexivity.
    + repeat constructor; cbn; intuition discriminate.
  - by apply encode_nonempty.
  - apply encode_nonempty. intros He. pose proof (hmac_length (TOKEN_HASH_SECRET env) ("email-unsubscribe:v1:" ++ payload)) as Hl.
    unfold signature in He. by rewrite He in Hl.
Qed.

(** Nothing verifies without the service's signature of its payload. *)
Lemma verify_needs_signature amb token p : verifyUnsubscribeToken hmacDigest zodUuid amb token = Some p ->
  exists payload sig rest, split "." token = payload :: sig :: rest
    /\ base64urlDecode sig = hmacDigest (TOKEN_HASH_SECRET env) ("email-unsubscribe:v1:" ++ payload)
    /\ (nowSeconds amb < un_exp p)%Z.
Proof.
  unfold verifyUnsubscribeToken. destruct (split "." token) as [|payload [|sig rest]]; cbn [nth]; [by rewrite bd_refl|..].
  { by rewrite bd_refl, orb_true_r. }
  destruct (_ || _); [done|]. destruct (negb (constantTimeEqual _ _)) eqn:Es; [done|].
  destruct (jsonParse _ ≫= _) as [q|]; [|done]. cbn [mbind option_bind]. destruct (_ <? _)%Z eqn:Et; [|done].
  intros [= <-]. exists payload, sig, rest. split; [done|]. split; [|by apply Z.ltb_lt].
  apply negb_false_iff in Es. unfold constantTimeEqual in Es. destruct (_ =? _)%nat; [|done]. by apply bool_decide_eq_true in Es.
Qed.

(** ** Preferences *)

(** One preference per user, scope, channel and topic. *)
Definition prefKey (p : NotificationPreference) : string * string * NotificationChannel * string :=
  (pref_userId p, pref_scopeKey p, pref_channel p, pref_topic p).
Definition preferencesOk (w : World) : Prop := List.NoDup (List.map prefKey (notificationPreferences w)).

(** The live setting of a scope. *)
Definition setting (userId topic scopeKey : string) (w : World) : option bool :=
  pref_enabled <$> List.find (fun p => is_null (pref_deletedAt p) && (pref_userId p === userId)
    && (pref_scopeKey p === scopeKey) && (pref_channel p === Ch_EMAIL) && (pref_topic p === topic)) (notificationPreferences w).

Lemma find_filter {A} (P Q : A -> bool) l : (forall a, Q a = true -> P a = true) ->
  List.find Q (List.filter P l) = List.find Q l.
Proof.
  intros HQ. induction l as [|a l IH]; cbn; [done|]. destruct (P a) eqn:EP; cbn; [by rewrite IH|].
  destruct (Q a) eqn:EQ; [|done]. by rewrite (HQ a EQ) in EP.
Qed.

Lemma find_filter_and {A} (P Q : A -> bool) l : List.find Q (List.filter P l) = List.find (fun a => P a && Q a) l.
Proof.
  induction l as [|a l IH]; cbn; [done|]. destruct (P a) eqn:EP; cbn; [|exact IH]. by destruct (Q a).
Qed.

(** What the worker asks before it sends. *)
Lemma notificationAllowed_setting amb reason userId topic organizationId w :
  reqContext amb = Some (Unscoped reason) ->
  notificationAllowed amb userId Ch_EMAIL topic organizationId w =
  Ok (match (if truthy organizationId then setting userId topic (organizationId ??? "") w else None) with
      | Some enabled => enabled
      | None => setting userId topic "global" w ??? true
      end, w).
Proof.
  intros Hc. unfold notificationAllowed, sc_findMany.
  erewrite tx_step; [|erewrite tx_step; [reflexivity|unfold tx_lift; by rewrite (scopeFilter_unscoped _ _ _ Hc)]].
  unfold mret, tx_ret. do 2 f_equal. unfold setting, findMany. rewrite !find_filter_and.
  assert (Hfind : forall key keys, mem key keys = true ->
    List.find (fun a => activeWhere (fun p => true && ((pref_userId p === userId) && (pref_channel p === Ch_EMAIL)
       && (pref_topic p === topic) && mem (pref_scopeKey p) keys && is_null (pref_deletedAt p))) a && (pref_scopeKey a === key))
      (notificationPreferences w)
    = List.find (fun p => is_null (pref_deletedAt p) && (pref_userId p === userId)
        && (pref_scopeKey p === key) && (pref_channel p === Ch_EMAIL) && (pref_topic p === topic)) (notificationPreferences w)).
  { intros key keys Hk. apply (findFirst_ext (R := NotificationPreference)). intros p _. cbn.
    destruct (pref_scopeKey p === key) eqn:Ek; [apply bool_decide_eq_true in Ek; rewrite Ek, Hk|];
      destruct (is_null (pref_deletedAt p)), (pref_userId p === userId), (pref_channel p === Ch_EMAIL), (pref_topic p === topic);
      cbn; rewrite ?andb_false_r; done. }
  unfold truthy. destruct organizationId as [o|]; cbn [default].
  - destruct (negb _) eqn:Eo; rewrite !Hfind; try done; unfold mem; cbn; by rewrite ?bd_refl, ?orb_true_r.
  - by rewrite Hfind.
Qed.

(** The setting of a scope is its row's. *)
Definition speaksFor (userId topic scopeKey : string) (p : NotificationPreference) : Prop :=
  pref_deletedAt p = None /\ prefKey p = (userId, scopeKey, Ch_EMAIL, topic).

Lemma setting_spec userId topic scopeKey w : preferencesOk w -> forall e,
  setting userId topic scopeKey w = Some e <->
  exists p, In p (notificationPreferences w) /\ speaksFor userId topic scopeKey p /\ pref_enabled p = e.
Proof.
  intros Hok e. unfold setting, speaksFor, prefKey.
  set (Q := fun p => is_null (pref_deletedAt p) && (pref_userId p === userId)
    && (pref_scopeKey p === scopeKey) && (pref_channel p === Ch_EMAIL) && (pref_topic p === topic)).
  assert (HQ : forall p, Q p = true <-> pref_deletedAt p = None
            /\ (pref_userId p, pref_scopeKey p, pref_channel p, pref_topic p) = (userId, scopeKey, Ch_EMAIL, topic)).
  { intros p. unfold Q. split.
    - intros Hp. bools. destruct (pref_deletedAt p); [done|]. split; congruence.
    - intros [-> [= -> -> -> ->]]. by rewrite !bd_refl. }
  split.
  - intros He. destruct (List.find Q _) as [p|] eqn:Ef; [|done]. cbn in He. injection He as <-.
    apply List.find_some in Ef as [Hin Hp]. exists p. by rewrite <- HQ.
  - intros (p & Hin & Hp & <-). destruct (List.find Q _) as [p'|] eqn:Ef.
    + apply List.find_some in Ef as [Hin' Hp']. apply HQ in Hp'. cbn. do 2 f_equal.
      apply (NoDup_key_inj prefKey (notificationPreferences w)); [done..|]. unfold prefKey. destruct Hp', Hp. congruence.
    + apply List.find_none with (x := p) in Ef; [|done]. by rewrite (proj2 (HQ p) Hp) in Ef.
Qed.

Lemma setting_ext userId topic scopeKey w w' : preferencesOk w -> preferencesOk w' ->
  (forall p, speaksFor userId topic scopeKey p -> In p (notificationPreferences w) <-> In p (notificationPreferences w')) ->
  setting userId topic scopeKey w = setting userId topic scopeKey w'.
Proof.
  intros H1 H2 Hp. pose proof (setting_spec userId topic scopeKey w H1) as S1.
  pose proof (setting_spec userId topic scopeKey w' H2) as S2.
  destruct (setting userId topic scopeKey w) as [e|].
  - symmetry. apply S2. destruct (proj1 (S1 e) eq_refl) as (p & Hin & Hs & He). exists p. by rewrite <- Hp.
  - destruct (setting userId topic scopeKey w') as [e|]; [|done].
    destruct (proj1 (S2 e) eq_refl) as (p & Hin & Hs & He). by apply (S1 e); exists p; rewrite Hp.
Qed.

(** A preference set outside any organization is the global one, and no other scope's. *)
Lemma set_global amb userId topic enabled w v w' : preferenceScope amb = ("global", None) -> preferencesOk w ->
  setNotificationPreference amb userId Ch_EMAIL topic enabled w = Ok (v, w') ->
  preferencesOk w' /\ setting userId topic "global" w' = Some enabled
  /\ (forall key, key <> "global" -> setting userId topic key w' = setting userId topic key w).
Proof.
  intros Hscope Hok Hrun. unfold setNotificationPreference, inPreferenceScope in Hrun. rewrite Hscope in Hrun. cbn [snd] in Hrun.
  unfold withoutTenantScope, runWithRequestContext, sc_upsert in Hrun.
  apply bind_ok in Hrun as (row & w1 & Hrun & Hret). apply ret_ok in Hret as [_ <-].
  apply bind_ok in Hrun as (id & w2 & Hid & Hrun). injection Hid as Hid Hw2. subst id w2.
  apply bind_ok in Hrun as (sc & w3 & Hsc & Hrun). apply lift_ok in Hsc as [Hsc <-].
  rewrite (scopeUpsert_global _ "global-notification-preferences") in Hsc by done. injection Hsc as <-.
  cbn [fst snd] in Hrun. set (P := fun x : NotificationPreference => _ && _) in Hrun.
  set (f := fun p : NotificationPreference => p <| pref_enabled := enabled |> <| pref_deletedAt := None |>) in Hrun.
  assert (HP : forall p, P p = true -> prefKey p = (userId, "global", Ch_EMAIL, topic)).
  { intros p Hp. unfold P in Hp. bools. unfold prefKey. congruence. }
  set (Key := (userId, "global", Ch_EMAIL, topic)) in HP.
  assert (Hother : forall key p, key <> "global" -> speaksFor userId topic key p -> prefKey p <> Key).
  { intros key p Hk [_ Hp]. rewrite Hp. intros Hq. injection Hq as Hq. done. }
  unfold tx_upsert in Hrun. destruct (findFirst P _) as [r0|] eqn:Ef.
  - apply findFirst_Some in Ef as [Hin0 Hr0]. injection Hrun as _ <-.
    assert (Hok' : preferencesOk (put (updateWhere P f) (w <| drawn ::= S |>))).
    { unfold preferencesOk. change (List.NoDup (List.map prefKey (updateWhere P f (notificationPreferences w)))).
      by rewrite map_updateWhere. }
    split; [exact Hok'|]. split.
    + apply setting_spec; [exact Hok'|]. exists (f r0). split; [|split; [split; [done|exact (HP r0 Hr0)]|done]].
      apply In_updateWhere. exists r0. by rewrite Hr0.
    + intros key Hk. apply setting_ext; [done..|]. intros p Hp. pose proof (Hother key p Hk Hp) as Hne.
      change (In p (updateWhere P f (notificationPreferences w)) <-> In p (notificationPreferences w)). rewrite In_updateWhere. split.
      * intros (q & Hq & ->). destruct (P q) eqn:EP; [|done]. exfalso. by apply Hne, HP.
      * intros Hin. exists p. split; [done|]. destruct (P p) eqn:EP; [|done]. exfalso. by apply Hne, HP.
  - apply create_ok in Hrun as (-> & -> & Hfresh). set (new := stampOrganization None _).
    assert (Hnew : forall p, In p (notificationPreferences w) -> prefKey p <> Key).
    { intros p Hp Hq. specialize (Hfresh p Hp). unfold Key, prefKey in Hq. injection Hq as H1 H2 H3 H4.
      cbn in Hfresh. rewrite H1, H2, H3, H4, !bd_refl, orb_true_r in Hfresh. done. }
    assert (Hok' : preferencesOk (put (fun t => t ++ [new])%list (w <| drawn ::= S |>))).
    { unfold preferencesOk. change (List.NoDup (List.map prefKey (notificationPreferences w ++ [new]))).
      rewrite List.map_app. apply List.NoDup_app; [done|by constructor; [intros []|constructor]|].
      intros k Hk [<-|[]]. apply List.in_map_iff in Hk as (p & Hq & Hp). by apply (Hnew p Hp). }
    split; [exact Hok'|]. split.
    + apply setting_spec; [exact Hok'|]. exists new. split; [apply List.in_or_app; right; by left|done].
    + intros key Hk. apply setting_ext; [done..|]. intros p Hp. pose proof (Hother key p Hk Hp) as Hne.
      change (In p (notificationPreferences w ++ [new]) <-> In p (notificationPreferences w)). rewrite List.in_app_iff.
      split; [|by left]. intros [Hin|[<-|[]]]; [done|]. by exfalso.
Qed.

(** A one-click unsubscribe stops the topic's messages to the user outside organizations, and in every
    organization for which the user has no preference of their own; where there is one, messages go on as it says,
    although the click is documented to be global. *)
Theorem unsubscribe_effect amb token w w' payload amb' reason organizationId :
  preferenceScope amb = ("global", None) -> preferencesOk w ->
  verifyUnsubscribeToken hmacDigest zodUuid amb token = Some payload ->
  unsubscribeWithToken hmacDigest zodUuid amb token w = Ok (true, w') ->
  reqContext amb' = Some (Unscoped reason) -> organizationId <> Some "global" ->
  let own := if truthy organizationId then setting (un_userId payload) (un_topic payload) (organizationId ??? "") w else None in
  notificationAllowed amb' (un_userId payload) Ch_EMAIL (un_topic payload) organizationId w' = Ok (own ??? false, w').
Proof.
  intros Hscope Hok Hv Hrun Hc Ho own. unfold unsubscribeWithToken in Hrun. rewrite Hv in Hrun.
  apply bind_ok in Hrun as (v & w1 & Hset & Hrun). apply ret_ok in Hrun as [_ <-].
  apply (set_global amb _ _ _ _ _ _ Hscope Hok) in Hset as (_ & Hglobal & Hother).
  rewrite (notificationAllowed_setting _ reason) by done. unfold own. destruct (truthy organizationId) eqn:Et.
  - destruct organizationId as [o|]; [|done]. change (Some o ??? "") with o. rewrite Hother by (intros ->; by apply Ho). destruct (setting _ _ o w); [done|].
    by rewrite Hglobal.
  - by rewrite Hglobal.
Qed.

(** ** Events about one message and the other messages to the address *)

Variable zodEmail : string -> bool.

Lemma isFor_ext e d d' : del_outboxEventId d' = del_outboxEventId d -> isFor e d' = isFor e d.
Proof. unfold isFor. by intros ->. Qed.

(** The statement of a delivered event, outside any tenant. *)
Definition flips (event : EmailEvent) (hashes : list string) (d : NotificationDelivery) : bool :=
  match ee_messageId event with Some m => del_providerMessageId d === Some m | None => false end
  || match del_destinationHash d with Some h => mem h hashes | None => false end.
Definition flipped (amb : Ambient) (event : EmailEvent) (d : NotificationDelivery) : NotificationDelivery :=
  d <| del_status := eventStatus (ee_type event) |> <| del_provider := Some (ee_provider event) |>
    <| del_deliveredAt := if ee_type event === ev_delivered then Some (nowMs amb) else None |>.

Lemma deliveriesOk_flipped P amb event w : deliveriesOk w -> deliveriesOk (put (R := NotificationDelivery) (updateWhere P (flipped amb event)) w).
Proof.
  intros [Hnd Hlive Hfresh Hu].
  assert (Hmap : forall x, In x (updateWhere P (flipped amb event) (notificationDeliveries w)) ->
    exists y, In y (notificationDeliveries w) /\ del_outboxEventId x = del_outboxEventId y /\ del_deletedAt x = del_deletedAt y
      /\ del_id x = del_id y /\ del_providerMessageId x = del_providerMessageId y).
  { intros x (y & Hy & ->)%In_updateWhere. exists y. by destruct (P y). }
  constructor.
  - change (List.NoDup (List.map del_outboxEventId (updateWhere P (flipped amb event) (notificationDeliveries w)))).
    by rewrite map_updateWhere.
  - intros d (y & Hy & _ & -> & _)%Hmap. by apply Hlive.
  - intros d (y & Hy & _ & _ & -> & _)%Hmap. by apply Hfresh.
  - intros x y (x0 & Hx & Ex & _ & Ix & Mx)%Hmap (y0 & Hy & Ey & _ & Iy & My)%Hmap. rewrite Ex, Ey. intros Hne.
    specialize (Hu x0 y0 Hx Hy Hne). cbn in *. by rewrite Ex, Ey, Ix, Iy, Mx, My.
Qed.

(** A provider's report that one message reached an address settles every message to that address on record,
    among them one that has failed and waits for its retry, with which the report has nothing to do: the worker
    then completes that message without sending it, whatever the providers would do. *)
Theorem delivery_report_swallows_retry amb rawBody signature json event w job e d h amb' :
  keyringValid -> validSignature hmacDigest rawBody signature = true ->
  jsonParse rawBody = Some json -> parseEmailEvent zodEmail json = Some event -> ee_type event = ev_delivered ->
  hashMetadata (normalizeEmail (ee_destination event)) = Ok h ->
  takeable amb' job w e -> deliveriesOk (takenWorld amb' job e w) ->
  In d (notificationDeliveries w) -> isFor e d = true -> del_status d = Del_FAILED -> del_providerMessageId d = None ->
  del_destinationHash d = Some h ->
  exists w1 w2, processEmailProviderEvent hmacDigest zodEmail amb rawBody signature w = (Ok tt, w1)
    /\ (forall limit email sms push erase scan stripe,
          runJob limit email sms push erase scan stripe amb' job w1 = (Ok tt, w2))
    /\ exists e', Row ob_id e' (outboxEvents w2) /\ ob_id e' = ob_id e /\ ob_status e' = Ob_DELIVERED.
Proof.
  intros Hk Hsig Hjson Hevent Htype Hh Ht Hok Hd Hfor _ _ Hdh.
  destruct (candidateMetadataHashes_total (normalizeEmail (ee_destination event)) Hk) as [hs Hhs].
  pose proof (hashMetadata_candidate _ _ _ Hk Hh Hhs) as Hin.
  set (P := activeWhere (S := World) (fun d => true && flips event hs d)).
  exists (put (R := NotificationDelivery) (updateWhere P (flipped amb event)) w).
  destruct (run_recorded amb' job (put (R := NotificationDelivery) (updateWhere P (flipped amb event)) w) e (flipped amb event d))
    as (w2 & Hrun & _ & He); [done| | | | |change (recorded (eventStatus (ee_type event)) = true); by rewrite Htype|].
  - exact (deliveriesOk_flipped P amb event (takenWorld amb' job e w) Hok).
  - destruct Ht. by constructor.
  - apply In_updateWhere. exists d. split; [done|]. unfold P. cbn. rewrite (dl_live _ Hok d Hd). unfold flips. rewrite Hdh.
    assert (mem h hs = true) as ->; [|by rewrite orb_true_r]. apply existsb_exists. exists h. split; [done|apply bd_refl].
  - done.
  - exists w2. split; [|done]. unfold processEmailProviderEvent. rewrite Hsig, Hjson, Hevent. cbn [negb].
    erewrite proc_step by (unfold tx_lift; by rewrite Hhs). erewrite proc_step by (unfold tx_lift; by rewrite Hh).
    unfold withoutTenantScope, runWithRequestContext, transact, recordEmailEvent, sc_updateMany.
    erewrite tx_step.
    2: { erewrite tx_step; [reflexivity|]. unfold tx_lift. by rewrite (scopeFilter_unscoped _ "email-provider-event"). }
    replace ((ee_type event === ev_bounce) || (ee_type event === ev_complaint)) with false by (by rewrite Htype).
    reflexivity.
Qed.
End NotificationsSpec.

Section Witnesses.
Local Existing Instance demoPlatform.

Definition demoDigest (key data : string) : string := replicate_str 32 "d".
Definition anyText (s : string) : bool := true.
Definition clickAt (t : Z) : Ambient := mkAmbient t (Some (Request "r1" None None)).
Definition demoLink : string := createUnsubscribeToken demoDigest (clickAt 5000) "u1" "product_updates" 30.
Definition demoPayload : UnsubscribePayload := mkUnsubscribePayload "u1" "product_updates" 2592005.
(** [u1] asked for the updates of [o1]. *)
Definition preferenceWorld : World := emptyWorld
  <| notificationPreferences := [mkNotificationPreference "p1" (Some "o1") "u1" "o1" Ch_EMAIL "product_updates" true None] |>.

Lemma unsubscribe_token_roundtrip_witness :
  verifyUnsubscribeToken demoDigest anyText (clickAt 6000) demoLink = Some demoPayload.
Proof. apply (unsubscribe_token_roundtrip demoDigest anyText (fun _ _ => eq_refl)); reflexivity. Defined.

Lemma link_verifies : verifyUnsubscribeToken demoDigest anyText (clickAt 6000) demoLink = Some demoPayload.
Proof. vm_compute. reflexivity. Qed.
Lemma link_works : exists w', unsubscribeWithToken demoDigest anyText (clickAt 6000) demoLink preferenceWorld = Ok (true, w').
Proof. eexists. vm_compute. reflexivity. Qed.

Lemma unsubscribe_effect_witness : exists w',
  unsubscribeWithToken demoDigest anyText (clickAt 6000) demoLink preferenceWorld = Ok (true, w')
  /\ notificationAllowed (workerAmbient demoAmbient) "u1" Ch_EMAIL "product_updates" (Some "o1") w' = Ok (true, w')
  /\ notificationAllowed (workerAmbient demoAmbient) "u1" Ch_EMAIL "product_updates" (Some "o2") w' = Ok (false, w').
Proof.
  destruct link_works as [w' Hrun]. exists w'. split; [exact Hrun|].
  assert (Hok : preferencesOk preferenceWorld) by (apply List.NoDup_cons; [intros []|apply List.NoDup_nil]).
  split.
  - refine (unsubscribe_effect demoDigest anyText (clickAt 6000) demoLink preferenceWorld w' demoPayload
              (workerAmbient demoAmbient) "notification-worker" (Some "o1") eq_refl Hok link_verifies Hrun eq_refl _). discriminate.
  - refine (unsubscribe_effect demoDigest anyText (clickAt 6000) demoLink preferenceWorld w' demoPayload
              (workerAmbient demoAmbient) "notification-worker" (Some "o2") eq_refl Hok link_verifies Hrun eq_refl _). discriminate.
Defined.

Definition reportBody : string := jsonStringify (JObj [("id", JStr "e1"); ("type", JStr "delivered");
  ("destination", JStr "a@example.com"); ("provider", JStr "ses"); ("messageId", JStr "another")]).
Definition reportEvent : EmailEvent := mkEmailEvent "e1" ev_delivered "a@example.com" "ses" (Some "another").
Definition reportSignature : string := str_filter (fun _ => true) (join "" (List.repeat "64" 32)).
Definition failedDelivery : NotificationDelivery :=
  demoDelivery <| del_status := Del_FAILED |> <| del_provider := None |> <| del_providerMessageId := None |>
    <| del_destinationHash := match hashMetadata "a@example.com" with Ok h => Some h | Err _ => None end |>.
Definition retryWorld : World := demoWorld <| notificationDeliveries := [failedDelivery] |>.

Lemma delivery_report_swallows_retry_witness : exists w1 w2,
  processEmailProviderEvent demoDigest anyText demoAmbient reportBody reportSignature retryWorld = (Ok tt, w1)
  /\ (forall limit email sms push erase scan stripe,
        runJob limit email sms push erase scan stripe demoAmbient demoJob w1 = (Ok tt, w2))
  /\ exists e', Row ob_id e' (outboxEvents w2) /\ ob_id e' = "ev1" /\ ob_status e' = Ob_DELIVERED.
Proof.
  eapply (delivery_report_swallows_retry demoDigest anyText demoAmbient reportBody reportSignature _ reportEvent retryWorld
            demoJob demoEvent failedDelivery _ demoAmbient demo_keyringValid); try reflexivity.
  - apply demo_takeable. reflexivity.
  - constructor; cbn.
    + repeat constructor; auto.
    + intros ? [<-|[]]. reflexivity.
    + intros ? [<-|[]]. discriminate.
    + intros ? ? [<-|[]] [<-|[]] Hne. by destruct Hne.
  - left. reflexivity.
Defined.
End Witnesses.
