(* ===== verification/Templates.v ===== *)
(** * E-mail templates

    modules/notifications/templates/interpolate.ts, locale.ts, registry.ts and index.ts. The template files are
    read from disk: [TemplateFiles] is what files.ts finds there. zod's URL format is a parameter.

    The values substituted into an HTML template add no markup to it, whatever they are, and are not themselves
    read as templates. *)

From Stdlib Require Import ZArith Lia Bool.
From S2P Require Import Prelude JsString JsonText.

Open Scope string_scope.

(** ** interpolate.ts *)

(** [s.replace(/c/g, by)] *)
Fixpoint replaceChar (c : ascii) (by_ : string) (s : string) : string :=
  match s with
  | EmptyString => EmptyString
  | String d rest => if d === c then by_ ++ replaceChar c by_ rest else String d (replaceChar c by_ rest)
  end.

Definition dquoteChar : ascii := chr 34.
Definition newline : ascii := chr 10.

Definition escapeHtml (value : string) : string :=
  replaceChar "'" "&#39;" (replaceChar dquoteChar "&quot;" (replaceChar ">" "&gt;" (replaceChar "<" "&lt;"
    (replaceChar "&" "&amp;" value)))).

(** [[a-zA-Z0-9_]] *)
Definition isWord (c : ascii) : bool :=
  let n := code_of c in
  isDigit c || isUpper c || ((97 <=? n)%nat && (n <=? 122)%nat) || (c === "_"%char).

Fixpoint spanChars (P : ascii -> bool) (s : string) : string * string :=
  match s with
  | String c rest => if P c then let '(a, b) := spanChars P rest in (String c a, b) else (EmptyString, s)
  | EmptyString => (EmptyString, EmptyString)
  end.

(** [TOKEN_PATTERN] at the start of a text: the key and what follows. No two of the pattern's pieces match the same
    character, so it never backtracks. *)
Definition matchToken (s : string) : option (string * string) :=
  s ← stripPrefix "{{" s;
  let '(_, s) := spanChars isSpace s in
  let '(key, s) := spanChars isWord s in
  let '(_, s) := spanChars isSpace s in
  s ← stripPrefix "}}" s;
  if key === EmptyString then None else Some (key, s).

Inductive Part := Literal (c : ascii) | Token (key : string).

(** The matches from left to right; [skip] characters belong to the last one. *)
Fixpoint templateParts (skip : nat) (s : string) : list Part :=
  match s with
  | EmptyString => []
  | String c rest =>
      match skip with
      | S skip => templateParts skip rest
      | O =>
          match matchToken s with
          | Some (key, after) => Token key :: templateParts (String.length s - String.length after - 1) rest
          | None => Literal c :: templateParts 0 rest
          end
      end
  end.

(** The callback of [template.replace]. *)
Fixpoint renderParts (escape : bool) (values : list (string * string)) (parts : list Part) : res string :=
  match parts with
  | [] => Ok EmptyString
  | Literal c :: rest =>
      match renderParts escape values rest with Ok out => Ok (String c out) | Err e => Err e end
  | Token key :: rest =>
      match assoc key values with
      | None => Err (Failure ("Template references undefined variable " ++ String dquoteChar (key ++ String dquoteChar EmptyString)))
      | Some value =>
          match renderParts escape values rest with
          | Ok out => Ok ((if escape then escapeHtml value else value) ++ out)
          | Err e => Err e
          end
      end
  end.

Definition interpolate (template : string) (values : list (string * string)) (escape : bool) : res string :=
  renderParts escape values (templateParts 0 template).

Definition consChar (c : ascii) (l : list string) : list string :=
  match l with h :: t => String c h :: t | [] => [String c EmptyString] end.

(** [text.split(/\n{2,}/)]; within a separator the newlines are passed over. *)
Fixpoint splitParagraphs (inSeparator : bool) (s : string) : list string :=
  match s with
  | EmptyString => [EmptyString]
  | String c rest =>
      if c === newline then
        if inSeparator then splitParagraphs true rest
        else match rest with
             | String d _ => if d === newline then EmptyString :: splitParagraphs true rest
                             else consChar c (splitParagraphs false rest)
             | EmptyString => consChar c (splitParagraphs false rest)
             end
      else consChar c (splitParagraphs false rest)
  end.

Definition textToHtml (text : string) : string :=
  join (String newline EmptyString)
    (List.map (fun paragraph => "<p>" ++ replaceChar newline "<br>" (escapeHtml paragraph) ++ "</p>")
       (splitParagraphs false (trim text))).

(** ** locale.ts *)

Definition DEFAULT_LOCALE : string := "en".

Definition resolveLocale (requested : option string) (available : list string) : string :=
  let candidates := omap (fun l => if truthy l then l else None)
    [requested; (fun r => List.hd EmptyString (split "-" r)) <$> requested; Some DEFAULT_LOCALE] in
  List.find (fun candidate => mem candidate available) candidates ??? DEFAULT_LOCALE.

(** ** registry.ts *)

Inductive EmailTemplateKey :=
  | auth_verification_otp | auth_password_reset_otp | auth_signup_existing | organization_invitation
  | product_announcement.
#[export] Instance EmailTemplateKey_eq_dec : EqDecision EmailTemplateKey.
Proof. solve_decision. Defined.

Definition templateName (k : EmailTemplateKey) : string :=
  match k with
  | auth_verification_otp => "auth-verification-otp" | auth_password_reset_otp => "auth-password-reset-otp"
  | auth_signup_existing => "auth-signup-existing" | organization_invitation => "organization-invitation"
  | product_announcement => "product-announcement"
  end.

Definition transactional (k : EmailTemplateKey) : bool := k !== product_announcement.

(** The formats the schemas ask of their variables. *)
Inductive VariableFormat := nonEmptyText | urlText.
Definition templateSchema (k : EmailTemplateKey) : list (string * VariableFormat) :=
  match k with
  | auth_verification_otp | auth_password_reset_otp => [("code", nonEmptyText); ("expiresInMinutes", nonEmptyText)]
  | auth_signup_existing => []
  | organization_invitation => [("organizationName", nonEmptyText); ("actionUrl", urlText); ("expiresInDays", nonEmptyText)]
  | product_announcement => [("headline", nonEmptyText); ("message", nonEmptyText); ("actionUrl", urlText)]
  end.

Definition emailTemplates : list EmailTemplateKey :=
  [auth_verification_otp; auth_password_reset_otp; auth_signup_existing; organization_invitation; product_announcement].
Definition listEmailTemplateKeys : list string := List.map templateName emailTemplates.
Definition example (k : EmailTemplateKey) : list (string * string) :=
  match k with
  | auth_verification_otp => [("code", "482913"); ("expiresInMinutes", "5")]
  | auth_password_reset_otp => [("code", "719204"); ("expiresInMinutes", "5")]
  | auth_signup_existing => []
  | organization_invitation =>
      [("organizationName", "Acme, Inc."); ("actionUrl", "https://app.example.com/invitations/accept?token=example");
       ("expiresInDays", "7")]
  | product_announcement =>
      [("headline", "A faster workspace is here"); ("message", "We improved search and made large projects load more quickly.");
       ("actionUrl", "https://app.example.com/updates")]
  end.

(** [templateKey/locale]'s files *)
Record RawTemplateFiles := mkRawTemplateFiles { file_subject : string; file_text : string; file_html : option string }.
Class TemplateFiles := {
  availableLocales : string -> list string;
  loadTemplateFiles : string -> string -> RawTemplateFiles;
  zodUrl : string -> bool
}.

(** ** index.ts *)

Record RenderedEmail := mkRenderedEmail {
  re_subject : string; re_text : string; re_html : string; re_transactional : bool
}.

Section Render.
Context `{TemplateFiles}.

Definition hasFormat (f : VariableFormat) (s : string) : bool :=
  match f with nonEmptyText => (1 <=? String.length s)%nat | urlText => zodUrl s end.

(** [definition.schema.parse(variables)]: the schema's keys, no others. *)
Fixpoint parseVariables (schema : list (string * VariableFormat)) (variables : list (string * string))
    : res (list (string * string)) :=
  match schema with
  | [] => Ok []
  | (key, format) :: rest =>
      match assoc key variables with
      | Some value =>
          if hasFormat format value then
            match parseVariables rest variables with Ok parsed => Ok ((key, value) :: parsed) | Err e => Err e end
          else Err (Failure "ZodError")
      | None => Err (Failure "ZodError")
      end
  end.

Definition renderEmailTemplate (key : EmailTemplateKey) (variables : list (string * string)) (locale : option string)
    : res RenderedEmail :=
  match parseVariables (templateSchema key) variables with
  | Err e => Err e
  | Ok parsed =>
      let resolvedLocale := resolveLocale locale (availableLocales (templateName key)) in
      let files := loadTemplateFiles (templateName key) resolvedLocale in
      match interpolate (file_subject files) parsed false, interpolate (file_text files) parsed false,
            interpolate (file_html files ??? textToHtml (file_text files)) parsed true with
      | Ok subject, Ok text, Ok html => Ok (mkRenderedEmail subject text html (transactional key))
      | Err e, _, _ => Err e
      | _, Err e, _ => Err e
      | _, _, Err e => Err e
      end
  end.
End Render.

Example interpolate_ex : interpolate "Hi {{ name }}, {{x}} {{}} {{a b}}" [("name", "{{x}}"); ("x", "<1>")] true
  = Ok "Hi {{x}}, &lt;1&gt; {{}} {{a b}}".
Proof. reflexivity. Qed.
Example interpolate_missing : interpolate "{{gone}}" [] false
  = Err (Failure ("Template references undefined variable " ++ String dquoteChar ("gone" ++ String dquoteChar ""))).
Proof. reflexivity. Qed.
Example paragraphs_ex : splitParagraphs false (join (String newline "") ["a"; "b"; ""; ""; "c"]) = [join (String newline "") ["a"; "b"]; "c"].
Proof. reflexivity. Qed.
Example locale_ex : resolveLocale (Some "es-MX") ["en"; "es"] = "es".
Proof. reflexivity. Qed.

(** ** What a rendered e-mail cannot contain *)

(** The characters that open or close a tag or an attribute's value. *)
Definition isMarkup (c : ascii) : bool := (c === "<"%char) || (c === ">"%char) || (c === dquoteChar) || (c === "'"%char).
Definition markup (s : string) : string := str_filter isMarkup s.

Lemma markup_cons c s : markup (String c s) = (if isMarkup c then String c (markup s) else markup s).
Proof. done. Qed.

Lemma markup_app a b : markup (a ++ b) = markup a ++ markup b.
Proof.
  induction a as [|c a IH]; [done|]. rewrite append_cons, !markup_cons, IH. by destruct (isMarkup c).
Qed.

(** ** Escaping *)

Lemma replaceChar_app c by_ a b : replaceChar c by_ (a ++ b) = replaceChar c by_ a ++ replaceChar c by_ b.
Proof.
  induction a as [|d a IH]; [done|]. rewrite append_cons. cbn [replaceChar]. rewrite IH.
  destruct (d === c); [by rewrite append_assoc|done].
Qed.

Lemma escapeHtml_app a b : escapeHtml (a ++ b) = escapeHtml a ++ escapeHtml b.
Proof. unfold escapeHtml. by rewrite !replaceChar_app. Qed.

Lemma string_cons c s : String c s = String c EmptyString ++ s.
Proof. done. Qed.

Lemma markup_escaped_char c : markup (escapeHtml (String c EmptyString)) = EmptyString.
Proof. by destruct c as [[] [] [] [] [] [] [] []]. Qed.

(** What is escaped holds no markup. *)
Lemma markup_escaped s : markup (escapeHtml s) = EmptyString.
Proof.
  induction s as [|c s IH]; [done|]. rewrite string_cons, escapeHtml_app, markup_app, markup_escaped_char, IH. done.
Qed.

(** Reading the five entities back. *)
Fixpoint unescapeFrom (skip : nat) (s : string) : string :=
  match s with
  | EmptyString => EmptyString
  | String c rest =>
      match skip with
      | S skip => unescapeFrom skip rest
      | O =>
          if startsWith s "&amp;" then String "&" (unescapeFrom 4 rest)
          else if startsWith s "&lt;" then String "<" (unescapeFrom 3 rest)
          else if startsWith s "&gt;" then String ">" (unescapeFrom 3 rest)
          else if startsWith s "&quot;" then String dquoteChar (unescapeFrom 5 rest)
          else if startsWith s "&#39;" then String "'" (unescapeFrom 4 rest)
          else String c (unescapeFrom 0 rest)
      end
  end.
Definition unescapeHtml (s : string) : string := unescapeFrom 0 s.

Lemma unescape_char c s : unescapeHtml (escapeHtml (String c EmptyString) ++ s) = String c (unescapeHtml s).
Proof.
  destruct (decide (c = "&"%char)) as [->|]; [by destruct s|]. destruct (decide (c = "<"%char)) as [->|]; [by destruct s|].
  destruct (decide (c = ">"%char)) as [->|]; [by destruct s|]. destruct (decide (c = dquoteChar)) as [->|]; [by destruct s|].
  destruct (decide (c = "'"%char)) as [->|]; [by destruct s|].
  assert (escapeHtml (String c "") = String c "") as ->.
  { unfold escapeHtml. cbn [replaceChar]. by do 5 (rewrite bd_ne by done; cbn [replaceChar]). }
  rewrite append_cons. unfold unescapeHtml. cbn [unescapeFrom].
  assert (Hs : forall t, startsWith (String c ("" ++ s)) (String "&" t) = false).
  { intros t. unfold startsWith. cbn [String.prefix]. by destruct (Ascii.ascii_dec "&" c) as [<-|]. }
  by rewrite !Hs.
Qed.

(** Escaping loses nothing: the recipient reads the value that was substituted, and its text holds no markup. *)
Theorem escape_faithful s : unescapeHtml (escapeHtml s) = s /\ markup (escapeHtml s) = EmptyString.
Proof.
  split; [|apply markup_escaped]. induction s as [|c s IH]; [done|].
  rewrite string_cons, escapeHtml_app, unescape_char, IH. done.
Qed.

(** ** Interpolation *)

Lemma stripPrefix_app pre : forall s rest, stripPrefix pre s = Some rest -> s = pre ++ rest.
Proof.
  induction pre as [|c pre IH]; intros s rest; cbn; [by intros [= ->]|]. destruct s as [|d s]; [done|].
  destruct (c === d) eqn:E; [|done]. apply bool_decide_eq_true in E as ->. intros H. by rewrite append_cons, (IH _ _ H).
Qed.

Lemma spanChars_app P s : let '(a, b) := spanChars P s in s = a ++ b /\ str_forallb P a = true.
Proof.
  induction s as [|c s IH]; cbn; [done|]. destruct (P c) eqn:E; [|done]. destruct (spanChars P s) as [a b].
  destruct IH as [-> Ha]. split; [done|]. cbn. by rewrite E.
Qed.

Lemma markup_none P s : (forall c, P c = true -> isMarkup c = false) -> str_forallb P s = true -> markup s = EmptyString.
Proof.
  intros HP. induction s as [|c s IH]; cbn [str_forallb]; [done|]. intros Hs. apply andb_true_iff in Hs as [Hc Hs].
  rewrite markup_cons, (HP c Hc). by apply IH.
Qed.

Lemma plain_chars c : isSpace c = true \/ isWord c = true -> isMarkup c = false.
Proof. destruct c as [[] [] [] [] [] [] [] []]; cbn; intros [H|H]; done. Qed.

(** A token is a stretch of the template without markup. *)
Lemma matchToken_spec s key after : matchToken s = Some (key, after) ->
  exists c token, s = String c token ++ after /\ markup (String c token) = EmptyString.
Proof.
  unfold matchToken. destruct (stripPrefix "{{" s) as [s1|] eqn:E1; [|done]. apply stripPrefix_app in E1 as ->. cbn [mbind option_bind].
  pose proof (spanChars_app isSpace s1) as H1. destruct (spanChars isSpace s1) as [w1 s2]. destruct H1 as [-> Hw1].
  pose proof (spanChars_app isWord s2) as H2. destruct (spanChars isWord s2) as [k s3]. destruct H2 as [-> Hk].
  pose proof (spanChars_app isSpace s3) as H3. destruct (spanChars isSpace s3) as [w2 s4]. destruct H3 as [-> Hw2].
  destruct (stripPrefix "}}" s4) as [s5|] eqn:E5; [|done]. apply stripPrefix_app in E5 as ->. cbn [mbind option_bind].
  destruct (k === ""); [done|]. intros [= -> ->].
  exists "{"%char, ("{" ++ w1 ++ key ++ w2 ++ "}}"). split.
  - rewrite !append_cons, !append_assoc. reflexivity.
  - rewrite markup_cons, !markup_app, (markup_none isSpace w1), (markup_none isSpace w2), (markup_none isWord key); auto using plain_chars.
Qed.

Definition partMarkup (p : Part) : string := match p with Literal c => markup (String c EmptyString) | Token _ => EmptyString end.
Fixpoint partsMarkup (parts : list Part) : string :=
  match parts with [] => EmptyString | p :: rest => partMarkup p ++ partsMarkup rest end.

Lemma drop_str_app a b : drop_str (String.length a) (a ++ b) = b.
Proof. induction a as [|c a IH]; [by destruct b|exact IH]. Qed.

(** The template's markup is all in its literal parts. *)
Lemma templateParts_markup s : forall skip, partsMarkup (templateParts skip s) = markup (drop_str skip s).
Proof.
  induction s as [|c s IH]; intros skip; [by destruct skip|]. cbn [templateParts]. destruct skip as [|skip]; [|exact (IH skip)].
  destruct (matchToken (String c s)) as [[key after]|] eqn:E; cbn [partsMarkup partMarkup]; rewrite IH.
  - apply matchToken_spec in E as (d & token & Heq & Hm). injection Heq as -> Hs.
    subst s. assert (String.length (String d (token ++ after)) - String.length after - 1 = String.length token) as ->.
    { cbn [String.length]. rewrite length_append. lia. }
    rewrite drop_str_app. change (drop_str 0 (String d (token ++ after))) with (String d token ++ after).
    by rewrite markup_app, Hm.
  - change (drop_str 0 s) with s. by rewrite <- markup_app.
Qed.

(** C40: no value can inject markup: the tags, attributes and quotes of a rendered message are those of its template,
    in their order, whatever is substituted. *)
Theorem html_injection_free template values html :
  interpolate template values true = Ok html -> markup html = markup template.
Proof.
  unfold interpolate. intros Hr. rewrite <- (templateParts_markup template 0 : _ = markup template).
  revert html Hr. generalize (templateParts 0 template). intros parts.
  induction parts as [|[c|key] rest IH]; cbn [renderParts partsMarkup partMarkup]; intros html Hr; [by injection Hr as <-|..].
  - destruct (renderParts true values rest) as [out|]; [|done]. injection Hr as <-.
    rewrite string_cons, markup_app. by rewrite (IH out).
  - destruct (assoc key values) as [value|]; [|done]. destruct (renderParts true values rest) as [out|]; [|done].
    injection Hr as <-. rewrite markup_app, markup_escaped. by rewrite (IH out).
Qed.

Lemma html_injection_free_witness : exists html,
  interpolate "<p>{{name}}</p>" [("name", "<script>alert({{name}})</script>")] true = Ok html /\ markup html = "<><>".
Proof. eexists. split; [reflexivity|]. apply (html_injection_free "<p>{{name}}</p>" [("name", "<script>alert({{name}})</script>")]). reflexivity. Defined.
