(* ===== verification/Senders.v ===== *)
(** * Notification senders

    modules/notifications/providers.ts and email-transport.ts: what each kind of event sends, to whom, and when it is
    held back. The SMTP client, Twilio and FCM are parameters; without one a sender is in log mode. zod's formats
    and the setting of a URL's query are parameters too. *)

From Stdlib Require Import ZArith Lia Bool.
From S2P Require Import Prelude Store Database JsString JsonText Platform Request TenantScope Notifications Templates Worker.

Open Scope string_scope.

(** ** email-transport.ts *)

Record EmailMessage := mkEmailMessage {
  em_to : string; em_subject : string; em_text : string; em_html : string;
  em_headers : option (list (string * string)); em_deliveryId : option string
}.

(** [send] resolves with the message's identifier, if any. *)
Record EmailTransport := mkEmailTransport {
  et_provider : string; et_send : EmailMessage -> Proc World (option string)
}.

(** [sendMail] is nodemailer's, on a message and its [messageId]. *)
Definition createSmtpEmailTransport (sendMail : EmailMessage -> option string -> Proc World Json) : EmailTransport :=
  mkEmailTransport "smtp" (fun message =>
    let messageId := (fun d => "<" ++ d ++ "@backend-notifications.local>")
                       <$> (if truthy (em_deliveryId message) then em_deliveryId message else None) in
    result ← sendMail message messageId;
    mret (match jget "messageId" result with Some (JStr m) => Some m | _ => None end)).

Definition createLogEmailTransport : EmailTransport :=
  mkEmailTransport "log" (fun message =>
    mret ((fun d => "log:" ++ d) <$> (if truthy (em_deliveryId message) then em_deliveryId message else None))).

(** ** The payloads *)

Record Destination := mkDestination {
  dst_destination : string; dst_userId : option string; dst_organizationId : option string; dst_locale : option string
}.
Record OtpPayload := mkOtpPayload {
  op_to : Destination; op_challengeId : string; op_encryptedCode : string; op_purpose : option string
}.
Record InvitationPayload := mkInvitationPayload {
  ip_to : Destination; ip_encryptedToken : string; ip_organizationName : string; ip_expiresInDays : string
}.
Record AnnouncementPayload := mkAnnouncementPayload {
  ap_to : Destination; ap_userId : string; ap_headline : string; ap_message : string; ap_actionUrl : string
}.
Record PushPayload := mkPushPayload {
  pp_userId : string; pp_title : string; pp_body : string; pp_data : option (list (string * string))
}.

(** A multicast message of FCM. *)
Record MulticastMessage := mkMulticast {
  mc_tokens : list string; mc_title : string; mc_body : string; mc_data : option (list (string * string))
}.

Definition OTP_EXPIRY_MINUTES : string := "5".

(** [values.slice(index, index + size)], as long as there are values. *)
Fixpoint chunksFrom {T} (fuel : nat) (values : list T) (size : nat) : list (list T) :=
  match fuel, values with
  | S fuel, _ :: _ => firstn size values :: chunksFrom fuel (skipn size values) size
  | _, _ => []
  end.
Definition chunks {T} (values : list T) (size : nat) : list (list T) := chunksFrom (length values) values size.

Section Senders.
Context `{Platform} `{TemplateFiles}.
Variable hmacDigest : string -> string -> string.
Variable zodUuid : string -> bool.
(** [url.searchParams.set('token', token)] and [url.toString()] *)
Variable withToken : Url -> string -> string.

Definition zodError {A} : res A := Err (Failure "ZodError").

(** A required string, and one that may be left out. *)
Definition requiredText (key : string) (ok : string -> bool) (j : Json) : res string :=
  match jget key j with Some (JStr s) => if ok s then Ok s else zodError | _ => zodError end.
Definition optionalText (key : string) (ok : string -> bool) (j : Json) : res (option string) :=
  match jget key j with
  | None => Ok None
  | Some (JStr s) => if ok s then Ok (Some s) else zodError
  | Some _ => zodError
  end.
Definition nonEmpty (s : string) : bool := (1 <=? String.length s)%nat.
Definition anyString (s : string) : bool := true.

(** The schemas, in the transaction monad for its sequencing. *)
Definition parseDestination (payload : Json) : Tx World Destination :=
  destination ← tx_lift (requiredText "destination" nonEmpty payload);
  userId ← tx_lift (optionalText "userId" zodUuid payload);
  organizationId ← tx_lift (optionalText "organizationId" zodUuid payload);
  locale ← tx_lift (optionalText "locale" anyString payload);
  mret (mkDestination destination userId organizationId locale).

Definition otpPurposes : list string := ["SIGNUP"; "LOGIN"; "VERIFY_EMAIL"; "VERIFY_PHONE"; "PASSWORD_RESET"; "EMAIL_CHANGE"].

Definition parseOtp (payload : Json) : Tx World OtpPayload :=
  to ← parseDestination payload;
  challengeId ← tx_lift (requiredText "challengeId" zodUuid payload);
  encryptedCode ← tx_lift (requiredText "encryptedCode" nonEmpty payload);
  purpose ← tx_lift (optionalText "purpose" (fun p => mem p otpPurposes) payload);
  mret (mkOtpPayload to challengeId encryptedCode purpose).

Definition parseInvitation (payload : Json) : Tx World InvitationPayload :=
  to ← parseDestination payload;
  _ ← tx_lift (requiredText "invitationId" zodUuid payload);
  encryptedToken ← tx_lift (requiredText "encryptedToken" nonEmpty payload);
  organizationName ← tx_lift (requiredText "organizationName" nonEmpty payload);
  expiresInDays ← tx_lift (optionalText "expiresInDays" anyString payload);
  mret (mkInvitationPayload to encryptedToken organizationName (expiresInDays ??? "7")).

Definition parseAnnouncement (payload : Json) : Tx World AnnouncementPayload :=
  to ← parseDestination payload;
  userId ← tx_lift (requiredText "userId" zodUuid payload);
  _ ← tx_lift (requiredText "topic" (fun t => t === "product_updates") payload);
  headline ← tx_lift (requiredText "headline" nonEmpty payload);
  message ← tx_lift (requiredText "message" nonEmpty payload);
  actionUrl ← tx_lift (requiredText "actionUrl" zodUrl payload);
  mret (mkAnnouncementPayload to userId headline message actionUrl).

(** ** What the senders ask the database *)

Definition isSuppressed (destination : string) : Tx World bool :=
  hashes ← tx_lift (candidateMetadataHashes (normalizeEmail destination));
  found ← tx_findFirst (fun s => mem (sup_destinationHash s) hashes && is_null (sup_deletedAt s));
  mret (is_set found).

Definition resolvedLocale (userId requested : option string) : Tx World (option string) :=
  if truthy requested || negb (truthy userId) then mret requested
  else
    user ← tx_findFirst (fun u => (user_id u === (userId ??? "")) && is_null (user_deletedAt u));
    mret (user_locale <$> user).

(** The challenge a code belongs to, if the code is still of use. *)
Definition usableChallenge (amb : Ambient) (challengeId : string) : Tx World (option OtpChallenge) :=
  tx_findFirst (fun c => (otp_id c === challengeId) && is_null (otp_consumedAt c) && is_null (otp_lockedAt c)
    && is_null (otp_deletedAt c) && (nowMs amb <? otp_expiresAt c)%Z).

(** [challenge.user?.locale] *)
Definition challengeLocale (challenge : OtpChallenge) : Tx World (option string) :=
  match otp_userId challenge with
  | None => mret None
  | Some userId => user ← tx_findFirst_raw (fun u => user_id u === userId); mret (user_locale <$> user)
  end.

Definition unsubscribeHeaders (amb : Ambient) (isTransactional : bool) (userId topic : option string)
    : res (option (list (string * string))) :=
  if isTransactional then Ok None
  else
    let mailto := "mailto:" ++ EMAIL_FROM env ++ "?subject=unsubscribe" in
    if (EMAIL_UNSUBSCRIBE_URL env === EmptyString) || negb (truthy userId) || negb (truthy topic) then
      Ok (Some [("List-Unsubscribe", "<" ++ mailto ++ ">")])
    else match parseUrl (EMAIL_UNSUBSCRIBE_URL env) with
         | None => Err (TypeError "Invalid URL")
         | Some url =>
             let href := withToken url (createUnsubscribeToken hmacDigest amb (userId ??? "") (topic ??? "") 30) in
             Ok (Some [("List-Unsubscribe", "<" ++ href ++ ">, <" ++ mailto ++ ">");
                       ("List-Unsubscribe-Post", "List-Unsubscribe=One-Click")])
         end.

(** ** sendEmail *)

Definition held (provider : string) : ProviderDeliveryResult := mkDeliveryResult suppressed provider None None.

(** The message handed to the transport, or the reason it is held back. *)
Inductive Prepared := Held (provider : string) | Message (key : EmailTemplateKey) (message : EmailMessage).

Definition compose (deliveryId : option string) (to : string) (key : EmailTemplateKey) (variables : list (string * string))
    (locale : option string) (headers : bool -> res (option (list (string * string)))) : Tx World Prepared :=
  rendered ← tx_lift (renderEmailTemplate key variables locale);
  headers ← tx_lift (headers (re_transactional rendered));
  mret (Message key (mkEmailMessage to (re_subject rendered) (re_text rendered) (re_html rendered) headers deliveryId)).

Definition prepareOtp (amb : Ambient) (deliveryId : option string) (payload : Json) : Tx World Prepared :=
  value ← parseOtp payload;
  challenge ← usableChallenge amb (op_challengeId value);
  match challenge with
  | None => mret (Held "policy")
  | Some challenge =>
      locale ← challengeLocale challenge;
      isHeld ← isSuppressed (dst_destination (op_to value));
      if isHeld : bool then mret (Held "suppression-list")
      else
        code ← tx_lift (decryptSecret (op_encryptedCode value));
        compose deliveryId (dst_destination (op_to value))
          (if op_purpose value === Some "PASSWORD_RESET" then auth_password_reset_otp else auth_verification_otp)
          [("code", code); ("expiresInMinutes", OTP_EXPIRY_MINUTES)]
          (match dst_locale (op_to value) with Some l => Some l | None => locale end)
          (fun t => unsubscribeHeaders amb t None None)
  end.

Definition prepareSignupExisting (amb : Ambient) (deliveryId : option string) (payload : Json) : Tx World Prepared :=
  value ← parseDestination payload;
  isHeld ← isSuppressed (dst_destination value);
  if isHeld : bool then mret (Held "suppression-list")
  else
    locale ← resolvedLocale (dst_userId value) (dst_locale value);
    compose deliveryId (dst_destination value) auth_signup_existing [] locale (fun t => unsubscribeHeaders amb t None None).

Definition prepareInvitation (deliveryId : option string) (payload : Json) : Tx World Prepared :=
  value ← parseInvitation payload;
  isHeld ← isSuppressed (dst_destination (ip_to value));
  if isHeld : bool then mret (Held "suppression-list")
  else
    actionUrl ← tx_require (resolveUrl "/invitations/accept" (APP_ORIGIN env)) (TypeError "Invalid URL");
    token ← tx_lift (decryptSecret (ip_encryptedToken value));
    locale ← resolvedLocale (dst_userId (ip_to value)) (dst_locale (ip_to value));
    compose deliveryId (dst_destination (ip_to value)) organization_invitation
      [("organizationName", ip_organizationName value); ("actionUrl", withToken actionUrl token);
       ("expiresInDays", ip_expiresInDays value)] locale (fun _ => Ok None).

(** [notificationAllowed] is asked only when the address is not suppressed. *)
Definition prepareAnnouncement (amb : Ambient) (deliveryId : option string) (payload : Json) : Tx World Prepared :=
  value ← parseAnnouncement payload;
  isHeld ← isSuppressed (dst_destination (ap_to value));
  allowed ← (if isHeld : bool then mret false
             else notificationAllowed amb (ap_userId value) Ch_EMAIL "product_updates" (dst_organizationId (ap_to value)));
  if negb allowed then mret (Held "preference-policy")
  else
    locale ← resolvedLocale (Some (ap_userId value)) (dst_locale (ap_to value));
    compose deliveryId (dst_destination (ap_to value)) product_announcement
      [("headline", ap_headline value); ("message", ap_message value); ("actionUrl", ap_actionUrl value)] locale
      (fun t => unsubscribeHeaders amb t (Some (ap_userId value)) (Some "product_updates")).

Definition prepareEmail (amb : Ambient) (deliveryId : option string) (eventType : string) (payload : Json) : Tx World Prepared :=
  if eventType === "auth.otp" then prepareOtp amb deliveryId payload
  else if eventType === "auth.signup_existing" then prepareSignupExisting amb deliveryId payload
  else if eventType === "organization.invitation" then prepareInvitation deliveryId payload
  else if eventType === "product.announcement" then prepareAnnouncement amb deliveryId payload
  else tx_throw (Failure ("Unsupported email event: " ++ eventType)).

Definition sendEmail (transport : EmailTransport) (amb : Ambient) (deliveryId : option string) (eventType : string)
    (payload : Json) : Proc World ProviderDeliveryResult :=
  prepared ← transact (prepareEmail amb deliveryId eventType payload);
  match prepared with
  | Held provider => mret (held provider)
  | Message key message =>
      messageId ← et_send transport message;
      mret (mkDeliveryResult sent (et_provider transport) messageId (Some (templateName key)))
  end.

(** ** sendSms: [twilio] answers the message's sid *)

Definition sendSms (twilio : option (string -> string -> Proc World string)) (amb : Ambient) (eventType : string)
    (payload : Json) : Proc World ProviderDeliveryResult :=
  if eventType !== "auth.otp" then throw (Failure ("Unsupported SMS event: " ++ eventType))
  else
    value ← transact (parseOtp payload);
    challenge ← transact (usableChallenge amb (op_challengeId value));
    match challenge with
    | None => mret (held "policy")
    | Some _ =>
        code ← transact (tx_lift (decryptSecret (op_encryptedCode value)));
        let body := (if op_purpose value === Some "PASSWORD_RESET" then "Your password reset code" else "Your verification code")
                    ++ " is " ++ code ++ ". It expires in 5 minutes." in
        match twilio with
        | None => mret (mkDeliveryResult sent "log" None None)
        | Some create =>
            sid ← create (dst_destination (op_to value)) body;
            mret (mkDeliveryResult sent "twilio" (Some sid) None)
        end
    end.

(** ** sendPush *)

Definition stringFields (fields : list (string * Json)) : option (list (string * string)) :=
  List.fold_right (fun kv out => match snd kv, out with JStr s, Some out => Some ((fst kv, s) :: out) | _, _ => None end) (Some []) fields.

Definition parsePush (payload : Json) : Tx World PushPayload :=
  userId ← tx_lift (requiredText "userId" zodUuid payload);
  title ← tx_lift (requiredText "title" (bounded 100) payload);
  body ← tx_lift (requiredText "body" (bounded 500) payload);
  data ← tx_lift (match jget "data" payload with
                  | None => Ok None
                  | Some (JObj fields) => match stringFields fields with Some d => Ok (Some d) | None => zodError end
                  | Some _ => zodError
                  end);
  mret (mkPushPayload userId title body data).

(** [value.data || context ? { data } : {}] *)
Definition pushData (value : PushPayload) (deliveryId : option string) : option (list (string * string)) :=
  match pp_data value, deliveryId with
  | None, None => None
  | data, _ => Some (spread (data ??? []) (match deliveryId with Some d => [("notificationDeliveryId", d)] | None => [] end))
  end.

Definition staleCode (code : option string) : bool :=
  (code === Some "messaging/registration-token-not-registered") || (code === Some "messaging/invalid-argument").

(** The tokens whose response is an error that means they are dead; a response without a token has none. *)
Fixpoint staleTokens (batch : list string) (codes : list (option string)) : list string :=
  match batch, codes with
  | token :: batch, code :: codes => if staleCode code then token :: staleTokens batch codes else staleTokens batch codes
  | _, _ => []
  end.

(** One batch after the other; [multicast] answers the error code of each token. *)
Fixpoint pushBatches (multicast : MulticastMessage -> Proc World (list (option string))) (message : list string -> MulticastMessage)
    (batches : list (list string)) : Proc World unit :=
  match batches with
  | [] => mret tt
  | batch :: rest =>
      codes ← multicast (message batch);
      let stale := staleTokens batch codes in
      _ ← (if (0 <? length stale)%nat then transact (tx_deleteMany (fun d => mem (dev_fcmToken d) stale)) else mret 0);
      pushBatches multicast message rest
  end.

Definition sendPush (firebase : option (MulticastMessage -> Proc World (list (option string)))) (deliveryId : option string)
    (payload : Json) : Proc World ProviderDeliveryResult :=
  value ← transact (parsePush payload);
  devices ← transact (tx_findMany (fun d => (dev_userId d === pp_userId value) && is_null (dev_deletedAt d)));
  if (length devices =? 0)%nat then mret (held "policy")
  else match firebase with
  | None => mret (mkDeliveryResult sent "log" None None)
  | Some multicast =>
      pushBatches multicast (fun batch => mkMulticast batch (pp_title value) (pp_body value) (pushData value deliveryId))
        (chunks (List.map dev_fcmToken devices) 500);;
      mret (mkDeliveryResult sent "firebase" None None)
  end.
End Senders.
