(* ===== verification/Calendar.v ===== *)
(** * Months only go forward

    [JsString.civil] is the calendar behind [Date.UTC]; from one day to the next the day of the month grows by one
    or starts again at one, so the start of an instant's month never goes back. *)

From Stdlib Require Import ZArith Lia List Bool.
From S2P Require Import Prelude JsString Uploads.

#[local] Open Scope Z_scope.

(** The year of a day of the era, as [civil] computes it: eras of 146097 days start in March. *)
Definition yoe (doe : Z) : Z := (doe - doe / 1460 + doe / 36524 - doe / 146096) / 365.
(** The first day of a year of the era (years start in March), and of the next era after the last. *)
Definition yearStart (y : Z) : Z := if y =? 400 then 146097 else 365 * y + y / 4 - y / 100.

Definition yearOk (y : Z) : bool := (yearStart y <? yearStart (y + 1)) && (0 <=? yearStart y) && (yearStart (y + 1) <=? 146097)
  && (yoe (yearStart y) =? y) && (yoe (yearStart (y + 1) - 1) =? y).
Lemma years_ok : forall y, 0 <= y < 400 -> yearOk y = true.
Proof.
  assert (Hs : forallb (fun n => yearOk (Z.of_nat n)) (seq 0 400) = true) by (vm_compute; reflexivity).
  rewrite forallb_forall in Hs. intros y Hy. rewrite <- (Z2Nat.id y) by lia. apply Hs, in_seq. lia.
Qed.

Lemma yoe_mono a b : 0 <= a -> a <= b -> b <= 146096 -> yoe a <= yoe b.
Proof.
  intros Ha Hab Hb. unfold yoe. apply Z.div_le_mono; [done|].
  replace b with (a + Z.of_nat (Z.to_nat (b - a))) in * by lia. generalize dependent (Z.to_nat (b - a)). clear b.
  intros n _. induction n as [|n IH]; intros Hb; [rewrite Z.add_0_r; lia|].
  etransitivity; [apply IH; lia|]. set (d := a + Z.of_nat n) in *.
  replace (a + Z.of_nat (S n)) with (d + 1) in * by lia. assert (0 <= d) by lia. clearbody d. clear IH.
  destruct (Z.eq_dec d 146095) as [->|]; [vm_compute; discriminate|].
  rewrite (Z.div_small d 146096), (Z.div_small (d + 1) 146096) by lia.
  Z.to_euclidean_division_equations; lia.
Qed.

Lemma year_facts y : 0 <= y < 400 -> 0 <= yearStart y < yearStart (y + 1) /\ yearStart (y + 1) <= 146097
  /\ yoe (yearStart y) = y /\ yoe (yearStart (y + 1) - 1) = y.
Proof.
  intros Hy. pose proof (years_ok y Hy) as Hok. unfold yearOk in Hok. rewrite !andb_true_iff in Hok.
  destruct Hok as [[[[H1 H2] H3] H4] H5]. apply Z.ltb_lt in H1. apply Z.leb_le in H2, H3. apply Z.eqb_eq in H4, H5. lia.
Qed.

Lemma year_of doe y : 0 <= y < 400 -> yearStart y <= doe < yearStart (y + 1) -> yoe doe = y.
Proof.
  intros Hy Hd. destruct (year_facts y Hy) as (H1 & H2 & H3 & H4).
  pose proof (yoe_mono (yearStart y) doe). pose proof (yoe_mono doe (yearStart (y + 1) - 1)). lia.
Qed.

Lemma year_ex doe : 0 <= doe < 146097 -> exists y, 0 <= y < 400 /\ yearStart y <= doe < yearStart (y + 1).
Proof.
  intros [H0 Hb]. assert (Hn : forall n, (n <= 400)%nat -> doe < yearStart (Z.of_nat n) ->
    exists y, 0 <= y < 400 /\ yearStart y <= doe < yearStart (y + 1)); [|by apply (Hn 400%nat)].
  induction n as [|n IH]; [intros _ Hlt; change (doe < 0) in Hlt; lia|]. intros Hle Hlt.
  destruct (Z_lt_le_dec doe (yearStart (Z.of_nat n))) as [|Hge]; [apply IH; [lia|done]|].
  exists (Z.of_nat n). split; [lia|]. split; [done|]. by rewrite Nat2Z.inj_succ in Hlt.
Qed.

(** The day of its year, from 0. *)
Definition dayOfYear (doe : Z) : Z := doe - (365 * yoe doe + yoe doe / 4 - yoe doe / 100).
Lemma dayOfYear_step doe : 0 <= doe < 146097 ->
  0 <= dayOfYear doe /\ (dayOfYear ((doe + 1) mod 146097) = dayOfYear doe + 1 \/ dayOfYear ((doe + 1) mod 146097) = 0).
Proof.
  intros Hd. destruct (year_ex doe Hd) as (y & Hy & Hs).
  assert (Hoff : forall d y, 0 <= y < 400 -> yearStart y <= d < yearStart (y + 1) -> dayOfYear d = d - yearStart y).
  { intros d y' Hy' Hd'. unfold dayOfYear. rewrite (year_of d y' Hy' Hd'). unfold yearStart.
    destruct (Z.eqb_spec y' 400); [lia|done]. }
  rewrite (Hoff doe y Hy Hs). split; [lia|].
  destruct (Z.eq_dec doe 146096) as [->|]; [by right|]. rewrite Z.mod_small by lia.
  destruct (Z.eq_dec (doe + 1) (yearStart (y + 1))) as [He|Hne].
  - right. assert (y + 1 < 400) by (destruct (Z.eq_dec (y + 1) 400) as [E|]; [rewrite E in He; cbn in He; lia|lia]).
    destruct (year_facts (y + 1)) as ((_ & H1) & _); [lia|]. rewrite (Hoff (doe + 1) (y + 1)); lia.
  - left. rewrite (Hoff (doe + 1) y); lia.
Qed.

Definition dayOfMonth (t : Z) : Z := snd (civil t).

Lemma dayOfMonth_year t : dayOfMonth t =
  let doy := dayOfYear ((t + 719468) mod 146097) in doy - (153 * ((5 * doy + 2) / 153) + 2) / 5 + 1.
Proof. done. Qed.

(** A day is followed by the next of its month or by a first. *)
Lemma day_follows t : 1 <= dayOfMonth t /\ (dayOfMonth (t + 1) = dayOfMonth t + 1 \/ dayOfMonth (t + 1) = 1).
Proof.
  rewrite !dayOfMonth_year. cbv zeta. set (doe := (t + 719468) mod 146097).
  assert (Hdoe : 0 <= doe < 146097) by (by apply Z.mod_pos_bound).
  replace ((t + 1 + 719468) mod 146097) with ((doe + 1) mod 146097)
    by (unfold doe; rewrite Z.add_mod_idemp_l by done; f_equal; lia).
  destruct (dayOfYear_step doe Hdoe) as [H0 [H1|H1]]; rewrite H1; clear H1;
    generalize dependent (dayOfYear doe); intros doy H0; (split; [Z.to_euclidean_division_equations; lia|]).
  - Z.to_euclidean_division_equations; lia.
  - by right.
Qed.

Lemma monthStart_day t : monthStart t = (t / DAY - (dayOfMonth (t / DAY) - 1)) * DAY.
Proof. unfold monthStart, dayOfMonth. by destruct (civil (t / DAY)) as [[y m] d]. Qed.

Lemma monthStart_mono t t' : t <= t' -> monthStart t <= monthStart t'.
Proof.
  intros Ht. rewrite !monthStart_day. apply Z.mul_le_mono_nonneg_r; [done|].
  assert (Hd : t / DAY <= t' / DAY) by (by apply Z.div_le_mono).
  replace (t' / DAY) with (t / DAY + Z.of_nat (Z.to_nat (t' / DAY - t / DAY))) by lia.
  generalize (Z.to_nat (t' / DAY - t / DAY)). intros n. clear Ht Hd. induction n as [|n IH].
  - change (Z.of_nat 0) with 0. rewrite Z.add_0_r. lia.
  - replace (t / DAY + Z.of_nat (S n)) with (t / DAY + Z.of_nat n + 1) by lia.
    destruct (day_follows (t / DAY + Z.of_nat n)) as [H1 [H2|H2]]; rewrite H2; lia.
Qed.
