(* ===== verification/Maintenance.v ===== *)
(** * Retention and abandoned uploads

    maintenance/retention.ts, maintenance/upload-cleanup.ts and the two entry points that run them
    (maintenance/cleanup.ts and the retention job of scheduler/scheduler.registry.ts). Every pass deletes a batch
    after another; the loops take fuel and answer [None] when it runs out. They run
    outside any tenant scope, where the extension changes no query. [signal] says whether, and why, the run
    has been aborted by the time the state is this one: a run may be aborted at any point.

    [expirePendingUploads] of maintenance/upload-cleanup.ts: it ends, it fails only overdue uploads that are still
    pending, each after its object was removed, and it counts them; and with a full batch it passes an upload over. *)

From Stdlib Require Import ZArith Lia Bool.
From stdpp Require Import sorting.
From S2P Require Import Prelude Store Database JsString Platform Request TenantScope UploadStorage Uploads.

Open Scope string_scope.

Definition DAY_MS : Z := 86400000.

(** An option left out is [None]; a [now] that is not a valid date is [Some None]. *)
Record RetentionCleanupOptions := mkRetentionOptions {
  ro_dataRetentionDays : option Z; ro_auditRetentionDays : option Z; ro_batchSize : option Z; ro_now : option (option Z)
}.

Record DeletedCounts := mkDeletedCounts {
  dc_auditEvents : Z; dc_idempotencyRecords : Z; dc_invitations : Z; dc_otpChallenges : Z; dc_outboxEvents : Z;
  dc_sessions : Z; dc_stripeWebhookEvents : Z; dc_uploads : Z; dc_uploadBandwidthRows : Z
}.

Record RetentionCleanupResult := mkRetentionResult {
  rr_auditDeletionEnabled : bool; rr_dataCutoff : Z; rr_auditCutoff : option Z; rr_deleted : DeletedCounts
}.

(** [{ lt: cutoff }] on a nullable column. *)
Definition before (cutoff : Z) (column : option Z) : bool := match column with Some t => (t <? cutoff)%Z | None => false end.

(** ** The where of each pass *)

Definition expiredRecord (now : Z) (r : IdempotencyRecord) : bool :=
  (idem_expiresAt r <? now)%Z && is_set (idem_statusCode r)
  && match idem_response r with None | Some JNull => false | Some _ => true end.

Definition staleInvitation (cutoff : Z) (i : Invitation) : bool :=
  (inv_expiresAt i <? cutoff)%Z || before cutoff (inv_acceptedAt i) || before cutoff (inv_revokedAt i).

Definition staleBandwidth (cutoff : Z) (b : UploadBandwidthUsage) : bool := (bw_periodStart b <? cutoff)%Z.
Definition staleChallenge (cutoff : Z) (c : OtpChallenge) : bool := (otp_expiresAt c <? cutoff)%Z.
Definition staleSession (cutoff : Z) (s : Session) : bool :=
  (sess_expiresAt s <? cutoff)%Z || before cutoff (sess_revokedAt s).

Definition outboxTerminalStatus (s : OutboxStatus) : bool := (s === Ob_DELIVERED) || (s === Ob_DEAD_LETTER).
Definition staleOutbox (cutoff : Z) (e : OutboxEvent) : bool :=
  outboxTerminalStatus (ob_status e) && (ob_updatedAt e <? cutoff)%Z.
Definition staleWebhook (cutoff : Z) (e : StripeWebhookEvent) : bool :=
  (swe_status e === Swe_PROCESSED) && (swe_createdAt e <? cutoff)%Z.
Definition staleUpload (cutoff : Z) (u : Upload) : bool :=
  ((up_status u === Up_FAILED) || (up_status u === Up_DELETED)) && (up_updatedAt u <? cutoff)%Z.
Definition staleAudit (cutoff : Z) (e : AuditEvent) : bool := (aud_createdAt e <? cutoff)%Z.

(** ** What the foreign keys take along (prisma/schema.prisma, [onDelete]) *)

(** The session of a refresh token: [Cascade]; the token that replaced one: set to null. *)
Definition cascadeSessions (gone : list Session) (w : World) : World :=
  let dead t := mem (rt_sessionId t) (List.map sess_id gone) in
  let deadTokens := List.map rt_id (findMany dead (refreshTokens w)) in
  w <| refreshTokens ::= fun l =>
         updateWhere (fun t => match rt_replacedByTokenId t with Some r => mem r deadTokens | None => false end)
           (fun t => t <| rt_replacedByTokenId := None |>) (deleteWhere dead l) |>.
(** The challenge of a password reset token: [Cascade]. *)
Definition cascadeChallenges (gone : list OtpChallenge) (w : World) : World :=
  w <| passwordResetTokens ::= deleteWhere (fun t => mem (prt_otpChallengeId t) (List.map otp_id gone)) |>.
(** The event of a delivery: [Cascade]. *)
Definition cascadeOutbox (gone : list OutboxEvent) (w : World) : World :=
  w <| notificationDeliveries ::= deleteWhere (fun d => mem (del_outboxEventId d) (List.map ob_id gone)) |>.
Definition cascadeNothing {R} (gone : list R) (w : World) : World := w.

(** [x ⇐ m; k]: the rest of a handler after a loop that may run out of fuel. *)
Definition andThen {A B} (m : Proc World (option A)) (k : A -> Proc World (option B)) : Proc World (option B) :=
  r ← m; match r with Some a => k a | None => mret None end.
Notation "x ⇐ m ; k" := (andThen m (fun x => k)) (at level 100, m at next level, k at level 200, right associativity).

Section Retention.
Context `{Platform}.
Variable signal : World -> option Error.

(** [signal?.throwIfAborted()] *)
Definition throwIfAborted : Proc World unit := fun w => match signal w with Some e => (Err e, w) | None => (Ok tt, w) end.

(** [while (true)] of [deleteInBatches] *)
Fixpoint deleteLoop (fuel : nat) (batchSize : Z) (selectBatch : nat -> Tx World (list string))
    (deleteBatch : list string -> Tx World nat) (deleted : Z) : Proc World (option Z) :=
  match fuel with
  | 0 => mret None
  | S fuel =>
      throwIfAborted;;
      rows ← transact (selectBatch (Z.to_nat batchSize));
      if (length rows =? 0)%nat then mret (Some deleted)
      else
        throwIfAborted;;
        count ← transact (deleteBatch rows);
        let deleted := (deleted + Z.of_nat count)%Z in
        if (Z.of_nat (length rows) <? batchSize)%Z then mret (Some deleted)
        else deleteLoop fuel batchSize selectBatch deleteBatch deleted
  end.

Definition deleteInBatches (fuel : nat) (batchSize : Z) (selectBatch : nat -> Tx World (list string))
    (deleteBatch : list string -> Tx World nat) : Proc World (option Z) :=
  if (batchSize <? 1)%Z then throw (TypeError "batchSize must be a positive integer")
  else deleteLoop fuel batchSize selectBatch deleteBatch 0.

(** [findMany({ where, select: { id: true }, orderBy, take })] *)
Definition selectIds {R} `{Model World R} (id : R -> string) (orderBy : list R -> list R) (where_ : R -> bool) (take : nat) :
    Tx World (list string) :=
  rows ← tx_findMany where_; mret (List.map id (firstn take (orderBy rows))).

(** [deleteMany({ where: { id: { in: ids }, ...where } })], with what its foreign keys take along. *)
Definition deleteIds {R} `{Model World R} (id : R -> string) (where_ : R -> bool) (cascade : list R -> World -> World)
    (ids : list string) : Tx World nat := fun w =>
  let gone := findMany (activeWhere (fun r => mem (id r) ids && where_ r)) (table w) in
  Ok (length gone, cascade gone (put (deleteWhere (activeWhere (fun r => mem (id r) ids && where_ r))) w)).

Definition purge {R} `{Model World R} (fuel : nat) (batchSize : Z) (id : R -> string) (orderBy : list R -> list R)
    (where_ : R -> bool) (cascade : list R -> World -> World) : Proc World (option Z) :=
  deleteInBatches fuel batchSize (selectIds id orderBy where_) (deleteIds id where_ cascade).

(** [orderBy: { id: 'asc' }] *)
Definition byId {R} (id : R -> string) : list R -> list R := orderAscId (fun _ => 0%Z) id.

Definition validateRetentionDays (name : string) (days : Z) (allowZero : bool) : Tx World unit :=
  tx_guard (negb (days <? (if allowZero then 0 else 1))%Z)
    (TypeError (name ++ " must be " ++ (if allowZero then "a non-negative" else "a positive") ++ " integer")).

(** The nine passes. *)
Definition retentionPasses (fuel : nat) (batchSize now dataCutoff : Z) (auditCutoff : option Z) :
    Proc World (option RetentionCleanupResult) :=
  let bandwidthCutoff := monthStart dataCutoff in
  idempotencyRecords_ ⇐ purge fuel batchSize idem_id (orderByAsc idem_expiresAt) (expiredRecord now) cascadeNothing;
  invitations_ ⇐ purge fuel batchSize inv_id (byId inv_id) (staleInvitation dataCutoff) cascadeNothing;
  uploadBandwidthRows ⇐ purge fuel batchSize bw_id (orderByAsc bw_periodStart) (staleBandwidth bandwidthCutoff) cascadeNothing;
  otpChallenges_ ⇐ purge fuel batchSize otp_id (orderByAsc otp_expiresAt) (staleChallenge dataCutoff) cascadeChallenges;
  sessions_ ⇐ purge fuel batchSize sess_id (byId sess_id) (staleSession dataCutoff) cascadeSessions;
  outboxEvents_ ⇐ purge fuel batchSize ob_id (byId ob_id) (staleOutbox dataCutoff) cascadeOutbox;
  stripeWebhookEvents_ ⇐ purge fuel batchSize swe_id (orderByAsc swe_createdAt) (staleWebhook dataCutoff) cascadeNothing;
  uploads_ ⇐ purge fuel batchSize up_id (byId up_id) (staleUpload dataCutoff) cascadeNothing;
  auditEvents_ ⇐ match auditCutoff with
                 | Some cutoff => purge fuel batchSize aud_id (orderByAsc aud_createdAt) (staleAudit cutoff) cascadeNothing
                 | None => mret (Some 0%Z)
                 end;
  mret (Some (mkRetentionResult (is_set auditCutoff) dataCutoff auditCutoff
    (mkDeletedCounts auditEvents_ idempotencyRecords_ invitations_ otpChallenges_ outboxEvents_ sessions_
       stripeWebhookEvents_ uploads_ uploadBandwidthRows))).

Definition runRetentionCleanup (fuel : nat) (amb : Ambient) (options : RetentionCleanupOptions) :
    Proc World (option RetentionCleanupResult) :=
  let dataRetentionDays := ro_dataRetentionDays options ??? DATA_RETENTION_DAYS env in
  let auditRetentionDays := ro_auditRetentionDays options ??? AUDIT_RETENTION_DAYS env in
  let batchSize := ro_batchSize options ??? RETENTION_BATCH_SIZE env in
  _ ← transact (validateRetentionDays "dataRetentionDays" dataRetentionDays false);
  _ ← transact (validateRetentionDays "auditRetentionDays" auditRetentionDays true);
  _ ← transact (tx_guard (negb (batchSize <? 1)%Z) (TypeError "batchSize must be a positive integer"));
  now ← transact (tx_require (ro_now options ??? Some (nowMs amb)) (TypeError "now must be a valid date"));
  let dataCutoff := (now - dataRetentionDays * DAY_MS)%Z in
  let auditCutoff := if auditRetentionDays === 0%Z then None else Some (now - auditRetentionDays * DAY_MS)%Z in
  retentionPasses fuel batchSize now dataCutoff auditCutoff.

(** ** upload-cleanup.ts *)

Definition expirable (kind : UploadProvider) (now : Z) (u : Upload) : bool :=
  (up_provider u === kind) && (up_status u === Up_PENDING) && is_null (up_deletedAt u) && (up_uploadExpiresAt u <? now)%Z.

(** [orderBy: [{ uploadExpiresAt: 'asc' }, { id: 'asc' }]] *)
Definition byExpiry : list Upload -> list Upload := orderAscId up_uploadExpiresAt up_id.

(** [cursor: { id }, skip: 1] over a result that changes between two pages: what the database answers, of the whole
    table, from the row of the cursor on. *)
Variable afterCursor : string -> (Upload -> bool) -> list Upload -> list Upload.

Definition expirablePage (kind : UploadProvider) (now : Z) (batchSize : nat) (cursor : option string) : Tx World (list Upload) :=
  fun w => Ok (firstn batchSize (match cursor with
                                 | Some c => afterCursor c (expirable kind now) (uploads w)
                                 | None => byExpiry (findMany (expirable kind now) (uploads w))
                                 end), w).

(** The counters [expired] and [failures] after one upload. *)
Definition expireUpload (amb : Ambient) (p : UploadProviderAdapter) (counts : Z * Z) (upload : Upload) : Proc World (Z * Z) :=
  throwIfAborted;;
  try_catch
    (_ ← deleteObject p (mkObjectRef (up_objectKey upload) (up_contentType upload) None);
     updated ← transact (tx_updateMany (fun u => (up_id u === up_id upload) && (up_status u === Up_PENDING))
                 (fun u => u <| up_status := Up_FAILED |> <| up_updatedAt := nowMs amb |>));
     mret (fst counts + Z.of_nat updated, snd counts)%Z)
    (fun _ => mret (fst counts, snd counts + 1)%Z).

Fixpoint expireBatch (amb : Ambient) (p : UploadProviderAdapter) (batch : list Upload) (counts : Z * Z) : Proc World (Z * Z) :=
  match batch with
  | [] => mret counts
  | upload :: rest => counts ← expireUpload amb p counts upload; expireBatch amb p rest counts
  end.

Fixpoint expireLoop (fuel : nat) (amb : Ambient) (p : UploadProviderAdapter) (now : Z) (batchSize : nat)
    (cursor : option string) (counts : Z * Z) : Proc World (option (Z * Z)) :=
  match fuel with
  | 0 => mret None
  | S fuel =>
      throwIfAborted;;
      batch ← transact (expirablePage (providerKind p) now batchSize cursor);
      counts ← expireBatch amb p batch counts;
      if (length batch <? batchSize)%nat then mret (Some counts)
      else expireLoop fuel amb p now batchSize (up_id <$> List.last (List.map Some batch) None) counts
  end.

(** [{ expired, failures }] *)
Definition expirePendingUploads (fuel : nat) (amb : Ambient) (provider : option UploadProviderAdapter)
    (now : option Z) (batchSize : option nat) : Proc World (option (Z * Z)) :=
  match provider with
  | None => mret (Some (0, 0)%Z)
  | Some p => expireLoop fuel amb p (now ??? nowMs amb) (batchSize ??? 500) None (0, 0)%Z
  end.

(** The body of cleanup.ts and of the retention job. *)
Definition retentionJob (fuel : nat) (provider : option UploadProviderAdapter) (amb : Ambient) :
    Proc World (option (RetentionCleanupResult * (Z * Z))) :=
  withoutTenantScope "retention-cleanup" (fun amb =>
    expiredUploads ⇐ expirePendingUploads fuel amb provider None (Some (Z.to_nat (RETENTION_BATCH_SIZE env)));
    result ⇐ runRetentionCleanup fuel amb (mkRetentionOptions None None None None);
    mret (Some (result, expiredUploads))) amb.
End Retention.

(** ** The sweep of abandoned uploads *)

(** ** The order of the table *)

(** Where an identifier stands in a list: its length if it does not occur. *)
Fixpoint place (s : string) (l : list string) : nat :=
  match l with [] => 0 | x :: l' => if x === s then 0 else S (place s l') end.

(** The identifiers of a table in the order of [orderBy: [{ uploadExpiresAt }, { id }]]. *)
Definition expiryOrder (t : list Upload) : list string :=
  List.map snd (orderAscId fst snd (List.map (fun u => (up_uploadExpiresAt u, up_id u)) t)).

Lemma place_le s l : place s l <= length l.
Proof. induction l as [|x l IH]; cbn; [lia|]. case_bool_decide; lia. Qed.

Lemma expiryOrder_update P f t : (forall u, P u = true -> up_id (f u) = up_id u /\ up_uploadExpiresAt (f u) = up_uploadExpiresAt u) ->
  expiryOrder (updateWhere P f t) = expiryOrder t.
Proof.
  intros Hf. unfold expiryOrder, updateWhere. rewrite List.map_map. do 2 f_equal. apply List.map_ext. intros u.
  destruct (P u) eqn:E; [|done]. by destruct (Hf u E) as [-> ->].
Qed.

(** What the database answers from a cursor on: rows of the where, past the cursor's place in the order. *)
Class CursorQuery (afterCursor : string -> (Upload -> bool) -> list Upload -> list Upload) := {
  cq_where : forall c P t u, In u (afterCursor c P t) -> In u t /\ P u = true;
  cq_after : forall c P t u, List.NoDup (List.map up_id t) -> In u (afterCursor c P t) ->
               place c (expiryOrder t) < place (up_id u) (expiryOrder t)
}.

Section Sweep.
Context `{Platform}.
Variables (afterCursor : string -> (Upload -> bool) -> list Upload -> list Upload) (signal : World -> option Error).
Context `{!CursorQuery afterCursor}.
Variables (p : UploadProviderAdapter) (amb : Ambient) (now : Z) (batchSize : nat) (w0 : World).
Context `{!OutsideStore p}.
Hypothesis distinct : List.NoDup (List.map up_id (uploads w0)).
Hypothesis running : forall w, signal w = None.

Notation overdue := (expirable (providerKind p) now).
Definition failedUpload (u : Upload) : Upload := u <| up_status := Up_FAILED |> <| up_updatedAt := nowMs amb |>.
Definition objectOf (u : Upload) : ObjectRef := mkObjectRef (up_objectKey u) (up_contentType u) None.
(** The storage refuses to remove the object. *)
Definition refused (u : Upload) : Prop := forall w, exists e w', deleteObject p (objectOf u) w = (Err e, w').

Record sweeping (n : Z) (w : World) : Prop := {
  sw_rows : List.Forall2 (fun u u' => u' = u \/ (overdue u = true /\ u' = failedUpload u)) (uploads w0) (uploads w);
  sw_count : (Z.of_nat (countWhere overdue (uploads w)) + n = Z.of_nat (countWhere overdue (uploads w0)))%Z;
  sw_refused : forall u, In u (uploads w0) -> refused u -> In u (uploads w)
}.

Lemma sweeping_start : sweeping 0 w0.
Proof.
  split; [|lia|done]. generalize (uploads w0). intros l. induction l; constructor; auto.
Qed.

Lemma overdue_pending u : overdue u = true -> up_status u = Up_PENDING /\ up_deletedAt u = None.
Proof. unfold expirable. intros Hu. bools. split; [done|]. by destruct (up_deletedAt u). Qed.

Lemma failed_not_overdue u : overdue (failedUpload u) = false.
Proof. unfold expirable. cbn. by rewrite !andb_false_r. Qed.

Lemma sweeping_row n w u : sweeping n w -> In u (uploads w) -> up_status u = Up_PENDING -> In u (uploads w0).
Proof.
  clear distinct. intros [Hrows _ _] Hu Hp. induction Hrows as [|x y l l' Hxy _ IH]; [done|].
  destruct Hu as [->|Hu]; [|right; by apply IH]. destruct Hxy as [->|[_ ->]]; [by left|done].
Qed.

Definition chosen (u r : Upload) : bool := activeWhere (fun r => (up_id r === up_id u) && (up_status r === Up_PENDING)) r.

(** Failing one overdue upload of the table the sweep started from. *)
Lemma sweeping_fail n w u : sweeping n w -> In u (uploads w0) -> overdue u = true -> ~ refused u ->
  sweeping (n + Z.of_nat (countWhere (chosen u) (uploads w))) (put (updateWhere (chosen u) failedUpload) w).
Proof.
  intros Hs Hu Ho Hr.
  assert (Hone : forall r, In r (uploads w) -> chosen u r = true -> r = u).
  { intros r Hin Hc. unfold chosen in Hc. cbn in Hc. bools.
    apply (NoDup_key_inj up_id (uploads w0)); [done| |done|done]. by apply (sweeping_row n w). }
  destruct Hs as [Hrows Hcount Hkeep]. split; cbn [uploads put Upload_model field_set].
  - change (List.Forall2 (fun u u' => u' = u \/ (overdue u = true /\ u' = failedUpload u)) (uploads w0)
      (updateWhere (chosen u) failedUpload (uploads w))).
    assert (Hc : forall r, In r (uploads w) -> chosen u r = true -> r = u) by done. clear Hkeep Hcount Hone Hu distinct.
    induction Hrows as [|x y l l' Hxy _ IH]; [constructor|]. cbn. constructor.
    + destruct (chosen u y) eqn:E; [|done]. rewrite (Hc y (or_introl eq_refl) E) in *. right.
      destruct Hxy as [->|[_ Hf]]; [done|]. apply overdue_pending in Ho as [Hp _]. rewrite Hf in Hp. done.
    + apply IH; intros r Hin; apply Hc; by right.
  - change (table (put (updateWhere (chosen u) failedUpload) w)) with (updateWhere (chosen u) failedUpload (uploads w)).
    assert (Hc : countWhere overdue (updateWhere (chosen u) failedUpload (uploads w)) + countWhere (chosen u) (uploads w)
                 = countWhere overdue (uploads w)).
    { assert (Hch : forall r, In r (uploads w) -> chosen u r = true -> overdue r = true) by (intros r Hin E; by rewrite (Hone r Hin E)).
      revert Hch. clear. unfold countWhere, updateWhere. induction (uploads w) as [|r t IH]; cbn; [done|]. intros Hch.
      specialize (IH (fun r' Hr' => Hch r' (or_intror Hr'))). destruct (chosen u r) eqn:E; cbn.
      - rewrite failed_not_overdue, (Hch r (or_introl eq_refl) E). cbn. lia.
      - destruct (overdue r); cbn; lia. }
    change (uploads (w <| uploads ::= updateWhere (chosen u) failedUpload |>)) with (updateWhere (chosen u) failedUpload (uploads w)).
    lia.
  - intros v Hv Hrv. apply In_updateWhere. exists v. split; [by apply Hkeep|].
    destruct (chosen u v) eqn:E; [|done]. specialize (Hkeep v Hv Hrv). by rewrite (Hone v Hkeep E) in Hrv.
Qed.

Lemma sweeping_order n w : sweeping n w -> expiryOrder (uploads w) = expiryOrder (uploads w0).
Proof.
  clear distinct. intros [Hrows _ _]. unfold expiryOrder. do 2 f_equal.
  induction Hrows as [|x y l l' Hxy _ IH]; cbn; [done|]. rewrite IH. by destruct Hxy as [->|[_ ->]].
Qed.

Lemma sweeping_ids n w : sweeping n w -> List.map up_id (uploads w) = List.map up_id (uploads w0).
Proof.
  clear distinct. intros [Hrows _ _]. induction Hrows as [|x y l l' Hxy _ IH]; cbn; [done|]. rewrite IH. by destruct Hxy as [->|[_ ->]].
Qed.

Lemma deleteObject_sweeping n w u r w' : sweeping n w -> deleteObject p (objectOf u) w = (r, w') -> sweeping n w'.
Proof.
  intros Hs Hr. pose proof (deleteObject_quiet (objectOf u) (sweeping n)) as Hq.
  specialize (Hq ltac:(intros x c [H1 H2 H3]; by split) w Hs). by rewrite Hr in Hq.
Qed.

(** [counts] is [expired] and [failures]. *)
Lemma expireUpload_runs counts u w : sweeping (fst counts) w -> In u (uploads w0) -> overdue u = true ->
  exists counts' w', expireUpload signal amb p counts u w = (Ok counts', w') /\ sweeping (fst counts') w'.
Proof.
  intros Hs Hu Ho. unfold expireUpload, throwIfAborted, mbind at 1, proc_bind at 1. rewrite running. fold (objectOf u).
  destruct (deleteObject p (objectOf u) w) as [[[]|e] w1] eqn:Ed; pose proof (deleteObject_sweeping _ _ _ _ _ Hs Ed) as Hs1.
  - assert (Hnr : ~ refused u) by (intros Hr; destruct (Hr w) as (e & w' & He); congruence).
    pose proof (sweeping_fail _ _ u Hs1 Hu Ho Hnr) as Hs2.
    unfold try_catch. rewrite (proc_call _ _ _ _ _ Ed), (proc_step _ _ _ _ _ eq_refl). by do 2 eexists.
  - unfold try_catch. rewrite (proc_call_err _ _ _ _ _ Ed). do 2 eexists. split; [reflexivity|]. done.
Qed.

Lemma expireBatch_runs batch : forall counts w, sweeping (fst counts) w ->
  (forall u, In u batch -> In u (uploads w0) /\ overdue u = true) ->
  exists counts' w', expireBatch signal amb p batch counts w = (Ok counts', w') /\ sweeping (fst counts') w'.
Proof.
  induction batch as [|u batch IH]; intros counts w Hs Hb; cbn [expireBatch]; [by do 2 eexists|].
  destruct (Hb u (or_introl eq_refl)) as [Hu Ho].
  destruct (expireUpload_runs counts u w Hs Hu Ho) as (c1 & w1 & Hrun & Hs1). rewrite (proc_call _ _ _ _ _ Hrun).
  apply IH; [done|]. intros v Hv. apply Hb. by right.
Qed.

(** How much of the order is left. *)
Definition remaining (cursor : option string) : nat :=
  match cursor with Some c => length (expiryOrder (uploads w0)) - place c (expiryOrder (uploads w0))
                  | None => S (length (expiryOrder (uploads w0))) end.

Lemma last_In {A} (l : list A) : l <> [] -> exists x, List.last (List.map Some l) None = Some x /\ In x l.
Proof.
  induction l as [|x [|y l] IH]; [done|by exists x; cbn; auto|]. intros _.
  destruct IH as (z & Hz & Hin); [done|]. exists z. split; [done|by right].
Qed.

Lemma expireLoop_ends fuel : forall cursor counts w, 0 < batchSize -> sweeping (fst counts) w -> remaining cursor < fuel ->
  exists counts' w', expireLoop signal afterCursor fuel amb p now batchSize cursor counts w = (Ok (Some counts'), w')
    /\ sweeping (fst counts') w'.
Proof.
  induction fuel as [|fuel IH]; intros cursor counts w Hb Hs Hf; [lia|]. cbn [expireLoop].
  unfold throwIfAborted, mbind at 1, proc_bind at 1. rewrite running.
  set (page := firstn batchSize (match cursor with
                 | Some c => afterCursor c overdue (uploads w)
                 | None => byExpiry (findMany overdue (uploads w)) end)).
  rewrite (proc_step (expirablePage afterCursor (providerKind p) now batchSize cursor) _ _ page w eq_refl).
  assert (Hpage : forall u, In u page -> In u (uploads w) /\ overdue u = true /\
      match cursor with Some c => place c (expiryOrder (uploads w)) < place (up_id u) (expiryOrder (uploads w)) | None => True end).
  { intros u Hu. apply In_firstn in Hu. destruct cursor as [c|].
    - destruct (cq_where _ _ _ _ Hu). split; [done|]. split; [done|]. eapply cq_after; [|done].
      by rewrite (sweeping_ids _ _ Hs).
    - apply In_orderAscId, In_findMany in Hu as [? ?]. done. }
  destruct (expireBatch_runs page counts w Hs) as (c1 & w1 & Hrun & Hs1).
  { intros u Hu. destruct (Hpage u Hu) as (Hin & Ho & _). split; [|done].
    apply (sweeping_row (fst counts) w); [done|done|]. by destruct (overdue_pending u Ho). }
  rewrite (proc_call _ _ _ _ _ Hrun). destruct (Nat.ltb_spec (length page) batchSize) as [Hlt|Hge]; [by do 2 eexists|].
  destruct (last_In page) as (u & Hlast & Hu); [by intros E; rewrite E in Hge; cbn in Hge; lia|].
  rewrite Hlast. cbn [fmap option_fmap option_map]. apply IH; [done|done|].
  destruct (Hpage u Hu) as (_ & _ & Hlt). rewrite (sweeping_order _ _ Hs) in Hlt.
  pose proof (place_le (up_id u) (expiryOrder (uploads w0))). unfold remaining in *. destruct cursor; lia.
Qed.

Lemma expiryOrder_length t : length (expiryOrder t) = length t.
Proof. unfold expiryOrder, orderAscId. by rewrite List.length_map, merge_sort_Permutation, List.length_map. Qed.

(** A sweep that is not aborted ends after at most one page per upload. The uploads it changed were pending and
    past their deadline, live, and of the configured storage; each is failed, nothing else of it is altered, and
    [expired] is their number; an upload whose object the storage refuses to remove stays as it was. *)
Theorem upload_sweep_ends_and_is_exact fuel : 0 < batchSize -> S (length (uploads w0)) < fuel ->
  exists expired failures w',
    expirePendingUploads signal afterCursor fuel amb (Some p) (Some now) (Some batchSize) w0 = (Ok (Some (expired, failures)), w')
    /\ List.Forall2 (fun u u' => u' = u \/ (overdue u = true /\ u' = failedUpload u)) (uploads w0) (uploads w')
    /\ (Z.of_nat (countWhere overdue (uploads w')) + expired = Z.of_nat (countWhere overdue (uploads w0)))%Z
    /\ (forall u, In u (uploads w0) -> refused u -> In u (uploads w')).
Proof.
  intros Hb Hf. destruct (expireLoop_ends fuel None (0, 0)%Z w0 Hb sweeping_start) as ([n m] & w' & Hrun & [H1 H2 H3]).
  { unfold remaining. by rewrite expiryOrder_length. }
  exists n, m, w'. split; [exact Hrun|done].
Qed.
End Sweep.

(** ** A query that starts from the cursor's position

    The rows of the where from the cursor's place in the order on, the first of them skipped ([skip: 1]). *)

Fixpoint fromPlace (c : string) (l : list string) : list string :=
  match l with [] => [] | x :: l' => if x === c then x :: l' else fromPlace c l' end.

Definition rowsOf (ids : list string) (t : list Upload) : list Upload :=
  omap (fun id => findFirst (fun u => up_id u === id) t) ids.

Definition positionCursor (c : string) (P : Upload -> bool) (t : list Upload) : list Upload :=
  skipn 1 (findMany P (rowsOf (fromPlace c (expiryOrder t)) t)).

Lemma In_rowsOf ids t u : In u (rowsOf ids t) -> In u t /\ In (up_id u) ids.
Proof.
  unfold rowsOf. rewrite <- list_elem_of_In, list_elem_of_omap. intros (id & Hid & Hf).
  apply findFirst_Some in Hf as [Hu He]. bools. rewrite <- He in Hid. split; [done|by apply list_elem_of_In].
Qed.

Lemma fromPlace_split c l : fromPlace c l = [] \/ exists pre rest, l = (pre ++ c :: rest)%list /\ fromPlace c l = c :: rest /\ ~ In c pre.
Proof.
  induction l as [|x l IH]; [by left|]. cbn. case_bool_decide as E.
  - subst. right. exists [], l. split; [done|]. split; [done|by intros []].
  - destruct IH as [IH|(pre & rest & -> & IH & Hn)]; [by left|]. right. exists (x :: pre), rest.
    split; [done|]. split; [done|]. intros [?|?]; congruence.
Qed.

Lemma place_app s pre l : ~ In s pre -> place s (pre ++ l) = length pre + place s l.
Proof.
  induction pre as [|x pre IH]; cbn; [done|]. intros Hn. rewrite bd_ne by (intros ->; apply Hn; by left).
  rewrite IH; [done|]. intros Hin. apply Hn. by right.
Qed.

Lemma expiryOrder_NoDup t : List.NoDup (List.map up_id t) -> List.NoDup (expiryOrder t).
Proof.
  intros Hnd. unfold expiryOrder, orderAscId. rewrite <- NoDup_ListNoDup in *.
  rewrite (merge_sort_Permutation (order_le fst snd)), List.map_map. done.
Qed.

#[export] Instance positionCursor_query : CursorQuery positionCursor.
Proof.
  split.
  - intros c P t u Hu. unfold positionCursor in Hu. assert (Hin : In u (findMany P (rowsOf (fromPlace c (expiryOrder t)) t))).
    { rewrite <- (firstn_skipn 1). apply in_or_app. by right. }
    apply In_findMany in Hin as [Hin HP]. by apply In_rowsOf in Hin as [? _].
  - intros c P t u Hnd Hu. unfold positionCursor in Hu. pose proof (expiryOrder_NoDup t Hnd) as Ho.
    destruct (fromPlace_split c (expiryOrder t)) as [He|(pre & rest & He & Hfrom & Hpre)]; [by rewrite He in Hu|].
    rewrite Hfrom in Hu. assert (Hrest : In u (rowsOf rest t)).
    { unfold rowsOf in Hu |- *. cbn in Hu. destruct (findFirst _ t) as [x|].
      - unfold findMany in Hu. cbn in Hu. destruct (P x); cbn in Hu; [by apply List.filter_In in Hu as [? _]|].
        destruct (List.filter P _) eqn:E; [done|]. cbn in Hu.
        assert (Hx : In u (u0 :: l)) by (by right). rewrite <- E in Hx. by apply List.filter_In in Hx as [? _].
      - assert (Hx : In u (findMany P (omap (fun id => findFirst (fun u => up_id u === id) t) rest)))
          by (rewrite <- (firstn_skipn 1); apply in_or_app; by right). by apply In_findMany in Hx as [? _]. }
    apply In_rowsOf in Hrest as [_ Hid]. rewrite He in Ho |- *.
    rewrite <- NoDup_ListNoDup in Ho. apply list.NoDup_app in Ho. destruct Ho as (_ & Hdis & [Hc _]%stdpp.list_relations.list.NoDup_cons).
    rewrite list_elem_of_In in Hc.
    rewrite !place_app; [|intros Hp; apply (Hdis (up_id u)); rewrite list_elem_of_In; [done|by right]|done]. cbn. rewrite bd_refl, bd_ne; [lia|].
    intros ->. done.
Qed.

(** ** Runs *)

Section Witness.
Local Existing Instance demoPlatform.

Definition sweptFile (id : string) (deadline : Z) : Upload :=
  mkUpload id None "u1" UpP_S3 Up_PENDING UpV_PRIVATE id id "image/png" 10 None None None None None None None None
    deadline None None 0 0 None.
Definition sweepStorage : S3Client :=
  mkS3Client (fun _ _ _ => Err (Failure "unused")) (fun _ _ _ _ => Err (Failure "unused"))
    (fun _ key _ => if key === "stuck" then Err (Failure "denied") else Ok tt) (fun _ _ _ => Err (Failure "unused")).
Definition sweepAmb : Ambient := mkAmbient 5000 None.
Definition sweepProvider : UploadProviderAdapter := createS3UploadProvider sweepAmb "bucket" sweepStorage.

(** An overdue upload, one whose object cannot be removed, and one that is not overdue. *)
Definition sweepWorld : World := emptyWorld <| uploads := [sweptFile "old" 100; sweptFile "stuck" 200; sweptFile "fresh" 9000] |>.

Example upload_sweep_ends_and_is_exact_witness : exists expired failures w',
  expirePendingUploads (fun _ => None) positionCursor 5 sweepAmb (Some sweepProvider) (Some 5000%Z) (Some 10) sweepWorld
    = (Ok (Some (expired, failures)), w')
  /\ List.map up_status (uploads w') = [Up_FAILED; Up_PENDING; Up_PENDING]
  /\ (Z.of_nat (countWhere (expirable UpP_S3 5000) (uploads w')) + expired = 2)%Z
  /\ In (sweptFile "stuck" 200) (uploads w').
Proof.
  assert (Ho : OutsideStore sweepProvider) by apply S3_outside.
  destruct (upload_sweep_ends_and_is_exact positionCursor (fun _ => None) sweepProvider sweepAmb 5000 10 sweepWorld)
    with (fuel := 5) as (n & m & w' & Hrun & _ & Hcount & Hrefused).
  - repeat constructor; cbn; intuition discriminate.
  - reflexivity.
  - lia.
  - cbn. lia.
  - exists n, m, w'. split; [exact Hrun|]. split; [vm_compute in Hrun; injection Hrun as _ _ <-; reflexivity|].
    split; [exact Hcount|]. apply Hrefused; [right; left; reflexivity|]. intros w. eexists _, _. reflexivity.
Defined.

(** A full page passes an upload over: the row of the cursor no longer matches the where when the next page starts
    after it, and [skip: 1] then skips a row that was never seen. The second of three overdue uploads stays pending,
    although the storage refuses nothing. *)
Theorem full_page_passes_an_upload_over : exists w',
  expirePendingUploads (fun _ => None) positionCursor 5 sweepAmb (Some sweepProvider) (Some 5000%Z) (Some 1)
    (emptyWorld <| uploads := [sweptFile "a" 100; sweptFile "b" 200; sweptFile "c" 300] |>) = (Ok (Some (2, 0)%Z), w')
  /\ List.map up_status (uploads w') = [Up_FAILED; Up_PENDING; Up_FAILED].
Proof. eexists. split; vm_compute; reflexivity. Qed.
End Witness.
