(* ===== verification/MaintenanceSpec.v ===== *)
(** * Retention deletes what is due, all of it, and nothing else

    The batched deletion against its specification (one [deleteWhere]), the nine passes of the retention cleanup,
    and the sweep of abandoned uploads. *)

From Stdlib Require Import ZArith Lia Bool Permutation.
From stdpp Require Import sorting.
From S2P Require Import Prelude Store Database JsString Platform Request TenantScope UploadStorage Uploads Calendar Maintenance.

Open Scope string_scope.

(** ** Deleting in steps *)

Section Steps.
Context {R : Type}.
Implicit Types (P Q : R -> bool) (t : list R).

Lemma deleteWhere_none P t : countWhere P t = 0 -> deleteWhere P t = t.
Proof.
  unfold deleteWhere, countWhere. induction t as [|r t IH]; cbn; [done|]. destruct (P r); cbn; [done|].
  intros Hc. by rewrite IH.
Qed.

(** What is deleted first does not matter to what is deleted in the end. *)
Lemma deleteWhere_sub P Q t : (forall r, Q r = true -> P r = true) ->
  deleteWhere P (deleteWhere Q t) = deleteWhere P t
  /\ countWhere P (deleteWhere Q t) + countWhere Q t = countWhere P t.
Proof.
  intros Hq. unfold deleteWhere, countWhere. induction t as [|r t [IH1 IH2]]; cbn; [done|].
  destruct (Q r) eqn:EQ; cbn.
  - rewrite (Hq _ EQ). cbn. split; [done|lia].
  - destruct (P r); cbn; (split; [by rewrite IH1|lia]).
Qed.

Lemma length_findMany P t : length (findMany P t) = countWhere P t.
Proof. done. Qed.

Lemma countWhere_findMany P Q t : countWhere Q (findMany P t) = countWhere (fun r => Q r && P r) t.
Proof.
  unfold countWhere, findMany. induction t as [|r t IH]; cbn; [done|].
  destruct (P r); cbn; destruct (Q r); cbn; lia.
Qed.

Lemma countWhere_Permutation P t t' : Permutation t t' -> countWhere P t = countWhere P t'.
Proof.
  unfold countWhere. induction 1 as [|x l l' _ IH|x y l|l1 l2 l3 _ IH1 _ IH2]; cbn; [done| | |congruence].
  - destruct (P x); cbn; lia.
  - by destruct (P x), (P y).
Qed.

(** The rows named by the first [n] identifiers of an ordering of them. *)
Lemma named_rows (id : R -> string) (sorted : list R) P t n : Permutation sorted (findMany P t) ->
  let ids := List.map id (firstn n sorted) in
  length ids <= countWhere (fun r => mem (id r) ids && P r) t
  /\ (length ids < n -> countWhere (fun r => mem (id r) ids && P r) t = countWhere P t).
Proof.
  intros Hp ids.
  assert (Hall : countWhere (fun r => mem (id r) ids && P r) t = countWhere (fun r => mem (id r) ids) sorted).
  { by rewrite <- countWhere_findMany, <- (countWhere_Permutation _ _ _ Hp). }
  assert (Hin : forall r, In r (firstn n sorted) -> mem (id r) ids = true).
  { intros r Hr. apply mem_In. unfold ids. by apply List.in_map. }
  assert (Hfirst : countWhere (fun r => mem (id r) ids) (firstn n sorted) = length (firstn n sorted)).
  { rewrite (countWhere_ext _ (fun _ => true) _ Hin). unfold countWhere. clear.
    induction (firstn n sorted); cbn; congruence. }
  assert (Hids : length ids = length (firstn n sorted)) by apply List.length_map.
  assert (Hcut : countWhere (fun r => mem (id r) ids) sorted
    = length (firstn n sorted) + countWhere (fun r => mem (id r) ids) (skipn n sorted)).
  { by rewrite <- (firstn_skipn n sorted) at 1; rewrite countWhere_app, Hfirst. }
  rewrite Hall, Hcut, Hids. split; [lia|]. rewrite List.length_firstn. intros Hlt.
  rewrite (List.skipn_all2 (n := n)) by lia. rewrite <- (length_findMany P t), <- (Permutation_length Hp). cbn. lia.
Qed.
End Steps.

(** ** The loop *)

Section Loop.
Context `{Platform}.
Context {R : Type} `{L : ModelLaws World R}.
Variables (id : R -> string) (orderBy : list R -> list R) (where_ : R -> bool) (cascade : list R -> World -> World).
Hypothesis orderBy_all : forall l, Permutation (orderBy l) l.
Hypothesis cascade_table : forall gone w, table (cascade gone w) = table w.
Variable signal : World -> option Error.

Notation duePred := (activeWhere where_).
(** What a deletion of due rows keeps, and so every pass. *)
Definition deletionClosed (I : World -> Prop) : Prop := forall Q w, (forall r, Q r = true -> duePred r = true) ->
  I w -> I (cascade (findMany Q (table w)) (put (deleteWhere Q) w)).
Definition frameClosed (I : World -> Prop) : Prop := forall f gone w, I w -> I (cascade gone (put f w)).

Lemma frame_closed I : frameClosed I -> deletionClosed I.
Proof. intros HI Q w _ Hw. by apply HI. Qed.

Lemma throwIfAborted_pres (I : World -> Prop) : proc_pres I (throwIfAborted signal).
Proof. intros w Hw. unfold throwIfAborted. by destruct (signal w). Qed.

Lemma named_due ids r : activeWhere (fun r => mem (id r) ids && where_ r) r = true -> duePred r = true.
Proof. cbn. intros [-> [_ ->]%andb_true_iff]%andb_true_iff. done. Qed.

Lemma purge_pres (I : World -> Prop) fuel batchSize : deletionClosed I ->
  proc_pres I (purge signal fuel batchSize id orderBy where_ cascade).
Proof.
  intros HI. unfold purge, deleteInBatches. destruct (_ <? _)%Z; [apply pres_proc_throw|].
  generalize 0%Z. induction fuel as [|fuel IH]; intros n; cbn [deleteLoop]; [apply pres_proc_ret|].
  apply pres_proc_bind; [apply throwIfAborted_pres|intros _].
  apply pres_proc_bind; [apply pres_transact; unfold selectIds; pres|intros ids].
  destruct (_ =? _)%nat; [apply pres_proc_ret|].
  apply pres_proc_bind; [apply throwIfAborted_pres|intros _].
  apply pres_proc_bind; [apply pres_transact|intros c; destruct (_ <? _)%Z; [apply pres_proc_ret|apply IH]].
  intros w c w' Hw [= _ <-]. apply HI; [apply named_due|done].
Qed.

(** One batch: at least the rows it names go, none but due ones. *)
Lemma deleteBatch_runs take w : exists ids w', selectIds id orderBy where_ take w = Ok (ids, w)
  /\ (let c := countWhere duePred (table w) - countWhere duePred (table w') in
      deleteIds id where_ cascade ids w = Ok (c, w')
      /\ length ids <= c /\ c <= countWhere duePred (table w)
      /\ deleteWhere duePred (table w') = deleteWhere duePred (table w)
      /\ (length ids < take -> countWhere duePred (table w') = 0)
      /\ (0 < take -> length ids = 0 -> countWhere duePred (table w) = 0)
      /\ (forall I, frameClosed I -> I w -> I w')).
Proof.
  set (rows := findMany duePred (table w)). set (ids := List.map id (firstn take (orderBy rows))).
  set (Q := activeWhere (fun r => mem (id r) ids && where_ r)).
  exists ids, (cascade (findMany Q (table w)) (put (deleteWhere Q) w)). split; [done|].
  rewrite cascade_table, table_put.
  assert (HQ : forall r, Q r = mem (id r) ids && duePred r).
  { intros r. unfold Q, activeWhere. destruct (is_null _), (mem _ _); cbn; try done; by rewrite ?andb_false_r. }
  assert (Hsub : forall r, Q r = true -> duePred r = true).
  { intros r. rewrite HQ. by intros [_ ?]%andb_true_iff. }
  destruct (deleteWhere_sub duePred Q (table w) Hsub) as [Hdel Hcnt].
  destruct (named_rows id (orderBy rows) duePred (table w) take (orderBy_all rows)) as [Hle Hlt].
  fold ids in Hle, Hlt. rewrite <- (countWhere_ext Q _ (table w)) in Hle, Hlt by (intros r _; apply HQ).
  assert (Hc : countWhere Q (table w) = countWhere duePred (table w) - countWhere duePred (deleteWhere Q (table w))) by lia.
  unfold deleteIds. fold Q. rewrite length_findMany, Hc.
  repeat split; [lia|lia|done|intros Hs; specialize (Hlt Hs); lia| |intros I HI Hw; by apply HI].
  intros Ht H0'. unfold ids in H0'. rewrite List.length_map, List.length_firstn, (Permutation_length (orderBy_all _)) in H0'.
  unfold rows in H0'. rewrite length_findMany in H0'. lia.
Qed.

(** Where a pass ends: every due row is gone, and is counted. *)
Lemma purge_ends fuel batchSize w : (forall w, signal w = None) -> (1 <= batchSize)%Z -> countWhere duePred (table w) < fuel ->
  exists w', purge signal fuel batchSize id orderBy where_ cascade w = (Ok (Some (Z.of_nat (countWhere duePred (table w)))), w')
    /\ table w' = deleteWhere duePred (table w) /\ (forall I, frameClosed I -> I w -> I w').
Proof.
  intros Hs Hb Hf. unfold purge, deleteInBatches. rewrite (proj2 (Z.ltb_ge _ _)) by lia.
  assert (Hgo : forall n w, countWhere duePred (table w) < fuel -> exists w',
    deleteLoop signal fuel batchSize (selectIds id orderBy where_) (deleteIds id where_ cascade) n w
      = (Ok (Some (n + Z.of_nat (countWhere duePred (table w)))%Z), w')
    /\ table w' = deleteWhere duePred (table w) /\ (forall I, frameClosed I -> I w -> I w')); [|by apply Hgo].
  clear w Hf. induction fuel as [|fuel IH]; intros n w Hf; [lia|]. cbn [deleteLoop].
  destruct (deleteBatch_runs (Z.to_nat batchSize) w) as (ids & w1 & Hsel & Hdel & Hle & Hmax & Htab & Hlast & Hnone & Hfr).
  assert (Habort : forall w, throwIfAborted signal w = (Ok tt, w)) by (intros ?; unfold throwIfAborted; by rewrite Hs).
  rewrite (proc_call _ _ _ _ _ (Habort w)), (proc_step _ _ _ _ _ Hsel).
  destruct (Nat.eqb_spec (length ids) 0) as [Hempty|Hsome].
  - exists w. rewrite (Hnone ltac:(lia) Hempty), Z.add_0_r, deleteWhere_none; [done|by apply Hnone; [lia|]].
  - rewrite (proc_call _ _ _ _ _ (Habort w)), (proc_step _ _ _ _ _ Hdel).
    destruct (Z.ltb_spec (Z.of_nat (length ids)) batchSize) as [Hlt|Hge].
    + exists w1. rewrite (Hlast ltac:(lia)) in *. rewrite Nat.sub_0_r. split; [done|].
      rewrite <- Htab, deleteWhere_none; [done|]. by apply Hlast; lia.
    + destruct (IH (n + Z.of_nat (countWhere duePred (table w) - countWhere duePred (table w1)))%Z w1) as (w' & Hrun & Ht & Hfr');
        [lia|]. exists w'. rewrite Hrun. split; [do 3 f_equal; lia|]. split; [by rewrite Ht|]. intros I HI Hw. by apply Hfr', Hfr.
Qed.

(** Whatever happens, what is lost was due. *)
Definition onlyDueLost (t0 t : list R) : Prop := (forall r, In r t -> In r t0) /\ (forall r, In r t0 -> duePred r = false -> In r t).

Lemma onlyDueLost_closed t0 : deletionClosed (fun w => onlyDueLost t0 (table w)).
Proof.
  intros Q w HQ [Hin Hkeep]. rewrite cascade_table, table_put. split.
  - intros r [Hr _]%In_deleteWhere. auto.
  - intros r Hr Hd. apply In_deleteWhere. split; [auto|]. destruct (Q r) eqn:E; [|done]. apply HQ in E. congruence.
Qed.
End Loop.

Lemma andThen_run {A B} (m : Proc World (option A)) (k : A -> Proc World (option B)) w a w' :
  m w = (Ok (Some a), w') -> andThen m k w = k a w'.
Proof. intros Hm. unfold andThen. by rewrite (proc_call _ _ _ _ _ Hm). Qed.

Lemma andThen_pres {A B} (I : World -> Prop) (m : Proc World (option A)) (k : A -> Proc World (option B)) :
  proc_pres I m -> (forall a, proc_pres I (k a)) -> proc_pres I (andThen m k).
Proof. intros Hm Hk. unfold andThen. apply pres_proc_bind; [done|]. intros [a|]; [done|apply pres_proc_ret]. Qed.

Lemma byId_all {R} (id : R -> string) l : Permutation (byId id l) l.
Proof. apply merge_sort_Permutation. Qed.

(** ** The whole cleanup *)

(** The tables no pass and no foreign key reaches. *)
Definition beyondRetention (w : World) :=
  ((users w, organizations w, memberships w, roles w, permissions w, userRoles w, rolePermissions w, devices w, socialAccounts w),
   (notificationPreferences w, emailSuppressions w, stripeSubscriptions w, stripePayments w, paymentMethods w, chargeableItems w),
   (stripeRefundOperations w, conversations w, conversationParticipants w, messages w, drawn w, revocations w, calls w)).

(** How many rows are due. *)
Definition due {R} `{Model World R} (P : R -> bool) (w : World) : Z := Z.of_nat (countWhere (activeWhere P) (table w)).

(** A bound on what is due. *)
Definition retentionRows (w : World) : nat :=
  length (idempotencyRecords w) + length (invitations w) + length (uploadBandwidthUsages w) + length (otpChallenges w)
  + length (sessions w) + length (outboxEvents w) + length (stripeWebhookEvents w) + length (uploads w) + length (auditEvents w).

(** What a pass leaves alone, for each table of the cleanup. *)
Ltac frame_of F w T :=
  try (let E := fresh "E" in pose proof (F (fun x => T x = T w) (fun f gone x (E : T x = T w) => E) eq_refl) as E; cbv beta in E).
Ltac frames F w :=
  frame_of F w idempotencyRecords; frame_of F w invitations; frame_of F w uploadBandwidthUsages; frame_of F w otpChallenges;
  frame_of F w sessions; frame_of F w outboxEvents; frame_of F w stripeWebhookEvents; frame_of F w uploads;
  frame_of F w auditEvents; frame_of F w beyondRetention.
Ltac pass id orderBy where_ cascade T perm w w' :=
  let Hrun := fresh "R" in let Ht := fresh "T" in let F := fresh "F" in let Hq := fresh "Hq" in let Hgo := fresh "Hgo" in
  lazymatch goal with
  | Hs : forall w, ?signal w = None, Hb : (1 <= ?batch)%Z, Hf : retentionRows ?w0 < ?fuel |- _ =>
      assert (Hq : table w = T w0) by (change (T w = T w0); congruence);
      pose proof (purge_ends id orderBy where_ cascade perm) as Hrun;
      destruct (Hrun (fun _ _ => eq_refl) signal fuel batch w Hs Hb) as (w' & Hgo & Ht & F);
      [rewrite Hq; eapply Nat.le_lt_trans; [apply countWhere_le|]; unfold retentionRows in Hf; lia|];
      rewrite (andThen_run _ _ _ _ _ Hgo); frames F w; clear F; rewrite Hq in Ht; rewrite Hq; clear Hq Hrun Hgo; change (table w') with (T w') in Ht
  end.

Section Cleanup.
Context `{Platform}.
Variable signal : World -> option Error.
Variables (amb : Ambient) (options : RetentionCleanupOptions).

Notation dataDays := (ro_dataRetentionDays options ??? DATA_RETENTION_DAYS env).
Notation auditDays := (ro_auditRetentionDays options ??? AUDIT_RETENTION_DAYS env).
Notation batchSize := (ro_batchSize options ??? RETENTION_BATCH_SIZE env).


(** *** Whatever happens *)

(** Deleting sessions takes their refresh tokens along; of the others only the link to a replacement may go. *)
Definition tokensOfLiveSessions (cutoff : Z) (w0 w : World) : Prop := forall t s,
  In t (refreshTokens w0) -> In s (sessions w0) -> sess_id s = rt_sessionId t -> staleSession cutoff s = false ->
  exists next, In (t <| rt_replacedByTokenId := next |>) (refreshTokens w).

Definition sessionsSpared (cutoff : Z) (w0 w : World) : Prop :=
  onlyDueLost (staleSession cutoff) (sessions w0) (sessions w) /\ tokensOfLiveSessions cutoff w0 w.

Definition spared (now dataCutoff : Z) (auditCutoff : option Z) (w0 w : World) : Prop :=
  onlyDueLost (expiredRecord now) (idempotencyRecords w0) (idempotencyRecords w)
  /\ onlyDueLost (staleInvitation dataCutoff) (invitations w0) (invitations w)
  /\ onlyDueLost (staleBandwidth (monthStart dataCutoff)) (uploadBandwidthUsages w0) (uploadBandwidthUsages w)
  /\ onlyDueLost (staleChallenge dataCutoff) (otpChallenges w0) (otpChallenges w)
  /\ sessionsSpared dataCutoff w0 w
  /\ onlyDueLost (staleOutbox dataCutoff) (outboxEvents w0) (outboxEvents w)
  /\ onlyDueLost (staleWebhook dataCutoff) (stripeWebhookEvents w0) (stripeWebhookEvents w)
  /\ onlyDueLost (staleUpload dataCutoff) (uploads w0) (uploads w)
  /\ onlyDueLost (fun e => match auditCutoff with Some c => staleAudit c e | None => false end) (auditEvents w0) (auditEvents w).

Lemma onlyDueLost_refl {R} `{Model World R} (P : R -> bool) t : onlyDueLost P t t.
Proof. by split. Qed.

Lemma cascadeSessions_tokens gone g w : exists P, refreshTokens (cascadeSessions gone (put (R := Session) g w))
  = updateWhere P (fun t => t <| rt_replacedByTokenId := None |>)
      (deleteWhere (fun t => mem (rt_sessionId t) (List.map sess_id gone)) (refreshTokens w)).
Proof. eexists. reflexivity. Qed.

(** The pass over the sessions of a table with distinct identifiers. *)
Lemma sessions_closed cutoff w0 : List.NoDup (List.map sess_id (sessions w0)) ->
  deletionClosed (staleSession cutoff) cascadeSessions
    (sessionsSpared cutoff w0).
Proof.
  intros Hnd Q w HQ [Hlost Htok]. split.
  { exact (onlyDueLost_closed (staleSession cutoff) cascadeSessions (fun _ _ => eq_refl) (sessions w0) Q w HQ Hlost). }
  intros t s Ht Hs Hid Hlive. destruct (Htok t s Ht Hs Hid Hlive) as [next Hin].
  set (gone := findMany Q (table w)). destruct (cascadeSessions_tokens gone (deleteWhere Q) w) as [P ->].
  set (dead := fun t' : RefreshToken => mem (rt_sessionId t') (List.map sess_id gone)).
  assert (Hd : dead (t <| rt_replacedByTokenId := next |>) = false).
  { unfold dead. cbn. apply not_true_iff_false. intros E. apply mem_In, List.in_map_iff in E as (s' & Hs' & Hg).
    apply In_findMany in Hg as [Hg HQs]. destruct Hlost as [Hsub _]. apply Hsub in Hg.
    rewrite (NoDup_key_inj sess_id _ s' s Hnd Hg Hs) in HQs by congruence.
    apply HQ in HQs. cbn in HQs. rewrite Hlive, andb_false_r in HQs. done. }
  set (keep := t <| rt_replacedByTokenId := next |>) in *.
  assert (Hkeep : In keep (deleteWhere dead (refreshTokens w))) by (by apply In_deleteWhere).
  pose proof (proj2 (In_updateWhere P (fun t => t <| rt_replacedByTokenId := None |>) _ _)
    (ex_intro _ keep (conj Hkeep eq_refl))) as Hup. destruct (P keep).
  - exists None. exact Hup.
  - exists next. exact Hup.
Qed.

Lemma closed_and {R} `{Model World R} (where_ : R -> bool) cascade (I J : World -> Prop) :
  deletionClosed where_ cascade I -> deletionClosed where_ cascade J -> deletionClosed where_ cascade (fun w => I w /\ J w).
Proof. intros HI HJ Q w HQ [Hi Hj]. split; [by apply HI|by apply HJ]. Qed.

Ltac spare_table :=
  first [ apply frame_closed; intros ? ? ? Hx; exact Hx
        | lazymatch goal with |- deletionClosed _ ?c (fun w => onlyDueLost ?P ?t0 _) =>
            refine (onlyDueLost_closed P c _ t0); intros; reflexivity end
        | by apply sessions_closed ].
Ltac spare_tables := spare_table || (apply closed_and; [spare_table|spare_tables]).
Ltac spare := apply purge_pres; unfold spared; spare_tables.

Lemma passes_spare fuel batch now dataCutoff auditCutoff w0 : List.NoDup (List.map sess_id (sessions w0)) ->
  proc_pres (spared now dataCutoff auditCutoff w0) (retentionPasses signal fuel batch now dataCutoff auditCutoff).
Proof.
  intros Hnd. unfold retentionPasses.
  do 8 (apply andThen_pres; [spare|intros ?]). apply andThen_pres; [|intros ?; apply pres_proc_ret].
  destruct auditCutoff; [spare|apply pres_proc_ret].
Qed.

Lemma passes_beyond fuel batch now dataCutoff auditCutoff b :
  proc_pres (fun w => beyondRetention w = b) (retentionPasses signal fuel batch now dataCutoff auditCutoff).
Proof.
  unfold retentionPasses.
  do 8 (apply andThen_pres; [apply purge_pres, frame_closed; intros ? ? ? E; exact E|intros ?]).
  apply andThen_pres; [|intros ?; apply pres_proc_ret].
  destruct auditCutoff; [apply purge_pres, frame_closed; intros ? ? ? E; exact E|apply pres_proc_ret].
Qed.

Lemma spared_refl now dataCutoff auditCutoff w : spared now dataCutoff auditCutoff w w.
Proof.
  repeat split; try done. intros t s Ht _ _ _. exists (rt_replacedByTokenId t).
  by destruct t.
Qed.

(** A cleanup either refuses its options, changing nothing, or runs its passes with a cut-off in the past. *)
Lemma cleanup_runs fuel now w : ro_now options ??? Some (nowMs amb) = Some now ->
  snd (runRetentionCleanup signal fuel amb options w) = w \/
  ((1 <= dataDays)%Z /\ runRetentionCleanup signal fuel amb options w =
    retentionPasses signal fuel batchSize now (now - dataDays * DAY_MS)
      (if auditDays === 0%Z then None else Some (now - auditDays * DAY_MS)%Z) w).
Proof.
  intros Hnow. unfold runRetentionCleanup, validateRetentionDays, tx_guard. rewrite Hnow.
  destruct (negb (dataDays <? 1)%Z) eqn:Hd; [|left; by erewrite proc_step_err].
  rewrite (proc_step _ _ _ _ _ eq_refl). destruct (negb (auditDays <? 0)%Z); [|left; by erewrite proc_step_err].
  rewrite (proc_step _ _ _ _ _ eq_refl). destruct (negb (batchSize <? 1)%Z); [|left; by erewrite proc_step_err].
  do 2 rewrite (proc_step _ _ _ _ _ eq_refl). right. split; [|done]. bools. lia.
Qed.

Lemma before_later cutoff t : (forall x, t = Some x -> (cutoff <= x)%Z) -> before cutoff t = false.
Proof. destruct t as [x|]; [|done]. intros Hx. apply Z.ltb_ge. by apply Hx. Qed.

Lemma lost_kept {R} `{Model World R} (P : R -> bool) t0 t r : onlyDueLost P t0 t -> In r t0 -> P r = false -> In r t.
Proof. intros [_ Hk] Hr HP. apply Hk; [done|]. cbn. by rewrite HP, andb_false_r. Qed.

(** Whatever becomes of a retention cleanup - refused, aborted between any two statements, out of fuel or run to
    its end - nothing in use is lost: sessions that are neither expired nor revoked keep their row and their refresh
    tokens, and pending invitations, open one-time passwords, undelivered outbox events, unprocessed Stripe events,
    uploads that are not failed or deleted, the running month's bandwidth meters, idempotency records without a
    recorded answer, and, when their retention is unlimited, all audit events remain. *)
Theorem retention_spares_what_is_in_use fuel now w :
  List.NoDup (List.map sess_id (sessions w)) -> ro_now options ??? Some (nowMs amb) = Some now ->
  let w' := snd (runRetentionCleanup signal fuel amb options w) in
  (forall s, In s (sessions w) -> (now <= sess_expiresAt s)%Z -> sess_revokedAt s = None -> In s (sessions w') /\
     forall t, In t (refreshTokens w) -> rt_sessionId t = sess_id s ->
       exists next, In (t <| rt_replacedByTokenId := next |>) (refreshTokens w'))
  /\ (forall i, In i (invitations w) -> (now <= inv_expiresAt i)%Z -> inv_acceptedAt i = None -> inv_revokedAt i = None ->
       In i (invitations w'))
  /\ (forall c, In c (otpChallenges w) -> (now <= otp_expiresAt c)%Z -> In c (otpChallenges w'))
  /\ (forall e, In e (outboxEvents w) -> outboxTerminalStatus (ob_status e) = false -> In e (outboxEvents w'))
  /\ (forall e, In e (stripeWebhookEvents w) -> swe_status e <> Swe_PROCESSED -> In e (stripeWebhookEvents w'))
  /\ (forall u, In u (uploads w) -> up_status u <> Up_FAILED -> up_status u <> Up_DELETED -> In u (uploads w'))
  /\ (forall b, In b (uploadBandwidthUsages w) -> (monthStart now <= bw_periodStart b)%Z -> In b (uploadBandwidthUsages w'))
  /\ (forall r, In r (idempotencyRecords w) -> idem_statusCode r = None \/ idem_response r = None -> In r (idempotencyRecords w'))
  /\ (auditDays = 0%Z -> forall e, In e (auditEvents w) -> In e (auditEvents w'))
  /\ beyondRetention w' = beyondRetention w.
Proof.
  intros Hnd Hnow w'. destruct (cleanup_runs fuel now w Hnow) as [Hw|[Hd Hrun]].
  { unfold w'. rewrite Hw. repeat split; try done. intros t Ht _. exists (rt_replacedByTokenId t). by destruct t. }
  unfold w'. rewrite Hrun. clear w' Hrun.
  pose proof (passes_spare fuel batchSize now (now - dataDays * DAY_MS)
    (if auditDays === 0%Z then None else Some (now - auditDays * DAY_MS)%Z) w Hnd w (spared_refl _ _ _ w)) as Hsp.
  split_and!; [..|by apply passes_beyond].
  all: destruct Hsp as (Hidem & Hinv & Hbw & Hotp & [Hsess Htok] & Hob & Hswe & Hup & Haud).
  all: set (w' := snd _) in *; clearbody w'; set (cutoff := (now - dataDays * DAY_MS)%Z) in *.
  all: assert (Hcut : (cutoff <= now)%Z) by (unfold cutoff, DAY_MS; lia); clearbody cutoff.
  - intros s Hs Hexp Hrev. assert (Hlive : staleSession cutoff s = false).
    { unfold staleSession. rewrite Hrev. apply orb_false_iff. split; [by apply Z.ltb_ge; lia|done]. }
    split; [by eapply lost_kept|]. intros t Ht Hid. by apply (Htok t s).
  - intros i Hi Hexp Hacc Hrev. eapply lost_kept; [done|done|]. unfold staleInvitation. rewrite Hacc, Hrev.
    cbn. rewrite !orb_false_r. apply Z.ltb_ge. lia.
  - intros c Hc Hexp. eapply lost_kept; [done|done|]. apply Z.ltb_ge. lia.
  - intros e He Hst. eapply lost_kept; [done|done|]. unfold staleOutbox. by rewrite Hst.
  - intros e He Hst. eapply lost_kept; [done|done|]. unfold staleWebhook. by rewrite bd_ne.
  - intros u Hu H1 H2. eapply lost_kept; [done|done|]. unfold staleUpload. by rewrite !bd_ne.
  - intros b Hb Hm. eapply lost_kept; [done|done|]. apply Z.ltb_ge.
    pose proof (monthStart_mono cutoff now Hcut). lia.
  - intros r Hr Hinc. eapply lost_kept; [done|done|]. unfold expiredRecord.
    destruct Hinc as [-> | ->]; [by rewrite andb_false_r|by rewrite andb_false_r].
  - intros H0' e He. rewrite H0', bd_refl in Haud. by eapply lost_kept.
Qed.
End Cleanup.

(** ** Runs *)

Section Witness.
Local Existing Instance demoPlatform.

Definition retentionAmb : Ambient := mkAmbient (100 * DAY_MS) None.
Definition monthly : RetentionCleanupOptions := mkRetentionOptions (Some 30%Z) (Some 0%Z) (Some 2%Z) None.
Definition oldSession (id : string) (expires : Z) (revoked : option Z) : Session :=
  mkSession id "u1" None None None expires revoked None 0 0 None.
Definition tokenOf (id session : string) : RefreshToken := mkRefreshToken id "u1" session id None 0 None None None.
Definition lease (id : string) (status : option Z) : IdempotencyRecord :=
  mkIdempotencyRecord id "u1" "scope" id "hash" status (if status then Some (JStr "done") else None) None None 1 0 None.

(** Three sessions long gone, one in use; a finished record and a lease whose holder died. *)
Definition retentionWorld : World := emptyWorld
  <| sessions := [oldSession "s1" 0 None; oldSession "s2" 0 None; oldSession "s3" (200 * DAY_MS) (Some 0%Z);
                  oldSession "s4" (200 * DAY_MS) None] |>
  <| refreshTokens := [tokenOf "t1" "s1"; tokenOf "t4" "s4"] |>
  <| idempotencyRecords := [lease "k1" (Some 200%Z); lease "k2" None] |>.


(** The same cleanup, aborted as soon as the first session is gone. *)
Definition abortedEarly (w : World) : option Error := if (length (sessions w) <? 3)%nat then Some (Failure "timeout") else None.

Example retention_spares_what_is_in_use_witness :
  fst (runRetentionCleanup abortedEarly 20 retentionAmb monthly retentionWorld) = Err (Failure "timeout")
  /\ In (oldSession "s4" (200 * DAY_MS) None) (sessions (snd (runRetentionCleanup abortedEarly 20 retentionAmb monthly retentionWorld)))
  /\ In (lease "k2" None) (idempotencyRecords (snd (runRetentionCleanup abortedEarly 20 retentionAmb monthly retentionWorld))).
Proof.
  split; [vm_compute; reflexivity|].
  destruct (retention_spares_what_is_in_use abortedEarly retentionAmb monthly 20 (100 * DAY_MS) retentionWorld)
    as (Hs & _ & _ & _ & _ & _ & _ & Hr & _).
  - repeat constructor; cbn; intuition discriminate.
  - reflexivity.
  - split.
    + apply Hs; [right; right; right; left; reflexivity|vm_compute; discriminate|reflexivity].
    + apply Hr; [right; left; reflexivity|left; reflexivity].
Defined.
End Witness.
