(* ===== verification/AuditJobs.v ===== *)
(** * The audit jobs

    maintenance/audit-verify.job.ts and its entry point audit-verify.ts, maintenance/audit-backfill.ts, and the
    reading half of modules/audit/audit.service.ts. A row signed before the integrity migration has a NULL hash: the
    empty string here. [signal] is that of Maintenance.
    The verification runs outside any tenant scope.

    The verification counts every live row exactly once; rows written by the application pass it. The backfill of
    unsigned rows ends, but stamps the rows it signs, so that they fail the verification. *)

From Stdlib Require Import ZArith Lia Bool Permutation.
From stdpp Require Import sorting.
From S2P Require Import Prelude Store Database JsString JsonText Pagination Platform Request TenantScope AuditTrail UploadStorage Uploads Maintenance MaintenanceSpec.

Open Scope string_scope.

Definition BATCH_SIZE : nat := 500.

Record AuditIntegrityResult := mkIntegrityResult { air_signed : Z; air_unsigned : Z; air_invalid : Z }.
#[export] Instance AuditIntegrityResult_eq_dec : EqDecision AuditIntegrityResult.
Proof. solve_decision. Defined.

Record ListAuditInput := mkListAuditInput {
  lai_cursor : option string; lai_limit : nat; lai_actorUserId : option string; lai_entityType : option string
}.

(** A filter on a column that is left out when its argument is. *)
Definition ifGiven {A} `{EqDecision A} (argument : option A) (column : option A) : bool :=
  match argument with Some _ => column === argument | None => true end.

Section AuditJobs.
Context `{Platform}.
Variable signal : World -> option Error.

(** [orderBy: { id: 'asc' }] *)
Definition auditPage (cursor : option string) : Tx World (list AuditEvent) :=
  rows ← tx_findMany (fun _ => true);
  mret (fetchRows aud_id (byId aud_id rows)
          (mkCursorQuery BATCH_SIZE (if truthy cursor then cursor else None) (if truthy cursor then Some 1 else None))).

Definition countEvent (counts : AuditIntegrityResult) (event : AuditEvent) : AuditIntegrityResult :=
  let '(mkIntegrityResult signed unsigned invalid) := counts in
  if aud_integrityHash event === EmptyString then mkIntegrityResult signed (unsigned + 1) invalid
  else if verifyAuditEvent event (AUDIT_INTEGRITY_SECRET env) then mkIntegrityResult (signed + 1) unsigned invalid
  else mkIntegrityResult signed unsigned (invalid + 1).

Fixpoint countEvents (events : list AuditEvent) (counts : AuditIntegrityResult) : Proc World AuditIntegrityResult :=
  match events with
  | [] => mret counts
  | event :: rest => throwIfAborted signal;; countEvents rest (countEvent counts event)
  end.

(** [for (;;)] *)
Fixpoint verifyPages (fuel : nat) (cursor : option string) (counts : AuditIntegrityResult) : Proc World (option AuditIntegrityResult) :=
  match fuel with
  | 0 => mret None
  | S fuel =>
      throwIfAborted signal;;
      events ← transact (auditPage cursor);
      counts ← countEvents events counts;
      if (length events <? BATCH_SIZE)%nat then mret (Some counts)
      else verifyPages fuel (aud_id <$> at_last events) counts
  end.

Definition verifyAuditIntegrity (fuel : nat) : Proc World (option AuditIntegrityResult) :=
  verifyPages fuel None (mkIntegrityResult 0 0 0).

(** The exit code of audit-verify.ts. *)
Definition auditVerifyMain (fuel : nat) (amb : Ambient) : Proc World (option Z) :=
  withoutTenantScope "audit-integrity-verification" (fun amb =>
    try_catch (result ⇐ verifyAuditIntegrity fuel;
               mret (Some (if (0 <? air_invalid result)%Z || (0 <? air_unsigned result)%Z then 1 else 0)%Z))
              (fun _ => mret (Some 1%Z))) amb.

(** ** audit-backfill.ts: the client is not the extended one, so no filter is added; [updateMany] stamps [updatedAt],
    an [@updatedAt] column *)

Definition unsigned (event : AuditEvent) : bool := aud_integrityHash event === EmptyString.

(** [orderBy: [{ createdAt: 'asc' }, { id: 'asc' }]] *)
Definition unsignedPage : Tx World (list AuditEvent) :=
  rows ← tx_findMany_raw unsigned;
  mret (firstn BATCH_SIZE (orderAscId aud_createdAt aud_id rows)).

Definition signEvent (amb : Ambient) (event : AuditEvent) : Tx World nat :=
  tx_updateMany_raw (fun e => (aud_id e === aud_id event) && unsigned e)
    (fun e => e <| aud_integrityHash := signAuditEvent event (AUDIT_INTEGRITY_SECRET env) |> <| aud_updatedAt := nowMs amb |>).

Fixpoint signEvents (amb : Ambient) (events : list AuditEvent) (updated : Z) : Proc World Z :=
  match events with
  | [] => mret updated
  | event :: rest => count ← transact (signEvent amb event); signEvents amb rest (updated + Z.of_nat count)
  end.

Fixpoint auditBackfill (fuel : nat) (amb : Ambient) (updated : Z) : Proc World (option Z) :=
  match fuel with
  | 0 => mret None
  | S fuel =>
      events ← transact unsignedPage;
      if (length events =? 0)%nat then mret (Some updated)
      else updated ← signEvents amb events updated; auditBackfill fuel amb updated
  end.

(** ** listAuditEvents *)

Definition listAuditEvents (amb : Ambient) (input : ListAuditInput) : Proc World (CursorPage AuditEvent) :=
  paginateCursor aud_id (mkCursorInput (lai_cursor input) (lai_limit input)) (fun pagination =>
    transact (rows ← sc_findMany amb None (fun e => is_null (aud_deletedAt e)
                       && ifGiven (lai_actorUserId input) (aud_actorUserId e)
                       && ifGiven (lai_entityType input) (Some (aud_entityType e)));
              mret (fetchRows aud_id (orderDescId aud_createdAt aud_id rows) pagination))).
End AuditJobs.

(** ** What the audit jobs find, and what the backfill leaves *)

Section Verify.
Context `{Platform}.
Variable signal : World -> option Error.
Hypothesis running : forall w, signal w = None.

Definition hashed (e : AuditEvent) : bool := negb (unsigned e).
Definition verified (e : AuditEvent) : bool := hashed e && verifyAuditEvent e (AUDIT_INTEGRITY_SECRET env).
Definition tampered (e : AuditEvent) : bool := hashed e && negb (verifyAuditEvent e (AUDIT_INTEGRITY_SECRET env)).

(** The tally of a list of events. *)
Definition tally (l : list AuditEvent) : AuditIntegrityResult :=
  mkIntegrityResult (Z.of_nat (countWhere verified l)) (Z.of_nat (countWhere unsigned l)) (Z.of_nat (countWhere tampered l)).
Definition plus (a b : AuditIntegrityResult) : AuditIntegrityResult :=
  mkIntegrityResult (air_signed a + air_signed b) (air_unsigned a + air_unsigned b) (air_invalid a + air_invalid b).

Lemma plus_assoc a b c : plus a (plus b c) = plus (plus a b) c.
Proof. unfold plus. cbn. f_equal; lia. Qed.
Lemma tally_app l l' : tally (l ++ l') = plus (tally l) (tally l').
Proof. unfold tally, plus. cbn. rewrite !countWhere_app. f_equal; lia. Qed.

Lemma countEvent_tally e counts : countEvent counts e = plus counts (tally [e]).
Proof.
  destruct counts as [s u i]. unfold countEvent, tally, plus, countWhere, verified, tampered, hashed, unsigned. cbn.
  destruct (aud_integrityHash e === EmptyString); cbn; [f_equal; lia|].
  destruct (verifyAuditEvent e _); cbn; f_equal; lia.
Qed.

Lemma throwIfAborted_running w : throwIfAborted signal w = (Ok tt, w).
Proof. unfold throwIfAborted. by rewrite running. Qed.

Lemma countEvents_runs l : forall counts w, countEvents signal l counts w = (Ok (plus counts (tally l)), w).
Proof.
  induction l as [|e l IH]; intros counts w; cbn [countEvents].
  - destruct counts. unfold plus, tally. cbn. by rewrite !Z.add_0_r.
  - rewrite (proc_call _ _ _ _ _ (throwIfAborted_running w)), IH, countEvent_tally.
    change (e :: l) with ([e] ++ l)%list. by rewrite tally_app, plus_assoc.
Qed.

Definition liveEvents (w : World) : list AuditEvent := findMany (activeWhere (fun _ => true)) (auditEvents w).

(** The pages from a point of the ordered trail on. *)
Lemma verifyPages_ends w : List.NoDup (List.map aud_id (liveEvents w)) -> ~ In EmptyString (List.map aud_id (liveEvents w)) ->
  forall fuel rest pre cursor counts, byId aud_id (liveEvents w) = (pre ++ rest)%list ->
  match cursor with None => pre = [] | Some c => exists pre' x, pre = (pre' ++ [x])%list /\ aud_id x = c end ->
  length rest < fuel -> verifyPages signal fuel cursor counts w = (Ok (Some (plus counts (tally rest))), w).
Proof.
  intros Hnd Hne. assert (Hperm : Permutation (byId aud_id (liveEvents w)) (liveEvents w)) by apply byId_all.
  induction fuel as [|fuel IH]; intros rest pre cursor counts Hsplit Hc Hf; [lia|]. cbn [verifyPages].
  rewrite (proc_call _ _ _ _ _ (throwIfAborted_running w)).
  assert (Hpage : auditPage cursor w = Ok (firstn BATCH_SIZE rest, w)).
  { unfold auditPage. rewrite (tx_step _ _ _ _ _ eq_refl).
    change (findMany (activeWhere (fun _ : AuditEvent => true)) (table w)) with (liveEvents w). unfold mret, tx_ret.
    do 2 f_equal. rewrite Hsplit. destruct cursor as [c|]; cbn [truthy].
    - destruct Hc as (pre' & x & -> & <-). rewrite <- app_assoc in Hsplit |- *. cbn in Hsplit |- *.
      assert (Hx : In x (liveEvents w)) by (rewrite <- Hperm, Hsplit; apply in_elt).
      unfold truthy. rewrite bd_ne by (intros E; apply Hne; rewrite <- E; by apply List.in_map).
      cbn. unfold fetchRows. cbn [cpq_cursor cpq_take cpq_skip default].
      rewrite fromCursor_app; [done|]. rewrite <- (Permutation_map aud_id Hperm), Hsplit in Hnd.
      rewrite List.map_app in Hnd. cbn in Hnd. apply List.NoDup_remove_2 in Hnd. intros Hin. apply Hnd, in_or_app. by left.
    - by subst. }
  rewrite (proc_step _ _ _ _ _ Hpage), (proc_call _ _ _ _ _ (countEvents_runs _ _ _)). rewrite List.length_firstn.
  destruct (Nat.ltb_spec (Nat.min BATCH_SIZE (length rest)) BATCH_SIZE) as [Hlt|Hge].
  - by rewrite List.firstn_all2 by lia.
  - destruct (List.exists_last (l := firstn BATCH_SIZE rest)) as (pre' & x & Hx).
    { intros E. apply (f_equal (@List.length _)) in E. rewrite List.length_firstn in E. unfold BATCH_SIZE in *. cbn [length] in E. lia. }
    rewrite Hx at 1. rewrite at_last_snoc. cbn [fmap option_fmap option_map].
    rewrite (IH (skipn BATCH_SIZE rest) (pre ++ firstn BATCH_SIZE rest)%list (Some (aud_id x))).
    + by rewrite <- plus_assoc, <- tally_app, firstn_skipn.
    + by rewrite <- app_assoc, firstn_skipn.
    + exists (pre ++ pre')%list, x. by rewrite Hx, app_assoc.
    + rewrite List.length_skipn. unfold BATCH_SIZE in *. lia.
Qed.

Lemma tally_Permutation l l' : Permutation l l' -> tally l = tally l'.
Proof. intros Hp. unfold tally. by rewrite !(countWhere_Permutation _ _ _ Hp). Qed.

(** The verification counts every live row once, and changes nothing. *)
Lemma verifyAuditIntegrity_tally fuel w : List.NoDup (List.map aud_id (auditEvents w)) ->
  ~ In EmptyString (List.map aud_id (auditEvents w)) -> length (auditEvents w) < fuel ->
  verifyAuditIntegrity signal fuel w = (Ok (Some (tally (liveEvents w))), w).
Proof.
  intros Hnd Hne Hf. unfold verifyAuditIntegrity.
  rewrite (verifyPages_ends w) with (rest := byId aud_id (liveEvents w)) (pre := []); [..|done|done|].
  - rewrite (tally_Permutation _ _ (byId_all aud_id (liveEvents w))). unfold plus, tally. cbn. done.
  - by apply NoDup_map_findMany.
  - intros Hin. apply Hne. apply List.in_map_iff in Hin as (x & Hx & Hin). apply In_findMany in Hin as [Hin _].
    apply List.in_map_iff. eauto.
  - rewrite (Permutation_length (byId_all _ _)). unfold liveEvents. rewrite length_findMany.
    pose proof (countWhere_le (activeWhere (fun _ : AuditEvent => true)) (auditEvents w)). lia.
Qed.

(** The exit code says whether every live row verifies. *)
Lemma auditVerifyMain_code fuel amb w : List.NoDup (List.map aud_id (auditEvents w)) ->
  ~ In EmptyString (List.map aud_id (auditEvents w)) -> length (auditEvents w) < fuel ->
  exists code, auditVerifyMain signal fuel amb w = (Ok (Some code), w)
    /\ (code = 0%Z <-> forall e, In e (liveEvents w) -> verifyAuditEvent e (AUDIT_INTEGRITY_SECRET env) = true).
Proof.
  intros Hnd Hne Hf. pose proof (verifyAuditIntegrity_tally fuel w Hnd Hne Hf) as Hrun.
  set (code := (if (0 <? air_invalid (tally (liveEvents w)))%Z || (0 <? air_unsigned (tally (liveEvents w)))%Z then 1 else 0)%Z).
  exists code. split.
  { unfold auditVerifyMain, withoutTenantScope. apply try_call. by rewrite (andThen_run _ _ _ _ _ Hrun). }
  assert (Hz : code = 0%Z <-> countWhere tampered (liveEvents w) = 0 /\ countWhere unsigned (liveEvents w) = 0).
  { unfold code, tally. cbn. destruct (Z.ltb_spec 0 (Z.of_nat (countWhere tampered (liveEvents w)))); cbn; [lia|].
    destruct (Z.ltb_spec 0 (Z.of_nat (countWhere unsigned (liveEvents w)))); lia. }
  rewrite Hz, !countWhere_0. unfold tampered, hashed. split.
  - intros [Ht Hu] e He. specialize (Ht e He). rewrite (Hu e He) in Ht. cbn in Ht. by apply negb_false_iff in Ht.
  - intros Hv. split; intros e He; rewrite ?(Hv e He), ?andb_false_r; [done|].
    specialize (Hv e He). unfold verifyAuditEvent in Hv. unfold unsigned. by destruct (aud_integrityHash e === EmptyString).
Qed.

(** Audit writes keep a trail that verifies. *)
Lemma writes_verified writes : forall w w', (forall k d, hmacSha256 k d <> EmptyString) ->
  signingSecret (AUDIT_INTEGRITY_SECRET env) <> EmptyString ->
  tx_for writes (fun ai => writeAuditEvent (fst ai) (snd ai)) w = Ok (tt, w') ->
  (forall e, In e (liveEvents w) -> verifyAuditEvent e (AUDIT_INTEGRITY_SECRET env) = true) ->
  forall e, In e (liveEvents w') -> verifyAuditEvent e (AUDIT_INTEGRITY_SECRET env) = true.
Proof.
  induction writes as [|[a i] writes IH]; cbn [tx_for]; intros w w' Hh Hs Hrun Hall.
  - apply ret_ok in Hrun as [_ <-]. exact Hall.
  - apply bind_ok in Hrun as ([] & w1 & H1 & H2). apply (IH w1); [done|done|done|].
    destruct (writeAuditEvent_signed a i w w1 Hh Hs H1) as (row & Hrows & Hv & _).
    intros e He. unfold liveEvents in He. rewrite Hrows in He. apply In_findMany in He as [[He|[<-|[]]]%in_app_or Hd]; [|done].
    apply Hall, In_findMany. done.
Qed.

(** The scheduled verification ends, changes nothing, and its three counters add up to the number of live audit
    rows; it exits with 0 exactly when every one of them carries a valid signature. *)
Theorem audit_verification_exact fuel amb w : List.NoDup (List.map aud_id (auditEvents w)) ->
  ~ In EmptyString (List.map aud_id (auditEvents w)) -> length (auditEvents w) < fuel ->
  exists result code, verifyAuditIntegrity signal fuel w = (Ok (Some result), w)
    /\ (air_signed result + air_unsigned result + air_invalid result = Z.of_nat (length (liveEvents w)))%Z
    /\ auditVerifyMain signal fuel amb w = (Ok (Some code), w)
    /\ (code = 0%Z <-> forall e, In e (liveEvents w) -> verifyAuditEvent e (AUDIT_INTEGRITY_SECRET env) = true).
Proof.
  intros Hnd Hne Hf. destruct (auditVerifyMain_code fuel amb w Hnd Hne Hf) as (code & Hcode & Hz).
  exists (tally (liveEvents w)), code. split; [by apply verifyAuditIntegrity_tally|]. split; [|done].
  unfold tally. cbn. rewrite <- !Nat2Z.inj_add. f_equal. generalize (liveEvents w). unfold countWhere, verified, tampered, hashed.
  intros l. induction l as [|e l IH]; [done|]. cbn. destruct (unsigned e), (verifyAuditEvent e _); cbn in *; lia.
Qed.

(** What the application writes the verification accepts: after any sequence of audit writes on a trail that
    verifies, the job exits with 0. *)
Theorem audit_writes_pass_verification fuel amb writes w w' :
  (forall k d, hmacSha256 k d <> EmptyString) -> signingSecret (AUDIT_INTEGRITY_SECRET env) <> EmptyString ->
  tx_for writes (fun ai => writeAuditEvent (fst ai) (snd ai)) w = Ok (tt, w') ->
  (forall e, In e (liveEvents w) -> verifyAuditEvent e (AUDIT_INTEGRITY_SECRET env) = true) ->
  List.NoDup (List.map aud_id (auditEvents w')) -> ~ In EmptyString (List.map aud_id (auditEvents w')) ->
  length (auditEvents w') < fuel -> auditVerifyMain signal fuel amb w' = (Ok (Some 0%Z), w').
Proof.
  intros Hh Hs Hrun Hall Hnd Hne Hf. destruct (auditVerifyMain_code fuel amb w' Hnd Hne Hf) as (code & Hcode & Hz).
  rewrite Hcode, (proj2 Hz); [done|]. by apply (writes_verified writes w).
Qed.
End Verify.

(** ** The backfill *)

Section Backfill.
Context `{Platform}.
Hypothesis hmac_nonempty : forall k d, hmacSha256 k d <> EmptyString.

Definition signedRow (amb : Ambient) (event e : AuditEvent) : AuditEvent :=
  e <| aud_integrityHash := signAuditEvent event (AUDIT_INTEGRITY_SECRET env) |> <| aud_updatedAt := nowMs amb |>.

Lemma signEvents_runs amb l : forall updated w, exists updated' w', signEvents amb l updated w = (Ok updated', w')
  /\ countWhere unsigned (auditEvents w') <= countWhere unsigned (auditEvents w)
  /\ (forall e, In e l -> In e (auditEvents w) -> unsigned e = true ->
       countWhere unsigned (auditEvents w') < countWhere unsigned (auditEvents w)).
Proof.
  induction l as [|event l IH]; intros updated w; cbn [signEvents].
  { exists updated, w. split; [done|]. split; [lia|]. intros ? []. }
  rewrite (proc_step _ _ _ _ _ eq_refl).
  set (P := fun e : AuditEvent => (aud_id e === aud_id event) && unsigned e). set (w1 := put _ w).
  assert (Hlater : countWhere unsigned (auditEvents w1) + countWhere P (auditEvents w) = countWhere unsigned (auditEvents w)).
  { change (auditEvents w1) with (updateWhere P (signedRow amb event) (auditEvents w)).
    rewrite (countWhere_update_out P unsigned).
    - rewrite (countWhere_split P unsigned (auditEvents w)). rewrite Nat.add_comm. f_equal. apply countWhere_ext.
      intros r _. unfold P. destruct (unsigned r); by rewrite ?andb_true_r, ?andb_false_r.
    - intros r _. unfold unsigned. cbn. apply bd_ne. apply hmac_nonempty. }
  destruct (IH (updated + Z.of_nat (countWhere P (auditEvents w)))%Z w1) as (n & w' & Hrun & Hle & Hlt).
  exists n, w'. split; [exact Hrun|]. split; [lia|]. intros e He Hin Hu.
  destruct (P e) eqn:EP.
  { assert (0 < countWhere P (auditEvents w)) by (apply countWhere_pos; eauto). lia. }
  destruct He as [->|He]; [unfold P in EP; by rewrite bd_refl, Hu in EP|].
  assert (Hin1 : In e (auditEvents w1)).
  { change (auditEvents w1) with (updateWhere P (signedRow amb event) (auditEvents w)). apply In_updateWhere.
    exists e. by rewrite EP. }
  specialize (Hlt e He Hin1 Hu). lia.
Qed.

(** The backfill ends with every row carrying a hash. *)
Lemma auditBackfill_ends fuel amb : forall updated w, countWhere unsigned (auditEvents w) < fuel ->
  exists updated' w', auditBackfill fuel amb updated w = (Ok (Some updated'), w') /\ countWhere unsigned (auditEvents w') = 0.
Proof.
  induction fuel as [|fuel IH]; intros updated w Hf; [lia|]. cbn [auditBackfill].
  set (page := firstn BATCH_SIZE (orderAscId aud_createdAt aud_id (findMany unsigned (auditEvents w)))).
  rewrite (proc_step _ _ _ page w eq_refl). destruct page as [|e page'] eqn:Ep.
  - exists updated, w. split; [done|]. subst page. apply (f_equal (@List.length _)) in Ep.
    rewrite List.length_firstn in Ep. unfold orderAscId in Ep. rewrite merge_sort_Permutation, length_findMany in Ep.
    unfold BATCH_SIZE in Ep. cbn [length] in Ep. lia.
  - cbn [length Nat.eqb]. destruct (signEvents_runs amb (e :: page') updated w) as (n & w1 & Hrun & _ & Hlt).
    rewrite (proc_call _ _ _ _ _ Hrun). apply IH.
    assert (He : In e page) by (rewrite Ep; by left). unfold page in He. apply In_firstn, In_orderAscId, In_findMany in He as [He Hu].
    specialize (Hlt e (or_introl eq_refl) He Hu). lia.
Qed.

(** The entries of a signed payload in the order of their keys, for both versions. *)
Lemma sort_v2 (a b c d e f g h i j k l m o : string) : sortEntries
  [("version", a); ("organizationId", b); ("id", c); ("actorUserId", d); ("action", e); ("entityType", f); ("entityId", g);
   ("requestId", h); ("ipHash", i); ("userAgent", j); ("metadata", k); ("createdAt", l); ("updatedAt", m); ("deletedAt", o)]
  = [("action", e); ("actorUserId", d); ("createdAt", l); ("deletedAt", o); ("entityId", g); ("entityType", f); ("id", c); ("ipHash", i); ("metadata", k); ("organizationId", b);
   ("requestId", h); ("updatedAt", m); ("userAgent", j); ("version", a)].
Proof. reflexivity. Qed.
Lemma sort_v1 (a c d e f g h i j k l m o : string) : sortEntries
  [("version", a); ("id", c); ("actorUserId", d); ("action", e); ("entityType", f); ("entityId", g);
   ("requestId", h); ("ipHash", i); ("userAgent", j); ("metadata", k); ("createdAt", l); ("updatedAt", m); ("deletedAt", o)]
  = [("action", e); ("actorUserId", d); ("createdAt", l); ("deletedAt", o); ("entityId", g); ("entityType", f); ("id", c); ("ipHash", i); ("metadata", k);
   ("requestId", h); ("updatedAt", m); ("userAgent", j); ("version", a)].
Proof. reflexivity. Qed.

(** An object's text around one of its values. *)
Definition text (kv : string * string) : string := jsonString (fst kv) ++ ":" ++ snd kv.
Lemma join_around pre (k : string) post : exists before after, forall v,
  "{" ++ join "," (List.map text (pre ++ (k, v) :: post)%list) ++ "}" = before ++ v ++ after.
Proof.
  assert (Hm : exists before after, forall v, join "," (List.map text (pre ++ (k, v) :: post)%list) = before ++ v ++ after).
  { induction pre as [|x pre (b & a & IH)]; cbn [app List.map].
    - destruct (List.map text post) as [|y l] eqn:E.
      + exists (jsonString k ++ ":"), "". intros v. cbn [join]. unfold text. cbn [fst snd]. by rewrite append_nil_r, append_assoc.
      + exists (jsonString k ++ ":"), ("," ++ join "," (y :: l)). intros v. rewrite join_cons. unfold text. cbn [fst snd].
        by rewrite !append_assoc.
    - exists (text x ++ "," ++ b), a. intros v. rewrite join_cons. rewrite IH.
      destruct (List.map text (pre ++ (k, v) :: post)) eqn:E; [|by rewrite !append_assoc].
      rewrite List.map_app in E. by destruct (List.map text pre). }
  destruct Hm as (b & a & Hm). exists ("{" ++ b), (a ++ "}"). intros v. rewrite Hm. by rewrite !append_assoc.
Qed.

(** The canonical text of an event around its [updatedAt]. *)
Lemma canonical_updatedAt event : exists before after, forall t,
  canonicalJson (auditPayload (event <| aud_updatedAt := t |>)) = before ++ jsonString (toISOString t) ++ after.
Proof.
  assert (Hj : exists pre post, forall t, canonicalJson (auditPayload (event <| aud_updatedAt := t |>))
      = "{" ++ join "," (List.map text (pre ++ ("updatedAt", jsonString (toISOString t)) :: post)%list) ++ "}").
  { unfold auditPayload.
    cbn [field_set AuditEvent_eta aud_id aud_organizationId aud_actorUserId aud_action aud_entityType aud_entityId aud_requestId
         aud_ipHash aud_userAgent aud_metadata aud_integrityVersion aud_createdAt aud_updatedAt aud_deletedAt]. destruct (2 <=? aud_integrityVersion event)%Z.
    - refine (ex_intro _ [_; _; _; _; _; _; _; _; _; _; _] (ex_intro _ [_; _] _)). intros t. cbn [canonicalJson app List.map fst snd]. rewrite sort_v2. reflexivity.
    - refine (ex_intro _ [_; _; _; _; _; _; _; _; _; _] (ex_intro _ [_; _] _)). intros t. cbn [canonicalJson app List.map fst snd]. rewrite sort_v1. reflexivity. }
  destruct Hj as (pre & post & Hj). destruct (join_around pre "updatedAt" post) as (b & a & Hb).
  exists b, a. intros t. by rewrite Hj, Hb.
Qed.

Lemma jsonString_inj s t : jsonString s = jsonString t -> s = t.
Proof. intros Hq. pose proof (jsonParse_stringify (JStr s) I) as H1. pose proof (jsonParse_stringify (JStr t) I) as H2.
  cbn [jsonStringify] in *. rewrite Hq, H2 in H1. congruence. Qed.

(** Two instants that print alike apart, the signed texts differ. *)
Lemma canonical_differs event t t' : toISOString t <> toISOString t' ->
  canonicalJson (auditPayload (event <| aud_updatedAt := t |>)) <> canonicalJson (auditPayload (event <| aud_updatedAt := t' |>)).
Proof.
  intros Ht. destruct (canonical_updatedAt event) as (b & a & Hc). rewrite !Hc. intros Hq.
  apply append_inj_l, append_inj_r, jsonString_inj in Hq. done.
Qed.

(** *** Where the backfill leaves each row *)

Section Rows.
Variables (amb : Ambient) (w0 : World).
Hypothesis distinct : List.NoDup (List.map aud_id (auditEvents w0)).

Definition backfilled (e e' : AuditEvent) : Prop := e' = e \/ (unsigned e = true /\ e' = signedRow amb e e).
Definition backfilling (w : World) : Prop := List.Forall2 backfilled (auditEvents w0) (auditEvents w).

Lemma backfilling_row w e : backfilling w -> In e (auditEvents w) -> unsigned e = true -> In e (auditEvents w0).
Proof.
  clear distinct. unfold backfilling. induction 1 as [|x y l l' Hxy _ IH]; [done|]. intros Hin Hu.
  destruct Hin as [->|Hin]; [|right; by apply IH]. destruct Hxy as [->|[_ ->]]; [by left|].
  unfold unsigned in Hu. cbn in Hu. bools. by apply hmac_nonempty in Hu.
Qed.

Lemma signEvent_backfilling event w : backfilling w -> In event (auditEvents w0) ->
  backfilling (put (updateWhere (fun e => (aud_id e === aud_id event) && unsigned e) (signedRow amb event)) w).
Proof.
  intros Hb He. set (P := fun e : AuditEvent => (aud_id e === aud_id event) && unsigned e).
  assert (Hone : forall e, In e (auditEvents w) -> P e = true -> e = event /\ unsigned e = true).
  { intros e Hin Hp. unfold P in Hp. bools. split; [|done].
    apply (NoDup_key_inj aud_id (auditEvents w0)); [done|by apply (backfilling_row w)|done|done]. }
  unfold backfilling in *. change (auditEvents (put (updateWhere P (signedRow amb event)) w)) with (updateWhere P (signedRow amb event) (auditEvents w)).
  clear He distinct. induction Hb as [|x y l l' Hxy _ IH]; [constructor|]. cbn. constructor; [|apply IH; intros; apply Hone; [by right|done]].
  destruct (P y) eqn:E; [|done]. destruct (Hone y (or_introl eq_refl) E) as [-> Hu]. right.
  destruct Hxy as [->|[_ Hf]]; [done|]. rewrite Hf in Hu. unfold unsigned in Hu. cbn in Hu. bools. by apply hmac_nonempty in Hu.
Qed.

Lemma signEvents_backfilling l : (forall e, In e l -> In e (auditEvents w0)) -> forall updated, proc_pres backfilling (signEvents amb l updated).
Proof.
  induction l as [|event l IH]; intros Hl updated; cbn [signEvents]; [apply pres_proc_ret|].
  apply pres_proc_bind; [|intros n; apply IH; intros; apply Hl; by right].
  apply pres_transact. intros w n w' Hw [= _ <-]. apply signEvent_backfilling; [done|]. apply Hl. by left.
Qed.

Lemma auditBackfill_backfilling fuel : forall updated, proc_pres backfilling (auditBackfill fuel amb updated).
Proof.
  induction fuel as [|fuel IH]; intros updated; cbn [auditBackfill]; [apply pres_proc_ret|].
  intros w Hw. set (page := firstn BATCH_SIZE (orderAscId aud_createdAt aud_id (findMany unsigned (auditEvents w)))).
  rewrite (proc_step _ _ _ page w eq_refl). destruct (_ =? _)%nat; [done|].
  revert w Hw page. intros w Hw page. refine (pres_proc_bind _ _ _ _ (fun n => IH n) w Hw).
  apply signEvents_backfilling. intros e He. apply In_firstn, In_orderAscId, In_findMany in He as [He Hu].
  by apply (backfilling_row w).
Qed.
End Rows.

(** The backfill of unsigned audit rows ends with a hash on every row, but its update also moves the signed
    [updatedAt] to the time of the run, so a row it signed does not verify - unless it was last updated at that very
    instant: the verification then reports the trail it has just signed as tampered. *)
Theorem backfilled_rows_fail_verification fuel amb w : (forall k d d', hmacSha256 k d = hmacSha256 k d' -> d = d') ->
  List.NoDup (List.map aud_id (auditEvents w)) -> countWhere unsigned (auditEvents w) < fuel ->
  exists updated w', auditBackfill fuel amb 0 w = (Ok (Some updated), w')
    /\ (forall e, In e (auditEvents w') -> unsigned e = false)
    /\ (forall e, In e (auditEvents w) -> unsigned e = true -> toISOString (aud_updatedAt e) <> toISOString (nowMs amb) ->
         exists e', In e' (auditEvents w') /\ aud_id e' = aud_id e /\ verifyAuditEvent e' (AUDIT_INTEGRITY_SECRET env) = false).
Proof.
  intros Hinj Hnd Hf. destruct (auditBackfill_ends fuel amb 0 w Hf) as (n & w' & Hrun & Hz). exists n, w'. split; [done|].
  rewrite countWhere_0 in Hz. split; [done|]. intros e He Hu Ht.
  assert (Hb : backfilling amb w w').
  { assert (Hstart : backfilling amb w w) by (unfold backfilling; generalize (auditEvents w); intros l; induction l; constructor; [by left|done]).
    pose proof (auditBackfill_backfilling amb w Hnd fuel 0 w Hstart) as Hb. by rewrite Hrun in Hb. }
  assert (He' : In (signedRow amb e e) (auditEvents w')).
  { unfold backfilling in Hb. clear - He Hu Hz Hb. induction Hb as [|x y l l' Hxy _ IH]; [done|].
    destruct He as [->|He]; [|right; apply IH; [intros; apply Hz; by right|done]]. left.
    destruct Hxy as [->|[_ ->]]; [|done]. rewrite Hz in Hu; [done|by left]. }
  exists (signedRow amb e e). split; [done|]. split; [done|]. unfold verifyAuditEvent.
  destruct (_ || _); [done|]. apply andb_false_iff. right. unfold constantTimeEqual. destruct (_ =? _)%nat; [|done].
  apply bd_ne. unfold signedRow. cbn [aud_integrityHash field_set AuditEvent_eta]. unfold signAuditEvent. rewrite signingSecret_idem.
  intros Hq. apply Hinj in Hq. apply (canonical_differs e (aud_updatedAt e) (nowMs amb) Ht). rewrite <- Hq at 1.
  by destruct e.
Qed.
End Backfill.

(** ** Runs *)

Section Witness.
Local Existing Instance demoPlatform.

Lemma demo_hmac_inj : forall k d d', hmacSha256 k d = hmacSha256 k d' -> d = d'.
Proof. intros k d d' Hq. apply append_inj_l in Hq. by apply append_inj_l in Hq. Qed.

Definition auditDemo : Ambient := mkAmbient 1000 (Some (Request "req" (Some "u1") (Some "org-a"))).
Definition roleCreated (role : string) : AuditInput :=
  mkAuditInput (Some "u1") "role.created" "role" (Some role) (Some "req") (Some "10.0.0.1") None None.
Definition auditedWrites : list (Ambient * AuditInput) := [(auditDemo, roleCreated "r1"); (auditDemo, roleCreated "r2")].
Definition trail : World := match tx_for auditedWrites (fun ai => writeAuditEvent (fst ai) (snd ai)) emptyWorld with Ok (_, w) => w | Err _ => emptyWorld end.
(** The same trail with the action of its second row rewritten by hand. *)
Definition forged : World :=
  trail <| auditEvents ::= updateWhere (fun e => aud_entityId e === Some "r2") (fun e => e <| aud_action := "role.deleted" |>) |>.

Example audit_writes_pass_verification_witness : auditVerifyMain (fun _ => None) 10 auditDemo trail = (Ok (Some 0%Z), trail).
Proof.
  refine (audit_writes_pass_verification (fun _ => None) (fun _ => eq_refl) 10 auditDemo auditedWrites emptyWorld trail
    demo_hmac_nonempty _ _ _ _ _ _).
  - discriminate.
  - vm_compute. reflexivity.
  - intros e [].
  - vm_compute. repeat constructor; cbn; intuition discriminate.
  - vm_compute. intuition discriminate.
  - vm_compute. lia.
Defined.

Example audit_verification_exact_witness : exists result code,
  verifyAuditIntegrity (fun _ => None) 10 forged = (Ok (Some result), forged)
  /\ auditVerifyMain (fun _ => None) 10 auditDemo forged = (Ok (Some code), forged)
  /\ result = mkIntegrityResult 1 0 1 /\ code = 1%Z.
Proof.
  destruct (audit_verification_exact (fun _ => None) (fun _ => eq_refl) 10 auditDemo forged) as (result & code & H1 & _ & H2 & _).
  - vm_compute. repeat constructor; cbn; intuition discriminate.
  - vm_compute. intuition discriminate.
  - vm_compute. lia.
  - exists result, code. split; [exact H1|]. split; [exact H2|].
    vm_compute in H1. injection H1 as <-. vm_compute in H2. injection H2 as <-. split; reflexivity.
Defined.

(** A row from before the integrity migration. *)
Definition legacyRow : AuditEvent :=
  mkAuditEvent "a1" None (Some "u1") "role.created" "role" (Some "r1") None None None None EmptyString 1 500 500 None.

Example backfilled_rows_fail_verification_witness : exists updated w',
  auditBackfill 3 auditDemo 0 (emptyWorld <| auditEvents := [legacyRow] |>) = (Ok (Some updated), w')
  /\ exists e', In e' (auditEvents w') /\ aud_id e' = "a1" /\ verifyAuditEvent e' (AUDIT_INTEGRITY_SECRET env) = false.
Proof.
  destruct (backfilled_rows_fail_verification demo_hmac_nonempty 3 auditDemo (emptyWorld <| auditEvents := [legacyRow] |>) demo_hmac_inj)
    as (n & w' & Hrun & _ & Hfail).
  - repeat constructor. intros [].
  - vm_compute. lia.
  - exists n, w'. split; [exact Hrun|]. apply (Hfail legacyRow); [by left|reflexivity|vm_compute; discriminate].
Defined.
End Witness.
