(* ===== verification/TenancyBackfill.v ===== *)
(** * Giving an installation without tenants its first one

    scripts/tenancy-backfill.ts: one serializable transaction on the plain client (no filter is added to its queries)
    that creates or finds the organization, makes every live user a member, and moves the rows without an
    organization into it. A unique constraint violated by raw SQL is P2010.

    Nothing owned is without an organization afterwards, every live user is an active member, and what requests of the
    organization look up is what the installation had: direct conversations, bandwidth meters, audit rows. Audit rows
    are re-signed unread, so a row tampered with before the run verifies after it. *)

From Stdlib Require Import ZArith Lia Bool.
From S2P Require Import Prelude Store Database JsString JsonText Platform Request AuditTrail Sessions UploadStorage Uploads Chat.

Open Scope string_scope.

(** The command line. *)
Record BackfillArguments := mkBackfillArguments {
  ba_apply : bool; ba_organizationId : option string; ba_organizationSlug : string; ba_organizationName : string
}.

(** [valueOf(name)] *)
Definition valueOf (argv : list string) (name : string) : option string :=
  (fun value => drop_str (S (String.length name)) value) <$> List.find (fun value => startsWith value (name ++ "=")) argv.

Definition parseArguments (argv : list string) : BackfillArguments :=
  mkBackfillArguments (existsb (fun a => a === "--apply") argv) (valueOf argv "--organization-id")
    (valueOf argv "--organization-slug" ??? "default") (valueOf argv "--organization-name" ??? "Default").

(** [text LIKE 'global:%'] and ["directKey" FROM 7] *)
Definition rehome (organizationId : string) (key : option string) : option string :=
  match key with
  | Some k => if startsWith k "global:" then Some (organizationId ++ drop_str 6 k) else key
  | None => None
  end.

Section Backfill.
Context `{Platform}.

(** [UPDATE .. SET .. WHERE ..] on a column under a unique constraint. *)
Definition rawUpdate {R} `{Model World R} (P : R -> bool) (f : R -> R) : Tx World unit := fun w =>
  if clashes P f (table w) then Err (Known "P2010") else Ok (tt, put (updateWhere P f) w).

Definition findTarget (args : BackfillArguments) : Tx World (option Organization) :=
  match ba_organizationId args with
  | Some id => tx_findFirst_raw (fun o => org_id o === id)
  | None => tx_findFirst_raw (fun o => org_slug o === ba_organizationSlug args)
  end.

Definition createTarget (amb : Ambient) (args : BackfillArguments) : Tx World Organization :=
  fresh ← newId;
  tx_create (mkOrganization (ba_organizationId args ??? fresh) (ba_organizationSlug args) (ba_organizationName args)
    Org_ACTIVE 0 None None (nowMs amb) None).

(** [INSERT .. SELECT .. ON CONFLICT DO UPDATE], a user at a time. *)
Definition enrol (amb : Ambient) (organizationId roleId : string) (user : User) : Tx World unit :=
  id ← newId;
  _ ← tx_upsert (fun m => (mem_organizationId m === organizationId) && (mem_userId m === user_id user))
    (mkMembership id organizationId (user_id user) roleId Mem_ACTIVE (Some (nowMs amb)) (nowMs amb) None)
    (fun m => m <| mem_status := Mem_ACTIVE |> <| mem_deletedAt := None |>);
  mret tt.

(** [for (const table of ownedTables)] *)
Definition adoptRows (organizationId : string) : Tx World unit :=
  let home := Some organizationId in
  rawUpdate (fun u => is_null (up_organizationId u)) (fun u => u <| up_organizationId := home |>);;
  rawUpdate (fun b => is_null (bw_organizationId b)) (fun b => b <| bw_organizationId := home |>);;
  rawUpdate (fun i => is_null (item_organizationId i)) (fun i => i <| item_organizationId := home |>);;
  rawUpdate (fun c => is_null (conv_organizationId c)) (fun c => c <| conv_organizationId := home |>);;
  rawUpdate (fun p => is_null (part_organizationId p)) (fun p => p <| part_organizationId := home |>);;
  rawUpdate (fun m => is_null (msg_organizationId m)) (fun m => m <| msg_organizationId := home |>);;
  rawUpdate (fun d => is_null (del_organizationId d)) (fun d => d <| del_organizationId := home |>).

(** The audit rows without an organization, re-signed one by one; [updatedAt] is kept. *)
Definition readopt (organizationId : string) (event : AuditEvent) : AuditEvent :=
  let moved := event <| aud_organizationId := Some organizationId |> in
  moved <| aud_integrityHash := signAuditEvent moved (AUDIT_INTEGRITY_SECRET env) |>.

Definition resignAudit (organizationId : string) : Tx World unit :=
  auditEvents ← tx_findMany_raw (fun e => is_null (aud_organizationId e));
  tx_for auditEvents (fun event =>
    _ ← tx_update_raw (fun e => aud_id e === aud_id event)
      (fun e => e <| aud_organizationId := Some organizationId |>
                  <| aud_integrityHash := aud_integrityHash (readopt organizationId event) |>
                  <| aud_updatedAt := aud_updatedAt event |>);
    mret tt).

Definition backfillTransaction (amb : Ambient) (args : BackfillArguments) (existing : option Organization) : Tx World string :=
  organization ← (match existing with Some o => mret o | None => createTarget amb args end);
  let organizationId := org_id organization in
  memberRole ← tx_findFirst_raw (fun r => (role_name r === "member") && is_null (role_organizationId r) && is_null (role_deletedAt r));
  memberRole ← tx_require memberRole (Failure "Global member role is missing; run npm run db:seed first");
  live ← tx_findMany_raw (fun u => is_null (user_deletedAt u));
  tx_for live (enrol amb organizationId (role_id memberRole));;
  _ ← tx_updateMany_raw (fun s => is_null (sess_activeOrganizationId s) && is_null (sess_deletedAt s))
    (fun s => s <| sess_activeOrganizationId := Some organizationId |>);
  adoptRows organizationId;;
  rawUpdate (fun b => bw_organizationId b === Some organizationId)
    (fun b => b <| bw_scopeKey := "organization:" ++ organizationId ++ ":user:" ++ bw_userId b |>);;
  rawUpdate (fun c => (conv_type c === Conv_DIRECT) && (conv_organizationId c === Some organizationId)
                      && match conv_directKey c with Some k => startsWith k "global:" | None => false end)
    (fun c => c <| conv_directKey := rehome organizationId (conv_directKey c) |>);;
  resignAudit organizationId;;
  mret organizationId.

(** [main]: without [--apply] it only reports; the answer is the organization it moved the rows to. *)
Definition main (amb : Ambient) (args : BackfillArguments) : Proc World (option string) :=
  if TENANCY_MODE env !== Tenancy_disabled
  then throw (Failure "Run the backfill while TENANCY_MODE=disabled and application writers are stopped")
  else
    existing ← transact (findTarget args);
    if negb (ba_apply args) then mret None
    else organizationId ← transact (backfillTransaction amb args existing); mret (Some organizationId).
End Backfill.

(** ** What the tenancy backfill leaves behind *)

Section Backfill.
Context `{Platform}.

Lemma rawUpdate_ok {R} `{Model World R} P f w u w' : rawUpdate P f w = Ok (u, w') -> w' = put (updateWhere P f) w.
Proof. unfold rawUpdate. destruct (clashes P f (table w)); [done|]. by intros [= _ <-]. Qed.

Lemma pres_rawUpdate {R} `{Model World R} (I : World -> Prop) P f : (forall w, I w -> I (put (updateWhere P f) w)) -> tx_pres I (rawUpdate P f).
Proof. intros HI w u w' Hw Hr. apply rawUpdate_ok in Hr as ->. by apply HI. Qed.

(** ** The audit rows *)

Section Resign.
Variable organizationId : string.

Definition adopted (e : AuditEvent) : AuditEvent := if is_null (aud_organizationId e) then readopt organizationId e else e.
Definition readoptStep (event e : AuditEvent) : AuditEvent :=
  e <| aud_organizationId := Some organizationId |> <| aud_integrityHash := aud_integrityHash (readopt organizationId event) |>
    <| aud_updatedAt := aud_updatedAt event |>.

Lemma readoptStep_self e : readoptStep e e = readopt organizationId e.
Proof. by destruct e. Qed.

Definition readoptAll (l : list AuditEvent) : Tx World unit :=
  tx_for l (fun event =>
    _ ← tx_update_raw (fun e => aud_id e === aud_id event) (readoptStep event);
    mret tt).

Lemma readoptAll_effect l : forall t w w', auditEvents w = t -> readoptAll l w = Ok (tt, w') ->
  List.NoDup (List.map aud_id l) -> (forall e, In e l -> forall e', In e' t -> aud_id e' = aud_id e -> e' = e) ->
  auditEvents w' = List.map (fun e => if existsb (fun e' => aud_id e === aud_id e') l then readopt organizationId e else e) t.
Proof.
  induction l as [|event l IH]; intros t w w' Ht Hrun Hnd Hsame; cbn [readoptAll tx_for] in Hrun.
  - apply ret_ok in Hrun as [_ <-]. rewrite Ht. symmetry. apply List.map_id.
  - apply bind_ok in Hrun as ([] & w1 & H1 & Hrun). apply bind_ok in H1 as (r & w1' & H1 & [_ ->]%ret_ok).
    cbn in Hnd. apply List.NoDup_cons_iff in Hnd as [Hev Hnd].
    assert (Hw1 : auditEvents w1 = updateWhere (fun e => aud_id e === aud_id event) (readoptStep event) t).
    { unfold tx_update_raw in H1. destruct (findFirst _ _); [|done]. injection H1 as _ <-. rewrite <- Ht. done. }
    assert (Hmid : updateWhere (fun e => aud_id e === aud_id event) (readoptStep event) t
                   = List.map (fun e => if aud_id e === aud_id event then readopt organizationId e else e) t).
    { unfold updateWhere. apply List.map_ext_in. intros e He. destruct (aud_id e === aud_id event) eqn:E; [|done].
      bools. rewrite (Hsame event (or_introl eq_refl) e He E). apply readoptStep_self. }
    rewrite Hmid in Hw1. rewrite (IH _ w1 w' Hw1 Hrun Hnd).
    + rewrite List.map_map. apply List.map_ext_in. intros e He. cbn [existsb].
      destruct (aud_id e === aud_id event) eqn:E; cbn [orb]; [|done]. bools.
      change (aud_id (readopt organizationId e)) with (aud_id e). rewrite E.
      destruct (existsb _ l) eqn:E2; [|done]. apply existsb_exists in E2 as (x & Hx & Hid). bools. exfalso. apply Hev.
      rewrite Hid. by apply List.in_map.
    + intros e He e' He' Hid. apply List.in_map_iff in He' as (x & Hx & Hin).
      destruct (aud_id x === aud_id event) eqn:E; [|subst; by apply Hsame; [right|..]]. bools. exfalso. apply Hev.
      rewrite <- E. subst e'. change (aud_id (readopt organizationId x)) with (aud_id x) in Hid. rewrite Hid. by apply List.in_map.
Qed.

Lemma resignAudit_effect w w' : List.NoDup (List.map aud_id (auditEvents w)) -> resignAudit organizationId w = Ok (tt, w') ->
  auditEvents w' = List.map adopted (auditEvents w).
Proof.
  intros Hnd Hrun. unfold resignAudit in Hrun. apply bind_ok in Hrun as (l & w1 & H1 & Hrun). injection H1 as <- <-.
  set (l := findMany (fun e => is_null (aud_organizationId e)) (auditEvents w)) in *.
  rewrite (readoptAll_effect l (auditEvents w) w w' eq_refl Hrun).
  - apply List.map_ext_in. intros e He. unfold adopted. destruct (existsb _ l) eqn:E.
    + apply existsb_exists in E as (x & Hx & Hid). bools. unfold l in Hx. apply In_findMany in Hx as [Hx Hn].
      by rewrite (NoDup_key_inj aud_id _ e x Hnd He Hx Hid), Hn.
    + destruct (is_null (aud_organizationId e)) eqn:En; [|done].
      assert (Hex : existsb (fun e' => aud_id e === aud_id e') l = true); [|congruence]. apply existsb_exists. exists e. split; [by apply In_findMany|by rewrite bd_refl].
  - by apply NoDup_map_findMany.
  - intros e He e' He' Hid. apply In_findMany in He as [He _]. by apply (NoDup_key_inj aud_id (auditEvents w)).
Qed.

Lemma pres_resignAudit (I : World -> Prop) : (forall g w, I w -> I (put (R := AuditEvent) g w)) -> tx_pres I (resignAudit organizationId).
Proof.
  intros HI. unfold resignAudit. apply pres_bind; [apply pres_findMany_raw|intros l]. apply pres_for. intros e.
  apply pres_bind; [apply pres_update_raw; intros; by apply HI|intros; apply pres_ret].
Qed.

Lemma adopted_verifies e : (forall k d, hmacSha256 k d <> EmptyString) -> signingSecret (AUDIT_INTEGRITY_SECRET env) <> EmptyString ->
  aud_organizationId e = None -> verifyAuditEvent (adopted e) (AUDIT_INTEGRITY_SECRET env) = true.
Proof. intros Hh Hs Ho. unfold adopted. rewrite Ho. cbn [is_null]. unfold readopt. by apply verify_signed. Qed.
End Resign.

(** ** The members *)

Definition isMember (organizationId userId : string) (w : World) : Prop := exists m, In m (memberships w) /\
  mem_organizationId m = organizationId /\ mem_userId m = userId /\ mem_status m = Mem_ACTIVE /\ mem_deletedAt m = None.

Lemma pres_enrol (I : World -> Prop) amb o role user : (forall n w, I w -> I (w <| drawn := n |>)) ->
  (forall g w, I w -> I (put (R := Membership) g w)) -> tx_pres I (enrol amb o role user).
Proof.
  intros H1 H2. unfold enrol. apply pres_bind; [by apply pres_newId|intros id].
  apply pres_bind; [apply pres_upsert; intros; by apply H2|intros; apply pres_ret].
Qed.

Lemma enrol_keeps_members amb o role user uid : tx_pres (isMember o uid) (enrol amb o role user).
Proof.
  unfold enrol. apply pres_bind; [by apply pres_newId|intros id]. apply pres_bind; [|intros; apply pres_ret].
  apply pres_upsert.
  - intros w (m & Hm & Ho & Hu & Hs & Hd). set (P := fun m : Membership => _ : bool).
    exists (if P m then m <| mem_status := Mem_ACTIVE |> <| mem_deletedAt := None |> else m).
    split; [apply In_updateWhere; by exists m|]. by destruct (P m).
  - intros w (m & Hm & Hrest) _. exists m. split; [|done]. apply in_or_app. by left.
Qed.

Lemma enrol_member amb o role user w w' : enrol amb o role user w = Ok (tt, w') -> isMember o (user_id user) w'.
Proof.
  unfold enrol. intros Hrun. tx_inv Hrun. injection Hrun0 as <- <-. unfold tx_upsert in Hrun1.
  destruct (findFirst _ _) as [m|] eqn:Ef.
  - injection Hrun1 as _ <-. apply findFirst_Some in Ef as [Hm [Ho Hu]%andb_true_iff]. bools.
    eexists. split; [apply In_updateWhere; exists m; split; [done|reflexivity]|].
    rewrite Ho, Hu, !bd_refl. cbn. done.
  - apply create_ok in Hrun1 as (_ & -> & _). eexists. split; [apply in_or_app; right; by left|]. done.
Qed.

Lemma enrolAll_members amb o role l : forall w w', tx_for l (enrol amb o role) w = Ok (tt, w') ->
  forall u, In u l -> isMember o (user_id u) w'.
Proof.
  induction l as [|x l IH]; intros w w' Hrun u Hu; [done|]. cbn [tx_for] in Hrun. apply bind_ok in Hrun as ([] & w1 & H1 & H2).
  destruct Hu as [->|Hu]; [|by eapply IH]. apply enrol_member in H1.
  eapply (pres_for (isMember o (user_id u))); [intros x'; apply enrol_keeps_members|exact H1|exact H2].
Qed.

(** ** The transaction *)

Definition adoptBy {R} (org : R -> option string) (home : R -> R) (t : list R) : list R := updateWhere (fun r => is_null (org r)) home t.
Definition meterOf (o : string) (b : UploadBandwidthUsage) : UploadBandwidthUsage :=
  b <| bw_scopeKey := "organization:" ++ o ++ ":user:" ++ bw_userId b |>.
Definition globalDirect (o : string) (c : Conversation) : bool :=
  (conv_type c === Conv_DIRECT) && (conv_organizationId c === Some o)
  && match conv_directKey c with Some k => startsWith k "global:" | None => false end.
Definition rehomed (o : string) (c : Conversation) : Conversation := c <| conv_directKey := rehome o (conv_directKey c) |>.

(** The tables the transaction moves rows of, the audit trail apart. *)
Definition ownedTables (w : World) :=
  (uploads w, chargeableItems w, conversationParticipants w, messages w, notificationDeliveries w,
   uploadBandwidthUsages w, conversations w, sessions w, users w).

(** What each part of a committed run did to the tables. *)
Record backfillRun (w : World) (o : string) (w' : World) : Prop := {
  br_uploads : uploads w' = adoptBy up_organizationId (fun u => u <| up_organizationId := Some o |>) (uploads w);
  br_items : chargeableItems w' = adoptBy item_organizationId (fun i => i <| item_organizationId := Some o |>) (chargeableItems w);
  br_participants : conversationParticipants w'
    = adoptBy part_organizationId (fun p => p <| part_organizationId := Some o |>) (conversationParticipants w);
  br_messages : messages w' = adoptBy msg_organizationId (fun m => m <| msg_organizationId := Some o |>) (messages w);
  br_deliveries : notificationDeliveries w'
    = adoptBy del_organizationId (fun d => d <| del_organizationId := Some o |>) (notificationDeliveries w);
  br_bandwidth : uploadBandwidthUsages w' = updateWhere (fun b => bw_organizationId b === Some o) (meterOf o)
    (adoptBy bw_organizationId (fun b => b <| bw_organizationId := Some o |>) (uploadBandwidthUsages w));
  br_conversations : conversations w' = updateWhere (globalDirect o) (rehomed o)
    (adoptBy conv_organizationId (fun c => c <| conv_organizationId := Some o |>) (conversations w));
  br_sessions : sessions w' = updateWhere (fun s => is_null (sess_activeOrganizationId s) && is_null (sess_deletedAt s))
    (fun s => s <| sess_activeOrganizationId := Some o |>) (sessions w);
  br_members : forall u, In u (users w) -> user_deletedAt u = None -> isMember o (user_id u) w';
  br_audit : exists w1, auditEvents w1 = auditEvents w /\ resignAudit o w1 = Ok (tt, w')
}.

Ltac column T w2 w := let Hq := fresh in assert (Hq : T w2 = T w) by congruence; rewrite <- Hq; assumption.

Lemma backfillTransaction_run amb args existing w o w' : backfillTransaction amb args existing w = Ok (o, w') -> backfillRun w o w'.
Proof.
  unfold backfillTransaction. intros Hrun. apply bind_ok in Hrun as (organization & w1 & Horg & Hrun).
  apply bind_ok in Hrun as (role0 & w1' & Hr1 & Hrun). injection Hr1 as <- <-.
  apply bind_ok in Hrun as (role & w1' & [_ <-]%require_ok & Hrun).
  apply bind_ok in Hrun as (live & w1' & Hl & Hrun). injection Hl as <- <-.
  apply bind_ok in Hrun as ([] & w2 & Henrol & Hrun). apply bind_ok in Hrun as (n & w3 & Hs & Hrun). injection Hs as _ <-.
  apply bind_ok in Hrun as ([] & w4 & Hadopt & Hrun). apply bind_ok in Hrun as ([] & w5 & ->%rawUpdate_ok & Hrun).
  apply bind_ok in Hrun as ([] & w6 & ->%rawUpdate_ok & Hrun). apply bind_ok in Hrun as ([] & w7 & Hresign & [<- <-]%ret_ok).
  set (o := org_id organization) in *.
  assert (E1 : ownedTables w1 = ownedTables w /\ auditEvents w1 = auditEvents w).
  { destruct existing as [x|]; [by apply ret_ok in Horg as [_ <-]|]. unfold createTarget in Horg.
    apply bind_ok in Horg as (id & wx & Hid & Hc). injection Hid as <- <-. by apply create_ok in Hc as (_ & -> & _). }
  assert (E2 : ownedTables w2 = ownedTables w1 /\ auditEvents w2 = auditEvents w1).
  { eapply (pres_for (fun x => ownedTables x = ownedTables w1 /\ auditEvents x = auditEvents w1)); [|by split|exact Henrol].
    intros u. apply pres_enrol; intros; assumption. }
  unfold adoptRows in Hadopt.
  do 6 (apply bind_ok in Hadopt as ([] & ? & ->%rawUpdate_ok & Hadopt)). apply rawUpdate_ok in Hadopt as ->.
  match type of Hresign with resignAudit _ ?x = _ => set (w6 := x) in Hresign end.
  assert (E7 : ownedTables w7 = ownedTables w6).
  { eapply (pres_resignAudit o (fun x => ownedTables x = ownedTables w6)); [intros; assumption|done|exact Hresign]. }
  destruct E1 as [E1 A1], E2 as [E2 A2]. unfold ownedTables in E1, E2, E7. injection E1 as ? ? ? ? ? ? ? ? ?.
  injection E2 as ? ? ? ? ? ? ? ? ?. injection E7 as ? ? ? ? ? ? ? ? ?.
  split.
  1: column uploads w2 w. 1: column chargeableItems w2 w. 1: column conversationParticipants w2 w.
  1: column messages w2 w. 1: column notificationDeliveries w2 w. 1: column uploadBandwidthUsages w2 w.
  1: column conversations w2 w. 1: column sessions w2 w.
  - intros u Hu Hd. assert (Hm : isMember o (user_id u) w2).
    { eapply enrolAll_members; [exact Henrol|]. apply In_findMany. split; [congruence|by rewrite Hd]. }
    refine (pres_resignAudit o (isMember o (user_id u)) _ w6 tt w7 Hm Hresign). intros; assumption.
  - exists w6. split; [|exact Hresign]. change (auditEvents w6) with (auditEvents w2). congruence.
Qed.

Lemma main_run amb args w o w' : main amb args w = (Ok (Some o), w') -> backfillRun w o w'.
Proof.
  unfold main. destruct (_ !== _); [done|]. intros Hrun. proc_inv Hrun.
  destruct (negb (ba_apply args)); proc_inv Hrun.
  assert (s = w) as -> by (unfold findTarget in Hrun0; destruct (ba_organizationId args); by injection Hrun0).
  by eapply backfillTransaction_run.
Qed.

Lemma adoptBy_owned {R} (org : R -> option string) home t r : (forall x, is_set (org (home x)) = true) ->
  In r (adoptBy org home t) -> is_set (org r) = true.
Proof.
  intros Hh (x & _ & ->)%In_updateWhere. destruct (is_null (org x)) eqn:E; [apply Hh|]. by destruct (org x).
Qed.

Lemma startsWith_app a b : startsWith (a ++ b) a = true.
Proof.
  unfold startsWith. induction a as [|x a IH]; [by destruct b|].
  change (String x a ++ b) with (String x (a ++ b)). cbn. by destruct (ascii_dec x x).
Qed.

Lemma direct_global ids : startsWith (directConversationKey ids None) "global:" = true.
Proof. exact (startsWith_app "global:" (join ":" (sortStrings ids))). Qed.

(** No row is left without an organization, where the program looks for one. *)
Record allOwned (w : World) : Prop := {
  ao_uploads : forall u, In u (uploads w) -> is_set (up_organizationId u) = true;
  ao_bandwidth : forall b, In b (uploadBandwidthUsages w) -> is_set (bw_organizationId b) = true;
  ao_items : forall i, In i (chargeableItems w) -> is_set (item_organizationId i) = true;
  ao_conversations : forall c, In c (conversations w) -> is_set (conv_organizationId c) = true;
  ao_participants : forall p, In p (conversationParticipants w) -> is_set (part_organizationId p) = true;
  ao_messages : forall m, In m (messages w) -> is_set (msg_organizationId m) = true;
  ao_deliveries : forall d, In d (notificationDeliveries w) -> is_set (del_organizationId d) = true;
  ao_sessions : forall s, In s (sessions w) -> sess_deletedAt s = None -> is_set (sess_activeOrganizationId s) = true
}.

Lemma run_owned w o w' : backfillRun w o w' -> allOwned w'.
Proof.
  intros [H1 H2 H3 H4 H5 H6 H7 H8 _ _]. split.
  - intros u. rewrite H1. by apply adoptBy_owned.
  - intros b. rewrite H6. intros (x & Hx & ->)%In_updateWhere. apply adoptBy_owned in Hx; [|done]. by destruct (_ === _).
  - intros i. rewrite H2. by apply adoptBy_owned.
  - intros c. rewrite H7. intros (x & Hx & ->)%In_updateWhere. apply adoptBy_owned in Hx; [|done]. by destruct (globalDirect o x).
  - intros p. rewrite H3. by apply adoptBy_owned.
  - intros m. rewrite H4. by apply adoptBy_owned.
  - intros d. rewrite H5. by apply adoptBy_owned.
  - intros s. rewrite H8. intros (x & _ & ->)%In_updateWhere Hd. destruct (is_null (sess_activeOrganizationId x)) eqn:E; cbn.
    + destruct (is_null (sess_deletedAt x)) eqn:Ed; [done|]. cbn in Hd. by rewrite Hd in Ed.
    + by destruct (sess_activeOrganizationId x).
Qed.

(** C38: A tenancy backfill that commits leaves no owned row and no live session without an organization and makes every
    live user an active member; and what the members' requests will look up is there: a direct conversation of the
    single-tenant time is found under the organization's key, and the bandwidth used this month under its meter. *)
Theorem tenancy_backfill_adopts amb args w o w' request : main amb args w = (Ok (Some o), w') -> o <> EmptyString ->
  ambientOrganization request = Some o ->
  allOwned w'
  /\ (forall u, In u (users w) -> user_deletedAt u = None -> isMember o (user_id u) w')
  /\ (forall c ids, In c (conversations w) -> conv_type c = Conv_DIRECT -> conv_organizationId c = None ->
       conv_directKey c = Some (directConversationKey ids None) ->
       exists c', In c' (conversations w') /\ conv_id c' = conv_id c /\ conv_organizationId c' = Some o
         /\ conv_directKey c' = Some (directConversationKey ids (Some o)))
  /\ (forall b, In b (uploadBandwidthUsages w) -> bw_organizationId b = None ->
       exists b', In b' (uploadBandwidthUsages w') /\ bw_id b' = bw_id b /\ bw_bytes b' = bw_bytes b
         /\ bw_scopeKey b' = uploadQuotaScopeKey request (bw_userId b)).
Proof.
  intros Hmain Ho Hreq. apply main_run in Hmain as Hrun. split; [by eapply run_owned|].
  destruct Hrun as [_ _ _ _ _ H6 H7 _ Hm _]. split; [exact Hm|]. split.
  - intros c ids Hc Ht Hn Hk. set (c1 := c <| conv_organizationId := Some o |>).
    exists (rehomed o c1). split; [|split; [done|]; split; [done|]].
    + rewrite H7. apply In_updateWhere. exists c1. split; [apply In_updateWhere; exists c; by rewrite Hn|].
      unfold globalDirect. cbn [conv_type conv_organizationId conv_directKey c1 field_set Conversation_eta].
      unfold c1. cbn. by rewrite Ht, Hk, !bd_refl, direct_global.
    + unfold rehomed, c1. cbn [conv_directKey field_set Conversation_eta]. rewrite Hk. unfold rehome. by rewrite direct_global.
  - intros b Hb Hn. set (b1 := b <| bw_organizationId := Some o |>). exists (meterOf o b1). split; [|split; [done|]; split; [done|]].
    + rewrite H6. apply In_updateWhere. exists b1. split; [apply In_updateWhere; exists b; by rewrite Hn|].
      unfold b1. cbn. by rewrite bd_refl.
    + unfold uploadQuotaScopeKey, Uploads.activeOrganizationId. rewrite Hreq. unfold truthy. by rewrite bd_ne.
Qed.

(** The backfill re-signs the audit rows it moves without verifying them first: a row that was tampered with, and
    that the verification used to report, verifies afterwards with its forged contents. *)
Theorem backfill_launders_tampered_rows amb args w o w' e : (forall k d, hmacSha256 k d <> EmptyString) ->
  signingSecret (AUDIT_INTEGRITY_SECRET env) <> EmptyString -> List.NoDup (List.map aud_id (auditEvents w)) ->
  main amb args w = (Ok (Some o), w') -> In e (auditEvents w) -> aud_organizationId e = None ->
  exists e', In e' (auditEvents w') /\ verifyAuditEvent e' (AUDIT_INTEGRITY_SECRET env) = true
    /\ aud_id e' = aud_id e /\ aud_action e' = aud_action e /\ aud_actorUserId e' = aud_actorUserId e
    /\ aud_metadata e' = aud_metadata e /\ aud_createdAt e' = aud_createdAt e /\ aud_updatedAt e' = aud_updatedAt e.
Proof.
  intros Hh Hs Hnd Hmain He Hn. apply main_run in Hmain as [_ _ _ _ _ _ _ _ _ (w1 & Hw1 & Hresign)].
  exists (adopted o e). split.
  - rewrite (resignAudit_effect o w1 w'); [|by rewrite Hw1|done]. rewrite Hw1. by apply List.in_map.
  - split; [by apply adopted_verifies|]. unfold adopted. by rewrite Hn.
Qed.
End Backfill.

(** ** A run *)

Definition singleTenantPlatform : Platform := {|
  hmacSha256 := @hmacSha256 demoPlatform; hkdfSha256 := @hkdfSha256 demoPlatform; sha256 := @sha256 demoPlatform;
  sha1Hex := @sha1Hex demoPlatform; sha1Base64url := @sha1Base64url demoPlatform; argon2_hash := @argon2_hash demoPlatform;
  argon2_verify := @argon2_verify demoPlatform; aes256gcm_seal := @aes256gcm_seal demoPlatform;
  aes256gcm_open := @aes256gcm_open demoPlatform; jwtSign := @jwtSign demoPlatform; jwtVerify := @jwtVerify demoPlatform;
  jwtVerifyRemote := @jwtVerifyRemote demoPlatform; parseUrl := @parseUrl demoPlatform; resolveUrl := @resolveUrl demoPlatform;
  uuid := @uuid demoPlatform; env := demoConfig <| TENANCY_MODE := Tenancy_disabled |>
|}.

Section Witness.
Local Existing Instance singleTenantPlatform.

Definition legacyUser (id : string) : User :=
  mkUser id (Some (id ++ "@example.com")) None None None "en" None None 0 User_ACTIVE None None None 0 None.
Definition legacyChat : Conversation :=
  mkConversation "c1" None Conv_DIRECT None (Some "u1") 0 None (Some (directConversationKey ["u1"; "u2"] None)) 0 None.
Definition forgedRow : AuditEvent :=
  mkAuditEvent "a1" None (Some "u1") "role.deleted" "role" (Some "r1") None None None None "not-a-signature" 2 500 500 None.
Definition legacyWorld : World := emptyWorld
  <| users := [legacyUser "u1"; legacyUser "u2"] |>
  <| roles := [mkRole "r-member" None "member" None 0 None] |>
  <| conversations := [legacyChat] |>
  <| uploadBandwidthUsages := [mkUploadBandwidthUsage "b1" None "u1" "user:u1" 0 77] |>
  <| auditEvents := [forgedRow] |>.
Definition backfillArgs : BackfillArguments := parseArguments ["--apply"; "--organization-slug=legacy"; "--organization-name=Legacy tenant"].
Definition backfillAmb : Ambient := mkAmbient 9000 None.
Definition memberRequest : Ambient := mkAmbient 9500 (Some (Request "r" (Some "u1") (Some "id-0"))).
Definition adoptedWorld : World := match main backfillAmb backfillArgs legacyWorld with (_, w) => w end.

Lemma backfill_commits : main backfillAmb backfillArgs legacyWorld = (Ok (Some "id-0"), adoptedWorld).
Proof. vm_compute. reflexivity. Qed.

Example tenancy_backfill_adopts_witness :
  allOwned adoptedWorld /\ isMember "id-0" "u2" adoptedWorld
  /\ exists c, In c (conversations adoptedWorld) /\ conv_id c = "c1"
       /\ conv_directKey c = Some (directConversationKey ["u1"; "u2"] (Some "id-0")).
Proof.
  destruct (tenancy_backfill_adopts backfillAmb backfillArgs legacyWorld "id-0" adoptedWorld memberRequest backfill_commits)
    as (Howned & Hmembers & Hdirect & _); [discriminate|reflexivity|].
  split; [exact Howned|]. split; [apply (Hmembers (legacyUser "u2")); [right; left; reflexivity|reflexivity]|].
  destruct (Hdirect legacyChat ["u1"; "u2"]) as (c & Hc & Hid & _ & Hkey); [left; reflexivity|reflexivity|reflexivity|reflexivity|].
  exists c. split; [exact Hc|]. split; [exact Hid|exact Hkey].
Defined.

Example backfill_launders_tampered_rows_witness :
  verifyAuditEvent forgedRow (AUDIT_INTEGRITY_SECRET env) = false
  /\ exists e', In e' (auditEvents adoptedWorld) /\ verifyAuditEvent e' (AUDIT_INTEGRITY_SECRET env) = true
       /\ aud_action e' = "role.deleted".
Proof.
  split; [vm_compute; reflexivity|].
  destruct (backfill_launders_tampered_rows backfillAmb backfillArgs legacyWorld "id-0" adoptedWorld forgedRow)
    as (e' & Hin & Hv & _ & Hact & _).
  - exact demo_hmac_nonempty.
  - discriminate.
  - repeat constructor. intros [].
  - exact backfill_commits.
  - left. reflexivity.
  - reflexivity.
  - exists e'. split; [exact Hin|]. split; [exact Hv|exact Hact].
Defined.
End Witness.
