(* ===== verification/Scheduler.v ===== *)
(** * The scheduler

    scheduler/scheduler.registry.ts and scheduler/scheduler.ts. The state is what the scheduled runs share: the strings
    of Redis with their expiry, whether Redis answers, and the time; what is kept in Redis survives an outage. BullMQ's
    queue is an interface, its laws in SchedulerSpec. [race] is what happens
    from the acquisition of the lease until the race between the handler and its timer is settled, everything other
    processes do meanwhile included. Logging and error reporting are left out. *)

From Stdlib Require Import ZArith Lia Bool.
From stdpp Require Import gmap strings.
From S2P Require Import Prelude Store JsString JsonText.

Open Scope string_scope.

Definition SCHEDULER_QUEUE : string := "scheduled-jobs".

(** A value and the instant it expires at. *)
Record RedisEntry := mkRedisEntry { re_value : string; re_expiresAt : option Z }.

Record Shared := mkShared {
  sh_redis : gmap string RedisEntry; sh_up : bool; sh_now : Z
}.
#[export] Instance Shared_eta : Eta Shared := fun s => mkShared (sh_redis s) (sh_up s) (sh_now s).

(** ** Redis *)

Definition unavailable : Error := Failure "Connection is closed.".

(** The value of a key that has not expired. *)
Definition liveValue (key : string) (s : Shared) : option string :=
  match sh_redis s !! key with
  | Some e => match re_expiresAt e with Some t => if (sh_now s <? t)%Z then Some (re_value e) else None | None => Some (re_value e) end
  | None => None
  end.

Definition redisCommand {A} (command : Shared -> A * Shared) : Proc Shared A := fun s =>
  if sh_up s then let '(a, s') := command s in (Ok a, s') else (Err unavailable, s).

Definition redisGet (key : string) : Proc Shared (option string) := redisCommand (fun s => (liveValue key s, s)).
Definition redisSet (key value : string) : Proc Shared unit :=
  redisCommand (fun s => (tt, s <| sh_redis ::= fun m => <[key := mkRedisEntry value None]> m |>)).
(** [SET key value PX ttl NX]: [true] is [OK]. *)
Definition redisSetNx (key value : string) (ttl : Z) : Proc Shared bool :=
  redisCommand (fun s => if is_set (liveValue key s) then (false, s)
                         else (true, s <| sh_redis ::= fun m => <[key := mkRedisEntry value (Some (sh_now s + ttl)%Z)]> m |>)).
(** The script of [releaseLock]: delete the key if it holds the token. *)
Definition redisReleaseScript (key token : string) : Proc Shared unit :=
  redisCommand (fun s => if liveValue key s === Some token then (tt, s <| sh_redis ::= fun m => base.delete key m |>) else (tt, s)).

(** ** The registry *)

Record ScheduledJob := mkScheduledJob { job_name : string; job_cron : string; job_description : string; job_timeoutMs : Z }.

Definition scheduledJobs : list ScheduledJob :=
  [mkScheduledJob "retention-cleanup" "15 3 * * *" "Delete expired operational data and abandoned uploads." (10 * 60000);
   mkScheduledJob "audit-integrity-verification" "0 4 * * *" "Verify HMAC integrity signatures across stored audit events."
     (30 * 60000)].

Definition findScheduledJob (name : string) : option ScheduledJob := List.find (fun job => job_name job === name) scheduledJobs.

(** ** Runs *)

Inductive RunStatus := success | failure.
Record JobRunState := mkJobRunState {
  jrs_lastRunAt : string; jrs_lastDurationMs : Z; jrs_lastStatus : RunStatus; jrs_lastError : option string
}.

(** [JSON.stringify(state)] *)
Definition stateJson (state : JobRunState) : Json :=
  JObj ([("lastRunAt", JStr (jrs_lastRunAt state)); ("lastDurationMs", JNum (jrs_lastDurationMs state));
         ("lastStatus", JStr (match jrs_lastStatus state with success => "success" | failure => "failure" end))]
        ++ match jrs_lastError state with Some e => [("lastError", JStr e)] | None => [] end)%list.

Section Scheduler.
(** [env.QUEUE_PREFIX] and [env.SCHEDULER_TIMEZONE] *)
Variables (QUEUE_PREFIX SCHEDULER_TIMEZONE : string).

Definition stateKey (name : string) : string := QUEUE_PREFIX ++ ":scheduler:state:" ++ name.
Definition lockKey (name : string) : string := QUEUE_PREFIX ++ ":scheduler:lock:" ++ name.

Definition releaseLock (name token : string) : Proc Shared unit :=
  try_catch (redisReleaseScript (lockKey name) token) (fun _ => mret tt).

Definition recordRun (name : string) (state : JobRunState) : Proc Shared unit :=
  try_catch (redisSet (stateKey name) (jsonStringify (stateJson state))) (fun _ => mret tt).

Definition getJobState (name : string) : Proc Shared (option Json) :=
  raw ← try_catch (redisGet (stateKey name)) (fun _ => mret None);
  mret (match raw with Some text => if text === EmptyString then None else jsonParse text | None => None end).

Record JobView := mkJobView { jv_name : string; jv_cron : string; jv_description : string; jv_timezone : string; jv_state : option Json }.

Fixpoint listStates (jobs : list ScheduledJob) : Proc Shared (list JobView) :=
  match jobs with
  | [] => mret []
  | job :: rest =>
      state ← getJobState (job_name job);
      views ← listStates rest;
      mret (mkJobView (job_name job) (job_cron job) (job_description job) SCHEDULER_TIMEZONE state :: views)
  end.
Definition listJobStates : Proc Shared (list JobView) := listStates scheduledJobs.

(** The lease of a run: its token until the timeout and a minute have passed. *)
Definition acquireLock (job : ScheduledJob) (token : string) : Proc Shared bool :=
  redisSetNx (lockKey (job_name job)) token (job_timeoutMs job + 60000).

Definition now : Proc Shared Z := fun s => (Ok (sh_now s), s).

(** What follows the race: the outcome is recorded, then the lease released. *)
Definition finishRun (job : ScheduledJob) (token : string) (startedAt : Z) (outcome : res Json) : Proc Shared unit :=
  endedAt ← now;
  recordRun (job_name job)
    (match outcome with
     | Ok _ => mkJobRunState (toISOString endedAt) (endedAt - startedAt) success None
     | Err e => mkJobRunState (toISOString endedAt) (endedAt - startedAt) failure (Some (take_str 500 (errorMessage e)))
     end);;
  releaseLock (job_name job) token.

(** A [try] whose outcome is looked at later. *)
Definition settled {A} (m : Proc Shared A) : Proc Shared (res A) := fun s => let '(outcome, s') := m s in (Ok outcome, s').

(** [race]: see above; [token] is [randomUUID()]. *)
Definition runScheduledJob (race : ScheduledJob -> Proc Shared Json) (token name : string) : Proc Shared Json :=
  match findScheduledJob name with
  | None => throw (Failure ("Unknown scheduled job: " ++ name))
  | Some job =>
      startedAt ← now;
      acquired ← acquireLock job token;
      if negb (acquired : bool) then throw (Failure ("Scheduled job " ++ name ++ " is already running"))
      else
        outcome ← settled (race job);
        finishRun job token startedAt outcome;;
        match outcome with Ok result => mret result | Err e => throw e end
  end.

(** [queue.add(name, { trigger: 'manual' }, ..)] answers the identifier of the job, if it assigned one. *)
Definition enqueueScheduledJob (add : string -> Proc Shared (option string)) (name : string) : Proc Shared string :=
  if is_null (findScheduledJob name) then throw (Failure ("Unknown scheduled job: " ++ name))
  else
    queued ← add name;
    match queued with
    | Some id => if id === EmptyString then throw (Failure "Scheduler queue did not assign a job id") else mret id
    | None => throw (Failure "Scheduler queue did not assign a job id")
    end.

(** ** Registration *)

(** What BullMQ's [Queue] offers: a job scheduler has a key, a cron pattern and a timezone. *)
Class JobSchedulers (Q : Type) := {
  upsertJobScheduler : string -> string -> string -> Proc Q unit;
  getJobSchedulers : nat -> nat -> Proc Q (list string);
  removeJobScheduler : string -> Proc Q unit
}.

Section Registration.
Context {Q : Type} `{JobSchedulers Q}.

Fixpoint register (jobs : list ScheduledJob) : Proc Q unit :=
  match jobs with
  | [] => mret tt
  | job :: rest => upsertJobScheduler (job_name job) (job_cron job) SCHEDULER_TIMEZONE;; register rest
  end.

Fixpoint removeUnknown (known : list string) (keys : list string) : Proc Q unit :=
  match keys with
  | [] => mret tt
  | key :: rest =>
      (if negb (key === EmptyString) && negb (mem key known) then removeJobScheduler key else mret tt);;
      removeUnknown known rest
  end.

Definition startScheduler : Proc Q unit :=
  register scheduledJobs;;
  existing ← getJobSchedulers 0 100;
  removeUnknown (List.map job_name scheduledJobs) existing.
End Registration.

(** ** Several processes: the runs in progress and what can happen next *)

Record Run := mkRun { run_job : ScheduledJob; run_token : string; run_startedAt : Z }.
Record Cluster := mkCluster { cl_shared : Shared; cl_runs : list Run; cl_tokens : list string }.

Definition leaseEnd (r : Run) : Z := (run_startedAt r + (job_timeoutMs (run_job r) + 60000))%Z.

Inductive step : Cluster -> Cluster -> Prop :=
(** a worker takes a job up: with a fresh token it gets the lease, or is refused and gives up *)
| step_start c job token s' : In job scheduledJobs -> ~ In token (cl_tokens c) ->
    acquireLock job token (cl_shared c) = (Ok true, s') ->
    step c (mkCluster s' (mkRun job token (sh_now (cl_shared c)) :: cl_runs c) (token :: cl_tokens c))
| step_refused c job token r s' : In job scheduledJobs -> ~ In token (cl_tokens c) ->
    acquireLock job token (cl_shared c) = (r, s') -> r <> Ok true ->
    step c (mkCluster s' (cl_runs c) (token :: cl_tokens c))
(** a run ends: it records its outcome and releases its lease, as far as Redis answers *)
| step_finish c pre r post outcome s' : cl_runs c = (pre ++ r :: post)%list ->
    finishRun (run_job r) (run_token r) (run_startedAt r) outcome (cl_shared c) = (Ok tt, s') ->
    step c (mkCluster s' (pre ++ post)%list (cl_tokens c))
(** a process dies with its run *)
| step_crash c pre r post : cl_runs c = (pre ++ r :: post)%list ->
    step c (mkCluster (cl_shared c) (pre ++ post)%list (cl_tokens c))
(** time passes; Redis goes down or comes back *)
| step_tick c d : (0 <= d)%Z -> step c (mkCluster ((cl_shared c) <| sh_now ::= Z.add d |>) (cl_runs c) (cl_tokens c))
| step_redis c up : step c (mkCluster ((cl_shared c) <| sh_up := up |>) (cl_runs c) (cl_tokens c)).

Inductive reachable : Cluster -> Prop :=
  | reach_start s : sh_redis s = ∅ -> reachable (mkCluster s [] [])
  | reach_step c c' : reachable c -> step c c' -> reachable c'.
End Scheduler.
