(* ===== verification/SchedulerSpec.v ===== *)
(** * What the scheduler guarantees

    However workers, crashes, outages and time interleave, two runs of a job never both hold its lease; a run that
    settles is recorded and readable, and leaves the lease to the next; start-up makes the schedulers the registry. *)

From Stdlib Require Import ZArith Lia Bool.
From stdpp Require Import gmap strings.
From S2P Require Import Prelude Store JsString JsonText TenantScope Scheduler.

Open Scope string_scope.

Section Scheduler.
Variables (QUEUE_PREFIX SCHEDULER_TIMEZONE : string).
Notation lockKey := (lockKey QUEUE_PREFIX).
Notation stateKey := (stateKey QUEUE_PREFIX).
Notation step := (step QUEUE_PREFIX).
Notation reachable := (reachable QUEUE_PREFIX).
Notation finishRun := (finishRun QUEUE_PREFIX).

Lemma lockKey_inj n m : lockKey n = lockKey m -> n = m.
Proof. unfold Scheduler.lockKey. intros Hq. by do 2 apply append_inj_l in Hq. Qed.
Lemma state_not_lock n m : stateKey n <> lockKey m.
Proof. unfold Scheduler.lockKey, Scheduler.stateKey. intros Hq. apply append_inj_l in Hq. discriminate Hq. Qed.

Lemma job_of_name j j' : In j scheduledJobs -> In j' scheduledJobs -> job_name j = job_name j' -> j = j'.
Proof. intros [<-|[<-|[]]] [<-|[<-|[]]]; done. Qed.

(** ** The commands *)

Definition recordedState (outcome : res Json) (startedAt endedAt : Z) : JobRunState :=
  match outcome with
  | Ok _ => mkJobRunState (toISOString endedAt) (endedAt - startedAt) success None
  | Err e => mkJobRunState (toISOString endedAt) (endedAt - startedAt) failure (Some (take_str 500 (errorMessage e)))
  end.

(** What finishing a run does to the store. *)
Definition finished (job : ScheduledJob) (token : string) (startedAt : Z) (outcome : res Json) (s : Shared) : Shared :=
  if sh_up s then
    let s1 := s <| sh_redis ::= fun m => <[stateKey (job_name job)
                := mkRedisEntry (jsonStringify (stateJson (recordedState outcome startedAt (sh_now s)))) None]> m |> in
    if liveValue (lockKey (job_name job)) s1 === Some token
    then s1 <| sh_redis ::= fun m => base.delete (lockKey (job_name job)) m |> else s1
  else s.

Lemma finishRun_runs job token startedAt outcome s :
  finishRun job token startedAt outcome s = (Ok tt, finished job token startedAt outcome s).
Proof.
  unfold Scheduler.finishRun, finished, now, recordRun, releaseLock, redisSet, redisReleaseScript, redisCommand, try_catch.
  unfold mbind, proc_bind, mret, proc_ret. destruct (sh_up s) eqn:E; cbn.
  - rewrite E. replace (match outcome with Ok _ => _ | Err e => _ end) with (recordedState outcome startedAt (sh_now s)) by by destruct outcome.
    by case_bool_decide.
  - by rewrite E.
Qed.

Lemma liveValue_other key key' e s : key <> key' ->
  liveValue key (s <| sh_redis ::= fun m => <[key' := e]> m |>) = liveValue key s.
Proof. intros Hn. unfold liveValue. cbn. by rewrite lookup_insert_ne by done. Qed.

(** The lock of another job, and another token's lock, survive the end of a run. *)
Lemma finished_lock job token startedAt outcome s name : 
  sh_redis (finished job token startedAt outcome s) !! lockKey name =
  if (name === job_name job) && (sh_up s) && (liveValue (lockKey name) s === Some token) then None else sh_redis s !! lockKey name.
Proof.
  unfold finished. destruct (sh_up s) eqn:Eu; [|by rewrite andb_false_r].
  rewrite liveValue_other by (intros Hq; by apply (state_not_lock (job_name job) (job_name job))).
  destruct (decide (name = job_name job)) as [->|Hn].
  - rewrite (bd_refl (job_name job)). cbn [andb]. case_bool_decide; cbn.
    + by rewrite lookup_delete_eq.
    + rewrite lookup_insert_ne; [done|]. apply state_not_lock.
  - rewrite (bd_ne name (job_name job)) by done. cbn [andb]. case_bool_decide; cbn.
    + rewrite lookup_delete_ne by (intros Hq; by apply lockKey_inj in Hq). rewrite lookup_insert_ne; [done|]. apply state_not_lock.
    + rewrite lookup_insert_ne; [done|]. apply state_not_lock.
Qed.

Lemma finished_now job token startedAt outcome s : sh_now (finished job token startedAt outcome s) = sh_now s.
Proof. unfold finished. destruct (sh_up s); [|done]. by case_bool_decide. Qed.

Lemma acquired_lock job token s s' : acquireLock QUEUE_PREFIX job token s = (Ok true, s') ->
  liveValue (lockKey (job_name job)) s = None /\ sh_up s = true /\
  s' = s <| sh_redis ::= fun m => <[lockKey (job_name job) := mkRedisEntry token (Some (sh_now s + (job_timeoutMs job + 60000))%Z)]> m |>.
Proof.
  unfold acquireLock, redisSetNx, redisCommand. destruct (sh_up s); [|done].
  destruct (is_set (liveValue _ s)) eqn:E; [done|]. intros [= <-]. split; [|done]. by destruct (liveValue _ s).
Qed.

Lemma refused_lock job token s r s' : acquireLock QUEUE_PREFIX job token s = (r, s') -> r <> Ok true -> s' = s.
Proof.
  unfold acquireLock, redisSetNx, redisCommand. destruct (sh_up s); [|by intros [= _ <-]].
  destruct (is_set _); [by intros [= _ <-]|]. intros [= <- <-] Hr. done.
Qed.

(** ** The invariant of the cluster *)

Record leased (c : Cluster) : Prop := {
  ls_tokens : forall r, In r (cl_runs c) -> In (run_token r) (cl_tokens c);
  ls_distinct : List.NoDup (List.map run_token (cl_runs c));
  ls_jobs : forall r, In r (cl_runs c) -> In (run_job r) scheduledJobs;
  ls_held : forall r, In r (cl_runs c) -> (sh_now (cl_shared c) < leaseEnd r)%Z ->
    sh_redis (cl_shared c) !! lockKey (job_name (run_job r)) = Some (mkRedisEntry (run_token r) (Some (leaseEnd r)))
}.

Lemma held_live c r : leased c -> In r (cl_runs c) -> (sh_now (cl_shared c) < leaseEnd r)%Z ->
  liveValue (lockKey (job_name (run_job r))) (cl_shared c) = Some (run_token r).
Proof. intros Hl Hr Hn. unfold liveValue. rewrite (ls_held c Hl r Hr Hn). cbn. by rewrite (proj2 (Z.ltb_lt _ _) Hn). Qed.

Lemma leased_remove c pre r post s : leased c -> cl_runs c = (pre ++ r :: post)%list -> sh_now s = sh_now (cl_shared c) ->
  (forall r', In r' (pre ++ post) -> run_token r' <> run_token r -> (sh_now (cl_shared c) < leaseEnd r')%Z ->
     sh_redis s !! lockKey (job_name (run_job r')) = sh_redis (cl_shared c) !! lockKey (job_name (run_job r'))) ->
  leased (mkCluster s (pre ++ post)%list (cl_tokens c)).
Proof.
  intros [H1 H2 H3 H4] Hc Hnow Hkeep.
  assert (Hin : forall r', In r' (pre ++ post) -> In r' (cl_runs c)).
  { intros r' Hr'. rewrite Hc. apply in_or_app. apply in_app_or in Hr' as [?|?]; [by left|right; by right]. }
  rewrite Hc, List.map_app in H2. cbn in H2. split; cbn.
  - intros r' Hr'. apply H1, Hin, Hr'.
  - rewrite List.map_app. by apply List.NoDup_remove_1 in H2.
  - intros r' Hr'. apply H3, Hin, Hr'.
  - intros r' Hr' Hlt. rewrite Hnow in Hlt. rewrite Hkeep; [|done| |done]; [by apply H4; [apply Hin|]|].
    intros Hq. apply List.NoDup_remove_2 in H2. apply H2. rewrite <- Hq, <- List.map_app. by apply List.in_map.
Qed.

Lemma leased_step c c' : leased c -> step c c' -> leased c'.
Proof.
  intros Hl Hstep. destruct Hstep as [c job token s' Hj Hfresh Hacq|c job token r s' Hj Hfresh Hacq Hr
    |c pre r post outcome s' Hc Hfin|c pre r post Hc|c d Hd|c up].
  - apply acquired_lock in Hacq as (Hfree & _ & ->). pose proof Hl as [H1 H2 H3 H4]. split; cbn.
    + intros r [<-|Hr]; [by left|right; by apply H1].
    + constructor; [|done]. intros Hin. apply List.in_map_iff in Hin as (r & Hr & Hin). apply Hfresh. rewrite <- Hr. by apply H1.
    + intros r [<-|Hr]; [done|by apply H3].
    + intros r [<-|Hr] Hlt; [by rewrite lookup_insert_eq|].
      rewrite lookup_insert_ne; [by apply H4|]. intros Hq. apply lockKey_inj in Hq.
      rewrite Hq, (held_live c r Hl Hr Hlt) in Hfree. done.
  - apply refused_lock in Hacq as ->; [|done]. destruct Hl as [H1 H2 H3 H4]. split; cbn; auto.
  - rewrite finishRun_runs in Hfin. injection Hfin as <-. apply (leased_remove c pre r post); [done|done|by apply finished_now|].
    intros r' Hr' Hne Hlt. rewrite finished_lock.
    assert (Hin : In r' (cl_runs c)).
    { rewrite Hc. apply in_or_app. apply in_app_or in Hr' as [?|?]; [by left|right; by right]. }
    rewrite (held_live c r' Hl Hin Hlt). rewrite (bd_ne (Some (run_token r')) (Some (run_token r))) by congruence. by rewrite andb_false_r.
  - by apply (leased_remove c pre r post).
  - destruct Hl as [H1 H2 H3 H4]. split; cbn; auto. intros r Hr Hlt. apply H4; [done|lia].
  - destruct Hl as [H1 H2 H3 H4]. split; cbn; auto.
Qed.

Lemma reachable_leased c : reachable c -> leased c.
Proof.
  induction 1 as [s Hs|c c' _ IH Hstep]; [|by eapply leased_step]. split; cbn; try done. constructor.
Qed.

(** C39: However start-ups, refusals, finished and crashed runs, outages of Redis and the passing of time interleave over
    any number of processes, two runs of a job in progress are never both within their lease: a run that keeps to its
    timeout (and a minute to wind up) is alone, and a late one cannot release the lease of its successor. *)
Theorem one_run_per_lease c r1 r2 : reachable c -> In r1 (cl_runs c) -> In r2 (cl_runs c) ->
  job_name (run_job r1) = job_name (run_job r2) ->
  (sh_now (cl_shared c) < leaseEnd r1)%Z -> (sh_now (cl_shared c) < leaseEnd r2)%Z -> r1 = r2.
Proof.
  intros Hc H1 H2 Hn Hl1 Hl2. apply reachable_leased in Hc. apply (NoDup_key_inj run_token (cl_runs c)); [apply Hc|done|done|].
  pose proof (held_live c r1 Hc H1 Hl1) as Hv1. pose proof (held_live c r2 Hc H2 Hl2) as Hv2. rewrite Hn in Hv1. congruence.
Qed.

(** ** A run of a job *)

Lemma stateJson_ok state : jsonOk (stateJson state).
Proof.
  unfold stateJson. destruct (jrs_lastError state); cbn; (split; [|tauto]);
    repeat (apply List.NoDup_cons; [cbn; intuition discriminate|]); apply List.NoDup_nil.
Qed.

Lemma stringify_object fields : jsonStringify (JObj fields) <> EmptyString.
Proof. done. Qed.

Lemma getJobState_finished job token startedAt outcome s : sh_up s = true ->
  getJobState QUEUE_PREFIX (job_name job) (finished job token startedAt outcome s)
    = (Ok (Some (stateJson (recordedState outcome startedAt (sh_now s)))), finished job token startedAt outcome s).
Proof.
  intros Hup. assert (Hs : sh_redis (finished job token startedAt outcome s) !! stateKey (job_name job)
      = Some (mkRedisEntry (jsonStringify (stateJson (recordedState outcome startedAt (sh_now s)))) None)).
  { unfold finished. rewrite Hup. case_bool_decide; cbn; [|by rewrite lookup_insert_eq].
    rewrite lookup_delete_ne; [by rewrite lookup_insert_eq|]. intros Hq. by apply (state_not_lock (job_name job) (job_name job)). }
  assert (Hu : sh_up (finished job token startedAt outcome s) = true).
  { unfold finished. rewrite Hup. by case_bool_decide. }
  unfold getJobState, redisGet, redisCommand, try_catch, mbind, proc_bind, mret, proc_ret. rewrite Hu. unfold liveValue. rewrite Hs.
  set (state := stateJson _). pose proof (jsonParse_stringify state (stateJson_ok _)) as Hp.
  assert (Hne : jsonStringify state <> EmptyString) by done.
  clear Hs. revert Hp Hne. generalize (jsonStringify state). intros text Hp Hne. cbn. by rewrite (bd_ne text EmptyString Hne), Hp.
Qed.

(** The store once [token] has the lease of [job]. *)
Definition withLease (job : ScheduledJob) (token : string) (s : Shared) : Shared :=
  s <| sh_redis ::= fun m => <[lockKey (job_name job) := mkRedisEntry token (Some (sh_now s + (job_timeoutMs job + 60000))%Z)]> m |>.

Lemma findScheduledJob_name name job : findScheduledJob name = Some job -> job_name job = name.
Proof. intros Hf. apply List.find_some in Hf as [_ Hq]. by bools. Qed.

(** A job of the registry whose lease is free runs once, answers or throws exactly what the race between its handler
    and its timer settled to, leaves a state that reads back as that outcome, its duration and its error's text, and
    gives its lease back unless another run has it by then; a job whose lease is held is refused and touches nothing, as
    is one the registry does not have. *)
Theorem scheduled_run_recorded race token name s :
  match findScheduledJob name with
  | None => runScheduledJob QUEUE_PREFIX race token name s = (Err (Failure ("Unknown scheduled job: " ++ name)), s)
  | Some job =>
      sh_up s = true ->
      match liveValue (lockKey name) s with
      | Some _ => runScheduledJob QUEUE_PREFIX race token name s = (Err (Failure ("Scheduled job " ++ name ++ " is already running")), s)
      | None =>
          let '(outcome, s2) := race job (withLease job token s) in
          exists s3, runScheduledJob QUEUE_PREFIX race token name s = (outcome, s3)
            /\ sh_now s3 = sh_now s2
            /\ (sh_up s2 = true ->
                getJobState QUEUE_PREFIX name s3 = (Ok (Some (stateJson (recordedState outcome (sh_now s) (sh_now s2)))), s3)
                /\ sh_redis s3 !! lockKey name
                     = if liveValue (lockKey name) s2 === Some token then None else sh_redis s2 !! lockKey name)
      end
  end.
Proof.
  destruct (findScheduledJob name) as [job|] eqn:Ef; [|unfold runScheduledJob; by rewrite Ef].
  apply findScheduledJob_name in Ef as Hname. intros Hup.
  unfold runScheduledJob, now, mbind, proc_bind. rewrite Ef. unfold acquireLock, redisSetNx, redisCommand.
  rewrite Hup, Hname. destruct (liveValue (lockKey name) s) as [held|]; [done|]. cbn. unfold settled.
  unfold withLease. rewrite Hname. destruct (race job _) as [outcome s2]. rewrite finishRun_runs.
  exists (finished job token (sh_now s) outcome s2). split; [by destruct outcome|]. split; [apply finished_now|]. intros Hup2. split.
  - rewrite <- Hname. by apply getJobState_finished.
  - rewrite finished_lock, Hname, (bd_refl name), Hup2. done.
Qed.
End Scheduler.

(** ** Start-up *)

(** What is relied on of BullMQ: schedulers are kept by key, an upsert replaces, and a listing of the first [n + 1] is
    complete when there are no more. *)
Class JobSchedulersLaws (Q : Type) `{JobSchedulers Q} := {
  schedulersOf : Q -> gmap string (string * string);
  upsert_law name cron tz q : exists q', upsertJobScheduler name cron tz q = (Ok tt, q')
    /\ schedulersOf q' = <[name := (cron, tz)]> (schedulersOf q);
  list_law n q : exists keys, getJobSchedulers 0 n q = (Ok keys, q)
    /\ (forall key, In key keys -> is_Some (schedulersOf q !! key))
    /\ (size (schedulersOf q) <= S n -> forall key, is_Some (schedulersOf q !! key) -> In key keys);
  remove_law key q : exists q', removeJobScheduler key q = (Ok tt, q') /\ schedulersOf q' = base.delete key (schedulersOf q)
}.

Section Registration.
Variable SCHEDULER_TIMEZONE : string.
Context {Q : Type} `{JobSchedulersLaws Q}.

(** The schedulers of the registry, over those there were. *)
Definition registryOver (m : gmap string (string * string)) : gmap string (string * string) :=
  List.fold_left (fun m job => <[job_name job := (job_cron job, SCHEDULER_TIMEZONE)]> m) scheduledJobs m.

Lemma registryOver_lookup m key : registryOver m !! key
  = if mem key (List.map job_name scheduledJobs) then registryOver ∅ !! key else m !! key.
Proof.
  unfold registryOver, mem. cbn.
  destruct (decide (key = "audit-integrity-verification")) as [->|Ha]; [by rewrite !lookup_insert_eq|].
  rewrite !(lookup_insert_ne _ "audit-integrity-verification" key) by congruence.
  destruct (decide (key = "retention-cleanup")) as [->|Hr]; [by rewrite !lookup_insert_eq|].
  rewrite !(lookup_insert_ne _ "retention-cleanup" key) by congruence.
  by rewrite !bd_ne by congruence.
Qed.

Lemma register_runs jobs : forall q, exists q', register SCHEDULER_TIMEZONE jobs q = (Ok tt, q') /\ schedulersOf q'
  = List.fold_left (fun m job => <[job_name job := (job_cron job, SCHEDULER_TIMEZONE)]> m) jobs (schedulersOf q).
Proof.
  induction jobs as [|job jobs IH]; intros q; cbn; [by exists q|].
  destruct (upsert_law (job_name job) (job_cron job) SCHEDULER_TIMEZONE q) as (q1 & Hu & H1).
  destruct (IH q1) as (q2 & Hr & H2). exists q2. unfold mbind, proc_bind. rewrite Hu, Hr, H2, H1. done.
Qed.

Lemma removeUnknown_runs known keys : forall q, exists q', removeUnknown known keys q = (Ok tt, q') /\
  forall key, schedulersOf q' !! key
    = if negb (key === EmptyString) && negb (mem key known) && mem key keys then None else schedulersOf q !! key.
Proof.
  induction keys as [|k keys IH]; intros q; cbn; [exists q; split; [done|intros key; by rewrite andb_false_r]|].
  unfold mbind, proc_bind. destruct (negb (k === EmptyString) && negb (mem k known)) eqn:E.
  - destruct (remove_law k q) as (q1 & Hr & H1). destruct (IH q1) as (q2 & Hr2 & H2). exists q2. rewrite Hr, Hr2.
    split; [done|]. intros key. rewrite H2, H1. destruct (decide (key = k)) as [->|Hn].
    + rewrite E, lookup_delete_eq, (bd_refl k). cbn. by destruct (mem k keys).
    + rewrite lookup_delete_ne by done. by rewrite (bd_ne k key) by congruence.
  - destruct (IH q) as (q2 & Hr2 & H2). exists q2. split; [exact Hr2|]. intros key. rewrite H2.
    destruct (decide (key = k)) as [->|Hn]; [by rewrite E|by rewrite (bd_ne k key) by congruence].
Qed.

(** Starting the scheduler succeeds and leaves exactly the registry: each job of it under its name, with its pattern
    in the configured timezone, and nothing an earlier release registered, as long as no more than 101 schedulers are
    there to be listed. *)
Theorem start_leaves_registry q : schedulersOf q !! EmptyString = None -> size (registryOver (schedulersOf q)) <= 101 ->
  exists q', startScheduler SCHEDULER_TIMEZONE q = (Ok tt, q') /\ schedulersOf q' = registryOver ∅.
Proof.
  intros Hempty Hsize. destruct (register_runs scheduledJobs q) as (q1 & Hr & H1).
  destruct (list_law 100 q1) as (keys & Hk & Hkeys & Hall). 
  destruct (removeUnknown_runs (List.map job_name scheduledJobs) keys q1) as (q2 & Hm & H2).
  exists q2. split; [by unfold startScheduler, mbind, proc_bind; rewrite Hr, Hk|].
  fold (registryOver (schedulersOf q)) in H1. rewrite H1 in Hkeys, Hall. specialize (Hall Hsize).
  apply map_eq. intros key. rewrite H2, H1, (registryOver_lookup (schedulersOf q)).
  destruct (mem key (List.map job_name scheduledJobs)) eqn:Ek; [by rewrite andb_false_r|].
  pose proof (registryOver_lookup ∅ key) as He. rewrite Ek, lookup_empty in He. rewrite He.
  case_bool_decide as Hq; [by subst|]. destruct (mem key keys) eqn:Em; [done|]. cbn.
  apply eq_None_not_Some. intros Hs. apply not_true_iff_false in Em. apply Em, mem_In, Hall.
  by rewrite registryOver_lookup, Ek.
Qed.
End Registration.

(** ** The hypotheses hold of a cluster and a queue *)

Section Examples.
Definition retentionJob : ScheduledJob :=
  mkScheduledJob "retention-cleanup" "15 3 * * *" "Delete expired operational data and abandoned uploads." (10 * 60000).
Definition emptyShared : Shared := mkShared ∅ true 1000.
Definition oneRun : Cluster :=
  mkCluster (withLease "app" retentionJob "t1" emptyShared) [mkRun retentionJob "t1" 1000] ["t1"].

Lemma oneRun_reachable : reachable "app" oneRun.
Proof.
  apply (reach_step _ (mkCluster emptyShared [] [])); [by apply reach_start|].
  apply (step_start _ (mkCluster emptyShared [] []) retentionJob "t1"); [by left|intros []|done].
Qed.

Lemma one_run_per_lease_witness :
  exists c r1 r2, In r1 (cl_runs c) /\ (sh_now (cl_shared c) < leaseEnd r1)%Z /\ r1 = r2.
Proof.
  exists oneRun, (mkRun retentionJob "t1" 1000), (mkRun retentionJob "t1" 1000). split; [by left|]. split; [done|].
  apply (one_run_per_lease "app" oneRun); [apply oneRun_reachable|by left|by left|done|done|done].
Defined.

#[local] Instance mapSchedulers : JobSchedulers (gmap string (string * string)) := {|
  upsertJobScheduler name cron tz m := (Ok tt, <[name := (cron, tz)]> m);
  getJobSchedulers first last m := (Ok (take (S last - first) (drop first (List.map fst (map_to_list m)))), m);
  removeJobScheduler key m := (Ok tt, base.delete key m) |}.

Lemma mapSchedulers_keys (m : gmap string (string * string)) key : In key (List.map fst (map_to_list m)) <-> is_Some (m !! key).
Proof.
  rewrite List.in_map_iff. split.
  - intros ([k v] & <- & Hin). exists v. by apply elem_of_map_to_list, list_elem_of_In.
  - intros [v Hv]. exists (key, v). split; [done|]. by apply list_elem_of_In, elem_of_map_to_list.
Qed.

#[local] Instance mapSchedulersLaws : JobSchedulersLaws (gmap string (string * string)).
Proof.
  refine {| schedulersOf := fun m => m |}.
  - intros name cron tz m. by eexists.
  - intros n m. eexists. split; [reflexivity|]. rewrite drop_0, Nat.sub_0_r. split.
    + intros key Hk. apply mapSchedulers_keys. rewrite <- (take_drop (S n) (List.map fst (map_to_list m))). apply in_or_app. by left.
    + intros Hs key Hk. rewrite take_ge; [by apply mapSchedulers_keys|]. rewrite length_map, length_map_to_list. lia.
  - intros key m. by eexists.
Defined.

Lemma start_leaves_registry_witness : exists q q' : gmap string (string * string),
  q !! "nightly-report" = Some ("0 1 * * *", "UTC") /\ startScheduler "UTC" q = (Ok tt, q') /\ q' !! "nightly-report" = None.
Proof.
  exists {["nightly-report" := ("0 1 * * *", "UTC")]}.
  destruct (start_leaves_registry "UTC" (Q := gmap string (string * string)) {["nightly-report" := ("0 1 * * *", "UTC")]}) as (q' & Hr & Hq).
  - done.
  - cbn. unfold registryOver. cbn. by vm_compute; lia.
  - exists q'. split; [done|]. split; [exact Hr|]. cbn in Hq. by rewrite Hq.
Defined.
End Examples.
