(* ===== verification/ChatHandshake.v ===== *)
(** * The handshake of a chat connection

    The first half of modules/chat/chat.gateway.ts: the credential a websocket handshake carries, the session it stands
    for, and the middleware that accepts or refuses the connection. zod, socket.io and the adapter are outside. *)

From Stdlib Require Import ZArith Lia Bool.
From S2P Require Import Prelude Store Database JsString Platform Request AuditTrail Tenancy Sessions AccessControl ClientIp RateLimit Guards.

Open Scope string_scope.

(** ** decodeURIComponent *)

Definition hexNibble (c : ascii) : option nat :=
  let n := code_of c in
  if (48 <=? n)%nat && (n <=? 57)%nat then Some (n - 48)
  else if (65 <=? n)%nat && (n <=? 70)%nat then Some (n - 55)
  else if (97 <=? n)%nat && (n <=? 102)%nat then Some (n - 87)
  else None.

(** An escape [%XX] at the head of the text: its byte and what follows. *)
Definition escapedByte (s : string) : option (nat * string) :=
  match s with
  | String p (String h (String l rest)) =>
      if (code_of p =? 37)%nat then h ← hexNibble h; l ← hexNibble l; Some ((16 * h + l)%nat, rest) else None
  | _ => None
  end.

(** The continuation bytes of a character: [n] escapes of the form 10xxxxxx, the first within its bounds. *)
Fixpoint continuation (n lo hi : nat) (s : string) : option (string * string) :=
  match n with
  | 0 => Some (EmptyString, s)
  | S n' =>
      '(b, rest) ← escapedByte s;
      if (lo <=? b)%nat && (b <=? hi)%nat
      then '(bytes, rest) ← continuation n' 128 191 rest; Some (String (chr b) bytes, rest)
      else None
  end.

(** How many continuation bytes a leading byte asks for, and the bounds of the first (no overlong form, no surrogate,
    nothing past U+10FFFF). *)
Definition leadingByte (b : nat) : option (nat * nat * nat) :=
  if (b <=? 127)%nat then Some (0, 0, 0)
  else if (194 <=? b)%nat && (b <=? 223)%nat then Some (1, 128, 191)
  else if (b =? 224)%nat then Some (2, 160, 191)
  else if (b =? 237)%nat then Some (2, 128, 159)
  else if (225 <=? b)%nat && (b <=? 239)%nat then Some (2, 128, 191)
  else if (b =? 240)%nat then Some (3, 144, 191)
  else if (241 <=? b)%nat && (b <=? 243)%nat then Some (3, 128, 191)
  else if (b =? 244)%nat then Some (3, 128, 143)
  else None.

Fixpoint decodeFrom (fuel : nat) (s : string) : option string :=
  match fuel, s with
  | _, EmptyString => Some EmptyString
  | 0, _ => None
  | S fuel, String c rest =>
      if (code_of c =? 37)%nat then
        '(b, rest) ← escapedByte s;
        '(n, lo, hi) ← leadingByte b;
        '(bytes, rest) ← continuation n lo hi rest;
        decoded ← decodeFrom fuel rest;
        Some (String (chr b) (bytes ++ decoded))
      else decoded ← decodeFrom fuel rest; Some (String c decoded)
  end.

(** A malformed escape throws. *)
Definition decodeURIComponent (s : string) : res string :=
  match decodeFrom (String.length s) s with Some t => Ok t | None => Err (Failure "URI malformed") end.

(** ** The connection *)

(** The settings only the gateway reads. *)
Record ChatSettings := mkChatSettings {
  CORS_ALLOWED_ORIGINS : list string;
  CHAT_MAX_CONNECTIONS_PER_IP : Z; CHAT_MAX_EVENTS_PER_MINUTE : Z; CHAT_MAX_MESSAGES_PER_MINUTE : Z;
  CHAT_MAX_WRITE_BUFFER : nat; CHAT_DRAIN_RECONNECT_MS : Z
}.

(** [socket.handshake]: [hs_token] is [auth.token], any value a client sends. *)
Record Handshake := mkHandshake {
  hs_token : option Json; hs_authorization : option string; hs_cookie : option string; hs_origin : option string;
  hs_address : option string; hs_forwardedFor : list string
}.

Record SocketIdentity := mkIdentity { so_userId : string; so_sessionId : string; so_organizationId : option string }.
#[export] Instance SocketIdentity_eq_dec : EqDecision SocketIdentity.
Proof. solve_decision. Defined.

Inductive TokenSource := source_explicit | source_cookie.
#[export] Instance TokenSource_eq_dec : EqDecision TokenSource.
Proof. solve_decision. Defined.
Record Credential := mkCredential { cred_token : string; cred_source : TokenSource }.

Section Handshake.
Context `{Platform} `{Redis}.
Variable chat : ChatSettings.

(** [for (const part of cookies.split(';'))]: the first cookie of that name. *)
Fixpoint cookieToken (parts : list string) : res (option Credential) :=
  match parts with
  | [] => Ok None
  | part :: more =>
      match split "=" (trim part) with
      | name :: rest =>
          if name === cookie_access cookieNames then
            match decodeURIComponent (join "=" rest) with
            | Ok token => Ok (Some (mkCredential token source_cookie))
            | Err e => Err e
            end
          else cookieToken more
      | [] => cookieToken more
      end
  end.

Definition tokenFromHandshake (hs : Handshake) : res (option Credential) :=
  match hs_token hs with
  | Some (JStr (String c token)) => Ok (Some (mkCredential (String c token) source_explicit))
  | _ =>
      match hs_authorization hs with
      | Some header =>
          if startsWith header "Bearer " then
            let token := trim (drop_str 7 header) in
            Ok (if token === EmptyString then None else Some (mkCredential token source_explicit))
          else if truthy (hs_cookie hs) then cookieToken (split ";" (hs_cookie hs ??? "")) else Ok None
      | None => if truthy (hs_cookie hs) then cookieToken (split ";" (hs_cookie hs ??? "")) else Ok None
      end
  end.

(** [null] is no identity; a token that does not verify throws. *)
Definition resolveIdentity (amb : Ambient) (token : string) : Tx World (option SocketIdentity) :=
  claims ← tx_lift (verifyAccessToken amb token);
  us ← tx_findMany_raw (fun _ : User => true);
  session ← tx_findFirst (liveSession amb claims us);
  match session with
  | None => mret None
  | Some session =>
      let organizationId := sess_activeOrganizationId session in
      let identity := mkIdentity (claim_userId claims) (claim_sessionId claims) organizationId in
      if truthy organizationId then
        organization ← tx_findFirst_raw (fun o => Some (org_id o) === organizationId);
        match organization with
        | None => mret None
        | Some o =>
            if is_set (org_deletedAt o) || (org_status o !== Org_ACTIVE) then mret None
            else
              membership ← tx_findFirst (fun m => (Some (mem_organizationId m) === organizationId)
                && (mem_userId m === claim_userId claims) && (mem_status m === Mem_ACTIVE) && is_null (mem_deletedAt m));
              mret (if is_set membership then Some identity else None)
        end
      else mret (Some identity)
  end.

Definition allowedOrigin (origin : option string) : bool :=
  match origin with
  | None => false
  | Some o =>
      if o === EmptyString then false
      else mem o (if (length (CORS_ALLOWED_ORIGINS chat) =? 0)%nat then [APP_ORIGIN env] else CORS_ALLOWED_ORIGINS chat)
  end.

Definition configuredTrustedProxyCidrs : list ParsedCidr := omap parseCidr (TRUST_PROXY_CIDRS env).

Definition socketClientAddress (hs : Handshake) : option string :=
  trustedClientAddress (mkTrustedProxy (hs_address hs) (hs_forwardedFor hs) (TRUST_PROXY_HOPS env) configuredTrustedProxyCidrs).

(** [(origin && !allowedOrigin(origin)) || (!origin && credential.source === 'cookie')] *)
Definition originRefused (hs : Handshake) (credential : Credential) : bool :=
  (truthy (hs_origin hs) && negb (allowedOrigin (hs_origin hs)))
  || (negb (truthy (hs_origin hs)) && (cred_source credential === source_cookie)).

(** The middleware of [server.use]: the identity [next()] leaves with the socket, or the error of [next(error)]. The
    counter of the address is charged before the session is read. *)
Definition acceptConnection (reply : RedisReply) (amb : Ambient) (hs : Handshake) (st : RateState) (w : World) : res SocketIdentity * RateState :=
  let unauthenticated := Err (Failure "unauthenticated") in
  match tokenFromHandshake hs with
  | Err _ | Ok None => (unauthenticated, st)
  | Ok (Some credential) =>
      if originRefused hs credential then (Err (Failure "origin_not_allowed"), st)
      else
        match enforceRateLimit reply (nowMs amb) "chat:connect:ip" (clientIpKey (socketClientAddress hs))
                (CHAT_MAX_CONNECTIONS_PER_IP chat) 60 mode_local st with
        | (Err _, st) => (unauthenticated, st)
        | (Ok _, st) =>
            match resolveIdentity amb (cred_token credential) w with
            | Ok (Some identity, _) => (Ok identity, st)
            | _ => (unauthenticated, st)
            end
        end
  end.
End Handshake.

Example decode_ascii : decodeURIComponent "a%2Eb%3d%20c" = Ok "a.b= c".
Proof. reflexivity. Qed.
Example decode_euro : decodeURIComponent "%E2%82%AC" = Ok (String (chr 226) (String (chr 130) (String (chr 172) EmptyString))).
Proof. reflexivity. Qed.
Example decode_overlong : decodeURIComponent "%C0%AF" = Err (Failure "URI malformed").
Proof. reflexivity. Qed.
Example decode_short : decodeURIComponent "100%" = Err (Failure "URI malformed").
Proof. reflexivity. Qed.
