(* ===== verification/ChatGateway.v ===== *)
(** * The chat gateway

    modules/chat/chat.gateway.ts after the handshake, and modules/chat/chat.events.ts. The state of a node is its
    sockets with the rooms they joined, the database, the counters of the rate limits, and what has been emitted. What
    socket.io does with rooms is spelled out (a socket that was disconnected is in no room, and joins none); the adapter
    that carries emissions to other nodes is outside. Logging and metrics are left out. *)

From Stdlib Require Import ZArith Lia Bool.
From S2P Require Import Prelude Store Database JsString JsonText Platform Request AuditTrail Tenancy Sessions AccessControl ClientIp RateLimit Guards Chat ChatHandshake.

Open Scope string_scope.

(** ** chat.events.ts *)

Module chatEvents.
Definition join : string := "conversation:join".
Definition leave : string := "conversation:leave".
Definition send : string := "message:send".
Definition message : string := "message:new".
Definition markRead : string := "conversation:read".
Definition read : string := "conversation:read:update".
Definition typing : string := "conversation:typing".
Definition draining : string := "server:draining".
End chatEvents.

Definition MAX_MESSAGE_LENGTH : nat := 4000.

(** What [parse] throws: it has no code. *)
Definition ZodError : Error := Failure "Invalid input".

Record SendPayload := mkSendPayload { sp_conversationId : string; sp_input : SendMessageInput }.
Record MarkReadPayload := mkMarkReadPayload { mrp_conversationId : string; mrp_seq : Z }.
Record TypingPayload := mkTypingPayload { tp_conversationId : string; tp_typing : bool }.

Section Schemas.
(** [z.uuid()] and [z.coerce.number().int()] on a field, which may be missing. *)
Variables (isUuid : string -> bool) (coerceInt : option Json -> option Z).

Definition zUuid (value : option Json) : option string :=
  match value with Some (JStr s) => if isUuid s then Some s else None | _ => None end.
(** [z.string().trim().min(lo).max(hi)] *)
Definition zText (lo hi : nat) (value : option Json) : option string :=
  match value with
  | Some (JStr s) => let t := trim s in if (lo <=? String.length t)%nat && (String.length t <=? hi)%nat then Some t else None
  | _ => None
  end.
Definition zOptional {A} (schema : option Json -> option A) (value : option Json) : option (option A) :=
  match value with None => Some None | Some _ => Some <$> schema value end.
Definition zMessageType (value : option Json) : option MessageType :=
  match value with
  | Some (JStr s) => if s === "TEXT" then Some Msg_TEXT else if s === "ATTACHMENT" then Some Msg_ATTACHMENT else None
  | _ => None
  end.
Definition zObject {A} (fields : list (string * Json) -> option A) (raw : Json) : option A :=
  match raw with JObj l => fields l | _ => None end.

Definition joinPayloadSchema : Json -> option string := zObject (fun l => zUuid (assoc "conversationId" l)).

Definition sendMessagePayloadSchema : Json -> option SendPayload := zObject (fun l =>
  conversationId ← zUuid (assoc "conversationId" l);
  clientMessageId ← zText 8 100 (assoc "clientMessageId" l);
  body ← zOptional (zText 1 MAX_MESSAGE_LENGTH) (assoc "body" l);
  uploadId ← zOptional zUuid (assoc "uploadId" l);
  type ← zOptional zMessageType (assoc "type" l);
  if truthy (match body with Some _ => body | None => uploadId end)
  then Some (mkSendPayload conversationId (mkSendMessage clientMessageId body uploadId type)) else None).

Definition markReadPayloadSchema : Json -> option MarkReadPayload := zObject (fun l =>
  conversationId ← zUuid (assoc "conversationId" l);
  seq ← coerceInt (assoc "seq" l);
  if (0 <=? seq)%Z && (seq <=? MAX_SAFE_INTEGER)%Z then Some (mkMarkReadPayload conversationId seq) else None).

Definition typingPayloadSchema : Json -> option TypingPayload := zObject (fun l =>
  conversationId ← zUuid (assoc "conversationId" l);
  match assoc "typing" l with Some (JBool b) => Some (mkTypingPayload conversationId b) | _ => None end).
End Schemas.

(** ** Rooms *)

(** [text.includes(part)] *)
Fixpoint includes (part text : string) : bool :=
  startsWith text part || match text with EmptyString => false | String _ rest => includes part rest end.

Definition conversationRoom (organizationId : option string) (conversationId : string) : string :=
  (organizationId ??? "global") ++ ":conversation:" ++ conversationId.
Definition userRoom (userId : string) : string := "user:" ++ userId.

Record Socket := mkSocket { so_id : string; so_identity : SocketIdentity; so_rooms : list string; so_writeBuffer : nat }.
#[export] Instance Socket_eta : Eta Socket := fun s => mkSocket (so_id s) (so_identity s) (so_rooms s) (so_writeBuffer s).

Definition joinedConversationCount (rooms : list string) : nat := length (List.filter (includes ":conversation:") rooms).

(** ** What is emitted, and to whom *)

Inductive Payload :=
  | MessagePayload (message : Message)
  | ReadPayload (conversationId userId : string) (lastReadSeq : Z)
  | TypingNotice (conversationId userId : string) (typing : bool)
  | DrainNotice (reconnectAfterMs : Z)
  | PublishedPayload (payload : Json).

(** [em_room = None] is everyone; [em_except] is the socket that emits with [socket.to]. *)
Record Emission := mkEmission { em_room : option string; em_except : option string; em_event : string; em_payload : Payload }.

Definition reaches (e : Emission) (s : Socket) : bool :=
  match em_room e with None => true | Some room => mem room (so_rooms s) end && (em_except e !== Some (so_id s)).

(** ** Acknowledgements *)

Inductive Ack := AckOk | AckMessage (message : Message) (duplicate : bool) | AckRead (lastReadSeq : Z) | AckError (code : string).

Definition errorCodeName (c : ErrorCode) : string :=
  match c with
  | BAD_REQUEST => "BAD_REQUEST" | UNAUTHENTICATED => "UNAUTHENTICATED" | FORBIDDEN => "FORBIDDEN" | NOT_FOUND => "NOT_FOUND"
  | CONFLICT => "CONFLICT" | RATE_LIMITED => "RATE_LIMITED" | SERVICE_UNAVAILABLE => "SERVICE_UNAVAILABLE"
  | INVALID_CSRF_TOKEN => "INVALID_CSRF_TOKEN" | INTERNAL_ERROR => "INTERNAL_ERROR"
  end.

(** A known error's code is its first five letters; what follows is the database's own. *)
Definition errorCode (error : Error) : string :=
  match error with
  | AppError _ code _ _ => errorCodeName code
  | Known code => take_str 5 code
  | Failure _ | TypeError _ => "error"
  end.

Section Gateway.
Context `{Platform} `{Redis}.
Variables (chat : ChatSettings) (isUuid : string -> bool) (coerceInt : option Json -> option Z).

Record Gateway := mkGateway {
  gw_world : World; gw_limits : RateState; gw_sockets : list Socket; gw_emitted : list Emission; gw_draining : bool
}.
#[export] Instance Gateway_eta : Eta Gateway := fun g =>
  mkGateway (gw_world g) (gw_limits g) (gw_sockets g) (gw_emitted g) (gw_draining g).

Definition onWorld {A} (m : Proc World A) : Proc Gateway A := fun g =>
  let '(r, w) := m (gw_world g) in (r, g <| gw_world := w |>).
Definition onLimits {A} (m : Proc RateState A) : Proc Gateway A := fun g =>
  let '(r, st) := m (gw_limits g) in (r, g <| gw_limits := st |>).

(** [schema.parse(raw)] *)
Definition parse {A} (schema : Json -> option A) (raw : Json) : Proc Gateway A :=
  match schema raw with Some a => mret a | None => throw ZodError end.

Definition act (f : Gateway -> Gateway) : Proc Gateway unit := fun g => (Ok tt, f g).
Definition emit (e : Emission) : Proc Gateway unit := act (fun g => g <| gw_emitted ::= fun l => (l ++ [e])%list |>).

(** [socket.rooms]: none once it is gone. *)
Definition roomsOf (sid : string) (g : Gateway) : list string :=
  match List.find (fun s => so_id s === sid) (gw_sockets g) with Some s => so_rooms s | None => [] end.

Definition socketJoin (sid room : string) (g : Gateway) : Gateway :=
  g <| gw_sockets ::= List.map (fun s =>
    if so_id s === sid then s <| so_rooms ::= fun l => if mem room l then l else (l ++ [room])%list |> else s) |>.
Definition socketLeave (sid room : string) (g : Gateway) : Gateway :=
  g <| gw_sockets ::= List.map (fun s =>
    if so_id s === sid then s <| so_rooms ::= List.filter (fun r => negb (r === room)) |> else s) |>.
(** [socket.disconnect(true)] and [server.in(room).disconnectSockets(true)] *)
Definition disconnectSocket (sid : string) (g : Gateway) : Gateway :=
  g <| gw_sockets ::= List.filter (fun s => negb (so_id s === sid)) |>.
Definition disconnectRoom (room : string) (g : Gateway) : Gateway :=
  g <| gw_sockets ::= List.filter (fun s => negb (mem room (so_rooms s))) |>.

(** [server.on('connection')] *)
Definition onConnection (sid : string) (identity : SocketIdentity) (g : Gateway) : Gateway :=
  g <| gw_sockets ::= fun l => (l ++ [mkSocket sid identity [sid; userRoom (so_userId identity)] 0])%list |>.

(** ** The handlers *)

Definition enforceSocketEventLimit (reply : RedisReply) (amb : Ambient) (identity : SocketIdentity) : Proc Gateway unit :=
  _ ← onLimits (enforceRateLimit reply (nowMs amb) "chat:event:user" (so_userId identity)
                  (CHAT_MAX_EVENTS_PER_MINUTE chat) 60 mode_local);
  mret tt.

Definition withIdentity {A} (identity : SocketIdentity) (callback : Ambient -> A) (amb : Ambient) : A :=
  runWithRequestContext
    (Request ("ws:" ++ so_sessionId identity) (Some (so_userId identity))
       (if truthy (so_organizationId identity) then so_organizationId identity else None)) callback amb.

(** The [catch] of a handler. *)
Definition answered (m : Proc Gateway Ack) : Proc Gateway Ack := try_catch m (fun error => mret (AckError (errorCode error))).

(** A join up to its last [await] before the room is looked at. *)
Definition authorizeJoin (reply : RedisReply) (amb : Ambient) (identity : SocketIdentity) (raw : Json) : Proc Gateway string :=
  enforceSocketEventLimit reply amb identity;;
  conversationId ← parse (joinPayloadSchema isUuid) raw;
  _ ← onWorld (transact (withIdentity identity (fun amb => requireParticipant amb conversationId (so_userId identity)) amb));
  mret conversationId.

(** The rest runs in one turn: the limit is checked and the room joined. *)
Definition joinRoom (sid : string) (identity : SocketIdentity) (conversationId : string) : Proc Gateway Ack := fun g =>
  let room := conversationRoom (so_organizationId identity) conversationId in
  let rooms := roomsOf sid g in
  if negb (mem room rooms) && (CHAT_MAX_ROOMS env <=? Z.of_nat (joinedConversationCount rooms))%Z
  then (Err (Failure "chat_room_limit_exceeded"), g)
  else (Ok AckOk, socketJoin sid room g).

Definition onJoin (reply : RedisReply) (amb : Ambient) (sid : string) (identity : SocketIdentity) (raw : Json) : Proc Gateway Ack :=
  answered (conversationId ← authorizeJoin reply amb identity raw; joinRoom sid identity conversationId).

Definition onLeave (reply : RedisReply) (amb : Ambient) (sid : string) (identity : SocketIdentity) (raw : Json) : Proc Gateway Ack :=
  answered (
    enforceSocketEventLimit reply amb identity;;
    conversationId ← parse (joinPayloadSchema isUuid) raw;
    act (socketLeave sid (conversationRoom (so_organizationId identity) conversationId));;
    mret AckOk).

(** The two replies are those of the two limits. *)
Definition onSend (replies : RedisReply * RedisReply) (amb : Ambient) (identity : SocketIdentity) (raw : Json) : Proc Gateway Ack :=
  answered (
    enforceSocketEventLimit (fst replies) amb identity;;
    payload ← parse (sendMessagePayloadSchema isUuid) raw;
    _ ← onLimits (enforceRateLimit (snd replies) (nowMs amb) "chat:send:user"
                    (so_userId identity ++ ":" ++ sp_conversationId payload) (CHAT_MAX_MESSAGES_PER_MINUTE chat) 60 mode_local);
    sent ← onWorld (withIdentity identity (fun amb =>
                      sendMessage amb (sp_conversationId payload) (so_userId identity) (sp_input payload)) amb);
    let '(message, duplicate) := sent in
    serialized ← (match serializeMessage message with Ok m => mret m | Err e => throw e end);
    (if negb (duplicate : bool)
     then emit (mkEmission (Some (conversationRoom (so_organizationId identity) (sp_conversationId payload))) None
                  chatEvents.message (MessagePayload serialized))
     else mret tt);;
    mret (AckMessage serialized duplicate)).

Definition onMarkRead (reply : RedisReply) (amb : Ambient) (sid : string) (identity : SocketIdentity) (raw : Json) : Proc Gateway Ack :=
  answered (
    enforceSocketEventLimit reply amb identity;;
    payload ← parse (markReadPayloadSchema isUuid coerceInt) raw;
    lastReadSeq ← onWorld (withIdentity identity (fun amb =>
                    markRead amb (mrp_conversationId payload) (so_userId identity) (mrp_seq payload)) amb);
    emit (mkEmission (Some (conversationRoom (so_organizationId identity) (mrp_conversationId payload))) (Some sid)
            chatEvents.read (ReadPayload (mrp_conversationId payload) (so_userId identity) lastReadSeq));;
    mret (AckRead lastReadSeq)).

(** Only a room the socket is in is relayed to. *)
Definition relayTyping (sid : string) (identity : SocketIdentity) (parsed : TypingPayload) : Proc Gateway unit := fun g =>
  let room := conversationRoom (so_organizationId identity) (tp_conversationId parsed) in
  if negb (mem room (roomsOf sid g)) then (Ok tt, g)
  else emit (mkEmission (Some room) (Some sid) chatEvents.typing
               (TypingNotice (tp_conversationId parsed) (so_userId identity) (tp_typing parsed))) g.

(** Errors are swallowed. *)
Definition onTyping (reply : RedisReply) (amb : Ambient) (sid : string) (identity : SocketIdentity) (raw : Json) : Proc Gateway unit :=
  try_catch (
    enforceSocketEventLimit reply amb identity;;
    parsed ← parse (typingPayloadSchema isUuid) raw;
    relayTyping sid identity parsed)
    (fun _ => mret tt).

(** ** The timers *)

Definition backpressureSweep (g : Gateway) : Gateway :=
  g <| gw_sockets ::= List.filter (fun s => (so_writeBuffer s <=? CHAT_MAX_WRITE_BUFFER chat)%nat) |>.

(** The sessions of a batch that are live, each with its active organization. *)
Definition batchSessions (amb : Ambient) (batch : list Socket) : Tx World (list (Session * option Organization)) :=
  us ← tx_findMany_raw (fun _ : User => true);
  os ← tx_findMany_raw (fun _ : Organization => true);
  sessions ← tx_findMany (fun s =>
    mem (sess_id s) (List.map (fun so => so_sessionId (so_identity so)) batch)
    && is_null (sess_revokedAt s) && is_null (sess_deletedAt s) && (nowMs amb <? sess_expiresAt s)%Z
    && existsb (fun u => (user_id u === sess_userId s) && (user_status u === User_ACTIVE) && is_null (user_deletedAt u)) us);
  mret (List.map (fun s => (s, findFirst (fun o => Some (org_id o) === sess_activeOrganizationId s) os)) sessions).

Definition memberKey (organizationId userId : string) : string := organizationId ++ ":" ++ userId.

(** The keys of the active memberships of a batch. *)
Definition batchMemberships (batch : list Socket) : Tx World (list string) :=
  let tenantIdentities := List.filter (fun so => is_set (so_organizationId (so_identity so))) batch in
  if (length tenantIdentities =? 0)%nat then mret []
  else
    memberships ← tx_findMany (fun m =>
      existsb (fun so => (so_organizationId (so_identity so) === Some (mem_organizationId m))
                         && (so_userId (so_identity so) === mem_userId m)) tenantIdentities
      && (mem_status m === Mem_ACTIVE) && is_null (mem_deletedAt m));
    mret (List.map (fun m => memberKey (mem_organizationId m) (mem_userId m)) memberships).

(** [liveSessions.get(id)]: the last entry of a [Map] built from the list. *)
Definition sessionIn (sessions : list (Session * option Organization)) (id : string) : option (Session * option Organization) :=
  List.find (fun so => sess_id (fst so) === id) (List.rev sessions).

Definition keeps (sessions : list (Session * option Organization)) (activeMemberships : list string) (identity : SocketIdentity) : bool :=
  match sessionIn sessions (so_sessionId identity) with
  | None => false
  | Some (session, activeOrganization) =>
      let organizationValid :=
        match so_organizationId identity with
        | None => true
        | Some organizationId =>
            (sess_activeOrganizationId session === Some organizationId)
            && match activeOrganization with Some o => (org_status o === Org_ACTIVE) && is_null (org_deletedAt o) | None => false end
            && mem (memberKey organizationId (so_userId identity)) activeMemberships
        end in
      (sess_userId session === so_userId identity) && (sess_activeOrganizationId session === so_organizationId identity)
      && organizationValid
  end.

Definition revalidateBatch (amb : Ambient) (batch : list Socket) : Proc Gateway unit :=
  sessions ← onWorld (transact (batchSessions amb batch));
  activeMemberships ← onWorld (transact (batchMemberships batch));
  act (fun g => List.fold_left (fun g so =>
    if keeps sessions activeMemberships (so_identity so) then g else disconnectSocket (so_id so) g) batch g).

Definition REVALIDATE_BATCH : nat := 500.

(** [for (let offset = 0; offset < length; offset += 500)]; [fuel] counts the batches. *)
Fixpoint revalidateFrom (fuel : nat) (amb : Ambient) (entries : list Socket) : Proc Gateway unit :=
  match fuel, entries with
  | _, [] | 0, _ => mret tt
  | S fuel, _ =>
      revalidateBatch amb (firstn REVALIDATE_BATCH entries);;
      revalidateFrom fuel amb (skipn REVALIDATE_BATCH entries)
  end.

Definition revalidateConnectedSockets (amb : Ambient) : Proc Gateway unit := fun g =>
  revalidateFrom (length (gw_sockets g)) amb (gw_sockets g) g.

(** ** Revocations, publication, drain *)

(** A notice on the revocation channel; a publisher sends the user as text. *)
Definition onRevocation (raw : string) (g : Gateway) : Gateway :=
  match jsonParse raw with
  | Some notice =>
      match jget "userId" notice with
      | Some (JStr userId) => if userId === EmptyString then g else disconnectRoom (userRoom userId) g
      | _ => g
      end
  | None => g
  end.

Definition publish (organizationId : option string) (conversationId event : string) (payload : Json) : Proc Gateway unit :=
  emit (mkEmission (Some (conversationRoom organizationId conversationId)) None event (PublishedPayload payload)).

Definition drain : Proc Gateway unit :=
  emit (mkEmission None None chatEvents.draining (DrainNotice (CHAT_DRAIN_RECONNECT_MS chat)));;
  act (fun g => g <| gw_draining := true |> <| gw_sockets := [] |>).
End Gateway.
