(* ===== verification/ChatGatewaySpec.v ===== *)
(** * What the chat gateway guarantees

    A connection is authenticated exactly as a request is; a cookie only counts from an allowed origin; whatever the
    interleaving, a socket is only in rooms of conversations its user takes part in, and in a bounded number of them; a
    sweep keeps exactly the sockets a request of which would still be served in the same organization. *)

From Stdlib Require Import ZArith Lia Bool.
From S2P Require Import Prelude Store Database JsString JsonText Platform Request TenantScope AuditTrail Tenancy Sessions SessionsSpec AccessControl OrganizationsSpec PermissionsSpec ClientIp RateLimit RateLimitSpec Guards Chat ChatSpec ChatHandshake ChatGateway.

Open Scope string_scope.

Section Identity.
Context `{Platform}.
Implicit Types (amb : Ambient) (w : World).

(** ** Who a token stands for *)

(** [resolveIdentity] once the token is verified. *)
Definition identityOf amb (claims : AccessClaims) (w : World) : option SocketIdentity :=
  match findFirst (activeWhere (liveSession amb claims (users w))) (sessions w) with
  | None => None
  | Some session =>
      let organizationId := sess_activeOrganizationId session in
      let identity := mkIdentity (claim_userId claims) (claim_sessionId claims) organizationId in
      if truthy organizationId then
        match findFirst (fun o => Some (org_id o) === organizationId) (organizations w) with
        | None => None
        | Some o =>
            if is_set (org_deletedAt o) || (org_status o !== Org_ACTIVE) then None
            else if is_set (findFirst (activeWhere (fun m => (Some (mem_organizationId m) === organizationId)
                 && (mem_userId m === claim_userId claims) && (mem_status m === Mem_ACTIVE) && is_null (mem_deletedAt m))) (memberships w))
            then Some identity else None
        end
      else Some identity
  end.

Lemma findMany_true {R} (t : list R) : findMany (fun _ => true) t = t.
Proof. unfold findMany. induction t as [|r t IH]; cbn; [done|by rewrite IH]. Qed.

Lemma resolveIdentity_runs amb token w :
  resolveIdentity amb token w = match verifyAccessToken amb token with Ok claims => Ok (identityOf amb claims w, w) | Err e => Err e end.
Proof.
  unfold resolveIdentity, identityOf, tx_findMany_raw, tx_findFirst, tx_findFirst_raw, tx_lift, mbind, tx_bind, mret, tx_ret.
  destruct (verifyAccessToken amb token) as [claims|e]; [|done]. cbn -[findFirst activeWhere findMany].
  rewrite findMany_true. destruct (findFirst _ (sessions w)) as [session|]; [|done].
  destruct (truthy _); [|done]. destruct (findFirst _ (organizations w)) as [o|]; [|done].
  destruct (_ || _); [done|]. by destruct (findFirst _ (memberships w)).
Qed.

Lemma bd_Some {A} `{EqDecision A} (a b : A) : (Some a === Some b) = (a === b).
Proof. apply bool_decide_ext. split; congruence. Qed.

Lemma liveSession_user amb claims w session :
  findFirst (activeWhere (liveSession amb claims (users w))) (sessions w) = Some session ->
  exists user, findFirst (fun u => user_id u === sess_userId session) (users w) = Some user.
Proof.
  intros Hf. apply findFirst_Some in Hf as [_ Hl]. apply andb_true_iff in Hl as [_ Hl]. unfold liveSession in Hl.
  apply andb_true_iff in Hl as [_ Hu]. apply existsb_exists in Hu as (user & Hin & Hp). bools.
  apply (findFirst_is_Some _ _ user Hin). by apply bool_decide_eq_true.
Qed.

(** The request state [authenticate] leaves is that of an identity. *)
Definition sameIdentity (state : AuthState) (identity : SocketIdentity) : Prop :=
  auth_userId state = so_userId identity /\ auth_sessionId state = so_sessionId identity
  /\ auth_organizationId state = if truthy (so_organizationId identity) then so_organizationId identity else None.

(** C36: The gateway resolves a token exactly as [authenticate] does, as its comment says: a token gets an identity if and
    only if a request carrying it is authenticated, as the same user, in the same session and organization; and neither
    changes anything. *)
Theorem handshake_agrees_with_authenticate amb token w : token <> EmptyString ->
  match authenticate amb (Some token) w with
  | Ok ((state, _), w') => w' = w /\ exists identity, resolveIdentity amb token w = Ok (Some identity, w) /\ sameIdentity state identity
  | Err _ => forall identity w', resolveIdentity amb token w <> Ok (Some identity, w')
  end.
Proof.
  intros Ht. rewrite resolveIdentity_runs. unfold authenticate. cbn [truthy]. rewrite (bd_ne token EmptyString Ht). cbn [negb default].
  unfold tx_lift, tx_findMany_raw, tx_findFirst, tx_findFirst_raw, tx_require, tx_throw, mret, tx_ret, mbind, tx_bind, identityOf.
  cbn -[findFirst activeWhere findMany].
  destruct (verifyAccessToken amb token) as [claims|e]; [|by intros identity w']. rewrite findMany_true.
  destruct (findFirst _ (sessions w)) as [session|] eqn:Es; [|by intros identity w' [=]].
  destruct (liveSession_user _ _ _ _ Es) as [user Hu]. cbn -[findFirst activeWhere truthy]. rewrite Hu. cbn -[findFirst activeWhere truthy].
  destruct (truthy (sess_activeOrganizationId session)) eqn:Et.
  - destruct (sess_activeOrganizationId session) as [org|] eqn:Eo; [|done]. cbn -[findFirst activeWhere].
    rewrite (findFirst_ext (fun o => Some (org_id o) === Some org) (fun o => org_id o === org)) by (intros; apply bd_Some).
    rewrite (findFirst_ext _ (activeWhere (fun m => (mem_organizationId m === org) && (mem_userId m === claim_userId claims)
      && (mem_status m === Mem_ACTIVE) && is_null (mem_deletedAt m))) (memberships w))
      by (intros m Hm; unfold activeWhere; by rewrite bd_Some).
    destruct (findFirst _ (organizations w)) as [o|]; cbn -[findFirst activeWhere]; [|by intros identity w' [=]].
    destruct (is_set (org_deletedAt o) || (org_status o !== Org_ACTIVE)); [by intros identity w' [=]|].
    destruct (findFirst _ (memberships w)) as [m|]; [|by intros identity w' [=]].
    split; [done|]. eexists. split; [reflexivity|]. unfold sameIdentity. cbn -[truthy]. by rewrite Et.
  - split; [done|]. eexists. split; [reflexivity|]. unfold sameIdentity. cbn -[truthy]. by rewrite Et.
Qed.
End Identity.

(** ** The revalidation sweep *)

Section Sweep.
Context `{Platform} `{Redis}.
Variable chat : ChatSettings.
Implicit Types (amb : Ambient) (w : World) (g : Gateway).

Definition claimsOf (identity : SocketIdentity) : AccessClaims := mkClaims (so_userId identity) (so_sessionId identity).

(** A request with a token of the socket's session would be served, in the socket's organization. *)
Definition stillValid amb w (identity : SocketIdentity) : bool := identityOf amb (claimsOf identity) w === Some identity.

(** Identifiers as they are: socket and session identifiers are unique, an organization's has no colon. *)
Definition tenantKey (identity : SocketIdentity) : Prop :=
  match so_organizationId identity with Some o => o <> EmptyString /\ noChar ":" o = true | None => True end.
Record sweepable g : Prop := {
  sw_sockets : List.NoDup (List.map so_id (gw_sockets g));
  sw_sessions : List.NoDup (List.map sess_id (sessions (gw_world g)));
  sw_tenants : forall s, In s (gw_sockets g) -> tenantKey (so_identity s)
}.

Lemma memberKey_inj o u o' u' : noChar ":" o = true -> noChar ":" o' = true -> memberKey o u = memberKey o' u' -> o = o' /\ u = u'.
Proof.
  unfold memberKey, noChar. revert o'. induction o as [|c o IH]; intros [|c' o'] Ho Ho' Hq; cbn in Ho, Ho'.
  - split; [done|]. by do 2 apply append_inj_l in Hq.
  - rewrite append_cons in Hq. by injection Hq as <- _.
  - rewrite append_cons in Hq. by injection Hq as -> _.
  - rewrite !append_cons in Hq. injection Hq as -> Hq. apply andb_true_iff in Ho as [_ Ho], Ho' as [_ Ho'].
    by destruct (IH o' Ho Ho' Hq) as [-> ->].
Qed.

(** The rows of the first query. *)
Definition liveRow amb w (s : Session) : bool :=
  is_null (softDeletedAt s) && is_null (sess_revokedAt s) && is_null (sess_deletedAt s) && (nowMs amb <? sess_expiresAt s)%Z
  && existsb (fun u => (user_id u === sess_userId s) && (user_status u === User_ACTIVE) && is_null (user_deletedAt u)) (users w).

Definition withOrganization w (s : Session) : Session * option Organization :=
  (s, findFirst (fun o => Some (org_id o) === sess_activeOrganizationId s) (organizations w)).

(** Lookups by a key that is unique. *)
Section ByKey.
Context {R : Type} (key : R -> string).

Lemma find_key (P : R -> bool) l x : List.NoDup (List.map key l) -> In x l -> P x = true ->
  List.find (fun y => (key y === key x) && P y) l = Some x.
Proof.
  intros Hnd Hin HP. destruct (List.find _ l) as [y|] eqn:Ef.
  - apply List.find_some in Ef as [Hy Hk]. bools. f_equal. by apply (NoDup_key_inj key l).
  - apply (List.find_none _ _ Ef) in Hin. by rewrite bd_refl, HP in Hin.
Qed.

Lemma find_rev k l : List.NoDup (List.map key l) ->
  List.find (fun y => key y === k) (List.rev l) = List.find (fun y => key y === k) l.
Proof.
  intros Hnd. assert (Hnd' : List.NoDup (List.map key (List.rev l))) by (rewrite List.map_rev; by apply List.NoDup_rev).
  destruct (List.find _ (List.rev l)) as [x|] eqn:Ef.
  - apply List.find_some in Ef as [Hx Hk]. bools. subst k. apply List.in_rev in Hx.
    pose proof (find_key (fun _ => true) l x Hnd Hx eq_refl) as Hf. symmetry. rewrite <- Hf.
    apply (findFirst_ext (R := R)). intros y _. by rewrite andb_true_r.
  - destruct (List.find _ l) as [x|] eqn:Ex; [|done]. apply List.find_some in Ex as [Hx Hk].
    apply List.in_rev in Hx. pose proof (List.find_none _ _ Ef x Hx) as Hn. cbn in Hn. congruence.
Qed.

Lemma find_and k (P Q : R -> bool) l : List.NoDup (List.map key l) ->
  List.find (fun y => (key y === k) && P y && Q y) l
  = match List.find (fun y => (key y === k) && P y) l with Some x => if Q x then Some x else None | None => None end.
Proof.
  induction l as [|x l IH]; cbn; [done|]. intros Hnd. apply List.NoDup_cons_iff in Hnd as [Hni Hnd].
  destruct ((key x === k) && P x) eqn:E; cbn; [|by apply IH].
  destruct (Q x); [done|]. destruct (List.find _ l) as [y|] eqn:Ef; [|done].
  apply List.find_some in Ef as [Hy Hk]. bools. exfalso. apply Hni.
  replace (key x) with (key y) by congruence. by apply List.in_map.
Qed.
End ByKey.

Lemma find_map_filter {R K} (key : K -> string) (f : R -> K) (P : R -> bool) k l :
  List.find (fun y => key y === k) (List.map f (List.filter P l)) = f <$> List.find (fun r => (key (f r) === k) && P r) l.
Proof.
  induction l as [|r l IH]; cbn; [done|]. destruct (P r) eqn:E; cbn; [|by rewrite andb_false_r].
  rewrite andb_true_r. by destruct (_ === _).
Qed.

(** The row a socket is judged by. *)
Definition sessionRow amb w (id : string) : option Session :=
  List.find (fun s => (sess_id s === id) && liveRow amb w s) (sessions w).

Definition batchIds (batch : list Socket) : list string := List.map (fun so => so_sessionId (so_identity so)) batch.

Lemma batchSessions_runs amb batch w : batchSessions amb batch w
  = Ok (List.map (withOrganization w) (List.filter (fun s => mem (sess_id s) (batchIds batch) && liveRow amb w s) (sessions w)), w).
Proof.
  unfold batchSessions, tx_findMany_raw, tx_findMany, mbind, tx_bind, mret, tx_ret. rewrite !findMany_true. unfold findMany.
  do 2 f_equal. f_equal. apply List.filter_ext. intros s. unfold activeWhere, liveRow, batchIds. cbn.
  rewrite <- !andb_assoc. destruct (mem _ _); cbn; [done|]. by rewrite andb_false_r.
Qed.

Lemma sessionIn_row amb batch w rows id : List.NoDup (List.map sess_id (sessions w)) -> In id (batchIds batch) ->
  batchSessions amb batch w = Ok (rows, w) -> sessionIn rows id = withOrganization w <$> sessionRow amb w id.
Proof.
  intros Hnd Hid. rewrite batchSessions_runs. intros [= <-]. unfold sessionIn.
  rewrite (find_rev (fun so => sess_id (fst so))).
  - rewrite find_map_filter. f_equal. apply findFirst_ext. intros s _. cbn. case_bool_decide as Hq; [|done]. cbn.
    by rewrite Hq, (proj2 (mem_In _ _) Hid).
  - rewrite List.map_map. cbn. rewrite List.map_ext with (g := sess_id) by done. by apply NoDup_map_findMany.
Qed.

(** ** Validity, as the sweep decides it *)

Lemma liveSession_row amb w identity : List.NoDup (List.map sess_id (sessions w)) ->
  findFirst (activeWhere (liveSession amb (claimsOf identity) (users w))) (sessions w)
  = match sessionRow amb w (so_sessionId identity) with
    | Some s => if sess_userId s === so_userId identity then Some s else None | None => None end.
Proof.
  intros Hnd. unfold sessionRow. rewrite <- (find_and sess_id (so_sessionId identity)) by done.
  apply findFirst_ext. intros s _. unfold activeWhere, liveSession, liveRow. cbn.
  destruct (sess_id s === so_sessionId identity), (sess_userId s === so_userId identity), (is_null (sess_deletedAt s)),
    (is_null (sess_revokedAt s)); cbn; rewrite ?andb_true_r, ?andb_false_r; done.
Qed.

(** The membership of an identity in its organization is active. *)
Definition memberOf w (organizationId userId : string) : bool :=
  is_set (findFirst (activeWhere (fun m => (Some (mem_organizationId m) === Some organizationId)
    && (mem_userId m === userId) && (mem_status m === Mem_ACTIVE) && is_null (mem_deletedAt m))) (memberships w)).

Lemma batchMemberships_runs batch w : (forall so, In so batch -> tenantKey (so_identity so)) ->
  exists keys, batchMemberships batch w = Ok (keys, w) /\
  forall so o, In so batch -> so_organizationId (so_identity so) = Some o ->
  mem (memberKey o (so_userId (so_identity so))) keys = memberOf w o (so_userId (so_identity so)).
Proof.
  intros Hkeys. unfold batchMemberships. set (tenants := List.filter _ batch).
  assert (Hin : forall so o, In so batch -> so_organizationId (so_identity so) = Some o -> In so tenants).
  { intros so o Hso Ho. apply List.filter_In. split; [done|by rewrite Ho]. }
  destruct (length tenants =? 0)%nat eqn:En.
  { exists []. split; [done|]. intros so o Hso Ho. apply (Hin so o Hso) in Ho. by destruct tenants. }
  unfold tx_findMany, mbind, tx_bind, mret, tx_ret. eexists. split; [reflexivity|]. intros so o Hso Ho.
  pose proof (Hkeys so Hso) as Hk. unfold tenantKey in Hk. rewrite Ho in Hk. destruct Hk as [_ Hk].
  apply eq_true_iff_eq. rewrite mem_In, List.in_map_iff. setoid_rewrite In_findMany. unfold memberOf. split.
  - intros (m & Hq & Hm & Hp). unfold activeWhere in Hp. apply andb_true_iff in Hp as [Hd Hp].
    apply andb_true_iff in Hp as [Hp Hdel]. apply andb_true_iff in Hp as [Hp Hact].
    apply existsb_exists in Hp as (so' & Hso' & Hp'). apply andb_true_iff in Hp' as [Ho' _]. apply bool_decide_eq_true in Ho'.
    apply List.filter_In in Hso' as [Hso' _]. pose proof (Hkeys so' Hso') as Hk'. unfold tenantKey in Hk'.
    rewrite Ho' in Hk'. apply memberKey_inj in Hq as [Hq1 Hq2]; [|apply Hk'|done].
    destruct (findFirst _ _) eqn:Ef; [done|]. apply (findFirst_None _ _ m) in Ef; [|done].
    unfold activeWhere in Ef. rewrite Hq1, Hq2, !bd_refl, Hd, Hact, Hdel in Ef. done.
  - destruct (findFirst _ _) as [m|] eqn:Ef; [|done]. intros _. apply findFirst_Some in Ef as [Hm Hp]. exists m.
    unfold activeWhere in *. apply andb_true_iff in Hp as [Hd Hp]. apply andb_true_iff in Hp as [Hp Hdel].
    apply andb_true_iff in Hp as [Hp Hact]. apply andb_true_iff in Hp as [Hp1 Hp2]. bools.
    assert (Hq : mem_organizationId m = o) by congruence. split; [congruence|]. split; [done|].
    rewrite Hd, Hact, Hdel, !andb_true_r. apply andb_true_iff. split; [done|]. apply existsb_exists. exists so.
    split; [by eapply Hin|]. rewrite Ho, Hq, Hp2. by rewrite !bd_refl.
Qed.

(** The sweep's verdict on a socket of the batch is the handshake's. *)
Lemma keeps_valid amb batch w rows keys so : List.NoDup (List.map sess_id (sessions w)) ->
  (forall so, In so batch -> tenantKey (so_identity so)) -> In so batch ->
  batchSessions amb batch w = Ok (rows, w) ->
  (forall so o, In so batch -> so_organizationId (so_identity so) = Some o ->
     mem (memberKey o (so_userId (so_identity so))) keys = memberOf w o (so_userId (so_identity so))) ->
  keeps rows keys (so_identity so) = stillValid amb w (so_identity so).
Proof.
  intros Hnd Hkeys Hso Hrows Hmem. specialize (Hkeys so Hso). specialize (fun o => Hmem so o Hso).
  unfold keeps, stillValid, identityOf. rewrite liveSession_row by done.
  rewrite (sessionIn_row amb batch w rows) by (done || by apply (List.in_map (fun so => so_sessionId (so_identity so)))).
  unfold tenantKey in Hkeys. destruct (so_identity so) as [u sid org]. cbn [so_userId so_sessionId so_organizationId] in *.
  destruct (sessionRow amb w sid) as [s|]; [|done]. unfold withOrganization. cbn [fmap option_fmap option_map fst snd].
  case_bool_decide as Hu; [|done]. cbn [andb].
  unfold claimsOf. cbn [so_userId so_sessionId claim_userId claim_sessionId].
  destruct (decide (sess_activeOrganizationId s = org)) as [Ho|Ho].
  - rewrite Ho, (bd_refl org). cbn [andb]. destruct org as [o|]; [|symmetry; by apply bool_decide_eq_true].
    unfold truthy. rewrite (bd_ne o EmptyString) by apply Hkeys. cbn [negb].
    rewrite (bd_refl (Some o)), (Hmem o eq_refl).
    destruct (findFirst _ (organizations w)) as [organization|]; [|done]. cbn [andb].
    destruct (org_status organization === Org_ACTIVE), (org_deletedAt organization); cbn [is_set is_null negb orb andb]; try done.
    unfold memberOf. destruct (is_set _); symmetry; [by apply bool_decide_eq_true|by apply bool_decide_eq_false].
  - rewrite (bd_ne (sess_activeOrganizationId s) org) by done. cbn [andb]. symmetry. apply bool_decide_eq_false.
    intros Hq. repeat case_match; congruence.
Qed.

(** ** The loop over the batches *)

(** The sockets [l] without those of [judged] that are not valid any more. *)
Definition survivors amb w (judged l : list Socket) : list Socket :=
  List.filter (fun s => negb (existsb (fun so => (so_id so === so_id s) && negb (stillValid amb w (so_identity so))) judged)) l.

Lemma filter_twice {A} (P Q : A -> bool) l : List.filter Q (List.filter P l) = List.filter (fun x => P x && Q x) l.
Proof. induction l as [|x l IH]; cbn; [done|]. destruct (P x); cbn; [by rewrite IH|done]. Qed.

Lemma survivors_app amb w a b l : survivors amb w b (survivors amb w a l) = survivors amb w (a ++ b) l.
Proof.
  unfold survivors. rewrite filter_twice. apply List.filter_ext. intros s. by rewrite existsb_app, negb_orb.
Qed.

Lemma survivors_nil amb w l : survivors amb w [] l = l.
Proof. unfold survivors. induction l as [|s l IH]; cbn; [done|by rewrite <- IH at 2]. Qed.

Lemma sockets_ext (f f' : list Socket -> list Socket) g : f (gw_sockets g) = f' (gw_sockets g) ->
  g <| gw_sockets ::= f |> = g <| gw_sockets ::= f' |>.
Proof. intros Hf. unfold field_set. cbn. by rewrite Hf. Qed.

Lemma disconnect_fold amb w rows keys batch g :
  (forall so, In so batch -> keeps rows keys (so_identity so) = stillValid amb w (so_identity so)) ->
  List.fold_left (fun g so => if keeps rows keys (so_identity so) then g else disconnectSocket (so_id so) g) batch g
  = g <| gw_sockets ::= survivors amb w batch |>.
Proof.
  revert g. induction batch as [|so batch IH]; intros g Hk; cbn [List.fold_left].
  - rewrite (sockets_ext _ (fun l => l)) by (apply survivors_nil). by destruct g.
  - rewrite IH by (intros; apply Hk; by right). rewrite (Hk so) by (by left).
    rewrite (sockets_ext _ (fun l => survivors amb w batch (survivors amb w [so] l)) g)
      by (by rewrite survivors_app).
    replace (if stillValid amb w (so_identity so) then g else disconnectSocket (so_id so) g)
      with (g <| gw_sockets ::= survivors amb w [so] |>); [done|].
    unfold survivors, disconnectSocket. cbn [existsb]. destruct (stillValid amb w (so_identity so)).
    + rewrite (sockets_ext _ (fun l => l)); [by destruct g|]. 
      rewrite List.filter_ext with (g := fun _ => true); [by rewrite List.filter_true|]. intros s. by rewrite andb_false_r.
    + apply sockets_ext. apply List.filter_ext. intros s. rewrite andb_true_r, orb_false_r. f_equal. apply bool_decide_ext. split; congruence.
Qed.

Lemma revalidateBatch_runs amb batch g : List.NoDup (List.map sess_id (sessions (gw_world g))) ->
  (forall so, In so batch -> tenantKey (so_identity so)) ->
  revalidateBatch amb batch g = (Ok tt, g <| gw_sockets ::= survivors amb (gw_world g) batch |>).
Proof.
  intros Hnd Hkeys. pose proof (batchSessions_runs amb batch (gw_world g)) as Hrows.
  destruct (batchMemberships_runs batch (gw_world g) Hkeys) as (keys & Hm & Hmem).
  unfold revalidateBatch, onWorld, transact, act, mbind, proc_bind. rewrite Hrows. cbn [gw_world]. destruct g as [w st l em dr].
  cbn in Hrows, Hm |- *. rewrite Hm. f_equal.
  rewrite (disconnect_fold amb w); [done|]. intros so Hso. by apply (keeps_valid amb batch w).
Qed.

Lemma revalidateFrom_runs fuel amb : forall entries g, length entries <= fuel ->
  List.NoDup (List.map sess_id (sessions (gw_world g))) -> (forall so, In so entries -> tenantKey (so_identity so)) ->
  revalidateFrom fuel amb entries g = (Ok tt, g <| gw_sockets ::= survivors amb (gw_world g) entries |>).
Proof.
  induction fuel as [|fuel IH]; intros entries g Hf Hnd Hkeys; destruct entries as [|so entries]; cbn [length] in Hf; try lia;
    try (cbn; rewrite (sockets_ext _ (fun l => l)) by apply survivors_nil; by destruct g).
  cbn [revalidateFrom]. set (all := so :: entries) in *.
  assert (Hsplit : all = (firstn REVALIDATE_BATCH all ++ skipn REVALIDATE_BATCH all)%list) by (symmetry; apply List.firstn_skipn).
  unfold mbind, proc_bind. rewrite revalidateBatch_runs; [|done|].
  2:{ intros s Hs. apply Hkeys. rewrite Hsplit. apply in_or_app. by left. }
  rewrite IH; [|unfold all; rewrite List.length_skipn; cbn [length]; unfold REVALIDATE_BATCH; lia|by destruct g|].
  2:{ intros s Hs. apply Hkeys. rewrite Hsplit. apply in_or_app. by right. }
  destruct g as [w st l em dr]. unfold field_set. cbn [gw_world gw_sockets gw_limits gw_emitted gw_draining]. do 2 f_equal.
  by rewrite survivors_app, <- Hsplit.
Qed.

(** C35: A revalidation sweep ends and keeps exactly the connected sockets whose session, read at that moment, would still
    get the same identity from the handshake: the session is live, the user and the organization active, the membership
    in force and the active organization the one the socket is bound to. Nothing else of the node changes. *)
Theorem revalidation_sweep_exact amb g : sweepable g ->
  revalidateConnectedSockets amb g
  = (Ok tt, g <| gw_sockets ::= List.filter (fun s => stillValid amb (gw_world g) (so_identity s)) |>).
Proof.
  intros [Hs Hnd Hkeys]. unfold revalidateConnectedSockets. rewrite revalidateFrom_runs by done. f_equal.
  apply sockets_ext. apply List.filter_ext_in. intros s Hin. destruct (stillValid amb (gw_world g) (so_identity s)) eqn:Ev.
  - apply negb_true_iff, not_true_iff_false. intros Hex. apply existsb_exists in Hex as (so & Hso & Hp). bools.
    assert (so = s) as -> by (by apply (NoDup_key_inj so_id (gw_sockets g))). congruence.
  - apply negb_false_iff, existsb_exists. exists s. by rewrite bd_refl, Ev.
Qed.
End Sweep.

(** ** Rooms, whatever the interleaving *)

Section Rooms.
Context `{Platform} `{Redis}.
Variables (chat : ChatSettings) (isUuid : string -> bool) (coerceInt : option Json -> option Z).
Implicit Types (amb : Ambient) (w : World) (g : Gateway).

(** A node and what it has seen: the identities the handshake accepted, the sockets that ever connected, the joins that
    were authorized, and the states of the database. *)
Record Node := mkNode {
  nd_gateway : Gateway; nd_admitted : list SocketIdentity; nd_known : list (string * SocketIdentity);
  nd_granted : list (string * string); nd_history : list World
}.

Definition sees_world (g : Gateway) (n : Node) : Node :=
  mkNode g (nd_admitted n) (nd_known n) (nd_granted n) (gw_world g :: nd_history n).

(** A name that is no conversation's room. *)
Definition plain (room : string) : Prop := includes ":conversation:" room = false.

(** What a turn of the event loop can be. A handler runs from one [await] of the database to the next; a join has its
    own two turns, since the room is looked at after it was authorized. *)
Inductive step : Node -> Node -> Prop :=
| step_admit n reply amb hs identity st :
    acceptConnection chat reply amb hs (gw_limits (nd_gateway n)) (gw_world (nd_gateway n)) = (Ok identity, st) ->
    step n (mkNode ((nd_gateway n) <| gw_limits := st |>) (identity :: nd_admitted n) (nd_known n) (nd_granted n) (nd_history n))
| step_connect n sid identity : In identity (nd_admitted n) -> ~ In sid (List.map fst (nd_known n)) ->
    plain sid -> plain (userRoom (so_userId identity)) ->
    step n (mkNode (onConnection sid identity (nd_gateway n)) (nd_admitted n) ((sid, identity) :: nd_known n)
              (nd_granted n) (nd_history n))
| step_authorize n reply amb sid identity raw conversationId g : In (sid, identity) (nd_known n) ->
    authorizeJoin chat isUuid reply amb identity raw (nd_gateway n) = (Ok conversationId, g) ->
    step n (mkNode g (nd_admitted n) (nd_known n) ((sid, conversationId) :: nd_granted n) (gw_world g :: nd_history n))
| step_join n sid identity conversationId ack g : In (sid, identity) (nd_known n) -> In (sid, conversationId) (nd_granted n) ->
    joinRoom sid identity conversationId (nd_gateway n) = (ack, g) -> step n (sees_world g n)
| step_leave n reply amb sid identity raw ack g : onLeave chat isUuid reply amb sid identity raw (nd_gateway n) = (ack, g) ->
    step n (sees_world g n)
| step_send n replies amb identity raw ack g : onSend chat isUuid replies amb identity raw (nd_gateway n) = (ack, g) ->
    step n (sees_world g n)
| step_markRead n reply amb sid identity raw ack g :
    onMarkRead chat isUuid coerceInt reply amb sid identity raw (nd_gateway n) = (ack, g) -> step n (sees_world g n)
| step_typing n reply amb sid identity raw r g : onTyping chat isUuid reply amb sid identity raw (nd_gateway n) = (r, g) ->
    step n (sees_world g n)
| step_backpressure n : step n (sees_world (backpressureSweep chat (nd_gateway n)) n)
| step_revalidate n amb batch g : revalidateBatch amb batch (nd_gateway n) = (Ok tt, g) -> step n (sees_world g n)
| step_revocation n raw : step n (sees_world (onRevocation raw (nd_gateway n)) n)
| step_publish n organizationId conversationId event payload r g :
    publish organizationId conversationId event payload (nd_gateway n) = (r, g) -> step n (sees_world g n)
| step_disconnect n sid : step n (sees_world (disconnectSocket sid (nd_gateway n)) n)
| step_buffer n sid k : step n (sees_world ((nd_gateway n) <| gw_sockets ::=
    List.map (fun s => if so_id s === sid then s <| so_writeBuffer := k |> else s) |>) n)
| step_drain n r g : drain chat (nd_gateway n) = (r, g) -> step n (sees_world g n)
(** requests and other processes change the database and the counters *)
| step_rest n w st : step n (sees_world ((nd_gateway n) <| gw_world := w |> <| gw_limits := st |>) n).

Inductive reachable : Node -> Prop :=
| reach_start w st : reachable (mkNode (mkGateway w st [] [] false) [] [] [] [w])
| reach_step n n' : reachable n -> step n n' -> reachable n'.

(** ** What a step does to the sockets *)

(** Only the join and the connection add anything: every other turn keeps or drops sockets, and rooms of them. The
    sockets of [g] come so from those in [l]. *)
Definition comesFrom (l : list Socket) (s' : Socket) : Prop := exists s P,
  In s l /\ so_id s' = so_id s /\ so_identity s' = so_identity s /\ so_rooms s' = List.filter P (so_rooms s).
Definition shrunk (l : list Socket) g : Prop := (forall s', In s' (gw_sockets g) -> comesFrom l s')
  /\ (List.NoDup (List.map so_id l) -> List.NoDup (List.map so_id (gw_sockets g))).
Definition shrinks g g' : Prop := shrunk (gw_sockets g) g'.

Lemma comesFrom_self l s : In s l -> comesFrom l s.
Proof. intros Hs. exists s, (fun _ => true). by rewrite List.filter_true. Qed.

Definition socketsAre (l : list Socket) g : Prop := gw_sockets g = l.

Lemma pres_onWorld {A} l (m : Proc World A) : proc_pres (socketsAre l) (onWorld m).
Proof. intros g Hg. unfold onWorld. by destruct (m (gw_world g)). Qed.
Lemma pres_onLimits {A} l (m : Proc RateState A) : proc_pres (socketsAre l) (onLimits m).
Proof. intros g Hg. unfold onLimits. by destruct (m (gw_limits g)). Qed.
Lemma pres_parse {A} l (schema : Json -> option A) raw : proc_pres (socketsAre l) (parse schema raw).
Proof. unfold parse. destruct (schema raw); intros g Hg; done. Qed.
Lemma pres_emit l e : proc_pres (socketsAre l) (emit e).
Proof. by intros g Hg. Qed.
#[local] Hint Resolve pres_onWorld pres_onLimits pres_parse pres_emit : pres.

Lemma pres_eventLimit l reply amb identity : proc_pres (socketsAre l) (enforceSocketEventLimit chat reply amb identity).
Proof. unfold enforceSocketEventLimit. pres. Qed.
Lemma pres_relay l sid identity parsed : proc_pres (socketsAre l) (relayTyping sid identity parsed).
Proof. intros g Hg. unfold relayTyping. by destruct (negb _). Qed.
#[local] Hint Resolve pres_eventLimit pres_relay : pres.

Lemma shrinks_same g g' : gw_sockets g' = gw_sockets g -> shrinks g g'.
Proof. intros Hq. unfold shrinks, shrunk. rewrite Hq. split; [intros s; apply comesFrom_self|done]. Qed.

Lemma shrinks_pres {A} (m : Proc Gateway A) g r g' : (forall l, proc_pres (socketsAre l) m) -> m g = (r, g') -> shrinks g g'.
Proof. intros Hm Hr. apply shrinks_same. pose proof (Hm (gw_sockets g) g eq_refl) as Hs. by rewrite Hr in Hs. Qed.

Lemma send_sockets replies amb identity raw g r g' : onSend chat isUuid replies amb identity raw g = (r, g') -> shrinks g g'.
Proof. apply shrinks_pres. intros l. unfold onSend, answered. pres. Qed.
Lemma read_sockets reply amb sid identity raw g r g' : onMarkRead chat isUuid coerceInt reply amb sid identity raw g = (r, g') -> shrinks g g'.
Proof. apply shrinks_pres. intros l. unfold onMarkRead, answered. pres. Qed.
Lemma typing_sockets reply amb sid identity raw g r g' : onTyping chat isUuid reply amb sid identity raw g = (r, g') -> shrinks g g'.
Proof. apply shrinks_pres. intros l. unfold onTyping. pres. Qed.

Lemma shrunk_same l {A} (m : Proc Gateway A) : (forall l, proc_pres (socketsAre l) m) -> proc_pres (shrunk l) m.
Proof. intros Hm g Hg. unfold shrunk in *. pose proof (Hm (gw_sockets g) g eq_refl) as Hs. unfold socketsAre in Hs. by rewrite Hs. Qed.

Lemma shrunk_filter l P g : shrunk l g -> shrunk l (g <| gw_sockets ::= List.filter P |>).
Proof.
  intros [Hl Hnd]. split; cbn; [intros s [Hs _]%List.filter_In; by apply Hl|]. intros Hd. by apply NoDup_map_findMany, Hnd.
Qed.

(** A change of rooms only. *)
Lemma shrunk_map l (f : Socket -> Socket) g : (forall s, so_id (f s) = so_id s /\ so_identity (f s) = so_identity s /\
    exists P, so_rooms (f s) = List.filter P (so_rooms s)) -> shrunk l g -> shrunk l (g <| gw_sockets ::= List.map f |>).
Proof.
  intros Hf [Hl Hnd]. split; cbn.
  - intros s' Hs. apply List.in_map_iff in Hs as (s & <- & Hs). destruct (Hl s Hs) as (s0 & P & Hin & Hi & Hq & Hr).
    destruct (Hf s) as (Hi' & Hq' & Q & Hr'). exists s0, (fun r => P r && Q r). rewrite Hi', Hq', Hr', Hr, filter_twice. auto.
  - intros Hd. rewrite List.map_map, List.map_ext with (g := so_id) by (intros s; apply Hf). by apply Hnd.
Qed.

Lemma shrunk_leave l sid room g : shrunk l g -> shrunk l (socketLeave sid room g).
Proof.
  apply shrunk_map. intros s. case_bool_decide; cbn; (do 2 (split; [done|])); [by eexists|].
  exists (fun _ => true). by rewrite List.filter_true.
Qed.

Lemma shrinks_refl g : shrinks g g.
Proof. by apply shrinks_same. Qed.

Lemma shrunk_fold l rows keys batch g : shrunk l g -> shrunk l (List.fold_left (fun g so =>
  if keeps rows keys (so_identity so) then g else disconnectSocket (so_id so) g) batch g).
Proof.
  revert g. induction batch as [|so batch IH]; intros g Hg; cbn; [done|]. apply IH. destruct (keeps _ _ _); [done|].
  by apply shrunk_filter.
Qed.

#[local] Hint Extern 3 (proc_pres (shrunk _) (enforceSocketEventLimit _ _ _ _)) => apply shrunk_same; intros : pres.
#[local] Hint Extern 3 (proc_pres (shrunk _) (parse _ _)) => apply shrunk_same; intros : pres.
#[local] Hint Extern 3 (proc_pres (shrunk _) (onWorld _)) => apply shrunk_same; intros : pres.

Lemma shrinks_run {A} (m : Proc Gateway A) g r g' : proc_pres (shrunk (gw_sockets g)) m -> m g = (r, g') -> shrinks g g'.
Proof.
  intros Hm Hr. pose proof (Hm g (shrinks_refl g)) as Hs. by rewrite Hr in Hs.
Qed.

Lemma leave_sockets reply amb sid identity raw g r g' : onLeave chat isUuid reply amb sid identity raw g = (r, g') -> shrinks g g'.
Proof. apply shrinks_run. unfold onLeave, answered. pres. intros g0 Hg0. by apply shrunk_leave. Qed.
Lemma batch_sockets amb batch g r g' : revalidateBatch amb batch g = (r, g') -> shrinks g g'.
Proof. apply shrinks_run. unfold revalidateBatch. pres. intros g0 Hg0. by apply shrunk_fold. Qed.

Lemma revocation_sockets raw g : shrinks g (onRevocation raw g).
Proof.
  unfold onRevocation. destruct (jsonParse raw) as [notice|]; [|apply shrinks_refl].
  destruct (jget "userId" notice) as [[| | |u| |]|]; try apply shrinks_refl.
  case_bool_decide; [apply shrinks_refl|apply shrunk_filter, shrinks_refl].
Qed.

(** ** The invariant *)

(** The user of the identity takes part in the conversation, in the identity's organization. *)
Definition participantIn (identity : SocketIdentity) (conversationId : string) w : Prop :=
  exists p, In p (conversationParticipants w) /\ part_conversationId p = conversationId /\ part_userId p = so_userId identity
    /\ part_leftAt p = None /\ liveConversation conversationId w = true
    /\ (truthy (so_organizationId identity) = true -> part_organizationId p = so_organizationId identity).

Record roomsOk (n : Node) : Prop := {
  ro_ids : List.NoDup (List.map so_id (gw_sockets (nd_gateway n)));
  ro_known : forall sid i i', In (sid, i) (nd_known n) -> In (sid, i') (nd_known n) -> i = i';
  ro_sockets : forall s, In s (gw_sockets (nd_gateway n)) -> In (so_id s, so_identity s) (nd_known n);
  ro_granted : forall sid cid, In (sid, cid) (nd_granted n) -> isUuid cid = true /\ exists identity w,
    In (sid, identity) (nd_known n) /\ In w (nd_history n) /\ participantIn identity cid w;
  ro_rooms : forall s r, In s (gw_sockets (nd_gateway n)) -> In r (so_rooms s) -> includes ":conversation:" r = true ->
    exists cid, In (so_id s, cid) (nd_granted n) /\ r = conversationRoom (so_organizationId (so_identity s)) cid;
  ro_count : forall s, In s (gw_sockets (nd_gateway n)) ->
    (Z.of_nat (joinedConversationCount (so_rooms s)) <= Z.max 0 (CHAT_MAX_ROOMS env))%Z;
  ro_history : In (gw_world (nd_gateway n)) (nd_history n)
}.

Lemma filter_filter_length {A} (P Q : A -> bool) l : length (List.filter Q (List.filter P l)) <= length (List.filter Q l).
Proof.
  rewrite filter_twice. induction l as [|x l IH]; cbn; [done|]. destruct (P x), (Q x); cbn; lia.
Qed.

Lemma roomsOk_shrinks n g : roomsOk n -> shrinks (nd_gateway n) g -> roomsOk (sees_world g n).
Proof.
  intros [H0' H1 H2 H3 H4 H5 H6] [Hs Hd]. split; cbn.
  - by apply Hd.
  - exact H1.
  - intros s' Hs'. destruct (Hs s' Hs') as (s & P & Hin & -> & -> & _). by apply H2.
  - intros sid cid Hg. destruct (H3 sid cid Hg) as (Hu & identity & w & Hk & Hw & Hp). split; [done|]. exists identity, w. auto.
  - intros s' r Hs' Hr Hi. destruct (Hs s' Hs') as (s & P & Hin & -> & -> & Hq). rewrite Hq in Hr. apply List.filter_In in Hr as [Hr _].
    by apply H4.
  - intros s' Hs'. destruct (Hs s' Hs') as (s & P & Hin & _ & _ & Hq). rewrite Hq. etransitivity; [|by apply (H5 s)].
    apply Nat2Z.inj_le. unfold joinedConversationCount. apply filter_filter_length.
  - by left.
Qed.

(** ** The two turns of a join *)

Lemma requireParticipant_in amb conversationId userId w x w1 : requireParticipant amb conversationId userId w = Ok (x, w1) ->
  exists p, In p (conversationParticipants w) /\ part_conversationId p = conversationId /\ part_userId p = userId
    /\ part_leftAt p = None /\ liveConversation conversationId w = true
    /\ (truthy (activeOrganizationId amb) = true -> part_organizationId p = activeOrganizationId amb).
Proof.
  unfold requireParticipant, tx_world. intros Hr. unfold mbind at 1, tx_bind at 1 in Hr. tx_inv Hr.
  destruct (admitted amb) eqn:Ea.
  - rewrite sees_findFirst in Hr0 by done. injection Hr0 as Hf _. apply findFirst_Some in Hf as [Hin Hp]. unfold activeWhere in Hp.
    apply andb_true_iff in Hp as [_ Hp]. apply andb_true_iff in Hp as [Hsees Hp]. bools. subst conversationId.
    eexists. repeat split; [exact Hin|done|by destruct (part_leftAt _)|done|].
    intros Ht. unfold sees in Hsees. rewrite Ht in Hsees. by bools.
  - destruct (refused_findFirst (R := ConversationParticipant) amb (fun p => (part_conversationId p === conversationId)
      && (part_userId p === userId) && is_null (part_leftAt p) && liveConversation (part_conversationId p) w) w Ea) as [e He].
    rewrite He in Hr0. discriminate Hr0.
Qed.

Lemma eventLimit_world reply amb identity g r g' : enforceSocketEventLimit chat reply amb identity g = (r, g') ->
  gw_world g' = gw_world g.
Proof.
  unfold enforceSocketEventLimit, mbind, proc_bind, onLimits. destruct (enforceRateLimit _ _ _ _ _ _ _ _) as [[x|e] st];
    by intros [= _ <-].
Qed.

Lemma authorizeJoin_ok reply amb identity raw g conversationId g' :
  authorizeJoin chat isUuid reply amb identity raw g = (Ok conversationId, g') ->
  isUuid conversationId = true /\ participantIn identity conversationId (gw_world g) /\ gw_world g' = gw_world g /\ shrinks g g'.
Proof.
  intros Hr. assert (Hs : shrinks g g').
  { revert Hr. apply shrinks_pres. intros l. unfold authorizeJoin. pres. }
  unfold authorizeJoin in Hr. proc_inv Hr.
  apply eventLimit_world in Hr0 as Hw.
  unfold parse in Hr1. destruct (joinPayloadSchema isUuid raw) as [cid|] eqn:Ep; [|done]. injection Hr1 as -> <-.
  assert (Hu : isUuid conversationId = true).
  { unfold joinPayloadSchema, zObject, zUuid in Ep. repeat case_match; try done. congruence. }
  unfold onWorld in Hr2. destruct (transact _ _) as [r w] eqn:Et. injection Hr2 as -> <-.
  apply transact_ok in Et. unfold withIdentity, runWithRequestContext in Et. pose proof (requireParticipant_same _ _ _ _ _ _ Et) as ->.
  apply requireParticipant_in in Et as (p & Hin & Hc & Hu' & Hl & Hlive & Ho). rewrite Hw in *.
  split; [done|]. split; [|done]. exists p. do 5 (split; [done|]).
  intros Ht. unfold activeOrganizationId, ambientOrganization in Ho. cbn in Ho. rewrite Ht in Ho. by apply Ho.
Qed.

Lemma joinRoom_sockets sid identity cid g ack g' s' : joinRoom sid identity cid g = (ack, g') -> In s' (gw_sockets g') ->
  List.NoDup (List.map so_id (gw_sockets g)) ->
  exists s, In s (gw_sockets g) /\ so_id s' = so_id s /\ so_identity s' = so_identity s /\ (so_rooms s' = so_rooms s
    \/ (so_id s = sid /\ so_rooms s' = (so_rooms s ++ [conversationRoom (so_organizationId identity) cid])%list
        /\ (Z.of_nat (joinedConversationCount (so_rooms s)) < CHAT_MAX_ROOMS env)%Z)).
Proof.
  unfold joinRoom. set (room := conversationRoom _ cid). destruct (negb (mem room (roomsOf sid g)) && _) eqn:E; intros [= <- <-] Hs Hnd.
  { exists s'. auto. }
  cbn in Hs. apply List.in_map_iff in Hs as (s & <- & Hs). exists s. split; [done|]. case_bool_decide as Hq; [|by auto].
  cbn. do 2 (split; [done|]). destruct (mem room (so_rooms s)) eqn:Em; [by left|]. right. split; [done|]. split; [done|].
  assert (Hrooms : roomsOf sid g = so_rooms s).
  { assert (Hf : List.find (fun y => so_id y === so_id s) (gw_sockets g) = Some s).
    { rewrite <- (find_key so_id (fun _ => true) (gw_sockets g) s Hnd Hs eq_refl).
      apply (findFirst_ext (R := Socket)). intros y _. by rewrite andb_true_r. }
    unfold roomsOf. by rewrite <- Hq, Hf. }
  rewrite Hrooms, Em in E. cbn in E. by bools.
Qed.

Lemma conversationRoom_isRoom o cid : includes ":conversation:" (conversationRoom o cid) = true.
Proof.
  unfold conversationRoom. induction (o ??? "global") as [|c t IH]; [by destruct cid|].
  rewrite append_cons. cbn [includes]. by rewrite IH, orb_true_r.
Qed.

Lemma roomsOk_connect n sid identity : roomsOk n -> ~ In sid (List.map fst (nd_known n)) -> plain sid ->
  plain (userRoom (so_userId identity)) ->
  roomsOk (mkNode (onConnection sid identity (nd_gateway n)) (nd_admitted n) ((sid, identity) :: nd_known n) (nd_granted n) (nd_history n)).
Proof.
  intros [H0' H1 H2 H3 H4 H5 H6] Hnew Hp1 Hp2.
  assert (Hold : forall s, In s (gw_sockets (nd_gateway n)) -> so_id s <> sid).
  { intros s Hs <-. apply Hnew. apply H2 in Hs. by apply (List.in_map fst) in Hs. }
  split; cbn.
  - rewrite List.map_app. apply List.NoDup_app; [done|cbn; constructor; [intros []|constructor]|]. intros i Hi [<-|[]].
    apply List.in_map_iff in Hi as (s & Hs & Hin). by apply (Hold s).
  - intros i a b [Ha|Ha] [Hb|Hb]; [congruence| | |by eapply H1].
    + injection Ha as <- <-. exfalso. apply Hnew. by apply (List.in_map fst) in Hb.
    + injection Hb as <- <-. exfalso. apply Hnew. by apply (List.in_map fst) in Ha.
  - intros s Hs. apply in_app_or in Hs as [Hs|[<-|[]]]; [right; by apply H2|by left].
  - intros i cid Hg. destruct (H3 i cid Hg) as (Hu & identity' & w & Hk & Hw & Hp). split; [done|]. exists identity', w. auto.
  - intros s r Hs Hr Hi. apply in_app_or in Hs as [Hs|[<-|[]]]; [by apply H4|]. exfalso. cbn in Hr. unfold plain in *.
    destruct Hr as [<-|[<-|[]]]; congruence.
  - intros s Hs. apply in_app_or in Hs as [Hs|[<-|[]]]; [by apply H5|]. unfold plain in *. unfold joinedConversationCount.
    cbn [so_rooms List.filter]. rewrite Hp1, Hp2. cbn. lia.
  - exact H6.
Qed.

Lemma count_snoc rooms room : joinedConversationCount (rooms ++ [room])%list <= S (joinedConversationCount rooms).
Proof.
  unfold joinedConversationCount. rewrite List.filter_app, List.length_app. cbn [List.filter].
  destruct (includes _ room); cbn; lia.
Qed.

Lemma roomsOk_join n sid identity cid ack g : roomsOk n -> In (sid, identity) (nd_known n) -> In (sid, cid) (nd_granted n) ->
  joinRoom sid identity cid (nd_gateway n) = (ack, g) -> roomsOk (sees_world g n).
Proof.
  intros [H0' H1 H2 H3 H4 H5 H6] Hk Hg Hj.
  assert (Hids : List.map so_id (gw_sockets g) = List.map so_id (gw_sockets (nd_gateway n))).
  { unfold joinRoom in Hj. destruct (_ && _); injection Hj as _ <-; [done|]. cbn. rewrite List.map_map. apply List.map_ext.
    intros s. by case_bool_decide. }
  pose proof (fun s' Hs' => joinRoom_sockets sid identity cid (nd_gateway n) ack g s' Hj Hs' H0') as Hs.
  split; cbn.
  - by rewrite Hids.
  - exact H1.
  - intros s' Hs'. destruct (Hs s' Hs') as (s & Hin & -> & -> & _). by apply H2.
  - intros i c Hc. destruct (H3 i c Hc) as (Hu & identity' & w & Hk' & Hw & Hp). split; [done|]. exists identity', w. auto.
  - intros s' r Hs' Hr Hi. destruct (Hs s' Hs') as (s & Hin & -> & -> & [Hq|(Hid & Hq & _)]); rewrite Hq in Hr; [by apply H4|].
    apply in_app_or in Hr as [Hr|[<-|[]]]; [by apply H4|]. exists cid. rewrite Hid. split; [done|].
    f_equal. f_equal. apply (H1 sid); [done|]. rewrite <- Hid. by apply H2.
  - intros s' Hs'. destruct (Hs s' Hs') as (s & Hin & _ & _ & [->|(_ & -> & Hlt)]); [by apply H5|].
    pose proof (count_snoc (so_rooms s) (conversationRoom (so_organizationId identity) cid)). lia.
  - by left.
Qed.

Lemma roomsOk_authorize n reply amb sid identity raw cid g : roomsOk n -> In (sid, identity) (nd_known n) ->
  authorizeJoin chat isUuid reply amb identity raw (nd_gateway n) = (Ok cid, g) ->
  roomsOk (mkNode g (nd_admitted n) (nd_known n) ((sid, cid) :: nd_granted n) (gw_world g :: nd_history n)).
Proof.
  intros Hok Hk Ha. apply authorizeJoin_ok in Ha as (Hu & Hp & Hw & Hs). pose proof (roomsOk_shrinks n g Hok Hs) as [H0' H1 H2 H3 H4 H5 H6].
  cbn in *. split; cbn; try done.
  - intros i c [[= <- <-]|Hc]; [|by apply H3]. split; [done|]. exists identity, (gw_world g).
    split; [done|]. split; [by left|]. by rewrite Hw.
  - intros s r Hs' Hr Hi. destruct (H4 s r Hs' Hr Hi) as (c & Hc & ->). exists c. split; [by right|done].
Qed.

Lemma roomsOk_step n n' : roomsOk n -> step n n' -> roomsOk n'.
Proof.
  intros Hok Hstep. destruct Hstep.
  - destruct Hok. by split.
  - by apply roomsOk_connect.
  - by eapply roomsOk_authorize.
  - by eapply roomsOk_join.
  - eapply roomsOk_shrinks, leave_sockets; eauto.
  - eapply roomsOk_shrinks, send_sockets; eauto.
  - eapply roomsOk_shrinks, read_sockets; eauto.
  - eapply roomsOk_shrinks, typing_sockets; eauto.
  - apply roomsOk_shrinks; [done|]. apply shrunk_filter, shrinks_refl.
  - eapply roomsOk_shrinks, batch_sockets; eauto.
  - apply roomsOk_shrinks; [done|apply revocation_sockets].
  - apply roomsOk_shrinks; [done|]. apply shrinks_same. match goal with H : publish _ _ _ _ _ = _ |- _ => by injection H as _ <- end.
  - apply roomsOk_shrinks; [done|]. apply shrunk_filter, shrinks_refl.
  - apply roomsOk_shrinks; [done|]. apply shrunk_map; [|apply shrinks_refl]. intros s.
    case_bool_decide; cbn; (do 2 (split; [done|])); exists (fun _ => true); by rewrite List.filter_true.
  - apply roomsOk_shrinks; [done|]. match goal with H : drain _ _ = _ |- _ => injection H as _ <- end. split; cbn; [done|constructor].
  - apply roomsOk_shrinks; [done|]. by apply shrinks_same.
Qed.

Lemma reachable_roomsOk n : reachable n -> roomsOk n.
Proof.
  induction 1 as [w st|n n' _ IH Hstep]; [|by eapply roomsOk_step]. split; cbn; try done; [constructor|by left].
Qed.

Lemma colon_split x c y c' : noChar ":" c = true -> noChar ":" c' = true -> x ++ ":" ++ c = y ++ ":" ++ c' -> x = y /\ c = c'.
Proof.
  intros Hc Hc'. assert (Hno : forall u v t, noChar ":" u = true -> u <> v ++ ":" ++ t).
  { intros u v t Hu ->. by rewrite !noChar_app, andb_false_r in Hu. }
  revert y. induction x as [|d x IH]; intros [|d' y] Hq.
  - split; [done|]. by do 2 apply append_inj_l in Hq.
  - rewrite append_cons in Hq. injection Hq as _ Hq. by apply Hno in Hq.
  - rewrite append_cons in Hq. injection Hq as _ Hq. symmetry in Hq. by apply Hno in Hq.
  - rewrite !append_cons in Hq. injection Hq as -> Hq. destruct (IH y Hq) as [-> ->]. done.
Qed.

Lemma conversationRoom_inj o cid o' cid' : noChar ":" cid = true -> noChar ":" cid' = true ->
  conversationRoom o cid = conversationRoom o' cid' -> (o ??? "global") = (o' ??? "global") /\ cid = cid'.
Proof.
  unfold conversationRoom. change ":conversation:" with (":conversation" ++ ":"). rewrite !append_assoc, <- !(append_assoc (_ ??? _)).
  intros Hc Hc' Hq. apply colon_split in Hq as [Hq ->]; [|done|done]. split; [|done]. by apply append_inj_r in Hq.
Qed.

(** C34: However connections, joins, messages, sweeps, revocations and changes of the database interleave on a node, a
    socket is in no more conversation rooms than allowed, and what is emitted to a conversation's room reaches only
    sockets bound to that organization whose user took part in that very conversation at some state of the database
    since the node started: neither an identifier of another tenant nor a join raced against others gets around it. *)
Theorem room_members_authorized n s e o cid : (forall u, isUuid u = true -> noChar ":" u = true) -> noChar ":" cid = true ->
  reachable n -> In s (gw_sockets (nd_gateway n)) ->
  (Z.of_nat (joinedConversationCount (so_rooms s)) <= Z.max 0 (CHAT_MAX_ROOMS env))%Z
  /\ (em_room e = Some (conversationRoom o cid) -> reaches e s = true ->
      (so_organizationId (so_identity s) ??? "global") = (o ??? "global")
      /\ exists w, In w (nd_history n) /\ participantIn (so_identity s) cid w).
Proof.
  intros Huuid Hcid Hn Hs. apply reachable_roomsOk in Hn as [H0' H1 H2 H3 H4 H5 H6]. split; [by apply H5|].
  intros Hroom Hr. unfold reaches in Hr. rewrite Hroom in Hr. apply andb_true_iff in Hr as [Hr _]. apply mem_In in Hr.
  destruct (H4 s _ Hs Hr (conversationRoom_isRoom o cid)) as (cid' & Hg & Hq).
  destruct (H3 _ _ Hg) as (Hu & identity & w & Hk & Hw & Hp).
  apply conversationRoom_inj in Hq as [Ho <-]; [|done|by apply Huuid]. split; [by rewrite Ho|]. exists w. split; [done|].
  rewrite (H1 _ _ _ (H2 s Hs) Hk). done.
Qed.

(** ** Who gets a connection *)

(** A connection is accepted only with a credential that verifies and resolves to the identity it is bound to, within
    the limit of its address; a cookie counts only from an allowed origin, so a page of another site cannot use it, and
    an origin that is not allowed is refused whatever the credential, before anything is charged or read. *)
Theorem connection_accepted reply amb hs st w identity st' : acceptConnection chat reply amb hs st w = (Ok identity, st') ->
  exists credential, tokenFromHandshake hs = Ok (Some credential)
    /\ resolveIdentity amb (cred_token credential) w = Ok (Some identity, w)
    /\ (exists r, enforceRateLimit reply (nowMs amb) "chat:connect:ip" (clientIpKey (socketClientAddress hs))
                    (CHAT_MAX_CONNECTIONS_PER_IP chat) 60 mode_local st = (Ok r, st'))
    /\ (cred_source credential = source_cookie -> exists origin, hs_origin hs = Some origin /\ allowedOrigin chat (Some origin) = true)
    /\ (truthy (hs_origin hs) = true -> allowedOrigin chat (hs_origin hs) = true).
Proof.
  unfold acceptConnection. destruct (tokenFromHandshake hs) as [[credential|]|]; [|done|done].
  destruct (originRefused chat hs credential) eqn:Eo; [done|].
  destruct (enforceRateLimit _ _ _ _ _ _ _ _) as [[r|] st1] eqn:El; [|done]. rewrite resolveIdentity_runs.
  destruct (verifyAccessToken amb (cred_token credential)) as [claims|] eqn:Ev; [|done].
  destruct (identityOf amb claims w) as [i|] eqn:Ei; [|done]. intros [= <- <-]. exists credential.
  unfold originRefused in Eo. apply orb_false_iff in Eo as [E1 E2].
  rewrite resolveIdentity_runs, Ev, Ei. do 2 (split; [done|]). split; [by eexists|].
  destruct (truthy (hs_origin hs)) eqn:Et; cbn in E1, E2; apply negb_false_iff in E1 || idtac.
  - split; [|done]. intros _. destruct (hs_origin hs) as [origin|]; [|done]. by exists origin.
  - split; [|done]. intros Hc. by rewrite Hc in E2.
Qed.

(** ** Committed first, broadcast second *)

(** A send always answers and never drops a socket. An answer without an error carries a message that is stored; it
    is announced exactly once, to the room of its conversation in the sender's organization, when this very call stored
    it, and not at all when it is the duplicate of an earlier one. An error announces nothing, and stores nothing unless
    the number of the message is past what JSON carries exactly. *)
Theorem send_stores_then_broadcasts replies amb identity raw g :
  exists ack g', onSend chat isUuid replies amb identity raw g = (Ok ack, g') /\ gw_sockets g' = gw_sockets g /\
  match ack with
  | AckMessage m duplicate => In m (messages (gw_world g')) /\ exists payload, sendMessagePayloadSchema isUuid raw = Some payload
      /\ msg_conversationId m = sp_conversationId payload /\ msg_clientMessageId m = smi_clientMessageId (sp_input payload)
      /\ if duplicate then gw_world g' = gw_world g /\ gw_emitted g' = gw_emitted g
         else messages (gw_world g') = (messages (gw_world g) ++ [m])%list
              /\ gw_emitted g' = (gw_emitted g ++ [mkEmission
                   (Some (conversationRoom (so_organizationId identity) (sp_conversationId payload))) None
                   chatEvents.message (MessagePayload m)])%list
  | AckError _ => gw_emitted g' = gw_emitted g /\ (gw_world g' = gw_world g
      \/ exists m, messages (gw_world g') = (messages (gw_world g) ++ [m])%list /\ (MAX_SAFE_INTEGER < msg_seq m)%Z)
  | _ => False
  end.
Proof.
  unfold onSend, answered, try_catch, enforceSocketEventLimit, onLimits, mbind, proc_bind, mret, proc_ret. destruct g as [w st l em dr].
  cbn [gw_limits]. destruct (enforceRateLimit _ _ _ _ _ _ _ st) as [[r1|e1] st1]; cbn.
  2: { eexists _, _. split; [reflexivity|]. cbn. auto. }
  unfold parse. destruct (sendMessagePayloadSchema isUuid raw) as [payload|] eqn:Ep; cbn.
  2: { eexists _, _. split; [reflexivity|]. cbn. auto. }
  destruct (enforceRateLimit _ _ _ _ _ _ _ st1) as [[r2|e2] st2]; cbn.
  2: { eexists _, _. split; [reflexivity|]. cbn. auto. }
  unfold onWorld, withIdentity, runWithRequestContext. cbn [gw_world].
  match goal with |- context [sendMessage ?a ?b ?c ?d ?v] => change v with w; destruct (sendMessage a b c d w) as [r w'] eqn:Es end.
  apply sendMessage_cases in Es as [(e & -> & ->)|[(m & -> & -> & Hm & Hc & Hi)|(c & x & u & Hf & _ & _ & _ & _ & -> & ->)]]; cbn -[sent written].
  - eexists _, _. split; [reflexivity|]. cbn. auto.
  - unfold serializeMessage. destruct (MAX_SAFE_INTEGER <? msg_seq m)%Z; cbn; (eexists _, _; split; [reflexivity|]); cbn; [by auto|].
    split; [done|]. split; [done|]. exists payload. auto.
  - apply findFirst_Some in Hf as [_ Hof]. unfold ofConversation in Hof. bools.
    unfold serializeMessage. destruct (MAX_SAFE_INTEGER <? msg_seq _)%Z eqn:Em; cbn -[sent written];
      (eexists _, _; split; [reflexivity|]); cbn -[sent written].
    + split; [done|]. split; [done|]. right. eexists. split; [reflexivity|]. by apply Z.ltb_lt.
    + split; [done|]. split; [apply in_or_app; right; by left|]. exists payload. split; [done|]. cbn. auto.
Qed.
End Rooms.

(** ** The hypotheses hold of a connected node *)

Section Examples.
Local Existing Instance demoPlatform.

Definition gatewaySettings : ChatSettings := mkChatSettings ["https://app.example"] 60 600 60 64 5000.
Definition plainId (s : string) : bool := noChar ":" s.
Definition noNumber (value : option Json) : option Z := None.

(** [u1] with a session in [o1], and a conversation there. *)
Definition roomWorld : World := sessionWorld
  <| conversations := [mkConversation "c1" (Some "o1") Conv_GROUP None (Some "u1") 0 None None 0 None] |>
  <| conversationParticipants := [mkConversationParticipant "p1" (Some "o1") "c1" "u1" Part_OWNER 0 None None None] |>.

Definition accessToken : string := loginToken ??? "".
Definition byToken : Handshake := mkHandshake (Some (JStr accessToken)) None None None (Some "203.0.113.7") [].
Definition byCookie (origin : string) : Handshake :=
  mkHandshake None None (Some ("theme=dark; access_token=" ++ accessToken)) (Some origin) (Some "203.0.113.7") [].
Definition member1 : SocketIdentity := mkIdentity "u1" "s1" (Some "o1").

Definition node0 : Node := mkNode (mkGateway roomWorld idle [] [] false) [] [] [] [roomWorld].
Definition admitted1 := acceptConnection gatewaySettings Replies demoNow byToken idle roomWorld.
Definition node1 : Node := mkNode ((nd_gateway node0) <| gw_limits := snd admitted1 |>) [member1] [] [] [roomWorld].
Definition node2 : Node := mkNode (onConnection "k1" member1 (nd_gateway node1)) [member1] [("k1", member1)] [] [roomWorld].
Definition joinC1 : Json := JObj [("conversationId", JStr "c1")].
Definition authorized1 := authorizeJoin gatewaySettings plainId Replies demoNow member1 joinC1 (nd_gateway node2).
Definition node3 : Node := mkNode (snd authorized1) [member1] [("k1", member1)] [("k1", "c1")] [roomWorld; roomWorld].
Definition joined1 := joinRoom "k1" member1 "c1" (nd_gateway node3).
Definition node4 : Node := sees_world (snd joined1) node3.

Lemma ran {A B} (p : A * B) a : fst p = a -> p = (a, snd p).
Proof. destruct p. by intros <-. Qed.
Lemma admitted1_ok : admitted1 = (Ok member1, snd admitted1).
Proof. apply ran. vm_compute. reflexivity. Qed.
Lemma authorized1_ok : authorized1 = (Ok "c1", snd authorized1).
Proof. apply ran. vm_compute. reflexivity. Qed.
Definition cookieAdmitted := acceptConnection gatewaySettings Replies demoNow (byCookie "https://app.example") idle roomWorld.
Lemma cookieAdmitted_ok : cookieAdmitted = (Ok member1, snd cookieAdmitted).
Proof. apply ran. vm_compute. reflexivity. Qed.
Lemma cookie_credential : tokenFromHandshake (byCookie "https://app.example") = Ok (Some (mkCredential accessToken source_cookie)).
Proof. vm_compute. reflexivity. Qed.
Lemma authorized1_world : gw_world (snd authorized1) = roomWorld.
Proof. vm_compute. reflexivity. Qed.
Lemma joined1_sockets : gw_sockets (snd joined1) = [mkSocket "k1" member1 ["k1"; "user:u1"; "o1:conversation:c1"] 0].
Proof. vm_compute. reflexivity. Qed.

Lemma node4_reachable : reachable gatewaySettings plainId noNumber node4.
Proof.
  assert (R0 : reachable gatewaySettings plainId noNumber node0) by apply reach_start.
  assert (R1 : reachable gatewaySettings plainId noNumber node1).
  { eapply reach_step; [exact R0|]. exact (step_admit _ _ _ node0 Replies demoNow byToken member1 (snd admitted1) admitted1_ok). }
  assert (R2 : reachable gatewaySettings plainId noNumber node2).
  { eapply reach_step; [exact R1|]. apply (step_connect _ _ _ node1 "k1" member1); [by left|intros []|done|done]. }
  assert (R3 : reachable gatewaySettings plainId noNumber node3).
  { eapply reach_step; [exact R2|].
    pose proof (step_authorize gatewaySettings plainId noNumber node2 Replies demoNow "k1" member1 joinC1 "c1" (snd authorized1)
      (or_introl eq_refl) authorized1_ok) as Hs. rewrite authorized1_world in Hs. exact Hs. }
  eapply reach_step; [exact R3|].
  apply (step_join _ _ _ node3 "k1" member1 "c1" (fst joined1) (snd joined1)); [by left|by left|]. apply surjective_pairing.
Qed.

Lemma room_members_authorized_witness : exists n s e, In s (gw_sockets (nd_gateway n)) /\ reaches e s = true
  /\ em_room e = Some (conversationRoom (Some "o1") "c1") /\ exists w, In w (nd_history n) /\ participantIn (so_identity s) "c1" w.
Proof.
  set (s := mkSocket "k1" member1 ["k1"; "user:u1"; "o1:conversation:c1"] 0).
  set (e := mkEmission (Some (conversationRoom (Some "o1") "c1")) None chatEvents.message (PublishedPayload JNull)).
  assert (Hs : In s (gw_sockets (nd_gateway node4))) by (change (nd_gateway node4) with (snd joined1); rewrite joined1_sockets; by left).
  exists node4, s, e. split; [exact Hs|]. split; [reflexivity|]. split; [reflexivity|].
  exact (proj2 (proj2 (room_members_authorized gatewaySettings plainId noNumber node4 s e (Some "o1") "c1" (fun u Hu => Hu) eq_refl
    node4_reachable Hs) eq_refl eq_refl)).
Defined.

Lemma connection_accepted_witness : exists credential,
  tokenFromHandshake (byCookie "https://app.example") = Ok (Some credential) /\ cred_source credential = source_cookie
  /\ resolveIdentity demoNow (cred_token credential) roomWorld = Ok (Some member1, roomWorld).
Proof.
  destruct (connection_accepted gatewaySettings Replies demoNow (byCookie "https://app.example") idle roomWorld member1
    (snd cookieAdmitted) cookieAdmitted_ok) as (credential & Ht & Hi & _). exists credential. split; [exact Ht|]. split; [|exact Hi].
  rewrite cookie_credential in Ht. injection Ht as <-. reflexivity.
Defined.

Example other_site_refused : fst (acceptConnection gatewaySettings Replies demoNow (byCookie "https://evil.example") idle roomWorld)
  = Err (Failure "origin_not_allowed").
Proof. reflexivity. Qed.

Lemma handshake_agrees_with_authenticate_witness : exists identity, resolveIdentity demoNow accessToken sessionWorld = Ok (Some identity, sessionWorld)
  /\ so_organizationId identity = Some "o1".
Proof.
  pose proof (handshake_agrees_with_authenticate demoNow accessToken sessionWorld ltac:(vm_compute; discriminate)) as Hq.
  assert (Hrun : exists state amb', authenticate demoNow (Some accessToken) sessionWorld = Ok ((state, amb'), sessionWorld)
    /\ auth_organizationId state = Some "o1") by (eexists _, _; vm_compute; split; reflexivity).
  destruct Hrun as (state & amb' & Hrun & Ho). rewrite Hrun in Hq. destruct Hq as (_ & identity & Hr & _ & _ & Hor).
  exists identity. split; [exact Hr|]. rewrite Ho in Hor. by destruct (truthy _) in Hor.
Defined.

(** [k1]'s session is live; [k2] holds one that is not. *)
Definition sweptNode : Gateway := mkGateway roomWorld idle
  [mkSocket "k1" member1 ["k1"] 0; mkSocket "k2" (mkIdentity "u2" "s2" (Some "o1")) ["k2"] 0] [] false.

Lemma revalidation_sweep_exact_witness : exists g, revalidateConnectedSockets demoNow sweptNode = (Ok tt, g)
  /\ List.map so_id (gw_sockets g) = ["k1"].
Proof.
  eexists. split.
  - apply (revalidation_sweep_exact demoNow sweptNode). split; cbn.
    + repeat constructor; cbn; intuition discriminate.
    + repeat constructor; cbn; intuition discriminate.
    + intros s [<-|[<-|[]]]; cbn; done.
  - vm_compute. reflexivity.
Defined.
End Examples.
