(* ===== verification/Http.v ===== *)
(** * Serving a request

    middleware/request-validation.ts, lib/api-response.ts and the order of the middleware in app.ts: what a request may
    change, how its input is validated, and how its outcome becomes a response. Express, its body and cookie parsers,
    helmet and cors are outside: a request comes parsed. Logging and metrics are left out. *)

From Stdlib Require Import ZArith Lia Bool.
From S2P Require Import Prelude Store Database JsString JsonText Platform Request AuditTrail Sessions AccessControl ClientIp RateLimit Guards.

Open Scope string_scope.

(** A request: what the guards read of it, what its metadata are taken from, and the parsed query string. *)
Record ApiRequest := mkApiRequest { api_web : WebRequest; api_http : HttpRequest; api_query : Json }.

(** [sendSuccess]'s options, with their defaults filled in; no data is [null]. *)
Record Success (D : Type) := mkSuccess {
  su_status : Z; su_message : string; su_data : option D; su_meta : list (string * Json)
}.
Arguments mkSuccess {D}.
Arguments su_status {D}.
Arguments su_message {D}.
Arguments su_data {D}.
Arguments su_meta {D}.
Definition answer {D} (status : Z) (message : string) : Success D := mkSuccess status message None [].
Definition answerWith {D} (status : Z) (message : string) (data : D) : Success D := mkSuccess status message (Some data) [].
Definition COMPLETED : string := "Request completed successfully".

(** The response: [rp_code] is the error's. *)
Record Reply (D : Type) := mkReply {
  rp_status : Z; rp_message : string; rp_data : option D; rp_meta : list (string * Json); rp_code : option ErrorCode;
  rp_cookies : list CookieChange; rp_headers : list (string * string)
}.
Arguments mkReply {D}.
Arguments rp_status {D}.
Arguments rp_message {D}.
Arguments rp_data {D}.
Arguments rp_meta {D}.
Arguments rp_code {D}.
Arguments rp_cookies {D}.
Arguments rp_headers {D}.

Section Http.
Context `{Platform} `{Redis}.

(** What serving a request reads and writes: the database, the counters and the permission cache in Redis, and the
    response's cookies and headers. *)
Record Exchange := mkExchange {
  ex_world : World; ex_limits : RateState; ex_permissions : Cache;
  ex_cookies : list CookieChange; ex_headers : list (string * string)
}.
#[export] Instance Exchange_eta : Eta Exchange := fun x =>
  mkExchange (ex_world x) (ex_limits x) (ex_permissions x) (ex_cookies x) (ex_headers x).

(** A request arrives: nothing of a response yet. *)
Definition arrival (w : World) (st : RateState) (cache : Cache) : Exchange := mkExchange w st cache [] [].

Definition inWorld {A} (m : Proc World A) : Proc Exchange A := fun x =>
  let '(r, w) := m (ex_world x) in (r, x <| ex_world := w |>).
Definition inLimits {A} (m : Proc RateState A) : Proc Exchange A := fun x =>
  let '(r, st) := m (ex_limits x) in (r, x <| ex_limits := st |>).
Definition lift {A} (r : res A) : Proc Exchange A := fun x => (r, x).

(** [response.cookie], [response.clearCookie] and [response.setHeader] *)
Definition changeCookies (changes : list CookieChange) : Proc Exchange unit := fun x =>
  (Ok tt, x <| ex_cookies ::= fun l => (l ++ changes)%list |>).
Definition setHeader (name value : string) : Proc Exchange unit := fun x =>
  (Ok tt, x <| ex_headers ::= fun l => (l ++ [(name, value)])%list |>).

(** ** Validation *)

Definition parseInput {A} (schema : Json -> option A) (input : Json) : res A :=
  match schema input with Some a => Ok a | None => Err (errors.badRequest "Validation failed") end.

(** [validateRequest], one source of the request, and the handler that gets what it parsed from [getValidated]. *)
Definition withInput {A B} (schema : Json -> option A) (input : Json) (handler : A -> Proc Exchange B) : Proc Exchange B :=
  parsed ← lift (parseInput schema input); handler parsed.
Definition withBody {A B} (schema : Json -> option A) (request : ApiRequest) (handler : A -> Proc Exchange B) : Proc Exchange B :=
  withInput schema (web_body (api_web request)) handler.

(** ** The guards of a router *)

(** What becomes of the calls the guards make to Redis: the two counters, the permission cache's read and write. *)
Record GuardReplies := mkGuardReplies {
  gr_ceiling : RedisReply; gr_user : RedisReply; gr_cacheRead : bool; gr_cacheStored : bool
}.

(** [authenticate] and [userIdentityRateLimit] *)
Definition authenticated (replies : GuardReplies) (amb : Ambient) (request : ApiRequest) : Proc Exchange (AuthState * Ambient) :=
  found ← inWorld (transact (authenticate amb (resolveAccessToken (api_web request))));
  inLimits (userIdentityRateLimit (gr_user replies) (nowMs amb) (Some (auth_userId (fst found))));;
  mret found.

(** [permissionGuard(code, scope)] *)
Definition checkPermission (replies : GuardReplies) (code : string) (scope : PermissionScope) (auth : AuthState)
    : Proc Exchange unit := fun x =>
  let '(r, cache) := permissionGuard code scope auth (gr_cacheRead replies) (gr_cacheStored replies) (ex_world x) (ex_permissions x) in
  (r, x <| ex_permissions := cache |>).

(** [authenticate, userIdentityRateLimit, ...] *)
Definition withAuth {B} (replies : GuardReplies) (amb : Ambient) (request : ApiRequest)
    (handler : Ambient -> AuthState -> Proc Exchange B) : Proc Exchange B :=
  found ← authenticated replies amb request; handler (snd found) (fst found).
(** [...requirePermission(code)] and its two siblings, by the scope. *)
Definition withPermission {B} (replies : GuardReplies) (code : string) (scope : PermissionScope) (amb : Ambient) (request : ApiRequest)
    (handler : Ambient -> AuthState -> Proc Exchange B) : Proc Exchange B :=
  withAuth replies amb request (fun amb auth => checkPermission replies code scope auth;; handler amb auth).

(** The middleware above the routers: the ceiling of the address, then the CSRF check. *)
Definition aboveRouters (replies : GuardReplies) (amb : Ambient) (request : ApiRequest) : Proc Exchange unit :=
  inLimits (globalIpRateLimit (gr_ceiling replies) (nowMs amb) (http_ip (api_http request)));;
  lift (csrfProtection (api_web request)).

(** No router answered: [notFoundHandler]. *)
Definition notFound (request : ApiRequest) : Error :=
  errors.notFound ("Route " ++ web_method (api_web request) ++ " " ++ web_path (api_web request) ++ " was not found").

(** ** The response *)

Definition respond {D} (run : res (Success D) * Exchange) : Reply D * Exchange :=
  let '(outcome, x) := run in
  (match outcome with
   | Ok s => mkReply (su_status s) (su_message s) (su_data s) (su_meta s) None (ex_cookies x) (ex_headers x)
   | Err error =>
       let e := errorHandler false error in
       mkReply (er_status e) (er_message e) None [] (Some (er_code e)) (ex_cookies x)
         (ex_headers x ++ match er_retryAfter e with Some t => [("Retry-After", t)] | None => [] end)%list
   end, x).

(** A request from [requestContext] on: the middleware above the routers, the route the path matched, the response.
    Paths are matched as they are spelt: what Express further accepts, other cases, a trailing slash, escapes and HEAD
    for GET, is left out. *)
Definition dispatch {R D} (replies : GuardReplies) (routeOf : WebRequest -> option R) (serveRoute : R -> Ambient -> Proc Exchange (Success D))
    (request : ApiRequest) (amb : Ambient) : Proc Exchange (Success D) :=
  aboveRouters replies amb request;;
  match routeOf (api_web request) with
  | Some route => serveRoute route amb
  | None => throw (notFound request)
  end.
Definition serveRequest {R D} (replies : GuardReplies) (routeOf : WebRequest -> option R) (serveRoute : R -> Ambient -> Proc Exchange (Success D))
    (now : Z) (request : ApiRequest) (x : Exchange) : Reply D * Exchange :=
  respond (requestContext (http_id (api_http request)) (dispatch replies routeOf serveRoute request) (mkAmbient now None) x).
End Http.
