(* ===== verification/HttpSpec.v ===== *)
(** * What the middleware guarantees

    Lemmas the APIs share: what each part of a request leaves alone, and what had to hold for a request to touch the
    database. *)

From Stdlib Require Import ZArith Lia Bool.
From stdpp Require Import gmap strings.
From S2P Require Import Prelude Store Database JsString JsonText Platform Request AuditTrail Sessions AccessControl PermissionsSpec ClientIp RateLimit Guards Http.

Open Scope string_scope.

Section HttpSpec.
Context `{Platform} `{Redis}.
Implicit Types (amb : Ambient) (request : ApiRequest) (w : World) (x : Exchange) (replies : GuardReplies).

(** ** What the parts of a request leave alone *)

Definition worldIs (w : World) (x : Exchange) : Prop := ex_world x = w.
Definition cookiesAre (l : list CookieChange) (x : Exchange) : Prop := ex_cookies x = l.

Lemma inLimits_world {A} (m : Proc RateState A) w : proc_pres (worldIs w) (inLimits m).
Proof. intros x Hx. unfold inLimits. by destruct (m _). Qed.
Lemma lift_pres {A} (r : res A) I : proc_pres I (lift r).
Proof. by intros x Hx. Qed.
Lemma changeCookies_world l w : proc_pres (worldIs w) (changeCookies l).
Proof. by intros x Hx. Qed.
Lemma setHeader_world n v w : proc_pres (worldIs w) (setHeader n v).
Proof. by intros x Hx. Qed.
Lemma checkPermission_world replies code scope auth w : proc_pres (worldIs w) (checkPermission replies code scope auth).
Proof. intros x Hx. unfold checkPermission. by destruct (permissionGuard _ _ _ _ _ _ _). Qed.
Lemma inWorld_cookies {A} (m : Proc World A) l : proc_pres (cookiesAre l) (inWorld m).
Proof. intros x Hx. unfold inWorld. by destruct (m _). Qed.
Lemma inLimits_cookies {A} (m : Proc RateState A) l : proc_pres (cookiesAre l) (inLimits m).
Proof. intros x Hx. unfold inLimits. by destruct (m _). Qed.
Lemma setHeader_cookies n v l : proc_pres (cookiesAre l) (setHeader n v).
Proof. by intros x Hx. Qed.
Lemma inLimits_cache {A} (m : Proc RateState A) x : ex_permissions (snd (inLimits m x)) = ex_permissions x.
Proof. unfold inLimits. by destruct (m _). Qed.
Lemma inWorld_cache {A} (m : Proc World A) x : ex_permissions (snd (inWorld m x)) = ex_permissions x.
Proof. unfold inWorld. by destruct (m _). Qed.

Lemma inWorld_ok {A} (m : Proc World A) x a x' : inWorld m x = (Ok a, x') ->
  exists w, m (ex_world x) = (Ok a, w) /\ x' = x <| ex_world := w |>.
Proof. unfold inWorld. destruct (m (ex_world x)) as [[b|e] w]; intros [=]; subst; eauto. Qed.
Lemma inLimits_ok {A} (m : Proc RateState A) x a x' : inLimits m x = (Ok a, x') ->
  exists st, m (ex_limits x) = (Ok a, st) /\ x' = x <| ex_limits := st |>.
Proof. unfold inLimits. destruct (m (ex_limits x)) as [[b|e] w]; intros [=]; subst; eauto. Qed.
Lemma lift_inv {A} (r : res A) x a x' : lift r x = (Ok a, x') -> r = Ok a /\ x' = x.
Proof. unfold lift. by intros [= -> ->]. Qed.

(** ** Authentication *)

(** The request acts as [state]: its token is that of a live session of [w]. *)
Definition actingAs amb request w (state : AuthState) : Prop :=
  exists amb', authenticate amb (resolveAccessToken (api_web request)) w = Ok ((state, amb'), w).

Lemma setRequestIdentity_now userId organizationId amb : nowMs (setRequestIdentity userId organizationId amb) = nowMs amb.
Proof. unfold setRequestIdentity. by destruct (reqContext amb) as [[]|]. Qed.

(** The ambient context of an authenticated request keeps its clock. *)
Lemma authenticate_now amb token w state amb' w' : authenticate amb token w = Ok ((state, amb'), w') -> nowMs amb' = nowMs amb.
Proof.
  intros Hrun. unfold authenticate in Hrun. destruct (negb (truthy token)); [discriminate Hrun|].
  do 5 apply bind_ok in Hrun as (? & ? & _ & Hrun). destruct (truthy (sess_activeOrganizationId _)).
  - apply bind_ok in Hrun as ([org|] & ? & _ & Hrun); [|discriminate Hrun]. destruct (_ || _); [discriminate Hrun|].
    apply bind_ok in Hrun as ([m|] & ? & _ & Hrun); [|discriminate Hrun].
    apply ret_ok in Hrun as [[= _ <-] _]. apply setRequestIdentity_now.
  - apply ret_ok in Hrun as [[= _ <-] _]. apply setRequestIdentity_now.
Qed.

Lemma authenticate_reads amb token w : tx_pres (fun s => s = w) (authenticate amb token).
Proof. unfold authenticate. pres. Qed.

(** The epochs of a request just authenticated are the current ones. *)
Lemma authenticate_current amb token w state amb' w' : authenticate amb token w = Ok ((state, amb'), w') -> current w state.
Proof.
  intros Hrun. unfold authenticate in Hrun. destruct (negb (truthy token)); [discriminate Hrun|].
  apply bind_ok in Hrun as (claims & w1 & H1 & Hrun). apply lift_ok in H1 as [_ ->].
  apply bind_ok in Hrun as (us & w2 & H1 & Hrun). injection H1 as <- <-. unfold findMany in Hrun. rewrite List.filter_true in Hrun.
  apply bind_ok in Hrun as (found & w2 & Hfs & Hrun).
  apply bind_ok in Hrun as (s & w3 & Hrs & Hrun). apply require_ok in Hrs as [-> ->].
  apply findFirst_ok in Hfs as (-> & _ & _ & HP). unfold liveSession in HP. apply andb_true_iff in HP as [HP _]. bools.
  apply bind_ok in Hrun as (u & w3 & Hru & Hrun). apply require_ok in Hru as [Hu ->].
  assert (Hue : user_permissionEpoch u = userEpoch w3 (claim_userId claims)) by (unfold userEpoch; replace (claim_userId claims) with (sess_userId s) by done; by rewrite Hu).
  destruct (truthy (sess_activeOrganizationId s)).
  - apply bind_ok in Hrun as (org & w4 & Hor & Hrun). injection Hor as Hf <-. destruct org as [org|]; [|discriminate Hrun].
    destruct (_ || _); [discriminate Hrun|]. apply bind_ok in Hrun as (m & w5 & Hme & Hrun).
    destruct m as [m|]; [|discriminate Hrun]. apply findFirst_ok in Hme as (-> & _).
    apply ret_ok in Hrun as [[= <- _] <-]. split; [done|]. intros o e [= <-] [= <-]. unfold orgEpoch. by rewrite Hf.
  - apply ret_ok in Hrun as [[= <- _] <-]. by split.
Qed.

(** Authentication leaves the database and the permission cache alone, and when it succeeds there is a session behind
    the token. *)
Lemma authenticated_runs replies amb request x r x' : authenticated replies amb request x = (r, x') ->
  ex_world x' = ex_world x /\ ex_permissions x' = ex_permissions x
  /\ forall state amb', r = Ok (state, amb') ->
       authenticate amb (resolveAccessToken (api_web request)) (ex_world x) = Ok ((state, amb'), ex_world x).
Proof.
  unfold authenticated. intros Hr.
  assert (Hw : proc_pres (fun y => ex_world y = ex_world x /\ ex_permissions y = ex_permissions x)
    (inWorld (transact (authenticate amb (resolveAccessToken (api_web request)))))).
  { intros y [Hy Hc]. unfold inWorld, transact. rewrite Hy.
    destruct (authenticate _ _ _) as [[f w']|e] eqn:E; cbn; (split; [|done]); [|done]. exact (authenticate_reads _ _ _ _ _ _ eq_refl E). }
  apply (proc_bind_pres _ _ _ _ _ _ Hw (conj eq_refl eq_refl)) in Hr as [(e & -> & Hx & Hc)|([state amb'] & x1 & H1 & [Hx1 Hc1] & Hr)]; [by split|].
  destruct (inLimits (userIdentityRateLimit (gr_user replies) (nowMs amb) (Some (auth_userId (fst (state, amb'))))) x1) as [r2 x2] eqn:El.
  pose proof (inLimits_world (userIdentityRateLimit (gr_user replies) (nowMs amb) (Some (auth_userId (fst (state, amb'))))) _ x1 Hx1) as Hx2.
  pose proof (inLimits_cache (userIdentityRateLimit (gr_user replies) (nowMs amb) (Some (auth_userId (fst (state, amb'))))) x1) as Hc2.
  rewrite El in Hx2, Hc2. unfold worldIs in Hx2. cbn [snd] in Hx2, Hc2.
  assert (x' = x2 /\ forall a, r = Ok a -> a = (state, amb')) as [-> Ha].
  { destruct r2 as [[]|e]; [rewrite (proc_call _ _ _ _ _ El) in Hr|rewrite (proc_call_err _ _ _ _ _ El) in Hr]; injection Hr as <- <-;
      (split; [done|]); by intros a [=]. }
  split; [done|]. split; [congruence|]. intros s1 a1 Hs. apply Ha in Hs as [= -> ->].
  apply inWorld_ok in H1 as (w1 & H1 & ->). apply transact_ok in H1.
  assert (w1 = ex_world x) as -> by (exact (authenticate_reads _ _ _ _ _ _ eq_refl H1)). done.
Qed.

(** ** What had to hold for the database to change *)

(** [m] refuses: it throws, and the database is as it was. *)
Definition refused {A} w (run : res A * Exchange) : Prop := (exists e, fst run = Err e) /\ ex_world (snd run) = w.

(** From a state with this database (and this permission cache), [m] refuses unless [P] holds. *)
Definition gated {A} (P : Prop) w (m : Proc Exchange A) : Prop := forall x, ex_world x = w -> refused w (m x) \/ P.
Definition gatedFrom {A} (P : Prop) w (cache : Cache) (m : Proc Exchange A) : Prop :=
  forall x, ex_world x = w -> ex_permissions x = cache -> refused w (m x) \/ P.

Lemma gated_from {A} P w cache (m : Proc Exchange A) : gated P w m -> gatedFrom P w cache m.
Proof. intros Hm x Hx _. by apply Hm. Qed.
Lemma gated_open {A} (P : Prop) w (m : Proc Exchange A) : P -> gated P w m.
Proof. intros HP x Hx. by right. Qed.
Lemma gated_impl {A} (P Q : Prop) w (m : Proc Exchange A) : gated P w m -> (P -> Q) -> gated Q w m.
Proof. intros Hm HPQ x Hx. destruct (Hm x Hx); auto. Qed.
Lemma gatedFrom_impl {A} (P Q : Prop) w cache (m : Proc Exchange A) : gatedFrom P w cache m -> (P -> Q) -> gatedFrom Q w cache m.
Proof. intros Hm HPQ x Hx Hc. destruct (Hm x Hx Hc); auto. Qed.

Lemma gated_after {A B} P w (m : Proc Exchange A) (k : A -> Proc Exchange B) :
  proc_pres (worldIs w) m -> (forall a, gated P w (k a)) -> gated P w (m ≫= k).
Proof.
  intros Hm Hk x Hx. destruct ((m ≫= k) x) as [r x'] eqn:E.
  apply (proc_bind_pres (worldIs w)) in E as [(e & -> & Hx')|(a & x1 & _ & Hx1 & E)]; [left; split; [by exists e|done]| |done|done].
  specialize (Hk a x1 Hx1). by rewrite E in Hk.
Qed.

Lemma gated_lift {A B} P w (r : res A) (k : A -> Proc Exchange B) :
  (forall a, r = Ok a -> gated P w (k a)) -> gated P w (lift r ≫= k).
Proof. intros Hk x Hx. unfold lift, mbind, proc_bind. destruct r as [a|e]; [by apply Hk|left; split; [by exists e|done]]. Qed.

Lemma gated_input {A B} P w (schema : Json -> option A) input (k : A -> Proc Exchange B) :
  (forall a, schema input = Some a -> gated P w (k a)) -> gated P w (withInput schema input k).
Proof.
  intros Hk. apply gated_lift. intros a. unfold parseInput. destruct (schema input) as [b|]; intros [= ->]. by apply Hk.
Qed.

Lemma gated_body {A B} w (schema : Json -> option A) request (handler : A -> Proc Exchange B) :
  gated (is_set (schema (web_body (api_web request))) = true) w (withBody schema request handler).
Proof. apply gated_input. intros a Ha. apply gated_open. by rewrite Ha. Qed.

Lemma gatedFrom_auth {B} w cache replies amb request (P : AuthState -> Prop) (handler : Ambient -> AuthState -> Proc Exchange B) :
  (forall amb' state, actingAs amb request w state -> gatedFrom (P state) w cache (handler amb' state)) ->
  gatedFrom (exists state, actingAs amb request w state /\ P state) w cache (withAuth replies amb request handler).
Proof.
  intros Hh x Hx Hc. destruct (withAuth _ _ _ _ x) as [r x'] eqn:E. unfold withAuth in E.
  apply proc_bind_run in E as [(e & E & ->)|([state amb'] & x1 & E & Hr)]; apply authenticated_runs in E as (Hx1 & Hc1 & Ha).
  - left. split; [by exists e|cbn; congruence].
  - rewrite Hx in *. rewrite Hc in *. assert (Hact : actingAs amb request w state) by (exists amb'; exact (Ha state amb' eq_refl)).
    clear Ha. pose proof Hact as Ha. pose proof (Hh amb' state Ha x1 Hx1 Hc1) as Hg. cbn in Hr.
    rewrite Hr in Hg. destruct Hg as [Hg|Hg]; [by left|right]. by exists state.
Qed.

Lemma gated_auth {B} w replies amb request (P : AuthState -> Prop) (handler : Ambient -> AuthState -> Proc Exchange B) :
  (forall amb' state, actingAs amb request w state -> gated (P state) w (handler amb' state)) ->
  gated (exists state, actingAs amb request w state /\ P state) w (withAuth replies amb request handler).
Proof.
  intros Hh x Hx. refine (gatedFrom_auth w (ex_permissions x) replies amb request P handler _ x Hx eq_refl).
  intros amb' state Ha. apply gated_from. by apply Hh.
Qed.

(** What the permission guard answers from this database and this cache. *)
Definition granted replies code scope state w cache : Prop :=
  fst (permissionGuard code scope state (gr_cacheRead replies) (gr_cacheStored replies) w cache) = Ok tt.

Lemma gatedFrom_permission {B} w cache replies code scope amb request (P : AuthState -> Prop) (handler : Ambient -> AuthState -> Proc Exchange B) :
  (forall amb' state, actingAs amb request w state -> gated (P state) w (handler amb' state)) ->
  gatedFrom (exists state, actingAs amb request w state /\ granted replies code scope state w cache /\ P state) w cache
    (withPermission replies code scope amb request handler).
Proof.
  intros Hh. apply gatedFrom_auth. intros amb' state Ha x Hx Hc.
  match goal with |- refused _ ?run \/ _ => destruct run as [r x'] eqn:E end.
  pose proof (checkPermission_world replies code scope state w x Hx) as Hw.
  apply proc_bind_run in E as [(e & E & ->)|([] & x1 & E & Hr)]; rewrite E in Hw; cbn in Hw; [left; split; [by exists e|done]|].
  pose proof (Hh amb' state Ha x1 Hw) as Hg. rewrite Hr in Hg. destruct Hg as [Hg|Hg]; [by left|right]. split; [|done].
  unfold granted. rewrite <- Hx, <- Hc. unfold checkPermission in E. destruct (permissionGuard _ _ _ _ _ _ _) as [v c]. by injection E as ->.
Qed.

(** With a cache that holds no wrong entry, the guard lets through what the database grants now. *)
Lemma granted_now replies code scope amb request state w cache :
  actingAs amb request w state -> wellFormed state -> coherent w cache -> granted replies code scope state w cache ->
  permissionDecision state code scope w = true /\ (scope = scope_organization -> truthy (auth_organizationId state) = true).
Proof.
  intros [amb' Ha] Hwf Hco Hg. apply authenticate_current in Ha. unfold granted in Hg. rewrite guard_answer in Hg by done.
  unfold permissionGuard in Hg. destruct (_ && _) eqn:E; [done|]. cbn in Hg. destruct (permissionDecision _ _ _ _); [|done].
  split; [done|]. intros ->. rewrite bd_refl in E. cbn in E. by destruct (truthy _).
Qed.

(** ** A request as a whole *)

(** The context a request is served in. *)
Definition requestAmbient (now : Z) request : Ambient :=
  mkAmbient now (Some (Request (resolveRequestId (http_id (api_http request))) None None)).

(** The middleware above the routers let the request through. *)
Definition letIn replies (now : Z) request (st : RateState) : Prop :=
  (exists st', globalIpRateLimit (gr_ceiling replies) now (http_ip (api_http request)) st = (Ok tt, st'))
  /\ csrfProtection (api_web request) = Ok tt.

(** The answer is an error, and the database is as it was. *)
Definition refusal {D} w (served : Reply D * Exchange) : Prop :=
  is_set (rp_code (fst served)) = true /\ ex_world (snd served) = w.

Lemma respond_refusal {D} w (run : res (Success D) * Exchange) : refused w run -> refusal w (respond run).
Proof. destruct run as [r x]. intros [[e He] Hw]. cbn in He. subst r. by split. Qed.

Lemma serveRequest_gated {R D} replies routeOf (serveRoute : R -> Ambient -> Proc Exchange (Success D)) now request x (P : R -> Prop) :
  (forall route, gatedFrom (P route) (ex_world x) (ex_permissions x) (serveRoute route (requestAmbient now request))) ->
  refusal (ex_world x) (serveRequest replies routeOf serveRoute now request x)
  \/ letIn replies now request (ex_limits x) /\ exists route, routeOf (api_web request) = Some route /\ P route.
Proof.
  intros Hs. unfold serveRequest, requestContext, runWithRequestContext.
  change ((mkAmbient now None) <| reqContext := Some (Request (resolveRequestId (http_id (api_http request))) None None) |>)
    with (requestAmbient now request).
  destruct (dispatch _ _ _ _ _ x) as [r x'] eqn:E. unfold dispatch in E.
  apply (proc_bind_pres (fun y => ex_world y = ex_world x /\ ex_permissions y = ex_permissions x)) in E
    as [(e & -> & Hx & _)|([] & x1 & Ha & [Hx1 Hc1] & E)]; [left; by split| | |done].
  - unfold aboveRouters in Ha. apply proc_bind_ok in Ha as ([] & x2 & Hl & Ha).
    apply inLimits_ok in Hl as (st' & Hl & ->). apply lift_inv in Ha as [Hc ->].
    destruct (routeOf (api_web request)) as [route|]; [|injection E as <- <-; left; by split].
    specialize (Hs route _ Hx1 Hc1). rewrite E in Hs. destruct Hs as [Hs|Hs]; [left; by apply respond_refusal|right].
    split; [split; [by exists st'|done]|]. by exists route.
  - unfold aboveRouters. apply pres_proc_bind; [|intros _ y Hy; done].
    intros y [Hy Hc]. by split; [apply inLimits_world|rewrite inLimits_cache].
Qed.

(** ** How a request reaches its handler *)

(** The database and the headers of the response are as they were. *)
Definition untouched x y : Prop := ex_world y = ex_world x /\ ex_headers y = ex_headers x.

Lemma inLimits_untouched {A} (m : Proc RateState A) x : proc_pres (untouched x) (inLimits m).
Proof. intros y Hy. unfold inLimits. by destruct (m _). Qed.
Lemma checkPermission_untouched replies code scope state x : proc_pres (untouched x) (checkPermission replies code scope state).
Proof. intros y Hy. unfold checkPermission. by destruct (permissionGuard _ _ _ _ _ _ _). Qed.
Lemma inWorld_headers {A} (m : Proc World A) l : proc_pres (fun x => ex_headers x = l) (inWorld m).
Proof. intros x Hx. unfold inWorld. by destruct (m _). Qed.
Lemma inLimits_headers {A} (m : Proc RateState A) l : proc_pres (fun x => ex_headers x = l) (inLimits m).
Proof. intros x Hx. unfold inLimits. by destruct (m _). Qed.

Lemma withAuth_untouched {B} replies amb request (handler : Ambient -> AuthState -> Proc Exchange B) x r x' :
  withAuth replies amb request handler x = (r, x') ->
  refused (ex_world x) (r, x')
  \/ exists amb' state y, actingAs amb request (ex_world x) state /\ nowMs amb' = nowMs amb /\ untouched x y
     /\ handler amb' state y = (r, x').
Proof.
  intros E. unfold withAuth in E. apply proc_bind_run in E as [(e & E & ->)|([state amb'] & y & E & Hr)];
    pose proof (authenticated_runs _ _ _ _ _ _ E) as (Hx & _ & Ha); [left; split; [by exists e|done]|right].
  exists amb', state, y. specialize (Ha state amb' eq_refl).
  split; [by exists amb'|]. split; [by eapply authenticate_now|]. split; [|done]. split; [done|].
  refine (proc_pres_run (fun z => ex_headers z = ex_headers x) _ x _ _ _ eq_refl E). unfold authenticated.
  apply pres_proc_bind; [apply inWorld_headers|intros f]. apply pres_proc_bind; [apply inLimits_headers|by intros _ z Hz].
Qed.

Lemma withPermission_untouched {B} replies code scope amb request (handler : Ambient -> AuthState -> Proc Exchange B) x r x' :
  withPermission replies code scope amb request handler x = (r, x') ->
  refused (ex_world x) (r, x')
  \/ exists amb' state y, actingAs amb request (ex_world x) state /\ nowMs amb' = nowMs amb /\ untouched x y
     /\ handler amb' state y = (r, x').
Proof.
  intros [Hr|(amb' & state & y & Ha & Hn & [Hw Hh] & E)]%withAuth_untouched; [by left|].
  apply (proc_bind_pres (untouched x)) in E as [(e & -> & Hy & _)|([] & z & _ & Hz & E)];
    [left; split; [by exists e|done]|right; by exists amb', state, z|apply checkPermission_untouched|done].
Qed.

Lemma serveRequest_served {R D} replies routeOf (serveRoute : R -> Ambient -> Proc Exchange (Success D)) now request x :
  refusal (ex_world x) (serveRequest replies routeOf serveRoute now request x)
  \/ exists route y, routeOf (api_web request) = Some route /\ untouched x y
     /\ serveRequest replies routeOf serveRoute now request x = respond (serveRoute route (requestAmbient now request) y).
Proof.
  unfold serveRequest, requestContext, runWithRequestContext.
  change ((mkAmbient now None) <| reqContext := Some (Request (resolveRequestId (http_id (api_http request))) None None) |>)
    with (requestAmbient now request).
  destruct (dispatch _ _ _ _ _ x) as [r x'] eqn:E. unfold dispatch in E.
  apply (proc_bind_pres (untouched x)) in E as [(e & -> & Hx & _)|([] & y & _ & Hy & E)]; [by left| | |done].
  - destruct (routeOf (api_web request)) as [route|]; [|injection E as <- <-; left; split; [done|apply Hy]].
    right. exists route, y. split; [done|]. split; [done|]. by rewrite E.
  - unfold aboveRouters. apply pres_proc_bind; [apply inLimits_untouched|by intros _ z Hz].
Qed.
End HttpSpec.

#[export] Hint Resolve inLimits_world lift_pres changeCookies_world setHeader_world checkPermission_world inWorld_cookies
  inLimits_cookies setHeader_cookies : pres.
