(* ===== verification/AuthApi.v ===== *)
(** * The authentication API

    modules/auth/auth.schemas.ts, auth.controller.ts and auth.routes.ts over the services of Sessions, Otp, Passwords and
    Account. zod's e-mail format is a parameter; what a handler draws, and what becomes of its calls to Redis, are
    arguments. *)

From Stdlib Require Import ZArith Lia Bool.
From S2P Require Import Prelude Store Database JsString JsonText Platform Request AuditTrail Outbox Sessions Otp Passwords Account AccessControl ClientIp RateLimit Guards Http.

Open Scope string_scope.

(** ** auth.schemas.ts *)

Module schemas.
Section Schemas.
(** [z.email()] *)
Variable isEmail : string -> bool.

Definition text (lo hi : nat) (value : option Json) : option string :=
  match value with
  | Some (JStr s) => if (lo <=? String.length s)%nat && (String.length s <=? hi)%nat then Some s else None
  | _ => None
  end.
Definition optional {A} (schema : option Json -> option A) (value : option Json) : option (option A) :=
  match value with None => Some None | Some _ => Some <$> schema value end.
Definition object {A} (fields : list (string * Json) -> option A) (raw : Json) : option A :=
  match raw with JObj l => fields l | _ => None end.
Definition literal (s : string) (value : option Json) : option unit :=
  match value with Some (JStr t) => if t === s then Some tt else None | _ => None end.

Definition password : option Json -> option string := text 12 128.
Definition givenPassword : option Json -> option string := text 0 128.
Definition email (value : option Json) : option string :=
  match value with
  | Some (JStr s) =>
      let e := toLowerCase (trim s) in
      if isEmail e && (String.length e <=? 320)%nat then Some e else None
  | _ => None
  end.
(** [/^\+[1-9]\d{7,14}$/] *)
Definition phone (value : option Json) : option string :=
  match value with
  | Some (JStr (String p (String d rest))) =>
      if (p === "+"%char) && isDigit d && negb (d === "0"%char) && str_forallb isDigit rest
         && (7 <=? String.length rest)%nat && (String.length rest <=? 14)%nat
      then Some (String p (String d rest)) else None
  | _ => None
  end.
(** [/^\d{6}$/] *)
Definition code (value : option Json) : option string :=
  match value with
  | Some (JStr s) => if str_forallb isDigit s && (String.length s =? 6)%nat then Some s else None
  | _ => None
  end.
Definition displayName : option Json -> option (option string) := optional (fun value =>
  match value with
  | Some (JStr s) => let t := trim s in if (1 <=? String.length t)%nat && (String.length t <=? 100)%nat then Some t else None
  | _ => None
  end).
Definition provider (value : option Json) : option SocialProvider :=
  match value with
  | Some (JStr s) => if s === "google" then Some Soc_GOOGLE else if s === "apple" then Some Soc_APPLE else None
  | _ => None
  end.

Definition signupSchema : Json -> option (string * string * option string) := object (fun l =>
  e ← email (assoc "email" l); p ← password (assoc "password" l); d ← displayName (assoc "displayName" l); Some (e, p, d)).
Definition loginSchema : Json -> option (string * string) := object (fun l =>
  e ← email (assoc "email" l); p ← givenPassword (assoc "password" l); Some (e, p)).
Definition idToken : option Json -> option string := text 100 16384.
Definition socialLoginSchema : Json -> option (string * option string) := object (fun l =>
  t ← idToken (assoc "idToken" l); d ← displayName (assoc "displayName" l); Some (t, d)).
Definition changePasswordSchema : Json -> option (string * string) := object (fun l =>
  c ← givenPassword (assoc "currentPassword" l); n ← password (assoc "newPassword" l); Some (c, n)).
Definition socialReauthentication (value : option Json) : option (SocialProvider * string) :=
  match value with
  | Some (JObj l) => p ← provider (assoc "provider" l); t ← idToken (assoc "idToken" l); Some (p, t)
  | _ => None
  end.
Definition confirmation (l : list (string * Json)) : option Confirmation :=
  p ← optional givenPassword (assoc "password" l); r ← optional socialReauthentication (assoc "socialReauth" l);
  Some (mkConfirmation p r).
Definition accountDeleteSchema : Json -> option Confirmation := object confirmation.
Definition emailChangeRequestSchema : Json -> option (string * Confirmation) := object (fun l =>
  e ← email (assoc "newEmail" l); c ← confirmation l; Some (e, c)).
Definition emailChangeVerifySchema : Json -> option (string * string) := object (fun l =>
  e ← email (assoc "newEmail" l); c ← code (assoc "code" l); Some (e, c)).

(** The union discriminated by [channel]. *)
Definition otpInput (l : list (string * Json)) : option OtpInput :=
  let purposeOr verify name :=
    match literal "LOGIN" (assoc "purpose" l) with
    | Some _ => Some Otp_LOGIN
    | None => _ ← literal name (assoc "purpose" l); Some verify
    end in
  match literal "EMAIL" (assoc "channel" l) with
  | Some _ => d ← email (assoc "destination" l); p ← purposeOr Otp_VERIFY_EMAIL "VERIFY_EMAIL"; Some (mkOtpInput d OtpC_EMAIL p)
  | None =>
      _ ← literal "SMS" (assoc "channel" l);
      d ← phone (assoc "destination" l); p ← purposeOr Otp_VERIFY_PHONE "VERIFY_PHONE"; Some (mkOtpInput d OtpC_SMS p)
  end.
Definition otpSendSchema : Json -> option OtpInput := object otpInput.
Definition otpVerifySchema : Json -> option (OtpInput * string) := object (fun l =>
  i ← otpInput l; c ← code (assoc "code" l); Some (i, c)).

Definition passwordResetRequestSchema : Json -> option string := object (fun l => email (assoc "email" l)).
Definition passwordResetVerifyOtpSchema : Json -> option (string * string) := object (fun l =>
  e ← email (assoc "email" l); c ← code (assoc "otp" l); Some (e, c)).
Definition passwordResetConfirmSchema : Json -> option (string * string) := object (fun l =>
  t ← text 43 512 (assoc "resetToken" l); p ← password (assoc "newPassword" l); Some (t, p)).
Definition phoneVerificationSchema : Json -> option string := object (fun l => phone (assoc "phone" l)).
Definition refreshSchema : Json -> option (option string) := object (fun l =>
  optional (fun value => match value with Some (JStr (String c s)) => Some (String c s) | _ => None end) (assoc "refreshToken" l)).
End Schemas.
End schemas.

(** ** auth.controller.ts *)

Definition genericAuthMessage : string :=
  "If the supplied information is eligible, the requested action will be completed.".

(** What one request draws: the CSRF token, a one-time code, a password salt, a refresh token and a reset token. *)
Record AuthDraws := mkAuthDraws {
  dr_csrf : string; dr_otp : OtpDraw; dr_salt : string; dr_refreshToken : string; dr_resetToken : string
}.
(** What becomes of its calls to Redis, by the guard that makes them. *)
Record AuthReplies := mkAuthReplies {
  rr_guards : GuardReplies; rr_target : RedisReply; rr_provider : RedisReply; rr_backstops : RedisReply * RedisReply * RedisReply
}.
(** The parameters of the module: zod's e-mail format, and the hash of a random token. *)
Record AuthModule := mkAuthModule { am_isEmail : string -> bool; am_dummyPasswordHash : string }.

Definition tokenJson (t : TokenPair) : Json :=
  JObj [("accessToken", JStr (accessToken t)); ("refreshToken", JStr (refreshToken t))].

Module controller.
Section Controller.
Context `{Platform} `{Redis}.
Variables (auth_module : AuthModule) (draws : AuthDraws) (replies : AuthReplies).
Implicit Types (amb : Ambient) (request : ApiRequest) (auth : AuthState).

Definition metadataOf request : RequestMetadata := requestMetadata (api_http request).

(** [enforceRateLimit] and [enforceAuthBackstops] as the handlers call them. *)
Definition limit amb (mode : RedisFailureMode) (scope value : string) (most windowSeconds : Z) : Proc Exchange unit :=
  _ ← inLimits (enforceRateLimit (rr_target replies) (nowMs amb) scope value most windowSeconds mode); mret tt.
Definition backstops amb (endpoint : PublicAuthEndpoint) (metadata : RequestMetadata) (provider : option string)
    : Proc Exchange unit :=
  inLimits (enforceAuthBackstops (rr_backstops replies) (nowMs amb) endpoint metadata provider).

Definition issueTokens request (tokens : TokenPair) (message : string) : Proc Exchange (Success Json) :=
  if isMobileClient (api_web request) then mret (answerWith 200 message (tokenJson tokens))
  else changeCookies (setAuthCookies (accessToken tokens) (refreshToken tokens));; mret (answer 200 message).

Definition csrfCookie : CookieOptions :=
  mkCookieOptions "/" (COOKIE_SECURE env) (COOKIE_SAME_SITE env) false (Some (60 * 60 * 1000)%Z).
Definition issueCsrf : Proc Exchange (Success Json) :=
  let token := dr_csrf draws in
  changeCookies [SetCookie (cookie_csrf cookieNames) token csrfCookie];;
  mret (answerWith 200 "CSRF token issued" (JObj [("csrfToken", JStr token)])).

Definition signup amb request (input : string * string * option string) : Proc Exchange (Success Json) :=
  let '(email, password, displayName) := input in
  limit amb mode_deny "signup:account" email 3 (60 * 60);;
  let metadata := metadataOf request in
  backstops amb RateLimit.signup metadata (Some "email");;
  inWorld (signupWithPassword amb (dr_otp draws) (dr_salt draws) email password displayName metadata);;
  mret (answer 202 genericAuthMessage).

Definition login amb request (input : string * string) : Proc Exchange (Success Json) :=
  let '(email, password) := input in
  limit amb mode_local "login:account" email 5 (15 * 60);;
  let metadata := metadataOf request in
  backstops amb RateLimit.login metadata None;;
  tokens ← inWorld (loginWithPassword amb (dr_refreshToken draws) (am_dummyPasswordHash auth_module) email password metadata);
  match tokens with
  | None => throw (errors.unauthenticated "Invalid credentials")
  | Some tokens => issueTokens request tokens "Authenticated"
  end.

Definition providerParam (provider : SocialProvider) : string :=
  match provider with Soc_GOOGLE => "google" | Soc_APPLE => "apple" end.

Definition socialLogin amb request (provider : SocialProvider) (input : string * option string) : Proc Exchange (Success Json) :=
  let '(idToken, displayName) := input in
  let metadata := metadataOf request in
  limit amb mode_local "social-login:ip-provider" (providerParam provider ++ ":" ++ meta_ip metadata) 10 (15 * 60);;
  _ ← inLimits (enforceRateLimit (rr_provider replies) (nowMs amb) "social-login:provider-global" (providerParam provider)
                  10000 (15 * 60) mode_local);
  tokens ← inWorld (loginWithSocial amb (dr_refreshToken draws) provider idToken displayName metadata);
  match tokens with
  | None => throw (errors.unauthenticated "Social account is not eligible to sign in")
  | Some tokens => issueTokens request tokens "Authenticated"
  end.

Definition changePassword amb request auth (input : string * string) : Proc Exchange (Success Json) :=
  let '(currentPassword, newPassword) := input in
  changed ← inWorld (Passwords.changePassword amb (dr_salt draws) (am_dummyPasswordHash auth_module) (auth_userId auth)
                       (auth_sessionId auth) currentPassword newPassword (metadataOf request));
  if negb changed then throw (errors.unauthenticated "Current password is incorrect")
  else mret (answer 200 "Password changed").

Definition deleteAccount {D} amb request auth (input : Confirmation) : Proc Exchange (Success D) :=
  deleted ← inWorld (Account.deleteAccount amb (auth_userId auth) input (metadataOf request));
  if negb deleted then throw (errors.unauthenticated "Recent password or social reauthentication is required")
  else changeCookies clearAuthCookies;; mret (answer 200 "Account deleted").

Definition requestEmailChange amb request auth (input : string * Confirmation) : Proc Exchange (Success Json) :=
  let '(newEmail, confirmation) := input in
  limit amb mode_deny "email-change:destination" newEmail 3 (60 * 60);;
  let metadata := metadataOf request in
  backstops amb otp_send metadata (Some "email");;
  accepted ← inWorld (Account.requestEmailChange amb (dr_otp draws) (auth_userId auth) newEmail confirmation metadata);
  if negb accepted then throw (errors.unauthenticated "Recent reauthentication is required")
  else mret (answer 202 genericAuthMessage).

Definition verifyEmailChange amb request auth (input : string * string) : Proc Exchange (Success Json) :=
  let '(newEmail, code) := input in
  limit amb mode_deny "email-change:verify" newEmail 5 (10 * 60);;
  let metadata := metadataOf request in
  backstops amb otp_verify metadata None;;
  changed ← inWorld (Account.verifyEmailChange amb (auth_userId auth) newEmail code metadata);
  if negb changed then throw (errors.unauthenticated "Invalid or expired code")
  else changeCookies clearAuthCookies;; mret (answer 200 "Email changed; sign in again").

Definition requestOtp amb request (input : OtpInput) : Proc Exchange (Success Json) :=
  limit amb mode_deny "otp:send" (oin_destination input) 3 (10 * 60);;
  let metadata := metadataOf request in
  backstops amb otp_send metadata (Some (match oin_channel input with OtpC_EMAIL => "email" | OtpC_SMS => "sms" end));;
  inWorld (sendOtp amb (dr_otp draws) input metadata);;
  mret (answer 202 genericAuthMessage).

Definition requestPhoneVerification amb request auth (phone : string) : Proc Exchange (Success Json) :=
  limit amb mode_deny "otp:send" phone 3 (10 * 60);;
  let metadata := metadataOf request in
  backstops amb otp_send metadata (Some "sms");;
  inWorld (sendPhoneVerification amb (dr_otp draws) (auth_userId auth) phone metadata);;
  mret (answer 202 genericAuthMessage).

Definition verifyOtpCode amb request (input : OtpInput * string) : Proc Exchange (Success Json) :=
  limit amb mode_deny "otp:verify" (oin_destination (fst input)) 5 (10 * 60);;
  let metadata := metadataOf request in
  backstops amb otp_verify metadata None;;
  result ← inWorld (verifyOtp amb (dr_refreshToken draws) (fst input) (snd input) metadata);
  match result with
  | None => throw (errors.unauthenticated "Invalid or expired code")
  | Some VERIFIED => mret (answer 200 "Verified")
  | Some (LOGGED_IN tokens) => issueTokens request tokens "Authenticated"
  end.

Definition refresh amb request : Proc Exchange (Success Json) :=
  match resolveRefreshToken (api_web request) with
  | None | Some EmptyString => throw UNAUTHENTICATED_ERROR
  | Some token =>
      tokens ← inWorld (rotateRefreshToken amb (dr_refreshToken draws) token (metadataOf request));
      match tokens with
      | None => changeCookies clearAuthCookies;; throw UNAUTHENTICATED_ERROR
      | Some tokens => issueTokens request tokens "Authenticated"
      end
  end.

Definition requestReset amb request (email : string) : Proc Exchange (Success Json) :=
  limit amb mode_deny "password-reset:account" email 3 (60 * 60);;
  let metadata := metadataOf request in
  backstops amb password_reset_request metadata (Some "email");;
  inWorld (requestPasswordReset amb (dr_otp draws) email metadata);;
  mret (answer 202 genericAuthMessage).

Definition verifyPasswordResetOtp amb request (input : string * string) : Proc Exchange (Success Json) :=
  let '(email, otp) := input in
  limit amb mode_deny "password-reset:verify" email 5 (10 * 60);;
  let metadata := metadataOf request in
  backstops amb password_reset_verify metadata None;;
  credential ← inWorld (Passwords.verifyPasswordResetOtp amb (dr_resetToken draws) email otp metadata);
  match credential with
  | None => throw (errors.unauthenticated "Invalid or expired code")
  | Some (resetToken, expiresAt) =>
      setHeader "Cache-Control" "no-store";;
      mret (answerWith 200 "OTP verified" (JObj [("resetToken", JStr resetToken); ("expiresAt", JStr (toISOString expiresAt))]))
  end.

Definition confirmReset amb request (input : string * string) : Proc Exchange (Success Json) :=
  let '(resetToken, newPassword) := input in
  let metadata := metadataOf request in
  limit amb mode_deny "password-reset:confirm" (clientIpKey (Some (meta_ip metadata))) 5 (10 * 60);;
  backstops amb password_reset_confirm metadata None;;
  confirmed ← inWorld (confirmPasswordReset amb (dr_salt draws) resetToken newPassword metadata);
  if negb confirmed then throw (errors.unauthenticated "OTP verification required or expired")
  else changeCookies clearAuthCookies;; mret (answer 202 genericAuthMessage).

Definition logout amb request auth : Proc Exchange (Success Json) :=
  inWorld (revokeSession amb (auth_sessionId auth) (auth_userId auth) (metadataOf request));;
  changeCookies clearAuthCookies;; mret (answer 200 "Logged out").

Definition logoutAll amb request auth : Proc Exchange (Success Json) :=
  inWorld (revokeAllSessions amb (auth_userId auth) (metadataOf request));;
  changeCookies clearAuthCookies;; mret (answer 200 "All sessions revoked").
End Controller.
End controller.

(** ** auth.routes.ts *)

(** The routes; [:provider] is the path segment it matched. *)
Inductive AuthRoute :=
  | r_csrf | r_signup | r_login | r_oauth (provider : string) | r_otp_send | r_phone | r_otp_verify | r_refresh
  | r_reset_request | r_reset_verify | r_reset_confirm | r_logout | r_logout_all | r_change_password
  | r_email_request | r_email_verify | r_account.
#[export] Instance AuthRoute_eq_dec : EqDecision AuthRoute.
Proof. solve_decision. Defined.

Definition AUTH_BASE : string := "/api/v1/auth".

(** The path below the mount point, matched as it is spelt. *)
Definition postRoute (path : string) : option AuthRoute :=
  if path === "/signup" then Some r_signup
  else if path === "/login" then Some r_login
  else if startsWith path "/oauth/" then
    let provider := drop_str 7 path in
    if (provider === EmptyString) || negb (noChar "/" provider) then None else Some (r_oauth provider)
  else if path === "/otp/send" then Some r_otp_send
  else if path === "/phone/send-verification" then Some r_phone
  else if path === "/otp/verify" then Some r_otp_verify
  else if path === "/refresh" then Some r_refresh
  else if path === "/password-reset/request" then Some r_reset_request
  else if path === "/password-reset/verify-otp" then Some r_reset_verify
  else if path === "/password-reset/confirm" then Some r_reset_confirm
  else if path === "/logout" then Some r_logout
  else if path === "/logout-all" then Some r_logout_all
  else if path === "/password/change" then Some r_change_password
  else if path === "/email-change/request" then Some r_email_request
  else if path === "/email-change/verify" then Some r_email_verify
  else None.

Definition routeOf (request : WebRequest) : option AuthRoute :=
  if negb (startsWith (web_path request) AUTH_BASE) then None
  else
    let path := drop_str (String.length AUTH_BASE) (web_path request) in
    if web_method request === "GET" then if path === "/csrf" then Some r_csrf else None
    else if web_method request === "POST" then postRoute path
    else if web_method request === "DELETE" then if path === "/account" then Some r_account else None
    else None.

Section Routes.
Context `{Platform} `{Redis}.
Variables (auth_module : AuthModule) (draws : AuthDraws) (replies : AuthReplies).
Implicit Types (amb : Ambient) (request : ApiRequest).

Definition isEmail : string -> bool := am_isEmail auth_module.

(** [refreshUserRateLimit] reads the database and the counters. *)
Definition limitRefresh amb request : Proc Exchange unit := fun x =>
  inLimits (refreshUserRateLimit (rr_target replies) (nowMs amb) (resolveRefreshToken (api_web request)) (ex_world x)) x.

Definition serveRoute (route : AuthRoute) amb request : Proc Exchange (Success Json) :=
  match route with
  | r_csrf => controller.issueCsrf draws
  | r_signup => withBody (schemas.signupSchema isEmail) request (controller.signup draws replies amb request)
  | r_login => withBody (schemas.loginSchema isEmail) request (controller.login auth_module draws replies amb request)
  | r_oauth provider =>
      withInput (fun p => schemas.provider (Some p)) (JStr provider) (fun provider =>
      withBody schemas.socialLoginSchema request (controller.socialLogin draws replies amb request provider))
  | r_otp_send => withBody (schemas.otpSendSchema isEmail) request (controller.requestOtp draws replies amb request)
  | r_phone => withAuth (rr_guards replies) amb request (fun amb auth =>
      withBody schemas.phoneVerificationSchema request (controller.requestPhoneVerification draws replies amb request auth))
  | r_otp_verify => withBody (schemas.otpVerifySchema isEmail) request (controller.verifyOtpCode draws replies amb request)
  | r_refresh =>
      limitRefresh amb request;;
      withBody schemas.refreshSchema request (fun _ => controller.refresh draws amb request)
  | r_reset_request =>
      withBody (schemas.passwordResetRequestSchema isEmail) request (controller.requestReset draws replies amb request)
  | r_reset_verify =>
      withBody (schemas.passwordResetVerifyOtpSchema isEmail) request (controller.verifyPasswordResetOtp draws replies amb request)
  | r_reset_confirm => withBody schemas.passwordResetConfirmSchema request (controller.confirmReset draws replies amb request)
  | r_logout => withAuth (rr_guards replies) amb request (fun amb auth => controller.logout amb request auth)
  | r_logout_all => withAuth (rr_guards replies) amb request (fun amb auth => controller.logoutAll amb request auth)
  | r_change_password => withAuth (rr_guards replies) amb request (fun amb auth =>
      withBody schemas.changePasswordSchema request (controller.changePassword auth_module draws amb request auth))
  | r_email_request => withAuth (rr_guards replies) amb request (fun amb auth =>
      withBody (schemas.emailChangeRequestSchema isEmail) request (controller.requestEmailChange draws replies amb request auth))
  | r_email_verify => withAuth (rr_guards replies) amb request (fun amb auth =>
      withBody (schemas.emailChangeVerifySchema isEmail) request (controller.verifyEmailChange replies amb request auth))
  | r_account => withAuth (rr_guards replies) amb request (fun amb auth =>
      withBody schemas.accountDeleteSchema request (controller.deleteAccount amb request auth))
  end.

(** A request to a path under the mount point. *)
Definition serveAuth (now : Z) request (x : Exchange) : Reply Json * Exchange :=
  serveRequest (rr_guards replies) routeOf (fun route amb => serveRoute route amb request) now request x.
End Routes.
