(* ===== verification/AuthApiSpec.v ===== *)
(** * What the authentication API guarantees

    Nothing of the database is touched by a request the guards in front of the handler refuse; the tokens of a session
    leave by exactly one channel; and the endpoints that spend money or check a secret refuse to work without their
    counters. *)

From Stdlib Require Import ZArith Lia Bool.
From S2P Require Import Prelude Store Database JsString JsonText Platform Request AuditTrail Outbox Sessions SessionsSpec Otp Passwords Account AccessControl ClientIp RateLimit RateLimitSpec Guards Http HttpSpec AuthApi.

Open Scope string_scope.

Section AuthApi.
Context `{Platform} `{Redis}.
Variables (auth_module : AuthModule) (draws : AuthDraws) (replies : AuthReplies).
Implicit Types (amb : Ambient) (request : ApiRequest) (w : World) (x : Exchange).

(** ** The gates *)

(** The routes mounted behind [authenticate]. *)
Definition needsSession (route : AuthRoute) : bool :=
  match route with
  | r_phone | r_logout | r_logout_all | r_change_password | r_email_request | r_email_verify | r_account => true
  | _ => false
  end.

(** The input is what the route's schema accepts. *)
Definition wellFormed (route : AuthRoute) (body : Json) : bool :=
  let isEmail := am_isEmail auth_module in
  match route with
  | r_csrf | r_logout | r_logout_all => true
  | r_signup => is_set (schemas.signupSchema isEmail body)
  | r_login => is_set (schemas.loginSchema isEmail body)
  | r_oauth provider => is_set (schemas.provider (Some (JStr provider))) && is_set (schemas.socialLoginSchema body)
  | r_otp_send => is_set (schemas.otpSendSchema isEmail body)
  | r_phone => is_set (schemas.phoneVerificationSchema body)
  | r_otp_verify => is_set (schemas.otpVerifySchema isEmail body)
  | r_refresh => is_set (schemas.refreshSchema body)
  | r_reset_request => is_set (schemas.passwordResetRequestSchema isEmail body)
  | r_reset_verify => is_set (schemas.passwordResetVerifyOtpSchema isEmail body)
  | r_reset_confirm => is_set (schemas.passwordResetConfirmSchema body)
  | r_change_password => is_set (schemas.changePasswordSchema body)
  | r_email_request => is_set (schemas.emailChangeRequestSchema isEmail body)
  | r_email_verify => is_set (schemas.emailChangeVerifySchema isEmail body)
  | r_account => is_set (schemas.accountDeleteSchema body)
  end.

Lemma serveRoute_gated w route amb request :
  gated ((needsSession route = true -> exists state, actingAs amb request w state) /\ wellFormed route (web_body (api_web request)) = true)
    w (serveRoute auth_module draws replies route amb request).
Proof.
  assert (Hsession : forall {A} (schema : Json -> option A) (handler : Ambient -> AuthState -> A -> Proc Exchange (Success Json)),
    gated (exists state, actingAs amb request w state /\ is_set (schema (web_body (api_web request))) = true) w
      (withAuth (rr_guards replies) amb request (fun amb auth => withBody schema request (handler amb auth))))
    by (intros A schema handler; apply gated_auth; intros amb' state _; apply gated_body).
  destruct route; cbn [serveRoute needsSession wellFormed];
    try (eapply gated_impl; [apply gated_body|by intros Hb]);
    try (eapply gated_impl; [apply Hsession|by intros (state & Ha & Hb); split; [intros _; exists state|]]).
  - by apply gated_open.
  - apply gated_input. intros p Hp. eapply gated_impl; [apply gated_body|]. cbn beta. rewrite Hp. by intros ->.
  - apply gated_after; [intros x Hx; by apply inLimits_world|intros _]. eapply gated_impl; [apply gated_body|by intros Hb].
  - eapply gated_impl; [apply (gated_auth _ _ _ _ (fun _ => True)); intros; by apply gated_open|].
    intros (state & Ha & _). split; [by exists state|done].
  - eapply gated_impl; [apply (gated_auth _ _ _ _ (fun _ => True)); intros; by apply gated_open|].
    intros (state & Ha & _). split; [by exists state|done].
Qed.

(** Whatever is sent to the authentication API is refused with an error, the database exactly as it was, unless every
    guard of the request let it through: the ceiling of its address, the CSRF check, a route that matches, a live
    session when the route asks for one, and a body its schema accepts. *)
Theorem nothing_behind_the_gates now request x :
  refusal (ex_world x) (serveAuth auth_module draws replies now request x)
  \/ letIn (rr_guards replies) now request (ex_limits x)
     /\ exists route, routeOf (api_web request) = Some route
        /\ (needsSession route = true -> exists state, actingAs (requestAmbient now request) request (ex_world x) state)
        /\ wellFormed route (web_body (api_web request)) = true.
Proof. apply serveRequest_gated. intros route. apply gated_from, serveRoute_gated. Qed.

(** ** The channel of the tokens *)

Definition holdsTokens (data : option Json) : Prop :=
  exists d, data = Some d /\ (jget "accessToken" d <> None \/ jget "refreshToken" d <> None).

(** How an outcome and the cookies it comes with may carry a session's tokens. *)
Inductive channel (mobile : bool) : res (Success Json) -> list CookieChange -> Prop :=
  | ch_none s : ~ holdsTokens (su_data s) -> channel mobile (Ok s) []
  | ch_body status message tokens : mobile = true -> channel mobile (Ok (answerWith status message (tokenJson tokens))) []
  | ch_cookies status message tokens : mobile = false ->
      channel mobile (Ok (answer status message)) (setAuthCookies (accessToken tokens) (refreshToken tokens))
  | ch_cleared s : su_data s = None -> channel mobile (Ok s) clearAuthCookies
  | ch_refused e : channel mobile (Err e) []
  | ch_refused_cleared e : channel mobile (Err e) clearAuthCookies.

Definition emits request (m : Proc Exchange (Success Json)) : Prop := forall x, ex_cookies x = [] ->
  channel (isMobileClient (api_web request)) (fst (m x)) (ex_cookies (snd (m x))).

Lemma emits_after {A} request (m : Proc Exchange A) k :
  proc_pres (cookiesAre []) m -> (forall a, emits request (k a)) -> emits request (m ≫= k).
Proof.
  intros Hm Hk x Hx. destruct ((m ≫= k) x) as [r x'] eqn:E.
  apply (proc_bind_pres (cookiesAre [])) in E as [(e & -> & Hx')|(a & x1 & _ & Hx1 & E)]; [|..|done|done].
  - cbn. rewrite Hx'. constructor.
  - specialize (Hk a x1 Hx1). by rewrite E in Hk.
Qed.
Lemma emits_throw request e : emits request (throw e).
Proof. intros x Hx. cbn. rewrite Hx. constructor. Qed.
Lemma emits_success request status message : emits request (mret (answer status message)).
Proof. intros x Hx. cbn. rewrite Hx. apply ch_none. by intros (d & [=] & _). Qed.
Lemma emits_cleared request status message : emits request (changeCookies clearAuthCookies;; mret (answer status message)).
Proof. intros [w st c l hs] [= ->]. by apply (ch_cleared _ (answer status message)). Qed.
Lemma emits_refused_cleared request e : emits request (changeCookies clearAuthCookies;; throw e).
Proof. intros [w st c l hs] [= ->]. exact (ch_refused_cleared _ e). Qed.
Lemma emits_issueTokens request tokens message : emits request (controller.issueTokens request tokens message).
Proof.
  unfold controller.issueTokens, emits. intros [w st c l hs] [= ->]. destruct (isMobileClient (api_web request)).
  - by apply (ch_body true 200%Z message tokens).
  - by apply (ch_cookies false 200%Z message tokens).
Qed.
End AuthApi.

#[export] Hint Resolve emits_throw emits_success emits_cleared emits_refused_cleared emits_issueTokens : emits.

(** [emits] walks a handler up to the step that answers. *)
Ltac emits_step :=
  lazymatch goal with
  | |- emits _ (match ?x with _ => _ end) => destruct x eqn:?
  | |- emits _ (mbind _ _) => first [solve [eauto 2 with emits nocore] | apply emits_after; [|intros ?]]
  | |- emits _ _ => solve [eauto 2 with emits nocore]
  | |- proc_pres _ _ => solve [pres]
  end.
Ltac emits := repeat (progress (cbn beta iota zeta) || emits_step).

Section Channels.
Context `{Platform} `{Redis}.
Variables (auth_module : AuthModule) (draws : AuthDraws) (replies : AuthReplies).
Implicit Types (amb : Ambient) (request : ApiRequest) (w : World) (x : Exchange).

Lemma limit_cookies amb mode scope value most window l :
  proc_pres (cookiesAre l) (controller.limit replies amb mode scope value most window).
Proof. unfold controller.limit. pres. Qed.
Lemma backstops_cookies amb endpoint meta provider l : proc_pres (cookiesAre l) (controller.backstops replies amb endpoint meta provider).
Proof. unfold controller.backstops. pres. Qed.
Lemma authenticated_cookies reply amb request l : proc_pres (cookiesAre l) (authenticated reply amb request).
Proof. unfold authenticated. pres. Qed.
Lemma limitRefresh_cookies amb request l : proc_pres (cookiesAre l) (limitRefresh replies amb request).
Proof. intros x Hx. unfold limitRefresh. by apply inLimits_cookies. Qed.
End Channels.

#[export] Hint Resolve limit_cookies backstops_cookies authenticated_cookies limitRefresh_cookies : pres.

Section Tokens.
Context `{Platform} `{Redis}.
Variables (auth_module : AuthModule) (draws : AuthDraws) (replies : AuthReplies).
Implicit Types (amb : Ambient) (request : ApiRequest) (w : World) (x : Exchange).

Lemma serveRoute_emits route amb request : route <> r_csrf -> emits request (serveRoute auth_module draws replies route amb request).
Proof.
  intros Hr. destruct route; [done|..]; cbn [serveRoute]; unfold withAuth, withBody, withInput.
  all: unfold controller.signup, controller.login, controller.socialLogin, controller.requestOtp, controller.requestPhoneVerification,
    controller.verifyOtpCode, controller.refresh, controller.requestReset, controller.verifyPasswordResetOtp, controller.confirmReset,
    controller.logout, controller.logoutAll, controller.changePassword, controller.requestEmailChange, controller.verifyEmailChange,
    controller.deleteAccount.
  all: emits.
  intros x Hx. cbn. rewrite Hx. apply ch_none. by intros (d & [= <-] & []).
Qed.

(** [serveAuth] before its response is written. *)
Definition handleAuth request amb : Proc Exchange (Success Json) :=
  dispatch (rr_guards replies) routeOf (fun route amb => serveRoute auth_module draws replies route amb request) request amb.
Lemma serveAuth_runs now request x :
  serveAuth auth_module draws replies now request x = respond (handleAuth request (requestAmbient now request) x).
Proof. reflexivity. Qed.

(** What the routers above, or the lack of a route, answer. *)
Lemma dispatch_emits amb request : routeOf (api_web request) <> Some r_csrf -> emits request (handleAuth request amb).
Proof.
  intros Hr. unfold handleAuth, dispatch. apply emits_after; [unfold aboveRouters; pres|intros _].
  destruct (routeOf _) as [route|]; [apply serveRoute_emits; congruence|apply emits_throw].
Qed.

Lemma csrf_cookies amb request x r x' : routeOf (api_web request) = Some r_csrf -> ex_cookies x = [] ->
  handleAuth request amb x = (r, x') ->
  (forall change, In change (ex_cookies x') -> change = SetCookie (cookie_csrf cookieNames) (dr_csrf draws) controller.csrfCookie)
  /\ forall s, r = Ok s -> ~ holdsTokens (su_data s).
Proof.
  intros Hr Hx Hd. unfold handleAuth, dispatch in Hd. rewrite Hr in Hd.
  apply (proc_bind_pres (cookiesAre [])) in Hd as [(e & -> & Hx')|(a & [w1 st1 c1 l1 hs1] & _ & [= ->] & Hd)];
    [|injection Hd as <- <-|unfold aboveRouters; pres|done].
  - rewrite Hx'. by split.
  - split; [by intros change [<-|[]]|]. intros s [= <-]. by intros (d & [= <-] & []).
Qed.

(** C9: A session's tokens leave by one channel. Cookies are set for a client that is not a mobile one only, all of
    them out of reach of scripts, in an answer that is a success and whose body has no token; a body has tokens for a
    mobile client only, and then no cookie is touched. The one cookie a script may read is the CSRF token, set by its
    own route. *)
Theorem tokens_leave_by_one_channel now request w st cache :
  let reply := fst (serveAuth auth_module draws replies now request (arrival w st cache)) in
  (forall name value o, In (SetCookie name value o) (rp_cookies reply) ->
     (routeOf (api_web request) = Some r_csrf /\ name = cookie_csrf cookieNames)
     \/ (isMobileClient (api_web request) = false /\ rp_code reply = None /\ ~ holdsTokens (rp_data reply)
         /\ co_httpOnly o = true /\ co_secure o = COOKIE_SECURE env
         /\ exists tokens, rp_cookies reply = setAuthCookies (accessToken tokens) (refreshToken tokens)))
  /\ (holdsTokens (rp_data reply) ->
       isMobileClient (api_web request) = true /\ rp_cookies reply = [] /\ rp_code reply = None).
Proof.
  cbn zeta. rewrite serveAuth_runs.
  destruct (handleAuth _ _ _) as [r x'] eqn:E.
  assert (Hd : routeOf (api_web request) = Some r_csrf \/ routeOf (api_web request) <> Some r_csrf)
    by (destruct (routeOf _) as [[]|]; (by left) || (by right)).
  destruct Hd as [Hc|Hc].
  - apply csrf_cookies in E as [Hl Hd]; [|done|done]. destruct r as [s|e]; cbn.
    + split; [|by intros Ht%(Hd s)]. intros name value o Hin. left. apply Hl in Hin. by injection Hin as -> _ _.
    + split; [|by intros (d & [=] & _)]. intros name value o Hin. left. apply Hl in Hin. by injection Hin as -> _ _.
  - pose proof (dispatch_emits (requestAmbient now request) request Hc (arrival w st cache) eq_refl) as He. rewrite E in He. cbn in He.
    remember (ex_cookies x') as l eqn:El. destruct He; cbn; rewrite <- El; (split; [intros name value o Hin|intros Ht]).
    all: try (by destruct Hin); try done; try (by destruct Ht as (d & [=] & _)).
    + right. split; [done|]. split; [done|]. split; [by intros (d & [=] & _)|].
      destruct Hin as [[= <- <- <-]|[[= <- <- <-]|[]]]; (split; [done|]; split; [done|]; by exists tokens).
    + by destruct Hin as [|[|[]]].
    + exfalso. rewrite H1 in Ht. by destruct Ht as (d & [=] & _).
    + by destruct Hin as [|[|[]]].
Qed.

(** ** Without its counters *)

(** What becomes of the calls to Redis that a route does not work without. *)
Definition requiredReplies (route : AuthRoute) : list RedisReply :=
  let '(address, all, spend) := rr_backstops replies in
  match route with
  | r_signup | r_otp_send | r_phone | r_reset_request | r_email_request => [rr_target replies; address; all; spend]
  | r_otp_verify | r_reset_verify | r_reset_confirm | r_email_verify => [rr_target replies; address; all]
  | r_login => [address; all]
  | _ => []
  end.

Lemma enforce_denies reply now scope value most window st : reply <> Replies ->
  exists e, fst (enforceRateLimit reply now scope value most window mode_deny st) = Err e.
Proof.
  intros Hr. unfold enforceRateLimit, evalScript. destruct (rateKey scope value) as [key|e]; [|by exists e].
  destruct reply; [done|by eexists|]. destruct (incrementScript _ _ _ _). by eexists.
Qed.

Lemma promiseAll_fails checks st : (exists check, In check checks /\ forall st, exists e, fst (check st) = Err e) ->
  exists e, fst (promiseAll checks st) = Err e.
Proof.
  revert st. induction checks as [|check rest IH]; intros st (c & Hin & Hc); [done|]. cbn [promiseAll].
  destruct (check st) as [r st1] eqn:E, (promiseAll rest st1) as [rs st2] eqn:E2. cbn [fst].
  destruct r as [a|e]; [|by exists e]. destruct Hin as [->|Hin].
  - destruct (Hc st) as [e He]. by rewrite E in He.
  - destruct (IH st1 (ex_intro _ c (conj Hin Hc))) as [e He]. rewrite E2 in He. by exists e.
Qed.

Lemma inLimits_refuses {A} (m : Proc RateState A) w : (forall st, exists e, fst (m st) = Err e) -> gated False w (inLimits m).
Proof.
  intros Hm x Hx. left. unfold inLimits. destruct (Hm (ex_limits x)) as [e He]. destruct (m _) as [r st]. cbn in He. subst r.
  split; [by exists e|done].
Qed.

(** A sequence refuses when its first part does. *)
Lemma refuses_here {A B} w (m : Proc Exchange A) (k : A -> Proc Exchange B) : gated False w m -> gated False w (m ≫= k).
Proof.
  intros Hm x Hx. destruct (Hm x Hx) as [[[e He] Hw]|[]]. left. destruct (m x) as [r x'] eqn:E. cbn in He, Hw. subst r.
  rewrite (proc_call_err _ _ _ _ _ E). split; [by exists e|done].
Qed.

Lemma refuses_auth w amb request (handler : Ambient -> AuthState -> Proc Exchange (Success Json)) :
  (forall amb' auth, gated False w (handler amb' auth)) -> gated False w (withAuth (rr_guards replies) amb request handler).
Proof. intros Hh. eapply gated_impl; [apply (gated_auth _ _ _ _ (fun _ => False)); auto|by intros (state & _ & [])]. Qed.

Lemma limit_refuses w amb scope value most window (k : unit -> Proc Exchange (Success Json)) : rr_target replies <> Replies ->
  gated False w (controller.limit replies amb mode_deny scope value most window ≫= k).
Proof. intros Hr. apply refuses_here, refuses_here, inLimits_refuses. intros st. by apply enforce_denies. Qed.

(** The replies [enforceAuthBackstops] waits for. *)
Definition backstopReplies (provider : option string) : list RedisReply :=
  let '(address, all, spend) := rr_backstops replies in [address; all] ++ (if is_set provider then [spend] else []).

Lemma backstops_refuses w amb endpoint meta provider reply (k : unit -> Proc Exchange (Success Json)) : In reply (backstopReplies provider) -> reply <> Replies ->
  gated False w (controller.backstops replies amb endpoint meta provider ≫= k).
Proof.
  intros Hin Hr. apply refuses_here, inLimits_refuses. intros st. unfold enforceAuthBackstops, backstopReplies in *.
  destruct (rr_backstops replies) as [[address all] spend]. apply promiseAll_fails.
  cbn in Hin. destruct Hin as [->|[->|Hin]].
  - eexists. split; [by left|]. intros st'. by apply enforce_denies.
  - eexists. split; [by right; left|]. intros st'. by apply enforce_denies.
  - destruct provider as [provider|]; [|done]. destruct Hin as [->|[]].
    eexists. split; [by right; right; left|]. intros st'. by apply enforce_denies.
Qed.

Lemma guards_refuse w amb scope value most window endpoint meta provider reply (k : Proc Exchange (Success Json)) :
  In reply (rr_target replies :: backstopReplies provider) -> reply <> Replies ->
  gated False w (controller.limit replies amb mode_deny scope value most window;; controller.backstops replies amb endpoint meta provider;; k).
Proof.
  intros [<-|Hin] Hr; [by apply limit_refuses|]. apply gated_after; [unfold controller.limit; pres|intros _].
  by apply (backstops_refuses _ _ _ _ _ reply).
Qed.

Lemma serveRoute_refuses w route amb request reply : In reply (requiredReplies route) -> reply <> Replies ->
  gated False w (serveRoute auth_module draws replies route amb request).
Proof.
  unfold requiredReplies. destruct (rr_backstops replies) as [[address all] spend] eqn:Eb. intros Hin Hr.
  destruct route; try (by destruct Hin); cbn [serveRoute]; try apply refuses_auth; intros; apply gated_input; intros.
  all: repeat match goal with a : _ * _ |- _ => destruct a end.
  all: try (eapply guards_refuse; [|exact Hr]; unfold backstopReplies; rewrite Eb; exact Hin).
  unfold controller.login. apply gated_after; [unfold controller.limit; pres|intros _].
  apply backstops_refuses with reply; [|done]. unfold backstopReplies. by rewrite Eb.
Qed.

End Tokens.

Section Witnesses.
Local Existing Instance demoPlatform.

Definition demoModule : AuthModule := mkAuthModule (fun _ => true) "dummy".
Definition demoDraws : AuthDraws := mkAuthDraws "c5f" (mkOtpDraw 0 "salt" "iv") "salt" "tok-1" "reset".
Definition guardsAnswered : GuardReplies := mkGuardReplies Replies Replies true true.
Definition allAnswered : AuthReplies := mkAuthReplies guardsAnswered Replies Replies (Replies, Replies, Replies).
Definition targetAway : AuthReplies := mkAuthReplies guardsAnswered Unreachable Replies (Replies, Replies, Replies).

Definition post (path : string) (headers : list (string * string)) (cookies signed : list (string * Json)) (body : Json) : ApiRequest :=
  mkApiRequest (mkWebRequest "POST" (AUTH_BASE ++ path) headers cookies signed body)
    (mkHttpRequest (Some (JStr "req")) (Some "203.0.113.7") None None) (JObj []).

Definition mobileRefresh : ApiRequest :=
  post "/refresh" [("x-client-type", "Mobile")] [] [] (JObj [("refreshToken", JStr "tok-0")]).
Definition webRefresh : ApiRequest :=
  post "/refresh" [("x-csrf-token", "c5f")] [("refresh_token", JStr "tok-0")] [("csrf_token", JStr "c5f")] (JObj []).
Definition signupRequest : ApiRequest :=
  post "/signup" [("x-client-type", "mobile")] [] []
    (JObj [("email", JStr " New@Example.com"); ("password", JStr "a long password")]).

Definition start : Exchange := arrival loggedIn idle ∅.
Definition served (replies : AuthReplies) request := serveAuth demoModule demoDraws replies 5000 request start.

Example mobile_gets_a_body : let reply := fst (served allAnswered mobileRefresh) in
  rp_cookies reply = [] /\ (d ← rp_data reply; jget "refreshToken" d) = Some (JStr "tok-1").
Proof. vm_compute. by split. Qed.
Example web_gets_cookies : let reply := fst (served allAnswered webRefresh) in
  length (rp_cookies reply) = 2 /\ rp_data reply = None /\ rp_status reply = 200%Z.
Proof. vm_compute. by repeat split. Qed.
Example signup_accepted : rp_status (fst (served allAnswered signupRequest)) = 202%Z
  /\ length (users (ex_world (snd (served allAnswered signupRequest)))) = S (length (users loggedIn)).
Proof. vm_compute. by split. Qed.

End Witnesses.
