(* ===== verification/AdminApi.v ===== *)
(** * The users, roles and organizations APIs

    The schemas, controllers and routes of modules/users, modules/roles and modules/organizations, over the services of
    Users, Roles and Organizations. zod's formats and coercion, and PostgreSQL's ordering and text match, are
    parameters. *)

From Stdlib Require Import ZArith Lia Bool.
From S2P Require Import Prelude Store Database JsString JsonText Platform Request AuditTrail Pagination Sessions Otp Passwords Account Organizations Roles AccessControl ClientIp RateLimit Users Guards Http AuthApi.

Open Scope string_scope.

(** [z.email()], [z.uuid()], and [z.coerce.number().int()] on a field that is there. *)
Record Formats := mkFormats { fmt_isEmail : string -> bool; fmt_isUuid : string -> bool; fmt_coerceInt : Json -> option Z }.
(** PostgreSQL's ORDER BY over users, and its case-insensitive match. *)
Record UserListing := mkUserListing {
  ul_orderBy : list (string * string) -> list User -> list User; ul_contains : string -> string -> bool
}.

(** ** The schemas *)

Module admin_schemas.
Section Schemas.
Variable formats : Formats.

Definition uuid (value : option Json) : option string :=
  match value with Some (JStr s) => if fmt_isUuid formats s then Some s else None | _ => None end.
Definition trimmed (lo hi : nat) (value : option Json) : option string :=
  match value with Some (JStr s) => schemas.text lo hi (Some (JStr (trim s))) | _ => None end.
Definition trimmedText (value : option Json) : option string := match value with Some (JStr s) => Some (trim s) | _ => None end.
Definition matching (pattern : string -> bool) (value : option string) : option string :=
  s ← value; if pattern s then Some s else None.
Definition nullable {A} (schema : option Json -> option A) (value : option Json) : option (option A) :=
  match value with Some JNull => Some None | _ => Some <$> schema value end.
Definition enum {A} (values : list (string * A)) (value : option Json) : option A :=
  match value with Some (JStr s) => assoc s values | _ => None end.
Definition withDefault {A} (d : A) (schema : option Json -> option A) (value : option Json) : option A :=
  match value with None => Some d | Some _ => schema value end.
Definition arrayOf {A} (most : nat) (schema : option Json -> option A) (value : option Json) : option (list A) :=
  match value with
  | Some (JArr l) => if (List.length l <=? most)%nat then mapM (fun v => schema (Some v)) l else None
  | _ => None
  end.
Definition pageSizeOr (d : nat) : option Json -> option nat := withDefault d (fun value =>
  v ← value; n ← fmt_coerceInt formats v; if (1 <=? n)%Z && (n <=? 100)%Z then Some (Z.to_nat n) else None).
Definition pageSize : option Json -> option nat := pageSizeOr 25.

(** [/^[a-z0-9][a-z0-9-]*$/], [/^[a-z][a-z0-9_-]+$/] and [/^[A-Za-z]{2,3}(?:-[A-Za-z0-9]{2,8})*$/] *)
Definition isLower (c : ascii) : bool := (97 <=? code_of c)%nat && (code_of c <=? 122)%nat.
Definition isUpper (c : ascii) : bool := (65 <=? code_of c)%nat && (code_of c <=? 90)%nat.
Definition isSlug (s : string) : bool :=
  match s with
  | String c rest => (isLower c || isDigit c) && str_forallb (fun c => isLower c || isDigit c || (c === "-"%char)) rest
  | EmptyString => false
  end.
Definition isRoleName (s : string) : bool :=
  match s with
  | String c (String d rest) =>
      isLower c && str_forallb (fun c => isLower c || isDigit c || (c === "_"%char) || (c === "-"%char)) (String d rest)
  | _ => false
  end.
Definition isLocale (s : string) : bool :=
  let within lo hi t := (lo <=? String.length t)%nat && (String.length t <=? hi)%nat in
  match split "-" s with
  | language :: subtags =>
      within 2 3 language && str_forallb (fun c => isLower c || isUpper c) language
      && List.forallb (fun t => within 2 8 t && str_forallb (fun c => isLower c || isUpper c || isDigit c) t) subtags
  | [] => false
  end.

(** users.schemas.ts, and the device of auth.schemas.ts *)
Record ListQuery := mkListQuery {
  lq_cursor : option string; lq_limit : nat; lq_search : option string; lq_sort : string; lq_order : string
}.
Definition createListQuerySchema (sortFields : list string) (l : list (string * Json)) : option ListQuery :=
  cursor ← schemas.optional uuid (assoc "cursor" l);
  limit ← pageSize (assoc "limit" l);
  search ← schemas.optional (trimmed 1 200) (assoc "search" l);
  sort ← withDefault (List.hd EmptyString sortFields) (enum (List.map (fun f => (f, f)) sortFields)) (assoc "sort" l);
  order ← withDefault "desc" (enum [("asc", "asc"); ("desc", "desc")]) (assoc "order" l);
  Some (mkListQuery cursor limit search sort order).
Definition userStatus : option Json -> option UserStatus :=
  enum [("PENDING", User_PENDING); ("ACTIVE", User_ACTIVE); ("SUSPENDED", User_SUSPENDED); ("DISABLED", User_DISABLED)].
Definition usersListQuery : Json -> option (ListQuery * option UserStatus) := schemas.object (fun l =>
  q ← createListQuerySchema ["createdAt"; "email"; "displayName"; "id"] l;
  status ← schemas.optional userStatus (assoc "status" l); Some (q, status)).
Definition displayNameField : option Json -> option (option (option string)) := schemas.optional (nullable (trimmed 1 100)).
Definition updateUserSchema : Json -> option UserUpdate := schemas.object (fun l =>
  d ← displayNameField (assoc "displayName" l); s ← schemas.optional userStatus (assoc "status" l); Some (mkUserUpdate d s)).
Definition updateOwnProfileSchema : Json -> option ProfileInput := schemas.object (fun l =>
  d ← displayNameField (assoc "displayName" l);
  locale ← schemas.optional (fun v => matching isLocale (trimmedText v)) (assoc "locale" l);
  p ← schemas.optional (nullable schemas.phone) (assoc "phone" l);
  Some (mkProfileInput d p locale)).
Definition deviceSchema : Json -> option (string * option string) := schemas.object (fun l =>
  t ← schemas.text 20 4096 (assoc "token" l);
  p ← schemas.optional (enum [("ios", "ios"); ("android", "android"); ("web", "web")]) (assoc "platform" l); Some (t, p)).
(** A path parameter that is a UUID. *)
Definition uuidParam (s : Json) : option string := uuid (Some s).

(** roles.schemas.ts *)
Definition permissionCodes : option Json -> option (list string) := arrayOf 100 (schemas.text 1 100).
Definition roleSchema : Json -> option (string * option string * list string) := schemas.object (fun l =>
  name ← matching isRoleName (trimmed 2 64 (assoc "name" l));
  description ← schemas.optional (trimmed 0 500) (assoc "description" l);
  codes ← withDefault [] permissionCodes (assoc "permissions" l); Some (name, description, codes)).
Definition assignmentSchema : Json -> option (string * string) := schemas.object (fun l =>
  u ← uuid (assoc "userId" l); r ← uuid (assoc "roleId" l); Some (u, r)).
Definition updateRolePermissionsSchema : Json -> option (list string) := schemas.object (fun l => permissionCodes (assoc "permissions" l)).

(** organizations.schemas.ts *)
Definition createOrganizationSchema : Json -> option (string * option string) := schemas.object (fun l =>
  name ← trimmed 2 120 (assoc "name" l);
  slug ← schemas.optional (fun v => matching isSlug (trimmed 2 64 v)) (assoc "slug" l); Some (name, slug)).
Definition settingsField (value : option Json) : option Json := match value with Some (JObj l) => Some (JObj l) | _ => None end.
Definition updateOrganizationSchema : Json -> option (option string * option Json) := schemas.object (fun l =>
  name ← schemas.optional (trimmed 2 120) (assoc "name" l);
  settings ← schemas.optional settingsField (assoc "settings" l);
  if is_set name || is_set settings then Some (name, settings) else None).
Definition changeMemberRoleSchema : Json -> option string := schemas.object (fun l => uuid (assoc "roleId" l)).
Definition createInvitationSchema : Json -> option (string * string) := schemas.object (fun l =>
  e ← matching (fmt_isEmail formats) (schemas.text 0 320 (assoc "email" l)); r ← uuid (assoc "roleId" l); Some (e, r)).
Definition acceptInvitationSchema : Json -> option string := schemas.object (fun l => schemas.text 16 200 (assoc "token" l)).
Definition listQuery : Json -> option CursorPaginationInput := schemas.object (fun l =>
  cursor ← schemas.optional (schemas.text 0 200) (assoc "cursor" l); limit ← pageSize (assoc "limit" l);
  Some (mkCursorInput cursor limit)).
End Schemas.
End admin_schemas.

(** The segments of a path below its mount point. *)
Definition segmentsBelow (base : string) (request : WebRequest) : option (list string) :=
  if startsWith (web_path request) base
  then match split "/" (drop_str (String.length base) (web_path request)) with
       | EmptyString :: segments => Some segments
       | _ => None
       end
  else None.
Definition metadataOf (request : ApiRequest) : RequestMetadata := requestMetadata (api_http request).

(** ** modules/users *)

Inductive UsersData :=
  | ud_me (user : PublicUser * list string) | ud_profile (user : PublicUser) | ud_device (d : Device) | ud_devices (l : list Device)
  | ud_sessions (l : list (Session * bool)) | ud_users (l : list User).
Inductive UsersRoute :=
  | u_me | u_update_me | u_delete_me | u_add_device | u_devices | u_remove_device (deviceId : string)
  | u_sessions | u_logout_session (sessionId : string) | u_index | u_update (id : string).

Module users_api.
Section UsersApi.
Context `{Platform} `{Redis}.
Variables (formats : Formats) (listing : UserListing) (replies : GuardReplies).
Implicit Types (amb : Ambient) (request : ApiRequest) (auth : AuthState).

Definition NOT_FOUND_ERROR : Error := errors.notFound "Resource not found".

Definition me auth : Proc Exchange (Success UsersData) :=
  user ← inWorld (transact (getCurrentUser (auth_userId auth)));
  match user with None => throw NOT_FOUND_ERROR | Some user => mret (answerWith 200 COMPLETED (ud_me user)) end.

Definition addDevice amb auth (input : string * option string) : Proc Exchange (Success UsersData) :=
  device ← inWorld (registerDevice amb (auth_userId auth) (fst input) (snd input));
  mret (answerWith 201 "Device registered" (ud_device device)).

Definition devices auth : Proc Exchange (Success UsersData) :=
  found ← inWorld (transact (listDevices (auth_userId auth))); mret (answerWith 200 COMPLETED (ud_devices found)).

Definition removeDevice amb request auth (deviceId : string) : Proc Exchange (Success UsersData) :=
  removed ← inWorld (transact (unregisterDevice amb (auth_userId auth) deviceId (metadataOf request)));
  if negb removed then throw (errors.notFound "Device not found") else mret (answer 200 "Device unregistered").

Definition updateMe amb request auth (input : ProfileInput) : Proc Exchange (Success UsersData) :=
  user ← inWorld (transact (updateOwnProfile amb (auth_userId auth) input (metadataOf request)));
  match user with
  | None => throw NOT_FOUND_ERROR
  | Some user => mret (answerWith 200 "Profile updated" (ud_profile user))
  end.

Definition sessions auth : Proc Exchange (Success UsersData) :=
  found ← inWorld (transact (listSessions (auth_userId auth) (auth_sessionId auth)));
  mret (answerWith 200 COMPLETED (ud_sessions found)).

Definition logoutSession amb request auth (sessionId : string) : Proc Exchange (Success UsersData) :=
  inWorld (revokeSession amb sessionId (auth_userId auth) (metadataOf request));;
  mret (answer 200 "Session revoked").

(** middleware/query-options.ts *)
Definition deterministicOrder (sort order : string) : list (string * string) :=
  if sort === "id" then [("id", order)] else [(sort, order); ("id", order)].

Definition index (query : admin_schemas.ListQuery * option UserStatus) : Proc Exchange (Success UsersData) :=
  let '(q, status) := query in
  result ← inWorld (listUsers (ul_orderBy listing (deterministicOrder (admin_schemas.lq_sort q) (admin_schemas.lq_order q)))
                      (ul_contains listing)
                      (mkCursorInput (admin_schemas.lq_cursor q) (admin_schemas.lq_limit q)) (admin_schemas.lq_search q) status);
  mret (mkSuccess 200 COMPLETED (Some (ud_users (page_items result)))
          [("nextCursor", match page_nextCursor result with Some c => JStr c | None => JNull end)]).

Definition update amb request auth (id : string) (input : UserUpdate) : Proc Exchange (Success UsersData) :=
  user ← inWorld (updateUser amb id input (auth_userId auth) (metadataOf request));
  mret (answerWith 200 "User updated" (ud_profile user)).

(** users.routes.ts *)
Definition routeOf (request : WebRequest) : option UsersRoute :=
  let method := web_method request in
  match segmentsBelow "/api/v1/users" request with
  | Some [] | Some [EmptyString] => if method === "GET" then Some u_index else None
  | Some [first] =>
      if first === "me" then
        if method === "GET" then Some u_me else if method === "PATCH" then Some u_update_me
        else if method === "DELETE" then Some u_delete_me else None
      else if method === "PATCH" then Some (u_update first) else None
  | Some [first; second] =>
      if first !== "me" then None
      else if second === "devices" then
        if method === "POST" then Some u_add_device else if method === "GET" then Some u_devices else None
      else if (second === "sessions") && (method === "GET") then Some u_sessions else None
  | Some [first; second; third] =>
      if (first !== "me") || (third === EmptyString) || (method !== "DELETE") then None
      else if second === "devices" then Some (u_remove_device third)
      else if second === "sessions" then Some (u_logout_session third) else None
  | _ => None
  end.

Definition serveRoute (route : UsersRoute) amb request : Proc Exchange (Success UsersData) :=
  let param name := withInput (admin_schemas.uuidParam formats) (JStr name) in
  match route with
  | u_me => withAuth replies amb request (fun amb auth => me auth)
  | u_update_me => withAuth replies amb request (fun amb auth =>
      withBody admin_schemas.updateOwnProfileSchema request (updateMe amb request auth))
  | u_delete_me => withAuth replies amb request (fun amb auth =>
      withBody schemas.accountDeleteSchema request (controller.deleteAccount amb request auth))
  | u_add_device => withAuth replies amb request (fun amb auth =>
      withBody admin_schemas.deviceSchema request (addDevice amb auth))
  | u_devices => withAuth replies amb request (fun amb auth => devices auth)
  | u_remove_device id => withAuth replies amb request (fun amb auth => param id (removeDevice amb request auth))
  | u_sessions => withAuth replies amb request (fun amb auth => sessions auth)
  | u_logout_session id => withAuth replies amb request (fun amb auth => param id (logoutSession amb request auth))
  | u_index => withPermission replies "users:read" scope_global amb request (fun amb auth =>
      withInput (admin_schemas.usersListQuery formats) (api_query request) index)
  | u_update id => withPermission replies "users:write" scope_global amb request (fun amb auth =>
      param id (fun id => withBody admin_schemas.updateUserSchema request (update amb request auth id)))
  end.

Definition serveUsers (now : Z) request (x : Exchange) : Reply UsersData * Exchange :=
  serveRequest replies routeOf (fun route amb => serveRoute route amb request) now request x.
End UsersApi.
End users_api.

(** ** modules/roles *)

Inductive RolesData := rd_roles (l : list RoleView) | rd_created (role : Role) | rd_assignment (ur : UserRole) | rd_updated (role : RoleView).
Inductive RolesRoute := ro_index | ro_create | ro_permissions (id : string) | ro_assign | ro_revoke.

Module roles_api.
Section RolesApi.
Context `{Platform} `{Redis}.
Variables (formats : Formats) (replies : GuardReplies).
Implicit Types (amb : Ambient) (request : ApiRequest) (auth : AuthState).

Definition index : Proc Exchange (Success RolesData) :=
  found ← inWorld (transact listRoles); mret (answerWith 200 COMPLETED (rd_roles found)).

Definition create amb request auth (input : string * option string * list string) : Proc Exchange (Success RolesData) :=
  let '(name, description, codes) := input in
  role ← inWorld (createRole amb name description codes (auth_userId auth) (metadataOf request));
  mret (answerWith 201 "Role created" (rd_created role)).

Definition assign amb request auth (input : string * string) : Proc Exchange (Success RolesData) :=
  assignment ← inWorld (assignRole amb (fst input) (snd input) (auth_userId auth) (metadataOf request));
  mret (answerWith 201 "Role assigned" (rd_assignment assignment)).

Definition revoke amb request auth (input : string * string) : Proc Exchange (Success RolesData) :=
  revoked ← inWorld (revokeRole amb (fst input) (snd input) (auth_userId auth) (metadataOf request));
  if negb revoked then throw (errors.notFound "Role assignment not found") else mret (answer 200 "Role revoked").

Definition updatePermissions amb request auth (id : string) (codes : list string) : Proc Exchange (Success RolesData) :=
  role ← inWorld (updateRolePermissions amb id codes (auth_userId auth) (metadataOf request));
  mret (answerWith 200 "Role permissions updated" (rd_updated role)).

(** roles.routes.ts *)
Definition routeOf (request : WebRequest) : option RolesRoute :=
  let method := web_method request in
  match segmentsBelow "/api/v1/roles" request with
  | Some [] | Some [EmptyString] => if method === "GET" then Some ro_index else if method === "POST" then Some ro_create else None
  | Some [first] =>
      if first !== "assignments" then None
      else if method === "POST" then Some ro_assign else if method === "DELETE" then Some ro_revoke else None
  | Some [first; second] =>
      if (first !== EmptyString) && (second === "permissions") && (method === "PATCH") then Some (ro_permissions first) else None
  | _ => None
  end.

Definition serveRoute (route : RolesRoute) amb request : Proc Exchange (Success RolesData) :=
  match route with
  | ro_index => withPermission replies "roles:read" scope_global amb request (fun amb auth => index)
  | ro_create => withPermission replies "roles:write" scope_global amb request (fun amb auth =>
      withBody admin_schemas.roleSchema request (create amb request auth))
  | ro_permissions id => withPermission replies "roles:write" scope_global amb request (fun amb auth =>
      withInput (admin_schemas.uuidParam formats) (JStr id) (fun id =>
      withBody admin_schemas.updateRolePermissionsSchema request (updatePermissions amb request auth id)))
  | ro_assign => withPermission replies "roles:write" scope_global amb request (fun amb auth =>
      withBody (admin_schemas.assignmentSchema formats) request (assign amb request auth))
  | ro_revoke => withPermission replies "roles:write" scope_global amb request (fun amb auth =>
      withInput (admin_schemas.assignmentSchema formats) (api_query request) (revoke amb request auth))
  end.

Definition serveRoles (now : Z) request (x : Exchange) : Reply RolesData * Exchange :=
  serveRequest replies routeOf (fun route amb => serveRoute route amb request) now request x.
End RolesApi.
End roles_api.

(** ** modules/organizations *)

Inductive OrganizationsData :=
  | od_mine (l : list (Organization * option Role)) | od_organization (o : Organization) | od_members (page : CursorPage Membership)
  | od_member (m : Membership) | od_invitation (i : Invitation * string).
Inductive OrganizationsRoute :=
  | o_index | o_create | o_switch (organizationId : string) | o_accept | o_show (organizationId : string) | o_update (organizationId : string)
  | o_members (organizationId : string) | o_change_role (organizationId userId : string) | o_remove_member (organizationId userId : string)
  | o_invite (organizationId : string) | o_revoke_invitation (organizationId invitationId : string).

Module organizations_api.
Section OrganizationsApi.
Context `{Platform} `{Redis}.
(** [token] and [iv] are what an invitation draws. *)
Variables (formats : Formats) (token iv : string) (replies : GuardReplies).
Implicit Types (amb : Ambient) (request : ApiRequest) (auth : AuthState) (organizationId : string).

Definition assertOrganizationScope auth organizationId : Proc Exchange unit :=
  lift (if auth_organizationId auth === Some organizationId then Ok tt
        else Err (errors.forbidden "Switch to this organization before managing it")).

Definition index auth : Proc Exchange (Success OrganizationsData) :=
  mine ← inWorld (transact (listMyOrganizations (auth_userId auth))); mret (answerWith 200 COMPLETED (od_mine mine)).

Definition create amb request auth (input : string * option string) : Proc Exchange (Success OrganizationsData) :=
  organization ← inWorld (createOrganization amb (fst input) (snd input) (auth_userId auth) (metadataOf request));
  mret (answerWith 201 "Organization created" (od_organization organization)).

Definition show auth organizationId : Proc Exchange (Success OrganizationsData) :=
  assertOrganizationScope auth organizationId;;
  organization ← inWorld (transact (getOrganization organizationId));
  mret (answerWith 200 COMPLETED (od_organization organization)).

Definition update amb request auth organizationId (input : option string * option Json) : Proc Exchange (Success OrganizationsData) :=
  assertOrganizationScope auth organizationId;;
  organization ← inWorld (updateOrganization amb organizationId (fst input) (snd input) (auth_userId auth) (metadataOf request));
  mret (answerWith 200 "Organization updated" (od_organization organization)).

Definition switchTo amb request auth organizationId : Proc Exchange (Success OrganizationsData) :=
  organization ← inWorld (switchOrganization amb (auth_userId auth) (auth_sessionId auth) organizationId (metadataOf request));
  mret (answerWith 200 "Active organization changed" (od_organization organization)).

Definition members auth organizationId (query : CursorPaginationInput) : Proc Exchange (Success OrganizationsData) :=
  assertOrganizationScope auth organizationId;;
  page ← inWorld (listMembers organizationId query); mret (answerWith 200 COMPLETED (od_members page)).

Definition changeRole amb request auth organizationId (userId roleId : string) : Proc Exchange (Success OrganizationsData) :=
  assertOrganizationScope auth organizationId;;
  membership ← inWorld (changeMemberRole amb organizationId userId roleId (auth_userId auth) (metadataOf request));
  mret (answerWith 200 "Member role updated" (od_member membership)).

Definition removeMemberHandler amb request auth organizationId (userId : string) : Proc Exchange (Success OrganizationsData) :=
  assertOrganizationScope auth organizationId;;
  inWorld (removeMember amb organizationId userId (auth_userId auth) (metadataOf request));;
  mret (answer 200 "Member removed").

Definition invite amb request auth organizationId (input : string * string) : Proc Exchange (Success OrganizationsData) :=
  assertOrganizationScope auth organizationId;;
  invitation ← inWorld (createInvitation amb token iv organizationId (fst input) (snd input) (auth_userId auth) (metadataOf request));
  mret (answerWith 201 "Invitation created" (od_invitation invitation)).

Definition revokeInvite amb request auth organizationId (invitationId : string) : Proc Exchange (Success OrganizationsData) :=
  assertOrganizationScope auth organizationId;;
  inWorld (revokeInvitation amb organizationId invitationId (auth_userId auth) (metadataOf request));;
  mret (answer 200 "Invitation revoked").

Definition accept amb request auth (rawToken : string) : Proc Exchange (Success OrganizationsData) :=
  organization ← inWorld (acceptInvitation amb rawToken (auth_userId auth) (metadataOf request));
  mret (answerWith 200 "Invitation accepted" (od_organization organization)).

(** organizations.routes.ts; app.ts mounts them unless there are no tenants. *)
Definition routeOf (request : WebRequest) : option OrganizationsRoute :=
  let method := web_method request in
  match (if TENANCY_MODE env === Tenancy_disabled then None else segmentsBelow "/api/v1/organizations" request) with
  | Some [] | Some [EmptyString] => if method === "GET" then Some o_index else if method === "POST" then Some o_create else None
  | Some [id] => if method === "GET" then Some (o_show id) else if method === "PATCH" then Some (o_update id) else None
  | Some [id; second] =>
      if id === EmptyString then None
      else if (second === "switch") && (method === "POST") then Some (o_switch id)
      else if (id === "invitations") && (second === "accept") && (method === "POST") then Some o_accept
      else if (second === "members") && (method === "GET") then Some (o_members id)
      else if (second === "invitations") && (method === "POST") then Some (o_invite id)
      else None
  | Some [id; second; third] =>
      if (id === EmptyString) || (third === EmptyString) then None
      else if second === "members" then
        if method === "PATCH" then Some (o_change_role id third) else if method === "DELETE" then Some (o_remove_member id third) else None
      else if (second === "invitations") && (method === "DELETE") then Some (o_revoke_invitation id third)
      else None
  | _ => None
  end.

Definition serveRoute (route : OrganizationsRoute) amb request : Proc Exchange (Success OrganizationsData) :=
  let param name := withInput (admin_schemas.uuidParam formats) (JStr name) in
  match route with
  | o_index => withAuth replies amb request (fun amb auth => index auth)
  | o_create => withAuth replies amb request (fun amb auth =>
      withBody admin_schemas.createOrganizationSchema request (create amb request auth))
  | o_switch id => withAuth replies amb request (fun amb auth => param id (switchTo amb request auth))
  | o_accept => withAuth replies amb request (fun amb auth =>
      withBody admin_schemas.acceptInvitationSchema request (accept amb request auth))
  | o_show id => withPermission replies "organizations:read" scope_organization amb request (fun amb auth => param id (show auth))
  | o_update id => withPermission replies "organizations:write" scope_organization amb request (fun amb auth =>
      param id (fun id => withBody admin_schemas.updateOrganizationSchema request (update amb request auth id)))
  | o_members id => withPermission replies "members:read" scope_organization amb request (fun amb auth =>
      param id (fun id => withInput (admin_schemas.listQuery formats) (api_query request) (members auth id)))
  | o_change_role id userId => withPermission replies "members:write" scope_organization amb request (fun amb auth =>
      param id (fun id => param userId (fun userId =>
      withBody (admin_schemas.changeMemberRoleSchema formats) request (changeRole amb request auth id userId))))
  | o_remove_member id userId => withPermission replies "members:write" scope_organization amb request (fun amb auth =>
      param id (fun id => param userId (removeMemberHandler amb request auth id)))
  | o_invite id => withPermission replies "invitations:write" scope_organization amb request (fun amb auth =>
      param id (fun id => withBody (admin_schemas.createInvitationSchema formats) request (invite amb request auth id)))
  | o_revoke_invitation id invitationId => withPermission replies "invitations:write" scope_organization amb request (fun amb auth =>
      param id (fun id => param invitationId (revokeInvite amb request auth id)))
  end.

Definition serveOrganizations (now : Z) request (x : Exchange) : Reply OrganizationsData * Exchange :=
  serveRequest replies routeOf (fun route amb => serveRoute route amb request) now request x.
End OrganizationsApi.
End organizations_api.
