(* ===== verification/AdminApiSpec.v ===== *)
(** * What the users, roles and organizations APIs guarantee

    A request is answered only for who holds the permission of its route: in the organization the path names for what
    manages an organization, platform-wide for what manages the platform. *)

From Stdlib Require Import ZArith Lia Bool.
From stdpp Require Import gmap strings.
From S2P Require Import Prelude Store Database JsString JsonText Platform Request AuditTrail Sessions SessionsSpec Otp Passwords Account Organizations Roles AccessControl PermissionsSpec ClientIp RateLimit RateLimitSpec Users Guards Http HttpSpec AuthApi AdminApi.

Open Scope string_scope.

Section AdminApi.
Context `{Platform} `{Redis}.
Variables (formats : Formats) (listing : UserListing) (token iv : string) (replies : GuardReplies).
Implicit Types (amb : Ambient) (request : ApiRequest) (w : World) (x : Exchange) (state : AuthState).

(** ** What each route asks for *)

(** The permission a route needs, and the organization its path names. *)
Definition managed (route : OrganizationsRoute) : option (string * string) :=
  match route with
  | o_show id => Some ("organizations:read", id)
  | o_update id => Some ("organizations:write", id)
  | o_members id => Some ("members:read", id)
  | o_change_role id _ | o_remove_member id _ => Some ("members:write", id)
  | o_invite id | o_revoke_invitation id _ => Some ("invitations:write", id)
  | o_index | o_create | o_switch _ | o_accept => None
  end.

(** The platform permission a route needs; the other routes are about the caller's own account. *)
Definition usersPermission (route : UsersRoute) : option string :=
  match route with u_index => Some "users:read" | u_update _ => Some "users:write" | _ => None end.
Definition rolesPermission (route : RolesRoute) : string :=
  match route with ro_index => "roles:read" | _ => "roles:write" end.

(** What the guards read is not stale and is well formed: the permission cache has no wrong entry, and identifiers are as
    the program draws them. *)
Definition guardsSound amb request x : Prop :=
  coherent (ex_world x) (ex_permissions x) /\ forall state, actingAs amb request (ex_world x) state -> PermissionsSpec.wellFormed state.

(** ** The organizations *)

Lemma gated_scope state organizationId w (k : unit -> Proc Exchange (Success OrganizationsData)) :
  gated (auth_organizationId state = Some organizationId) w (organizations_api.assertOrganizationScope state organizationId ≫= k).
Proof.
  apply gated_lift. intros a Ha. apply gated_open. destruct (auth_organizationId state === Some organizationId) eqn:E; [by bools|done].
Qed.

(** The path's identifier is a UUID, and the parsed parameter is it. *)
Lemma gated_param {A} P w name (k : string -> Proc Exchange A) : gated P w (k name) ->
  gated P w (withInput (admin_schemas.uuidParam formats) (JStr name) k).
Proof. intros Hk. apply gated_input. intros s Hs. cbn in Hs. destruct (fmt_isUuid formats name); [|done]. by injection Hs as ->. Qed.

(** What a managed route's handler checks, whatever its inputs. *)
Definition managedState amb request x (code organizationId : string) state : Prop :=
  actingAs amb request (ex_world x) state /\ granted replies code scope_organization state (ex_world x) (ex_permissions x)
  /\ auth_organizationId state = Some organizationId.

Lemma organizations_gated route amb request x : gatedFrom
  (exists state, actingAs amb request (ex_world x) state
     /\ match managed route with Some (code, id) => managedState amb request x code id state | None => True end)
  (ex_world x) (ex_permissions x) (organizations_api.serveRoute formats token iv replies route amb request).
Proof.
  assert (Hown : forall handler : Ambient -> AuthState -> Proc Exchange (Success OrganizationsData), gatedFrom (exists state, actingAs amb request (ex_world x) state /\ True)
    (ex_world x) (ex_permissions x) (withAuth replies amb request handler)).
  { intros handler. apply gatedFrom_auth. intros amb' state _. by apply gated_from, gated_open. }
  assert (Hmanaged : forall code id (handler : Ambient -> AuthState -> Proc Exchange (Success OrganizationsData)),
    (forall amb' state, gated (auth_organizationId state = Some id) (ex_world x) (handler amb' state)) ->
    gatedFrom (exists state, actingAs amb request (ex_world x) state /\ managedState amb request x code id state)
      (ex_world x) (ex_permissions x) (withPermission replies code scope_organization amb request handler)).
  { intros code id handler Hh. eapply gatedFrom_impl.
    - apply (gatedFrom_permission _ _ _ _ _ _ _ (fun state => auth_organizationId state = Some id)). intros amb' state _. apply Hh.
    - intros (state & Ha & Hg & Ho). by exists state. }
  destruct route; cbn [organizations_api.serveRoute managed]; try apply Hown; apply Hmanaged; intros amb' state.
  all: apply gated_param; try apply gated_scope.
  all: repeat first [apply gated_scope | apply gated_param | apply gated_input; intros ? _].
Qed.

(** What a managed route's guards found is so now. *)
Lemma managedState_grants amb request x code id state : guardsSound amb request x -> managedState amb request x code id state ->
  auth_organizationId state = Some id /\ hasOrganizationGrant (auth_userId state) id code (ex_world x) = true.
Proof.
  intros [Hco Hwf] (Ha & Hg & Ho). split; [done|]. destruct (granted_now _ _ _ _ _ _ _ _ Ha (Hwf _ Ha) Hco Hg) as [Hd Ht].
  unfold permissionDecision in Hd. rewrite Ho in Hd, Ht. rewrite Ht in Hd by done. by cbn in Hd.
Qed.

(** An organization is read and managed only from within. Every request that names an organization is refused, the
    database as it was, unless it comes from a live session whose active organization is the one the path names, and
    its user holds the permission of the route through a role of their active membership there, now. A grant of the
    platform, or of another organization, is never enough. *)
Theorem organization_managed_from_within now request x : guardsSound (requestAmbient now request) request x ->
  refusal (ex_world x) (organizations_api.serveOrganizations formats token iv replies now request x)
  \/ letIn replies now request (ex_limits x)
     /\ exists route state, organizations_api.routeOf (api_web request) = Some route
        /\ actingAs (requestAmbient now request) request (ex_world x) state
        /\ match managed route with
           | Some (code, organizationId) => auth_organizationId state = Some organizationId
               /\ hasOrganizationGrant (auth_userId state) organizationId code (ex_world x) = true
           | None => True
           end.
Proof.
  intros Hs.
  destruct (serveRequest_gated replies organizations_api.routeOf
    (fun route amb => organizations_api.serveRoute formats token iv replies route amb request) now request x _
    (fun route => organizations_gated route _ _ _)) as [Hr|(Hl & route & Hr & state & Ha & Hm)]; [by left|right].
  split; [done|]. exists route, state. split; [done|]. split; [done|]. destruct (managed route) as [[code id]|]; [|done].
  by apply (managedState_grants _ _ _ _ _ _ Hs Hm).
Qed.

(** ** The platform *)

Lemma platform_gated {D} code amb request x (handler : Ambient -> AuthState -> Proc Exchange (Success D)) : gatedFrom
  (exists state, actingAs amb request (ex_world x) state /\ granted replies code scope_global state (ex_world x) (ex_permissions x) /\ True)
  (ex_world x) (ex_permissions x) (withPermission replies code scope_global amb request handler).
Proof. apply gatedFrom_permission. intros amb' state _. by apply gated_open. Qed.

(** Acting with a grant that no organization gives. *)
Definition platformGrant amb request w (code : string) : Prop :=
  exists state, actingAs amb request w state /\ hasGlobalGrant (auth_userId state) code w = true.

Lemma granted_platform code amb request x : guardsSound amb request x ->
  (exists state, actingAs amb request (ex_world x) state /\ granted replies code scope_global state (ex_world x) (ex_permissions x) /\ True) ->
  platformGrant amb request (ex_world x) code.
Proof.
  intros [Hco Hwf] (state & Ha & Hg & _). exists state. split; [done|].
  destruct (granted_now _ _ _ _ _ _ _ _ Ha (Hwf _ Ha) Hco Hg) as [Hd _]. unfold permissionDecision in Hd.
  rewrite !bd_refl in Hd. cbn in Hd. by rewrite andb_false_r in Hd.
Qed.

(** What manages the platform (every route over roles, the list of users and the update of a user) is answered only
    for a live session whose user holds the permission by a platform role, now; a role of an organization never counts.
    The other routes over users are answered only for a live session. *)
Theorem platform_administration now request x : let amb := requestAmbient now request in
  guardsSound amb request x ->
  (refusal (ex_world x) (roles_api.serveRoles formats replies now request x)
   \/ exists route, roles_api.routeOf (api_web request) = Some route /\ platformGrant amb request (ex_world x) (rolesPermission route))
  /\ (refusal (ex_world x) (users_api.serveUsers formats listing replies now request x)
      \/ exists route, users_api.routeOf (api_web request) = Some route
         /\ match usersPermission route with
            | Some code => platformGrant amb request (ex_world x) code
            | None => exists state, actingAs amb request (ex_world x) state
            end).
Proof.
  intros amb Hs. split.
  - destruct (serveRequest_gated replies roles_api.routeOf
      (fun route amb => roles_api.serveRoute formats replies route amb request) now request x
      (fun route => platformGrant amb request (ex_world x) (rolesPermission route))) as [Hr|(_ & Hr)]; [|by left|by right].
    intros route. eapply gatedFrom_impl; [|by apply granted_platform]. destruct route; apply platform_gated.
  - destruct (serveRequest_gated replies users_api.routeOf
      (fun route amb => users_api.serveRoute formats listing replies route amb request) now request x
      (fun route => match usersPermission route with
                    | Some code => platformGrant amb request (ex_world x) code
                    | None => exists state, actingAs amb request (ex_world x) state
                    end)) as [Hr|(_ & Hr)]; [|by left|by right].
    intros route. destruct route; cbn [users_api.serveRoute usersPermission].
    all: try (eapply gatedFrom_impl; [apply platform_gated|by apply granted_platform]).
    all: eapply gatedFrom_impl; [apply (gatedFrom_auth _ _ _ _ _ (fun _ => True)); intros; by apply gated_from, gated_open|].
    all: intros (state & Ha & _); by exists state.
Qed.
End AdminApi.

Section Witnesses.
Local Existing Instance demoPlatform.

Definition anyFormat : Formats := mkFormats (fun _ => true) (fun _ => true) (fun _ => None).
Definition anyListing : UserListing := mkUserListing (fun _ l => l) (fun _ _ => true).
Definition answered : GuardReplies := mkGuardReplies Replies Replies true true.

(** The owners' role reads and writes the organization; nobody holds a platform role. *)
Definition ownerWorld : World := sessionWorld
  <| permissions := [mkPermission "p1" "organizations:read" None None; mkPermission "p2" "organizations:write" None None] |>
  <| rolePermissions := [mkRolePermission "rp1" "r-owner" "p1" None; mkRolePermission "rp2" "r-owner" "p2" None] |>.
Definition byOwner (method path : string) (body : Json) : ApiRequest :=
  mkApiRequest (mkWebRequest method path [("authorization", "Bearer " ++ (loginToken ??? ""))] [] [] body)
    (mkHttpRequest (Some (JStr "req")) (Some "203.0.113.7") None None) (JObj []).
Definition atOwner : Exchange := arrival ownerWorld idle ∅.
Definition organizationsReply request := organizations_api.serveOrganizations anyFormat "tok" "iv" answered 5000 request atOwner.
Definition rename : Json := JObj [("name", JStr " Acme Ltd ")].

Example own_organization_renamed : let served := organizationsReply (byOwner "PATCH" "/api/v1/organizations/o1" rename) in
  rp_status (fst served) = 200%Z /\ List.map org_name (organizations (ex_world (snd served))) = ["Acme Ltd"].
Proof. vm_compute. by split. Qed.
Example other_organization_refused : let served := organizationsReply (byOwner "PATCH" "/api/v1/organizations/o2" rename) in
  rp_status (fst served) = 403%Z /\ ex_world (snd served) = ownerWorld.
Proof. vm_compute. by split. Qed.
Example platform_refused :
  rp_code (fst (roles_api.serveRoles anyFormat answered 5000 (byOwner "GET" "/api/v1/roles" JNull) atOwner)) = Some FORBIDDEN.
Proof. vm_compute. reflexivity. Qed.

Lemma owner_acts method path body state : actingAs demoNow (byOwner method path body) ownerWorld state ->
  state = mkAuthState "u1" "s1" 0 (Some "o1") (Some 0%Z).
Proof. intros [amb' Ha]. unfold resolveAccessToken in Ha. vm_compute in Ha. by injection Ha as <- <-. Qed.

Lemma owner_sound method path body : guardsSound demoNow (byOwner method path body) atOwner.
Proof.
  split; [apply coherent_empty|]. intros state ->%owner_acts. split; [reflexivity|]. cbn. repeat split; try discriminate. by eexists.
Qed.

Lemma organization_managed_from_within_witness : let request := byOwner "PATCH" "/api/v1/organizations/o1" rename in
  refusal ownerWorld (organizationsReply request)
  \/ letIn answered 5000 request idle
     /\ exists route state, organizations_api.routeOf (api_web request) = Some route
        /\ actingAs demoNow request ownerWorld state
        /\ match managed route with
           | Some (code, organizationId) => auth_organizationId state = Some organizationId
               /\ hasOrganizationGrant (auth_userId state) organizationId code ownerWorld = true
           | None => True
           end.
Proof. exact (organization_managed_from_within anyFormat "tok" "iv" answered 5000 (byOwner "PATCH" "/api/v1/organizations/o1" rename) atOwner (owner_sound _ _ _)). Defined.

Lemma platform_administration_witness : let request := byOwner "GET" "/api/v1/roles" JNull in
  refusal ownerWorld (roles_api.serveRoles anyFormat answered 5000 request atOwner)
  \/ exists route, roles_api.routeOf (api_web request) = Some route /\ platformGrant demoNow request ownerWorld (rolesPermission route).
Proof. exact (proj1 (platform_administration anyFormat anyListing answered 5000 (byOwner "GET" "/api/v1/roles" JNull) atOwner (owner_sound _ _ _))). Defined.
End Witnesses.
