(* ===== verification/BillingApi.v ===== *)
(** * The billing API

    modules/stripe/stripe.schemas.ts, stripe.controller.ts and stripe.routes.ts, over the services of Stripe,
    StripeCharges, StripeRefunds, StripeMethods and StripeWebhooks and the replay records of Idempotency. The Stripe
    client, zod's formats and coercion, and what a request draws are parameters. *)

From Stdlib Require Import ZArith Lia Bool.
From S2P Require Import Prelude Store Database JsString JsonText Platform Request AuditTrail Tenancy Pagination AccessControl ClientIp RateLimit Idempotency Stripe StripeCharges StripeRefunds StripeMethods StripeWebhooks Guards Http AuthApi AdminApi.

Open Scope string_scope.

(** ** stripe.schemas.ts *)

Module billing_schemas.
Section Schemas.
(** [isUrl] is [z.url()]. *)
Variables (formats : Formats) (isUrl : string -> bool).

Definition redirectUrl (value : option Json) : option string :=
  admin_schemas.matching isUrl (schemas.text 0 2048 value).
(** [/^[a-z][a-z0-9_-]{0,63}$/] *)
Definition isPriceKey (s : string) : bool :=
  match s with
  | String c rest =>
      admin_schemas.isLower c && (String.length rest <=? 63)%nat
      && str_forallb (fun c => admin_schemas.isLower c || isDigit c || (c === "_"%char) || (c === "-"%char)) rest
  | EmptyString => false
  end.
Definition priceKey (value : option Json) : option string := admin_schemas.matching isPriceKey (admin_schemas.trimmedText value).
Definition wholeNumber (lo : Z) (value : option Json) : option Z :=
  v ← value; n ← fmt_coerceInt formats v; if (lo <=? n)%Z then Some n else None.

(** The fields of a parsed object that are there. *)
Definition given (key : string) (value : option string) : list (string * Json) :=
  match value with Some v => [(key, JStr v)] | None => [] end.

(** What a schema parses, with the parsed object as [runIdempotent] fingerprints it. *)
Definition checkoutSessionSchema : Json -> option (CheckoutInput * Json) := schemas.object (fun l =>
  mode ← admin_schemas.withDefault "payment" (admin_schemas.enum [("payment", "payment"); ("subscription", "subscription")]) (assoc "mode" l);
  key ← schemas.optional priceKey (assoc "priceKey" l);
  quantity ← admin_schemas.withDefault 1%Z (fun v => n ← wholeNumber 1 v; if (n <=? 100)%Z then Some n else None) (assoc "quantity" l);
  successUrl ← schemas.optional redirectUrl (assoc "successUrl" l);
  cancelUrl ← schemas.optional redirectUrl (assoc "cancelUrl" l);
  code ← schemas.optional (admin_schemas.trimmed 1 100) (assoc "promotionCode" l);
  (* strict *)
  if List.forallb (fun f => mem (fst f) ["mode"; "priceKey"; "quantity"; "successUrl"; "cancelUrl"; "promotionCode"]) l
  then Some (mkCheckoutInput mode key quantity successUrl cancelUrl code,
    JObj ([("mode", JStr mode)] ++ given "priceKey" key ++ [("quantity", JNum quantity)] ++ given "successUrl" successUrl
          ++ given "cancelUrl" cancelUrl ++ given "promotionCode" code)%list)
  else None).

(** The [idempotency-key] header. *)
Definition idempotencyKey (header : Json) : option string := admin_schemas.trimmed 8 200 (Some header).

Definition billingListQuerySchema : Json -> option (option string * nat) := schemas.object (fun l =>
  c ← schemas.optional (admin_schemas.trimmed 1 255) (assoc "cursor" l); n ← admin_schemas.pageSize formats (assoc "limit" l); Some (c, n)).
Definition paymentListQuerySchema : Json -> option CursorPaginationInput := schemas.object (fun l =>
  n ← admin_schemas.pageSize formats (assoc "limit" l);
  c ← schemas.optional (admin_schemas.uuid formats) (assoc "cursor" l); Some (mkCursorInput c n)).
(** A path parameter that is an identifier of Stripe. *)
Definition stripeId (s : Json) : option string := schemas.text 1 255 (Some s).
Definition trimmedStripeId (s : Json) : option string := admin_schemas.trimmed 1 255 (Some s).
Definition subscriptionChangeSchema : Json -> option (string * string) := schemas.object (fun l =>
  key ← priceKey (assoc "priceKey" l);
  proration ← admin_schemas.withDefault "create_prorations" (admin_schemas.enum [("always_invoice", "always_invoice");
    ("create_prorations", "create_prorations"); ("none", "none")]) (assoc "prorationBehavior" l); Some (key, proration)).
Definition billingPortalSchema : Json -> option (option string) := schemas.object (fun l =>
  schemas.optional redirectUrl (assoc "returnUrl" l)).
Definition refundSchema : Json -> option RefundInput := schemas.object (fun l =>
  intent ← schemas.optional (schemas.text 1 255) (assoc "paymentIntentId" l);
  charge ← schemas.optional (schemas.text 1 255) (assoc "chargeId" l);
  amount ← schemas.optional (wholeNumber 1) (assoc "amount" l);
  if xorb (is_set intent) (is_set charge) then Some (mkRefundInput intent charge amount) else None).
Definition promotionCodeSchema : Json -> option string := schemas.object (fun l => admin_schemas.trimmed 1 100 (assoc "code" l)).
Definition boolField (value : option Json) : option bool := match value with Some (JBool b) => Some b | _ => None end.
Definition createChargeSchema : Json -> option (CreateChargeInput * Json) := schemas.object (fun l =>
  reference ← admin_schemas.trimmed 1 200 (assoc "reference" l);
  save ← schemas.optional boolField (assoc "savePaymentMethod" l);
  method ← schemas.optional (admin_schemas.uuid formats) (assoc "paymentMethodId" l);
  returnUrl ← schemas.optional redirectUrl (assoc "returnUrl" l);
  Some (mkCreateChargeInput reference (save ??? false) method returnUrl,
    JObj ([("reference", JStr reference)] ++ (match save with Some b => [("savePaymentMethod", JBool b)] | None => [] end)
          ++ given "paymentMethodId" method ++ given "returnUrl" returnUrl)%list)).
End Schemas.
End billing_schemas.

(** ** What the services answer, as JSON *)

Module billing_views.
Definition orNull (value : option string) : Json := match value with Some s => JStr s | None => JNull end.
Definition dateOrNull (value : option Z) : Json := match value with Some t => JStr (toISOString t) | None => JNull end.
Definition numberOrNull (value : option Z) : Json := match value with Some n => JNum n | None => JNull end.

Definition createdSession (s : CheckoutSession) : Json :=
  JObj [("id", JStr (cs_id s)); ("url", orNull (cs_url s)); ("mode", JStr (cs_mode s)); ("paymentStatus", JStr (cs_payment_status s))].
Definition canceledSubscription (s : Subscription) : Json :=
  JObj [("id", JStr (ss_id s)); ("status", JStr (ss_status s)); ("cancelAtPeriodEnd", JBool (ss_cancel_at_period_end s));
        ("canceledAt", dateOrNull (unixDate (ss_canceled_at s)))].
Definition resumedSubscription (s : Subscription) : Json :=
  JObj [("id", JStr (ss_id s)); ("status", JStr (ss_status s)); ("cancelAtPeriodEnd", JBool (ss_cancel_at_period_end s))].
Definition changedSubscription (s : Subscription) : Json :=
  JObj [("id", JStr (ss_id s)); ("status", JStr (ss_status s)); ("priceId", orNull (si_price <$> firstItem s));
        ("cancelAtPeriodEnd", JBool (ss_cancel_at_period_end s))].
Definition portalSession (s : string * string) : Json := JObj [("id", JStr (fst s)); ("url", JStr (snd s))].
Definition setupIntent (s : SetupIntent) : Json :=
  JObj [("id", JStr (sui_id s)); ("clientSecret", orNull (sui_client_secret s)); ("status", JStr (sui_status s))].
(** [paymentMethodSelect] *)
Definition paymentMethod (m : PaymentMethod) : Json :=
  JObj [("id", JStr (pm_id m)); ("stripePaymentMethodId", JStr (pm_stripePaymentMethodId m)); ("type", JStr (pm_type m));
        ("brand", orNull (pm_brand m)); ("last4", orNull (pm_last4 m)); ("expMonth", numberOrNull (pm_expMonth m));
        ("expYear", numberOrNull (pm_expYear m)); ("isDefault", JBool (pm_isDefault m));
        ("createdAt", JStr (toISOString (pm_createdAt m)))].
Definition charge (c : ChargeResult) : Json :=
  JObj [("id", JStr (cr_id c)); ("status", JStr (cr_status c)); ("amount", JNum (cr_amount c)); ("currency", JStr (cr_currency c));
        ("requiresAction", JBool (cr_requiresAction c)); ("clientSecret", orNull (cr_clientSecret c))].
End billing_views.

(** ** stripe.controller.ts *)

Inductive BillingData :=
  | bd_response (response : Json) | bd_session (s : CheckoutSession) | bd_subscriptions (l : list SubscriptionView)
  | bd_refund (r : RefundResult) | bd_promotion (p : PromotionResult) | bd_payments (l : list StripePayment)
  | bd_methods (l : list PaymentMethod) | bd_charge (c : ChargeResult) | bd_received (duplicate : bool).

Module billing_controller.
Section Controller.
Context `{Platform} `{Redis}.
(** [iv] is drawn for the stored response. *)
Variables (stripeClient : option StripeClient) (resolver : ChargeableResolver) (iv : string).
Implicit Types (amb : Ambient) (request : ApiRequest) (auth : AuthState) (key : string).

(** [runIdempotent] with [idempotencyActorKey(request)], and the header that says whether the answer was replayed. *)
Definition once amb auth key (scope : string) (fingerprint : Json) (operation : Proc World (Z * Json)) : Proc Exchange IdempotentResult :=
  actorKey ← lift (idempotencyActorKey (mkIdempotentRequest (Some (auth_userId auth)) (auth_organizationId auth) None));
  result ← inWorld (runIdempotent amb iv (mkIdempotencyInput actorKey scope key fingerprint None) operation);
  setHeader "Idempotency-Replayed" (if ir_replayed result then "true" else "false");;
  mret result.
(** [operation: async () => ({ statusCode, response: await service(...) })] *)
Definition responding {A} (statusCode : Z) (view : A -> Json) (service : Proc World A) : Proc World (Z * Json) :=
  result ← service; mret (statusCode, view result).

Definition receive amb (rawBody signature : option string) : Proc Exchange (Success BillingData) :=
  match rawBody with
  | None => throw (errors.badRequest "Expected raw webhook body")
  | Some rawBody =>
      if negb (truthy signature) then throw (errors.badRequest "Missing Stripe-Signature header")
      else
        duplicate ← inWorld (verifyAndStoreStripeEvent amb rawBody (signature ??? "") stripeClient);
        mret (answerWith 200 (if duplicate : bool then "Webhook already received" else "Webhook received") (bd_received duplicate))
  end.

Definition checkout amb auth key (input : CheckoutInput * Json) : Proc Exchange (Success BillingData) :=
  result ← once amb auth key "stripe.checkout-session.create" (snd input)
    (responding 201 billing_views.createdSession (createCheckoutSession amb (auth_userId auth) (fst input) key stripeClient));
  mret (answerWith (ir_statusCode result) "Checkout session created" (bd_response (ir_response result))).

Definition checkoutStatus amb auth (sessionId : string) : Proc Exchange (Success BillingData) :=
  session ← inWorld (getCheckoutSession amb (auth_userId auth) sessionId stripeClient);
  mret (answerWith 200 COMPLETED (bd_session session)).

Definition nextCursorMeta (cursor : option string) : list (string * Json) := [("nextCursor", billing_views.orNull cursor)].

Definition subscriptions amb auth (query : option string * nat) : Proc Exchange (Success BillingData) :=
  result ← inWorld (listSubscriptions amb (auth_userId auth) (fst query) (Z.of_nat (snd query)) stripeClient);
  mret (mkSuccess 200 COMPLETED (Some (bd_subscriptions (fst result))) (nextCursorMeta (snd result))).

Definition subscriptionParams (subscriptionId : string) : list (string * Json) := [("subscriptionId", JStr subscriptionId)].

Definition cancel amb auth key (subscriptionId : string) : Proc Exchange (Success BillingData) :=
  result ← once amb auth key "stripe.subscription.cancel" (JObj (subscriptionParams subscriptionId))
    (responding 200 billing_views.canceledSubscription (cancelSubscription amb (auth_userId auth) subscriptionId stripeClient key));
  mret (answerWith 200 "Subscription cancellation scheduled" (bd_response (ir_response result))).

Definition resume amb auth key (subscriptionId : string) : Proc Exchange (Success BillingData) :=
  result ← once amb auth key "stripe.subscription.resume" (JObj (subscriptionParams subscriptionId))
    (responding 200 billing_views.resumedSubscription (resumeSubscription amb (auth_userId auth) subscriptionId stripeClient key));
  mret (answerWith 200 "Subscription cancellation removed" (bd_response (ir_response result))).

Definition changePlan amb auth key (subscriptionId : string) (body : string * string) : Proc Exchange (Success BillingData) :=
  let fingerprint := JObj (subscriptionParams subscriptionId ++ [("priceKey", JStr (fst body)); ("prorationBehavior", JStr (snd body))])%list in
  result ← once amb auth key "stripe.subscription.change" fingerprint
    (responding 200 billing_views.changedSubscription
       (changeSubscriptionPrice amb (auth_userId auth) subscriptionId (fst body) (snd body) stripeClient key));
  mret (answerWith 200 "Subscription plan changed" (bd_response (ir_response result))).

Definition portal amb auth key (returnUrl : option string) : Proc Exchange (Success BillingData) :=
  result ← once amb auth key "stripe.billing-portal.create" (JObj (billing_schemas.given "returnUrl" returnUrl))
    (responding 201 billing_views.portalSession (createBillingPortalSession amb (auth_userId auth) returnUrl stripeClient key));
  mret (answerWith 201 "Billing portal session created" (bd_response (ir_response result))).

Definition refund amb request auth key (input : RefundInput) : Proc Exchange (Success BillingData) :=
  result ← inWorld (createRefund amb (auth_userId auth) input key (metadataOf request) stripeClient);
  mret (answerWith 201 "Refund created" (bd_refund result)).

Definition promotionCode auth (code : string) : Proc Exchange (Success BillingData) :=
  result ← inWorld (validatePromotionCode (auth_userId auth) code stripeClient); mret (answerWith 200 COMPLETED (bd_promotion result)).

Definition payments amb auth (query : CursorPaginationInput) : Proc Exchange (Success BillingData) :=
  page ← inWorld (listPayments amb (auth_userId auth) query);
  mret (mkSuccess 200 COMPLETED (Some (bd_payments (page_items page))) (nextCursorMeta (page_nextCursor page))).

Definition setupIntent amb auth key : Proc Exchange (Success BillingData) :=
  result ← once amb auth key "stripe.setup-intent.create" (JObj [])
    (responding 201 billing_views.setupIntent (createSetupIntent amb (auth_userId auth) stripeClient key));
  mret (answerWith 201 "Setup intent created" (bd_response (ir_response result))).

Definition paymentMethods amb auth : Proc Exchange (Success BillingData) :=
  methods ← inWorld (listPaymentMethods amb (auth_userId auth)); mret (answerWith 200 COMPLETED (bd_methods methods)).

Definition methodParams (paymentMethodId : string) : Json := JObj [("paymentMethodId", JStr paymentMethodId)].

Definition setDefaultPaymentMethod amb request auth key (paymentMethodId : string) : Proc Exchange (Success BillingData) :=
  result ← once amb auth key "stripe.payment-method.default" (methodParams paymentMethodId)
    (responding 200 billing_views.paymentMethod
       (StripeMethods.setDefaultPaymentMethod amb (auth_userId auth) paymentMethodId stripeClient (metadataOf request) key));
  mret (answerWith 200 "Default payment method updated" (bd_response (ir_response result))).

Definition detachPaymentMethod amb request auth key (paymentMethodId : string) : Proc Exchange (Success BillingData) :=
  _ ← once amb auth key "stripe.payment-method.detach" (methodParams paymentMethodId)
    (responding 200 (fun _ => JObj [("detached", JBool true)])
       (StripeMethods.detachPaymentMethod amb (auth_userId auth) paymentMethodId stripeClient (metadataOf request) key));
  mret (answer 200 "Payment method removed").

Definition charge amb auth key (input : CreateChargeInput * Json) : Proc Exchange (Success BillingData) :=
  result ← once amb auth key "stripe.charge.create" (snd input)
    (responding 201 billing_views.charge (createCharge amb (auth_userId auth) (fst input) key stripeClient resolver));
  mret (answerWith (ir_statusCode result) "Charge created" (bd_response (ir_response result))).

Definition chargeStatus amb auth (paymentIntentId : string) : Proc Exchange (Success BillingData) :=
  result ← inWorld (getCharge amb (auth_userId auth) paymentIntentId stripeClient);
  mret (answerWith 200 COMPLETED (bd_charge result)).
End Controller.
End billing_controller.

(** ** stripe.routes.ts *)

Inductive BillingRoute :=
  | b_checkout | b_resume (subscriptionId : string) | b_change (subscriptionId : string) | b_portal | b_checkout_status (sessionId : string)
  | b_subscriptions | b_cancel (subscriptionId : string) | b_payments | b_refund | b_setup_intent | b_methods
  | b_default_method (paymentMethodId : string) | b_detach_method (paymentMethodId : string) | b_charge
  | b_charge_status (paymentIntentId : string) | b_promotion.

Module billing_api.
Section BillingApi.
Context `{Platform} `{Redis}.
Variables (formats : Formats) (isUrl : string -> bool) (stripeClient : option StripeClient) (resolver : Ambient -> ChargeableResolver)
  (iv : string) (replies : GuardReplies).
Implicit Types (amb : Ambient) (request : ApiRequest).

(** The routes, which app.ts mounts when billing is on. *)
Definition routeOf (request : WebRequest) : option BillingRoute :=
  let method := web_method request in
  match (if BILLING_ENABLED env then segmentsBelow "/api/v1/billing" request else None) with
  | Some [first] =>
      if (first === "subscriptions") && (method === "GET") then Some b_subscriptions
      else if (first === "payments") && (method === "GET") then Some b_payments
      else if (first === "refunds") && (method === "POST") then Some b_refund
      else if (first === "setup-intents") && (method === "POST") then Some b_setup_intent
      else if (first === "payment-methods") && (method === "GET") then Some b_methods
      else if (first === "charges") && (method === "POST") then Some b_charge
      else None
  | Some [first; second] =>
      if second === EmptyString then None
      else if (first === "checkout") && (second === "sessions") && (method === "POST") then Some b_checkout
      else if (first === "subscriptions") && (method === "PATCH") then Some (b_change second)
      else if (first === "portal") && (second === "sessions") && (method === "POST") then Some b_portal
      else if (first === "payment-methods") && (method === "DELETE") then Some (b_detach_method second)
      else if (first === "charges") && (method === "GET") then Some (b_charge_status second)
      else if (first === "promotion-codes") && (second === "validate") && (method === "POST") then Some b_promotion
      else None
  | Some [first; second; third] =>
      if (second === EmptyString) || (third === EmptyString) then None
      else if (first === "subscriptions") && (third === "resume") && (method === "POST") then Some (b_resume second)
      else if (first === "checkout") && (second === "sessions") && (method === "GET") then Some (b_checkout_status third)
      else if (first === "subscriptions") && (third === "cancel") && (method === "POST") then Some (b_cancel second)
      else if (first === "payment-methods") && (third === "default") && (method === "POST") then Some (b_default_method second)
      else None
  | _ => None
  end.

(** [billingRead] and [billingWrite] *)
Definition billingGuards (code : string) amb request (handler : Ambient -> AuthState -> Proc Exchange (Success BillingData))
    : Proc Exchange (Success BillingData) :=
  if BILLING_OWNER env === Billing_organization then withPermission replies code scope_organization amb request handler
  else withAuth replies amb request handler.
Definition permissionOf (route : BillingRoute) : string :=
  match route with
  | b_checkout_status _ | b_subscriptions | b_payments | b_methods | b_charge_status _ | b_promotion => "billing:read"
  | _ => "billing:write"
  end.

Definition withKey request (handler : string -> Proc Exchange (Success BillingData)) : Proc Exchange (Success BillingData) :=
  withInput billing_schemas.idempotencyKey (match header "idempotency-key" (api_web request) with Some h => JStr h | None => JNull end) handler.
Definition withParam (schema : Json -> option string) (name : string) (handler : string -> Proc Exchange (Success BillingData)) :=
  withInput schema (JStr name) handler.

(** [validateRequest(...), controller.handler] of a route. *)
Definition handle (route : BillingRoute) request amb (auth : AuthState) : Proc Exchange (Success BillingData) :=
  match route with
  | b_checkout => withKey request (fun key =>
      withBody (billing_schemas.checkoutSessionSchema formats isUrl) request (billing_controller.checkout stripeClient iv amb auth key))
  | b_resume id => withKey request (fun key =>
      withParam billing_schemas.stripeId id (billing_controller.resume stripeClient iv amb auth key))
  | b_change id => withKey request (fun key =>
      withParam billing_schemas.stripeId id (fun id =>
      withBody billing_schemas.subscriptionChangeSchema request (billing_controller.changePlan stripeClient iv amb auth key id)))
  | b_portal => withKey request (fun key =>
      withBody (billing_schemas.billingPortalSchema isUrl) request (billing_controller.portal stripeClient iv amb auth key))
  | b_checkout_status id => withParam billing_schemas.stripeId id (billing_controller.checkoutStatus stripeClient amb auth)
  | b_subscriptions =>
      withInput (billing_schemas.billingListQuerySchema formats) (api_query request) (billing_controller.subscriptions stripeClient amb auth)
  | b_cancel id => withKey request (fun key =>
      withParam billing_schemas.stripeId id (billing_controller.cancel stripeClient iv amb auth key))
  | b_payments => withInput (billing_schemas.paymentListQuerySchema formats) (api_query request) (billing_controller.payments amb auth)
  | b_refund => withKey request (fun key =>
      withBody (billing_schemas.refundSchema formats) request (billing_controller.refund stripeClient amb request auth key))
  | b_setup_intent => withKey request (billing_controller.setupIntent stripeClient iv amb auth)
  | b_methods => billing_controller.paymentMethods amb auth
  | b_default_method id => withKey request (fun key =>
      withParam (admin_schemas.uuidParam formats) id (billing_controller.setDefaultPaymentMethod stripeClient iv amb request auth key))
  | b_detach_method id => withKey request (fun key =>
      withParam (admin_schemas.uuidParam formats) id (billing_controller.detachPaymentMethod stripeClient iv amb request auth key))
  | b_charge => withKey request (fun key =>
      withBody (billing_schemas.createChargeSchema formats isUrl) request
        (billing_controller.charge stripeClient (resolver amb) iv amb auth key))
  | b_charge_status id => withParam billing_schemas.trimmedStripeId id (billing_controller.chargeStatus stripeClient amb auth)
  | b_promotion => withBody billing_schemas.promotionCodeSchema request (billing_controller.promotionCode stripeClient auth)
  end.

Definition serveRoute (route : BillingRoute) amb request : Proc Exchange (Success BillingData) :=
  billingGuards (permissionOf route) amb request (handle route request).

Definition serveBilling (now : Z) request (x : Exchange) : Reply BillingData * Exchange :=
  serveRequest replies routeOf (fun route amb => serveRoute route amb request) now request x.

(** The webhook is mounted above the ceiling and the CSRF check: its signature is its authorization. [rawBody] is what
    [express.raw] read, a buffer when the body was JSON. *)
Definition serveWebhook (now : Z) request (rawBody : option string) (x : Exchange) : Reply BillingData * Exchange :=
  respond (requestContext (http_id (api_http request))
    (fun amb => billing_controller.receive stripeClient amb rawBody (header "stripe-signature" (api_web request))) (mkAmbient now None) x).
End BillingApi.
End billing_api.
