(* ===== verification/ChargesSpec.v ===== *)
(** * What a charge sends

    stripe.charges.service.ts, [createCharge]: whatever the other requests do meanwhile, the payment
    intent asked of Stripe carries the amount and currency of the item it reserved, within the
    configured bounds, and is asked for at most once. *)

From Stdlib Require Import ZArith Lia Bool.
From stdpp Require Import relations.
From S2P Require Import Prelude Store Database JsString JsonText Platform Request TenantScope Stripe StripeCharges StripeWebhooks StripeSpec.

Open Scope string_scope.

Definition intentApi : string := "paymentIntents.create".

(** The requests sent since [c0], none of which creates a payment intent. *)
Definition quiet (c0 : list Call) (w : World) : Prop :=
  exists l, calls w = (c0 ++ l)%list /\ List.Forall (fun c => call_api c <> intentApi) l.

Definition itemIds (w : World) : list string := List.map item_id (chargeableItems w).

(** The item is held under the key, at the price [c]. *)
Definition heldAt (userId reference hash : string) (c : ChargeableAmount) (id : string) (i : ChargeableItem) : Prop :=
  item_id i = id /\ item_reference i = reference /\ ca_amount c = item_amount i
  /\ ca_currency c = toLowerCase (item_currency i)
  /\ (truthy (item_userId i) = true -> item_userId i = Some userId)
  /\ item_reservationKeyHash i = Some hash /\ (item_status i = Item_RESERVED \/ item_status i = Item_CONSUMED).

Definition holds_item userId reference hash c id (w : World) : Prop :=
  exists i, In i (chargeableItems w) /\ heldAt userId reference hash c id i.

(** The amount is one the deployment allows in that currency. *)
Definition withinBounds `{Platform} (c : ChargeableAmount) : Prop :=
  (1 <= ca_amount c)%Z /\ In (ca_currency c) (CHARGE_ALLOWED_CURRENCIES env)
  /\ (exists maximum, assoc (ca_currency c) (CHARGE_MAX_AMOUNT_BY_CURRENCY env) = Some maximum
                      /\ (ca_amount c <= maximum)%Z)
  /\ (forall minimum, assoc (ca_currency c) (CHARGE_MIN_AMOUNT_BY_CURRENCY env) = Some minimum ->
                      (minimum <= ca_amount c)%Z).

Section Charges.
Context `{Platform}.

Lemma quiet_call c0 w call : call_api call <> intentApi -> quiet c0 w ->
  quiet c0 (w <| calls ::= fun l => (l ++ [call])%list |>).
Proof.
  intros Hc (l & Hl & Hq). exists (l ++ [call])%list. cbn. rewrite Hl, app_assoc. split; [done|].
  apply List.Forall_app; auto.
Qed.

Lemma bounds_ok c : assertChargeableWithinBounds (normalised c) = Ok tt -> withinBounds (normalised c).
Proof.
  unfold assertChargeableWithinBounds, withinBounds, normalised. cbn [ca_amount ca_currency].
  rewrite toLowerCase_idem. intros Hb.
  destruct (ca_amount c <? 1)%Z eqn:E1; [done|]. destruct (mem _ _) eqn:E2; cbn in Hb; [|done].
  destruct (assoc _ (CHARGE_MAX_AMOUNT_BY_CURRENCY env)) as [m|] eqn:E3; [|done].
  destruct (m <? ca_amount c)%Z eqn:E4; [done|]. apply mem_In in E2. bools.
  repeat split; [lia|done|exists m; split; [done|lia]|]. intros mn Hmn. rewrite Hmn in Hb.
  destruct (_ <? _)%Z eqn:E5; [done|]. bools. lia.
Qed.

(** Everything before the payment intent is quiet and leaves the items to the reservation. *)
Lemma pres_ensureCustomer (I : World -> Prop) amb userId client :
  (forall w f, I w -> I (w <| users ::= f |>)) -> (forall w f, I w -> I (w <| organizations ::= f |>)) ->
  (forall w call, call_api call <> intentApi -> I w -> I (w <| calls ::= fun l => (l ++ [call])%list |>)) ->
  proc_pres I (ensureCustomer amb userId client).
Proof.
  intros Hu Ho Hc. unfold ensureCustomer, getBillingOrganization, getBillingUser, lift, storedCustomer. pres.
  all: try (apply pres_provider; intros w; by apply Hc).
  all: apply pres_update_unique; intros w Hw _; (by apply Ho) || (by apply Hu).
Qed.


(** ** The reservation *)

Lemma ids_update P f w : (forall i, item_id (f i) = item_id i) ->
  List.map item_id (updateWhere P f (chargeableItems w)) = itemIds w.
Proof. intros Hf. apply map_updateWhere. auto. Qed.

Lemma ids_unique amb o P f n w w' : (forall i, item_id (f i) = item_id i) ->
  sc_updateMany_unique (R := ChargeableItem) amb o P f w = Ok (n, w') -> itemIds w' = itemIds w.
Proof.
  intros Hf. unfold sc_updateMany_unique. intros Hr. tx_inv Hr.
  unfold tx_updateMany_unique in Hr. destruct (clashes _ _ _); [done|]. injection Hr as _ <-. by apply ids_update.
Qed.

Lemma step_ids w w' : item_step w w' -> List.NoDup (itemIds w) -> List.NoDup (itemIds w').
Proof.
  destruct 1 as [amb id key n w w' Hr|amb id key p ok n w w' Hr|amb p id key st n w w' Hr|amb o i i' w w' Hr|w w' He];
    intros Hnd.
  - unfold reserveStatement, sc_updateMany in Hr. tx_inv Hr. apply updateMany_ok in Hr as [_ ->].
    unfold itemIds. cbn. by rewrite ids_update.
  - apply ids_unique in Hr; [by rewrite Hr|by destruct ok].
  - unfold projectStatus in Hr. revert Hr. case_bool_decide; [|case_bool_decide]; intros Hr;
      (apply ids_unique in Hr; [by rewrite Hr|done]).
  - unfold sc_create in Hr. tx_inv Hr. apply create_ok in Hr as (_ & -> & Hc).
    unfold itemIds. cbn. rewrite List.map_app. apply List.NoDup_app; [done|repeat constructor; auto|].
    intros k Hk [<-|[]]. apply List.in_map_iff in Hk as (x & Hx & Hin). apply Hc in Hin. cbn in Hin.
    by rewrite Hx, bd_refl in Hin.
  - unfold itemIds in *. by rewrite He.
Qed.

Lemma steps_ids w w' : rtc item_step w w' -> List.NoDup (itemIds w) -> List.NoDup (itemIds w').
Proof. induction 1; eauto using step_ids. Qed.

Lemma owner_ok now i userId : assertItemOwnerAndExpiry now i userId = Ok tt ->
  truthy (item_userId i) = true -> item_userId i = Some userId.
Proof.
  unfold assertItemOwnerAndExpiry. destruct (opt_le _ _); [done|]. intros Ha Ht. rewrite Ht in Ha.
  destruct (item_userId i !== Some userId) eqn:E; [done|]. by bools.
Qed.

Lemma heldAt_item userId reference hash i j :
  item_reference i = reference -> (truthy (item_userId i) = true -> item_userId i = Some userId) ->
  sameItem i j -> item_reservationKeyHash j = Some hash ->
  (item_status j = Item_RESERVED \/ item_status j = Item_CONSUMED) ->
  heldAt userId reference hash (itemAmount reference i) (item_id i) j.
Proof.
  intros Hr Hu (H1 & H2 & H3 & H4 & H5 & H6 & H7) Hk Hs. unfold heldAt, itemAmount.
  cbn [ca_amount ca_currency]. rewrite H1, H3, H4, H5, H6. auto 10.
Qed.

(** An item this statement reserved is the one with that identifier. *)
Lemma reserveStatement_ok amb i hash w w' : List.NoDup (itemIds w) -> In i (chargeableItems w) ->
  reserveStatement amb (item_id i) hash w = Ok (1, w') ->
  exists j, In j (chargeableItems w') /\ sameItem i j /\ item_reservationKeyHash j = Some hash
    /\ item_status j = Item_RESERVED.
Proof.
  unfold reserveStatement, sc_updateMany. intros Hnd Hi Hr. tx_inv Hr.
  apply updateMany_ok in Hr as [Hc ->]. symmetry in Hc.
  match type of Hc with countWhere ?P _ = 1 => assert (Hp : 0 < countWhere P (chargeableItems s)) by (change (table s) with (chargeableItems s) in Hc; lia) end.
  apply countWhere_pos in Hp as (r & Hin & HP).
  assert (r = i) as ->.
  { eapply (NoDup_key_inj item_id); [done|done|done|]. cbn in HP. by bools. }
  eexists. split; [|split; [|split]].
  - apply In_updateWhere. exists i. split; [done|]. by rewrite HP.
  - by repeat split.
  - done.
  - done.
Qed.

Lemma reserveAttempts_ok meanwhile amb reference userId hash n k w rc w' :
  (forall n w, rtc item_step w (meanwhile n w)) -> List.NoDup (itemIds w) ->
  reserveAttempts meanwhile amb reference userId hash n k w = (Ok rc, w') ->
  rc_reservationKeyHash rc = hash /\ holds_item userId reference hash (rc_chargeable rc) (rc_reservationId rc) w'.
Proof.
  intros Hm. revert k w. induction n as [|n IH]; intros k w Hnd Hr; [done|]. cbn [reserveAttempts] in Hr.
  apply proc_bind_ok in Hr as (i & w1 & H1 & Hr). apply transact_ok in H1. unfold findItem, sc_findFirst in H1.
  tx_inv H1. apply findFirst_ok in H0 as (-> & Hi & _ & HP). bools.
  apply proc_bind_ok in Hr as ([] & w2 & H3 & Hr). apply transact_ok, lift_ok in H3 as [Hown ->].
  pose proof (owner_ok _ _ _ Hown) as Hu. case_bool_decide as Es.
  { case_bool_decide as Ek; cbn in Hr; [|done]. apply proc_ret_ok in Hr as [<- <-]. split; [done|].
    exists i. split; [done|]. apply heldAt_item; auto. by repeat split. }
  case_bool_decide as Eo; cbn in Hr; [|done].
  apply proc_bind_ok in Hr as ([] & w3 & [= <-] & Hr).
  destruct (steps_path _ _ i (Hm k w2) Hi) as (j & Hj & [Hij _]).
  pose proof (steps_ids _ _ (Hm k w2) Hnd) as Hnd'.
  apply proc_bind_ok in Hr as (c & w4 & H4 & Hr). apply transact_ok in H4.
  destruct (c =? 1)%nat eqn:Ec; cbn in Hr.
  - apply proc_ret_ok in Hr as [<- <-]. apply Nat.eqb_eq in Ec as ->. split; [done|].
    rewrite <- (proj1 Hij) in H4. apply reserveStatement_ok in H4 as (x & Hx & Hjx & Hk & Hs); [|done|done].
    exists x. split; [done|]. apply heldAt_item; auto. unfold sameItem in *. intuition congruence.
  - eapply IH; [|done]. eapply step_ids; [by eapply is_reserve|done].
Qed.

Lemma reserveChargeable_ok meanwhile amb reference userId hash w rc w' :
  (forall n w, rtc item_step w (meanwhile n w)) -> List.NoDup (itemIds w) ->
  reserveChargeable (chargeableItemResolver meanwhile amb) reference userId hash w = (Ok rc, w') ->
  rc_reservationKeyHash rc = hash /\ withinBounds (rc_chargeable rc)
  /\ holds_item userId reference hash (rc_chargeable rc) (rc_reservationId rc) w'.
Proof.
  intros Hm Hnd Hr. unfold reserveChargeable in Hr. cbn [reserve chargeableItemResolver] in Hr.
  apply proc_bind_ok in Hr as ([] & w1 & H1 & Hr). apply transact_ok, lift_ok in H1 as [_ ->].
  apply proc_bind_ok in Hr as (c & w2 & H2 & Hr). apply (reserveAttempts_ok _ _ _ _ _ _ _ _ _ _ Hm Hnd) in H2 as [Hk Hh].
  apply proc_bind_ok in Hr as ([] & w3 & H3 & Hr). apply transact_ok, lift_ok in H3 as [Hb ->].
  apply proc_ret_ok in Hr as [<- <-]. split; [done|]. split; [by apply bounds_ok|].
  destruct Hh as (i & Hi & H4 & H5 & H6 & H7 & H8). exists i. split; [done|]. unfold heldAt, normalised in *.
  cbn. rewrite H7, toLowerCase_idem. auto 10.
Qed.

Lemma pres_reserveChargeable c0 meanwhile amb reference userId hash :
  (forall n w, calls (meanwhile n w) = calls w) ->
  proc_pres (quiet c0) (reserveChargeable (chargeableItemResolver meanwhile amb) reference userId hash).
Proof.
  intros Hm. assert (Ha : forall n k, proc_pres (quiet c0) (reserveAttempts meanwhile amb reference userId hash n k)).
  { induction n as [|n IH]; intros k; cbn [reserveAttempts]; [auto with pres|].
    unfold lift, findItem, reserveStatement. pres; try done. intros w (l & Hl & Hq). exists l. cbn. by rewrite Hm. }
  unfold reserveChargeable, lift. cbn [reserve chargeableItemResolver]. pres.
Qed.

(** ** The payment intent *)

Lemma pres_recordItemPayment userId reference hash c id c1 meanwhile amb rc p :
  proc_pres (fun w => calls w = c1 /\ holds_item userId reference hash c id w)
    (persistIntent (chargeableItemResolver meanwhile amb) rc p).
Proof.
  unfold persistIntent. cbn [recordPaymentIntent chargeableItemResolver]. unfold recordItemPayment, recordStatement. pres.
  apply pres_sc_updateMany_unique. intros Q. apply pres_updateMany_unique.
  intros w (Hc & i & Hi & Hh) _. split; [done|].
  eexists. split; [cbn; apply In_updateWhere; eauto|].
  match goal with |- heldAt _ _ _ _ _ (if ?b then _ else _) => destruct b end; [|done].
  unfold heldAt in *. by destruct (pi_status p === "succeeded"); cbn; intuition.
Qed.

Lemma createPaymentIntent_run userId reference hash c id meanwhile amb client rc params key w r w' :
  holds_item userId reference hash c id w ->
  createPaymentIntent client (chargeableItemResolver meanwhile amb) rc params key w = (r, w') ->
  calls w' = (calls w ++ [mkCall intentApi (Some key) params])%list /\ holds_item userId reference hash c id w'.
Proof.
  intros Hh Hr. unfold createPaymentIntent in Hr. apply proc_bind_run in Hr as [(e & [=] & _)|(a & w1 & H1 & Hr)].
  injection H1 as _ <-. revert Hr. apply proc_pres_run with (I := fun w' => calls w' = _ /\ holds_item userId reference hash c id w');
    [|by split]. pres; apply pres_recordItemPayment.
Qed.

(** Before the reservation, nothing touches the items. *)
Definition untouched (c0 : list Call) (w : World) : Prop := quiet c0 w /\ List.NoDup (itemIds w).

Lemma pres_before c0 amb userId client : proc_pres (untouched c0) (ensureCustomer amb userId client).
Proof.
  apply pres_ensureCustomer; [done|done|]. intros w call Hc [Hq Hn]. split; [by apply quiet_call|done].
Qed.
Lemma pres_assertOwned (I : World -> Prop) amb userId m : proc_pres I (assertPaymentMethodOwned amb userId m).
Proof. unfold assertPaymentMethodOwned, lift. pres. Qed.

(** C23: A charge asks Stripe for the server's price. Whatever other requests reserve, pay, project and
    create meanwhile, and however it ends, [createCharge] sends at most one request to create a payment
    intent; that request carries the amount and the currency of the item it names by reference, both
    within the deployment's bounds; and when it returns that item, which belongs to the caller where it
    names a user, is held under the hash of the caller's own idempotency key. *)
Theorem charge_sends_server_price meanwhile amb userId input key client w r w' :
  (forall n w, rtc item_step w (meanwhile n w)) -> (forall n w, calls (meanwhile n w) = calls w) ->
  List.NoDup (itemIds w) ->
  createCharge amb userId input key client (chargeableItemResolver meanwhile amb) w = (r, w') ->
  quiet (calls w) w' \/
  exists before c id hash owner k params,
    calls w' = (calls w ++ before ++ [mkCall intentApi (Some k) params])%list
    /\ List.Forall (fun call => call_api call <> intentApi) before
    /\ jget "amount" params = Some (JNum (ca_amount c)) /\ jget "currency" params = Some (JStr (ca_currency c))
    /\ withinBounds c /\ resolveBillingOwner amb userId = Ok owner
    /\ hashMetadata ("chargeable-reservation:" ++ billingOwnerKey owner ++ ":" ++ key) = Ok hash
    /\ holds_item userId (cci_reference input) hash c id w'.
Proof.
  intros Hm Hmc Hnd Hr. unfold createCharge, lift in Hr.
  assert (H0 : untouched (calls w) w) by (split; [exists []; by rewrite app_nil_r|done]).
  apply (proc_bind_pres (untouched (calls w))) in Hr as [(e & -> & [? _])|(cl & w1 & H1 & _ & Hr)];
    [by left| |pres|done]. apply transact_ok, lift_ok in H1 as [_ ->].
  apply (proc_bind_pres (untouched (calls w1))) in Hr as [(e & -> & [? _])|(owner & w2 & H1 & _ & Hr)];
    [by left| |pres|done]. apply transact_ok, lift_ok in H1 as [Howner ->].
  apply (proc_bind_pres (untouched (calls w2))) in Hr as [(e & -> & [? _])|(customer & w3 & _ & H1 & Hr)];
    [by left| |apply pres_before|done].
  apply (proc_bind_pres (untouched (calls w2))) in Hr as [(e & -> & [? _])|(saved & w4 & _ & H2 & Hr)];
    [by left| |pres; apply pres_assertOwned|done].
  apply (proc_bind_pres (untouched (calls w2))) in Hr as [(e & -> & [? _])|(hash & w5 & H3 & _ & Hr)];
    [by left| |pres|done]. apply transact_ok, lift_ok in H3 as [Hhash ->].
  destruct H2 as [Hq Hids].
  apply (proc_bind_pres (quiet (calls w2))) in Hr as [(e & -> & ?)|(rc & w6 & Hrc & Hq6 & Hr)];
    [by left| |by apply pres_reserveChargeable|done].
  apply reserveChargeable_ok in Hrc as (Hk & Hb & Hh); [|done|done].
  set (I := fun w => quiet (calls w2) w /\ holds_item userId (cci_reference input) hash (rc_chargeable rc) (rc_reservationId rc) w).
  assert (H6 : I w6) by done.
  apply (proc_bind_pres I) in Hr as [(e & -> & [? _])|(url & w7 & _ & H7 & Hr)]; [by left| |pres|done].
  apply (proc_bind_pres I) in Hr as [(e & -> & [? _])|(kh & w8 & _ & H8 & Hr)]; [by left| |pres|done].
  destruct H8 as [(before & Hc & Hq8) H8]. eapply createPaymentIntent_run in Hr as [Hcalls Hheld]; [|done].
  right. rewrite Hc, <- app_assoc in Hcalls.
  exists before, (rc_chargeable rc), (rc_reservationId rc), hash, owner.
  do 2 eexists. split; [exact Hcalls|]. split; [done|]. split; [reflexivity|]. split; [reflexivity|]. done.
Qed.
End Charges.

Section Witness.
Local Existing Instance demoPlatform.

Definition demoIntent : PaymentIntent := mkPaymentIntent "pi_1" "requires_action" 2500 "usd" (Some "secret") (Some "cus_1") [] 1 0 None.
Definition unavailable : Error := Failure "not asked".
(** A Stripe client that answers the calls of a charge. *)
Definition demoClient : StripeClient := {|
  customers_create _ _ _ := Ok "cus_1"; customers_update _ _ _ _ := Ok tt;
  paymentIntents_create _ _ _ := inl demoIntent; paymentIntents_retrieve _ _ := Ok demoIntent;
  charges_retrieve _ _ := Err unavailable; refunds_create _ _ _ := Err unavailable;
  setupIntents_create _ _ _ := Err unavailable; paymentMethods_detach _ _ _ := Err unavailable;
  promotionCodes_list _ _ := Err unavailable; coupons_retrieve _ _ := Err unavailable;
  checkout_sessions_create _ _ _ := Err unavailable; checkout_sessions_retrieve _ _ := Err unavailable;
  billingPortal_sessions_create _ _ _ := Err unavailable; subscriptions_list _ _ := Err unavailable;
  subscriptions_retrieve _ _ := Err unavailable; subscriptions_update _ _ _ _ := Err unavailable;
  subscriptions_cancel _ _ := Err unavailable; webhooks_constructEvent _ _ _ := Err unavailable;
  retrieve_object _ _ _ := Err unavailable
|}.
Definition demoUser : User :=
  mkUser "u1" (Some "a@example.com") None None None "en" None None 0 User_ACTIVE (Some 1%Z) None None 0 None.
Definition demoShop : World := emptyWorld <| users := [demoUser] |> <| chargeableItems := [demoItem] |>.
Definition demoInput : CreateChargeInput := mkCreateChargeInput "invoice-7" false None None.

(** Another request reserves the item first: nothing is asked of Stripe; alone, the charge goes through. *)
Definition stolen (n : nat) (w : World) : World :=
  match reserveStatement (demoRequest 10) "item-1" "other" w with Ok (_, w') => w' | Err _ => w end.

Example charge_sends_server_price_witness : exists r w',
  createCharge (demoRequest 10) "u1" demoInput "key-1" (Some demoClient)
    (chargeableItemResolver stolen (demoRequest 10)) demoShop = (r, w') /\
  (quiet (calls demoShop) w' \/
   exists before c id hash owner k params,
    calls w' = (calls demoShop ++ before ++ [mkCall intentApi (Some k) params])%list
    /\ List.Forall (fun call => call_api call <> intentApi) before
    /\ jget "amount" params = Some (JNum (ca_amount c)) /\ jget "currency" params = Some (JStr (ca_currency c))
    /\ withinBounds c /\ resolveBillingOwner (demoRequest 10) "u1" = Ok owner
    /\ hashMetadata ("chargeable-reservation:" ++ billingOwnerKey owner ++ ":" ++ "key-1") = Ok hash
    /\ holds_item "u1" (cci_reference demoInput) hash c id w')
  /\ option_map (fun c => jget "amount" (call_params c)) (List.nth_error (calls (snd
      (createCharge (demoRequest 10) "u1" demoInput "key-1" (Some demoClient)
        (chargeableItemResolver (fun _ w => w) (demoRequest 10)) demoShop))) 1) = Some (Some (JNum 2500)).
Proof.
  destruct (createCharge (demoRequest 10) "u1" demoInput "key-1" (Some demoClient)
    (chargeableItemResolver stolen (demoRequest 10)) demoShop) as [r w'] eqn:E.
  exists r, w'. split; [done|]. split; [|vm_compute; reflexivity].
  apply (charge_sends_server_price stolen (demoRequest 10) "u1" demoInput "key-1" (Some demoClient) demoShop r w').
  - intros n w. unfold stolen. destruct (reserveStatement _ _ _ w) as [[k w1]|] eqn:Er; [|apply rtc_refl].
    apply rtc_once. by eapply is_reserve.
  - intros n w. unfold stolen. destruct (reserveStatement _ _ _ w) as [[k w1]|] eqn:Er; [|done].
    unfold reserveStatement, sc_updateMany in Er. tx_inv Er. by apply updateMany_ok in Er as [_ ->].
  - repeat constructor. intros [].
  - exact E.
Defined.
End Witness.
