(* ===== verification/WebhooksSpec.v ===== *)
(** * Payment projections do not depend on the order of delivery

    stripe.webhooks.service.ts, [upsertPayment]: Stripe delivers events in any order. Without an
    authoritative read of the object, the row of a payment ends with what the newest event reports. *)

From Stdlib Require Import ZArith Lia Bool Permutation.
From S2P Require Import Prelude Store Database JsString JsonText Platform Request TenantScope Stripe StripeWebhooks.

Open Scope string_scope.

(** ** The specification: the newest report is kept *)

Record Report := mkReport { rep_createdAt : Z; rep_eventId : string; rep_status : string }.

Definition report (e : PaymentInput * StripeProjectionCursor) : Report :=
  mkReport (cur_createdAt (snd e)) (cur_eventId (snd e)) (pin_status (fst e)).

Definition later (a b : Report) : bool :=
  (rep_createdAt a <? rep_createdAt b)%Z
  || ((rep_createdAt a =? rep_createdAt b)%Z && String.ltb (rep_eventId a) (rep_eventId b)).

Definition keepNewest (a b : Report) : Report := if later a b then b else a.
Definition newest (a : Report) (l : list Report) : Report := List.fold_left keepNewest l a.

(** What the row of a payment reports. *)
Definition lastReport (p : StripePayment) : option Report :=
  match pay_lastStripeEventCreatedAt p, pay_lastStripeEventId p with
  | Some t, Some i => Some (mkReport t i (pay_status p))
  | _, _ => None
  end.

Lemma later_trans a b c : later a b = true -> later b c = true -> later a c = true.
Proof.
  unfold later. rewrite !orb_true_iff, !andb_true_iff, !Z.ltb_lt, !Z.eqb_eq.
  intros [H1|[H1 H1']] [H2|[H2 H2']]; [left; lia|left; lia|left; lia|right].
  split; [lia|by eapply string_ltb_trans].
Qed.
Lemma later_irrefl a : later a a = false.
Proof. unfold later. by rewrite Z.ltb_irrefl, Z.eqb_refl, string_ltb_irrefl. Qed.
Lemma later_total a b : rep_eventId a <> rep_eventId b -> later a b = false -> later b a = true.
Proof.
  unfold later. intros Hne. rewrite orb_false_iff, andb_false_iff, Z.ltb_ge, Z.eqb_neq.
  intros [H1 H2]. rewrite orb_true_iff, andb_true_iff, Z.ltb_lt, Z.eqb_eq.
  destruct (Z.eq_dec (rep_createdAt a) (rep_createdAt b)) as [He|]; [right|left; lia].
  split; [done|]. destruct H2; [done|]. by apply string_ltb_total.
Qed.

Lemma keepNewest_comm a x y : rep_eventId x <> rep_eventId y ->
  keepNewest (keepNewest a x) y = keepNewest (keepNewest a y) x.
Proof.
  intros Hne. unfold keepNewest.
  destruct (later a x) eqn:Hx, (later a y) eqn:Hy; rewrite ?Hx, ?Hy; [| | |done].
  - destruct (later x y) eqn:Hxy, (later y x) eqn:Hyx; try done.
    + pose proof (later_trans _ _ _ Hxy Hyx) as Hc. by rewrite later_irrefl in Hc.
    + apply later_total in Hxy; [congruence|done].
  - destruct (later x y) eqn:Hxy; [|done]. by rewrite (later_trans _ _ _ Hx Hxy) in Hy.
  - destruct (later y x) eqn:Hyx; [|done]. by rewrite (later_trans _ _ _ Hy Hyx) in Hx.
Qed.

Lemma newest_Permutation a l l' : Permutation l l' -> List.NoDup (List.map rep_eventId l) -> newest a l = newest a l'.
Proof.
  unfold newest. intros Hp. revert a. induction Hp as [|x l l' _ IH|x y l|l1 l2 l3 H1 IH1 _ IH2]; intros a Hnd; cbn.
  - done.
  - apply List.NoDup_cons_iff in Hnd as [_ Hnd]. auto.
  - cbn in Hnd. apply List.NoDup_cons_iff in Hnd as [Hy _]. rewrite keepNewest_comm; [done|].
    intros He. apply Hy. by left.
  - rewrite IH1 by done. apply IH2. eapply Permutation_NoDup; [|done]. by apply Permutation_map.
Qed.

(** ** The statement on the table *)

Section Projection.
Context `{Platform}.
Variables (amb : Ambient) (reason : string) (attribution : StripeAttribution) (p : string).
Hypothesis Htrusted : reqContext amb = Some (Unscoped reason).

Definition projectAll (events : list (PaymentInput * StripeProjectionCursor)) : Tx World unit :=
  tx_for events (fun e => _ ← upsertPayment amb attribution (fst e) (snd e); mret tt).

(** Another payment: its unique columns are not those the events write. *)
Definition apart (r : StripePayment) (events : list (PaymentInput * StripeProjectionCursor)) (x : StripePayment) : Prop :=
  pay_id x <> pay_id r /\ pay_stripePaymentIntentId x <> Some p
  /\ (forall c, c = pay_checkoutSessionId r \/ (exists e, In e events /\ c = pin_checkoutSessionId (fst e)) ->
        same_some c (pay_checkoutSessionId x) = false)
  /\ (forall c, c = pay_chargeId r \/ (exists e, In e events /\ c = pin_chargeId (fst e)) ->
        same_some c (pay_chargeId x) = false).

Definition ofIntent (e : PaymentInput * StripeProjectionCursor) : Prop :=
  pin_paymentIntentId (fst e) = p /\ cur_authoritative (snd e) = false.

Definition setOwner (input : PaymentInput) (r : StripePayment) : StripePayment :=
  r <| pay_checkoutSessionId ::= orElse (pin_checkoutSessionId input) |>
    <| pay_userId := at_userId attribution |> <| pay_organizationId := at_organizationId attribution |>.

Definition projected (e : PaymentInput * StripeProjectionCursor) (r : StripePayment) : StripePayment :=
  let r' := setOwner (fst e) r in
  if projects (snd e) (pay_lastStripeEventId r) (pay_lastStripeEventCreatedAt r) then paymentData (fst e) (snd e) r' else r'.

Lemma lastReport_projected e r a : ofIntent e -> lastReport r = Some a ->
  lastReport (projected e r) = Some (keepNewest a (report e)).
Proof.
  intros [_ Hauth]. unfold lastReport, projected, projects, newer, keepNewest, later, report. rewrite Hauth.
  destruct (pay_lastStripeEventCreatedAt r) as [t|] eqn:Et; [|done].
  destruct (pay_lastStripeEventId r) as [i|] eqn:Ei; [|done]. intros [= <-]. cbn.
  destruct (_ || _); cbn; [done|]. by rewrite Et, Ei.
Qed.

Lemma orElse_cases {A} (a b : option A) : orElse a b = b \/ orElse a b = a.
Proof. destruct a; [by right|by left]. Qed.

(** Writing the unique columns of an event clashes with no other payment. *)
Lemma apart_clash e r r' x : apart r [e] x -> pay_id r' = pay_id r -> pay_stripePaymentIntentId r' = Some p ->
  (pay_checkoutSessionId r' = pay_checkoutSessionId r \/ pay_checkoutSessionId r' = pin_checkoutSessionId (fst e)) ->
  (pay_chargeId r' = pay_chargeId r \/ pay_chargeId r' = pin_chargeId (fst e)) -> clash r' x = false.
Proof.
  intros (Hid & Hpi & Hcs & Hch) H1 H2 H3 H4. cbn. rewrite H1, H2, (Hcs (pay_checkoutSessionId r')), (Hch (pay_chargeId r')).
  - rewrite bd_ne by congruence. cbn. destruct (pay_stripePaymentIntentId x) as [q|]; [|done]. cbn.
    rewrite bd_ne by congruence. done.
  - destruct H4; [by left|]. right. exists e. split; [by left|done].
  - destruct H3; [by left|]. right. exists e. split; [by left|done].
Qed.

Lemma upsertPayment_at e r pre post w : ofIntent e -> stripePayments w = (pre ++ r :: post)%list ->
  pay_stripePaymentIntentId r = Some p -> pay_deletedAt r = None ->
  (forall x, In x (pre ++ post)%list -> apart r [e] x) ->
  exists n w', upsertPayment amb attribution (fst e) (snd e) w = Ok (n, w')
    /\ stripePayments w' = (pre ++ projected e r :: post)%list.
Proof.
  intros [Hp Hauth] Hw Hr Hd Hx. unfold upsertPayment. rewrite (tx_step _ _ _ _ _ eq_refl).
  set (w1 := w <| drawn ::= S |>). set (r1 := setOwner (fst e) r).
  set (P1 := fun x => true && (pay_stripePaymentIntentId x === Some (pin_paymentIntentId (fst e)))).
  assert (H1 : forall x, In x (pre ++ post)%list -> P1 x = false).
  { intros x Hin. unfold P1. apply Hx in Hin as (_ & Hne & _). by rewrite Hp, bd_ne. }
  assert (Hr1 : P1 r = true) by (unfold P1; by rewrite Hr, Hp, bd_refl).
  assert (Hw1 : table w1 = (pre ++ r :: post)%list) by exact Hw.
  erewrite tx_step.
  2: { unfold sc_upsert_unique. rewrite (scopeUpsert_unscoped _ _ _ Htrusted). unfold mbind, tx_bind, tx_lift.
       cbn [fst snd]. unfold tx_upsert_unique. fold P1. rewrite Hw1.
       rewrite findFirst_at by done. rewrite clashes_at; [reflexivity|done|].
       intros x Hin. apply (apart_clash e r); [auto|done|exact Hr|apply orElse_cases|by left]. }
  fold r1. cbn beta.
  set (w2 := put (updateWhere P1 _) w1).
  assert (Hw2 : table w2 = (pre ++ r1 :: post)%list).
  { change (table w2) with (updateWhere P1 (setOwner (fst e)) (table w1)). rewrite Hw1, updateWhere_at by done. by rewrite Hr1. }
  set (P2 := fun x => true && ((pay_id x === pay_id r1)
                 && projects (snd e) (pay_lastStripeEventId x) (pay_lastStripeEventCreatedAt x))).
  assert (H2 : forall x, In x (pre ++ post)%list -> activeWhere P2 x = false).
  { intros x Hin. apply Hx in Hin as (Hne & _). unfold P2. cbn. by rewrite (bd_ne (pay_id x)), andb_false_r. }
  unfold sc_updateMany_unique. rewrite (tx_step _ _ w2 (fun _ => true) w2)
    by (unfold tx_lift; by rewrite (scopeFilter_unscoped _ _ _ Htrusted)).
  unfold tx_updateMany_unique. fold P2. rewrite Hw2, clashes_at; [|done|].
  - eexists _, _. split; [reflexivity|].
    transitivity (updateWhere (activeWhere P2) (paymentData (fst e) (snd e)) (table w2)); [reflexivity|].
    rewrite Hw2, updateWhere_at by done. f_equal. f_equal. cbn. rewrite Hd, bd_refl. cbn. unfold projected.
    by destruct (projects _ _ _).
  - intros x Hin. apply (apart_clash e r); [auto|done|exact Hr|apply orElse_cases|]. cbn. apply orElse_cases.
Qed.

Lemma apart_projected e r events x : apart r (e :: events) x -> apart (projected e r) events x.
Proof.
  assert (Hc : pay_checkoutSessionId (projected e r) = pay_checkoutSessionId r
               \/ pay_checkoutSessionId (projected e r) = pin_checkoutSessionId (fst e)).
  { unfold projected. destruct (projects _ _ _); apply orElse_cases. }
  assert (Hh : pay_chargeId (projected e r) = pay_chargeId r \/ pay_chargeId (projected e r) = pin_chargeId (fst e)).
  { unfold projected. destruct (projects _ _ _); [apply orElse_cases|by left]. }
  intros (H1 & H2 & H3 & H4). split; [|split; [done|split]].
  - unfold projected. by destruct (projects _ _ _).
  - intros c [->|(e' & He & ->)]; [|apply H3; right; exists e'; split; [by right|done]].
    apply H3. destruct Hc as [->| ->]; [by left|right; exists e; split; [by left|done]].
  - intros c [->|(e' & He & ->)]; [|apply H4; right; exists e'; split; [by right|done]].
    apply H4. destruct Hh as [->| ->]; [by left|right; exists e; split; [by left|done]].
Qed.

Lemma projectAll_run events r pre post w a : List.Forall ofIntent events ->
  stripePayments w = (pre ++ r :: post)%list -> pay_stripePaymentIntentId r = Some p -> pay_deletedAt r = None ->
  lastReport r = Some a -> (forall x, In x (pre ++ post)%list -> apart r events x) ->
  exists w' r', projectAll events w = Ok (tt, w') /\ stripePayments w' = (pre ++ r' :: post)%list
    /\ pay_id r' = pay_id r /\ lastReport r' = Some (newest a (List.map report events)).
Proof.
  intros Hall. revert w r a. induction Hall as [|e events He _ IH]; intros w r a Hw Hr Hd Ha Hx.
  { exists w, r. done. }
  destruct (upsertPayment_at e r pre post w) as (n & w1 & H1 & Hw1); try done.
  { intros x Hin. destruct (Hx x Hin) as (A & B & C & D). split; [done|]. split; [done|].
    split; intros c [Hc|(e' & [<-|[]] & Hc)]; (apply C || apply D); (by left) || (right; exists e; split; [by left|done]). }
  destruct (IH w1 (projected e r) (keepNewest a (report e))) as (w' & r' & H2 & Hw' & Hid & Hrep); try done.
  - unfold projected. by destruct (projects _ _ _).
  - unfold projected. by destruct (projects _ _ _).
  - by apply lastReport_projected.
  - intros x Hin. by apply apart_projected, Hx.
  - exists w', r'. split; [|split; [done|split; [|done]]].
    + unfold projectAll. cbn [tx_for]. erewrite tx_step; [exact H2|]. erewrite tx_step; [reflexivity|exact H1].
    + rewrite Hid. unfold projected. by destruct (projects _ _ _).
Qed.

End Projection.

Section Witness.
Local Existing Instance demoPlatform.

Definition demoPayment (id : string) (intent : string) : StripePayment :=
  mkStripePayment id None "u1" (Some intent) None None "processing" (Some 2500%Z) 0 (Some "usd") (Some "evt_a") (Some 5%Z) 1 None.
Definition demoEvent (id : string) (t : Z) (status : string) : PaymentInput * StripeProjectionCursor :=
  (mkPaymentInput "pi_1" None (Some "ch_1") status (Some 2500%Z) None (Some "usd"), mkCursor id t false).
Definition demoEvents := [demoEvent "evt_b" 7 "requires_action"; demoEvent "evt_c" 7 "succeeded"; demoEvent "evt_d" 6 "processing"].
Definition demoPayments : World :=
  emptyWorld <| stripePayments := [demoPayment "pay-0" "pi_0"; demoPayment "pay-1" "pi_1"] |>.
Definition job : Ambient := mkAmbient 9 (Some (Unscoped "stripe webhook")).

End Witness.
