(* ===== verification/BillingApiSpec.v ===== *)
(** * What the billing API guarantees

    Billing is managed by whom the deployment says: the members of the active organization who hold the permission, or
    the user. An operation that reaches Stripe runs once under its key: a retry gets the first answer back. *)

From Stdlib Require Import ZArith Lia Bool.
From stdpp Require Import gmap strings.
From S2P Require Import Prelude Store Database JsString JsonText Platform Request TenantScope AuditTrail Tenancy Pagination Sessions SessionsSpec AccessControl PermissionsSpec ClientIp RateLimit RateLimitSpec Idempotency IdempotencySpec Stripe StripeCharges StripeRefunds StripeMethods StripeWebhooks StripeSpec ChargesSpec Guards Http HttpSpec AuthApi AdminApi AdminApiSpec BillingApi.

Open Scope string_scope.

(** ** The operations leave the replay records alone *)

Section Frames.
Context `{Platform}.
Variable t : list IdempotencyRecord.
Definition recordsAre (w : World) : Prop := idempotencyRecords w = t.

Lemma records_provider {A} call (answer : nat -> res A) : proc_pres recordsAre (provider call answer).
Proof. by apply pres_provider. Qed.
Lemma records_ensureCustomer amb userId client : proc_pres recordsAre (ensureCustomer amb userId client).
Proof. by apply pres_ensureCustomer. Qed.

Lemma records_createCheckoutSession amb userId input key client : proc_pres recordsAre (createCheckoutSession amb userId input key client).
Proof. unfold createCheckoutSession, findPromotionCode, lift. pres; try apply records_ensureCustomer; apply records_provider. Qed.
Lemma records_setCancel kind flag amb userId id client key : proc_pres recordsAre (setCancelAtPeriodEnd kind flag amb userId id client key).
Proof. unfold setCancelAtPeriodEnd, ownedSubscription, updateSubscription, lift. pres; try apply records_ensureCustomer; apply records_provider. Qed.
Lemma records_changePrice amb userId id price proration client key :
  proc_pres recordsAre (changeSubscriptionPrice amb userId id price proration client key).
Proof. unfold changeSubscriptionPrice, ownedSubscription, updateSubscription, lift. pres; try apply records_ensureCustomer; apply records_provider. Qed.
Lemma records_portal amb userId url client key : proc_pres recordsAre (createBillingPortalSession amb userId url client key).
Proof. unfold createBillingPortalSession, lift. pres; try apply records_ensureCustomer; apply records_provider. Qed.
Lemma records_setupIntent amb userId client key : proc_pres recordsAre (createSetupIntent amb userId client key).
Proof. unfold createSetupIntent, lift. pres; try apply records_ensureCustomer; apply records_provider. Qed.
Lemma records_setDefault amb userId id client meta key : proc_pres recordsAre (setDefaultPaymentMethod amb userId id client meta key).
Proof.
  unfold setDefaultPaymentMethod, findOwnedPaymentMethod, makeDefault, lift.
  pres; try apply records_ensureCustomer; try apply records_provider.
Qed.
Lemma records_detach amb userId id client meta key : proc_pres recordsAre (detachPaymentMethod amb userId id client meta key).
Proof. unfold detachPaymentMethod, findOwnedPaymentMethod, lift. pres; apply records_provider. Qed.

(** What other requests commit while an item is being reserved. *)
Definition sparesRecords (meanwhile : nat -> World -> World) : Prop := forall n w, recordsAre w -> recordsAre (meanwhile n w).

Lemma records_reserve meanwhile amb reference userId hash n k : sparesRecords meanwhile ->
  proc_pres recordsAre (reserveAttempts meanwhile amb reference userId hash n k).
Proof.
  intros Hm. revert k. induction n as [|n IH]; intros k; cbn [reserveAttempts]; [pres|]. unfold findItem, reserveStatement, lift. pres.
  all: first [apply IH | intros w Hw; by apply Hm].
Qed.
Lemma records_createCharge meanwhile amb userId input key client : sparesRecords meanwhile ->
  proc_pres recordsAre (createCharge amb userId input key client (chargeableItemResolver meanwhile amb)).
Proof.
  intros Hm. unfold createCharge, assertPaymentMethodOwned, reserveChargeable, reserveItem, createPaymentIntent, persistIntent, lift.
  cbn [reserve recordPaymentIntent chargeableItemResolver]. unfold reserveItem, recordItemPayment, recordStatement, lift.
  pres; try apply records_ensureCustomer; try apply records_provider; try (by apply records_reserve).
Qed.
End Frames.

(** ** Retries *)

Section Retries.
Context `{Platform} `{Redis}.
Implicit Types (amb : Ambient) (request : ApiRequest) (w : World) (x : Exchange) (auth : AuthState).

(** The replay records as the table's keys make them: identifiers are unique, and a key has one record. *)
Definition recordsUnique (w : World) : Prop :=
  List.NoDup (List.map idem_id (idempotencyRecords w))
  /\ forall input hashes, idempotencyHashes (ii_key input) (ii_request input) = Ok hashes ->
       countWhere (activeWhere (recordWhere input hashes)) (idempotencyRecords w) <= 1.

(** The header of an answer: a fresh one, and a replayed one. *)
Definition freshAnswer x x1 : Prop := ex_headers x1 = (ex_headers x ++ [("Idempotency-Replayed", "false")])%list.
Definition replayedAnswer x x1 : Prop := ex_headers x1 = (ex_headers x ++ [("Idempotency-Replayed", "true")])%list.

(** [m2] is a retry of [m]: from the database a fresh answer of [m] left, it gives the same answer back, and all it
    changes is that an identifier was drawn for the lease it did not need. *)
Definition retries (m m2 : Proc Exchange (Success BillingData)) : Prop := forall x s x1 x',
  recordsUnique (ex_world x) -> m x = (Ok s, x1) -> freshAnswer x x1 -> ex_world x' = ex_world x1 ->
  exists x2, m2 x' = (Ok s, x2) /\ ex_world x2 = (ex_world x1) <| drawn ::= S |> /\ replayedAnswer x' x2.

Lemma retries_input {A} (schema : Json -> option A) input k k2 :
  (forall a, schema input = Some a -> retries (k a) (k2 a)) -> retries (withInput schema input k) (withInput schema input k2).
Proof.
  intros Hk x s x1 x' Hu Hm Hf Hx. unfold withInput, parseInput in *. destruct (schema input) as [a|] eqn:E; [|done].
  exact (Hk a eq_refl x s x1 x' Hu Hm Hf Hx).
Qed.

(** The result is used as what it answers, not as what it is. *)
Definition readsAnswer (finish : IdempotentResult -> Success BillingData) : Prop :=
  forall r r', ir_statusCode r = ir_statusCode r' -> ir_response r = ir_response r' -> finish r = finish r'.

Definition sameCaller auth auth2 : Prop := auth_userId auth2 = auth_userId auth /\ auth_organizationId auth2 = auth_organizationId auth.

Lemma retries_once {A} iv iv2 amb amb2 auth auth2 key scope fingerprint code (view : A -> Json) service operation2 finish :
  aeadLaws -> keyringValid -> noChar "." activeKeyId = true -> noChar "." iv = true ->
  (forall a, jsonOk (view a)) -> (forall t, proc_pres (recordsAre t) service) -> sameCaller auth auth2 -> readsAnswer finish ->
  (nowMs amb2 < nowMs amb + 24 * 60 * 60 * 1000)%Z ->
  retries (result ← billing_controller.once iv amb auth key scope fingerprint (billing_controller.responding code view service); mret (finish result))
    (result ← billing_controller.once iv2 amb2 auth2 key scope fingerprint operation2; mret (finish result)).
Proof.
  intros Hl Hv Hid Hiv Hok Hframe [Hsu Hso] Hfin Ht x s x1 x' [Hnd Hone] Hm Hf Hx.
  apply proc_bind_ok in Hm as (result & x2 & Ho & Hm). apply proc_ret_ok in Hm as [<- ->].
  unfold billing_controller.once in Ho. apply proc_bind_ok in Ho as (actorKey & x3 & Ha & Ho). apply lift_inv in Ha as [Ha ->].
  apply proc_bind_ok in Ho as (result' & x4 & Hrun & Ho). apply inWorld_ok in Hrun as (w1 & Hrun & ->).
  set (input := mkIdempotencyInput actorKey scope key fingerprint None) in *.
  apply proc_bind_ok in Ho as (u & x5 & Hh & Ho). apply proc_ret_ok in Ho as [-> ->]. injection Hh as _ <-.
  assert (Hfresh : ir_replayed result = false).
  { unfold freshAnswer in Hf. cbn in Hf. apply List.app_inv_head in Hf. by destruct (ir_replayed result). }
  assert (Hhash : exists hashes, idempotencyHashes key fingerprint = Ok hashes).
  { unfold runIdempotent in Hrun. apply proc_bind_ok in Hrun as (hashes & w2 & Hh & _). apply transact_ok, lift_ok in Hh as [Hh _]. by exists hashes. }
  destruct Hhash as [hashes Hhash].
  assert (Hreplay : runIdempotent amb2 iv2 input operation2 w1
    = (Ok (mkIdempotentResult (ir_statusCode result) (ir_response result) true), w1 <| drawn ::= S |>)).
  { eapply (leased_run_replayed amb amb2 iv iv2 input (billing_controller.responding code view service) operation2 hashes (ex_world x));
      try done; [| |by apply (Hone input hashes)].
    - intros s answer s' Hop. unfold billing_controller.responding in Hop. proc_inv Hop. apply Hok.
    - intros t. unfold billing_controller.responding. pres. }
  set (replay := mkIdempotentResult (ir_statusCode result) (ir_response result) true) in *.
  assert (Honce : billing_controller.once iv2 amb2 auth2 key scope fingerprint operation2 x'
    = (Ok replay, (x' <| ex_world := w1 <| drawn ::= S |> |>) <| ex_headers ::= fun l => (l ++ [("Idempotency-Replayed", "true")])%list |>)).
  { unfold billing_controller.once. rewrite Hsu, Hso, Ha. unfold lift at 1.
    apply proc_bind_ok. eexists _, _. split; [reflexivity|]. unfold input in Hreplay.
    apply proc_bind_ok. eexists _, _. split; [unfold inWorld; rewrite Hx; cbn; by rewrite Hreplay|].
    apply proc_bind_ok. eexists _, _. split; reflexivity. }
  eexists. split; [|split].
  - rewrite (proc_call _ _ _ _ _ Honce). unfold mret, proc_ret. by rewrite (Hfin replay result).
  - done.
  - done.
Qed.
End Retries.

(** ** The routes *)

Section Billing.
Context `{Platform} `{Redis}.
Variables (formats : Formats) (isUrl : string -> bool).
Implicit Types (amb : Ambient) (request : ApiRequest) (w : World) (x : Exchange) (state : AuthState).

(** The routes whose operation runs under [runIdempotent]. *)
Definition repeatable (route : BillingRoute) : bool :=
  match route with
  | b_checkout | b_resume _ | b_change _ | b_portal | b_cancel _ | b_setup_intent | b_default_method _ | b_detach_method _ | b_charge => true
  | _ => false
  end.

(** Who may use a route: in a deployment where organizations pay, who holds its permission in their active
    organization; else, the user for themselves. *)
Definition billingAllowed (route : BillingRoute) w state : Prop :=
  BILLING_OWNER env = Billing_organization ->
  exists o, auth_organizationId state = Some o /\ hasOrganizationGrant (auth_userId state) o (billing_api.permissionOf route) w = true.

Lemma billing_gated client resolver iv replies route amb request x : guardsSound amb request x -> gatedFrom
  (exists state, actingAs amb request (ex_world x) state /\ billingAllowed route (ex_world x) state)
  (ex_world x) (ex_permissions x) (billing_api.serveRoute formats isUrl client resolver iv replies route amb request).
Proof.
  intros [Hco Hwf]. unfold billing_api.serveRoute, billing_api.billingGuards, billingAllowed.
  destruct (BILLING_OWNER env === Billing_organization) eqn:E.
  - eapply gatedFrom_impl; [apply (gatedFrom_permission _ _ _ _ _ _ _ (fun _ => True)); intros; by apply gated_open|].
    intros (state & Ha & Hg & _). exists state. split; [done|]. intros _.
    destruct (granted_now _ _ _ _ _ _ _ _ Ha (Hwf _ Ha) Hco Hg) as [Hd Ht]. specialize (Ht eq_refl).
    unfold permissionDecision in Hd. rewrite Ht in Hd. cbn in Hd.
    destruct (auth_organizationId state) as [o|]; [|done]. by exists o.
  - eapply gatedFrom_impl; [apply (gatedFrom_auth _ _ _ _ _ (fun _ => True)); intros; by apply gated_from, gated_open|].
    intros (state & Ha & _). exists state. split; [done|]. intros Hb. by rewrite Hb in E.
Qed.

(** Billing is served to whom the deployment bills. Every request to the billing API is refused, the database as it
    was, unless it comes from a live session and, where organizations pay, its user holds the permission of the route
    through a role of their active membership in the session's organization. *)
Theorem billing_served_to_payer client resolver iv replies now request x :
  guardsSound (requestAmbient now request) request x ->
  refusal (ex_world x) (billing_api.serveBilling formats isUrl client resolver iv replies now request x)
  \/ letIn replies now request (ex_limits x)
     /\ exists route state, billing_api.routeOf (api_web request) = Some route
        /\ actingAs (requestAmbient now request) request (ex_world x) state /\ billingAllowed route (ex_world x) state.
Proof.
  intros Hs.
  destruct (serveRequest_gated replies billing_api.routeOf
    (fun route amb => billing_api.serveRoute formats isUrl client resolver iv replies route amb request) now request x _
    (fun route => billing_gated client resolver iv replies route _ _ _ Hs)) as [Hr|(Hl & route & Hr & state & Ha & Hb)]; [by left|right].
  split; [done|]. by exists route, state.
Qed.

(** ** A retried operation *)

(** The answers are JSON values: their objects name each key once. *)
Ltac json_ok :=
  cbn; unfold billing_views.orNull, billing_views.dateOrNull, billing_views.numberOrNull; repeat case_match;
  (split; [repeat (apply List.NoDup_cons; [intros Hin; cbn in Hin; intuition discriminate|]); apply List.NoDup_nil|repeat split]).

Lemma views_ok :
  (forall s, jsonOk (billing_views.createdSession s)) /\ (forall s, jsonOk (billing_views.canceledSubscription s))
  /\ (forall s, jsonOk (billing_views.resumedSubscription s)) /\ (forall s, jsonOk (billing_views.changedSubscription s))
  /\ (forall s, jsonOk (billing_views.portalSession s)) /\ (forall s, jsonOk (billing_views.setupIntent s))
  /\ (forall m, jsonOk (billing_views.paymentMethod m)) /\ (forall c, jsonOk (billing_views.charge c)).
Proof. repeat match goal with |- _ /\ _ => split end; intros x; json_ok. Qed.

Lemma handle_retries client client2 meanwhile resolver2 iv iv2 route request amb amb2 state state2 : repeatable route = true ->
  aeadLaws -> keyringValid -> noChar "." activeKeyId = true -> noChar "." iv = true ->
  (forall t, sparesRecords t meanwhile) -> sameCaller state state2 -> (nowMs amb2 < nowMs amb + 24 * 60 * 60 * 1000)%Z ->
  retries (billing_api.handle formats isUrl client (chargeableItemResolver meanwhile) iv route request amb state)
    (billing_api.handle formats isUrl client2 resolver2 iv2 route request amb2 state2).
Proof.
  intros Hrep Hl Hv Hid Hiv Hm Hsame Ht. destruct route; try done; cbn [billing_api.handle];
    unfold billing_api.withKey, billing_api.withParam, withBody.
  all: repeat (apply retries_input; intros ? _).
  all: unfold billing_controller.checkout, billing_controller.resume, billing_controller.changePlan, billing_controller.portal,
    billing_controller.cancel, billing_controller.setupIntent, billing_controller.setDefaultPaymentMethod,
    billing_controller.detachPaymentMethod, billing_controller.charge, billing_controller.responding.
  all: apply retries_once; try done.
  all: try (intros r r' Hs Hr; cbn; by rewrite ?Hs, ?Hr).
  all: destruct views_ok as (?&?&?&?&?&?&?&?).
  all: try (by intros; json_ok).
  all: try assumption.
  all: intros t; unfold resumeSubscription, cancelSubscription;
    first [apply records_createCheckoutSession|apply records_setCancel|apply records_changePrice|apply records_portal
          |apply records_setupIntent|apply records_setDefault|apply records_detach|apply records_createCharge, Hm].
Qed.

Lemma serveRoute_untouched client resolver iv replies route amb request x r x' :
  billing_api.serveRoute formats isUrl client resolver iv replies route amb request x = (r, x') ->
  refused (ex_world x) (r, x')
  \/ exists amb' state y, actingAs amb request (ex_world x) state /\ nowMs amb' = nowMs amb /\ untouched x y
     /\ billing_api.handle formats isUrl client resolver iv route request amb' state y = (r, x').
Proof.
  unfold billing_api.serveRoute, billing_api.billingGuards. intros Hr. destruct (BILLING_OWNER env === Billing_organization).
  - by eapply withPermission_untouched.
  - by eapply withAuth_untouched.
Qed.

(** Serving a request whose route is known: a refusal, or the handler's answer. *)
Lemma serveBilling_handled client resolver iv replies now request route x : billing_api.routeOf (api_web request) = Some route ->
  let served := billing_api.serveBilling formats isUrl client resolver iv replies now request x in
  refusal (ex_world x) served
  \/ exists amb state y, actingAs (requestAmbient now request) request (ex_world x) state /\ nowMs amb = now /\ untouched x y
     /\ served = respond (billing_api.handle formats isUrl client resolver iv route request amb state y).
Proof.
  intros Hroute. cbv zeta. unfold billing_api.serveBilling.
  match goal with |- refusal _ ?served \/ _ => set (run := served) end.
  destruct (serveRequest_served replies billing_api.routeOf
    (fun route amb => billing_api.serveRoute formats isUrl client resolver iv replies route amb request) now request x)
    as [Hr|(route' & y & Hr & Hy & Hs)]; [by left|].
  assert (route' = route) as -> by congruence. fold run in Hs.
  destruct (billing_api.serveRoute _ _ _ _ _ _ _ _ _ y) as [r x'] eqn:E. destruct Hy as [Hw Hh].
  apply serveRoute_untouched in E as [E|(amb & state & z & Ha & Hn & [Hw2 Hh2] & E)].
  - left. rewrite Hs, <- Hw. by apply respond_refusal.
  - right. exists amb, state, z. rewrite Hw in Ha. split; [done|]. split; [done|]. split; [split; congruence|]. by rewrite Hs, <- E.
Qed.

End Billing.

Section Witnesses.
Local Existing Instance demoPlatform.

(** A user of one organization, and an item of that organization to pay. *)
Definition shop : World := ownerWorld <| chargeableItems := [mkChargeableItem "item-1" (Some "o1") None "invoice-7" 2500 "usd" "Invoice 7" Item_OPEN None None None None None None] |>.
Definition billingRequest : ApiRequest :=
  mkApiRequest (mkWebRequest "POST" "/api/v1/billing/charges"
      [("authorization", "Bearer " ++ (loginToken ??? "")); ("idempotency-key", "key-0001")] [] [] (JObj [("reference", JStr "invoice-7")]))
    (mkHttpRequest (Some (JStr "req")) (Some "203.0.113.7") None None) (JObj []).
Definition alone (n : nat) (w : World) : World := w.
Definition firstCharge := billing_api.serveBilling anyFormat (fun _ => true) (Some demoClient) (chargeableItemResolver alone) "iv" answered
  5000 billingRequest (arrival shop idle ∅).
Definition afterCharge : World := ex_world (snd firstCharge).
(** The retry reaches a server without a Stripe client. *)
Definition retriedCharge := billing_api.serveBilling anyFormat (fun _ => true) None (chargeableItemResolver alone) "iv2" answered
  6000 billingRequest (arrival afterCharge idle ∅).

Example charged_then_replayed :
  rp_status (fst firstCharge) = 201%Z /\ rp_headers (fst firstCharge) = [("Idempotency-Replayed", "false")]
  /\ rp_data (fst retriedCharge) = rp_data (fst firstCharge) /\ rp_headers (fst retriedCharge) = [("Idempotency-Replayed", "true")].
Proof. vm_compute. by repeat split. Qed.

Lemma charger_sound : guardsSound (requestAmbient 5000 billingRequest) billingRequest (arrival shop idle ∅).
Proof.
  split; [apply coherent_empty|]. intros state [amb Ha]. unfold resolveAccessToken in Ha. vm_compute in Ha. injection Ha as <- <-.
  split; [reflexivity|]. cbn. repeat split; try discriminate. by eexists.
Qed.

Lemma charger_acts state : actingAs (requestAmbient 5000 billingRequest) billingRequest shop state ->
  auth_userId state = "u1" /\ auth_organizationId state = Some "o1".
Proof. intros [amb Ha]. unfold resolveAccessToken in Ha. vm_compute in Ha. injection Ha as <- <-. by split. Qed.
Lemma charger_acts_again state : actingAs (requestAmbient 6000 billingRequest) billingRequest afterCharge state ->
  auth_userId state = "u1" /\ auth_organizationId state = Some "o1".
Proof. intros [amb Ha]. unfold resolveAccessToken in Ha. vm_compute in Ha. injection Ha as <- <-. by split. Qed.

Lemma billing_served_to_payer_witness :
  refusal shop firstCharge
  \/ letIn answered 5000 billingRequest idle
     /\ exists route state, billing_api.routeOf (api_web billingRequest) = Some route
        /\ actingAs (requestAmbient 5000 billingRequest) billingRequest shop state /\ billingAllowed route shop state.
Proof. exact (billing_served_to_payer anyFormat (fun _ => true) (Some demoClient) (chargeableItemResolver alone) "iv" answered 5000 billingRequest (arrival shop idle ∅) charger_sound). Defined.

End Witnesses.
