(* ===== verification/ContentApi.v ===== *)
(** * The uploads and chat APIs

    The schemas, controllers and routes of modules/uploads and modules/chat, over the services of Uploads and Chat. The
    storage provider, and zod's formats and coercion, are parameters. *)

From Stdlib Require Import ZArith Lia Bool.
From S2P Require Import Prelude Store Database JsString JsonText Platform Request AuditTrail Pagination AccessControl ClientIp RateLimit UploadStorage Uploads Chat ChatGateway Guards Http AuthApi AdminApi.

Open Scope string_scope.

(** ** The schemas *)

Module content_schemas.
Section Schemas.
Variable formats : Formats.

(** [z.coerce.number().int().min(lo)], and [.max(hi)] *)
Definition atLeast (lo : Z) (value : option Json) : option Z :=
  v ← value; n ← fmt_coerceInt formats v; if (lo <=? n)%Z then Some n else None.
Definition between (lo hi : Z) (value : option Json) : option Z :=
  n ← atLeast lo value; if (n <=? hi)%Z then Some n else None.

Definition contentType (value : option Json) : option string :=
  match value with Some (JStr s) => schemas.text 3 255 (Some (JStr (toLowerCase (trim s)))) | _ => None end.
Definition createUploadSchema : Json -> option InitiateInput := schemas.object (fun l =>
  filename ← admin_schemas.trimmed 1 255 (assoc "filename" l);
  type ← contentType (assoc "contentType" l);
  size ← atLeast 1 (assoc "size" l);
  visibility ← admin_schemas.withDefault UpV_PRIVATE (admin_schemas.enum [("PRIVATE", UpV_PRIVATE); ("PUBLIC", UpV_PUBLIC)])
    (assoc "visibility" l);
  Some (mkInitiateInput filename type size visibility)).
Definition uploadsListQuery : Json -> option CursorPaginationInput := schemas.object (fun l =>
  cursor ← schemas.optional (admin_schemas.uuid formats) (assoc "cursor" l);
  limit ← admin_schemas.pageSize formats (assoc "limit" l); Some (mkCursorInput cursor limit)).

Definition createConversationSchema : Json -> option CreateConversationInput := schemas.object (fun l =>
  type ← admin_schemas.enum [("DIRECT", Conv_DIRECT); ("GROUP", Conv_GROUP); ("SUPPORT", Conv_SUPPORT)] (assoc "type" l);
  participants ← admin_schemas.arrayOf 255 (admin_schemas.uuid formats) (assoc "participantUserIds" l);
  title ← schemas.optional (admin_schemas.trimmed 1 200) (assoc "title" l);
  if (1 <=? List.length participants)%nat then Some (mkCreateConversation type participants title) else None).
Definition sendMessageSchema : Json -> option SendMessageInput := schemas.object (fun l =>
  clientMessageId ← admin_schemas.trimmed 8 100 (assoc "clientMessageId" l);
  body ← schemas.optional (admin_schemas.trimmed 1 MAX_MESSAGE_LENGTH) (assoc "body" l);
  uploadId ← schemas.optional (admin_schemas.uuid formats) (assoc "uploadId" l);
  type ← schemas.optional (admin_schemas.enum [("TEXT", Msg_TEXT); ("ATTACHMENT", Msg_ATTACHMENT)]) (assoc "type" l);
  if truthy (match body with Some _ => body | None => uploadId end)
  then Some (mkSendMessage clientMessageId body uploadId type) else None).
Definition listMessagesQuery : Json -> option (option Z * option Z * option nat) := schemas.object (fun l =>
  after ← schemas.optional (between 0 MAX_SAFE_INTEGER) (assoc "afterSeq" l);
  before ← schemas.optional (between 1 MAX_SAFE_INTEGER) (assoc "beforeSeq" l);
  limit ← schemas.optional (between 1 50) (assoc "limit" l);
  Some (after, before, option_map Z.to_nat limit)).
Definition markReadSchema : Json -> option Z := schemas.object (fun l => between 0 MAX_SAFE_INTEGER (assoc "seq" l)).
End Schemas.
End content_schemas.

(** [ipRateLimit(scope, limit, windowSeconds)] ahead of the guards of a route. *)
Definition limitAddress `{Platform} `{Redis} (reply : RedisReply) (scope : string) (limit windowSeconds : Z) (amb : Ambient)
    (request : ApiRequest) : Proc Exchange unit :=
  inLimits (ipRateLimit reply (nowMs amb) scope limit windowSeconds mode_local (http_ip (api_http request))).

(** ** Uploads *)

(** [uf_redirect] and [uf_stream] are the two answers that are no JSON: the location, or the bytes. *)
Inductive UploadsData :=
  | uf_initiated (upload : Upload) (directive : UploadDirective) | uf_upload (upload : Upload) | uf_uploads (l : list Upload)
  | uf_redirect (url : string) | uf_stream (body : string).
Inductive UploadsRoute :=
  | up_r_create | up_r_index | up_r_complete (uploadId : string) | up_r_download (uploadId : string) | up_r_remove (uploadId : string).

Module uploads_api.
Section UploadsApi.
Context `{Platform} `{Redis}.
Variables (formats : Formats) (provider : Ambient -> option UploadProviderAdapter) (replies : GuardReplies) (address : RedisReply).
Implicit Types (amb : Ambient) (request : ApiRequest) (auth : AuthState).

Definition create amb auth (input : InitiateInput) : Proc Exchange (Success UploadsData) :=
  result ← inWorld (initiateUpload amb (auth_userId auth) input (provider amb));
  mret (answerWith 201 "Upload initialized" (uf_initiated (fst result) (snd result))).

Definition complete amb request auth (uploadId : string) : Proc Exchange (Success UploadsData) :=
  upload ← inWorld (completeUpload amb (auth_userId auth) uploadId (metadataOf request) (provider amb));
  mret (answerWith 200 "Upload completed" (uf_upload upload)).

Definition nextCursorMeta (cursor : option string) : list (string * Json) :=
  [("nextCursor", match cursor with Some c => JStr c | None => JNull end)].

Definition index amb auth (query : CursorPaginationInput) : Proc Exchange (Success UploadsData) :=
  page ← inWorld (listUploads amb (auth_userId auth) query);
  mret (mkSuccess 200 COMPLETED (Some (uf_uploads (page_items page))) (nextCursorMeta (page_nextCursor page))).

(** The stream is taken as it was opened: [pipeline] is outside the model. *)
Definition download amb auth (uploadId : string) : Proc Exchange (Success UploadsData) :=
  result ← inWorld (createUploadDownload amb (auth_userId auth) uploadId (provider amb));
  setHeader "Cache-Control" "private, no-store";;
  match result with
  | Redirect direct _ _ _ =>
      setHeader "Location" (dd_url direct);;
      mret (mkSuccess 307 "Temporary Redirect" (Some (uf_redirect (dd_url direct))) [])
  | Proxy object filename type length =>
      setHeader "Content-Type" type;;
      setHeader "Content-Length" (show length);;
      setHeader "Content-Disposition" ("attachment; filename*=UTF-8''" ++ encodeURIComponent filename);;
      mret (mkSuccess 200 "OK" (Some (uf_stream (do_body object))) [])
  end.

Definition remove amb request auth (uploadId : string) : Proc Exchange (Success UploadsData) :=
  inWorld (deleteUpload amb (auth_userId auth) uploadId (metadataOf request) (provider amb));;
  mret (answer 200 "Upload deleted").

Definition routeOf (request : WebRequest) : option UploadsRoute :=
  let method := web_method request in
  match segmentsBelow "/api/v1/uploads" request with
  | Some [] | Some [EmptyString] => if method === "POST" then Some up_r_create else if method === "GET" then Some up_r_index else None
  | Some [id] => if method === "DELETE" then Some (up_r_remove id) else None
  | Some [id; action] =>
      if id === EmptyString then None
      else if (action === "complete") && (method === "POST") then Some (up_r_complete id)
      else if (action === "download") && (method === "GET") then Some (up_r_download id)
      else None
  | _ => None
  end.

Definition serveRoute (route : UploadsRoute) amb request : Proc Exchange (Success UploadsData) :=
  match route with
  | up_r_create =>
      limitAddress address "uploads:create:ip" 120 60 amb request;;
      withAuth replies amb request (fun amb auth => withBody (content_schemas.createUploadSchema formats) request (create amb auth))
  | up_r_index => withAuth replies amb request (fun amb auth =>
      withInput (content_schemas.uploadsListQuery formats) (api_query request) (index amb auth))
  | up_r_complete id => withAuth replies amb request (fun amb auth =>
      withInput (admin_schemas.uuidParam formats) (JStr id) (complete amb request auth))
  | up_r_download id => withAuth replies amb request (fun amb auth =>
      withInput (admin_schemas.uuidParam formats) (JStr id) (download amb auth))
  | up_r_remove id => withAuth replies amb request (fun amb auth =>
      withInput (admin_schemas.uuidParam formats) (JStr id) (remove amb request auth))
  end.

Definition serveUploads (now : Z) request (x : Exchange) : Reply UploadsData * Exchange :=
  serveRequest replies routeOf (fun route amb => serveRoute route amb request) now request x.
End UploadsApi.
End uploads_api.

(** ** Chat *)

Inductive ChatData :=
  | cd_conversations (l : list ConversationView) | cd_conversation (c : Conversation) | cd_view (v : ConversationView)
  | cd_messages (l : list Message) | cd_message (m : Message) | cd_read (lastReadSeq : Z).
Inductive ChatRoute :=
  | c_index | c_create | c_show (conversationId : string) | c_messages (conversationId : string) | c_send (conversationId : string)
  | c_read (conversationId : string) | c_remove_message (messageId : string).

Module chat_api.
Section ChatApi.
Context `{Platform} `{Redis}.
Variables (formats : Formats) (replies : GuardReplies) (address : RedisReply).
Implicit Types (amb : Ambient) (request : ApiRequest) (auth : AuthState).

Definition index amb auth : Proc Exchange (Success ChatData) :=
  found ← inWorld (listConversations amb (auth_userId auth) 30); mret (answerWith 200 COMPLETED (cd_conversations found)).

(** [Number(conversation.lastSeq)] would round past the safe integers; the number is kept. *)
Definition create amb auth (input : CreateConversationInput) : Proc Exchange (Success ChatData) :=
  conversation ← inWorld (createConversation amb (auth_userId auth) input);
  mret (answerWith 201 "Conversation ready" (cd_conversation conversation)).

Definition messages amb auth (conversationId : string) (query : option Z * option Z * option nat) : Proc Exchange (Success ChatData) :=
  let '(afterSeq, beforeSeq, limit) := query in
  found ← inWorld (listMessages amb conversationId (auth_userId auth) afterSeq beforeSeq limit);
  mret (answerWith 200 COMPLETED (cd_messages found)).

Definition send amb auth (conversationId : string) (input : SendMessageInput) : Proc Exchange (Success ChatData) :=
  result ← inWorld (sendMessage amb conversationId (auth_userId auth) input);
  let duplicate : bool := snd result in
  setHeader "Idempotency-Replayed" (if duplicate then "true" else "false");;
  serialized ← lift (serializeMessage (fst result));
  mret (answerWith (if duplicate then 200 else 201)%Z (if duplicate then "Message already sent" else "Message sent") (cd_message serialized)).

Definition read amb auth (conversationId : string) (seq : Z) : Proc Exchange (Success ChatData) :=
  lastReadSeq ← inWorld (Chat.markRead amb conversationId (auth_userId auth) seq);
  mret (answerWith 200 COMPLETED (cd_read lastReadSeq)).

Definition removeMessage amb auth (messageId : string) : Proc Exchange (Success ChatData) :=
  inWorld (deleteMessage amb messageId (auth_userId auth));; mret (answer 200 "Message deleted").

Definition show amb auth (conversationId : string) : Proc Exchange (Success ChatData) :=
  found ← inWorld (listConversations amb (auth_userId auth) 200);
  mret (mkSuccess 200 COMPLETED
    (cd_view <$> List.find (fun view : ConversationView => conv_id (cv_conversation view) === conversationId) found) []).

(** The routes, which app.ts mounts when chat is on. *)
Definition routeOf (request : WebRequest) : option ChatRoute :=
  let method := web_method request in
  match (if CHAT_ENABLED env then segmentsBelow "/api/v1/chat" request else None) with
  | Some [first] =>
      if first !== "conversations" then None
      else if method === "GET" then Some c_index else if method === "POST" then Some c_create else None
  | Some [first; second] =>
      if second === EmptyString then None
      else if (first === "conversations") && (method === "GET") then Some (c_show second)
      else if (first === "messages") && (method === "DELETE") then Some (c_remove_message second)
      else None
  | Some [first; second; third] =>
      if (first !== "conversations") || (second === EmptyString) then None
      else if (third === "messages") && (method === "GET") then Some (c_messages second)
      else if (third === "messages") && (method === "POST") then Some (c_send second)
      else if (third === "read") && (method === "POST") then Some (c_read second)
      else None
  | _ => None
  end.

Definition serveRoute (route : ChatRoute) amb request : Proc Exchange (Success ChatData) :=
  let param name := withInput (admin_schemas.uuidParam formats) (JStr name) in
  match route with
  | c_index => withAuth replies amb request index
  | c_create =>
      limitAddress address "chat:conversation:create:ip" 60 60 amb request;;
      withAuth replies amb request (fun amb auth =>
        withBody (content_schemas.createConversationSchema formats) request (create amb auth))
  | c_show id => withAuth replies amb request (fun amb auth => param id (show amb auth))
  | c_messages id => withAuth replies amb request (fun amb auth => param id (fun id =>
      withInput (content_schemas.listMessagesQuery formats) (api_query request) (messages amb auth id)))
  | c_send id =>
      limitAddress address "chat:send:ip" 600 60 amb request;;
      withAuth replies amb request (fun amb auth => param id (fun id =>
        withBody (content_schemas.sendMessageSchema formats) request (send amb auth id)))
  | c_read id => withAuth replies amb request (fun amb auth => param id (fun id =>
      withBody (content_schemas.markReadSchema formats) request (read amb auth id)))
  | c_remove_message id => withAuth replies amb request (fun amb auth => param id (removeMessage amb auth))
  end.

Definition serveChat (now : Z) request (x : Exchange) : Reply ChatData * Exchange :=
  serveRequest replies routeOf (fun route amb => serveRoute route amb request) now request x.
End ChatApi.
End chat_api.
