(* ===== verification/OperationsApi.v ===== *)
(** * The operations and notifications APIs

    The schemas, controllers and routes of modules/outbox, modules/audit, modules/notifications and modules/system, and
    scheduler/scheduler.routes.ts, over the services of Outbox, AuditJobs, Notifications and Scheduler. What Redis and
    BullMQ answer of the scheduler, zod's formats and the HMAC digest are parameters. *)

From Stdlib Require Import ZArith Lia Bool.
From S2P Require Import Prelude Store Database JsString JsonText Platform Request AuditTrail Pagination Sessions AccessControl ClientIp RateLimit Outbox AuditJobs Templates Notifications Scheduler Guards Http AuthApi AdminApi ContentApi.

Open Scope string_scope.

(** ** Outbox and audit trail *)

Inductive OperationsData :=
  | od_events (l : list OutboxEvent) | od_event (e : OutboxEvent) | od_audit (l : list AuditEvent)
  | od_jobs (l : list JobView) | od_queued (jobId : string).
Inductive OperationsRoute :=
  | op_dead_letters | op_redrive (id : string) | op_audit | op_jobs | op_run (name : string).

Module operations_api.
Section OperationsApi.
Context `{Platform} `{Redis}.
(** [shared] is what Redis holds of the jobs when it is asked, [add] what the queue answers. *)
Variables (formats : Formats) (replies : GuardReplies) (QUEUE_PREFIX SCHEDULER_TIMEZONE : string) (SCHEDULER_ENABLED : bool)
  (shared : Shared) (add : string -> Proc Shared (option string)).
Implicit Types (amb : Ambient) (request : ApiRequest) (auth : AuthState).

Definition deadLetterListQuery : Json -> option CursorPaginationInput := schemas.object (fun l =>
  cursor ← schemas.optional (admin_schemas.uuid formats) (assoc "cursor" l);
  limit ← admin_schemas.pageSizeOr formats 50 (assoc "limit" l); Some (mkCursorInput cursor limit)).
Definition auditListQuery : Json -> option ListAuditInput := schemas.object (fun l =>
  cursor ← schemas.optional (admin_schemas.uuid formats) (assoc "cursor" l);
  limit ← admin_schemas.pageSizeOr formats 50 (assoc "limit" l);
  actor ← schemas.optional (admin_schemas.uuid formats) (assoc "actorUserId" l);
  entityType ← schemas.optional (schemas.text 0 100) (assoc "entityType" l);
  Some (mkListAuditInput cursor limit actor entityType)).
Definition jobNameParam (name : Json) : option string := admin_schemas.trimmed 1 100 (Some name).

Definition indexDeadLetters (query : CursorPaginationInput) : Proc Exchange (Success OperationsData) :=
  page ← inWorld (listDeadLetterEvents query);
  mret (mkSuccess 200 COMPLETED (Some (od_events (page_items page))) (uploads_api.nextCursorMeta (page_nextCursor page))).

Definition redrive amb request auth (id : string) : Proc Exchange (Success OperationsData) :=
  event ← inWorld (transact (redriveDeadLetterEvent amb id (auth_userId auth) (metadataOf request)));
  mret (answerWith 200 "Outbox event queued for redelivery" (od_event event)).

Definition indexAudit amb (query : ListAuditInput) : Proc Exchange (Success OperationsData) :=
  page ← inWorld (listAuditEvents amb query);
  mret (mkSuccess 200 COMPLETED (Some (od_audit (page_items page))) (uploads_api.nextCursorMeta (page_nextCursor page))).

(** ** scheduler.routes.ts *)

Definition indexJobs : Proc Exchange (Success OperationsData) :=
  states ← lift (fst (listJobStates QUEUE_PREFIX SCHEDULER_TIMEZONE shared)); mret (answerWith 200 COMPLETED (od_jobs states)).

Definition run amb request auth (name : string) : Proc Exchange (Success OperationsData) :=
  match findScheduledJob name with
  | None => throw (errors.notFound "Scheduled job not found")
  | Some job =>
      if negb SCHEDULER_ENABLED then throw (errors.serviceUnavailable "The scheduler worker is disabled")
      else
        jobId ← lift (fst (enqueueScheduledJob add (job_name job) shared));
        inWorld (transact (writeAuditEvent amb (auditMetadata (metadataOf request) (Some (auth_userId auth)) "scheduler.job.triggered"
          "scheduled_job" (Some (job_name job)) (Some (JObj [("jobId", JStr jobId)])))));;
        mret (answerWith 202 "Scheduled job queued" (od_queued jobId))
  end.

Definition routeOf (request : WebRequest) : option OperationsRoute :=
  let method := web_method request in
  match segmentsBelow "/api/v1/scheduled-jobs" request, segmentsBelow "/api/v1/outbox-events" request,
        segmentsBelow "/api/v1/audit-events" request with
  | Some [], _, _ | Some [EmptyString], _, _ => if method === "GET" then Some op_jobs else None
  | Some [name; action], _, _ =>
      if (name !== EmptyString) && (action === "run") && (method === "POST") then Some (op_run name) else None
  | _, Some [first], _ => if (first === "dead-letter") && (method === "GET") then Some op_dead_letters else None
  | _, Some [id; action], _ =>
      if (id !== EmptyString) && (action === "redrive") && (method === "POST") then Some (op_redrive id) else None
  | _, _, Some [] | _, _, Some [EmptyString] => if method === "GET" then Some op_audit else None
  | _, _, _ => None
  end.

Definition serveRoute (route : OperationsRoute) amb request : Proc Exchange (Success OperationsData) :=
  match route with
  | op_dead_letters => withPermission replies "outbox:read" scope_global amb request (fun amb auth =>
      withInput deadLetterListQuery (api_query request) indexDeadLetters)
  | op_redrive id => withPermission replies "outbox:write" scope_global amb request (fun amb auth =>
      withInput (admin_schemas.uuidParam formats) (JStr id) (redrive amb request auth))
  | op_audit => withPermission replies "audit:read" scope_context amb request (fun amb auth =>
      withInput auditListQuery (api_query request) (indexAudit amb))
  | op_jobs => withPermission replies "scheduler:read" scope_global amb request (fun amb auth => indexJobs)
  | op_run name => withPermission replies "scheduler:write" scope_global amb request (fun amb auth =>
      withInput jobNameParam (JStr name) (run amb request auth))
  end.
End OperationsApi.
End operations_api.

(** ** Notifications *)

(** The last two are the answers of the preview, a text and a page. *)
Inductive NotificationsData :=
  | nd_preferences (l : list PreferenceView) | nd_preference (p : PreferenceView) | nd_received
  | nd_templates (keys : list string) | nd_text (body : string) | nd_html (body : string).
Inductive NotificationsRoute := n_preferences | n_update_preference | n_templates | n_preview (key : string).

Module notifications_api.
Section NotificationsApi.
Context `{Platform} `{Redis} `{TemplateFiles}.
(** [production]: [env.NODE_ENV === 'production'] *)
Variables (production : bool) (formats : Formats) (hmacDigest : string -> string -> string) (replies : GuardReplies) (address : RedisReply).
Implicit Types (amb : Ambient) (request : ApiRequest) (auth : AuthState).

Definition updatePreferenceSchema : Json -> option (NotificationChannel * string * bool) := schemas.object (fun l =>
  channel ← admin_schemas.enum [("EMAIL", Ch_EMAIL)] (assoc "channel" l);
  topic ← admin_schemas.enum (List.map (fun t => (t, t)) notificationTopics) (assoc "topic" l);
  enabled ← match assoc "enabled" l with Some (JBool b) => Some b | _ => None end;
  Some (channel, topic, enabled)).
Definition unsubscribeQuery : Json -> option string := schemas.object (fun l => schemas.text 20 2000 (assoc "token" l)).

Definition templateKeyParams (key : Json) : option EmailTemplateKey :=
  admin_schemas.enum (List.map (fun k => (templateName k, k)) emailTemplates) (Some key).
Definition previewQuery : Json -> option (option string * option string) := schemas.object (fun l =>
  locale ← schemas.optional (schemas.text 2 10) (assoc "locale" l);
  format ← schemas.optional (admin_schemas.enum [("html", "html"); ("text", "text")]) (assoc "format" l);
  Some (locale, format)).

(** Dev-only tooling: these two are not mounted in production. *)
Definition listTemplates : Proc Exchange (Success NotificationsData) :=
  mret (answerWith 200 COMPLETED (nd_templates listEmailTemplateKeys)).

Definition previewTemplate (key : EmailTemplateKey) (query : option string * option string) : Proc Exchange (Success NotificationsData) :=
  rendered ← lift (renderEmailTemplate key (example key) (fst query));
  if snd query === Some "text"
  then mret (answerWith 200 "OK" (nd_text ("Subject: " ++ re_subject rendered ++ String newline (String newline (re_text rendered)))))
  else mret (answerWith 200 "OK" (nd_html (re_html rendered))).

Definition preferences amb auth : Proc Exchange (Success NotificationsData) :=
  found ← inWorld (transact (listNotificationPreferences amb (auth_userId auth)));
  mret (answerWith 200 COMPLETED (nd_preferences found)).

Definition updatePreference amb auth (input : NotificationChannel * string * bool) : Proc Exchange (Success NotificationsData) :=
  let '(channel, topic, enabled) := input in
  updated ← inWorld (transact (setNotificationPreference amb (auth_userId auth) channel topic enabled));
  mret (answerWith 200 "Notification preference updated" (nd_preference updated)).

Definition unsubscribe amb (token : string) : Proc Exchange (Success NotificationsData) :=
  done ← inWorld (transact (unsubscribeWithToken hmacDigest (fmt_isUuid formats) amb token));
  if negb done then throw (errors.badRequest "Unsubscribe link is invalid or expired")
  else mret (answer 200 "Unsubscribed").

(** email-events.controller.ts: [rawBody] is what [express.raw] read, a buffer when the body was JSON. *)
Definition receiveEmailEvent amb (rawBody signature : option string) : Proc Exchange (Success NotificationsData) :=
  match rawBody with
  | None => throw (errors.badRequest "Expected raw webhook body")
  | Some rawBody =>
      if negb (truthy signature) then throw (errors.badRequest "Missing X-Email-Signature header")
      else
        inWorld (processEmailProviderEvent hmacDigest (fmt_isEmail formats) amb rawBody (signature ??? EmptyString));;
        mret (answerWith 200 "Email event received" nd_received)
  end.

Definition routeOf (request : WebRequest) : option NotificationsRoute :=
  match segmentsBelow "/api/v1/notifications" request with
  | Some [first] =>
      if (first === "templates") && negb production && (web_method request === "GET") then Some n_templates
      else if first !== "preferences" then None
      else if web_method request === "GET" then Some n_preferences
      else if web_method request === "PUT" then Some n_update_preference else None
  | Some [first; key; third] =>
      if (first === "templates") && (third === "preview") && (key !== EmptyString) && negb production && (web_method request === "GET")
      then Some (n_preview key) else None
  | _ => None
  end.

Definition serveRoute (route : NotificationsRoute) amb request : Proc Exchange (Success NotificationsData) :=
  match route with
  | n_preferences => withAuth replies amb request preferences
  | n_update_preference => withAuth replies amb request (fun amb auth => withBody updatePreferenceSchema request (updatePreference amb auth))
  | n_templates => listTemplates
  | n_preview key => withInput templateKeyParams (JStr key) (fun key => withInput previewQuery (api_query request) (previewTemplate key))
  end.

(** The public router, above the CSRF check. *)
Definition isUnsubscribe (request : WebRequest) : bool :=
  (web_method request === "POST") && (web_path request === "/api/v1/notifications/unsubscribe").
Definition serveUnsubscribe amb request : Proc Exchange (Success NotificationsData) :=
  limitAddress address "notifications:unsubscribe:ip" 30 60 amb request;;
  withInput unsubscribeQuery (api_query request) (unsubscribe amb).
End NotificationsApi.
End notifications_api.
