(* ===== verification/Docs.v ===== *)
(** * The documentation endpoints

    modules/docs: the OpenAPI document, written as the JSON it serves, and the routes of the Swagger page. What zod makes of
    a schema ([z.toJSONSchema]) is a parameter; the static files of swagger-ui-dist are left out. *)

From Stdlib Require Import ZArith Lia Bool.
From S2P Require Import Prelude JsString JsonText Platform RateLimit Templates Guards Http.

Open Scope string_scope.

Declare Scope document_scope.
Delimit Scope document_scope with document.
Notation "k ~> v" := (pair k v) (at level 60, right associativity, only parsing) : document_scope.
Open Scope document_scope.

Module docs.

Definition obj (fields : list (string * Json)) : Json := JObj fields.
Definition arr (l : list Json) : Json := JArr l.
Definition str (s : string) : Json := JStr s.
Definition num (n : Z) : Json := JNum n.
Definition ref (target : string) : Json := obj ["$ref" ~> str target].

Section Document.
Context `{Platform}.
(** What [z.toJSONSchema] returns for the schema of this name. *)
Variable toJSONSchema : string -> list (string * Json).

(** ** docs.schemas.ts *)

(** [Reflect.deleteProperty(component, '$schema')] *)
Definition toOpenApiSchema (schema : string) : Json :=
  obj (List.filter (fun field => fst field !== "$schema") (toJSONSchema schema)).

Definition requestSchemas : list (string * string) :=
  [("SignupRequest", "signupSchema"); ("LoginRequest", "loginSchema"); ("SocialLoginRequest", "socialLoginSchema");
   ("OtpSendRequest", "otpSendSchema"); ("OtpVerifyRequest", "otpVerifySchema");
   ("PhoneVerificationRequest", "phoneVerificationSchema"); ("ChangePasswordRequest", "changePasswordSchema");
   ("AccountDeleteRequest", "accountDeleteSchema"); ("EmailChangeRequest", "emailChangeRequestSchema");
   ("EmailChangeVerifyRequest", "emailChangeVerifySchema"); ("PasswordResetRequest", "passwordResetRequestSchema");
   ("PasswordResetVerifyOtpRequest", "passwordResetVerifyOtpSchema");
   ("PasswordResetConfirmRequest", "passwordResetConfirmSchema"); ("ProfileUpdateRequest", "updateOwnProfileSchema");
   ("AdminUserUpdateRequest", "updateUserSchema"); ("CreateOrganizationRequest", "createOrganizationSchema");
   ("UpdateOrganizationRequest", "updateOrganizationSchema"); ("ChangeMemberRoleRequest", "changeMemberRoleSchema");
   ("CreateInvitationRequest", "createInvitationSchema"); ("AcceptInvitationRequest", "acceptInvitationSchema");
   ("RoleRequest", "roleSchema"); ("RoleAssignmentRequest", "assignmentSchema");
   ("RolePermissionsUpdateRequest", "updateRolePermissionsSchema"); ("DeviceRequest", "deviceSchema");
   ("CheckoutRequest", "checkoutSessionSchema"); ("CreateChargeRequest", "createChargeSchema");
   ("RefundRequest", "refundSchema"); ("PromotionCodeRequest", "promotionCodeSchema");
   ("SubscriptionChangeRequest", "subscriptionChangeSchema"); ("BillingPortalRequest", "billingPortalSchema");
   ("CreateUploadRequest", "createUploadSchema")].
Definition openApiSchemaComponents : list (string * Json) :=
  List.map (fun '(name, schema) => (name, toOpenApiSchema schema)) requestSchemas.

(** ** docs.document.ts *)

Definition jsonResponse : Json :=
  obj [
    "description" ~> str "Universal API response envelope";
    "content" ~> obj ["application/json" ~> obj ["schema" ~> ref "#/components/schemas/ApiResponse"]]].

Definition binaryDownloadResponse : Json :=
  obj [
    "description" ~> str "Authenticated file stream";
    "headers" ~> obj [
      "Content-Disposition" ~> obj ["schema" ~> obj ["type" ~> str "string"]];
      "Content-Length" ~> obj ["schema" ~> obj ["type" ~> str "integer"]]];
    "content" ~> obj ["application/octet-stream" ~> obj ["schema" ~> obj ["type" ~> str "string"; "format" ~> str "binary"]]]].

Definition authenticatedOperation : list (string * Json) :=
  ["security" ~> arr [obj ["cookieAuth" ~> arr []]]].

Definition csrfOperation : list (string * Json) :=
  ["security" ~> arr [obj ["csrfToken" ~> arr []]]].

Definition protectedMutation : list (string * Json) :=
  ["security" ~> arr [obj ["cookieAuth" ~> arr []; "csrfToken" ~> arr []]]].

Definition idempotencyParameter : Json :=
  ref "#/components/parameters/IdempotencyKey".

Definition cursorParameters : list Json :=
  [
    obj ["name" ~> str "cursor"; "in" ~> str "query"; "schema" ~> obj ["type" ~> str "string"]];
    obj [
      "name" ~> str "limit"; "in" ~> str "query";
      "schema" ~> obj ["type" ~> str "integer"; "minimum" ~> num 1; "maximum" ~> num 100; "default" ~> num 25]]].

Definition requestBody (schema : Json) (required : bool) : Json :=
  obj ["required" ~> JBool required; "content" ~> obj ["application/json" ~> obj ["schema" ~> schema]]].

Definition objectSchema (properties : Json) (required : list string) : Json :=
  obj (["type" ~> str "object"; "properties" ~> properties]
    ++ match required with [] => [] | _ => ["required" ~> JArr (List.map str required)] end).

Definition systemPaths : list (string * Json) :=
  [ "/health" ~> obj [
      "get" ~> obj ["tags" ~> arr [str "System"]; "summary" ~> str "Health check"; "responses" ~> obj ["200" ~> jsonResponse]]];
    "/ready" ~> obj [
      "get" ~> obj [
        "tags" ~> arr [str "System"]; "summary" ~> str "Dependency readiness check";
        "responses" ~> obj ["200" ~> jsonResponse]]]].

Definition sessionPaths : list (string * Json) :=
  [ "/api/v1/auth/csrf" ~> obj [
      "get" ~> obj ["tags" ~> arr [str "Auth"]; "summary" ~> str "Issue CSRF token"; "responses" ~> obj ["200" ~> jsonResponse]]];
    "/api/v1/auth/signup" ~> obj [
      "post" ~> obj (csrfOperation ++ [
        "tags" ~> arr [str "Auth"]; "summary" ~> str "Start password signup";
        "requestBody" ~> requestBody (ref "#/components/schemas/SignupRequest") true;
        "responses" ~> obj ["202" ~> jsonResponse; "400" ~> jsonResponse]])];
    "/api/v1/auth/login" ~> obj [
      "post" ~> obj (csrfOperation ++ [
        "tags" ~> arr [str "Auth"]; "summary" ~> str "Login with password";
        "requestBody" ~> requestBody (ref "#/components/schemas/LoginRequest") true;
        "responses" ~> obj ["200" ~> jsonResponse; "401" ~> jsonResponse]])];
    "/api/v1/auth/oauth/{provider}" ~> obj [
      "post" ~> obj (csrfOperation ++ [
        "tags" ~> arr [str "Auth"]; "summary" ~> str "Login with a verified Google or Apple OIDC ID token";
        "parameters" ~> arr [
          obj [
            "name" ~> str "provider"; "in" ~> str "path"; "required" ~> JBool true;
            "schema" ~> obj ["type" ~> str "string"; "enum" ~> arr [str "google"; str "apple"]]]];
        "requestBody" ~> requestBody (ref "#/components/schemas/SocialLoginRequest") true;
        "responses" ~> obj ["200" ~> jsonResponse; "401" ~> jsonResponse]])];
    "/api/v1/auth/otp/send" ~> obj [
      "post" ~> obj (csrfOperation ++ [
        "tags" ~> arr [str "Auth"]; "summary" ~> str "Send a login or verification OTP";
        "requestBody" ~> requestBody (ref "#/components/schemas/OtpSendRequest") true;
        "responses" ~> obj ["202" ~> jsonResponse; "400" ~> jsonResponse; "503" ~> jsonResponse]])];
    "/api/v1/auth/otp/verify" ~> obj [
      "post" ~> obj (csrfOperation ++ [
        "tags" ~> arr [str "Auth"]; "summary" ~> str "Verify a login, email, or phone OTP";
        "requestBody" ~> requestBody (ref "#/components/schemas/OtpVerifyRequest") true;
        "responses" ~> obj ["200" ~> jsonResponse; "401" ~> jsonResponse; "503" ~> jsonResponse]])];
    "/api/v1/auth/phone/send-verification" ~> obj [
      "post" ~> obj (protectedMutation ++ [
        "tags" ~> arr [str "Auth"]; "summary" ~> str "Send verification to the authenticated user phone number";
        "requestBody" ~> requestBody (ref "#/components/schemas/PhoneVerificationRequest") true;
        "responses" ~> obj ["202" ~> jsonResponse; "400" ~> jsonResponse; "401" ~> jsonResponse]])];
    "/api/v1/auth/refresh" ~> obj [
      "post" ~> obj (csrfOperation ++ [
        "tags" ~> arr [str "Auth"]; "summary" ~> str "Rotate refresh cookie";
        "responses" ~> obj ["200" ~> jsonResponse; "401" ~> jsonResponse]])]].

Definition credentialPaths : list (string * Json) :=
  [ "/api/v1/auth/password/change" ~> obj [
      "post" ~> obj (protectedMutation ++ [
        "tags" ~> arr [str "Auth"]; "summary" ~> str "Change password and revoke other sessions";
        "requestBody" ~> requestBody (ref "#/components/schemas/ChangePasswordRequest") true;
        "responses" ~> obj ["200" ~> jsonResponse; "401" ~> jsonResponse]])];
    "/api/v1/auth/password-reset/request" ~> obj [
      "post" ~> obj (csrfOperation ++ [
        "tags" ~> arr [str "Auth"]; "summary" ~> str "Request a password-reset OTP";
        "requestBody" ~> requestBody (ref "#/components/schemas/PasswordResetRequest") true;
        "responses" ~> obj ["202" ~> jsonResponse; "400" ~> jsonResponse]])];
    "/api/v1/auth/password-reset/verify-otp" ~> obj [
      "post" ~> obj (csrfOperation ++ [
        "tags" ~> arr [str "Auth"];
        "summary" ~> str "Verify a password-reset OTP and issue a short-lived reset credential";
        "requestBody" ~> requestBody (ref "#/components/schemas/PasswordResetVerifyOtpRequest") true;
        "responses" ~> obj ["200" ~> jsonResponse; "401" ~> jsonResponse]])];
    "/api/v1/auth/password-reset/confirm" ~> obj [
      "post" ~> obj (csrfOperation ++ [
        "tags" ~> arr [str "Auth"]; "summary" ~> str "Consume a reset credential and change the password";
        "requestBody" ~> requestBody (ref "#/components/schemas/PasswordResetConfirmRequest") true;
        "responses" ~> obj ["202" ~> jsonResponse; "401" ~> jsonResponse]])];
    "/api/v1/auth/email-change/request" ~> obj [
      "post" ~> obj (protectedMutation ++ [
        "tags" ~> arr [str "Auth"]; "summary" ~> str "Reauthenticate and send an OTP to a new email address";
        "requestBody" ~> requestBody (ref "#/components/schemas/EmailChangeRequest") true;
        "responses" ~> obj ["202" ~> jsonResponse; "400" ~> jsonResponse; "401" ~> jsonResponse]])];
    "/api/v1/auth/email-change/verify" ~> obj [
      "post" ~> obj (protectedMutation ++ [
        "tags" ~> arr [str "Auth"]; "summary" ~> str "Verify an email change and revoke every existing session";
        "requestBody" ~> requestBody (ref "#/components/schemas/EmailChangeVerifyRequest") true;
        "responses" ~> obj ["200" ~> jsonResponse; "400" ~> jsonResponse; "401" ~> jsonResponse]])];
    "/api/v1/auth/logout" ~> obj [
      "post" ~> obj (protectedMutation ++ [
        "tags" ~> arr [str "Auth"]; "summary" ~> str "Log out the current session";
        "responses" ~> obj ["200" ~> jsonResponse; "401" ~> jsonResponse]])];
    "/api/v1/auth/logout-all" ~> obj [
      "post" ~> obj (protectedMutation ++ [
        "tags" ~> arr [str "Auth"]; "summary" ~> str "Revoke every session";
        "responses" ~> obj ["200" ~> jsonResponse; "401" ~> jsonResponse]])];
    "/api/v1/auth/account" ~> obj [
      "delete" ~> obj (protectedMutation ++ [
        "tags" ~> arr [str "Auth"]; "summary" ~> str "Delete the authenticated account";
        "requestBody" ~> requestBody (ref "#/components/schemas/AccountDeleteRequest") false;
        "responses" ~> obj ["200" ~> jsonResponse; "401" ~> jsonResponse]])]].

Definition userPaths : list (string * Json) :=
  [ "/api/v1/users/me" ~> obj [
      "get" ~> obj (authenticatedOperation ++ [
        "tags" ~> arr [str "Users"]; "summary" ~> str "Get current profile";
        "responses" ~> obj ["200" ~> jsonResponse; "401" ~> jsonResponse]]);
      "patch" ~> obj (protectedMutation ++ [
        "tags" ~> arr [str "Users"]; "summary" ~> str "Edit current profile";
        "requestBody" ~> requestBody (ref "#/components/schemas/ProfileUpdateRequest") true;
        "responses" ~> obj ["200" ~> jsonResponse; "400" ~> jsonResponse]]);
      "delete" ~> obj (protectedMutation ++ [
        "tags" ~> arr [str "Users"]; "summary" ~> str "Delete the authenticated account";
        "requestBody" ~> requestBody (ref "#/components/schemas/AccountDeleteRequest") false;
        "responses" ~> obj ["200" ~> jsonResponse; "401" ~> jsonResponse]])];
    "/api/v1/users/me/devices" ~> obj [
      "get" ~> obj (authenticatedOperation ++ [
        "tags" ~> arr [str "Users"]; "summary" ~> str "List registered push devices";
        "responses" ~> obj ["200" ~> jsonResponse; "401" ~> jsonResponse]]);
      "post" ~> obj (protectedMutation ++ [
        "tags" ~> arr [str "Users"]; "summary" ~> str "Register a push device";
        "requestBody" ~> requestBody (ref "#/components/schemas/DeviceRequest") true;
        "responses" ~> obj ["201" ~> jsonResponse]])];
    "/api/v1/users/me/devices/{deviceId}" ~> obj [
      "delete" ~> obj (protectedMutation ++ [
        "tags" ~> arr [str "Users"]; "summary" ~> str "Unregister a push device";
        "parameters" ~> arr [ref "#/components/parameters/DeviceId"];
        "responses" ~> obj ["200" ~> jsonResponse; "404" ~> jsonResponse]])];
    "/api/v1/users/me/sessions" ~> obj [
      "get" ~> obj (authenticatedOperation ++ [
        "tags" ~> arr [str "Users"]; "summary" ~> str "List active login sessions";
        "responses" ~> obj ["200" ~> jsonResponse; "401" ~> jsonResponse]])];
    "/api/v1/users/me/sessions/{sessionId}" ~> obj [
      "delete" ~> obj (protectedMutation ++ [
        "tags" ~> arr [str "Users"]; "summary" ~> str "Log out a specific login session";
        "parameters" ~> arr [ref "#/components/parameters/SessionId"];
        "responses" ~> obj ["200" ~> jsonResponse; "404" ~> jsonResponse]])];
    "/api/v1/users" ~> obj [
      "get" ~> obj (authenticatedOperation ++ [
        "tags" ~> arr [str "Users"]; "summary" ~> str "List users (administrative)";
        "parameters" ~> arr (cursorParameters ++ [
          obj ["name" ~> str "search"; "in" ~> str "query"; "schema" ~> obj ["type" ~> str "string"; "maxLength" ~> num 200]];
          obj [
            "name" ~> str "status"; "in" ~> str "query";
            "schema" ~> obj ["type" ~> str "string"; "enum" ~> arr [str "PENDING"; str "ACTIVE"; str "SUSPENDED"; str "DISABLED"]]];
          obj [
            "name" ~> str "sort"; "in" ~> str "query";
            "schema" ~> obj [
              "type" ~> str "string"; "enum" ~> arr [str "createdAt"; str "email"; str "displayName"; str "id"];
              "default" ~> str "createdAt"]];
          obj [
            "name" ~> str "order"; "in" ~> str "query";
            "schema" ~> obj ["type" ~> str "string"; "enum" ~> arr [str "asc"; str "desc"]; "default" ~> str "desc"]]]);
        "responses" ~> obj ["200" ~> jsonResponse; "403" ~> jsonResponse]])];
    "/api/v1/users/{id}" ~> obj [
      "patch" ~> obj (protectedMutation ++ [
        "tags" ~> arr [str "Users"]; "summary" ~> str "Update a user (administrative)";
        "parameters" ~> arr [ref "#/components/parameters/UserId"];
        "requestBody" ~> requestBody (ref "#/components/schemas/AdminUserUpdateRequest") true;
        "responses" ~> obj ["200" ~> jsonResponse; "403" ~> jsonResponse; "404" ~> jsonResponse]])]].

Definition cardPaths : list (string * Json) :=
  [ "/api/v1/billing/setup-intents" ~> obj [
      "post" ~> obj (protectedMutation ++ [
        "tags" ~> arr [str "Billing"]; "summary" ~> str "Start saving a card";
        "description" ~> str "Returns a client secret for Stripe Elements. Card data never reaches this server, which is what keeps the deployment in PCI SAQ-A. The SetupIntent is created with usage=off_session so later off-session charges have a mandate to reference.";
        "parameters" ~> arr [idempotencyParameter]; "responses" ~> obj ["201" ~> jsonResponse; "401" ~> jsonResponse]])];
    "/api/v1/billing/payment-methods" ~> obj [
      "get" ~> obj (authenticatedOperation ++ [
        "tags" ~> arr [str "Billing"]; "summary" ~> str "List saved cards";
        "description" ~> str "Returns Stripe identifiers and display metadata only — never a PAN, CVC, or full expiry.";
        "responses" ~> obj ["200" ~> jsonResponse; "401" ~> jsonResponse]])];
    "/api/v1/billing/payment-methods/{paymentMethodId}" ~> obj [
      "delete" ~> obj (protectedMutation ++ [
        "tags" ~> arr [str "Billing"]; "summary" ~> str "Remove a saved card";
        "description" ~> str "Refuses to remove the last card while a subscription is active, because the next renewal would fail silently.";
        "parameters" ~> arr [ref "#/components/parameters/PaymentMethodId"; idempotencyParameter];
        "responses" ~> obj ["200" ~> jsonResponse; "404" ~> jsonResponse; "409" ~> jsonResponse]])];
    "/api/v1/billing/payment-methods/{paymentMethodId}/default" ~> obj [
      "post" ~> obj (protectedMutation ++ [
        "tags" ~> arr [str "Billing"]; "summary" ~> str "Set the default card";
        "parameters" ~> arr [ref "#/components/parameters/PaymentMethodId"; idempotencyParameter];
        "responses" ~> obj ["200" ~> jsonResponse; "404" ~> jsonResponse]])];
    "/api/v1/billing/charges" ~> obj [
      "post" ~> obj (protectedMutation ++ [
        "tags" ~> arr [str "Billing"]; "summary" ~> str "Charge a dynamic amount";
        "description" ~> str "The body carries a reference, never an amount: the server resolves what that reference costs and rejects anything outside the configured per-currency bounds. Supply paymentMethodId to charge a saved card off-session. A response with requiresAction=true is a 3D Secure challenge, not a decline — complete it with the returned clientSecret.";
        "parameters" ~> arr [idempotencyParameter];
        "requestBody" ~> requestBody (ref "#/components/schemas/CreateChargeRequest") true;
        "responses" ~> obj ["201" ~> jsonResponse; "400" ~> jsonResponse; "404" ~> jsonResponse; "409" ~> jsonResponse]])];
    "/api/v1/billing/charges/{paymentIntentId}" ~> obj [
      "get" ~> obj (authenticatedOperation ++ [
        "tags" ~> arr [str "Billing"]; "summary" ~> str "Get a charge";
        "parameters" ~> arr [ref "#/components/parameters/PaymentIntentId"];
        "responses" ~> obj ["200" ~> jsonResponse; "404" ~> jsonResponse]])]].

Definition organizationPaths : list (string * Json) :=
  [ "/api/v1/organizations" ~> obj [
      "get" ~> obj (authenticatedOperation ++ [
        "tags" ~> arr [str "Organizations"]; "summary" ~> str "List the caller's organizations";
        "responses" ~> obj ["200" ~> jsonResponse; "401" ~> jsonResponse]]);
      "post" ~> obj (protectedMutation ++ [
        "tags" ~> arr [str "Organizations"]; "summary" ~> str "Create an organization (TENANCY_MODE=multi only)";
        "requestBody" ~> requestBody (ref "#/components/schemas/CreateOrganizationRequest") true;
        "responses" ~> obj ["201" ~> jsonResponse; "401" ~> jsonResponse; "409" ~> jsonResponse]])];
    "/api/v1/organizations/{organizationId}/switch" ~> obj [
      "post" ~> obj (protectedMutation ++ [
        "tags" ~> arr [str "Organizations"]; "summary" ~> str "Change the active organization for the current session";
        "description" ~> str "Requires an active membership. The active organization is stored on the session; it is never read from a request header.";
        "parameters" ~> arr [ref "#/components/parameters/OrganizationId"];
        "responses" ~> obj ["200" ~> jsonResponse; "401" ~> jsonResponse; "403" ~> jsonResponse]])];
    "/api/v1/organizations/invitations/accept" ~> obj [
      "post" ~> obj (protectedMutation ++ [
        "tags" ~> arr [str "Organizations"]; "summary" ~> str "Accept an invitation";
        "description" ~> str "The authenticated account's verified email must match the invited address, so a leaked invitation link cannot be redeemed by another account.";
        "requestBody" ~> requestBody (ref "#/components/schemas/AcceptInvitationRequest") true;
        "responses" ~> obj ["200" ~> jsonResponse; "403" ~> jsonResponse; "404" ~> jsonResponse]])];
    "/api/v1/organizations/{organizationId}" ~> obj [
      "get" ~> obj (authenticatedOperation ++ [
        "tags" ~> arr [str "Organizations"]; "summary" ~> str "Get an organization";
        "description" ~> str "The path organization must be the active one; switch first. A platform-wide grant is not sufficient.";
        "parameters" ~> arr [ref "#/components/parameters/OrganizationId"];
        "responses" ~> obj ["200" ~> jsonResponse; "403" ~> jsonResponse; "404" ~> jsonResponse]]);
      "patch" ~> obj (protectedMutation ++ [
        "tags" ~> arr [str "Organizations"]; "summary" ~> str "Update an organization";
        "parameters" ~> arr [ref "#/components/parameters/OrganizationId"];
        "requestBody" ~> requestBody (ref "#/components/schemas/UpdateOrganizationRequest") true;
        "responses" ~> obj ["200" ~> jsonResponse; "403" ~> jsonResponse; "404" ~> jsonResponse]])];
    "/api/v1/organizations/{organizationId}/members" ~> obj [
      "get" ~> obj (authenticatedOperation ++ [
        "tags" ~> arr [str "Organizations"]; "summary" ~> str "List organization members";
        "parameters" ~> arr ([ref "#/components/parameters/OrganizationId"] ++ cursorParameters);
        "responses" ~> obj ["200" ~> jsonResponse; "403" ~> jsonResponse]])];
    "/api/v1/organizations/{organizationId}/members/{userId}" ~> obj [
      "patch" ~> obj (protectedMutation ++ [
        "tags" ~> arr [str "Organizations"]; "summary" ~> str "Change a member's role";
        "parameters" ~> arr [ref "#/components/parameters/OrganizationId"; ref "#/components/parameters/MemberUserId"];
        "requestBody" ~> requestBody (ref "#/components/schemas/ChangeMemberRoleRequest") true;
        "responses" ~> obj ["200" ~> jsonResponse; "400" ~> jsonResponse; "403" ~> jsonResponse; "404" ~> jsonResponse]]);
      "delete" ~> obj (protectedMutation ++ [
        "tags" ~> arr [str "Organizations"]; "summary" ~> str "Remove a member";
        "description" ~> str "Refuses to remove the last active member. Detaches the removed member’s sessions from the organization immediately.";
        "parameters" ~> arr [ref "#/components/parameters/OrganizationId"; ref "#/components/parameters/MemberUserId"];
        "responses" ~> obj ["200" ~> jsonResponse; "403" ~> jsonResponse; "404" ~> jsonResponse; "409" ~> jsonResponse]])];
    "/api/v1/organizations/{organizationId}/invitations" ~> obj [
      "post" ~> obj (protectedMutation ++ [
        "tags" ~> arr [str "Organizations"]; "summary" ~> str "Invite a member";
        "description" ~> str "The invitation token is returned once and only its hash is stored.";
        "parameters" ~> arr [ref "#/components/parameters/OrganizationId"];
        "requestBody" ~> requestBody (ref "#/components/schemas/CreateInvitationRequest") true;
        "responses" ~> obj ["201" ~> jsonResponse; "400" ~> jsonResponse; "403" ~> jsonResponse]])];
    "/api/v1/organizations/{organizationId}/invitations/{invitationId}" ~> obj [
      "delete" ~> obj (protectedMutation ++ [
        "tags" ~> arr [str "Organizations"]; "summary" ~> str "Revoke an invitation";
        "parameters" ~> arr [ref "#/components/parameters/OrganizationId"; ref "#/components/parameters/InvitationId"];
        "responses" ~> obj ["200" ~> jsonResponse; "403" ~> jsonResponse; "404" ~> jsonResponse]])]].

Definition rolePaths : list (string * Json) :=
  [ "/api/v1/roles" ~> obj [
      "get" ~> obj (authenticatedOperation ++ [
        "tags" ~> arr [str "Roles"]; "summary" ~> str "List roles and permissions";
        "responses" ~> obj ["200" ~> jsonResponse; "403" ~> jsonResponse]]);
      "post" ~> obj (protectedMutation ++ [
        "tags" ~> arr [str "Roles"]; "summary" ~> str "Create a role";
        "requestBody" ~> requestBody (ref "#/components/schemas/RoleRequest") true;
        "responses" ~> obj ["201" ~> jsonResponse; "403" ~> jsonResponse]])];
    "/api/v1/roles/{id}/permissions" ~> obj [
      "patch" ~> obj (protectedMutation ++ [
        "tags" ~> arr [str "Roles"]; "summary" ~> str "Replace a role's permission set";
        "parameters" ~> arr [ref "#/components/parameters/RoleId"];
        "requestBody" ~> requestBody (ref "#/components/schemas/RolePermissionsUpdateRequest") true;
        "responses" ~> obj ["200" ~> jsonResponse; "400" ~> jsonResponse; "403" ~> jsonResponse; "404" ~> jsonResponse]])];
    "/api/v1/roles/assignments" ~> obj [
      "post" ~> obj (protectedMutation ++ [
        "tags" ~> arr [str "Roles"]; "summary" ~> str "Assign a role to a user";
        "requestBody" ~> requestBody (ref "#/components/schemas/RoleAssignmentRequest") true;
        "responses" ~> obj ["201" ~> jsonResponse; "403" ~> jsonResponse]]);
      "delete" ~> obj (protectedMutation ++ [
        "tags" ~> arr [str "Roles"]; "summary" ~> str "Revoke a role from a user";
        "parameters" ~> arr [
          obj [
            "name" ~> str "userId"; "in" ~> str "query"; "required" ~> JBool true;
            "schema" ~> obj ["type" ~> str "string"; "format" ~> str "uuid"]];
          obj [
            "name" ~> str "roleId"; "in" ~> str "query"; "required" ~> JBool true;
            "schema" ~> obj ["type" ~> str "string"; "format" ~> str "uuid"]]];
        "responses" ~> obj ["200" ~> jsonResponse; "403" ~> jsonResponse; "404" ~> jsonResponse]])]].

Definition operationPaths : list (string * Json) :=
  [ "/api/v1/audit-events" ~> obj [
      "get" ~> obj (authenticatedOperation ++ [
        "tags" ~> arr [str "Audit"]; "summary" ~> str "List audit events";
        "parameters" ~> arr (cursorParameters ++ [
          obj [
            "name" ~> str "actorUserId"; "in" ~> str "query";
            "schema" ~> obj ["type" ~> str "string"; "format" ~> str "uuid"]];
          obj [
            "name" ~> str "entityType"; "in" ~> str "query";
            "schema" ~> obj ["type" ~> str "string"; "maxLength" ~> num 100]]]);
        "responses" ~> obj ["200" ~> jsonResponse; "403" ~> jsonResponse]])];
    "/api/v1/outbox-events/dead-letter" ~> obj [
      "get" ~> obj (authenticatedOperation ++ [
        "tags" ~> arr [str "Outbox"]; "summary" ~> str "List dead-lettered outbox events";
        "parameters" ~> arr cursorParameters; "responses" ~> obj ["200" ~> jsonResponse; "403" ~> jsonResponse]])];
    "/api/v1/outbox-events/{id}/redrive" ~> obj [
      "post" ~> obj (protectedMutation ++ [
        "tags" ~> arr [str "Outbox"]; "summary" ~> str "Redrive a dead-lettered outbox event";
        "parameters" ~> arr [ref "#/components/parameters/OutboxEventId"];
        "responses" ~> obj ["200" ~> jsonResponse; "403" ~> jsonResponse; "409" ~> jsonResponse]])]].

Definition billingPaths : list (string * Json) :=
  [ "/api/v1/billing/checkout/sessions" ~> obj [
      "post" ~> obj (protectedMutation ++ [
        "tags" ~> arr [str "Billing"]; "summary" ~> str "Create a one-time payment or subscription Checkout session";
        "parameters" ~> arr [idempotencyParameter];
        "requestBody" ~> requestBody (ref "#/components/schemas/CheckoutRequest") true;
        "responses" ~> obj ["201" ~> jsonResponse; "400" ~> jsonResponse; "503" ~> jsonResponse]])];
    "/api/v1/billing/checkout/sessions/{sessionId}" ~> obj [
      "get" ~> obj (authenticatedOperation ++ [
        "tags" ~> arr [str "Billing"]; "summary" ~> str "Retrieve an owned Checkout session";
        "parameters" ~> arr [ref "#/components/parameters/SessionId"];
        "responses" ~> obj ["200" ~> jsonResponse; "404" ~> jsonResponse]])];
    "/api/v1/billing/subscriptions" ~> obj [
      "get" ~> obj (authenticatedOperation ++ [
        "tags" ~> arr [str "Billing"]; "summary" ~> str "List Stripe subscriptions"; "parameters" ~> arr cursorParameters;
        "responses" ~> obj ["200" ~> jsonResponse]])];
    "/api/v1/billing/subscriptions/{subscriptionId}/cancel" ~> obj [
      "post" ~> obj (protectedMutation ++ [
        "tags" ~> arr [str "Billing"]; "summary" ~> str "Cancel a subscription at period end";
        "parameters" ~> arr [
          obj [
            "name" ~> str "subscriptionId"; "in" ~> str "path"; "required" ~> JBool true;
            "schema" ~> obj ["type" ~> str "string"]];
          idempotencyParameter];
        "responses" ~> obj ["200" ~> jsonResponse; "404" ~> jsonResponse]])];
    "/api/v1/billing/subscriptions/{subscriptionId}/resume" ~> obj [
      "post" ~> obj (protectedMutation ++ [
        "tags" ~> arr [str "Billing"]; "summary" ~> str "Resume a subscription scheduled for cancellation";
        "parameters" ~> arr [
          obj [
            "name" ~> str "subscriptionId"; "in" ~> str "path"; "required" ~> JBool true;
            "schema" ~> obj ["type" ~> str "string"]];
          idempotencyParameter];
        "responses" ~> obj ["200" ~> jsonResponse; "404" ~> jsonResponse]])];
    "/api/v1/billing/subscriptions/{subscriptionId}" ~> obj [
      "patch" ~> obj (protectedMutation ++ [
        "tags" ~> arr [str "Billing"];
        "summary" ~> str "Upgrade or downgrade a subscription using a server-owned price key";
        "parameters" ~> arr [
          obj [
            "name" ~> str "subscriptionId"; "in" ~> str "path"; "required" ~> JBool true;
            "schema" ~> obj ["type" ~> str "string"]];
          idempotencyParameter];
        "requestBody" ~> requestBody (ref "#/components/schemas/SubscriptionChangeRequest") true;
        "responses" ~> obj ["200" ~> jsonResponse; "400" ~> jsonResponse; "404" ~> jsonResponse]])];
    "/api/v1/billing/portal/sessions" ~> obj [
      "post" ~> obj (protectedMutation ++ [
        "tags" ~> arr [str "Billing"]; "summary" ~> str "Create a short-lived Stripe Billing Portal session";
        "parameters" ~> arr [idempotencyParameter];
        "requestBody" ~> requestBody (ref "#/components/schemas/BillingPortalRequest") true;
        "responses" ~> obj ["201" ~> jsonResponse; "400" ~> jsonResponse; "503" ~> jsonResponse]])];
    "/api/v1/billing/payments" ~> obj [
      "get" ~> obj (authenticatedOperation ++ [
        "tags" ~> arr [str "Billing"]; "summary" ~> str "List recorded payments"; "parameters" ~> arr cursorParameters;
        "responses" ~> obj ["200" ~> jsonResponse]])];
    "/api/v1/billing/refunds" ~> obj [
      "post" ~> obj (protectedMutation ++ [
        "tags" ~> arr [str "Billing"]; "summary" ~> str "Refund an owned payment or charge";
        "parameters" ~> arr [idempotencyParameter];
        "requestBody" ~> requestBody (ref "#/components/schemas/RefundRequest") true;
        "responses" ~> obj ["201" ~> jsonResponse; "403" ~> jsonResponse; "404" ~> jsonResponse]])];
    "/api/v1/billing/promotion-codes/validate" ~> obj [
      "post" ~> obj (protectedMutation ++ [
        "tags" ~> arr [str "Billing"]; "summary" ~> str "Validate an active Stripe promotion code";
        "requestBody" ~> requestBody (ref "#/components/schemas/PromotionCodeRequest") true;
        "responses" ~> obj ["200" ~> jsonResponse; "400" ~> jsonResponse]])]].

Definition uploadPaths : list (string * Json) :=
  [ "/api/v1/uploads" ~> obj [
      "get" ~> obj (authenticatedOperation ++ [
        "tags" ~> arr [str "Uploads"]; "summary" ~> str "List owned uploads"; "parameters" ~> arr cursorParameters;
        "responses" ~> obj ["200" ~> jsonResponse]]);
      "post" ~> obj (protectedMutation ++ [
        "tags" ~> arr [str "Uploads"]; "summary" ~> str "Initialize a direct S3 or Cloudinary upload";
        "requestBody" ~> requestBody (ref "#/components/schemas/CreateUploadRequest") true;
        "responses" ~> obj ["201" ~> jsonResponse; "400" ~> jsonResponse; "503" ~> jsonResponse]])];
    "/api/v1/uploads/{uploadId}/complete" ~> obj [
      "post" ~> obj (protectedMutation ++ [
        "tags" ~> arr [str "Uploads"]; "summary" ~> str "Verify, quarantine, and enqueue scanning for a direct upload";
        "parameters" ~> arr [ref "#/components/parameters/UploadId"];
        "responses" ~> obj ["200" ~> jsonResponse; "400" ~> jsonResponse; "404" ~> jsonResponse]])];
    "/api/v1/uploads/{uploadId}/download" ~> obj [
      "get" ~> obj (authenticatedOperation ++ [
        "tags" ~> arr [str "Uploads"]; "summary" ~> str "Stream an authorized upload while accounting for bandwidth";
        "parameters" ~> arr [ref "#/components/parameters/UploadId"];
        "responses" ~> obj ["200" ~> binaryDownloadResponse; "404" ~> jsonResponse]])];
    "/api/v1/uploads/{uploadId}" ~> obj [
      "delete" ~> obj (protectedMutation ++ [
        "tags" ~> arr [str "Uploads"]; "summary" ~> str "Delete an owned upload";
        "parameters" ~> arr [ref "#/components/parameters/UploadId"];
        "responses" ~> obj ["200" ~> jsonResponse; "404" ~> jsonResponse]])];
    "/api/v1/webhooks/stripe" ~> obj [
      "post" ~> obj [
        "tags" ~> arr [str "Webhooks"]; "summary" ~> str "Receive a signed Stripe webhook";
        "parameters" ~> arr [
          obj [
            "name" ~> str "Stripe-Signature"; "in" ~> str "header"; "required" ~> JBool true;
            "schema" ~> obj ["type" ~> str "string"]]];
        "requestBody" ~> obj [
          "required" ~> JBool true;
          "content" ~> obj ["application/json" ~> obj ["schema" ~> obj ["type" ~> str "object"]]]];
        "responses" ~> obj ["200" ~> jsonResponse; "400" ~> jsonResponse]]]].

Definition securitySchemes : Json :=
  obj [
    "cookieAuth" ~> obj [
      "type" ~> str "apiKey"; "in" ~> str "cookie"; "name" ~> str (cookie_access cookieNames);
      "description" ~> str "HttpOnly access cookie. Secure deployments use __Host-access_token; local HTTP uses access_token."];
    "csrfToken" ~> obj [
      "type" ~> str "apiKey"; "in" ~> str "header"; "name" ~> str "x-csrf-token";
      "description" ~> str "Required only for POST, PUT, PATCH, and DELETE browser requests."]].

Definition parameters : Json :=
  obj [
    "DeviceId" ~> obj [
      "name" ~> str "deviceId"; "in" ~> str "path"; "required" ~> JBool true;
      "schema" ~> obj ["type" ~> str "string"; "format" ~> str "uuid"]];
    "SessionId" ~> obj ["name" ~> str "sessionId"; "in" ~> str "path"; "required" ~> JBool true; "schema" ~> obj ["type" ~> str "string"]];
    "UserId" ~> obj [
      "name" ~> str "id"; "in" ~> str "path"; "required" ~> JBool true;
      "schema" ~> obj ["type" ~> str "string"; "format" ~> str "uuid"]];
    "RoleId" ~> obj [
      "name" ~> str "id"; "in" ~> str "path"; "required" ~> JBool true;
      "schema" ~> obj ["type" ~> str "string"; "format" ~> str "uuid"]];
    "PaymentMethodId" ~> obj [
      "name" ~> str "paymentMethodId"; "in" ~> str "path"; "required" ~> JBool true;
      "schema" ~> obj ["type" ~> str "string"; "format" ~> str "uuid"]];
    "PaymentIntentId" ~> obj [
      "name" ~> str "paymentIntentId"; "in" ~> str "path"; "required" ~> JBool true;
      "schema" ~> obj ["type" ~> str "string"]];
    "OrganizationId" ~> obj [
      "name" ~> str "organizationId"; "in" ~> str "path"; "required" ~> JBool true;
      "schema" ~> obj ["type" ~> str "string"; "format" ~> str "uuid"]];
    "MemberUserId" ~> obj [
      "name" ~> str "userId"; "in" ~> str "path"; "required" ~> JBool true;
      "schema" ~> obj ["type" ~> str "string"; "format" ~> str "uuid"]];
    "InvitationId" ~> obj [
      "name" ~> str "invitationId"; "in" ~> str "path"; "required" ~> JBool true;
      "schema" ~> obj ["type" ~> str "string"; "format" ~> str "uuid"]];
    "OutboxEventId" ~> obj [
      "name" ~> str "id"; "in" ~> str "path"; "required" ~> JBool true;
      "schema" ~> obj ["type" ~> str "string"; "format" ~> str "uuid"]];
    "UploadId" ~> obj [
      "name" ~> str "uploadId"; "in" ~> str "path"; "required" ~> JBool true;
      "schema" ~> obj ["type" ~> str "string"; "format" ~> str "uuid"]];
    "IdempotencyKey" ~> obj [
      "name" ~> str "Idempotency-Key"; "in" ~> str "header"; "required" ~> JBool true;
      "description" ~> str "Stable business-operation key. Reuse with the same payload replays the encrypted stored response; reuse with another payload returns 409.";
      "schema" ~> obj ["type" ~> str "string"; "minLength" ~> num 8; "maxLength" ~> num 200]]].

Definition info : Json :=
  obj [
    "title" ~> str "Backend Foundation API"; "version" ~> str "0.1.0";
    "description" ~> str "Secure cookie-authenticated API with OIDC social login, owner-scoped account management, Stripe billing, and durable webhook processing."].

Definition tags : Json :=
  arr [
    obj ["name" ~> str "System"]; obj ["name" ~> str "Auth"]; obj ["name" ~> str "Users"]; obj ["name" ~> str "Roles"];
    obj ["name" ~> str "Organizations"]; obj ["name" ~> str "Audit"]; obj ["name" ~> str "Outbox"];
    obj ["name" ~> str "Billing"]; obj ["name" ~> str "Uploads"]; obj ["name" ~> str "Webhooks"]].

Definition components : Json := obj ["securitySchemes" ~> securitySchemes; "parameters" ~> parameters; "schemas" ~>
  obj ([
      "ApiResponse" ~> objectSchema (obj [
          "success" ~> obj ["type" ~> str "boolean"]; "message" ~> obj ["type" ~> str "string"]; "data" ~> obj [];
          "error" ~> obj []; "meta" ~> obj []]) []] ++ openApiSchemaComponents)].

Definition openApiDocument : Json := obj ["openapi" ~> str "3.1.0"; "info" ~> info;
  "servers" ~> arr [obj ["url" ~> str "/"]]; "tags" ~> tags;
  "paths" ~> obj (systemPaths ++ sessionPaths ++ credentialPaths ++ userPaths ++ cardPaths ++ organizationPaths ++ rolePaths
    ++ operationPaths ++ billingPaths ++ uploadPaths);
  "components" ~> components].

End Document.

(** ** docs.routes.ts *)

(** A text of the source with its double quotes written as backticks. *)
Definition quoted (s : string) : string := replaceChar "`" (String dquoteChar EmptyString) s.
Definition swaggerHtml : string := quoted "<!doctype html>
<html lang=`en`>
<head>
  <meta charset=`utf-8`>
  <meta name=`viewport` content=`width=device-width, initial-scale=1`>
  <title>Backend Foundation API Docs</title>
  <link rel=`stylesheet` href=`/docs/assets/swagger-ui.css`>
</head>
<body>
  <div id=`swagger-ui`></div>
  <script src=`/docs/assets/swagger-ui-bundle.js` defer></script>
  <script src=`/docs/swagger-initializer.js` defer></script>
</body>
</html>".
Definition swaggerInitializer : string := "window.ui = SwaggerUIBundle({
  url: '/openapi.json',
  dom_id: '#swagger-ui',
  deepLinking: true,
  displayRequestDuration: true,
});".

(** The answers are no envelopes: a script, a document, a page. *)
Inductive DocsData := dd_script (text : string) | dd_document (document : Json) | dd_page (html : string).
Inductive DocsRoute := d_initializer | d_document | d_page.

Definition routeOf (request : WebRequest) : option DocsRoute :=
  let path := web_path request in
  if web_method request !== "GET" then None
  else if path === "/docs/swagger-initializer.js" then Some d_initializer
  else if (path === "/openapi.json") || (path === "/api/v1/openapi.json") then Some d_document
  else if (path === "/docs") || (path === "/api/v1/docs") then Some d_page
  else None.

Definition serveRoute `{Platform} `{Redis} (toJSONSchema : string -> list (string * Json)) (route : DocsRoute)
    : Proc Exchange (Success DocsData) :=
  match route with
  | d_initializer => mret (answerWith 200 "OK" (dd_script swaggerInitializer))
  | d_document => mret (answerWith 200 "OK" (dd_document (openApiDocument toJSONSchema)))
  | d_page => setHeader "Cache-Control" "no-store";; mret (answerWith 200 "OK" (dd_page swaggerHtml))
  end.
End docs.
