(* ===== verification/App.v ===== *)
(** * The application

    app.ts from the request context on: the webhooks above every guard, the system routes and the unsubscribe link between
    the ceiling and the CSRF check, then the routers in the order they are mounted. *)

From Stdlib Require Import ZArith Lia Bool.
From S2P Require Import Prelude Store Database JsString JsonText Platform Request AuditTrail AccessControl ClientIp RateLimit Stripe StripeCharges UploadStorage Scheduler Templates Guards Http AuthApi AdminApi BillingApi ContentApi OperationsApi Docs.

Open Scope string_scope.

Inductive AppData :=
  | ad_auth (d : Json) | ad_billing (d : BillingData) | ad_users (d : UsersData) | ad_roles (d : RolesData)
  | ad_organizations (d : OrganizationsData) | ad_chat (d : ChatData) | ad_operations (d : OperationsData)
  | ad_uploads (d : UploadsData) | ad_notifications (d : NotificationsData) | ad_status (status : string) | ad_docs (d : docs.DocsData).

Inductive AppRoute :=
  | a_auth (route : AuthRoute) | a_billing (route : BillingRoute) | a_users (route : UsersRoute) | a_roles (route : RolesRoute)
  | a_organizations (route : OrganizationsRoute) | a_chat (route : ChatRoute) | a_operations (route : OperationsRoute)
  | a_uploads (route : UploadsRoute) | a_notifications (route : NotificationsRoute).

(** What stands above the CSRF check. *)
Inductive PublicRoute := p_stripe | p_email_event | p_docs (route : docs.DocsRoute) | p_health | p_ready | p_unsubscribe.

(** A router's answers among the application's. *)
Definition answering `{Platform} `{Redis} {D E} (f : D -> E) (m : Proc Exchange (Success D)) : Proc Exchange (Success E) :=
  s ← m; mret (mkSuccess (su_status s) (su_message s) (option_map f (su_data s)) (su_meta s)).

(** What becomes of the calls a request makes outside the process and what it draws. *)
Record AppDraws := mkAppDraws {
  ap_auth : AuthDraws; ap_invitation : string; ap_iv : string
}.
Record AppReplies := mkAppReplies { ap_guards : AuthReplies; ap_address : RedisReply; ap_ready : res unit }.

Section App.
Context `{Platform} `{Redis} `{TemplateFiles}.
(** [production]: [env.NODE_ENV === 'production'] *)
Variables (production : bool) (toJSONSchema : string -> list (string * Json)) (auth_module : AuthModule) (formats : Formats) (isUrl : string -> bool) (listing : UserListing)
  (hmacDigest : string -> string -> string) (stripeClient : option StripeClient) (resolver : Ambient -> ChargeableResolver)
  (provider : Ambient -> option UploadProviderAdapter) (QUEUE_PREFIX SCHEDULER_TIMEZONE : string) (SCHEDULER_ENABLED : bool)
  (shared : Shared) (add : string -> Proc Shared (option string)).
Variables (draws : AppDraws) (replies : AppReplies).
Implicit Types (amb : Ambient) (request : ApiRequest).

Definition publicRouteOf (request : WebRequest) : option PublicRoute :=
  let asks method path := (web_method request === method) && (web_path request === path) in
  if BILLING_ENABLED env && asks "POST" "/api/v1/webhooks/stripe" then Some p_stripe
  else if asks "POST" "/api/v1/webhooks/email-events" then Some p_email_event
  else match docs.routeOf request with
  | Some route => Some (p_docs route)
  | None =>
      if asks "GET" "/health" then Some p_health
      else if asks "GET" "/ready" then Some p_ready
      else if notifications_api.isUnsubscribe request then Some p_unsubscribe
      else None
  end.

(** The first router that has a route for the request. *)
Definition orElse {A} (first second : option A) : option A := match first with Some _ => first | None => second end.
Definition routeOf (request : WebRequest) : option AppRoute :=
  orElse (option_map a_auth (AuthApi.routeOf request))
  (orElse (option_map a_billing (billing_api.routeOf request))
  (orElse (option_map a_users (users_api.routeOf request))
  (orElse (option_map a_roles (roles_api.routeOf request))
  (orElse (option_map a_organizations (organizations_api.routeOf request))
  (orElse (option_map a_chat (chat_api.routeOf request))
  (orElse (option_map a_operations (operations_api.routeOf request))
  (orElse (option_map a_uploads (uploads_api.routeOf request))
          (option_map a_notifications (notifications_api.routeOf production request))))))))).

Definition guards : GuardReplies := rr_guards (ap_guards replies).

Definition serveRoute (route : AppRoute) amb request : Proc Exchange (Success AppData) :=
  match route with
  | a_auth r => answering ad_auth (AuthApi.serveRoute auth_module (ap_auth draws) (ap_guards replies) r amb request)
  | a_billing r =>
      answering ad_billing (billing_api.serveRoute formats isUrl stripeClient resolver (ap_iv draws) guards r amb request)
  | a_users r => answering ad_users (users_api.serveRoute formats listing guards r amb request)
  | a_roles r => answering ad_roles (roles_api.serveRoute formats guards r amb request)
  | a_organizations r =>
      answering ad_organizations (organizations_api.serveRoute formats (ap_invitation draws) (ap_iv draws) guards r amb request)
  | a_chat r => answering ad_chat (chat_api.serveRoute formats guards (ap_address replies) r amb request)
  | a_operations r =>
      answering ad_operations (operations_api.serveRoute formats guards QUEUE_PREFIX SCHEDULER_TIMEZONE SCHEDULER_ENABLED shared add r amb request)
  | a_uploads r => answering ad_uploads (uploads_api.serveRoute formats provider guards (ap_address replies) r amb request)
  | a_notifications r => answering ad_notifications (notifications_api.serveRoute guards r amb request)
  end.

(** [globalIpRateLimit] *)
Definition ceiling amb request : Proc Exchange unit :=
  inLimits (globalIpRateLimit (gr_ceiling guards) (nowMs amb) (http_ip (api_http request))).

(** [rawBody] is what [express.raw] read of a webhook. *)
Definition servePublic (route : PublicRoute) amb request (rawBody : option string) : Proc Exchange (Success AppData) :=
  match route with
  | p_stripe =>
      answering ad_billing (billing_controller.receive stripeClient amb rawBody (header "stripe-signature" (api_web request)))
  | p_email_event =>
      answering ad_notifications (notifications_api.receiveEmailEvent formats hmacDigest amb rawBody
        (header "x-email-signature" (api_web request)))
  | p_docs r => ceiling amb request;; answering ad_docs (docs.serveRoute toJSONSchema r)
  | p_health => ceiling amb request;; mret (answerWith 200 "Service is healthy" (ad_status "ok"))
  | p_ready => ceiling amb request;; lift (ap_ready replies);; mret (answerWith 200 "Service is ready" (ad_status "ready"))
  | p_unsubscribe =>
      ceiling amb request;;
      answering ad_notifications (notifications_api.serveUnsubscribe formats hmacDigest (ap_address replies) amb request)
  end.

Definition handle request (rawBody : option string) amb : Proc Exchange (Success AppData) :=
  match publicRouteOf (api_web request) with
  | Some route => servePublic route amb request rawBody
  | None => dispatch guards routeOf (fun route amb => serveRoute route amb request) request amb
  end.

(** [createApp] serving one request. *)
Definition serveApp (now : Z) request (rawBody : option string) (x : Exchange) : Reply AppData * Exchange :=
  respond (requestContext (http_id (api_http request)) (handle request rawBody) (mkAmbient now None) x).
End App.
