(* ===== verification/AppSpec.v ===== *)
(** * What the application guarantees as a whole

    The access matrix: what every route of every router asks of a request before it may touch the database. *)

From Stdlib Require Import ZArith Lia Bool.
From stdpp Require Import gmap strings.
From S2P Require Import Prelude Store Database JsString JsonText Platform Request AuditTrail TenantScope Pagination Sessions SessionsSpec Outbox Account Organizations Roles AccessControl PermissionsSpec ClientIp RateLimit RateLimitSpec Stripe StripeCharges StripeRefunds StripeMethods StripeWebhooks ChargesSpec UploadStorage Uploads Erasure Chat Users Notifications Maintenance AuditJobs Scheduler Templates Guards Http HttpSpec AuthApi AuthApiSpec AdminApi AdminApiSpec BillingApi BillingApiSpec ContentApi OperationsApi Docs App.

Open Scope string_scope.

(** ** What a route asks for *)

Inductive Requirement :=
  | open_to_all
  | a_session
  | a_permission (code : string) (scope : PermissionScope)
  | within_organization (code organizationId : string).

Section Requirements.
Context `{Platform} `{Redis}.

Definition operationsPermission (route : OperationsRoute) : Requirement :=
  match route with
  | op_dead_letters => a_permission "outbox:read" scope_global
  | op_redrive _ => a_permission "outbox:write" scope_global
  | op_audit => a_permission "audit:read" scope_context
  | op_jobs => a_permission "scheduler:read" scope_global
  | op_run _ => a_permission "scheduler:write" scope_global
  end.

Definition requirementOf (route : AppRoute) : Requirement :=
  match route with
  | a_auth r => if needsSession r then a_session else open_to_all
  | a_billing r =>
      if BILLING_OWNER env === Billing_organization then a_permission (billing_api.permissionOf r) scope_organization else a_session
  | a_users r => match usersPermission r with Some code => a_permission code scope_global | None => a_session end
  | a_roles r => a_permission (rolesPermission r) scope_global
  | a_organizations r => match managed r with Some (code, id) => within_organization code id | None => a_session end
  | a_operations r => operationsPermission r
  | a_chat _ | a_uploads _ | a_notifications (n_preferences | n_update_preference) => a_session
  | a_notifications (n_templates | n_preview _) => open_to_all
  end.

(** The database grants [code] in this scope: by a platform role, or by a role of the active membership in the session's
    organization. *)
Definition grants (code : string) (scope : PermissionScope) (state : AuthState) (w : World) : Prop :=
  (scope <> scope_organization /\ hasGlobalGrant (auth_userId state) code w = true)
  \/ (scope <> scope_global /\ exists o, auth_organizationId state = Some o /\ hasOrganizationGrant (auth_userId state) o code w = true).

Definition met (amb : Ambient) (request : ApiRequest) (w : World) (requirement : Requirement) : Prop :=
  match requirement with
  | open_to_all => True
  | a_session => exists state, actingAs amb request w state
  | a_permission code scope => exists state, actingAs amb request w state /\ grants code scope state w
  | within_organization code id => exists state, actingAs amb request w state /\ auth_organizationId state = Some id
      /\ hasOrganizationGrant (auth_userId state) id code w = true
  end.

Lemma decision_grants state code scope w : permissionDecision state code scope w = true -> grants code scope state w.
Proof.
  unfold permissionDecision, grants. intros Hd.
  destruct (hasGlobalGrant (auth_userId state) code w) eqn:Eg; destruct scope; cbn in Hd; try (by left).
  all: right; split; [done|]; destruct (auth_organizationId state) as [o|]; [|done]; cbn in Hd.
  all: destruct (negb (o === EmptyString)); [|done]; by exists o.
Qed.
End Requirements.

Section Gates.
Context `{Platform} `{Redis}.
Variables (replies : GuardReplies) (amb : Ambient) (request : ApiRequest) (x : Exchange).
Hypothesis Hsound : guardsSound amb request x.
Notation w := (ex_world x).
Notation gatedBy requirement m := (gatedFrom (met amb request w requirement) w (ex_permissions x) m).

Lemma gated_session {D} (handler : Ambient -> AuthState -> Proc Exchange D) : gatedBy a_session (withAuth replies amb request handler).
Proof.
  eapply gatedFrom_impl; [apply (gatedFrom_auth _ _ _ _ _ (fun _ => True)); intros; by apply gated_from, gated_open|].
  intros (state & Ha & _). by exists state.
Qed.

Lemma gated_permission {D} code scope (handler : Ambient -> AuthState -> Proc Exchange D) :
  gatedBy (a_permission code scope) (withPermission replies code scope amb request handler).
Proof.
  destruct Hsound as [Hco Hwf].
  eapply gatedFrom_impl; [apply (gatedFrom_permission _ _ _ _ _ _ _ (fun _ => True)); intros; by apply gated_open|].
  intros (state & Ha & Hg & _). exists state. split; [done|]. by apply decision_grants, (granted_now _ _ _ _ _ _ _ _ Ha (Hwf _ Ha) Hco Hg).
Qed.

Lemma gatedFrom_after {A B} P (m : Proc Exchange A) (k : A -> Proc Exchange B) :
  proc_pres (fun y => ex_world y = w /\ ex_permissions y = ex_permissions x) m ->
  (forall a, gatedFrom P w (ex_permissions x) (k a)) -> gatedFrom P w (ex_permissions x) (m ≫= k).
Proof.
  intros Hm Hk y Hy Hc. match goal with |- refused _ ?run \/ _ => destruct run as [r z] eqn:E end.
  apply (proc_bind_pres (fun y => ex_world y = w /\ ex_permissions y = ex_permissions x)) in E
    as [(e & -> & Hz & _)|(a & y1 & _ & [Hy1 Hc1] & E)]; [left; split; [by exists e|done]| |done|done].
  specialize (Hk a y1 Hy1 Hc1). by rewrite E in Hk.
Qed.

Lemma gated_address {D} P reply scope limit window (m : Proc Exchange D) :
  gatedFrom P w (ex_permissions x) m -> gatedFrom P w (ex_permissions x) (limitAddress reply scope limit window amb request;; m).
Proof.
  intros Hm. apply gatedFrom_after; [|by intros _]. intros y [Hy Hc]. unfold limitAddress.
  by split; [apply inLimits_world|rewrite inLimits_cache].
Qed.

Lemma gated_answering {D E} P (f : D -> E) (m : Proc Exchange (Success D)) :
  gatedFrom P w (ex_permissions x) m -> gatedFrom P w (ex_permissions x) (answering f m).
Proof.
  intros Hm y Hy Hc. destruct (Hm y Hy Hc) as [[[e He] Hw]|HP]; [left|by right].
  destruct (m y) as [r z] eqn:E1. cbn in He, Hw. subst r. unfold answering. rewrite (proc_call_err _ _ _ _ _ E1). by split; [exists e|].
Qed.
End Gates.

Section App.
Context `{Platform} `{Redis} `{TemplateFiles}.
Variables (production : bool) (toJSONSchema : string -> list (string * Json)) (auth_module : AuthModule) (formats : Formats) (isUrl : string -> bool) (listing : UserListing)
  (hmacDigest : string -> string -> string) (stripeClient : option StripeClient) (resolver : Ambient -> ChargeableResolver)
  (provider : Ambient -> option UploadProviderAdapter) (QUEUE_PREFIX SCHEDULER_TIMEZONE : string) (SCHEDULER_ENABLED : bool)
  (shared : Shared) (add : string -> Proc Shared (option string)) (draws : AppDraws) (replies : AppReplies).
Implicit Types (amb : Ambient) (request : ApiRequest) (w : World) (x : Exchange).

Notation serve := (serveApp production toJSONSchema auth_module formats isUrl listing hmacDigest stripeClient resolver provider QUEUE_PREFIX SCHEDULER_TIMEZONE
  SCHEDULER_ENABLED shared add draws replies).
Notation serveOne := (serveRoute auth_module formats isUrl listing stripeClient resolver provider QUEUE_PREFIX SCHEDULER_TIMEZONE
  SCHEDULER_ENABLED shared add draws replies).

Lemma anyRoute_gated route amb request x : guardsSound amb request x ->
  gatedFrom (met amb request (ex_world x) (requirementOf route)) (ex_world x) (ex_permissions x) (serveOne route amb request).
Proof.
  intros Hs. destruct route as [r|r|r|r|r|r|r|r|r]; cbn [serveRoute requirementOf]; apply gated_answering.
  - eapply gatedFrom_impl; [apply gated_from, AuthApiSpec.serveRoute_gated|]. intros [Hn _]. destruct (needsSession r); [by apply Hn|done].
  - unfold billing_api.serveRoute, billing_api.billingGuards.
    destruct (BILLING_OWNER env === Billing_organization); [by apply gated_permission|by apply gated_session].
  - destruct r; cbn [users_api.serveRoute usersPermission]; first [by apply gated_session|by apply gated_permission].
  - destruct r; by apply gated_permission.
  - eapply gatedFrom_impl; [apply organizations_gated|]. intros (state & Ha & Hm).
    destruct (managed r) as [[code id]|]; [|by exists state]. exists state. split; [done|]. by eapply managedState_grants.
  - destruct r; cbn [chat_api.serveRoute]; try apply gated_address; by apply gated_session.
  - destruct r; by apply gated_permission.
  - destruct r; cbn [uploads_api.serveRoute]; try apply gated_address; by apply gated_session.
  - destruct r; [by apply gated_session..|by apply gated_from, gated_open|by apply gated_from, gated_open].
Qed.

(** What stands in for a session above the CSRF check: a signature, or a signed link. *)
Definition publicMet (route : PublicRoute) amb request (rawBody : option string) : Prop :=
  match route with
  | p_stripe => exists client body event, stripeClient = Some client /\ rawBody = Some body
      /\ webhooks_constructEvent client body (header "stripe-signature" (api_web request) ??? "") (STRIPE_WEBHOOK_SECRET env) = Ok event
  | p_email_event => exists body, rawBody = Some body
      /\ validSignature hmacDigest body (header "x-email-signature" (api_web request) ??? "") = true
  | p_unsubscribe => exists token payload, notifications_api.unsubscribeQuery (api_query request) = Some token
      /\ verifyUnsubscribeToken hmacDigest (fmt_isUuid formats) amb token = Some payload
  | p_docs _ | p_health | p_ready => True
  end.

Lemma gated_throw {D} (P : Prop) w error : gated P w (throw error : Proc Exchange D).
Proof. intros y Hy. left. by split; [eexists|]. Qed.
Lemma gated_world {A B} (P : Prop) w (m : Proc World A) (k : A -> Proc Exchange B) :
  (exists e, m w = (Err e, w)) \/ P -> gated P w (inWorld m ≫= k).
Proof.
  intros [[e He]|HP]; [|by apply gated_open]. intros y Hy. left. unfold mbind, proc_bind, inWorld. rewrite Hy, He. by split; [exists e|].
Qed.

Lemma gated_ceiling {D} (P : Prop) amb request x (m : Proc Exchange D) :
  gatedFrom P (ex_world x) (ex_permissions x) m -> gatedFrom P (ex_world x) (ex_permissions x) (ceiling replies amb request;; m).
Proof.
  intros Hm. apply gatedFrom_after; [|by intros _]. intros y [Hy Hc]. unfold ceiling.
  by split; [apply inLimits_world|rewrite inLimits_cache].
Qed.

Lemma servePublic_gated route amb request rawBody x :
  gatedFrom (publicMet route amb request rawBody) (ex_world x) (ex_permissions x)
    (servePublic toJSONSchema formats hmacDigest stripeClient replies route amb request rawBody).
Proof.
  destruct route; cbn [servePublic publicMet]; try (by apply gated_ceiling, gated_from, gated_open).
  - apply gated_answering, gated_from. unfold billing_controller.receive. destruct rawBody as [body|]; [|by apply gated_throw].
    destruct (truthy _); cbn [negb]; [|by apply gated_throw]. apply gated_world.
    unfold verifyAndStoreStripeEvent. destruct stripeClient as [client|]; [|left; by eexists].
    destruct (STRIPE_WEBHOOK_SECRET env === EmptyString); [left; by eexists|].
    destruct (webhooks_constructEvent _ _ _ _) as [event|e] eqn:E; [right; by exists client, body, event|left; by eexists].
  - apply gated_answering, gated_from. unfold notifications_api.receiveEmailEvent. destruct rawBody as [body|]; [|by apply gated_throw].
    destruct (truthy _); cbn [negb]; [|by apply gated_throw]. apply gated_world. unfold processEmailProviderEvent.
    destruct (validSignature _ _ _) eqn:E; [right; by exists body|left; by eexists].
  - apply gated_ceiling, gated_answering. unfold notifications_api.serveUnsubscribe. apply gated_address, gated_from, gated_input.
    intros token Ht. unfold notifications_api.unsubscribe, unsubscribeWithToken.
    destruct (verifyUnsubscribeToken _ _ _ _) as [payload|] eqn:E; [apply gated_open; by exists token, payload|].
    intros y Hy. left. cbn. by split; [eexists|].
Qed.


(** ** Safe methods *)

(** The reads, and the tables each may touch: the meter of a download; the billing owner's row, where the first call to
    Stripe leaves the customer it made; the log of the calls to Stripe and to the storage. *)
Definition reads (route : AppRoute) : bool :=
  match route with
  | a_auth r => match r with r_csrf => true | _ => false end
  | a_billing r =>
      match r with b_checkout_status _ | b_subscriptions | b_payments | b_methods | b_charge_status _ => true | _ => false end
  | a_users r => match r with u_me | u_devices | u_sessions | u_index => true | _ => false end
  | a_roles r => match r with ro_index => true | _ => false end
  | a_organizations r => match r with o_index | o_show _ | o_members _ => true | _ => false end
  | a_chat r => match r with c_index | c_show _ | c_messages _ => true | _ => false end
  | a_operations r => match r with op_dead_letters | op_audit | op_jobs => true | _ => false end
  | a_uploads r => match r with up_r_index | up_r_download _ => true | _ => false end
  | a_notifications r => match r with n_preferences | n_templates | n_preview _ => true | _ => false end
  end.
Definition withoutTraces (route : AppRoute) w : World :=
  let w := w <| calls := [] |> in
  match route with
  | a_uploads (up_r_download _) => w <| uploadBandwidthUsages := [] |> <| drawn := 0 |>
  | a_billing b_subscriptions | a_billing (b_charge_status _) => w <| users := [] |> <| organizations := [] |>
  | _ => w
  end.

Definition safe (request : WebRequest) : Prop := (web_method request === "POST") = false /\ (web_method request === "PUT") = false
  /\ (web_method request === "PATCH") = false /\ (web_method request === "DELETE") = false.

Lemma exempt_safe (request : WebRequest) : mem (web_method request) unsafeMethods = false -> safe request.
Proof.
  unfold mem, unsafeMethods. cbn [existsb]. intros Hm. bools. unfold safe. repeat split; apply bool_decide_eq_false; congruence.
Qed.

(** No router has a route that writes under a safe method. *)
Ltac no_write :=
  intros (HP & HU & HA & HD) Hr; cbv zeta in Hr; rewrite ?HP, ?HU, ?HA, ?HD in Hr; cbn in Hr;
  repeat case_match; simplify_eq; rewrite ?andb_false_r, ?orb_true_r in *; try done.

Lemma safe_auth (request : WebRequest) r : safe request -> AuthApi.routeOf request = Some r -> reads (a_auth r) = true.
Proof. unfold AuthApi.routeOf. no_write. Qed.
Lemma safe_billing (request : WebRequest) r : safe request -> billing_api.routeOf request = Some r -> reads (a_billing r) = true.
Proof. unfold billing_api.routeOf. no_write. Qed.
Lemma safe_users (request : WebRequest) r : safe request -> users_api.routeOf request = Some r -> reads (a_users r) = true.
Proof. unfold users_api.routeOf. no_write. Qed.
Lemma safe_roles (request : WebRequest) r : safe request -> roles_api.routeOf request = Some r -> reads (a_roles r) = true.
Proof. unfold roles_api.routeOf. no_write. Qed.
Lemma safe_organizations (request : WebRequest) r : safe request -> organizations_api.routeOf request = Some r -> reads (a_organizations r) = true.
Proof. unfold organizations_api.routeOf. no_write. Qed.
Lemma safe_chat (request : WebRequest) r : safe request -> chat_api.routeOf request = Some r -> reads (a_chat r) = true.
Proof. unfold chat_api.routeOf. no_write. Qed.
Lemma safe_operations (request : WebRequest) r : safe request -> operations_api.routeOf request = Some r -> reads (a_operations r) = true.
Proof. unfold operations_api.routeOf. no_write. Qed.
Lemma safe_uploads (request : WebRequest) r : safe request -> uploads_api.routeOf request = Some r -> reads (a_uploads r) = true.
Proof. unfold uploads_api.routeOf. no_write. Qed.
Lemma safe_notifications (request : WebRequest) r : safe request -> notifications_api.routeOf production request = Some r -> reads (a_notifications r) = true.
Proof. unfold notifications_api.routeOf. no_write. Qed.

Lemma safe_reads (request : WebRequest) route : safe request -> routeOf production request = Some route -> reads route = true.
Proof.
  unfold routeOf. intros Hs. repeat (match goal with |- orElse (option_map _ ?o) _ = _ -> _ => destruct o eqn:? end; [intros [= <-]|cbn [orElse option_map]]).
  all: eauto using safe_auth, safe_billing, safe_users, safe_roles, safe_organizations, safe_chat, safe_operations, safe_uploads.
  destruct (notifications_api.routeOf production request) eqn:E; [|done]. intros [= <-]. by eapply safe_notifications.
Qed.
End App.

(** What holds of the database still holds after a part of a request. *)
Section Frames.
Context `{Platform} `{Redis}.
Variable I : World -> Prop.
Implicit Types (amb : Ambient) (request : ApiRequest).
Definition through (x : Exchange) : Prop := I (ex_world x).

Lemma frame_world {A} (m : Proc World A) : proc_pres I m -> proc_pres through (inWorld m).
Proof. intros Hm x Hx. unfold inWorld. specialize (Hm _ Hx). by destruct (m (ex_world x)). Qed.
Lemma frame_limits {A} (m : Proc RateState A) : proc_pres through (inLimits m).
Proof. intros x Hx. unfold through in *. unfold inLimits. by destruct (m _). Qed.
Lemma frame_cookies l : proc_pres through (changeCookies l).
Proof. by intros x Hx. Qed.
Lemma frame_header n v : proc_pres through (setHeader n v).
Proof. by intros x Hx. Qed.
Lemma frame_input {A B} (schema : Json -> option A) input (k : A -> Proc Exchange B) :
  (forall a, proc_pres through (k a)) -> proc_pres through (withInput schema input k).
Proof. intros Hk. unfold withInput. apply pres_proc_bind; [by apply lift_pres|done]. Qed.
Lemma frame_auth {B} replies amb request (k : Ambient -> AuthState -> Proc Exchange B) :
  (forall amb auth, proc_pres through (k amb auth)) -> proc_pres through (withAuth replies amb request k).
Proof.
  intros Hk. unfold withAuth. apply pres_proc_bind; [|intros [auth amb']; apply Hk]. intros x Hx. unfold through in *.
  destruct (authenticated replies amb request x) as [r x'] eqn:E. apply authenticated_runs in E as (Hw & _). cbn. by rewrite Hw.
Qed.
Lemma frame_permission {B} replies code scope amb request (k : Ambient -> AuthState -> Proc Exchange B) :
  (forall amb auth, proc_pres through (k amb auth)) -> proc_pres through (withPermission replies code scope amb request k).
Proof.
  intros Hk. apply frame_auth. intros amb' auth. apply pres_proc_bind; [|by intros _].
  intros x Hx. unfold through in *. unfold checkPermission. by destruct (permissionGuard _ _ _ _ _ _ _).
Qed.
Lemma frame_address reply scope limit window amb request : proc_pres through (limitAddress reply scope limit window amb request).
Proof. apply frame_limits. Qed.
Lemma frame_answering {D E} (f : D -> E) (m : Proc Exchange (Success D)) : proc_pres through m -> proc_pres through (answering f m).
Proof. intros Hm. unfold answering. apply pres_proc_bind; [done|]. by intros s x Hx. Qed.
End Frames.

(** ** The services that read *)

Section Readers.
Context `{Platform} `{Redis}.
Variable I : World -> Prop.
Implicit Types (amb : Ambient).

Lemma reads_payments amb userId input : proc_pres I (listPayments amb userId input).
Proof. unfold listPayments, getBillingUser, lift. pres. Qed.
Lemma reads_methods amb userId : proc_pres I (listPaymentMethods amb userId).
Proof. unfold listPaymentMethods, lift. pres. Qed.
Lemma reads_currentUser userId : tx_pres I (getCurrentUser userId).
Proof. unfold getCurrentUser. pres. Qed.
Lemma reads_devices userId : tx_pres I (listDevices userId).
Proof. unfold listDevices. pres. Qed.
Lemma reads_sessions userId sessionId : tx_pres I (listSessions userId sessionId).
Proof. unfold listSessions. pres. Qed.
Lemma reads_users order contains input search status : proc_pres I (listUsers order contains input search status).
Proof. unfold listUsers, paginateCursor. pres. Qed.
Lemma reads_roles : tx_pres I listRoles.
Proof. unfold listRoles. pres. Qed.
Lemma reads_mine userId : tx_pres I (listMyOrganizations userId).
Proof. unfold listMyOrganizations. pres. Qed.
Lemma reads_organization id : tx_pres I (getOrganization id).
Proof. unfold getOrganization. pres. Qed.
Lemma reads_members id query : proc_pres I (listMembers id query).
Proof. unfold listMembers, paginateCursor. pres. by intros w Hw. Qed.
Lemma reads_conversations amb userId limit : proc_pres I (listConversations amb userId limit).
Proof. unfold listConversations. pres. Qed.
Lemma reads_messages amb conversationId userId afterSeq beforeSeq limit :
  proc_pres I (listMessages amb conversationId userId afterSeq beforeSeq limit).
Proof. unfold listMessages, requireParticipant. pres. Qed.
Lemma reads_uploads amb userId input : proc_pres I (listUploads amb userId input).
Proof. unfold listUploads. pres. Qed.
Lemma reads_deadLetters input : proc_pres I (listDeadLetterEvents input).
Proof. unfold listDeadLetterEvents, paginateCursor. pres. Qed.
Lemma reads_audit amb input : proc_pres I (listAuditEvents amb input).
Proof. unfold listAuditEvents, paginateCursor. pres. Qed.
Lemma reads_preferences amb userId : tx_pres I (listNotificationPreferences amb userId).
Proof. unfold listNotificationPreferences, inPreferenceScope. pres. Qed.

Hypothesis Hcalls : forall w call, I w -> I (w <| calls ::= fun l => (l ++ [call])%list |>).

Lemma reads_checkoutSession amb userId sessionId client : proc_pres I (getCheckoutSession amb userId sessionId client).
Proof.
  unfold getCheckoutSession, getBillingCustomerId, getBillingUser, getBillingOrganization, lift. pres. apply pres_provider. intros w. apply Hcalls.
Qed.
Lemma reads_subscriptions amb userId cursor limit client :
  (forall w f, I w -> I (w <| users ::= f |>)) -> (forall w f, I w -> I (w <| organizations ::= f |>)) ->
  proc_pres I (listSubscriptions amb userId cursor limit client).
Proof.
  intros Hu Ho. unfold listSubscriptions, lift. pres; [by apply pres_ensureCustomer; auto|]. apply pres_provider. intros w. apply Hcalls.
Qed.
Lemma reads_charge amb userId paymentIntentId client :
  (forall w f, I w -> I (w <| users ::= f |>)) -> (forall w f, I w -> I (w <| organizations ::= f |>)) ->
  proc_pres I (getCharge amb userId paymentIntentId client).
Proof.
  intros Hu Ho. unfold getCharge, lift. pres; [by apply pres_ensureCustomer; auto|]. apply pres_provider. intros w. apply Hcalls.
Qed.
Lemma pres_known {A B} (a : A) (k : A -> Proc World B) : proc_pres I (k a) -> proc_pres I (transact (tx_lift (Ok a)) ≫= k).
Proof. intros Hk w Hw. exact (Hk w Hw). Qed.
Lemma reads_download amb userId uploadId provider :
  (forall p, provider = Some p -> OutsideStore p) ->
  (forall w f, I w -> I (w <| uploadBandwidthUsages ::= f |>)) -> (forall n w, I w -> I (w <| drawn := n |>)) ->
  proc_pres I (createUploadDownload amb userId uploadId provider).
Proof.
  intros Hp Hb Hd. unfold createUploadDownload, requireProvider. destruct provider as [p|]; [|by intros w Hw].
  specialize (Hp p eq_refl). apply pres_known. unfold findDownload, deliver, chargeQuota. pres.
  all: try (apply pres_sc_create; intros; apply pres_create; intros; by apply Hb).
  all: try (apply pres_sc_updateMany; intros; apply pres_updateMany; intros; by apply Hb).
  all: try (apply pres_newId; intros n w Hw; by apply Hd).
  - by apply (createDirectDownload_quiet p0 _ _ _ Heqo I Hcalls).
  - by apply (openDownload_quiet _ I Hcalls).
Qed.
End Readers.

#[export] Hint Resolve pres_transact reads_payments reads_methods reads_currentUser reads_devices reads_sessions reads_users reads_roles
  reads_mine reads_organization reads_members reads_conversations reads_messages reads_uploads reads_deadLetters reads_audit
  reads_preferences : readers.
#[export] Hint Extern 3 (proc_pres _ (getCheckoutSession _ _ _ _)) => apply reads_checkoutSession; frame_done : readers.
#[export] Hint Extern 3 (proc_pres _ (listSubscriptions _ _ _ _ _)) => apply reads_subscriptions; frame_done : readers.
#[export] Hint Extern 3 (proc_pres _ (getCharge _ _ _ _)) => apply reads_charge; frame_done : readers.

Section Safe.
Context `{Platform} `{Redis} `{TemplateFiles}.
Variables (production : bool) (toJSONSchema : string -> list (string * Json)) (auth_module : AuthModule) (formats : Formats) (isUrl : string -> bool) (listing : UserListing)
  (hmacDigest : string -> string -> string) (stripeClient : option StripeClient) (resolver : Ambient -> ChargeableResolver)
  (provider : Ambient -> option UploadProviderAdapter) (QUEUE_PREFIX SCHEDULER_TIMEZONE : string) (SCHEDULER_ENABLED : bool)
  (shared : Shared) (add : string -> Proc Shared (option string)) (draws : AppDraws) (replies : AppReplies).
Implicit Types (amb : Ambient) (request : ApiRequest) (w : World) (x : Exchange).
Hypothesis Houtside : forall amb p, provider amb = Some p -> OutsideStore p.

Notation serve := (serveApp production toJSONSchema auth_module formats isUrl listing hmacDigest stripeClient resolver provider QUEUE_PREFIX SCHEDULER_TIMEZONE
  SCHEDULER_ENABLED shared add draws replies).
Notation serveOne := (serveRoute auth_module formats isUrl listing stripeClient resolver provider QUEUE_PREFIX SCHEDULER_TIMEZONE
  SCHEDULER_ENABLED shared add draws replies).

Ltac frame := repeat lazymatch goal with |- proc_pres (through _) _ => first
  [ apply frame_answering | apply frame_permission; intros ? ? | apply frame_auth; intros ? ? | apply frame_input; intros ?
  | apply frame_address | apply frame_header | apply frame_cookies | apply frame_world
  | apply pres_proc_ret | apply pres_proc_throw | apply lift_pres | apply pres_proc_bind; [|intros ?] | case_match ] end.

Definition traceless (route : AppRoute) t w : Prop := withoutTraces route w = t.

Lemma reads_frame route t amb request : reads route = true -> proc_pres (through (traceless route t)) (serveOne route amb request).
Proof.
  intros Hr. destruct route as [r|r|r|r|r|r|r|r|r]; cbn [reads] in Hr; cbn [serveRoute]; destruct r; try done.
  all: unfold billing_api.serveRoute, billing_api.billingGuards; cbn [AuthApi.serveRoute billing_api.handle users_api.serveRoute
    roles_api.serveRoute organizations_api.serveRoute chat_api.serveRoute operations_api.serveRoute uploads_api.serveRoute
    notifications_api.serveRoute].
  all: unfold billing_controller.checkoutStatus, billing_controller.subscriptions, billing_controller.payments,
    billing_controller.paymentMethods, billing_controller.chargeStatus, controller.issueCsrf,
    users_api.me, users_api.devices, users_api.sessions, users_api.index, roles_api.index, organizations_api.index,
    organizations_api.show, organizations_api.members, organizations_api.assertOrganizationScope, chat_api.index, chat_api.show,
    chat_api.messages, operations_api.indexDeadLetters, operations_api.indexAudit, operations_api.indexJobs, uploads_api.index,
    uploads_api.download, notifications_api.preferences, notifications_api.listTemplates, notifications_api.previewTemplate; frame; eauto 3 with readers nocore.
  apply reads_download; [frame_done|by apply Houtside|frame_done..].
Qed.

Lemma safe_public (request : WebRequest) route : safe request -> publicRouteOf request = Some route ->
  (exists r, route = p_docs r) \/ route = p_health \/ route = p_ready.
Proof. unfold publicRouteOf, notifications_api.isUnsubscribe. intros (HP & HU & HA & HD). rewrite HP. cbn. rewrite !andb_false_r. repeat case_match; intros [= <-]; eauto. Qed.

Lemma handle_frame I request rawBody amb : safe (api_web request) ->
  (forall route amb, routeOf production (api_web request) = Some route -> proc_pres (through I) (serveOne route amb request)) ->
  proc_pres (through I) (handle production toJSONSchema auth_module formats isUrl listing hmacDigest stripeClient resolver provider QUEUE_PREFIX SCHEDULER_TIMEZONE
    SCHEDULER_ENABLED shared add draws replies request rawBody amb).
Proof.
  intros Hs Hr. unfold handle. destruct (publicRouteOf (api_web request)) as [route|] eqn:E.
  - apply safe_public in E as [[r ->]|[-> | ->]]; [destruct r| | |done]; cbn [servePublic docs.serveRoute]; unfold ceiling; frame;
      apply frame_limits.
  - unfold dispatch, aboveRouters. apply pres_proc_bind; [frame; apply frame_limits|intros _].
    destruct (routeOf production (api_web request)) as [route|]; [by apply Hr|apply pres_proc_throw].
Qed.

(** C2: What the CSRF check lets through unexamined writes nothing. A request under a method the check exempts, whatever it
    asks for and whoever sends it, leaves the database as it was but for the log of calls to Stripe and to the storage,
    with two exceptions by design: a download counts on its owner's meter, and the two billing reads that ask Stripe
    about a customer may note the customer on the billing owner's row. No route that writes hides under a safe method. *)
Theorem safe_methods_write_nothing now request rawBody x :
  mem (web_method (api_web request)) unsafeMethods = false ->
  let left := ex_world (snd (serve now request rawBody x)) in
  match routeOf production (api_web request) with
  | Some route => withoutTraces route left = withoutTraces route (ex_world x)
  | None => left = ex_world x
  end.
Proof.
  intros Hs%exempt_safe. cbv zeta.
  assert (Hkeep : forall I, I (ex_world x) ->
    (forall route amb, routeOf production (api_web request) = Some route -> proc_pres (through I) (serveOne route amb request)) ->
    I (ex_world (snd (serve now request rawBody x)))).
  { intros I Hx Hr. unfold serveApp, requestContext, runWithRequestContext. pose proof (handle_frame I request rawBody
      ((mkAmbient now None) <| reqContext := Some (Request (resolveRequestId (http_id (api_http request))) None None) |>) Hs Hr x Hx) as Hh.
    by destruct (handle _ _ _ _ _ _ _ _ _ _ _ _ _ _ _ _ _ _ _ _ x). }
  destruct (routeOf production (api_web request)) as [route|] eqn:E.
  - apply (Hkeep (traceless route (withoutTraces route (ex_world x)))); [done|]. intros r amb [= <-].
    by apply reads_frame, (safe_reads production (api_web request)).
  - by apply (Hkeep (fun w => w = ex_world x)).
Qed.
End Safe.

Section Witnesses.
Local Existing Instance demoPlatform.
#[local] Instance demoTemplates : TemplateFiles :=
  {| availableLocales _ := ["en"]; loadTemplateFiles _ _ := mkRawTemplateFiles "Hello" "{{ code }}" None; zodUrl _ := true |}.

Definition demoProvider (amb : Ambient) : option UploadProviderAdapter := Some (createS3UploadProvider amb "bucket" demoStorage).
Definition demoAppReplies : AppReplies := mkAppReplies allAnswered Replies (Ok tt).
Definition served request := serveApp true (fun _ => []) demoModule anyFormat (fun _ => true) anyListing (fun _ _ => "") (Some demoClient)
  (chargeableItemResolver alone) demoProvider "app" "UTC" true (mkShared ∅ true 0) (fun _ => mret (Some "job"))
  (mkAppDraws demoDraws "tok" "iv") demoAppReplies 5000 request None atOwner.

(** The owner lists their uploads; without a session, and with a permission that only an organization gives, nothing is served. *)
Definition ownUploads : ApiRequest := byOwner "GET" "/api/v1/uploads" JNull.
Example uploads_listed : rp_status (fst (served ownUploads)) = 200%Z.
Proof. vm_compute. reflexivity. Qed.
Example strangers_refused :
  rp_code (fst (served (mkApiRequest (mkWebRequest "GET" "/api/v1/uploads" [] [] [] JNull) (api_http ownUploads) (JObj [])))) = Some UNAUTHENTICATED.
Proof. vm_compute. reflexivity. Qed.
Example redrive_refused : rp_code (fst (served (byOwner "POST" "/api/v1/outbox-events/e1/redrive" JNull))) = Some FORBIDDEN.
Proof. vm_compute. reflexivity. Qed.


Lemma safe_methods_write_nothing_witness :
  match routeOf true (api_web ownUploads) with
  | Some route => withoutTraces route (ex_world (snd (served ownUploads))) = withoutTraces route ownerWorld
  | None => ex_world (snd (served ownUploads)) = ownerWorld
  end.
Proof.
  refine (safe_methods_write_nothing true (fun _ => []) demoModule anyFormat (fun _ => true) anyListing (fun _ _ => "") (Some demoClient)
    (chargeableItemResolver alone) demoProvider "app" "UTC" true (mkShared ∅ true 0) (fun _ => mret (Some "job"))
    (mkAppDraws demoDraws "tok" "iv") demoAppReplies _ 5000 ownUploads None atOwner eq_refl).
  intros amb p [= <-]. exact _.
Defined.
End Witnesses.
