(* ===== verification/DocsSpec.v ===== *)
(** * The published contract

    What the OpenAPI document says of a request, and that the application does just that: the operations it lists are the
    ones that are served, with the credentials it says. *)

From Stdlib Require Import ZArith Lia Bool.
From S2P Require Import Prelude JsString JsonText Platform RateLimit Templates Guards Http AuthApi AdminApi BillingApi ContentApi OperationsApi Docs App AppSpec.

Open Scope string_scope.

(** ** Paths and their segments *)

(** What is left of [l] below the segments [base]. *)
Fixpoint below (base l : list string) : option (list string) :=
  match base, l with
  | [], _ => Some l
  | b :: base, s :: l => if b === s then below base l else None
  | _ :: _, [] => None
  end.

Lemma split_cons c s : exists h t, split c s = h :: t.
Proof. destruct s as [|d s]; cbn; [by eexists _, _|]. destruct (d === c); [by eexists _, _|]. destruct (split c s); by eexists _, _. Qed.

Lemma split_inj c a b : split c a = split c b -> a = b.
Proof.
  revert b. induction a as [|x a IH]; intros [|y b]; cbn; try done.
  - destruct (split_cons c b) as (h & t & ->). by destruct (y === c); intros [=].
  - destruct (split_cons c a) as (h & t & ->). by destruct (x === c); intros [=].
  - destruct (split_cons c a) as (h & t & Ea), (split_cons c b) as (h' & t' & Eb). rewrite Ea, Eb.
    destruct (x === c) eqn:Ex, (y === c) eqn:Ey; bools; subst; intros [=]; subst; try done; f_equal; apply IH; congruence.
Qed.

Lemma eq_split c a b : (a === b) = (split c a === split c b).
Proof. apply bool_decide_ext. split; [by intros ->|apply split_inj]. Qed.

Lemma split_below base path :
  (if startsWith path base then match split "/" (drop_str (String.length base) path) with EmptyString :: rest => Some rest | _ => None end
   else None) = below (split "/" base) (split "/" path).
Proof.
  unfold startsWith. revert path. induction base as [|c base IH]; intros path.
  - cbn [String.length drop_str split below String.prefix]. replace (String.prefix "" path) with true by by destruct path.
    destruct (split_cons "/" path) as (h & t & ->). destruct h; cbn; [done|]. by rewrite bool_decide_eq_false_2.
  - destruct path as [|d path]; cbn [String.prefix String.length drop_str split].
    + destruct (c === "/"%char) eqn:Ec.
      * destruct (split_cons "/" base) as (h & t & ->). cbn. by rewrite bool_decide_eq_true_2.
      * destruct (split_cons "/" base) as (h & t & ->). cbn. by rewrite bool_decide_eq_false_2.
    + specialize (IH path). destruct (split_cons "/" base) as (h & t & Eb), (split_cons "/" path) as (h' & t' & Ep). rewrite Eb, Ep in *.
      destruct (Ascii.ascii_dec c d) as [<-|Hne].
      * rewrite IH. destruct (c === "/"%char); [done|]. cbn [below].
        replace (String c h === String c h') with (h === h'); [done|]. apply bool_decide_ext. split; [by intros ->|by intros [=]].
      * destruct (c === "/"%char) eqn:Ec, (d === "/"%char) eqn:Ed; bools; subst; cbn [below]; try done;
          rewrite bool_decide_eq_false_2; try done; by intros [=].
Qed.

Lemma segmentsBelow_below base request : segmentsBelow base request = below (split "/" base) (split "/" (web_path request)).
Proof. apply split_below. Qed.

(** What follows a prefix and its slash. *)
Lemma startsWith_slash base path : startsWith path (base ++ "/") = startsWith path base && startsWith (drop_str (String.length base) path) "/".
Proof.
  unfold startsWith. revert path. induction base as [|c base IH]; intros path; [by destruct path|].
  destruct path as [|d path]; [done|]. specialize (IH path).
  change (String c base ++ "/") with (String c (base ++ "/")). cbn in IH |- *. by destruct (Ascii.ascii_dec c d).
Qed.
Lemma drop_slash base path : drop_str (String.length (base ++ "/")) path = drop_str 1 (drop_str (String.length base) path).
Proof. revert path. induction base as [|c base IH]; intros path; [done|]. destruct path as [|d path]; [done|]. apply IH. Qed.
Lemma split_after base path :
  (if startsWith path (base ++ "/") then Some (split "/" (drop_str (String.length (base ++ "/")) path)) else None)
  = match below (split "/" base) (split "/" path) with Some (s :: rest) => Some (s :: rest) | _ => None end.
Proof.
  rewrite <- split_below, startsWith_slash, drop_slash. destruct (startsWith path base); [|done]. cbn [andb].
  destruct (drop_str (String.length base) path) as [|c rest]; [done|]. unfold startsWith. cbn [String.prefix split drop_str].
  destruct (split_cons "/" rest) as (h & t & E). rewrite E.
  destruct (Ascii.ascii_dec "/" c) as [<-|Hne].
  - by destruct rest.
  - rewrite bool_decide_eq_false_2 by congruence. done.
Qed.

Lemma split_single c s : noChar c s = true -> split c s = [s].
Proof.
  unfold noChar. induction s as [|d s IH]; [done|]. cbn. destruct (d === c); [done|]. cbn. by intros ->%IH.
Qed.
Lemma split_singleton c s x : split c s = [x] -> noChar c s = true /\ s = x.
Proof.
  revert x. unfold noChar. induction s as [|d s IH]; intros x; [by intros [= <-]|]. cbn. destruct (split_cons c s) as (h & t & E).
  destruct (d === c); [by rewrite E|]. rewrite E. intros [= <- ->]. by destruct (IH h E) as [? ->].
Qed.

(** ** What the document says *)

(** Two segments agree when they are equal, or when the template has a parameter there and the path has a value. *)
Definition isParameter (segment : string) : bool := startsWith segment "{".
Fixpoint fits (template path : list string) : bool :=
  match template, path with
  | [], [] => true
  | t :: template, s :: path => (if isParameter t then s !== EmptyString else s === t) && fits template path
  | _, _ => false
  end.
Fixpoint concrete (template path : list string) : bool :=
  match template, path with
  | [], [] => true
  | t :: template, s :: path => (s === t) && concrete template path
  | _, _ => false
  end.

(** OpenAPI's rule: a concrete path is matched before the templated ones. *)
Definition pathItem {A} (table : list (list string * A)) (path : list string) : option A :=
  match List.find (fun entry => concrete (fst entry) path) table with
  | Some (_, item) => Some item
  | None => snd <$> List.find (fun entry => fits (fst entry) path) table
  end.

Definition verbs : list (string * string) :=
  [("GET", "get"); ("POST", "post"); ("PUT", "put"); ("PATCH", "patch"); ("DELETE", "delete")].
Definition fieldsOf (value : option Json) : list (string * Json) := match value with Some (JObj l) => l | _ => [] end.
Definition documentPaths (document : Json) : list (list string * Json) :=
  List.map (fun entry => (split "/" (fst entry), snd entry)) (fieldsOf (jget "paths" document)).

(** The operation a document has for a request. *)
Definition documented (document : Json) (request : WebRequest) : option Json :=
  item ← pathItem (documentPaths document) (split "/" (web_path request)); verb ← assoc (web_method request) verbs; jget verb item.

(** What an operation asks of its caller: the access cookie, and the CSRF token. *)
Definition demands (operation : Json) : bool * bool :=
  let schemes := match jget "security" operation with Some (JArr (JObj schemes :: _)) => schemes | _ => [] end in
  (is_set (assoc "cookieAuth" schemes), is_set (assoc "csrfToken" schemes)).

(** The same, read off the document once. *)
Definition demandsOf (item : Json) : list (string * (bool * bool)) :=
  List.map (fun entry => (fst entry, demands (snd entry))) (fieldsOf (Some item)).
Definition contract : list (list string * list (string * (bool * bool))) :=
  Eval vm_compute in List.map (fun entry => (split "/" (fst entry), demandsOf (snd entry)))
    (docs.systemPaths ++ docs.sessionPaths ++ docs.credentialPaths ++ docs.userPaths ++ docs.cardPaths ++ docs.organizationPaths
      ++ docs.rolePaths ++ docs.operationPaths ++ docs.billingPaths ++ docs.uploadPaths).
Definition demanded (table : list (list string * list (string * (bool * bool)))) (path : list string) (method : string)
    : option (bool * bool) :=
  row ← pathItem table path; verb ← assoc method verbs; assoc verb row.

Lemma find_map {A B} (f : A -> B) (P : B -> bool) l : List.find P (List.map f l) = f <$> List.find (fun a => P (f a)) l.
Proof. induction l as [|a l IH]; [done|]. cbn. by destruct (P (f a)). Qed.
Lemma pathItem_map {A B} (f : A -> B) table path :
  pathItem (List.map (fun entry => (fst entry, f (snd entry))) table) path = f <$> pathItem table path.
Proof.
  unfold pathItem. rewrite !find_map. cbn. destruct (List.find _ table) as [[t a]|]; [done|]. cbn. by destruct (List.find _ table).
Qed.
Lemma assoc_map {A B} (f : A -> B) k l : assoc k (List.map (fun entry => (fst entry, f (snd entry))) l) = f <$> assoc k l.
Proof. induction l as [|[k' a] l IH]; [done|]. cbn. by destruct (k === k'). Qed.

Lemma contract_document `{Platform} toJSONSchema request :
  demands <$> documented (docs.openApiDocument toJSONSchema) request
  = demanded contract (split "/" (web_path request)) (web_method request).
Proof.
  unfold demanded. replace contract with
    (List.map (fun entry => (fst entry, demandsOf (snd entry))) (documentPaths (docs.openApiDocument toJSONSchema)))
    by by vm_compute.
  rewrite pathItem_map. unfold documented. destruct (pathItem _ _) as [item|]; [|done].
  cbn [mbind option_bind]. destruct (assoc (web_method request) verbs) as [verb|]; [|done].
  change (demands <$> jget verb item = assoc verb (demandsOf item)). unfold demandsOf. rewrite assoc_map.
  by destruct item.
Qed.

(** ** References *)

(** The targets of the [$ref]s of a document, and what one resolves to: [#/a/b/c]. *)
Fixpoint refsOf (value : Json) : list string :=
  match value with
  | JArr l => List.concat (List.map refsOf l)
  | JObj l => List.concat (List.map (fun '(key, value) =>
      match value with JStr target => if key === "$ref" then [target] else [] | _ => refsOf value end) l)
  | _ => []
  end.
Definition resolve (document : Json) (target : string) : option Json :=
  match split "/" target with
  | root :: segments => if root === "#" then fold_left (fun found key => found ≫= jget key) segments (Some document) else None
  | [] => None
  end.

(** Every reference of an operation resolves. *)
Lemma references_resolve `{Platform} toJSONSchema item target : In item (fieldsOf (jget "paths" (docs.openApiDocument toJSONSchema))) ->
  In target (refsOf (snd item)) -> is_set (resolve (docs.openApiDocument toJSONSchema) target) = true.
Proof.
  intros Hi Ht. cut (forallb (fun item => forallb (fun target => is_set (resolve (docs.openApiDocument toJSONSchema) target)) (refsOf (snd item)))
    (fieldsOf (jget "paths" (docs.openApiDocument toJSONSchema))) = true); [|by vm_compute].
  intros Hall. rewrite forallb_forall in Hall. specialize (Hall _ Hi). rewrite forallb_forall in Hall. by apply Hall.
Qed.

(** ** The rows below a segment *)

Definition beneath {A} (segment : string) (table : list (list string * A)) : list (list string * A) :=
  omap (fun '(template, a) => match template with t :: rest => if segment === t then Some (rest, a) else None | [] => None end) table.
Definition static (table : list (list string * list (string * (bool * bool)))) : bool :=
  forallb (fun '(template, _) => match template with t :: _ => negb (isParameter t) | [] => true end) table.

Lemma find_beneath {A} (match_ : list string -> list string -> bool) (P : list string -> bool) s m (table : list (list string * A)) :
  (forall t rest, P (t :: rest) = true -> match_ (t :: rest) (s :: m) = (s === t) && match_ rest m) -> match_ [] (s :: m) = false ->
  forallb (fun '(template, _) => match template with t :: rest => P (t :: rest) | [] => true end) table = true ->
  snd <$> List.find (fun entry => match_ (fst entry) (s :: m)) table = snd <$> List.find (fun entry => match_ (fst entry) m) (beneath s table).
Proof.
  intros Hc Hn. induction table as [|[template a] table IH]; [done|]. intros Ht. cbn in Ht. bools. cbn [List.find beneath fst omap list_omap].
  destruct template as [|t rest]; [by rewrite Hn, IH|]. rewrite Hc by done. destruct (s === t); cbn [andb]; [|by apply IH].
  cbn [List.find fst]. destruct (match_ rest m); [done|by apply IH].
Qed.

Lemma pathItem_values {A} (table : list (list string * A)) path :
  pathItem table path = match snd <$> List.find (fun entry => concrete (fst entry) path) table with
                        | Some item => Some item
                        | None => snd <$> List.find (fun entry => fits (fst entry) path) table end.
Proof. unfold pathItem. by destruct (List.find _ table) as [[? ?]|]. Qed.

Lemma pathItem_beneath s m table : static table = true -> pathItem table (s :: m) = pathItem (beneath s table) m.
Proof.
  intros Ht. rewrite !pathItem_values. rewrite (find_beneath concrete (fun _ => true)), (find_beneath fits (fun l => negb (isParameter (List.hd "" l)))); try done.
  - intros t rest Hp. cbn [List.hd] in Hp. apply negb_true_iff in Hp. cbn [fits]. by rewrite Hp.
  - clear. induction table as [|[[|? ?] ?] table IH]; done.
Qed.

Definition apiContract := Eval vm_compute in beneath "v1" (beneath "api" (beneath "" contract)).

Lemma demanded_api m method : demanded contract ("" :: "api" :: "v1" :: m)%list method = demanded apiContract m method.
Proof. unfold demanded. by rewrite !pathItem_beneath. Qed.

Definition bases : list string :=
  ["auth"; "users"; "billing"; "organizations"; "roles"; "audit-events"; "outbox-events"; "uploads"; "webhooks"].
Lemma beneath_unknown {A} known segment (table : list (list string * A)) : mem segment known = false ->
  forallb (fun entry => match fst entry with t :: _ => mem t known | [] => false end) table = true -> beneath segment table = [].
Proof.
  intros Hb. induction table as [|[[|t rest] a] table IH]; [done|done|].
  cbn [forallb fst beneath omap list_omap]. intros [Ht Hr]%andb_true_iff.
  destruct (segment === t) eqn:E; [apply bool_decide_eq_true in E; congruence|by apply IH].
Qed.
Lemma demanded_unknown known segment table l method : static table = true -> mem segment known = false ->
  forallb (fun entry => match fst entry with t :: _ => mem t known | [] => false end) table = true -> demanded table (segment :: l) method = None.
Proof. intros Hs Hk Ht. unfold demanded. rewrite (pathItem_beneath _ _ _ Hs). by rewrite (beneath_unknown known). Qed.
Lemma demanded_beneath segment table l method : static table = true ->
  demanded table (segment :: l) method = demanded (beneath segment table) l method.
Proof. intros Hs. unfold demanded. by rewrite (pathItem_beneath _ _ _ Hs). Qed.
Lemma unknown_base base m method : mem base bases = false -> demanded apiContract (base :: m) method = None.
Proof. intros Hb. by apply (demanded_unknown bases). Qed.

(** The comparisons of a goal, of a variable with a literal, one by one. *)
Lemma eq_eqb (x y : string) (d : Decision (x = y)) : @bool_decide (x = y) d = String.eqb x y.
Proof. destruct (String.eqb_spec x y); [by apply bool_decide_eq_true_2|by apply bool_decide_eq_false_2]. Qed.
Lemma match_empty {A} (s : string) (a b : A) :
  match s with EmptyString => a | String _ _ => b end = if String.eqb s "" then a else b.
Proof. by destruct s. Qed.
Ltac compare x y := let E := fresh in destruct (String.eqb_spec x y) as [E|E]; [subst x|].
Ltac step := cbn; rewrite ?match_empty, ?eq_eqb, ?andb_false_r; cbn; try reflexivity.
Ltac comparisons := step; repeat (match goal with |- context [String.eqb ?x ?y] => is_var x; compare x y end; step); try done.

(** A path that does not end with a slash. *)
Definition closed (segments : list string) : Prop := List.last segments "x" <> "".

Section Contract.
Context `{Platform}.

(** What the application asks of the caller of a route below the CSRF check. *)
Definition credentials (method : string) (route : AppRoute) : bool * bool :=
  (match requirementOf route with open_to_all => false | _ => true end, mem method unsafeMethods).
Implicit Types (request : WebRequest).

#[local] Arguments credentials : simpl never.

(** Below [/api/v1/base/] *)
Notation agree base f o := (forall request m, split "/" (web_path request) = ("" :: "api" :: "v1" :: base :: m)%list -> closed m ->
  demanded (beneath base apiContract) m (web_method request) = (fun r => credentials (web_method request) (f r)) <$> o request).

Ltac rows base := replace (beneath base apiContract) with ltac:(let t := eval vm_compute in (beneath base apiContract) in exact t) by by vm_compute.
Ltac mounts Hm := repeat match goal with |- context [segmentsBelow ?p ?r] =>
  rewrite (segmentsBelow_below p r), Hm; let v := eval vm_compute in (split "/" p) in change (split "/" p) with v;
  cbn [below]; rewrite !eq_eqb; cbn [String.eqb Ascii.eqb Bool.eqb] end.
(** The segments first, then the method. *)
Ltac router := unfold demanded; match goal with
  | |- _ ≫= ?rest = _ => let k := fresh in let Hk := fresh in remember rest as k eqn:Hk in |- *; unfold pathItem; step;
      repeat (match goal with |- context [String.eqb ?x ?y] => is_var x; tryif (match type of Hk with context [x] => idtac end) then fail else compare x y end; step);
      subst k; comparisons
  end.

Lemma users_contract : agree "users" a_users users_api.routeOf.
Proof.
  intros request m Hm Hc. unfold users_api.routeOf. mounts Hm. generalize (web_method request) as method. intros method.
  rows "users". destruct m as [|a [|b [|c [|d m]]]]; router.
Qed.

Lemma roles_contract : agree "roles" a_roles roles_api.routeOf.
Proof.
  intros request m Hm Hc. unfold roles_api.routeOf. mounts Hm. generalize (web_method request) as method. intros method.
  rows "roles". destruct m as [|a [|b [|c m]]]; router.
Qed.

Lemma uploads_contract : agree "uploads" a_uploads uploads_api.routeOf.
Proof.
  intros request m Hm Hc. unfold uploads_api.routeOf. mounts Hm. generalize (web_method request) as method. intros method.
  rows "uploads". destruct m as [|a [|b [|c m]]]; router.
Qed.
Lemma audit_contract : agree "audit-events" a_operations operations_api.routeOf.
Proof.
  intros request m Hm Hc. unfold operations_api.routeOf. mounts Hm. generalize (web_method request) as method. intros method.
  rows "audit-events". destruct m as [|a [|b m]]; router.
Qed.

Lemma outbox_contract : agree "outbox-events" a_operations operations_api.routeOf.
Proof.
  intros request m Hm Hc. unfold operations_api.routeOf. mounts Hm. generalize (web_method request) as method. intros method.
  rows "outbox-events". destruct m as [|a [|b [|c m]]]; router.
Qed.

Lemma organizations_contract : TENANCY_MODE env <> Tenancy_disabled -> agree "organizations" a_organizations organizations_api.routeOf.
Proof.
  intros Ht request m Hm Hc. unfold organizations_api.routeOf. rewrite (bool_decide_eq_false_2 _ Ht). mounts Hm.
  generalize (web_method request) as method. intros method. rows "organizations". destruct m as [|a [|b [|c [|d m]]]]; router.
Qed.

Lemma billing_credentials method r : credentials method (a_billing r) = credentials method (a_users u_me).
Proof. unfold credentials, requirementOf. by destruct (_ === _). Qed.

Lemma billing_contract : BILLING_ENABLED env = true -> agree "billing" a_billing billing_api.routeOf.
Proof.
  intros Hb request m Hm Hc.
  etrans; [|apply option_fmap_ext; intros r; symmetry; exact (billing_credentials (web_method request) r)].
  unfold billing_api.routeOf. rewrite Hb. mounts Hm. generalize (web_method request) as method. intros method.
  rows "billing". destruct m as [|a [|b [|c [|d m]]]]; router.
Qed.

Lemma eq_concrete path literal : (path === literal) = concrete (split "/" literal) (split "/" path).
Proof.
  rewrite (eq_split "/"). generalize (split "/" path) as l, (split "/" literal) as t. intros l t. revert l.
  induction t as [|t ts IH]; intros [|s l]; cbn; try done. rewrite <- IH.
  destruct (decide (s = t)) as [->|Hne]; cbn.
  - rewrite (bool_decide_eq_true_2 (t = t)) by done. apply bool_decide_ext. split; [by intros [=]|by intros ->].
  - rewrite (bool_decide_eq_false_2 (s = t)) by done. apply bool_decide_eq_false_2. congruence.
Qed.

Lemma oauth_provider provider s rest : split "/" provider = (s :: rest)%list ->
  (provider === EmptyString) || negb (noChar "/" provider) = match rest with [] => s === EmptyString | _ => true end.
Proof.
  intros Hs. destruct rest as [|t rest].
  - apply split_singleton in Hs as [-> ->]. by rewrite orb_false_r.
  - destruct (noChar "/" provider) eqn:E; [apply split_single in E; congruence|]. by rewrite orb_true_r.
Qed.

Ltac literals Hp := repeat match goal with |- context [bool_decide (?path = ?l)] => match type of Hp with split _ path = _ =>
  rewrite (eq_concrete path l), Hp; let v := eval vm_compute in (split "/" l) in change (split "/" l) with v end end.

Lemma auth_contract : agree "auth" a_auth AuthApi.routeOf.
Proof.
  intros request m Hm Hc. unfold AuthApi.routeOf, postRoute.
  assert (Hb : segmentsBelow AUTH_BASE request = Some m) by by mounts Hm.
  unfold segmentsBelow in Hb. destruct (startsWith (web_path request) AUTH_BASE); [|done]. cbn [negb].
  set (path := drop_str (String.length AUTH_BASE) (web_path request)) in *. clearbody path.
  assert (Hp : split "/" path = "" :: m) by by destruct (split "/" path) as [|[|? ?] ?]; simplify_eq.
  assert (Ho : (if startsWith path "/oauth/" then Some (split "/" (drop_str 7 path)) else None)
    = match m with t :: s :: rest => if t === "oauth" then Some (s :: rest)%list else None | _ => None end).
  { etrans; [exact (split_after "/oauth" path)|]. rewrite Hp. change (split "/" "/oauth") with [""; "oauth"]. cbn [below].
    rewrite bool_decide_eq_true_2 by done. destruct m as [|t [|s rest]]; [done|by destruct (_ === _)|].
    replace ("oauth" === t) with (t === "oauth"); [by destruct (_ === _)|]. by apply bool_decide_ext. }
  set (provider := drop_str 7 path) in *. clearbody provider. literals Hp. generalize (web_method request) as method. intros method. rows "auth".
  destruct (startsWith path "/oauth/").
  - destruct m as [|t [|s rest]]; [done|done|]. destruct (t === "oauth") eqn:Et; [|done]. apply bool_decide_eq_true in Et as ->.
    injection Ho as Hs. cbn zeta. rewrite (oauth_provider _ _ _ Hs). destruct rest as [|u rest].
    + destruct (split_singleton _ _ _ Hs) as [_ ->]. router.
    + router.
  - assert (Hm' : match m with t :: s :: rest => (t === "oauth") = false | _ => True end)
      by by destruct m as [|t [|s rest]]; try destruct (t === "oauth").
    destruct m as [|a [|b [|c m]]]; try rewrite eq_eqb in Hm'; router; discriminate Hm'.
Qed.
(** ** The contract of the whole application *)

Variable production : bool.

(** What the application asks of the caller of a request it has a route for: nothing that a browser sends, above the
    CSRF check. *)
Definition asked (method : string) (above : option PublicRoute) (route : option AppRoute) : option (bool * bool) :=
  match above with Some _ => Some (false, false) | None => credentials method <$> route end.
(** The routes the document leaves out. *)
Definition hidden (above : option PublicRoute) (route : option AppRoute) : bool :=
  match above, route with
  | Some (p_docs _ | p_email_event | p_unsubscribe), _ => true
  | Some _, _ => false
  | None, Some (a_chat _ | a_notifications _ | a_operations (op_jobs | op_run _)) => true
  | None, _ => false
  end.
Definition enforced (request : WebRequest) : option (bool * bool) :=
  asked (web_method request) (publicRouteOf request) (routeOf production request).
Definition undocumented (request : WebRequest) : bool := hidden (publicRouteOf request) (routeOf production request).

Lemma below_app p q l : below (p ++ q) l = below p l ≫= below q.
Proof. revert l. induction p as [|b p IH]; intros [|s l]; cbn; try done. by destruct (b === s). Qed.

(** A router has no route for a path that is not below its mount point. *)
Lemma auth_outside request : segmentsBelow AUTH_BASE request = None -> AuthApi.routeOf request = None.
Proof.
  unfold segmentsBelow, AuthApi.routeOf. destruct (startsWith (web_path request) AUTH_BASE); [|done]. cbn [negb].
  generalize (drop_str (String.length AUTH_BASE) (web_path request)) as path. intros path Hb.
  destruct (split_cons "/" path) as (h & t & Hp). rewrite Hp in Hb. destruct h as [|c h]; [done|].
  pose proof (split_after "/oauth" path) as Ho. rewrite Hp in Ho. cbn in Ho. change ("/oauth" ++ "/") with "/oauth/" in Ho.
  unfold postRoute. destruct (startsWith path "/oauth/"); [done|]. literals Hp.
  assert (Hf : forall l, concrete ("" :: l) (String c h :: t) = false) by (intros l; cbn [concrete]; by rewrite bool_decide_eq_false_2).
  rewrite !Hf. by destruct (web_method request === "GET"), (web_method request === "POST"), (web_method request === "DELETE").
Qed.

Lemma outside_api request : (forall base, noChar "/" base = true -> segmentsBelow ("/api/v1/" ++ base) request = None) ->
  routeOf production request = None.
Proof.
  intros Hb. assert (Hout : forall base path, path = "/api/v1/" ++ base -> noChar "/" base = true -> segmentsBelow path request = None)
    by (intros base path ->; apply Hb).
  unfold routeOf. rewrite auth_outside by by apply (Hout "auth").
  unfold billing_api.routeOf, users_api.routeOf, roles_api.routeOf, organizations_api.routeOf, chat_api.routeOf, operations_api.routeOf,
    uploads_api.routeOf, notifications_api.routeOf.
  rewrite (Hout "billing" "/api/v1/billing" eq_refl eq_refl), (Hout "users" "/api/v1/users" eq_refl eq_refl), (Hout "roles" "/api/v1/roles" eq_refl eq_refl),
    (Hout "organizations" "/api/v1/organizations" eq_refl eq_refl), (Hout "chat" "/api/v1/chat" eq_refl eq_refl),
    (Hout "scheduled-jobs" "/api/v1/scheduled-jobs" eq_refl eq_refl), (Hout "outbox-events" "/api/v1/outbox-events" eq_refl eq_refl),
    (Hout "audit-events" "/api/v1/audit-events" eq_refl eq_refl), (Hout "uploads" "/api/v1/uploads" eq_refl eq_refl),
    (Hout "notifications" "/api/v1/notifications" eq_refl eq_refl).
  by destruct (BILLING_ENABLED env), (TENANCY_MODE env === Tenancy_disabled), (CHAT_ENABLED env).
Qed.

(** A router has no route for a path that is below another mount point. *)
Section Elsewhere.
Variables (request : WebRequest) (b : string) (m : list string).
Hypothesis Hm : split "/" (web_path request) = ("" :: "api" :: "v1" :: b :: m)%list.

Lemma elsewhere base path : path = "/api/v1/" ++ base -> noChar "/" base = true -> b <> base -> segmentsBelow path request = None.
Proof.
  intros -> E Hb. rewrite segmentsBelow_below, Hm.
  change (split "/" ("/api/v1/" ++ base)) with (["" ; "api" ; "v1"] ++ split "/" base)%list. rewrite below_app, (split_single _ _ E).
  cbn [below]. rewrite !bool_decide_eq_true_2 by done. cbn. by rewrite bool_decide_eq_false_2 by congruence.
Qed.

Lemma auth_elsewhere : b <> "auth" -> AuthApi.routeOf request = None.
Proof. intros Hb. by apply auth_outside, (elsewhere "auth"). Qed.
Lemma billing_elsewhere : b <> "billing" -> billing_api.routeOf request = None.
Proof. intros Hb. unfold billing_api.routeOf. rewrite (elsewhere "billing" "/api/v1/billing") by done. by destruct (BILLING_ENABLED env). Qed.
Lemma users_elsewhere : b <> "users" -> users_api.routeOf request = None.
Proof. intros Hb. unfold users_api.routeOf. by rewrite (elsewhere "users" "/api/v1/users"). Qed.
Lemma roles_elsewhere : b <> "roles" -> roles_api.routeOf request = None.
Proof. intros Hb. unfold roles_api.routeOf. by rewrite (elsewhere "roles" "/api/v1/roles"). Qed.
Lemma organizations_elsewhere : b <> "organizations" -> organizations_api.routeOf request = None.
Proof.
  intros Hb. unfold organizations_api.routeOf. rewrite (elsewhere "organizations" "/api/v1/organizations") by done.
  by destruct (TENANCY_MODE env === Tenancy_disabled).
Qed.
Lemma chat_elsewhere : b <> "chat" -> chat_api.routeOf request = None.
Proof. intros Hb. unfold chat_api.routeOf. rewrite (elsewhere "chat" "/api/v1/chat") by done. by destruct (CHAT_ENABLED env). Qed.
Lemma operations_elsewhere : b <> "scheduled-jobs" -> b <> "outbox-events" -> b <> "audit-events" -> operations_api.routeOf request = None.
Proof.
  intros H1 H2 H3. unfold operations_api.routeOf.
  by rewrite (elsewhere "scheduled-jobs" "/api/v1/scheduled-jobs"), (elsewhere "outbox-events" "/api/v1/outbox-events"),
    (elsewhere "audit-events" "/api/v1/audit-events").
Qed.
Lemma uploads_elsewhere : b <> "uploads" -> uploads_api.routeOf request = None.
Proof. intros Hb. unfold uploads_api.routeOf. by rewrite (elsewhere "uploads" "/api/v1/uploads"). Qed.
Lemma notifications_elsewhere : b <> "notifications" -> notifications_api.routeOf production request = None.
Proof. intros Hb. unfold notifications_api.routeOf. by rewrite (elsewhere "notifications" "/api/v1/notifications"). Qed.
End Elsewhere.

Ltac others Hm := rewrite ?(auth_elsewhere _ _ _ Hm), ?(billing_elsewhere _ _ _ Hm), ?(users_elsewhere _ _ _ Hm), ?(roles_elsewhere _ _ _ Hm),
  ?(organizations_elsewhere _ _ _ Hm), ?(chat_elsewhere _ _ _ Hm), ?(operations_elsewhere _ _ _ Hm), ?(uploads_elsewhere _ _ _ Hm),
  ?(notifications_elsewhere _ _ _ Hm) by congruence; cbn [orElse option_map]; try done; match goal with |- orElse ?o _ = _ => by destruct o end.
Ltac case_base b base Hm := let E := fresh in destruct (decide (b = base)) as [E|E];
  [subst b; cbn; others Hm|rewrite (bool_decide_eq_false_2 (b = base) E)].

(** Only its own router has routes below a mount point. *)
Lemma routes_below request b m : split "/" (web_path request) = ("" :: "api" :: "v1" :: b :: m)%list ->
  routeOf production request =
    if b === "auth" then option_map a_auth (AuthApi.routeOf request)
    else if b === "billing" then option_map a_billing (billing_api.routeOf request)
    else if b === "users" then option_map a_users (users_api.routeOf request)
    else if b === "roles" then option_map a_roles (roles_api.routeOf request)
    else if b === "organizations" then option_map a_organizations (organizations_api.routeOf request)
    else if b === "chat" then option_map a_chat (chat_api.routeOf request)
    else if (b === "scheduled-jobs") || (b === "outbox-events") || (b === "audit-events")
    then option_map a_operations (operations_api.routeOf request)
    else if b === "uploads" then option_map a_uploads (uploads_api.routeOf request)
    else if b === "notifications" then option_map a_notifications (notifications_api.routeOf production request)
    else None.
Proof.
  intros Hm. unfold routeOf.
  case_base b "auth" Hm. case_base b "billing" Hm. case_base b "users" Hm. case_base b "roles" Hm.
  case_base b "organizations" Hm. case_base b "chat" Hm. case_base b "scheduled-jobs" Hm.
  case_base b "outbox-events" Hm. case_base b "audit-events" Hm. case_base b "uploads" Hm.
  case_base b "notifications" Hm. others Hm.
Qed.

Lemma below_Some p l m : below p l = Some m -> l = (p ++ m)%list.
Proof.
  revert l. induction p as [|b p IH]; intros [|s l]; cbn; try by intros [= ->]. destruct (b === s) eqn:E; [|done]. bools.
  intros ->%IH. by subst.
Qed.

(** The requests served above the CSRF check, by their segments. *)
Definition publicOf (method : string) (segments : list string) : option PublicRoute :=
  let asks m path := (method === m) && concrete path segments in
  if BILLING_ENABLED env && asks "POST" ["" ; "api" ; "v1" ; "webhooks" ; "stripe"] then Some p_stripe
  else if asks "POST" ["" ; "api" ; "v1" ; "webhooks" ; "email-events"] then Some p_email_event
  else match (if method !== "GET" then None
              else if concrete ["" ; "docs" ; "swagger-initializer.js"] segments then Some docs.d_initializer
              else if concrete ["" ; "openapi.json"] segments || concrete ["" ; "api" ; "v1" ; "openapi.json"] segments then Some docs.d_document
              else if concrete ["" ; "docs"] segments || concrete ["" ; "api" ; "v1" ; "docs"] segments then Some docs.d_page else None) with
  | Some route => Some (p_docs route)
  | None =>
      if asks "GET" ["" ; "health"] then Some p_health
      else if asks "GET" ["" ; "ready"] then Some p_ready
      else if asks "POST" ["" ; "api" ; "v1" ; "notifications" ; "unsubscribe"] then Some p_unsubscribe
      else None
  end.
Lemma publicRouteOf_segments request : publicRouteOf request = publicOf (web_method request) (split "/" (web_path request)).
Proof. unfold publicRouteOf, docs.routeOf, notifications_api.isUnsubscribe, publicOf. cbv zeta. by rewrite !(eq_concrete (web_path request)). Qed.

Lemma public_elsewhere method b m : mem b ["webhooks"; "notifications"; "openapi.json"; "docs"] = false ->
  publicOf method ("" :: "api" :: "v1" :: b :: m)%list = None.
Proof.
  unfold mem. cbn [existsb]. intros Hb. bools. unfold publicOf. cbn [concrete].
  rewrite (bool_decide_eq_false_2 (b = "webhooks")), (bool_decide_eq_false_2 (b = "notifications")), (bool_decide_eq_false_2 (b = "openapi.json")),
    (bool_decide_eq_false_2 (b = "docs")) by congruence.
  cbn. rewrite !andb_false_r. by destruct (method === "GET").
Qed.

Lemma public_unnamed method b m route : b <> "webhooks" -> publicOf method ("" :: "api" :: "v1" :: b :: m)%list = Some route ->
  match route with p_docs _ | p_unsubscribe => True | _ => False end.
Proof.
  intros Hb. unfold publicOf. cbn [concrete]. rewrite (bool_decide_eq_false_2 (b = "webhooks")) by done. cbn. rewrite !andb_false_r.
  destruct (b === "openapi.json"), (b === "docs"), (b === "notifications"), (method === "GET"), (method === "POST"); cbn;
    repeat (match goal with |- context [if ?c then _ else _] => destruct c end); intros [= <-]; done.
Qed.

Lemma public_root method : publicOf method ["" ; "api" ; "v1"] = None.
Proof. unfold publicOf. cbn. rewrite !andb_false_r. by destruct (method === "GET"). Qed.

Section Below.
Variables (request : WebRequest) (b : string) (m : list string).
Hypothesis Hm : split "/" (web_path request) = ("" :: "api" :: "v1" :: b :: m)%list.
Notation method := (web_method request).

Lemma never_jobs r : b <> "scheduled-jobs" -> operations_api.routeOf request = Some r -> hidden None (Some (a_operations r)) = false.
Proof.
  intros Hb. unfold operations_api.routeOf. rewrite (elsewhere _ _ _ Hm "scheduled-jobs" "/api/v1/scheduled-jobs") by done.
  destruct (segmentsBelow "/api/v1/outbox-events" request) as [l|], (segmentsBelow "/api/v1/audit-events" request) as [l'|].
  all: repeat (match goal with |- context [match ?l with [] => _ | _ => _ end] => is_var l; destruct l | |- context [match ?l with EmptyString => _ | _ => _ end] => is_var l; destruct l end); intros Hr.
  all: repeat match type of Hr with (if ?c then _ else _) = _ => destruct c end; by simplify_eq.
Qed.
Lemma only_jobs r : b = "scheduled-jobs" -> operations_api.routeOf request = Some r -> hidden None (Some (a_operations r)) = true.
Proof.
  intros Hb. unfold operations_api.routeOf. rewrite (elsewhere _ _ _ Hm "outbox-events" "/api/v1/outbox-events"),
    (elsewhere _ _ _ Hm "audit-events" "/api/v1/audit-events") by (done || by rewrite Hb).
  destruct (segmentsBelow "/api/v1/scheduled-jobs" request) as [l|].
  all: repeat (match goal with |- context [match ?l with [] => _ | _ => _ end] => is_var l; destruct l | |- context [match ?l with EmptyString => _ | _ => _ end] => is_var l; destruct l end); intros Hr.
  all: repeat match type of Hr with (if ?c then _ else _) = _ => destruct c end; by simplify_eq.
Qed.

(** Below a mount point whose routes are all documented. *)
Lemma contract_at {R} (f : R -> AppRoute) (o : option R) :
  demanded (beneath b apiContract) m method = (fun r => credentials method (f r)) <$> o ->
  publicOf method ("" :: "api" :: "v1" :: b :: m)%list = None -> routeOf production request = option_map f o ->
  (forall r, o = Some r -> hidden None (Some (f r)) = false) ->
  demanded apiContract (b :: m) method = if undocumented request then None else enforced request.
Proof.
  intros Hd Hp Hr Hh. unfold undocumented, enforced. rewrite demanded_beneath by by vm_compute. rewrite Hd, publicRouteOf_segments, Hm, Hp, Hr.
  destruct o as [r|]; [|done]. cbn [option_map]. by rewrite (Hh r).
Qed.

(** Below a mount point the document does not name. *)
Lemma contract_unnamed : mem b bases = false -> demanded apiContract (b :: m) method = if undocumented request then None else enforced request.
Proof.
  intros Hb. rewrite (unknown_base _ _ _ Hb). unfold undocumented, enforced. rewrite publicRouteOf_segments, Hm, (routes_below _ _ _ Hm).
  assert (Hne : forall base, In base bases -> b <> base).
  { intros base Hin ->. unfold mem in Hb. apply not_true_iff_false in Hb. apply Hb, existsb_exists. exists base. split; [done|]. by apply bool_decide_eq_true. }
  rewrite (bool_decide_eq_false_2 (b = "auth")), (bool_decide_eq_false_2 (b = "billing")), (bool_decide_eq_false_2 (b = "users")),
    (bool_decide_eq_false_2 (b = "roles")), (bool_decide_eq_false_2 (b = "organizations")), (bool_decide_eq_false_2 (b = "outbox-events")),
    (bool_decide_eq_false_2 (b = "audit-events")), (bool_decide_eq_false_2 (b = "uploads")) by (apply Hne; cbn; tauto).
  destruct (publicOf method ("" :: "api" :: "v1" :: b :: m)%list) as [route|] eqn:Ep.
  - apply public_unnamed in Ep as Hh; [|apply Hne; cbn; tauto]. by destruct route.
  - destruct (b === "chat"); [by destruct (chat_api.routeOf request)|]. destruct (b === "scheduled-jobs") eqn:E; cbn [orb].
    + apply bool_decide_eq_true in E. destruct (operations_api.routeOf request) as [r|] eqn:Er; [|done]. cbn [option_map].
      by rewrite (only_jobs r E Er).
    + destruct (b === "notifications"); [|done].
      by destruct (notifications_api.routeOf production request).
Qed.
End Below.

(** Outside the API, the document has the two system routes. *)
Lemma concrete_Some template path : concrete template path = true -> path = template.
Proof. revert path. induction template as [|t ts IH]; intros [|s l]; cbn; try done. intros Hc. bools. subst. f_equal. by apply IH. Qed.
Lemma concrete_outside p template path : below p path = None -> concrete (p ++ template)%list path = false.
Proof.
  intros Hb. destruct (concrete _ path) eqn:E; [|done]. apply concrete_Some in E as ->. exfalso. revert Hb.
  induction p as [|b p IH]; cbn; [done|]. by rewrite bool_decide_eq_true_2.
Qed.
Lemma demanded_outside path method : below ["" ; "api" ; "v1"] path = None ->
  demanded contract path method
  = if (method === "GET") && (concrete ["" ; "health"] path || concrete ["" ; "ready"] path) then Some (false, false) else None.
Proof.
  intros Hb. destruct path as [|s path]; [by rewrite andb_false_r|].
  destruct (decide (s = "")) as [->|Hs].
  2: { rewrite (demanded_unknown [""]); [|by vm_compute|unfold mem; cbn; by rewrite bool_decide_eq_false_2 by congruence|by vm_compute].
       cbn [concrete]. rewrite (bool_decide_eq_false_2 (s = "")) by done. by rewrite andb_false_r. }
  rewrite demanded_beneath by by vm_compute.
  replace (beneath "" contract) with ltac:(let t := eval vm_compute in (beneath "" contract) in exact t) by by vm_compute.
  destruct path as [|s path]; [by rewrite andb_false_r|]. cbn [below] in Hb. rewrite (bool_decide_eq_true_2 ("" = "")) in Hb by done.
  destruct (decide (s = "api")) as [->|H1]; [|destruct (decide (s = "health")) as [->|H2]; [|destruct (decide (s = "ready")) as [->|H3]]].
  - replace (concrete _ _ || _) with false by by vm_compute. rewrite andb_false_r, demanded_beneath by by vm_compute.
    rewrite bool_decide_eq_true_2 in Hb by done.
    destruct path as [|s path]; [by vm_compute|]. apply (demanded_unknown ["v1"]); [by vm_compute| |by vm_compute].
    destruct ("v1" === s) eqn:E; [done|]. unfold mem. cbn. by rewrite E.
  - destruct path as [|t path]; generalize method; intros m; router.
  - destruct path as [|t path]; generalize method; intros m; router.
  - rewrite (demanded_unknown ["api"; "health"; "ready"]); [|by vm_compute|unfold mem; cbn [existsb]|by vm_compute].
    + cbn [concrete]. rewrite (bool_decide_eq_false_2 (s = "health")), (bool_decide_eq_false_2 (s = "ready")) by done.
      cbn [andb orb]. by rewrite !andb_false_r.
    + by rewrite !bool_decide_eq_false_2 by congruence.
Qed.

(** The two webhooks, one of them documented. *)
Lemma webhooks_contract request m : BILLING_ENABLED env = true ->
  split "/" (web_path request) = ("" :: "api" :: "v1" :: "webhooks" :: m)%list ->
  demanded apiContract ("webhooks" :: m) (web_method request) = if undocumented request then None else enforced request.
Proof.
  intros Hb Hm. unfold undocumented, enforced. rewrite publicRouteOf_segments, Hm, (routes_below _ _ _ Hm), demanded_beneath by by vm_compute.
  replace (if "webhooks" === "auth" then _ else _) with (@None AppRoute) by by vm_compute.
  unfold publicOf. rewrite Hb. generalize (web_method request) as method. intros method. rows "webhooks".
  destruct m as [|a [|c m]]; router.
Qed.

(** Outside the API. *)
Lemma outside_contract path method : below ["" ; "api" ; "v1"] path = None ->
  demanded contract path method
  = if hidden (publicOf method path) None then None else asked method (publicOf method path) None.
Proof.
  intros Hb. rewrite demanded_outside by done. unfold publicOf.
  rewrite (concrete_outside _ ["webhooks"; "stripe"] _ Hb : concrete ["" ; "api" ; "v1" ; "webhooks" ; "stripe"] path = false),
    (concrete_outside _ ["webhooks"; "email-events"] _ Hb : concrete ["" ; "api" ; "v1" ; "webhooks" ; "email-events"] path = false),
    (concrete_outside _ ["openapi.json"] _ Hb : concrete ["" ; "api" ; "v1" ; "openapi.json"] path = false),
    (concrete_outside _ ["docs"] _ Hb : concrete ["" ; "api" ; "v1" ; "docs"] path = false),
    (concrete_outside _ ["notifications"; "unsubscribe"] _ Hb : concrete ["" ; "api" ; "v1" ; "notifications" ; "unsubscribe"] path = false).
  rewrite !andb_false_r, !orb_false_r. cbv zeta.
  destruct (concrete ["" ; "health"] path) eqn:E1; [apply concrete_Some in E1 as ->; by destruct (method === "GET")|].
  destruct (concrete ["" ; "ready"] path) eqn:E2; [apply concrete_Some in E2 as ->; by destruct (method === "GET")|].
  rewrite !andb_false_r.
  by destruct (method === "GET"), (concrete ["" ; "docs" ; "swagger-initializer.js"] path), (concrete ["" ; "openapi.json"] path),
    (concrete ["" ; "docs"] path).
Qed.

(** One base path of the API: its operations and its routes agree. *)
Ltac at_base Ep f o contract :=
  apply (contract_at _ _ _ Ep f o); [by apply contract|by apply public_elsewhere|by rewrite (routes_below _ _ _ Ep)|done].

End Contract.

Section Witness.
Local Existing Instance demoPlatform.

(** A member is moved to another role; the path's parameters are what they are. *)
Definition changeRole : WebRequest := mkWebRequest "PATCH" "/api/v1/organizations/o1/members/me" [] [] [] JNull.
Example changeRole_documented : demands <$> documented (docs.openApiDocument (fun _ => [])) changeRole = Some (true, true).
Proof. vm_compute. reflexivity. Qed.
Example me_is_no_user : (fst <$> pathItem (List.map (fun e => (fst e, (fst e, snd e))) contract) ["" ; "api" ; "v1" ; "users" ; "me"])
  = Some ["" ; "api" ; "v1" ; "users" ; "me"].
Proof. vm_compute. reflexivity. Qed.

End Witness.
