(* ===== verification/Seed.v ===== *)
(** * Seeding

    prisma/seed.ts: the permissions, the system roles and the first administrator of an installation. The script uses a
    plain Prisma client, without the soft-delete and tenant extensions, and every statement commits on its own. *)

From Stdlib Require Import ZArith Lia Bool.
From S2P Require Import Prelude Store Database JsString JsonText Platform Request AuditTrail AccessControl RateLimit RateLimitSpec AuthApi AdminApi BillingApi OperationsApi App AppSpec.

Open Scope string_scope.

Module seed.

Definition permissions : list (string * string) :=
  [("users:read", "View users"); ("users:write", "Create and update users"); ("roles:read", "View roles and permissions");
   ("roles:write", "Manage global roles and permissions"); ("audit:read", "View audit events");
   ("outbox:read", "View dead-lettered outbox events"); ("outbox:write", "Redrive dead-lettered outbox events");
   ("organizations:read", "View organization details"); ("organizations:write", "Create and update organizations");
   ("members:read", "View organization members"); ("members:write", "Change and remove organization members");
   ("invitations:write", "Invite and revoke organization invitations");
   ("billing:read", "View organization billing, subscriptions, payments, and payment methods");
   ("billing:write", "Manage organization billing, subscriptions, charges, and refunds");
   ("scheduler:read", "View scheduled job status"); ("scheduler:write", "Trigger scheduled jobs manually")].

Record SystemRole := mkSystemRole { sr_name : string; sr_description : string; sr_permissions : list string }.
Definition systemRoles : list SystemRole :=
  [mkSystemRole "admin" "Global administrator" (List.map fst permissions);
   mkSystemRole "owner" "Organization owner"
     ["organizations:read"; "organizations:write"; "members:read"; "members:write"; "invitations:write"; "billing:read";
      "billing:write"; "audit:read"];
   mkSystemRole "member" "Organization member" ["organizations:read"; "members:read"]].

Section Seed.
Context `{Platform}.
(** The instant the rows are created at. *)
Variable now : Z.

(** [isSystem] is a column no query reads. *)
Definition upsertGlobalRole (name description : string) : Proc World string :=
  existing ← transact (tx_findFirst_raw (fun r => (role_name r === name) && is_null (role_organizationId r)));
  match existing with
  | Some existing =>
      transact (tx_update_raw (fun r => role_id r === role_id existing)
        (fun r => r <| role_description := Some description |> <| role_deletedAt := None |>));;
      mret (role_id existing)
  | None =>
      created ← transact (id ← newId; tx_create (mkRole id None name (Some description) now None));
      mret (role_id created)
  end.

Fixpoint upsertPermissions (l : list (string * string)) : Proc World unit :=
  match l with
  | [] => mret tt
  | (code, description) :: l =>
      transact (id ← newId; tx_upsert (fun p => perm_code p === code) (mkPermission id code (Some description) None)
        (fun p => p <| perm_description := Some description |> <| perm_deletedAt := None |>));;
      upsertPermissions l
  end.

Fixpoint grantPermissions (permissionIdByCode : list (string * string)) (roleId : string) (codes : list string) : Proc World unit :=
  match codes with
  | [] => mret tt
  | code :: codes =>
      let permissionId := assoc code permissionIdByCode in
      if negb (truthy permissionId) then throw (Failure ("Seed references an unknown permission: " ++ code))
      else
        let permissionId := permissionId ??? "" in
        transact (id ← newId; tx_upsert (fun rp => (rp_roleId rp === roleId) && (rp_permissionId rp === permissionId))
          (mkRolePermission id roleId permissionId None) (fun rp => rp <| rp_deletedAt := None |>));;
        grantPermissions permissionIdByCode roleId codes
  end.

(** The roles, and [roleIdByName]. *)
Fixpoint upsertRoles (permissionIdByCode : list (string * string)) (l : list SystemRole) : Proc World (list (string * string)) :=
  match l with
  | [] => mret []
  | role :: l =>
      roleId ← upsertGlobalRole (sr_name role) (sr_description role);
      grantPermissions permissionIdByCode roleId (sr_permissions role);;
      others ← upsertRoles permissionIdByCode l;
      mret ((sr_name role, roleId) :: others)
  end.

(** [bootstrap]: the environment's BOOTSTRAP_ADMIN_EMAIL. A [Map] keeps the last entry of a key: the rows are reversed. *)
Definition main (bootstrap : option string) : Proc World unit :=
  upsertPermissions permissions;;
  found ← transact (tx_findMany_raw (fun p : Permission => is_null (perm_deletedAt p)));
  roleIdByName ← upsertRoles (List.map (fun p => (perm_code p, perm_id p)) (List.rev found)) systemRoles;
  let bootstrapEmail := (fun email => toLowerCase (trim email)) <$> bootstrap in
  if truthy bootstrapEmail then
    let email := bootstrapEmail ??? "" in
    user ← transact (tx_findFirst_raw (fun u => user_email u === Some email));
    match user with
    | None => throw (Failure ("BOOTSTRAP_ADMIN_EMAIL user does not exist: " ++ email))
    | Some user =>
        let adminRoleId := assoc "admin" roleIdByName ??? "" in
        transact (id ← newId; tx_upsert (fun ur => (ur_userId ur === user_id user) && (ur_roleId ur === adminRoleId))
          (mkUserRole id (user_id user) adminRoleId None) (fun ur => ur <| ur_deletedAt := None |>));;
        mret tt
    end
  else mret tt.
End Seed.
End seed.

(** ** Rows that stay *)

Section Rows.
Context {S R : Type} `{ModelLaws S R}.
Implicit Types (P : R -> bool) (Q : R -> Prop) (f : R -> R) (r : R) (s : S).

Definition some_row Q s : Prop := exists r, In r (table s) /\ Q r.

Lemma some_update P Q f s : (forall r, Q r -> Q (f r)) -> some_row Q s -> some_row Q (put (updateWhere P f) s).
Proof.
  intros Hf (r & Hr & HQ). exists (if P r then f r else r). rewrite table_put. split; [apply in_map_iff; by exists r|]. destruct (P r); auto.
Qed.
Lemma some_append Q r s : some_row Q s -> some_row Q (put (fun t => t ++ [r])%list s).
Proof. intros (r' & Hr & HQ). exists r'. rewrite table_put. split; [by apply in_or_app; left|done]. Qed.
Lemma some_last Q r s : Q r -> some_row Q (put (fun t => t ++ [r])%list s).
Proof. intros HQ. exists r. rewrite table_put. split; [apply in_or_app; right; by left|done]. Qed.

Lemma keeps_upsert P Q f r : (forall r, Q r -> Q (f r)) -> tx_pres (some_row Q) (tx_upsert P r f).
Proof. intros Hf. apply pres_upsert; intros; [by apply some_update|by apply some_append]. Qed.
Lemma keeps_update P Q f : (forall r, Q r -> Q (f r)) -> tx_pres (some_row Q) (tx_update_raw P f).
Proof. intros Hf. apply pres_update_raw; intros; by apply some_update. Qed.
Lemma keeps_create Q r : tx_pres (some_row Q) (tx_create r).
Proof. apply pres_create; intros; by apply some_append. Qed.

Lemma upsert_some P Q f r s a s' : (forall r, P r = true -> Q (f r)) -> Q r -> tx_upsert P r f s = Ok (a, s') -> some_row Q s'.
Proof.
  intros Hf HQ. unfold tx_upsert. destruct (findFirst P (table s)) as [r0|] eqn:E.
  - apply findFirst_Some in E as [Hin HP]. intros [= _ <-]. exists (f r0). rewrite table_put. split; [|by apply Hf].
    apply in_map_iff. exists r0. by rewrite HP.
  - intros (_ & -> & _)%create_ok. by apply some_last.
Qed.
End Rows.

(** ** What seeding leaves *)

Section SeedSpec.
Context `{Platform}.
Variable now : Z.

Definition isPermission (code id : string) : World -> Prop := some_row (fun p => perm_code p = code /\ perm_id p = id /\ perm_deletedAt p = None).
Definition isRole (name id : string) : World -> Prop :=
  some_row (fun r => role_name r = name /\ role_id r = id /\ role_organizationId r = None /\ role_deletedAt r = None).
Definition isGrant (roleId permissionId : string) : World -> Prop :=
  some_row (fun rp => rp_roleId rp = roleId /\ rp_permissionId rp = permissionId /\ rp_deletedAt rp = None).
Definition isHolder (userId roleId : string) : World -> Prop :=
  some_row (fun ur => ur_userId ur = userId /\ ur_roleId ur = roleId /\ ur_deletedAt ur = None).

(** No step takes a fact away. *)
Definition kept (I : World -> Prop) : Prop :=
  (forall l, proc_pres I (seed.upsertPermissions l)) /\ (forall name description, proc_pres I (seed.upsertGlobalRole now name description))
  /\ (forall ids roleId codes, proc_pres I (seed.grantPermissions ids roleId codes)).
Ltac keep := split; [|split];
  [intros l; induction l as [|[? ?] l IH]; cbn [seed.upsertPermissions]; pres|intros; unfold seed.upsertGlobalRole; pres
  |intros ? ? codes; induction codes as [|? codes IH]; cbn [seed.grantPermissions]; pres];
  try assumption; first
  [apply pres_newId; intros; assumption|apply keeps_upsert; intros ?; cbn; tauto|apply keeps_update; intros ?; cbn; tauto|apply keeps_create].

Lemma permission_kept code id : kept (isPermission code id).
Proof. keep. Qed.
Lemma role_kept name id : kept (isRole name id).
Proof. keep. Qed.
Lemma grant_kept roleId permissionId : kept (isGrant roleId permissionId).
Proof. keep. Qed.

Lemma kept_run {A} I (m : Proc World A) w r w' : proc_pres I m -> m w = (r, w') -> I w -> I w'.
Proof. intros Hm Hr Hw. by eapply proc_pres_run. Qed.

Lemma upsertPermissions_post l w w' : seed.upsertPermissions l w = (Ok tt, w') ->
  forall code, In code (List.map fst l) -> exists id, isPermission code id w'.
Proof.
  revert w. induction l as [|[code description] l IH]; intros w Hrun c; [done|]. cbn [seed.upsertPermissions] in Hrun. proc_inv Hrun.
  cbn [List.map fst]. intros [<-|Hin]; [|by eapply IH].
  match goal with Hu : tx_upsert _ _ _ _ = _ |- _ =>
    apply (upsert_some _ (fun p => perm_code p = code /\ perm_deletedAt p = None)) in Hu as (p & Hp & Hc & Hd); [|by intros r Hr; cbn; bools|done] end.
  exists (perm_id p). destruct (permission_kept code (perm_id p)) as (Hk & _). eapply kept_run; [apply Hk|exact Hrun|]. by exists p.
Qed.

Lemma upsertGlobalRole_post name description w id w' : seed.upsertGlobalRole now name description w = (Ok id, w') -> isRole name id w'.
Proof.
  intros Hrun. unfold seed.upsertGlobalRole in Hrun. proc_inv Hrun.
  injection Hrun0 as <- <-. destruct (findFirst _ _) as [r|] eqn:E; proc_inv Hrun.
  - apply findFirst_Some in E as [Hr Hp]. bools.
    match goal with Hu : tx_update_raw _ _ _ = _ |- _ => unfold tx_update_raw in Hu; destruct (findFirst _ _); [|done]; injection Hu as _ <- end.
    exists (r <| role_description := Some description |> <| role_deletedAt := None |>). split.
    + cbn. apply in_map_iff. exists r. by rewrite bd_refl.
    + cbn. by destruct (role_organizationId r).
  - match goal with Hc : tx_create _ _ = _ |- _ => apply create_ok in Hc as (-> & -> & _) end. by apply some_last.
Qed.

Lemma grantPermissions_post ids roleId codes w w' : (forall code id, assoc code ids = Some id -> isPermission code id w) ->
  seed.grantPermissions ids roleId codes w = (Ok tt, w') ->
  forall code, In code codes -> exists id, isPermission code id w' /\ isGrant roleId id w'.
Proof.
  revert w. induction codes as [|code codes IH]; intros w Hids Hrun c; [done|]. cbn [seed.grantPermissions] in Hrun.
  destruct (assoc code ids) as [id|] eqn:Eid; [|done]. cbn [truthy default] in Hrun. destruct (negb _); [done|].
  apply proc_bind_ok in Hrun as (a & w1 & Hu & Hrun).
  assert (Hids' : forall code id, assoc code ids = Some id -> isPermission code id w1).
  { intros c' i Hi. eapply kept_run; [|exact Hu|by apply Hids]. by pres. }
  intros [<-|Hin]; [|by eapply IH].
  destruct (permission_kept code id) as (_ & _ & Hp), (grant_kept roleId id) as (_ & _ & Hg). exists id. split.
  - eapply kept_run; [apply Hp|exact Hrun|by apply Hids'].
  - eapply kept_run; [apply Hg|exact Hrun|]. apply transact_ok in Hu. tx_inv Hu. eapply upsert_some; [| |exact Hu]; [|done].
    intros r Hr. cbn in Hr |- *. by bools.
Qed.

Lemma kept_roles I ids l : kept I -> proc_pres I (seed.upsertRoles now ids l).
Proof.
  intros (_ & Hr & Hg). induction l as [|role l IH]; cbn [seed.upsertRoles]; [apply pres_proc_ret|].
  apply pres_proc_bind; [apply Hr|intros id]. apply pres_proc_bind; [apply Hg|intros _].
  apply pres_proc_bind; [exact IH|intros others; apply pres_proc_ret].
Qed.

(** A system role, under this identifier, with its permissions. *)
Definition seeded (w : World) (role : seed.SystemRole) (entry : string * string) : Prop :=
  fst entry = seed.sr_name role /\ isRole (seed.sr_name role) (snd entry) w
  /\ forall code, In code (seed.sr_permissions role) -> exists id, isPermission code id w /\ isGrant (snd entry) id w.

Lemma upsertRoles_post ids l w entries w' : (forall code id, assoc code ids = Some id -> isPermission code id w) ->
  seed.upsertRoles now ids l w = (Ok entries, w') -> Forall2 (seeded w') l entries.
Proof.
  revert w entries. induction l as [|role l IH]; intros w entries Hids Hrun; cbn [seed.upsertRoles] in Hrun; [by proc_inv Hrun|].
  apply proc_bind_ok in Hrun as (id & w1 & H1 & Hrun). apply proc_bind_ok in Hrun as ([] & w2 & H2 & Hrun).
  apply proc_bind_ok in Hrun as (others & w3 & H3 & Hrun). apply proc_ret_ok in Hrun as [<- ->].
  assert (Hids1 : forall code id, assoc code ids = Some id -> isPermission code id w1).
  { intros c i Hi. destruct (permission_kept c i) as (_ & Hk & _). eapply kept_run; [apply Hk|exact H1|by apply Hids]. }
  assert (Hids2 : forall code id, assoc code ids = Some id -> isPermission code id w2).
  { intros c i Hi. destruct (permission_kept c i) as (_ & _ & Hk). eapply kept_run; [apply Hk|exact H2|by apply Hids1]. }
  constructor; [|by eapply IH]. split; [done|]. split.
  - destruct (role_kept (seed.sr_name role) id) as (_ & _ & Hg). eapply kept_run; [by apply kept_roles, role_kept|exact H3|].
    eapply kept_run; [apply Hg|exact H2|]. by eapply upsertGlobalRole_post.
  - intros code Hin. destruct (grantPermissions_post _ _ _ _ _ Hids1 H2 code Hin) as (pid & Hp & Hg). exists pid.
    split; eapply kept_run; [by apply kept_roles, permission_kept|exact H3|done|by apply kept_roles, grant_kept|exact H3|done].
Qed.

Lemma seeded_grants w role entry code : seeded w role entry -> In code (seed.sr_permissions role) -> roleGrants w code (snd entry) = true.
Proof.
  intros (_ & _ & Hs) Hin. destruct (Hs code Hin) as (pid & (p & Hp & Hc & Hi & Hd) & (rp & Hrp & Hr & Hpid & Hrd)).
  apply existsb_exists. exists rp. split; [done|]. rewrite Hr, Hrd, bd_refl. cbn. apply existsb_exists. exists p. split; [done|].
  by rewrite Hi, Hc, Hd, Hpid, !bd_refl.
Qed.

Lemma findFirst_is_set {R} (P : R -> bool) r t : In r t -> P r = true -> is_set (findFirst P t) = true.
Proof. intros Hr HP. destruct (findFirst P t) eqn:E; [done|]. by rewrite (findFirst_None _ _ _ E Hr) in HP. Qed.

(** A platform role and a membership with a seeded role give its permissions. *)
Lemma holder_granted w role entry userId code : seeded w role entry -> isHolder userId (snd entry) w -> In code (seed.sr_permissions role) ->
  hasGlobalGrant userId code w = true.
Proof.
  intros Hs (ur & Hur & Hu & Hr & Hd) Hin. apply (findFirst_is_set _ ur); [done|]. cbn. rewrite Hd, Hu, bd_refl. cbn.
  pose proof (seeded_grants _ _ _ _ Hs Hin) as Hg. destruct Hs as (_ & (r & Hrow & _ & Hid & Ho & Hrd) & _).
  apply existsb_exists. exists r. split; [done|]. by rewrite Hid, Hr, Ho, Hrd, bd_refl, Hg.
Qed.
Lemma member_granted w role entry m code : seeded w role entry -> In m (memberships w) -> mem_roleId m = snd entry ->
  mem_status m = Mem_ACTIVE -> mem_deletedAt m = None -> In code (seed.sr_permissions role) ->
  hasOrganizationGrant (mem_userId m) (mem_organizationId m) code w = true.
Proof.
  intros Hs Hm Hr Ha Hd Hin. apply (findFirst_is_set _ m); [done|]. cbn. rewrite Hd, Ha, !bd_refl. cbn.
  pose proof (seeded_grants _ _ _ _ Hs Hin) as Hg. destruct Hs as (_ & (r & Hrow & _ & Hid & Ho & Hrd) & _).
  apply existsb_exists. exists r. split; [done|]. by rewrite Hid, Hr, Hrd, bd_refl, Hg.
Qed.

(** ** The permissions the routes ask for *)

Context `{Redis}.

Lemma asked_seeded route code scope : requirementOf route = a_permission code scope -> In code (List.map fst seed.permissions).
Proof.
  intros Hr. assert (Hm : mem code (List.map fst seed.permissions) = true).
  { destruct route as [r|r|r|r|r|r|r|r|r]; destruct r; cbn [requirementOf] in Hr; try done;
      repeat match type of Hr with (if ?c then _ else _) = _ => destruct c end; try done; injection Hr as <- _; by vm_compute. }
  apply existsb_exists in Hm as (c & Hc & Heq). by bools; subst.
Qed.

(** What a route asks of a member of the active organization. *)
Definition organizationCode (route : AppRoute) : option string :=
  match requirementOf route with
  | within_organization code _ | a_permission code (scope_organization | scope_context) => Some code
  | _ => None
  end.
Definition ownerPermissions : list string := Eval vm_compute in List.nth 1 (List.map seed.sr_permissions seed.systemRoles) [].

Lemma asked_of_owner route code : organizationCode route = Some code -> In code ownerPermissions.
Proof.
  unfold organizationCode. intros Hr. assert (Hm : mem code ownerPermissions = true).
  { destruct route as [r|r|r|r|r|r|r|r|r]; destruct r; cbn [requirementOf] in Hr; try done;
      repeat match type of Hr with context [if ?c then _ else _] => destruct c end; try done; injection Hr as <-; by vm_compute. }
  apply existsb_exists in Hm as (c & Hc & Heq). by bools; subst.
Qed.

(** C4: Seeding makes every permission usable. Once the script has run, a member of an organization whose membership has
    the seeded owner role holds every permission a route asks of a member of the active organization, and the user the
    deployment names as its administrator, however the address is spelt, holds every permission a route asks on the
    platform. No route asks for a permission nobody can be given. *)
Theorem seeded_access bootstrap w w' : seed.main now bootstrap w = (Ok tt, w') ->
  (exists owner, isRole "owner" owner w' /\ forall m route code, In m (memberships w') -> mem_roleId m = owner -> mem_status m = Mem_ACTIVE ->
     mem_deletedAt m = None -> organizationCode route = Some code ->
     hasOrganizationGrant (mem_userId m) (mem_organizationId m) code w' = true)
  /\ forall email, bootstrap = Some email -> toLowerCase (trim email) <> "" ->
     exists user, In user (users w') /\ user_email user = Some (toLowerCase (trim email))
     /\ forall route code scope, requirementOf route = a_permission code scope -> scope <> scope_organization ->
          hasGlobalGrant (user_id user) code w' = true.
Proof.
  intros Hrun. unfold seed.main in Hrun. apply proc_bind_ok in Hrun as ([] & w1 & H1 & Hrun).
  apply proc_bind_ok in Hrun as (found & w2 & H2 & Hrun). apply proc_bind_ok in Hrun as (entries & w3 & H3 & Hrun).
  apply transact_ok in H2. injection H2 as <- <-.
  apply upsertRoles_post in H3 as He.
  2: { intros code id Hc. apply assoc_In, in_map_iff in Hc as (p & [= <- <-] & Hp%in_rev). apply filter_In in Hp as [Hp Hd].
       exists p. repeat split; [done|]. by destruct (perm_deletedAt p). }
  inversion He as [|? admin ? rest Hadmin Hrest]; subst. inversion Hrest as [|? owner ? rest' Howner Hrest']; subst.
  assert (Hlast : forall I, (forall w f, I w -> I (w <| userRoles ::= f |>)) -> (forall n w, I w -> I (w <| drawn := n |>)) -> I w3 -> I w').
  { intros I Hu Hd Hw. eapply kept_run; [|exact Hrun|exact Hw]. destruct (truthy _); pres; [by apply pres_newId; intros; apply Hd|].
    apply pres_upsert; intros; by apply Hu. }
  assert (Hkeep : forall role entry, seeded w3 role entry -> seeded w' role entry).
  { intros role entry Hs. by apply (Hlast (fun w => seeded w role entry)). }
  split.
  - exists (snd owner). split; [by apply Hkeep in Howner as (_ & Hr & _)|]. intros m route code Hm Hr Ha Hd Hcode.
    eapply member_granted; [by apply Hkeep|done..|]. by apply (asked_of_owner route).
  - intros email -> Hne. cbn [fmap option_fmap option_map truthy default] in Hrun. rewrite bool_decide_eq_false_2 in Hrun by done.
    cbn [negb] in Hrun.
    apply proc_bind_ok in Hrun as (found & w4 & Hf & Hrun). apply transact_ok in Hf. injection Hf as <- <-.
    destruct (findFirst _ (users w3)) as [user|] eqn:Eu; [|done]. apply findFirst_Some in Eu as [Hu He']. apply bool_decide_eq_true in He'.
    exists user. split; [by apply (Hlast (fun w => In user (users w)))|]. split; [done|]. intros route code scope Hr _.
    eapply (holder_granted _ _ admin); [by apply Hkeep| |by eapply asked_seeded].
    destruct admin as [name id], Hadmin as (Hname & _). cbn in Hname. subst name. proc_inv Hrun.
    match goal with Hup : tx_upsert _ _ _ _ = _ |- _ => eapply upsert_some; [| |exact Hup]; [|done] end.
    intros ur Hur. cbn in Hur |- *. by bools.
Qed.
End SeedSpec.

Section Witness.
Local Existing Instance demoPlatform.
Local Existing Instance memoryRedis.

(** A database with one user, whose address the deployment spells its own way. *)
Definition root : User :=
  mkUser "u1" (Some "root@acme.test") None None None "en" None None 0 User_ACTIVE (Some 0%Z) None None 0 None.
Definition fresh : World := emptyWorld <| users := [root] |>.
Definition seededWorld : World := snd (seed.main 1000 (Some " Root@Acme.test ") fresh).

(** Seeding again restores what was revoked by hand and adds nothing. *)
Definition revoked : World := seededWorld <| rolePermissions ::= updateWhere (fun _ => true) (fun rp => rp <| rp_deletedAt := Some 2000%Z |>) |>.
Example seeded_again : let again := snd (seed.main 3000 None revoked) in
  rolePermissions again = rolePermissions seededWorld /\ roles again = roles seededWorld /\ permissions again = permissions seededWorld.
Proof. vm_compute. done. Qed.

Lemma seeded_access_witness : seed.main 1000 (Some " Root@Acme.test ") fresh = (Ok tt, seededWorld) /\
  exists user, In user (users seededWorld) /\ user_email user = Some "root@acme.test"
    /\ forall route code scope, requirementOf route = a_permission code scope -> scope <> scope_organization ->
         hasGlobalGrant (user_id user) code seededWorld = true.
Proof.
  assert (Hrun : seed.main 1000 (Some " Root@Acme.test ") fresh = (Ok tt, seededWorld)) by by vm_compute.
  split; [exact Hrun|]. refine (proj2 (seeded_access 1000 (Some " Root@Acme.test ") fresh seededWorld Hrun) " Root@Acme.test " eq_refl _).
  vm_compute. discriminate.
Defined.
End Witness.
